(* ===== verification/_CoqProject ===== *)
-Q . S2P
Prelude.v
CLib.v
Certificates.v
Json.v
Float.v
UaTypes.v
RefStack.v
Base64.v
Output.v
OutputBuf.v
CJson.v
Values.v
RoundTrip.v
Args.v
Capabilities.v
NodeIds.v
Connect.v
Session.v
ReadWrite.v
BrowseCall.v
Discovery.v
Historian.v
HistoryRead.v
Subscribe.v
Lifecycle.v
NodeServices.v
HistoryEvents.v
EventSubscribe.v
Alarms.v
Codec.v
PubSubJson.v
JsonTree.v
PubSubCodec.v
PubSubDescription.v
PubSubRoundTrip.v
LocalDiscovery.v
P12Json.v
Part12.v
Push.v
GdsPull.v
Client.v
Malformed.v
Fixture.v
ServerValues.v
PubSubSecurity.v
PubSubRecovery.v
PubSubConfig.v
PubSubSecured.v
ServerWorld.v
ServerSpace.v
ServerRun.v
RefHost.v
ServerLife.v
ServerFixture.v
ServerSecurity.v
ServerAlarm.v
Program.v
