(* ===== verification/Prelude.v ===== *)
(** * A verification library for the open62541 adapter of opcua-interop

    The program is the C adapter under src/adapters/open62541/src: one binary
    with a client side (subcommands that call an OPC UA server and print one
    JSON envelope), a server side (a server built from a fixture file) and a
    capability report.  It is written against open62541 and cJSON, which are
    not part of the repository.

    ** How the code is modelled

    - Text is [bytes], a list of integers 0..255; a C string is the list before
      its terminating zero.  [B] and [J] write literals ([J] with apostrophes
      for the double quotes of JSON).  Integers are [Z] with the wrap-around of
      their C width written out ([uwrap], [swrap], [u32], [s64], ...); doubles
      are [spec_float] with the rounding of binary64 written out.
    - A printer is the text it writes to stdout; a command is a function of the
      world, the global security settings and the arguments, with outcome
      [Exits world code text]; the outcomes [OutOfBounds] (a read of an array
      slot that was never written) and [NoFuel] are told apart from it.
    - The libraries are classes: [UaStack] (UaTypes.v: names of status codes and
      types, the calendar), [CJson] (CJson.v), [ClientLib] and [Services]
      (Connect.v, Session.v: the client API, over a state [W] that holds the
      network, the clock and the files), [HistoryServer] (Historian.v), [ServerHost] (ServerWorld.v), [Cpu]
      (Float.v: out-of-range casts, undefined in C) and [LocalTime]
      (ServerValues.v: mktime).  What is relied on is in their law classes
      ([UaStackLaws], [CJsonLaws], [ClientLibLaws], [Clock], [ServicesLaws],
      [DiscoveryLaws], [HistoryLaws], [SubscriptionLaws], ...): codes of 32 bits, text without control
      characters where the code prints it raw, one result per operation of a
      Good response, time that passes.  The reference instances ([ref_stack],
      [ref_client], [ref_services], ...) satisfy the laws and evaluate.
    - Loops that C ends by a condition are structural where the data allows it
      and take fuel where the end depends on the world ([wait_closed],
      [wait_channel], [reverse_rounds], [discovery_rounds], [browse_next]) or on
      mutual recursion ([value_parse]).  No theorem accepts exhaustion as an
      answer: [value_parse_total] bounds the fuel by the length of the literal,
      and the termination theorems give, for every input, an amount from which
      on the result no longer depends on it.
    - Memory management is not modelled: allocation succeeds, except where the
      code reports a failure of [UA_Client_new], and in the growing buffers of
      certificate management (class [Heap] of P12Json.v).

    ** Files

    - Prelude.v: this file: notations, tactics, the hint database [interop],
      machine integers, lists, options and results.
    - CLib.v, Float.v, Json.v: the C library (conversions, scanf, printf, search),
      binary64 numbers with strtod and the casts, and the reference for output: an
      automaton that recognises JSON texts.
    - UaTypes.v, RefStack.v, CJson.v: OPC UA data, the stack's interface, cJSON's.
    - Base64.v: the base64 code of values.c, client.c, server.c and output.c.
    - OutputBuf.v: the printers of output.c into a caller's buffer, against Output.v.
    - Output.v: output.c, every printer.  Values, whatever their nesting, and
      the envelopes are JSON, and a printed string reads back to its bytes.
    - Values.v: values.c, the typed literals of the command line.  Parsing ends,
      is well typed, and builds matrices as stated.
    - RoundTrip.v: output.c against values.c: what is printed of a NodeId, an
      ExpandedNodeId or a DateTime reads back to it.
    - Args.v, Capabilities.v: client.c find_arg, client_run and the security
      flags; server.c server_parse_args; the capability document.
    - NodeIds.v: the NodeId parsers of client.c and server.c agree with values.c.
    - Certificates.v: client.c certificate_san_uri; OpenSSL's parsers are a record.
    - Connect.v: client.c make_client, the reverse connection, the endpoint check:
      no downgrade of a mode that is spelled as the contract spells it, one report
      per failure with the contract's exit code for its category, termination.
    - Session.v, ReadWrite.v, BrowseCall.v, Discovery.v, HistoryRead.v, Subscribe.v,
      Lifecycle.v, NodeServices.v: the commands read, write, browse, translate,
      call, endpoints, find-servers, history-read, subscribe,
      subscription-lifecycle, republish, transfer-subscriptions, register-nodes
      and node-management of client.c: each ends and reports; browse is complete
      when no BrowseNext fails, exit code 0 of read means one Good value per node (of
      at most 128), and exit code 0 of subscribe the delivered values in order, as
      many as asked for.
    - HistoryEvents.v: history_events.c: the event filter built from the flags means
      what they ask for, event values have the type their JSON announces.
    - EventSubscribe.v, Alarms.v: the commands event-subscribe and alarms of
      client.c.  The stores the event callbacks fill are state machines over the
      delivered events; the condition table of a ConditionRefresh has its
      invariant; exit code 0 is characterised for both commands.
    - Codec.v: codec.c, the encode and decode commands over a class for the
      stack's three encodings: decode hands the stack what encode printed and shows
      what it makes of it.
    - JsonTree.v, PubSubCodec.v, PubSubDescription.v, PubSubRoundTrip.v:
      pubsub_codec.c.  The commands over a class for the stack's NetworkMessages;
      JSON trees and what cJSON reads of them; the description of a message as a
      tree; a description that decode prints makes encode build the same message.
    - LocalDiscovery.v: discovery.c (register-server, find-servers-on-network) and
      the secure channel they use: exit code 0 means the discovery server holds
      the registration, by the newer service or by the fallback.
    - P12Json.v, Part12.v: part12.c.  The JSON builder of push and gds-pull, with
      what each operation appends ([Writes], [Adds]); flags, certificates, Variants,
      browse paths; the TrustList read of a server with the FileType behaviour
      (interface [TrustListServer]) goes to the end of the file or to the first short
      Read; and the monad of steps both
      commands are written in, with rules for what steps keep.
    - Push.v: push.c: the method calls refine the plan of the contract (on servers that
      answer Good or Bad: [StopRule] of Part12.v says where code and contract differ).
    - GdsPull.v: gds_pull.c: the requests refine the table of the contract's steps,
      the poll of FinishRequest ends with the clock ([PollClock]), and the record
      that is registered reads back by the rules of Part 6.
    - Client.v: client_run with all these commands, over one interface [ClientWorld]
      that collects the classes of the stack: every run ends, prints one JSON
      envelope for its operation and exits with 0 exactly when the envelope says
      success ([client_reports], from the commands' own lemmas).
    - Malformed.v: malformed NodeIds are refused before any network I/O.
    - Historian.v: the historian of server.c (continuation points in a table of
      16 slots) as a state machine with its invariant over all reachable states,
      isolation of readers, and the client's continue scenario run against it.
    - Fixture.v: fixture.c: a loaded fixture says what its file says, member by member
      ([fixture_of]).
    - ServerValues.v: server.c: initial values against the literals that denote them
      ([denotes]), method callbacks against an abstract specification, periodic behaviours.
    - PubSubSecurity.v: pubsub_security.c (AES-CTR policies with HMAC-SHA256, over a
      class for OpenSSL) and split_key of pubsub_server.c: messages are encrypted with
      the AES-CTR stream and signed with the HMAC of their keys and decrypt and
      verify between contexts with the same keys, the contexts' invariant, and
      the key generator as P_SHA256.
    - PubSubConfig.v, PubSubJson.v, PubSubRecovery.v, PubSubSecured.v:
      pubsub_server.c.  The configuration of connections, groups, writers and
      readers in a state and error monad over a class for the stack's PubSub API;
      the normalisation of JSON messages, which keeps the payload; the recovery of
      failed components as a state machine (every component in error has a retry
      pending, unless the server refused the timer, with a bounded backoff); and, over
      the log of the API calls, that a group with security has its policy and the keys
      of its source, or the pull of them, before anything is enabled.
    - ServerWorld.v: the server API and the host as one family of calls with typed
      answers (class [ServerHost]), actions over it that log every call with its
      answer, and rules ([moves], [stays]) to show that the log of an action is a
      path of a state machine.
    - ServerSpace.v, ServerRun.v: server.c server_run and its helpers as actions:
      security, users and discovery, the nodes of the fixture, historian, events,
      alarm and behaviours, start-up, PubSub, readiness file, main loop, shutdown.
    - RefHost.v: a host that answers and on which whole runs are evaluated.
    - ServerLife.v: the life cycle of the server process and its readiness file
      ([life]): what each exit code means, and that a run ends after a signal.  The
      fuel counts the rounds of the main loop and of the 1.5 s wait for the
      discovery server: those until the signal, and 150 of 10 ms, are enough.
    - ServerFixture.v: the calls between creation and start-up build exactly the
      address space of the fixture, over a law for the namespace table, against a
      description of the calls of its own ([adds]).
    - ServerSecurity.v: only the security that is asked for is configured, with the
      files that are given ([SteadyFiles]: they do not change meanwhile), and a server
      is only created with it.
    - ServerAlarm.v: what arming leaves in the alarm condition, given that the stack
      writes a message of its own when the severity or the active state changes.
    - Program.v: main.c: all subcommands as one program; the capability document it
      prints announces exactly the commands that are dispatched, validate-fixture
      accepts what the server starts from, and the self-test the program carries passes on
      its model.

    Lemmas with the names of PROJECT.json's findings show, by evaluation, where
    the code does something other than its comments say.

    ** Not modelled

    Log lines on stderr; memory that is only released (fixture_free, the clean-up
    at the end of server_run) and, but for the places named above, allocations that
    fail; the alternatives of build options the adapter's image does not use; what
    the stack does inside one iteration of the server's loop, where the callbacks it
    runs are the modelled functions.  The adapters in other languages, the scripts
    that amalgamate the stack, the unit test of the fixture loader and the test
    orchestration are other programs. *)

From Stdlib Require Import String Ascii ZArith Bool List Lia.
Import ListNotations.
#[export] Set Default Goal Selector "!".
#[export] Set Warnings "-register-all".

Declare Scope interop_scope.
Delimit Scope interop_scope with interop.
Open Scope Z_scope.
Open Scope list_scope.

#[global] Arguments Z.add : simpl never.
#[global] Arguments Z.sub : simpl never.
#[global] Arguments Z.mul : simpl never.
#[global] Arguments Z.opp : simpl never.
#[global] Arguments Z.pow : simpl never.
#[global] Arguments Z.div : simpl never.
#[global] Arguments Z.modulo : simpl never.
#[global] Arguments Z.land : simpl never.
#[global] Arguments Z.lor : simpl never.
#[global] Arguments Z.shiftl : simpl never.
#[global] Arguments Z.shiftr : simpl never.
#[global] Arguments Z.leb : simpl never.
#[global] Arguments Z.ltb : simpl never.
#[global] Arguments Z.of_nat : simpl never.
#[global] Arguments Z.to_nat : simpl never.

(** * Bytes and C strings *)

(** A byte buffer, one [Z] in [0, 255] per byte.  A C string is such a buffer
    without a zero byte: the terminator is not part of the list. *)
Abbreviation bytes := (list Z).

Definition is_byte (c : Z) : bool := (0 <=? c) && (c <? 256).
Definition Bytes (l : bytes) : Prop := Forall (fun c => is_byte c = true) l.
Definition NoNul (l : bytes) : Prop := Forall (fun c => c <> 0) l.

(** Text of a C string literal. *)
Definition B (s : string) : bytes :=
  map (fun a => Z.of_N (N_of_ascii a)) (list_ascii_of_string s).

(** Text of a C string literal that quotes JSON: the apostrophe stands for the
    double quote, so that the templates of the source stay readable. *)
Definition J (s : string) : bytes :=
  map (fun c => if c =? 39 then 34 else c) (B s).

(** A character constant. *)
Definition ch (s : string) : Z := hd 0 (B s).

(** * Results of fallible code *)

(** [Err] carries the text the C code leaves in its [errBuf]. *)
Inductive result (A : Type) : Type :=
| Ok (a : A)
| Err (msg : bytes).
Arguments Ok {A} a.
Arguments Err {A} msg.

Definition rbind {A C} (r : result A) (k : A -> result C) : result C :=
  match r with Ok a => k a | Err m => Err m end.

Definition obind {A C} (o : option A) (k : A -> option C) : option C :=
  match o with Some a => k a | None => None end.

Notation "'do' x <- c ; k" := (obind c (fun x => k))
  (at level 10, x name, c at level 100, k at level 200) : interop_scope.
Notation "'try' x <- c ; k" := (rbind c (fun x => k))
  (at level 10, x name, c at level 100, k at level 200) : interop_scope.
Open Scope interop_scope.

(** [if (c) return NULL / -1;] *)
Definition guard {A} (c : bool) (k : option A) : option A := if c then k else None.

Definition of_option {A} (msg : bytes) (o : option A) : result A :=
  match o with Some a => Ok a | None => Err msg end.

Definition is_some {A} (o : option A) : bool :=
  match o with Some _ => true | None => false end.

Definition default {A} (d : A) (o : option A) : A :=
  match o with Some a => a | None => d end.

Fixpoint mapM {A C} (f : A -> option C) (l : list A) : option (list C) :=
  match l with
  | [] => Some []
  | x :: r => do y <- f x; do ys <- mapM f r; Some (y :: ys)
  end.

Fixpoint mapR {A C} (f : A -> result C) (l : list A) : result (list C) :=
  match l with
  | [] => Ok []
  | x :: r => try y <- f x; try ys <- mapR f r; Ok (y :: ys)
  end.

(** * Fixed-width integers *)

(** Conversion to a [w]-bit unsigned / two's-complement signed integer. *)
Definition uwrap (w x : Z) : Z := x mod 2 ^ w.
Definition swrap (w x : Z) : Z := (x + 2 ^ (w - 1)) mod 2 ^ w - 2 ^ (w - 1).

Definition u8 := uwrap 8.
Definition u16 := uwrap 16.
Definition u32 := uwrap 32.
Definition u64 := uwrap 64.
Definition s8 := swrap 8.
Definition s16 := swrap 16.
Definition s32 := swrap 32.
Definition s64 := swrap 64.

Lemma uwrap_range w x : 0 <= w -> 0 <= uwrap w x < 2 ^ w.
Proof. intros. unfold uwrap. apply Z.mod_pos_bound. lia. Qed.

Lemma uwrap_small w x : 0 <= x < 2 ^ w -> uwrap w x = x.
Proof. intros. unfold uwrap. now apply Z.mod_small. Qed.

Lemma swrap_range w x : 0 < w -> - 2 ^ (w - 1) <= swrap w x < 2 ^ (w - 1).
Proof.
  intros Hw. unfold swrap.
  assert (2 ^ w = 2 * 2 ^ (w - 1)) as E
    by (rewrite <- Z.pow_succ_r by lia; f_equal; lia).
  assert (0 < 2 ^ w) by (apply Z.pow_pos_nonneg; lia).
  pose proof (Z.mod_pos_bound (x + 2 ^ (w - 1)) (2 ^ w)). lia.
Qed.

Lemma swrap_small w x : 0 < w -> - 2 ^ (w - 1) <= x < 2 ^ (w - 1) -> swrap w x = x.
Proof.
  intros Hw Hx. unfold swrap.
  assert (2 ^ w = 2 * 2 ^ (w - 1)) as E
    by (rewrite <- Z.pow_succ_r by lia; f_equal; lia).
  rewrite Z.mod_small; lia.
Qed.

Lemma u8_is_byte x : is_byte (u8 x) = true.
Proof.
  pose proof (uwrap_range 8 x). unfold is_byte, u8. change (2 ^ 8) with 256 in *.
  apply andb_true_intro; split; [apply Z.leb_le|apply Z.ltb_lt]; lia.
Qed.

(** * Tactics *)

(** Case analysis on the boolean comparisons of the goal or the context,
    leaving the corresponding propositions. *)
Ltac zbool :=
  repeat match goal with
  | H : _ && _ = true |- _ => apply andb_prop in H; destruct H
  | H : negb _ = true |- _ => apply negb_true_iff in H
  | H : negb _ = false |- _ => apply negb_false_iff in H
  | H : (_ =? _) = true |- _ => apply Z.eqb_eq in H
  | H : (_ =? _) = false |- _ => apply Z.eqb_neq in H
  | H : (_ <? _) = true |- _ => apply Z.ltb_lt in H
  | H : (_ <? _) = false |- _ => apply Z.ltb_ge in H
  | H : (_ <=? _) = true |- _ => apply Z.leb_le in H
  | H : (_ <=? _) = false |- _ => apply Z.leb_gt in H
  end.

(** Destruct the innermost scrutinee of a [match] or [if] in the goal. *)
Ltac case_goal :=
  match goal with
  | |- context [match ?x with _ => _ end] =>
      lazymatch x with
      | context [match _ with _ => _ end] => fail
      | _ => let E := fresh "E" in destruct x eqn:E
      end
  end.

Ltac case_hyp H :=
  match type of H with
  | context [match ?x with _ => _ end] =>
      lazymatch x with
      | context [match _ with _ => _ end] => fail
      | _ => let E := fresh "E" in destruct x eqn:E
      end
  end.

(** Expose the binds of an option or result computation in a hypothesis. *)
Ltac inv_bind H :=
  repeat (unfold obind, rbind, guard in H; case_hyp H; try discriminate H).

Create HintDb interop.
#[export] Hint Resolve Forall_nil Forall_cons : interop.
Create Rewrite HintDb interop.
#[export] Hint Rewrite app_nil_r length_app : interop.

(** * Lists *)

Lemma NoNul_app a b : NoNul (a ++ b) <-> NoNul a /\ NoNul b.
Proof. apply Forall_app. Qed.

Lemma Bytes_app a b : Bytes (a ++ b) <-> Bytes a /\ Bytes b.
Proof. apply Forall_app. Qed.

Lemma Bytes_cat a b : Bytes a -> Bytes b -> Bytes (a ++ b).
Proof. intros. now apply Forall_app. Qed.

Lemma Bytes_In l c : Bytes l -> In c l -> 0 <= c < 256.
Proof.
  intros H Hc. unfold Bytes in H. rewrite Forall_forall in H. specialize (H _ Hc).
  unfold is_byte in H. zbool. lia.
Qed.

Lemma mapM_length {A C} (f : A -> option C) l r : mapM f l = Some r -> length r = length l.
Proof.
  revert r. induction l as [|x l IH]; cbn; intros r H.
  - now inversion H.
  - unfold obind in H. destruct (f x); [|discriminate]. destruct (mapM f l); [|discriminate].
    inversion H; subst; cbn. f_equal. now apply IH.
Qed.

Lemma mapR_length {A C} (f : A -> result C) l r : mapR f l = Ok r -> length r = length l.
Proof.
  revert r. induction l as [|x l IH]; cbn; intros r H.
  - now inversion H.
  - unfold rbind in H. destruct (f x); [|discriminate]. destruct (mapR f l); [|discriminate].
    inversion H; subst; cbn. f_equal. now apply IH.
Qed.

Lemma mapR_Forall {A C} (f : A -> result C) (P : C -> Prop) l r :
  (forall x y, In x l -> f x = Ok y -> P y) -> mapR f l = Ok r -> Forall P r.
Proof.
  revert r. induction l as [|x l IH]; cbn; intros r Hf H.
  - inversion H. constructor.
  - unfold rbind in H. destruct (f x) eqn:E; [|discriminate].
    destruct (mapR f l) eqn:E'; [|discriminate].
    inversion H; subst; cbn. constructor; [eapply Hf; eauto|].
    apply IH; [|reflexivity]. intros; eapply Hf; eauto.
Qed.

Lemma Forall_firstn {A} (P : A -> Prop) n l : Forall P l -> Forall P (firstn n l).
Proof.
  intros H. apply Forall_forall. intros x Hx. rewrite Forall_forall in H. apply H.
  rewrite <- (firstn_skipn n l). apply in_or_app. now left.
Qed.

Lemma Forall_skipn {A} (P : A -> Prop) n l : Forall P l -> Forall P (skipn n l).
Proof.
  intros H. apply Forall_forall. intros x Hx. rewrite Forall_forall in H. apply H.
  rewrite <- (firstn_skipn n l). apply in_or_app. now right.
Qed.
