(* ===== verification/CLib.v ===== *)
(** The C standard library as the adapter uses it (glibc on a 64-bit Linux, the
    Debian image of the Dockerfile): string search, the [strto*] and [scanf]
    conversions, [printf] integer conversions, [strtok_r], [timegm].  The text
    functions work on [bytes] without the terminating zero; a [char *] that
    points into a string is the suffix that starts there. *)

From Stdlib Require Import String Ascii ZArith Bool List Lia.
Import ListNotations.
From S2P Require Import Prelude.

(** * Comparison and search *)

(** [strcmp(a, b) == 0] *)
Fixpoint streq (a b : bytes) : bool :=
  match a, b with
  | [], [] => true
  | x :: a', y :: b' => (x =? y) && streq a' b'
  | _, _ => false
  end.

(** [strncmp(s, p, strlen(p)) == 0]; the result is [s + strlen(p)]. *)
Fixpoint strip (p s : bytes) : option bytes :=
  match p, s with
  | [], _ => Some s
  | x :: p', y :: s' => if x =? y then strip p' s' else None
  | _, [] => None
  end.

(** [strchr(s, c)] as the text before the character and the text after it. *)
Fixpoint strchr (c : Z) (s : bytes) : option (bytes * bytes) :=
  match s with
  | [] => None
  | x :: r =>
      if x =? c then Some ([], r)
      else match strchr c r with Some (a, b) => Some (x :: a, b) | None => None end
  end.

Definition isdigit (c : Z) : bool := (48 <=? c) && (c <=? 57).
Definition isspace (c : Z) : bool := (c =? 32) || ((9 <=? c) && (c <=? 13)).
Definition tolower (c : Z) : Z := if (65 <=? c) && (c <=? 90) then c + 32 else c.

(** [strcasecmp(a, b) == 0] *)
Definition strcaseeq (a b : bytes) : bool := streq (map tolower a) (map tolower b).

(** The tokens [strtok_r] yields for a one-character delimiter set. *)
Fixpoint strtok_aux (c : Z) (cur s : bytes) : list bytes :=
  match s with
  | [] => match cur with [] => [] | _ => [rev cur] end
  | x :: r =>
      if x =? c then match cur with [] => strtok_aux c [] r | _ => rev cur :: strtok_aux c [] r end
      else strtok_aux c (x :: cur) r
  end.
Definition strtok (c : Z) (s : bytes) : list bytes := strtok_aux c [] s.

(** [snprintf(buf, n, "%s", s)]: what is left in the buffer. *)
Definition snprintf (n : nat) (s : bytes) : bytes := firstn (n - 1) s.

(** A [memcpy]'d prefix read back as a C string stops at the first zero byte. *)
Fixpoint cstr (s : bytes) : bytes :=
  match s with
  | [] => []
  | c :: r => if c =? 0 then [] else c :: cstr r
  end.

(** * Digits *)

Definition digit_char (d : Z) : Z := if d <? 10 then 48 + d else 87 + d.

Definition digit_val (base c : Z) : option Z :=
  let v := if isdigit c then Some (c - 48)
           else if (97 <=? c) && (c <=? 122) then Some (c - 87)
           else if (65 <=? c) && (c <=? 90) then Some (c - 55)
           else None in
  match v with
  | Some d => if d <? base then Some d else None
  | None => None
  end.

(** The digits of [n], most significant first; [fuel] bounds their number. *)
Fixpoint digits (base : Z) (fuel : nat) (n : Z) (acc : bytes) : bytes :=
  match fuel with
  | O => acc
  | S f => if n <? base then digit_char n :: acc
           else digits base f (n / base) (digit_char (n mod base) :: acc)
  end.

Definition num_fuel (n : Z) : nat := S (Z.to_nat (Z.log2 n)).

(** [%u], [%x], [%d] and the zero-padded forms. *)
Definition fmt_u (n : Z) : bytes := digits 10 (num_fuel n) n [].
Definition fmt_x (n : Z) : bytes := digits 16 (num_fuel n) n [].
Definition fmt_d (n : Z) : bytes := if n <? 0 then 45 :: fmt_u (- n) else fmt_u n.
Definition pad0 (w : nat) (s : bytes) : bytes := repeat 48 (w - length s) ++ s.
Definition fmt_x0 (w : nat) (n : Z) : bytes := pad0 w (fmt_x n).
Definition fmt_u0 (w : nat) (n : Z) : bytes := pad0 w (fmt_u n).

(** * strtol, strtoul, atoi *)

Fixpoint scan (base acc : Z) (s : bytes) : Z * bytes :=
  match s with
  | [] => (acc, [])
  | c :: r => match digit_val base c with
              | Some d => scan base (acc * base + d) r
              | None => (acc, s)
              end
  end.

Definition starts_digit (base : Z) (s : bytes) : bool :=
  match s with c :: _ => is_some (digit_val base c) | [] => false end.

Fixpoint skip_space (s : bytes) : bytes :=
  match s with
  | c :: r => if isspace c then skip_space r else s
  | [] => []
  end.

Definition scan_sign (s : bytes) : bool * bytes :=
  match s with
  | 45 :: r => (true, r)
  | 43 :: r => (false, r)
  | _ => (false, s)
  end.

(** The base and the text after a base prefix, for [base] 0 and 16. *)
Definition scan_base (base : Z) (s : bytes) : Z * bytes :=
  match s with
  | 48 :: x :: r =>
      if ((base =? 0) || (base =? 16)) && (tolower x =? 120) && starts_digit 16 r then (16, r)
      else if base =? 0 then (8, s) else (base, s)
  | 48 :: _ => (if base =? 0 then 8 else base, s)
  | _ => (if base =? 0 then 10 else base, s)
  end.

(** Sign, magnitude and the rest of the subject sequence; [None] without one. *)
Definition strto_scan (base : Z) (s : bytes) : option (bool * Z * bytes) :=
  let '(neg, s1) := scan_sign (skip_space s) in
  let '(b, s2) := scan_base base s1 in
  if starts_digit b s2 then
    let '(v, r) := scan b 0 s2 in Some (neg, v, r)
  else None.

Definition ULONG_MAX : Z := 2 ^ 64 - 1.
Definition LONG_MAX : Z := 2 ^ 63 - 1.
Definition LONG_MIN : Z := - 2 ^ 63.

(** Result of a [strto*] call: the value, [*end] and whether [errno] is set. *)
Record strto := { sval : Z; send : bytes; sconv : bool; serange : bool }.

Definition strtoul (base : Z) (s : bytes) : strto :=
  match strto_scan base s with
  | None => {| sval := 0; send := s; sconv := false; serange := false |}
  | Some (neg, v, r) =>
      if ULONG_MAX <? v then {| sval := ULONG_MAX; send := r; sconv := true; serange := true |}
      else {| sval := if neg then u64 (- v) else v; send := r; sconv := true; serange := false |}
  end.

Definition strtol (base : Z) (s : bytes) : strto :=
  match strto_scan base s with
  | None => {| sval := 0; send := s; sconv := false; serange := false |}
  | Some (neg, v, r) =>
      let x := if neg then - v else v in
      {| sval := Z.max LONG_MIN (Z.min LONG_MAX x); send := r; sconv := true;
         serange := negb ((LONG_MIN <=? x) && (x <=? LONG_MAX)) |}
  end.

(** [atoi] is [(int)strtol(s, NULL, 10)] in glibc. *)
Definition atoi (s : bytes) : Z := s32 (sval (strtol 10 s)).

(** * sscanf conversions *)

(** [%d] into an [int]: the value and the rest of the input. *)
Definition scan_d (s : bytes) : option (Z * bytes) :=
  match strto_scan 10 s with
  | None => None
  | Some (neg, v, r) => Some (s32 (Z.max LONG_MIN (Z.min LONG_MAX (if neg then - v else v))), r)
  end.

(** At most [w] hexadecimal digits. *)
Fixpoint scanw (w : nat) (acc : Z) (s : bytes) : Z * bytes :=
  match w, s with
  | S w', c :: r => match digit_val 16 c with
                    | Some d => scanw w' (acc * 16 + d) r
                    | None => (acc, s)
                    end
  | _, _ => (acc, s)
  end.

(** [%0<w>x] into an [unsigned]: sign, an optional [0x] and the digits share the
    field width. *)
Definition scan_xw (w : nat) (s : bytes) : option (Z * bytes) :=
  let s0 := skip_space s in
  let '(neg, s1) := scan_sign s0 in
  let w1 := if Nat.eqb (length s1) (length s0) then w else (w - 1)%nat in
  let fin (p : Z * bytes) := let '(v, r) := p in Some (u32 (if neg then - v else v), r) in
  match s1 with
  | 48 :: x :: r =>
      if Nat.leb 2 w1 && (tolower x =? 120) then fin (scanw (w1 - 2) 0 r)
      else if Nat.leb 1 w1 then fin (scanw w1 0 s1) else None
  | _ => if Nat.leb 1 w1 && starts_digit 16 s1 then fin (scanw w1 0 s1) else None
  end.

(** A literal character of the format. *)
Definition scan_lit (c : Z) (s : bytes) : option bytes :=
  match s with
  | x :: r => if x =? c then Some r else None
  | [] => None
  end.

(** * timegm *)

(** Days from 1970-01-01 to the first day of month [m] (1..12) of year [y] of
    the proleptic Gregorian calendar, plus [d - 1]. *)
Definition days_from_civil (y m d : Z) : Z :=
  let y' := if m <=? 2 then y - 1 else y in
  let era := y' / 400 in
  let yoe := y' - era * 400 in
  let mp := (m + 9) mod 12 in
  let doy := (153 * mp + 2) / 5 in
  let doe := yoe * 365 + yoe / 4 - yoe / 100 + doy in
  era * 146097 + doe - 719468 + (d - 1).

(** [timegm] of [tm_year + 1900], [tm_mon + 1], [tm_mday], [tm_hour], [tm_min]
    and [tm_sec]; months out of range carry into the year. *)
Definition timegm (Y M D h m s : Z) : Z :=
  let y := Y + (M - 1) / 12 in
  let mo := (M - 1) mod 12 + 1 in
  days_from_civil y mo D * 86400 + h * 3600 + m * 60 + s.

(** * Lemmas *)

Lemma streq_refl s : streq s s = true.
Proof. induction s; cbn; [reflexivity|]. now rewrite Z.eqb_refl. Qed.

Lemma streq_eq a b : streq a b = true <-> a = b.
Proof.
  split; [|intros ->; apply streq_refl].
  revert b. induction a as [|x a IH]; destruct b as [|y b]; cbn; intros H; try easy.
  zbool. subst. f_equal. now apply IH.
Qed.

Lemma streq_neq a b : streq a b = false <-> a <> b.
Proof.
  rewrite <- streq_eq. destruct (streq a b); split; congruence.
Qed.

Lemma streq_sym a b : streq a b = streq b a.
Proof.
  destruct (streq b a) eqn:E; [apply streq_eq in E; subst; apply streq_refl|].
  apply streq_neq in E. apply streq_neq. congruence.
Qed.

Lemma strip_app p s : strip p (p ++ s) = Some s.
Proof. induction p; cbn; [reflexivity|]. now rewrite Z.eqb_refl. Qed.

Lemma strip_Some p s r : strip p s = Some r -> s = p ++ r.
Proof.
  revert s. induction p as [|x p IH]; cbn; intros s H; [now inversion H|].
  destruct s as [|y s]; [discriminate|]. destruct (x =? y) eqn:E; [|discriminate].
  zbool. subst. f_equal. now apply IH.
Qed.

Lemma strchr_Some c s a b : strchr c s = Some (a, b) -> s = a ++ c :: b /\ ~ In c a.
Proof.
  revert a b. induction s as [|x s IH]; cbn; intros a b H; [discriminate|].
  destruct (x =? c) eqn:E.
  - inversion H; subst. zbool. subst. split; [reflexivity|intros []].
  - destruct (strchr c s) as [[a' b']|]; [|discriminate]. inversion H; subst.
    destruct (IH _ _ eq_refl) as [-> Hn]. split; [reflexivity|].
    zbool. cbn. intros [->|?]; tauto.
Qed.

Lemma strchr_app c a b : ~ In c a -> strchr c (a ++ c :: b) = Some (a, b).
Proof.
  induction a as [|x a IH]; cbn; intros H; [now rewrite Z.eqb_refl|].
  destruct (Z.eqb_spec x c); [tauto|]. rewrite IH by tauto. reflexivity.
Qed.

Lemma strchr_None c s : strchr c s = None <-> ~ In c s.
Proof.
  induction s as [|x s IH]; cbn; [tauto|].
  destruct (Z.eqb_spec x c); [split; [discriminate|tauto]|].
  destruct (strchr c s) as [[a b]|]; [split; [discriminate|]|].
  - intros H. exfalso. apply H. right. destruct (in_dec Z.eq_dec c s) as [|N]; [assumption|].
    exfalso. assert (Some (a, b) = None) by tauto. discriminate.
  - split; [|reflexivity]. intros _ [?|?]; [tauto|]. now apply IH.
Qed.

Lemma cstr_id s : NoNul s -> cstr s = s.
Proof.
  induction 1 as [|c s Hc _ IH]; cbn; [reflexivity|].
  destruct (Z.eqb_spec c 0); [tauto|]. now rewrite IH.
Qed.

Lemma cstr_NoNul s : NoNul (cstr s).
Proof.
  induction s as [|c s IH]; cbn; [constructor|].
  destruct (Z.eqb_spec c 0); [constructor|]. constructor; assumption.
Qed.

Lemma digit_val_char b d : 0 <= d < b -> b <= 16 -> digit_val b (digit_char d) = Some d.
Proof.
  intros Hd Hb. unfold digit_val, digit_char, isdigit.
  destruct (Z.ltb_spec d 10).
  - destruct (Z.leb_spec 48 (48 + d)), (Z.leb_spec (48 + d) 57); try lia; cbn.
    replace (48 + d - 48) with d by lia. destruct (Z.ltb_spec d b); [reflexivity|lia].
  - destruct (Z.leb_spec 48 (87 + d)), (Z.leb_spec (87 + d) 57); try lia; cbn.
    destruct (Z.leb_spec 97 (87 + d)), (Z.leb_spec (87 + d) 122); try lia; cbn.
    replace (87 + d - 87) with d by lia. destruct (Z.ltb_spec d b); [reflexivity|lia].
Qed.

Lemma scan_app base a b acc :
  scan base acc (a ++ b) =
  match scan base acc a with (v, []) => scan base v b | (v, r) => (v, r ++ b) end.
Proof.
  revert acc. induction a as [|c a IH]; cbn; intros acc; [reflexivity|].
  destruct (digit_val base c); [apply IH|reflexivity].
Qed.

Lemma num_fuel_ok base n : 2 <= base -> 0 <= n -> n < base ^ Z.of_nat (num_fuel n).
Proof.
  intros Hb Hn. unfold num_fuel. rewrite Nat2Z.inj_succ, Z2Nat.id by apply Z.log2_nonneg.
  destruct (Z.eq_dec n 0) as [->|].
  - cbn. lia.
  - destruct (Z.log2_spec n) as [_ H]; [lia|].
    eapply Z.lt_le_trans; [exact H|]. apply Z.pow_le_mono_l.
    pose proof (Z.log2_nonneg n). lia.
Qed.

Lemma digits_acc base fuel n acc : digits base fuel n acc = digits base fuel n [] ++ acc.
Proof.
  revert n acc. induction fuel as [|f IH]; cbn; intros n acc; [reflexivity|].
  destruct (n <? base); [reflexivity|].
  rewrite IH, (IH _ [_]), <- app_assoc. reflexivity.
Qed.

(** Reading back the digits of [n] gives [n]. *)
Lemma scan_digits base fuel n :
  2 <= base <= 16 -> 0 <= n < base ^ Z.of_nat fuel -> fuel <> O ->
  scan base 0 (digits base fuel n []) = (n, []).
Proof.
  intros Hb. revert n. induction fuel as [|f IH]; intros n Hn Hf; [congruence|].
  cbn [digits]. destruct (Z.ltb_spec n base) as [Hlt|Hge].
  - cbn. rewrite digit_val_char by lia. f_equal.
  - rewrite digits_acc, scan_app.
    assert (f <> O) as Hf'.
    { intros ->. rewrite Nat2Z.inj_succ in Hn. cbn in Hn. lia. }
    rewrite IH; [|split|assumption].
    + cbn. rewrite digit_val_char by (pose proof (Z.mod_pos_bound n base); lia).
      f_equal. rewrite (Z.div_mod n base) at 3 by lia. lia.
    + apply Z.div_pos; lia.
    + apply Z.div_lt_upper_bound; [lia|].
      rewrite Nat2Z.inj_succ, Z.pow_succ_r in Hn by lia. lia.
Qed.

Lemma scan_fmt base n r :
  2 <= base <= 16 -> 0 <= n -> starts_digit base r = false ->
  scan base 0 (digits base (num_fuel n) n [] ++ r) = (n, r).
Proof.
  intros Hb Hn Hr. rewrite scan_app, scan_digits by (try discriminate; auto; split; auto;
    apply num_fuel_ok; lia).
  destruct r as [|c r]; cbn in *; [reflexivity|].
  destruct (digit_val base c); [discriminate|reflexivity].
Qed.

(** The digit characters a conversion prints. *)
Lemma digit_char_range base d : 0 <= d < base -> base <= 16 ->
  48 <= digit_char d <= 57 \/ 97 <= digit_char d <= 102.
Proof. intros. unfold digit_char. destruct (Z.ltb_spec d 10); lia. Qed.

Lemma digits_Forall (P : Z -> Prop) base fuel n acc :
  2 <= base -> 0 <= n -> (forall d, 0 <= d < base -> P (digit_char d)) ->
  Forall P acc -> Forall P (digits base fuel n acc).
Proof.
  intros Hb. revert n acc. induction fuel as [|f IH]; cbn; intros n acc Hn HP Hacc; [assumption|].
  destruct (Z.ltb_spec n base).
  - constructor; [apply HP; lia|assumption].
  - apply IH; [apply Z.div_pos; lia|assumption|].
    constructor; [|assumption]. apply HP. apply Z.mod_pos_bound. lia.
Qed.

Lemma digits_nonnil base fuel n : fuel <> O -> digits base fuel n [] <> [].
Proof.
  destruct fuel as [|f]; [congruence|intros _]. cbn. destruct (n <? base); [discriminate|].
  rewrite digits_acc. destruct (digits base f (n / base) []); discriminate.
Qed.

Lemma fmt_u_nonnil n : fmt_u n <> [].
Proof. apply digits_nonnil. discriminate. Qed.

Lemma isdigit_digit_char d : 0 <= d < 10 -> isdigit (digit_char d) = true.
Proof.
  intros. unfold isdigit, digit_char. destruct (Z.ltb_spec d 10); [|lia].
  apply andb_true_intro; split; apply Z.leb_le; lia.
Qed.

Lemma fmt_u_digits n : 0 <= n -> Forall (fun c => isdigit c = true) (fmt_u n).
Proof.
  intros. apply digits_Forall; try lia; [|constructor]. intros. now apply isdigit_digit_char.
Qed.

Definition ishex (c : Z) : bool := isdigit c || ((97 <=? c) && (c <=? 102)).

Lemma ishex_digit_char d : 0 <= d < 16 -> ishex (digit_char d) = true.
Proof.
  intros H. unfold ishex, isdigit. destruct (digit_char_range 16 d H) as [?|?]; [lia| |].
  - apply orb_true_intro. left. apply andb_true_intro; split; apply Z.leb_le; lia.
  - apply orb_true_intro. right. apply andb_true_intro; split; apply Z.leb_le; lia.
Qed.

Lemma fmt_x_hex n : 0 <= n -> Forall (fun c => ishex c = true) (fmt_x n).
Proof.
  intros. apply digits_Forall; try lia; [|constructor]. intros. now apply ishex_digit_char.
Qed.

Lemma pad0_Forall (P : Z -> Prop) w s : P 48 -> Forall P s -> Forall P (pad0 w s).
Proof.
  intros H0 Hs. unfold pad0. apply Forall_app; split; [|assumption].
  apply Forall_forall. intros x Hx. apply repeat_spec in Hx. now subst.
Qed.

(** ** Reading decimal text back *)

Lemma digit_head (n : Z) (r : bytes) :
  0 <= n -> exists c s, fmt_u n ++ r = c :: s /\ isdigit c = true.
Proof.
  intros Hn. pose proof (fmt_u_digits n Hn) as Hd. pose proof (fmt_u_nonnil n).
  destruct (fmt_u n) as [|c s]; [congruence|]. inversion Hd; subst. now exists c, (s ++ r).
Qed.

Lemma skip_space_digit c s : isdigit c = true -> skip_space (c :: s) = c :: s.
Proof.
  unfold isdigit. intros. cbn. unfold isspace. zbool.
  destruct (Z.eqb_spec c 32); [lia|]. destruct (Z.leb_spec 9 c); [|reflexivity].
  destruct (Z.leb_spec c 13); [lia|reflexivity].
Qed.

Lemma scan_sign_digit c s : isdigit c = true -> scan_sign (c :: s) = (false, c :: s).
Proof.
  unfold isdigit. intros. zbool. unfold scan_sign.
  destruct c as [|p|p]; try lia. do 6 (destruct p; try reflexivity; try lia).
Qed.

Lemma scan_base_10 s : scan_base 10 s = (10, s).
Proof.
  unfold scan_base. destruct s as [|c s]; [reflexivity|].
  destruct c as [|p|p]; try reflexivity.
  do 6 (destruct p; try reflexivity). destruct s; reflexivity.
Qed.

Lemma isdigit_val c : isdigit c = true -> is_some (digit_val 10 c) = true.
Proof.
  intros H. unfold digit_val. rewrite H. unfold isdigit in H. zbool.
  destruct (Z.ltb_spec (c - 48) 10); [reflexivity|lia].
Qed.

(** [strtoul] / [strtol] read a printed number and stop at the first character
    that is not a digit. *)
Lemma strto_scan_fmt n r :
  0 <= n -> starts_digit 10 r = false -> strto_scan 10 (fmt_u n ++ r) = Some (false, n, r).
Proof.
  intros Hn Hr. unfold strto_scan.
  destruct (digit_head n r Hn) as (c & s & E & Hc). rewrite E.
  rewrite skip_space_digit, scan_sign_digit, scan_base_10 by assumption.
  cbn [starts_digit]. rewrite isdigit_val by assumption.
  rewrite <- E. unfold fmt_u. rewrite scan_fmt by (auto; lia). reflexivity.
Qed.

Lemma strtoul_fmt n r :
  0 <= n < 2 ^ 64 -> starts_digit 10 r = false ->
  strtoul 10 (fmt_u n ++ r) = {| sval := n; send := r; sconv := true; serange := false |}.
Proof.
  intros Hn Hr. unfold strtoul. rewrite strto_scan_fmt by (auto; lia).
  unfold ULONG_MAX. destruct (Z.ltb_spec (2 ^ 64 - 1) n); [lia|reflexivity].
Qed.

Lemma atoi_fmt n r :
  0 <= n < 2 ^ 63 -> starts_digit 10 r = false -> atoi (fmt_u n ++ r) = s32 n.
Proof.
  intros Hn Hr. unfold atoi, strtol. rewrite strto_scan_fmt by (auto; lia). cbn [sval].
  unfold LONG_MIN, LONG_MAX. rewrite Z.min_r, Z.max_r by lia. reflexivity.
Qed.

(** An unsigned 32-bit number survives [(UA_UInt32)atoi(...)]. *)
Lemma u32_s32 n : 0 <= n < 2 ^ 32 -> u32 (s32 n) = n.
Proof.
  intros Hn. unfold u32, s32, uwrap, swrap. change (32 - 1) with 31.
  rewrite Zminus_mod, Z.mod_mod, <- Zminus_mod by lia.
  replace (n + 2 ^ 31 - 2 ^ 31) with n by lia. now apply Z.mod_small.
Qed.

Lemma strtok_Forall (P : bytes -> Prop) c s :
  (forall t, t <> [] -> ~ In c t -> P t) -> Forall P (strtok c s).
Proof.
  intros HP. unfold strtok. enough (forall cur, ~ In c cur -> Forall P (strtok_aux c cur s))
    by (apply H; intros []).
  induction s as [|x s IH]; cbn; intros cur Hc.
  - destruct cur as [|y cur'] eqn:E; [constructor|]. rewrite <- E in *. constructor; [|constructor].
    apply HP; [|now rewrite <- in_rev].
    intros Hr. apply (f_equal (@rev Z)) in Hr. rewrite rev_involutive in Hr. subst. discriminate.
  - destruct (Z.eqb_spec x c); [subst|apply IH; cbn; tauto].
    destruct cur as [|y cur'] eqn:E; [apply IH; intros []|]. rewrite <- E in *.
    constructor; [|apply IH; intros []].
    apply HP; [|now rewrite <- in_rev].
    intros Hr. apply (f_equal (@rev Z)) in Hr. rewrite rev_involutive in Hr. subst. discriminate.
Qed.

#[export] Hint Resolve streq_refl : interop.
#[export] Hint Rewrite streq_refl strip_app : interop.

(** ** Zero-padded fields *)

Lemma scan_zeros base k s : 2 <= base -> scan base 0 (repeat 48 k ++ s) = scan base 0 s.
Proof.
  intros Hb. induction k as [|k IH]; [reflexivity|]. cbn [repeat app scan].
  unfold digit_val at 1. change (isdigit 48) with true. cbv iota beta zeta.
  change (48 - 48) with 0. destruct (Z.ltb_spec 0 base); [|lia].
  now rewrite Z.mul_0_l, Z.add_0_l.
Qed.

Lemma digits_length base fuel : forall w n, 2 <= base -> 0 <= n < base ^ Z.of_nat w -> (1 <= w)%nat ->
  (length (digits base fuel n []) <= w)%nat.
Proof.
  induction fuel as [|f IH]; intros w n Hb Hn Hw; [cbn; lia|]. cbn [digits].
  destruct (Z.ltb_spec n base); [cbn; lia|]. rewrite digits_acc, length_app. cbn [length].
  destruct w as [|[|w]]; [lia|cbn in Hn; lia|].
  assert (length (digits base f (n / base) []) <= S w)%nat; [|lia].
  apply IH; [assumption| |lia]. split; [apply Z.div_pos; lia|].
  apply Z.div_lt_upper_bound; [lia|].
  rewrite (Nat2Z.inj_succ (S w)), Z.pow_succ_r in Hn by lia. lia.
Qed.

Lemma pad0_length w s : (length s <= w)%nat -> length (pad0 w s) = w.
Proof. intros H. unfold pad0. rewrite length_app, repeat_length. lia. Qed.

Lemma fmt_x0_length w n : 0 <= n < 16 ^ Z.of_nat w -> (1 <= w)%nat -> length (fmt_x0 w n) = w.
Proof. intros Hn Hw. apply pad0_length. apply digits_length; auto; lia. Qed.

(** Reading [w] hexadecimal digits. *)
Lemma scanw_exact s r : forall acc,
  Forall (fun c => ishex c = true) s -> scanw (length s) acc (s ++ r) = (fst (scan 16 acc s), r).
Proof.
  induction s as [|c s IH]; intros acc Hs; [destruct r; reflexivity|].
  inversion Hs as [|? ? Hc Hr]; subst. cbn [length scanw app scan].
  assert (exists d, digit_val 16 c = Some d) as [d ->].
  { unfold ishex, isdigit in Hc. unfold digit_val, isdigit.
    destruct (Z.leb_spec 48 c), (Z.leb_spec c 57), (Z.leb_spec 97 c), (Z.leb_spec c 102);
      cbn in Hc; try discriminate; cbn [andb]; try lia.
    - destruct (Z.ltb_spec (c - 48) 16); [eauto|lia].
    - destruct (Z.leb_spec c 122); [|lia]. destruct (Z.ltb_spec (c - 87) 16); [eauto|lia]. }
  now apply IH.
Qed.

Lemma ishex_start c s : ishex c = true -> skip_space (c :: s) = c :: s /\ scan_sign (c :: s) = (false, c :: s)
  /\ starts_digit 16 (c :: s) = true /\ (tolower c =? 120) = false.
Proof.
  intros H. assert (48 <= c <= 57 \/ 97 <= c <= 102) as Hc.
  { unfold ishex, isdigit in H. apply orb_prop in H as [H|H]; zbool; lia. }
  assert (In c (map Z.of_nat (seq 48 10 ++ seq 97 6))) as Hin.
  { apply in_map_iff. exists (Z.to_nat c). split; [lia|]. apply in_or_app.
    destruct Hc; [left|right]; apply in_seq; lia. }
  cbn in Hin. repeat (destruct Hin as [<-|Hin]; [repeat split|]). destruct Hin.
Qed.

Lemma scan_xw_hex w s r :
  length s = w -> (2 <= w)%nat -> Forall (fun c => ishex c = true) s ->
  scan_xw w (s ++ r) = Some (u32 (fst (scan 16 0 s)), r).
Proof.
  intros Hl Hw Hs. destruct s as [|c [|x s]]; cbn in Hl; try lia.
  inversion Hs as [|? ? Hc Hs']; subst. inversion Hs' as [|? ? Hx _]; subst.
  destruct (ishex_start c (x :: s ++ r) Hc) as (E1 & E2 & E3 & _).
  destruct (ishex_start x (s ++ r) Hx) as (_ & _ & _ & E4).
  unfold scan_xw. cbn [app]. rewrite E1, E2, Nat.eqb_refl, E3, E4, andb_false_r.
  assert (forall l acc, scanw (S (S (length s))) acc l = scanw (length (c :: x :: s)) acc l) as El
    by reflexivity.
  rewrite El. change (c :: x :: s ++ r) with ((c :: x :: s) ++ r).
  rewrite scanw_exact by assumption.
  destruct c as [|p|p]; try reflexivity. do 6 (destruct p; try reflexivity).
Qed.

Lemma scan_xw_fmt w n r :
  0 <= n < 16 ^ Z.of_nat w -> n < 2 ^ 32 -> (2 <= w)%nat -> scan_xw w (fmt_x0 w n ++ r) = Some (n, r).
Proof.
  intros Hn H32 Hw. rewrite scan_xw_hex.
  - unfold fmt_x0, pad0. rewrite scan_zeros by lia. unfold fmt_x.
    rewrite scan_digits; [|lia|split; [lia|apply num_fuel_ok; lia]|discriminate].
    cbn [fst]. unfold u32. now rewrite uwrap_small by lia.
  - apply fmt_x0_length; [assumption|lia].
  - assumption.
  - apply pad0_Forall; [reflexivity|]. apply fmt_x_hex. lia.
Qed.

Lemma strto_scan_u0 w n r :
  0 <= n < 2 ^ 31 -> starts_digit 10 r = false -> strto_scan 10 (fmt_u0 w n ++ r) = Some (false, n, r).
Proof.
  intros Hn Hr.
  assert (Forall (fun c => isdigit c = true) (fmt_u0 w n)) as Hd
    by (apply pad0_Forall; [reflexivity|apply fmt_u_digits; lia]).
  destruct (fmt_u0 w n) as [|c s] eqn:E.
  { exfalso. unfold fmt_u0, pad0 in E. apply app_eq_nil in E as [_ E]. now apply fmt_u_nonnil in E. }
  inversion Hd; subst. unfold strto_scan. cbn [app].
  rewrite skip_space_digit, scan_sign_digit, scan_base_10 by assumption. cbn [starts_digit].
  rewrite isdigit_val by assumption. change (c :: s ++ r) with ((c :: s) ++ r). rewrite <- E.
  unfold fmt_u0, pad0. rewrite <- app_assoc, scan_zeros by lia. unfold fmt_u.
  rewrite scan_fmt by (auto; lia). reflexivity.
Qed.

Lemma fmt_d_u z : 0 <= z -> fmt_d z = fmt_u z.
Proof. intros. unfold fmt_d. destruct (Z.ltb_spec z 0); [lia|reflexivity]. Qed.

Lemma strto_scan_d z : strto_scan 10 (fmt_d z) = Some (z <? 0, Z.abs z, []).
Proof.
  assert (forall n, 0 <= n -> strto_scan 10 (fmt_u n) = Some (false, n, [])) as Hu
    by (intros n Hn; rewrite <- (app_nil_r (fmt_u n)); now apply strto_scan_fmt).
  unfold fmt_d. destruct (Z.ltb_spec z 0) as [H|H]; [|rewrite Hu, Z.abs_eq; auto].
  specialize (Hu (- z) ltac:(lia)). unfold strto_scan in *.
  pose proof (fmt_u_digits (- z) ltac:(lia)) as Hd. destruct (fmt_u (- z)) as [|c s] eqn:E; [now apply fmt_u_nonnil in E|].
  inversion Hd; subst. rewrite skip_space_digit, scan_sign_digit in Hu by assumption.
  change (skip_space (45 :: c :: s)) with (45 :: c :: s). change (scan_sign (45 :: c :: s)) with (true, c :: s).
  cbv iota beta. rewrite scan_base_10 in *. destruct (starts_digit 10 (c :: s)); [|discriminate].
  destruct (scan 10 0 (c :: s)). injection Hu as -> ->. rewrite Z.abs_neq by lia. reflexivity.
Qed.

Lemma strtol_d z : LONG_MIN <= z <= LONG_MAX -> sval (strtol 10 (fmt_d z)) = z.
Proof.
  intros Hz. unfold strtol. rewrite strto_scan_d. cbn [sval]. unfold LONG_MIN, LONG_MAX in *.
  destruct (Z.ltb_spec z 0); [rewrite Z.abs_neq|rewrite Z.abs_eq]; lia.
Qed.

Lemma atoi_d z : - 2 ^ 31 <= z < 2 ^ 31 -> atoi (fmt_d z) = z.
Proof. intros Hz. unfold atoi. rewrite strtol_d by (unfold LONG_MIN, LONG_MAX; lia). apply swrap_small; lia. Qed.

Lemma strtoul_u n : 0 <= n <= ULONG_MAX -> sval (strtoul 10 (fmt_u n)) = n.
Proof. intros Hn. rewrite <- (app_nil_r (fmt_u n)), strtoul_fmt; [reflexivity|unfold ULONG_MAX in Hn; lia|reflexivity]. Qed.

Lemma scan_d_fmt w n r :
  0 <= n < 2 ^ 31 -> starts_digit 10 r = false -> scan_d (fmt_u0 w n ++ r) = Some (n, r).
Proof.
  intros Hn Hr. unfold scan_d. rewrite strto_scan_u0 by assumption.
  unfold LONG_MIN, LONG_MAX. rewrite Z.min_r, Z.max_r by lia. unfold s32.
  now rewrite swrap_small by lia.
Qed.
