(* ===== verification/Certificates.v ===== *)
(** client.c [certificate_san_uri]: the application URI in a certificate file.
    OpenSSL reads the file; its answer is the list of general names of the
    subjectAltName. *)

From Stdlib Require Import String Ascii ZArith Bool List Lia.
Import ListNotations.
From S2P Require Import Prelude CLib.

Definition GEN_URI_TYPE : Z := 6.

(** [PEM_read_X509] and [d2i_X509_fp] of the bytes of a file, then
    [X509_get_ext_d2i]: [None] for no certificate, type and data of each general
    name otherwise (none without the extension). *)
Record CertificateNames := {
  pem_general_names : bytes -> option (list (Z * bytes));
  der_general_names : bytes -> option (list (Z * bytes)) }.

(** The first name of the type URI that is not empty; [strndup] stops at a zero. *)
Fixpoint first_uri (names : list (Z * bytes)) : option bytes :=
  match names with
  | [] => None
  | (type, data) :: r =>
      if negb (type =? GEN_URI_TYPE) then first_uri r
      else match data with [] => first_uri r | _ => Some (cstr data) end
  end.

(** [file]: the bytes of a file that can be opened. *)
Definition certificate_san_uri (lib : CertificateNames) (file : bytes -> option bytes) (path : option bytes) : option bytes :=
  match path with
  | None | Some [] => None
  | Some p =>
      do data <- file p;
      do names <- match pem_general_names lib data with Some l => Some l | None => der_general_names lib data end;
      first_uri names
  end.

(** A library that finds no certificate. *)
Definition no_certificates : CertificateNames :=
  {| pem_general_names := fun _ => None; der_general_names := fun _ => None |}.

(** The URI is one of the names, up to its first zero. *)
Lemma first_uri_spec names u : first_uri names = Some u ->
  exists before data after, names = before ++ (GEN_URI_TYPE, data) :: after /\ data <> [] /\ u = cstr data /\
    Forall (fun n => fst n = GEN_URI_TYPE -> snd n = []) before.
Proof.
  induction names as [|[t d] r IH]; cbn [first_uri]; [discriminate|].
  assert ((t = GEN_URI_TYPE -> d = []) -> first_uri r = Some u ->
    exists before data after, (t, d) :: r = before ++ (GEN_URI_TYPE, data) :: after /\ data <> [] /\ u = cstr data /\
      Forall (fun n => fst n = GEN_URI_TYPE -> snd n = []) before) as Hskip.
  { intros Hd E. destruct (IH E) as (b & x & a & -> & Hx & Hu & Hb). exists ((t, d) :: b), x, a. repeat split; auto. }
  destruct (Z.eqb_spec t GEN_URI_TYPE) as [->|Hn]; cbn [negb]; [|apply Hskip; congruence].
  destruct d as [|c d]; [now apply Hskip|]. intros [= <-]. exists [], (c :: d), r. repeat split; [discriminate|constructor].
Qed.
