(* ===== verification/Json.v ===== *)
(** The reference for what the adapter prints: an executable recogniser of JSON
    texts (RFC 8259, at the byte level) as a pushdown automaton, a reader of JSON
    string literals, and the composition lemmas the printers' theorems use.  A
    printed fragment is a value when it takes the automaton from "a value is
    expected" to "a value has been read" whatever surrounds it ([JValue]). *)

From Stdlib Require Import String Ascii ZArith Bool List Lia.
Import ListNotations.
From S2P Require Import Prelude CLib.

(** * The automaton *)

Inductive jframe := FObj | FArr.

Inductive jmode :=
| MVal | MValOrEnd | MKeyOrEnd | MKey | MColon | MAfter
| MStr (key : bool) | MEsc (key : bool) | MHex (key : bool) (n : nat)
| MLit (rest : bytes)
| MNeg | MZero | MInt | MDot | MFrac | MExp | MExpSign | MExpDig.

Definition jstate : Type := jmode * list jframe.

Definition jws (c : Z) : bool := (c =? 32) || (c =? 9) || (c =? 10) || (c =? 13).

Definition jafter (st : list jframe) (c : Z) : option jstate :=
  if jws c then Some (MAfter, st)
  else match st with
  | FObj :: st' => if c =? 44 then Some (MKey, st) else if c =? 125 then Some (MAfter, st') else None
  | FArr :: st' => if c =? 44 then Some (MVal, st) else if c =? 93 then Some (MAfter, st') else None
  | [] => None
  end.

Definition jbegin (st : list jframe) (c : Z) : option jstate :=
  if c =? 34 then Some (MStr false, st)
  else if c =? 123 then Some (MKeyOrEnd, FObj :: st)
  else if c =? 91 then Some (MValOrEnd, FArr :: st)
  else if c =? 116 then Some (MLit [114; 117; 101], st)
  else if c =? 102 then Some (MLit [97; 108; 115; 101], st)
  else if c =? 110 then Some (MLit [117; 108; 108], st)
  else if c =? 45 then Some (MNeg, st)
  else if c =? 48 then Some (MZero, st)
  else if isdigit c then Some (MInt, st)
  else None.

Definition jesc (c : Z) : bool :=
  (c =? 34) || (c =? 92) || (c =? 47) || (c =? 98) || (c =? 102) || (c =? 110) || (c =? 114) || (c =? 116).

Definition is_xdigit (c : Z) : bool := is_some (digit_val 16 c).

Definition jstep (s : jstate) (c : Z) : option jstate :=
  let '(m, st) := s in
  match m with
  | MVal => if jws c then Some s else jbegin st c
  | MValOrEnd => if jws c then Some s
                 else if c =? 93 then match st with FArr :: st' => Some (MAfter, st') | _ => None end
                 else jbegin st c
  | MKeyOrEnd => if jws c then Some s
                 else if c =? 125 then match st with FObj :: st' => Some (MAfter, st') | _ => None end
                 else if c =? 34 then Some (MStr true, st) else None
  | MKey => if jws c then Some s else if c =? 34 then Some (MStr true, st) else None
  | MColon => if jws c then Some s else if c =? 58 then Some (MVal, st) else None
  | MAfter => jafter st c
  | MStr k => if c =? 34 then Some (if k then MColon else MAfter, st)
              else if c =? 92 then Some (MEsc k, st)
              else if 32 <=? c then Some s else None
  | MEsc k => if c =? 117 then Some (MHex k 4, st) else if jesc c then Some (MStr k, st) else None
  | MHex k n => if is_xdigit c then
                  match n with S (S n') => Some (MHex k (S n'), st) | _ => Some (MStr k, st) end
                else None
  | MLit l => match l with
              | x :: l' => if c =? x then Some (match l' with [] => MAfter | _ => MLit l' end, st) else None
              | [] => None
              end
  | MNeg => if c =? 48 then Some (MZero, st) else if isdigit c then Some (MInt, st) else None
  | MZero => if c =? 46 then Some (MDot, st)
             else if (c =? 101) || (c =? 69) then Some (MExp, st) else jafter st c
  | MInt => if isdigit c then Some (MInt, st) else if c =? 46 then Some (MDot, st)
            else if (c =? 101) || (c =? 69) then Some (MExp, st) else jafter st c
  | MDot => if isdigit c then Some (MFrac, st) else None
  | MFrac => if isdigit c then Some (MFrac, st)
             else if (c =? 101) || (c =? 69) then Some (MExp, st) else jafter st c
  | MExp => if (c =? 43) || (c =? 45) then Some (MExpSign, st)
            else if isdigit c then Some (MExpDig, st) else None
  | MExpSign => if isdigit c then Some (MExpDig, st) else None
  | MExpDig => if isdigit c then Some (MExpDig, st) else jafter st c
  end.

Fixpoint jrun (s : jstate) (b : bytes) : option jstate :=
  match b with
  | [] => Some s
  | c :: r => match jstep s c with Some s' => jrun s' r | None => None end
  end.

(** [b] is exactly one JSON text. *)
Definition is_json (b : bytes) : bool :=
  match jrun (MVal, []) b with
  | Some (m, []) => match m with MAfter | MZero | MInt | MFrac | MExpDig => true | _ => false end
  | _ => false
  end.

(** Body of a string literal up to the closing quote, with the escapes of ASCII
    characters replaced, and the text after the quote. *)
Fixpoint junescape (b : bytes) : option (bytes * bytes) :=
  let keep x (o : option (bytes * bytes)) :=
    match o with Some (s, r) => Some (x :: s, r) | None => None end in
  match b with
  | [] => None
  | 34 :: r => Some ([], r)
  | 92 :: 117 :: a :: b' :: c :: d :: r =>
      match digit_val 16 a, digit_val 16 b', digit_val 16 c, digit_val 16 d with
      | Some w, Some x, Some y, Some z =>
          let v := ((w * 16 + x) * 16 + y) * 16 + z in
          if v <? 128 then keep v (junescape r) else None
      | _, _, _, _ => None
      end
  | 92 :: 110 :: r => keep 10 (junescape r)
  | 92 :: 114 :: r => keep 13 (junescape r)
  | 92 :: 116 :: r => keep 9 (junescape r)
  | 92 :: 98 :: r => keep 8 (junescape r)
  | 92 :: 102 :: r => keep 12 (junescape r)
  | 92 :: c :: r => if (c =? 34) || (c =? 92) || (c =? 47) then keep c (junescape r) else None
  | c :: r => if 32 <=? c then keep c (junescape r) else None
  end.

(** * Comma-separated lists *)

(** The [if (!first) printf(","); first = 0;] loop. *)
Fixpoint commas_from (first : bool) (l : list bytes) : bytes :=
  match l with
  | [] => []
  | x :: r => (if first then [] else [44]) ++ x ++ commas_from false r
  end.
Definition commas (l : list bytes) : bytes := commas_from true l.

(** Members of an object that are printed only when present. *)
Fixpoint present {A} (l : list (option A)) : list A :=
  match l with
  | [] => []
  | Some x :: r => x :: present r
  | None :: r => present r
  end.

(** An array of printed values, an object of printed members. *)
Definition jarray (l : list bytes) : bytes := [91] ++ commas l ++ [93].
Definition jobject (l : list bytes) : bytes := [123] ++ commas l ++ [125].

Definition bool_text (b : bool) : bytes := if b then B "true" else B "false".

(** * Values, string bodies and members *)

Definition is_delim (c : Z) : bool := (c =? 44) || (c =? 125) || (c =? 93) || (c =? 10).

Definition JValue (v : bytes) : Prop :=
  forall m st c r, m = MVal \/ m = MValOrEnd -> is_delim c = true ->
  jrun (m, st) (v ++ c :: r) = jrun (MAfter, st) (c :: r).

Definition JBody (b : bytes) : Prop :=
  forall k st r, jrun (MStr k, st) (b ++ r) = jrun (MStr k, st) r.

Definition JMember (b : bytes) : Prop :=
  forall m st c r, m = MKey \/ m = MKeyOrEnd -> is_delim c = true ->
  jrun (m, FObj :: st) (b ++ c :: r) = jrun (MAfter, FObj :: st) (c :: r).

Create HintDb json.

Lemma jrun_app s a b : jrun s (a ++ b) = match jrun s a with Some s' => jrun s' b | None => None end.
Proof.
  revert s. induction a as [|c a IH]; intros s; cbn; [reflexivity|].
  destruct (jstep s c); [apply IH|reflexivity].
Qed.

Lemma is_delim_cases c : is_delim c = true -> c = 44 \/ c = 125 \/ c = 93 \/ c = 10.
Proof. unfold is_delim. intros H. repeat (apply orb_prop in H as [H|H]); zbool; tauto. Qed.

Ltac jdelim H := destruct (is_delim_cases _ H) as [-> | [-> | [-> | -> ]]].

Lemma JBody_nil : JBody [].
Proof. intros k st r. reflexivity. Qed.

Lemma JBody_app a b : JBody a -> JBody b -> JBody (a ++ b).
Proof. intros Ha Hb k st r. now rewrite <- app_assoc, Ha, Hb. Qed.

Definition plain (c : Z) : bool := (32 <=? c) && negb (c =? 34) && negb (c =? 92).

Lemma JBody_plain c : plain c = true -> JBody [c].
Proof.
  unfold plain. intros H k st r. zbool. cbn.
  destruct (Z.eqb_spec c 34); [congruence|]. destruct (Z.eqb_spec c 92); [congruence|].
  destruct (Z.leb_spec 32 c); [reflexivity|lia].
Qed.

Lemma JBody_esc c : jesc c = true -> JBody [92; c].
Proof.
  intros H k st r. cbn. destruct (Z.eqb_spec c 117) as [->|]; [discriminate|]. now rewrite H.
Qed.

Lemma JBody_Forall l : Forall (fun c => plain c = true) l -> JBody l.
Proof.
  induction 1 as [|c l Hc _ IH]; [apply JBody_nil|].
  change (c :: l) with ([c] ++ l). apply JBody_app; [now apply JBody_plain|assumption].
Qed.

Lemma JBody_flat_map {A} (f : A -> bytes) l : (forall x, In x l -> JBody (f x)) -> JBody (flat_map f l).
Proof.
  induction l as [|x l IH]; cbn; intros H; [apply JBody_nil|].
  apply JBody_app; [apply H; now left|apply IH; intros; apply H; now right].
Qed.

Lemma JValue_quoted b : JBody b -> JValue (34 :: b ++ [34]).
Proof.
  intros H m st c r Hm _. cbn [app jrun].
  replace (jstep (m, st) 34) with (Some (MStr false, st)) by (destruct Hm; subst; reflexivity).
  rewrite <- app_assoc, H. reflexivity.
Qed.

(** A literal text that the automaton reads as a value by evaluation. *)
Lemma JValue_lit v :
  (forall st, jrun (MVal, st) v = Some (MAfter, st)) ->
  match v with c :: _ => negb (jws c) && negb (c =? 93) | [] => false end = true -> JValue v.
Proof.
  intros H Hv m st c r Hm _. rewrite jrun_app.
  replace (jrun (m, st) v) with (jrun (MVal, st) v); [now rewrite H|].
  destruct Hm; subst; [reflexivity|]. destruct v as [|x v]; [discriminate|]. zbool.
  cbn. now rewrite H0, (proj2 (Z.eqb_neq _ _) H1).
Qed.

Lemma JValue_null : JValue (B "null").
Proof. apply JValue_lit; reflexivity. Qed.
Lemma JValue_bool b : JValue (bool_text b).
Proof. destruct b; apply JValue_lit; reflexivity. Qed.
Lemma JValue_empty_string : JValue (J "''").
Proof. apply JValue_lit; reflexivity. Qed.
Lemma JValue_empty_array : JValue (J "[]").
Proof. apply JValue_lit; reflexivity. Qed.

(** ** Numbers *)

Definition Digits (l : bytes) : Prop := Forall (fun c => isdigit c = true) l.

Lemma jrun_digits m st l r :
  m = MInt \/ m = MFrac \/ m = MExpDig -> Digits l -> jrun (m, st) (l ++ r) = jrun (m, st) r.
Proof.
  intros Hm. induction 1 as [|c l Hc _ IH]; [reflexivity|].
  cbn [app jrun]. replace (jstep (m, st) c) with (Some (m, st)); [exact IH|].
  destruct Hm as [->|[->| ->]]; cbn; now rewrite Hc.
Qed.

Lemma jrun_num_end m st c r :
  m = MZero \/ m = MInt \/ m = MFrac \/ m = MExpDig -> is_delim c = true ->
  jrun (m, st) (c :: r) = jrun (MAfter, st) (c :: r).
Proof. intros Hm Hc. jdelim Hc; destruct Hm as [->|[->|[->| ->]]]; reflexivity. Qed.

(** The integer part: [0] or a digit string without a leading zero. *)
Definition JInt (l : bytes) : Prop :=
  l = [48] \/ exists c r, l = c :: r /\ isdigit c = true /\ c <> 48 /\ Digits r.

(** Optional fraction and exponent, as the [%g] conversions print them. *)
Inductive JTail : bytes -> Prop :=
| JTail_none : JTail []
| JTail_frac c f : isdigit c = true -> Digits f -> JTail (46 :: c :: f)
| JTail_exp s c e : s = 43 \/ s = 45 -> isdigit c = true -> Digits e -> JTail (101 :: s :: c :: e)
| JTail_frac_exp d f s c e :
    isdigit d = true -> Digits f -> s = 43 \/ s = 45 -> isdigit c = true -> Digits e ->
    JTail (46 :: d :: f ++ 101 :: s :: c :: e).

Lemma jrun_exp m st s c e d r :
  m = MZero \/ m = MInt \/ m = MFrac -> s = 43 \/ s = 45 -> isdigit c = true -> Digits e ->
  is_delim d = true ->
  jrun (m, st) ((101 :: s :: c :: e) ++ d :: r) = jrun (MAfter, st) (d :: r).
Proof.
  intros Hm Hs Hc He Hd. cbn [app jrun].
  replace (jstep (m, st) 101) with (Some (MExp, st)) by (destruct Hm as [->|[->| ->]]; reflexivity).
  replace (jstep (MExp, st) s) with (Some (MExpSign, st)) by (destruct Hs; subst; reflexivity).
  cbn [jstep]. rewrite Hc, jrun_digits by auto. now apply jrun_num_end; auto.
Qed.

Lemma jrun_tail m st t c r :
  m = MZero \/ m = MInt -> JTail t -> is_delim c = true ->
  jrun (m, st) (t ++ c :: r) = jrun (MAfter, st) (c :: r).
Proof.
  intros Hm Ht Hc.
  assert (jstep (m, st) 46 = Some (MDot, st)) as Hdot by (destruct Hm; subst; reflexivity).
  destruct Ht as [|d f Hd Hf|s d e Hs Hd He|d f s x e Hd Hf Hs Hx He].
  - apply jrun_num_end; tauto.
  - cbn [app jrun]. rewrite Hdot. cbn [jstep]. rewrite Hd, jrun_digits by auto.
    apply jrun_num_end; tauto.
  - apply jrun_exp; tauto.
  - cbn [app jrun]. rewrite Hdot. cbn [jstep]. rewrite Hd, <- app_assoc, jrun_digits by auto.
    apply jrun_exp; tauto.
Qed.

Lemma jbegin_digit m st c :
  m = MVal \/ m = MValOrEnd -> isdigit c = true ->
  jstep (m, st) c = Some (if c =? 48 then MZero else MInt, st).
Proof.
  intros Hm Hc. assert (48 <= c <= 57) as Hr by (unfold isdigit in Hc; zbool; lia).
  assert (In c [48;49;50;51;52;53;54;55;56;57]) as Hin by (cbn; lia).
  destruct Hm; subst; cbn in Hin;
  repeat (destruct Hin as [<-|Hin]; [reflexivity|]); destruct Hin.
Qed.

Lemma JValue_number (neg : bool) i t :
  JInt i -> JTail t -> JValue ((if neg then [45] else []) ++ i ++ t).
Proof.
  intros Hi Ht m st c r Hm Hc. rewrite <- !app_assoc.
  assert (forall st', jrun (if neg then MNeg else m, st') (i ++ t ++ c :: r) =
                      jrun (MAfter, st') (c :: r)) as H.
  { intros st'. assert (exists m', (m' = MZero \/ m' = MInt) /\
      forall z, jrun (if neg then MNeg else m, st') (i ++ z) = jrun (m', st') z) as (m' & Hm' & E).
    { destruct Hi as [->|(x & l & -> & Hx & Hnz & Hl)].
      - exists MZero. split; [tauto|]. intros z. cbn [app jrun].
        destruct neg; [reflexivity|]. now rewrite jbegin_digit.
      - exists MInt. split; [tauto|]. intros z. cbn [app jrun].
        destruct neg; [cbn [jstep]|rewrite jbegin_digit by auto];
        rewrite (proj2 (Z.eqb_neq x 48) Hnz), ?Hx; apply jrun_digits; auto. }
    rewrite E. now apply jrun_tail. }
  destruct neg; [|apply H]. cbn [app jrun].
  replace (jstep (m, st) 45) with (Some (MNeg, st)) by (destruct Hm; subst; reflexivity). apply H.
Qed.

Lemma digits_JInt fuel n : 0 <= n < 10 ^ Z.of_nat fuel -> fuel <> O -> JInt (digits 10 fuel n []).
Proof.
  revert n. induction fuel as [|f IH]; intros n Hn Hf; [congruence|]. cbn [digits].
  destruct (Z.ltb_spec n 10) as [Hlt|Hge].
  - destruct (Z.eq_dec n 0) as [->|]; [left; reflexivity|].
    right. exists (digit_char n), []. repeat split; [apply isdigit_digit_char; lia| |constructor].
    unfold digit_char. destruct (Z.ltb_spec n 10); lia.
  - rewrite digits_acc. assert (f <> O) as Hf'.
    { intros ->. rewrite Nat2Z.inj_succ in Hn. cbn in Hn. lia. }
    assert (1 <= n / 10) as Hq by (apply Z.div_le_lower_bound; lia).
    destruct (IH (n / 10)) as [E|(c & r & E & Hc & Hnz & Hr)]; [|assumption| |].
    + split; [lia|]. apply Z.div_lt_upper_bound; [lia|].
      rewrite Nat2Z.inj_succ, Z.pow_succ_r in Hn by lia. lia.
    + exfalso. pose proof (scan_digits 10 f (n / 10)) as Hs.
      rewrite E in Hs. cbn in Hs. assert ((0, @nil Z) = (n / 10, [])) as H0.
      { apply Hs; [lia| |assumption]. split; [lia|]. apply Z.div_lt_upper_bound; [lia|].
        rewrite Nat2Z.inj_succ, Z.pow_succ_r in Hn by lia. lia. }
      inversion H0. lia.
    + right. exists c, (r ++ [digit_char (n mod 10)]). rewrite E. repeat split; auto.
      apply Forall_app; split; [assumption|]. constructor; [|constructor].
      apply isdigit_digit_char. apply Z.mod_pos_bound. lia.
Qed.

Lemma fmt_u_JInt n : 0 <= n -> JInt (fmt_u n).
Proof. intros. apply digits_JInt; [split; [assumption|apply num_fuel_ok; lia]|discriminate]. Qed.

Lemma JValue_u n : 0 <= n -> JValue (fmt_u n).
Proof.
  intros H. pose proof (JValue_number false _ _ (fmt_u_JInt n H) JTail_none) as Hv.
  now rewrite app_nil_r in Hv.
Qed.

Lemma JValue_d n : JValue (fmt_d n).
Proof.
  unfold fmt_d. destruct (Z.ltb_spec n 0); [|now apply JValue_u].
  pose proof (JValue_number true _ _ (fmt_u_JInt (- n) ltac:(lia)) JTail_none) as Hv.
  now rewrite app_nil_r in Hv.
Qed.

(** ** Arrays and objects *)

Lemma commas_from_false l : commas_from false l = flat_map (fun x => 44 :: x) l.
Proof. induction l as [|x l IH]; cbn; [reflexivity|]. now rewrite IH. Qed.

Lemma jrun_elems st l r :
  Forall JValue l ->
  jrun (MAfter, FArr :: st) (flat_map (fun x => 44 :: x) l ++ 93 :: r) = jrun (MAfter, st) r.
Proof.
  induction 1 as [|v l Hv _ IH]; [reflexivity|].
  cbn [flat_map]. rewrite <- app_assoc. cbn [app jrun]. change (jstep (MAfter, FArr :: st) 44) with
    (Some (MVal, FArr :: st)). cbv iota.
  destruct l as [|w l].
  - cbn [flat_map app]. now rewrite Hv by auto.
  - cbn [flat_map app] in *. now rewrite Hv by auto.
Qed.

Lemma JValue_array l : Forall JValue l -> JValue (jarray l).
Proof.
  intros Hl m st c r Hm Hc. unfold jarray. cbn [app jrun].
  replace (jstep (m, st) 91) with (Some (MValOrEnd, FArr :: st)) by (destruct Hm; subst; reflexivity).
  rewrite <- app_assoc. destruct Hl as [|v l Hv Hl]; [reflexivity|].
  unfold commas. cbn [commas_from app]. rewrite commas_from_false, <- app_assoc.
  pose proof (jrun_elems st l (c :: r) Hl) as H. cbn [app].
  destruct l as [|w l]; cbn [flat_map app] in *; rewrite Hv by auto; exact H.
Qed.

Lemma jrun_members st l r :
  Forall JMember l ->
  jrun (MAfter, FObj :: st) (flat_map (fun x => 44 :: x) l ++ 125 :: r) = jrun (MAfter, st) r.
Proof.
  induction 1 as [|v l Hv _ IH]; [reflexivity|].
  cbn [flat_map]. rewrite <- app_assoc. cbn [app jrun]. change (jstep (MAfter, FObj :: st) 44) with
    (Some (MKey, FObj :: st)). cbv iota.
  destruct l as [|w l]; cbn [flat_map app] in *; now rewrite Hv by auto.
Qed.

Lemma JValue_object l : Forall JMember l -> JValue (jobject l).
Proof.
  intros Hl m st c r Hm Hc. unfold jobject. cbn [app jrun].
  replace (jstep (m, st) 123) with (Some (MKeyOrEnd, FObj :: st)) by (destruct Hm; subst; reflexivity).
  rewrite <- app_assoc. destruct Hl as [|v l Hv Hl]; [reflexivity|].
  unfold commas. cbn [commas_from app]. rewrite commas_from_false, <- app_assoc.
  pose proof (jrun_members st l (c :: r) Hl) as H. cbn [app].
  destruct l as [|w l]; cbn [flat_map app] in *; rewrite Hv by auto; exact H.
Qed.

(** A member whose key text the automaton reads by evaluation. *)
Lemma JMember_lit k v :
  (forall st, jrun (MKey, FObj :: st) k = Some (MVal, FObj :: st)) ->
  match k with c :: _ => c =? 34 | [] => false end = true -> JValue v -> JMember (k ++ v).
Proof.
  intros Hk Hc Hv m st c r Hm Hd. rewrite <- app_assoc, jrun_app.
  replace (jrun (m, FObj :: st) k) with (jrun (MKey, FObj :: st) k).
  - rewrite Hk. now apply Hv; [left|].
  - destruct Hm; subst; [reflexivity|]. destruct k as [|x k]; [discriminate|]. zbool. now subst.
Qed.

Lemma present_Forall {A} (P : A -> Prop) l :
  Forall (fun o => forall x, o = Some x -> P x) l -> Forall P (present l).
Proof.
  induction 1 as [|o l Ho _ IH]; cbn; [constructor|]. destruct o; [constructor; auto|assumption].
Qed.

Lemma jv_then m st v l r :
  JValue v -> m = MVal \/ m = MValOrEnd ->
  match l with c :: _ => is_delim c | [] => false end = true ->
  jrun (m, st) (v ++ l ++ r) = jrun (MAfter, st) (l ++ r).
Proof. intros Hv Hm Hl. destruct l as [|c l]; [discriminate|]. now apply Hv. Qed.

Lemma JValue_is_json v : JValue v -> is_json (v ++ [10]) = true.
Proof. intros H. unfold is_json. now rewrite H by auto. Qed.

#[export] Hint Resolve JBody_nil JBody_app JBody_plain JBody_esc JBody_Forall JValue_quoted
  JValue_null JValue_bool JValue_empty_string JValue_empty_array JValue_u JValue_d
  JValue_array JValue_object : json.

Lemma JBody_hex4 a b c d :
  is_xdigit a = true -> is_xdigit b = true -> is_xdigit c = true -> is_xdigit d = true ->
  JBody [92; 117; a; b; c; d].
Proof.
  intros Ha Hb Hc Hd k st r. cbn [app jrun].
  change (jstep (MStr k, st) 92) with (Some (MEsc k, st)). cbv iota.
  change (jstep (MEsc k, st) 117) with (Some (MHex k 4, st)). cbn [jstep].
  rewrite Ha. cbn [jstep]. rewrite Hb. cbn [jstep]. rewrite Hc. cbn [jstep]. now rewrite Hd.
Qed.

Lemma JBody_u n : 0 <= n -> JBody (fmt_u n).
Proof.
  intros H. apply JBody_Forall. eapply Forall_impl; [|now apply fmt_u_digits].
  intros c Hc. unfold isdigit in Hc. unfold plain. zbool.
  destruct (Z.leb_spec 32 c), (Z.eqb_spec c 34), (Z.eqb_spec c 92); cbn; lia || reflexivity.
Qed.

Lemma JBody_d n : JBody (fmt_d n).
Proof.
  unfold fmt_d. destruct (Z.ltb_spec n 0); [|now apply JBody_u].
  change (45 :: fmt_u (- n)) with ([45] ++ fmt_u (- n)).
  apply JBody_app; [now apply JBody_plain|apply JBody_u; lia].
Qed.

Lemma ishex_plain c : ishex c = true -> plain c = true.
Proof.
  unfold ishex, isdigit, plain. intros H. apply orb_prop in H as [H|H]; zbool;
  destruct (Z.leb_spec 32 c), (Z.eqb_spec c 34), (Z.eqb_spec c 92); cbn; lia || reflexivity.
Qed.

Lemma JBody_x0 w n : 0 <= n -> JBody (fmt_x0 w n).
Proof.
  intros H. apply JBody_Forall. apply pad0_Forall; [reflexivity|].
  eapply Forall_impl; [|now apply fmt_x_hex]. exact ishex_plain.
Qed.

Lemma JBody_u0 w n : 0 <= n -> JBody (fmt_u0 w n).
Proof.
  intros H. apply JBody_Forall. apply pad0_Forall; [reflexivity|].
  eapply Forall_impl; [|now apply fmt_u_digits]. intros c Hc. apply ishex_plain.
  unfold ishex. now rewrite Hc.
Qed.

Lemma JBody_firstn_plain n l : Forall (fun c => plain c = true) l -> JBody (firstn n l).
Proof. intros. now apply JBody_Forall, Forall_firstn. Qed.

#[export] Hint Resolve JBody_u JBody_d JBody_x0 JBody_u0 : json.

(** [jwalk]: walk a printed text [lit ++ value ++ lit ++ ...] through the
    automaton.  The literals are evaluated; each value or string body is
    discharged with the [json] hints. *)
Ltac jwalk_lit :=
  match goal with
  | |- context [jrun ?s (J ?x ++ ?r)] =>
      rewrite (jrun_app s (J x) r);
      let v := eval vm_compute in (jrun s (J x)) in
      change (jrun s (J x)) with v; cbv beta iota
  | |- context [jrun ?s (B ?x ++ ?r)] =>
      rewrite (jrun_app s (B x) r);
      let v := eval vm_compute in (jrun s (B x)) in
      change (jrun s (B x)) with v; cbv beta iota
  end.
Ltac jauto := auto with json.
Ltac jwalk_val :=
  match goal with
  | |- context [jrun (MStr ?k, ?st) (?b ++ ?r)] =>
      let H := fresh in assert (JBody b) as H by jauto; rewrite (H k st r); clear H
  | |- context [jrun (?m, ?st) (?v ++ J ?x ++ ?r)] =>
      rewrite (jv_then m st v (J x) r); [|jauto|tauto|reflexivity]
  | |- context [jrun (?m, ?st) (?v ++ ?c :: ?r)] =>
      let H := fresh in assert (JValue v) as H by jauto; rewrite (H m st c r);
      [clear H|tauto|first [assumption|reflexivity]]
  end.
Ltac jwalk := rewrite <- ?app_assoc; cbn [app]; repeat first [jwalk_lit | jwalk_val]; try reflexivity.
(** Close a [JValue] / [JMember] goal about such a text. *)
Ltac jvalue :=
  let m := fresh "m" in let st := fresh "st" in let c := fresh "c" in let r := fresh "r" in
  let Hm := fresh "Hm" in let Hc := fresh "Hc" in
  intros m st c r Hm Hc; destruct Hm; subst m; jwalk.
Ltac jbody := repeat first [apply JBody_nil | solve [jauto] | apply JBody_app
                           | apply JBody_Forall; repeat constructor].
