(* ===== verification/Float.v ===== *)
(** IEEE binary64 / binary32 values as [spec_float], and the C conversions the
    adapter applies to them: [strtod], the cast to [float], [%g] / [%.17g], the
    casts to integers. *)

From Stdlib Require Import String Ascii ZArith Bool List Lia SpecFloat.
Import ListNotations.
From S2P Require Import Prelude CLib Json.

(** * Rounding *)

Definition double_of (neg : bool) (m e : Z) : spec_float :=
  binary_normalize 53 1024 (if neg then - m else m) e neg.

(** [(UA_Float)d] *)
Definition to_float32 (d : spec_float) : spec_float :=
  match d with
  | S754_finite s m e => binary_normalize 24 128 (if s then Zneg m else Zpos m) e s
  | _ => d
  end.

Definition isfinite (d : spec_float) : bool :=
  match d with S754_finite _ _ _ | S754_zero _ => true | _ => false end.

(** Truncation towards zero; [None] for NaN and the infinities. *)
Definition trunc (d : spec_float) : option Z :=
  match d with
  | S754_zero _ => Some 0
  | S754_finite s m e =>
      let a := if 0 <=? e then Zpos m * 2 ^ e else Zpos m / 2 ^ (- e) in
      Some (if s then - a else a)
  | _ => None
  end.

(** [floor(d) == d] *)
Definition is_integral (d : spec_float) : bool :=
  match d with
  | S754_zero _ | S754_infinity _ => true
  | S754_finite _ m e => (0 <=? e) || (Zpos m mod 2 ^ (- e) =? 0)
  | S754_nan => false
  end.

(** A cast of a double to an integer type: the truncated value when the type
    holds it.  C leaves the other casts undefined and the two architectures of
    the image differ there, so [oob] stands for what the processor gives. *)
Definition cast_int (lo hi : Z) (oob : spec_float -> Z) (d : spec_float) : Z :=
  match trunc d with
  | Some z => if (lo <=? z) && (z <=? hi) then z else oob d
  | None => oob d
  end.

(** What the processor gives for a cast outside the range [lo, hi] of the
    type: some value of the type. *)
Class Cpu := {
  cast_oob : Z -> Z -> spec_float -> Z;
  cast_oob_range : forall lo hi d, lo <= hi -> lo <= cast_oob lo hi d <= hi
}.

Section Casts.
Context {cpu : Cpu}.
Definition to_int32 := cast_int (- 2 ^ 31) (2 ^ 31 - 1) (cast_oob (- 2 ^ 31) (2 ^ 31 - 1)).
Definition to_uint32 := cast_int 0 (2 ^ 32 - 1) (cast_oob 0 (2 ^ 32 - 1)).
Definition to_int64 := cast_int (- 2 ^ 63) (2 ^ 63 - 1) (cast_oob (- 2 ^ 63) (2 ^ 63 - 1)).
Definition to_uint64 := cast_int 0 (2 ^ 64 - 1) (cast_oob 0 (2 ^ 64 - 1)).

Lemma cast_int_range lo hi d : lo <= hi -> lo <= cast_int lo hi (cast_oob lo hi) d <= hi.
Proof.
  intros H. unfold cast_int. destruct (trunc d) as [z|]; [|now apply cast_oob_range].
  destruct (Z.leb_spec lo z), (Z.leb_spec z hi); cbn; try lia; now apply cast_oob_range.
Qed.
End Casts.

(** A processor that saturates to the lower bound. *)
#[export] Instance ref_cpu : Cpu.
Proof. refine {| cast_oob := fun lo _ _ => lo |}. intros; lia. Defined.

(** * strtod *)

(** [m * 10 ^ e10], correctly rounded. *)
Definition decimal_to_double (neg : bool) (m e10 : Z) : spec_float :=
  match m with
  | Zpos p =>
      if 400 <? e10 then S754_infinity neg
      else if e10 + Z.log2 m <? -1200 then S754_zero neg
      else if 0 <=? e10 then double_of neg (m * 10 ^ e10) 0
      else let '(q, e, l) := SFdiv_core_binary 53 1024 m 0 (10 ^ (- e10)) 0 in
           binary_round_aux 53 1024 neg q e l
  | _ => S754_zero neg
  end.

(** Mantissa digits in base [b] around an optional point: the mantissa, the
    number of digits after the point, the rest. *)
Definition scan_mantissa (b : Z) (s : bytes) : option (Z * Z * bytes) :=
  let '(i, r) := scan b 0 s in
  match r with
  | 46 :: f =>
      if starts_digit b s || starts_digit b f then
        let '(m, r') := scan b i f in
        Some (m, Z.of_nat (length f) - Z.of_nat (length r'), r')
      else None
  | _ => if starts_digit b s then Some (i, 0, r) else None
  end.

(** [e[+-]digits], taken only when digits follow. *)
Definition scan_exponent (marker : Z) (s : bytes) : Z * bytes :=
  match s with
  | c :: r =>
      if tolower c =? marker then
        let '(neg, r1) := scan_sign r in
        if starts_digit 10 r1 then
          let '(v, r2) := scan 10 0 r1 in ((if neg then - v else v), r2)
        else (0, s)
      else (0, s)
  | [] => (0, s)
  end.

Fixpoint strip_ci (p s : bytes) : option bytes :=
  match p, s with
  | [], _ => Some s
  | x :: p', y :: s' => if x =? tolower y then strip_ci p' s' else None
  | _, [] => None
  end.

Fixpoint nan_tail (s : bytes) : option bytes :=
  match s with
  | 41 :: r => Some r
  | c :: r => if isdigit c || ((97 <=? tolower c) && (tolower c <=? 122)) || (c =? 95)
              then nan_tail r else None
  | [] => None
  end.

(** The value and [*end]; [None] when no conversion is performed. *)
Definition strtod (s : bytes) : option (spec_float * bytes) :=
  let '(neg, s1) := scan_sign (skip_space s) in
  match strip_ci (B "infinity") s1, strip_ci (B "inf") s1, strip_ci (B "nan") s1 with
  | Some r, _, _ => Some (S754_infinity neg, r)
  | None, Some r, _ => Some (S754_infinity neg, r)
  | None, None, Some r =>
      match r with
      | 40 :: r' => match nan_tail r' with Some r2 => Some (S754_nan, r2) | None => Some (S754_nan, r) end
      | _ => Some (S754_nan, r)
      end
  | None, None, None =>
      let hex := match s1 with
                 | 48 :: x :: r => if tolower x =? 120 then scan_mantissa 16 r else None
                 | _ => None
                 end in
      match hex with
      | Some (m, k, r) =>
          let '(e, r') := scan_exponent 112 r in Some (double_of neg m (e - 4 * k), r')
      | None =>
          match scan_mantissa 10 s1 with
          | Some (m, k, r) =>
              let '(e, r') := scan_exponent 101 r in Some (decimal_to_double neg m (e - k), r')
          | None => None
          end
      end
  end.

(** * printf %g *)

Definition round_half_even (n d : Z) : Z :=
  let q := n / d in
  let r := n mod d in
  if 2 * r <? d then q else if d <? 2 * r then q + 1 else if Z.even q then q else q + 1.

Fixpoint drop_zeros (l : bytes) : bytes :=
  match l with 48 :: r => drop_zeros r | _ => l end.
(** Trailing zeros of a fraction. *)
Definition strip_zeros (l : bytes) : bytes := rev (drop_zeros (rev l)).

Definition fraction (l : bytes) : bytes :=
  match strip_zeros l with [] => [] | f => 46 :: f end.

(** [a * 10 ^ k], for [k] at least 0. *)
Definition scale (k a : Z) : Z := if 0 <=? k then a * 10 ^ k else a.

(** [num / den], positive, with [P] significant digits: the digits as an integer
    and the decimal exponent of the first one. *)
Definition decimal_digits (P num den : Z) : Z * Z :=
  let g := Z.of_nat (length (fmt_u num)) - Z.of_nat (length (fmt_u den)) in
  let x := if scale g den <=? scale (- g) num then g else g - 1 in
  let q := round_half_even (scale (P - 1 - x) num) (scale (x - (P - 1)) den) in
  if q =? 10 ^ P then (10 ^ (P - 1), x + 1) else (q, x).

Definition fmt_g_pos (P num den : Z) : bytes :=
  let '(q, x) := decimal_digits P num den in
  let ds := fmt_u q in
  if (x <? -4) || (P <=? x) then
    firstn 1 ds ++ fraction (skipn 1 ds) ++
    [101; if x <? 0 then 45 else 43] ++ fmt_u0 2 (Z.abs x)
  else if 0 <=? x then
    firstn (S (Z.to_nat x)) ds ++ fraction (skipn (S (Z.to_nat x)) ds)
  else [48] ++ fraction (repeat 48 (Z.to_nat (- x - 1)) ++ ds).

(** [%.<P>g] of a double; [%g] is [P = 6]. *)
Definition fmt_g (P : Z) (d : spec_float) : bytes :=
  match d with
  | S754_zero s => (if s then [45] else []) ++ [48]
  | S754_infinity s => (if s then [45] else []) ++ B "inf"
  | S754_nan => B "nan"
  | S754_finite s m e =>
      (if s then [45] else []) ++
      (if 0 <=? e then fmt_g_pos P (Zpos m * 2 ^ e) 1 else fmt_g_pos P (Zpos m) (2 ^ (- e)))
  end.

(** [%.0f] of a double *)
Definition fmt_f0 (d : spec_float) : bytes :=
  match d with
  | S754_zero s => (if s then [45] else []) ++ [48]
  | S754_infinity s => (if s then [45] else []) ++ B "inf"
  | S754_nan => B "nan"
  | S754_finite s m e =>
      (if s then [45] else []) ++ fmt_u (if 0 <=? e then Zpos m * 2 ^ e else round_half_even (Zpos m) (2 ^ (- e)))
  end.

(** * [%g] prints JSON numbers *)

Lemma drop_zeros_Forall (P : Z -> Prop) l : Forall P l -> Forall P (drop_zeros l).
Proof.
  induction 1 as [|c l Hc Hl IH]; cbn; [constructor|].
  destruct (Z.eq_dec c 48) as [->|]; [exact IH|].
  replace (match c with 48 => _ | _ => _ end) with (c :: l); [now constructor|].
  destruct c as [|p|p]; try reflexivity. do 6 (destruct p; try reflexivity). congruence.
Qed.

Lemma strip_zeros_Digits l : Digits l -> Digits (strip_zeros l).
Proof.
  intros H. apply Forall_rev. apply drop_zeros_Forall. now apply Forall_rev.
Qed.

Lemma fraction_cases l : Digits l ->
  fraction l = [] \/ exists c f, fraction l = 46 :: c :: f /\ isdigit c = true /\ Digits f.
Proof.
  intros H. unfold fraction. pose proof (strip_zeros_Digits l H) as Hs.
  destruct (strip_zeros l) as [|c f]; [now left|]. inversion Hs; subst. right. now exists c, f.
Qed.

Lemma fraction_JTail l : Digits l -> JTail (fraction l).
Proof.
  intros H. destruct (fraction_cases l H) as [-> | (c & f & -> & Hc & Hf)]; now constructor.
Qed.

Lemma fraction_exp_JTail l s n :
  Digits l -> s = 43 \/ s = 45 -> 0 <= n -> JTail (fraction l ++ [101; s] ++ fmt_u0 2 n).
Proof.
  intros H Hs Hn.
  assert (exists c e, fmt_u0 2 n = c :: e /\ isdigit c = true /\ Digits e) as (c & e & -> & Hc & He).
  { pose proof (pad0_Forall _ 2 _ eq_refl (fmt_u_digits n Hn)) as Hd.
    unfold fmt_u0. destruct (pad0 2 (fmt_u n)) as [|c e] eqn:E; [|inversion Hd; subst; eauto].
    unfold pad0 in E. apply app_eq_nil in E as [_ E]. now apply fmt_u_nonnil in E. }
  destruct (fraction_cases l H) as [-> | (d & f & -> & Hd & Hf)]; cbn [app]; now constructor.
Qed.

Lemma JInt_firstn l n : JInt l -> JInt (firstn (S n) l).
Proof.
  intros [-> | (c & r & -> & Hc & Hn & Hr)]; [left; now destruct n|].
  right. exists c, (firstn n r). repeat split; auto. now apply Forall_firstn.
Qed.

Lemma round_half_even_nonneg n d : 0 <= n -> 0 < d -> 0 <= round_half_even n d.
Proof.
  intros. unfold round_half_even. pose proof (Z.div_pos n d).
  repeat case_goal; lia.
Qed.

Lemma scale_nonneg k a : 0 <= a -> 0 <= scale k a.
Proof.
  intros. unfold scale. destruct (0 <=? k); [|assumption].
  apply Z.mul_nonneg_nonneg; [assumption|]. apply Z.pow_nonneg. lia.
Qed.

Lemma scale_pos k a : 0 < a -> 0 < scale k a.
Proof.
  intros. unfold scale. destruct (Z.leb_spec 0 k); [|assumption].
  apply Z.mul_pos_pos; [assumption|]. apply Z.pow_pos_nonneg; lia.
Qed.

Lemma decimal_digits_nonneg P num den :
  1 <= P -> 0 <= num -> 0 < den -> 0 <= fst (decimal_digits P num den).
Proof.
  intros. unfold decimal_digits. destruct (round_half_even _ _ =? _); cbn [fst]; [apply Z.pow_nonneg; lia|].
  apply round_half_even_nonneg; [now apply scale_nonneg|now apply scale_pos].
Qed.

Lemma fmt_g_pos_number P num den :
  1 <= P -> 0 <= num -> 0 < den ->
  exists i t, fmt_g_pos P num den = i ++ t /\ JInt i /\ JTail t.
Proof.
  intros HP Hn Hd. pose proof (decimal_digits_nonneg P num den HP Hn Hd) as Hq.
  unfold fmt_g_pos. destruct (decimal_digits P num den) as [q x]. cbn [fst] in Hq.
  pose proof (fmt_u_JInt q Hq) as Hi. pose proof (fmt_u_digits q Hq) as Hds.
  destruct ((x <? -4) || (P <=? x)).
  - eexists _, _. split; [reflexivity|]. split; [now apply JInt_firstn|].
    apply fraction_exp_JTail; [now apply Forall_skipn|destruct (x <? 0); tauto|lia].
  - destruct (0 <=? x).
    + eexists _, _. split; [reflexivity|]. split; [now apply JInt_firstn|].
      apply fraction_JTail. now apply Forall_skipn.
    + eexists _, _. split; [reflexivity|]. split; [left; reflexivity|].
      apply fraction_JTail. apply Forall_app; split; [|assumption].
      apply Forall_forall. intros c Hc. apply repeat_spec in Hc. now subst.
Qed.

Lemma JValue_g P d : 1 <= P -> isfinite d = true -> JValue (fmt_g P d).
Proof.
  intros HP Hd. destruct d as [s| | |s m e]; try discriminate.
  - cbn. rewrite <- (app_nil_r [48]). apply JValue_number; [left; reflexivity|constructor].
  - cbn [fmt_g]. destruct (Z.leb_spec 0 e) as [He|He].
    + destruct (fmt_g_pos_number P (Zpos m * 2 ^ e) 1) as (i & t & -> & Hi & Ht); try lia.
      now apply JValue_number.
    + destruct (fmt_g_pos_number P (Zpos m) (2 ^ (- e))) as (i & t & -> & Hi & Ht);
        [lia|lia|apply Z.pow_pos_nonneg; lia|].
      now apply JValue_number.
Qed.
#[export] Hint Resolve JValue_g : json.
