(* ===== verification/UaTypes.v ===== *)
(** The OPC UA data the adapter handles, as open62541.h declares it, and the
    interface to the library itself.  The structures are data; every library
    function the adapter calls is a field of the class [UaStack], so that the
    theorems hold for any implementation with the stated laws. *)

From Stdlib Require Import String Ascii ZArith Bool List Lia SpecFloat.
Import ListNotations.
From S2P Require Import Prelude CLib.

(** * Types *)

(** [&UA_TYPES[UA_TYPES_...]]: the 25 built-in types and the structures. *)
Inductive ua_type :=
| TBoolean | TSByte | TByte | TInt16 | TUInt16 | TInt32 | TUInt32 | TInt64 | TUInt64
| TFloat | TDouble | TString | TDateTime | TGuid | TByteString | TXmlElement
| TNodeId | TExpandedNodeId | TStatusCode | TQualifiedName | TLocalizedText
| TExtensionObject | TDataValue | TVariant | TDiagnosticInfo
| TStructure (index : Z).

Definition ua_type_eq_dec (a b : ua_type) : {a = b} + {a <> b}.
Proof. decide equality; apply Z.eq_dec. Defined.
Definition type_eqb (a b : ua_type) : bool := if ua_type_eq_dec a b then true else false.

Lemma type_eqb_eq a b : type_eqb a b = true <-> a = b.
Proof. unfold type_eqb. destruct (ua_type_eq_dec a b); split; congruence. Qed.

Lemma type_eqb_refl a : type_eqb a a = true.
Proof. now apply type_eqb_eq. Qed.

(** UA_String / UA_ByteString: [None] when [data] is NULL (the null string),
    [Some []] for the empty string (the empty-array sentinel). *)
Abbreviation ua_string := (option bytes).

Definition str_len (s : ua_string) : nat := length (default [] s).

Record ua_guid := { data1 : Z; data2 : Z; data3 : Z; data4 : list Z }.

(** [identifierType] and [identifier]; [IdOther] is a type value outside the
    enumeration, which the [default:] branches answer. *)
Inductive ua_identifier :=
| IdNumeric (n : Z)
| IdString (s : ua_string)
| IdGuid (g : ua_guid)
| IdByteString (s : ua_string)
| IdOther.

Record ua_nodeid := { namespaceIndex : Z; identifier : ua_identifier }.
Definition UA_NODEID_NULL : ua_nodeid := {| namespaceIndex := 0; identifier := IdNumeric 0 |}.
Definition UA_NODEID_NUMERIC (ns n : Z) : ua_nodeid :=
  {| namespaceIndex := ns; identifier := IdNumeric n |}.

Record ua_expanded_nodeid :=
  { en_nodeId : ua_nodeid; en_namespaceUri : ua_string; en_serverIndex : Z }.

(** Encoded or decoded body of an ExtensionObject; a decoded structure is an
    object of the library, named by a handle. *)
Inductive ua_extension :=
| ExtNoBody
| ExtByteString (typeId : ua_nodeid) (body : ua_string)
| ExtXml (typeId : ua_nodeid) (body : ua_string)
| ExtDecoded (type : ua_type) (handle : Z).

Inductive ua_diagnostic := Diagnostic {
  symbolicId : option Z; di_namespaceUri : option Z; localizedText : option Z; di_locale : option Z;
  additionalInfo : option ua_string; innerStatusCode : option Z;
  innerDiagnosticInfo : option ua_diagnostic }.

(** A scalar of a built-in type, a Variant, a DataValue. *)
Inductive ua_value :=
| VBoolean (b : bool)
| VSByte (z : Z) | VByte (z : Z) | VInt16 (z : Z) | VUInt16 (z : Z)
| VInt32 (z : Z) | VUInt32 (z : Z) | VInt64 (z : Z) | VUInt64 (z : Z)
| VFloat (f : spec_float) | VDouble (f : spec_float)
| VString (s : ua_string) | VDateTime (t : Z) | VGuid (g : ua_guid)
| VByteString (s : ua_string) | VXmlElement (s : ua_string)
| VNodeId (n : ua_nodeid) | VExpandedNodeId (n : ua_expanded_nodeid)
| VStatusCode (c : Z)
| VQualifiedName (ns : Z) (name : ua_string)
| VLocalizedText (locale text : ua_string)
| VExtensionObject (e : ua_extension)
| VDataValue (d : ua_datavalue)
| VVariant (v : ua_variant)
| VDiagnosticInfo (d : ua_diagnostic)
| VStructure (index : Z)
with ua_variant :=
| VtEmpty
| VtScalar (v : ua_value)
| VtArray (type : ua_type) (items : list ua_value) (dimensions : list Z)
with ua_datavalue :=
| DataValue (value : option ua_variant) (status : option Z)
    (sourceTimestamp : option Z) (sourcePicoseconds : option Z)
    (serverTimestamp : option Z) (serverPicoseconds : option Z).

Definition type_of (v : ua_value) : ua_type :=
  match v with
  | VBoolean _ => TBoolean | VSByte _ => TSByte | VByte _ => TByte | VInt16 _ => TInt16
  | VUInt16 _ => TUInt16 | VInt32 _ => TInt32 | VUInt32 _ => TUInt32 | VInt64 _ => TInt64
  | VUInt64 _ => TUInt64 | VFloat _ => TFloat | VDouble _ => TDouble | VString _ => TString
  | VDateTime _ => TDateTime | VGuid _ => TGuid | VByteString _ => TByteString
  | VXmlElement _ => TXmlElement | VNodeId _ => TNodeId | VExpandedNodeId _ => TExpandedNodeId
  | VStatusCode _ => TStatusCode | VQualifiedName _ _ => TQualifiedName
  | VLocalizedText _ _ => TLocalizedText | VExtensionObject _ => TExtensionObject
  | VDataValue _ => TDataValue | VVariant _ => TVariant | VDiagnosticInfo _ => TDiagnosticInfo
  | VStructure i => TStructure i
  end.

(** [variant->type], NULL for the empty Variant. *)
Definition variant_type (v : ua_variant) : option ua_type :=
  match v with
  | VtEmpty => None
  | VtScalar x => Some (type_of x)
  | VtArray t _ _ => Some t
  end.

Definition variant_dims (v : ua_variant) : list Z :=
  match v with VtArray _ _ d => d | _ => [] end.

(** The scalar a Variant of the given type holds ([UA_Variant_hasScalarType]). *)
Definition scalar_of (t : ua_type) (v : ua_variant) : option ua_value :=
  match v with VtScalar x => if type_eqb (type_of x) t then Some x else None | _ => None end.

(** ** Equality of NodeIds *)

Definition z_list_eq_dec := list_eq_dec Z.eq_dec.

Definition guid_eq_dec (a b : ua_guid) : {a = b} + {a <> b}.
Proof. decide equality; auto using Z.eq_dec, z_list_eq_dec. Defined.

Definition ustr_eq_dec (a b : ua_string) : {a = b} + {a <> b}.
Proof. decide equality; apply z_list_eq_dec. Defined.

Definition identifier_eq_dec (a b : ua_identifier) : {a = b} + {a <> b}.
Proof. decide equality; auto using Z.eq_dec, guid_eq_dec, ustr_eq_dec. Defined.

Definition nodeid_eq_dec (a b : ua_nodeid) : {a = b} + {a <> b}.
Proof. decide equality; auto using Z.eq_dec, identifier_eq_dec. Defined.

(** [UA_NodeId_equal] and [UA_NodeId_isNull]. *)
Class NodeIdOps := { NodeId_equal : ua_nodeid -> ua_nodeid -> bool; NodeId_isNull : ua_nodeid -> bool }.

Class NodeIdLaws (nid : NodeIdOps) := {
  NodeId_equal_refl : forall n, NodeId_equal n n = true;
  NodeId_equal_sym : forall a b, NodeId_equal a b = true -> NodeId_equal b a = true;
  NodeId_equal_trans : forall a b c, NodeId_equal a b = true -> NodeId_equal b c = true -> NodeId_equal a c = true
}.

(** * Status codes (Part 6 of the OPC UA specification) *)

Definition UA_STATUSCODE_GOOD := 0x00000000.
Definition UA_STATUSCODE_BADUNEXPECTEDERROR := 0x80010000.
Definition UA_STATUSCODE_BADINTERNALERROR := 0x80020000.
Definition UA_STATUSCODE_BADOUTOFMEMORY := 0x80030000.
Definition UA_STATUSCODE_BADCOMMUNICATIONERROR := 0x80050000.
Definition UA_STATUSCODE_BADDECODINGERROR := 0x80070000.
Definition UA_STATUSCODE_BADTIMEOUT := 0x800A0000.
Definition UA_STATUSCODE_BADSERVERNOTCONNECTED := 0x800D0000.
Definition UA_STATUSCODE_BADSECURITYCHECKSFAILED := 0x80130000.
Definition UA_STATUSCODE_BADSECURECHANNELIDINVALID := 0x80220000.
Definition UA_STATUSCODE_BADSESSIONIDINVALID := 0x80250000.
Definition UA_STATUSCODE_BADSESSIONCLOSED := 0x80260000.
Definition UA_STATUSCODE_BADNODEIDUNKNOWN := 0x80340000.
Definition UA_STATUSCODE_BADNOTIMPLEMENTED := 0x80400000.
Definition UA_STATUSCODE_BADNOTSUPPORTED := 0x803D0000.
Definition UA_STATUSCODE_BADNOTHINGTODO := 0x800F0000.
Definition UA_STATUSCODE_BADCONTINUATIONPOINTINVALID := 0x804A0000.
Definition UA_STATUSCODE_BADSERVERURIINVALID := 0x804F0000.
Definition UA_STATUSCODE_BADNAMESPACEURIINVALID := 0x80530000.
Definition UA_STATUSCODE_BADSECURITYPOLICYREJECTED := 0x80550000.
Definition UA_STATUSCODE_BADNOMATCH := 0x806F0000.
Definition UA_STATUSCODE_BADHISTORYOPERATIONUNSUPPORTED := 0x80720000.
Definition UA_STATUSCODE_BADSECURECHANNELCLOSED := 0x80860000.
Definition UA_STATUSCODE_BADNOTCONNECTED := 0x808A0000.
Definition UA_STATUSCODE_BADINVALIDARGUMENT := 0x80AB0000.
Definition UA_STATUSCODE_BADCONNECTIONREJECTED := 0x80AC0000.
Definition UA_STATUSCODE_BADDISCONNECT := 0x80AD0000.
Definition UA_STATUSCODE_BADCONNECTIONCLOSED := 0x80AE0000.

(** * The library *)

Record ua_datetime_struct :=
  { dts_year : Z; dts_month : Z; dts_day : Z; dts_hour : Z; dts_min : Z; dts_sec : Z;
    dts_milliSec : Z }.

(** 100 ns intervals per second, and from 1601-01-01 to 1970-01-01 in seconds. *)
Definition UA_DATETIME_SEC : Z := 10000000.
Definition UNIX_EPOCH_SEC : Z := 11644473600.

Class UaStack := {
  StatusCode_isGood : Z -> bool;
  StatusCode_isUncertain : Z -> bool;
  StatusCode_isBad : Z -> bool;
  StatusCode_name : Z -> option bytes;
  DateTime_toStruct : Z -> ua_datetime_struct;
  type_typeName : ua_type -> option bytes;
  type_binaryEncodingId : ua_type -> ua_nodeid;
  (** [UA_encodeBinary] of the structure behind a handle *)
  encode_structure : ua_type -> Z -> option bytes;
  (** [UA_encodeBinary] then [UA_decodeBinary] of an ExtensionObject: bodies of
      known DataTypes come back decoded; [None] when either call fails *)
  recode_extension : ua_extension -> option ua_extension
}.

(** The instants from 1601-01-01 up to the end of the year 9999. *)
Definition DATETIME_END : Z := 2650467744000000000.

(** What the adapter relies on: the severity is in the two top bits, names are plain text (identifiers), and a
    DateTime splits into the UTC calendar fields of the same instant. *)
Class UaStackLaws (S : UaStack) := {
  isGood_severity : forall c, 0 <= c < 2 ^ 32 -> StatusCode_isGood c = (c / 2 ^ 30 =? 0);
  isUncertain_severity : forall c, 0 <= c < 2 ^ 32 -> StatusCode_isUncertain c = (c / 2 ^ 30 =? 1);
  isBad_severity : forall c, 0 <= c < 2 ^ 32 -> StatusCode_isBad c = (2 <=? c / 2 ^ 30);
  StatusCode_name_plain : forall c n, StatusCode_name c = Some n ->
    Forall (fun x => 32 < x < 127 /\ x <> 34 /\ x <> 92) n;
  typeName_text : forall t n, type_typeName t = Some n ->
    Forall (fun x => 32 < x < 127 /\ x <> 34 /\ x <> 92) n;
  toStruct_instant : forall t, 0 <= t < DATETIME_END ->
    let s := DateTime_toStruct t in
    timegm (dts_year s) (dts_month s) (dts_day s) (dts_hour s) (dts_min s) (dts_sec s)
      = t / UA_DATETIME_SEC - UNIX_EPOCH_SEC
    /\ dts_milliSec s = t mod UA_DATETIME_SEC / 10000;
  toStruct_range : forall t, 0 <= t < DATETIME_END ->
    let s := DateTime_toStruct t in
    0 <= dts_year s < 10000 /\ 0 <= dts_month s < 100 /\ 0 <= dts_day s < 100
    /\ 0 <= dts_hour s < 100 /\ 0 <= dts_min s < 100 /\ 0 <= dts_sec s < 100
}.
