(* ===== verification/RefStack.v ===== *)
(** A concrete stack: status-code severity bits, a civil calendar and the names
    of the built-in types, with the laws of [UaStackLaws] proved for it.  The
    theorems of the other files hold for every stack; this one makes their
    hypotheses concrete where they are evaluated. *)

From Stdlib Require Import String Ascii ZArith Bool List Lia.
Import ListNotations.
From S2P Require Import Prelude CLib UaTypes.

(** Year of the era, month counted from March and day of a day of the 400-year
    era that starts on a 1st of March. *)
Definition civil_of_doe (doe : Z) : Z * Z * Z :=
  let yoe := (doe - doe / 1460 + doe / 36524 - doe / 146096) / 365 in
  let doy := doe - (365 * yoe + yoe / 4 - yoe / 100) in
  let mp := (5 * doy + 2) / 153 in
  (yoe, mp, doy - (153 * mp + 2) / 5 + 1).

Definition ref_toStruct (t : Z) : ua_datetime_struct :=
  let secs := t / UA_DATETIME_SEC - UNIX_EPOCH_SEC in
  let z := secs / 86400 + 719468 in
  let sod := secs mod 86400 in
  let era := z / 146097 in
  let '(yoe, mp, d) := civil_of_doe (z mod 146097) in
  let m := if mp <? 10 then mp + 3 else mp - 9 in
  {| dts_year := era * 400 + yoe + (if m <=? 2 then 1 else 0);
     dts_month := m; dts_day := d;
     dts_hour := sod / 3600; dts_min := sod / 60 mod 60; dts_sec := sod mod 60;
     dts_milliSec := t mod UA_DATETIME_SEC / 10000 |}.

Definition ref_names : list (Z * bytes) :=
  [(UA_STATUSCODE_GOOD, B "Good"); (UA_STATUSCODE_BADTIMEOUT, B "BadTimeout");
   (UA_STATUSCODE_BADINVALIDARGUMENT, B "BadInvalidArgument");
   (UA_STATUSCODE_BADCONTINUATIONPOINTINVALID, B "BadContinuationPointInvalid")].

Definition ref_typeName (t : ua_type) : option bytes :=
  match t with
  | TBoolean => Some (B "Boolean") | TInt32 => Some (B "Int32") | TDouble => Some (B "Double")
  | TString => Some (B "String") | TStructure _ => Some (B "Argument") | _ => None
  end.

#[export] Instance ref_stack : UaStack := {
  StatusCode_isGood c := c / 2 ^ 30 =? 0;
  StatusCode_isUncertain c := c / 2 ^ 30 =? 1;
  StatusCode_isBad c := 2 <=? c / 2 ^ 30;
  StatusCode_name c := option_map snd (find (fun p => fst p =? c) ref_names);
  DateTime_toStruct := ref_toStruct;
  type_typeName := ref_typeName;
  type_binaryEncodingId t := match t with TStructure i => UA_NODEID_NUMERIC 0 i | _ => UA_NODEID_NULL end;
  encode_structure _ h := Some [u8 h];
  recode_extension e := Some e }.

(** * The calendar *)

Lemma civil_of_doe_spec doe yoe mp d :
  0 <= doe < 146097 -> civil_of_doe doe = (yoe, mp, d) ->
  0 <= yoe < 400 /\ 0 <= mp < 12 /\ 1 <= d <= 31
  /\ doe = yoe * 365 + yoe / 4 - yoe / 100 + (153 * mp + 2) / 5 + (d - 1).
Proof.
  intros H E. unfold civil_of_doe in E.
  assert (0 <= (doe - doe / 1460 + doe / 36524 - doe / 146096) / 365 < 400) as Hy
    by (Z.div_mod_to_equations; lia).
  assert (0 <= doe - (365 * ((doe - doe / 1460 + doe / 36524 - doe / 146096) / 365)
    + (doe - doe / 1460 + doe / 36524 - doe / 146096) / 365 / 4
    - (doe - doe / 1460 + doe / 36524 - doe / 146096) / 365 / 100) <= 365) as Hd
    by (Z.div_mod_to_equations; lia).
  revert Hd Hy E. generalize ((doe - doe / 1460 + doe / 36524 - doe / 146096) / 365) as y.
  intros y. cbv zeta. remember (doe - (365 * y + y / 4 - y / 100)) as doy eqn:Edoy.
  intros Hd Hy E. injection E as <- <- <-.
  repeat split; try lia; clear Edoy; Z.div_mod_to_equations; lia.
Qed.

(** The days before 10000-01-01 of the era are not in a later year. *)
Lemma civil_of_doe_year doe yoe mp d :
  0 <= doe < 146037 -> civil_of_doe doe = (yoe, mp, d) ->
  yoe + (if mp <? 10 then 0 else 1) <= 399.
Proof.
  intros H E. destruct (civil_of_doe_spec doe yoe mp d) as (Hy & Hm & Hd & Eq); [lia|assumption|].
  destruct (Z.ltb_spec mp 10); [lia|]. Z.div_mod_to_equations; lia.
Qed.

Lemma civil_days era yoe mp d :
  0 <= yoe < 400 -> 0 <= mp < 12 ->
  let m := if mp <? 10 then mp + 3 else mp - 9 in
  days_from_civil (era * 400 + yoe + (if m <=? 2 then 1 else 0)) m d =
  era * 146097 + (yoe * 365 + yoe / 4 - yoe / 100 + (153 * mp + 2) / 5) - 719468 + (d - 1)
  /\ 1 <= m <= 12.
Proof.
  intros Hy Hm m. unfold days_from_civil.
  assert ((m + 9) mod 12 = mp) as -> .
  { unfold m. destruct (Z.ltb_spec mp 10).
    - replace (mp + 3 + 9) with (mp + 1 * 12) by lia. rewrite Z.mod_add by lia. apply Z.mod_small; lia.
    - replace (mp - 9 + 9) with mp by lia. apply Z.mod_small; lia. }
  assert ((if m <=? 2 then era * 400 + yoe + (if m <=? 2 then 1 else 0) - 1
           else era * 400 + yoe + (if m <=? 2 then 1 else 0)) = yoe + era * 400) as ->
    by (destruct (m <=? 2); lia).
  rewrite Z.div_add, Z.div_small by lia.
  replace (yoe + era * 400 - (0 + era) * 400) with yoe by lia.
  split; [lia|]. unfold m. destruct (Z.ltb_spec mp 10); lia.
Qed.

Lemma ref_instant t :
  let s := ref_toStruct t in
  timegm (dts_year s) (dts_month s) (dts_day s) (dts_hour s) (dts_min s) (dts_sec s)
    = t / UA_DATETIME_SEC - UNIX_EPOCH_SEC
  /\ dts_milliSec s = t mod UA_DATETIME_SEC / 10000.
Proof.
  unfold ref_toStruct. set (secs := t / UA_DATETIME_SEC - UNIX_EPOCH_SEC).
  set (z := secs / 86400 + 719468). destruct (civil_of_doe (z mod 146097)) as [[yoe mp] d] eqn:E.
  destruct (civil_of_doe_spec (z mod 146097) yoe mp d) as (Hy & Hm & Hd & Eq);
    [apply Z.mod_pos_bound; lia|assumption|].
  cbn [dts_year dts_month dts_day dts_hour dts_min dts_sec dts_milliSec]. split; [|reflexivity].
  destruct (civil_days (z / 146097) yoe mp d) as [Ed Hr]; [assumption..|].
  unfold timegm. rewrite (Z.div_small _ 12), (Z.mod_small _ 12), Z.add_0_r, Z.sub_add by lia.
  assert (z = z / 146097 * 146097 + z mod 146097) as Ez
    by (rewrite (Z.mul_comm (z / 146097)); apply Z.div_mod; lia).
  rewrite Ed.
  match goal with |- ?a * 86400 + _ + _ + _ = _ => assert (a = secs / 86400) as ->
    by (unfold z in *; lia) end.
  clearbody secs. clear. Z.div_mod_to_equations; lia.
Qed.

Lemma ref_range t : 0 <= t < DATETIME_END ->
  let s := ref_toStruct t in
  0 <= dts_year s < 10000 /\ 0 <= dts_month s < 100 /\ 0 <= dts_day s < 100
  /\ 0 <= dts_hour s < 100 /\ 0 <= dts_min s < 100 /\ 0 <= dts_sec s < 100.
Proof.
  intros Ht.
  assert (-11644473600 <= t / UA_DATETIME_SEC - UNIX_EPOCH_SEC < 253402300800) as Hs.
  { unfold UA_DATETIME_SEC, UNIX_EPOCH_SEC, DATETIME_END in *. Z.div_mod_to_equations; lia. }
  unfold ref_toStruct. set (secs := t / UA_DATETIME_SEC - UNIX_EPOCH_SEC) in *.
  set (z := secs / 86400 + 719468).
  assert (584694 <= z < 3652365) as Hz by (unfold z; clearbody secs; clear - Hs; Z.div_mod_to_equations; lia).
  destruct (civil_of_doe (z mod 146097)) as [[yoe mp] d] eqn:E.
  assert (0 <= z mod 146097 < 146097) as Hdoe by (apply Z.mod_pos_bound; lia).
  destruct (civil_of_doe_spec _ yoe mp d Hdoe E) as (Hy & Hm & Hd & _).
  cbn [dts_year dts_month dts_day dts_hour dts_min dts_sec]. clearbody secs.
  assert (4 <= z / 146097 <= 24) by (Z.div_mod_to_equations; lia).
  assert (z / 146097 = 24 -> yoe + (if mp <? 10 then 0 else 1) <= 399) as Hlast.
  { intros E24. eapply civil_of_doe_year; [|exact E]. Z.div_mod_to_equations; lia. }
  destruct (Z.ltb_spec mp 10).
  - destruct (Z.leb_spec (mp + 3) 2); Z.div_mod_to_equations; lia.
  - destruct (Z.leb_spec (mp - 9) 2); Z.div_mod_to_equations; lia.
Qed.

#[export] Instance ref_stack_laws : UaStackLaws ref_stack.
Proof.
  split; [reflexivity|reflexivity|reflexivity|..].
  - intros c n H. cbn [StatusCode_name ref_stack] in H.
    destruct (find _ ref_names) as [p|] eqn:E; [|discriminate]. inversion H; subst.
    apply find_some in E as [Hin _]. cbn in Hin.
    destruct Hin as [<-|[<-|[<-|[<-|[]]]]]; cbn; repeat constructor; try lia.
  - intros t n H. destruct t; inversion H; subst; cbn; repeat constructor; try lia.
  - intros t _. apply ref_instant.
  - intros t Ht. now apply ref_range.
Qed.

#[export] Instance ref_nodeid_ops : NodeIdOps := {
  NodeId_equal a b := if nodeid_eq_dec a b then true else false;
  NodeId_isNull n := if nodeid_eq_dec n (UA_NODEID_NUMERIC 0 0) then true else false }.

#[export] Instance ref_nodeid_laws : NodeIdLaws ref_nodeid_ops.
Proof.
  split; cbn; intros *; repeat destruct (nodeid_eq_dec _ _); try reflexivity; congruence.
Qed.
