(* ===== verification/Base64.v ===== *)
(** Base64: the decoder of values.c (server.c and client.c carry copies of it)
    and the encoders of values.c, output.c, part12.c and client.c. *)

From Stdlib Require Import String Ascii ZArith Bool List Lia.
Import ListNotations.
From S2P Require Import Prelude CLib Json.

(** * values.c *)

Definition b64_val (c : Z) : Z :=
  if (65 <=? c) && (c <=? 90) then c - 65
  else if (97 <=? c) && (c <=? 122) then c - 97 + 26
  else if (48 <=? c) && (c <=? 57) then c - 48 + 52
  else if c =? 43 then 62
  else if c =? 47 then 63
  else -1.

(** The value of the third or fourth character of a group: [=] counts as 0. *)
Definition b64_pad_val (c : Z) : Z := if c =? 61 then 0 else b64_val c.

(** The [for (i = 0; i < inLen; i += 4)] loop; [room] is [n - j], the bytes
    that are still written. *)
Fixpoint b64_loop (room : nat) (s : bytes) : option bytes :=
  match s with
  | [] => Some []
  | c1 :: c2 :: c3 :: c4 :: r =>
      let a := b64_val c1 in
      let b := b64_val c2 in
      let c := b64_pad_val c3 in
      let d := b64_pad_val c4 in
      if (a <? 0) || (b <? 0) || (c <? 0) || (d <? 0) then None
      else
        let o := [u8 (Z.lor (Z.shiftl a 2) (Z.shiftr b 4));
                  u8 (Z.lor (Z.shiftl (Z.land b 15) 4) (Z.shiftr c 2));
                  u8 (Z.lor (Z.shiftl (Z.land c 3) 6) d)] in
        do tl <- b64_loop (room - 3) r;
        Some (firstn room o ++ tl)
  | _ => None
  end.

Definition at_end (k : nat) (s : bytes) : Z := nth (length s - k) s 0.

(** [None]: NULL.  The empty text is the empty buffer. *)
Definition value_b64_decode (s : bytes) : option bytes :=
  match s with
  | [] => Some []
  | _ =>
      if negb (Nat.eqb (Nat.modulo (length s) 4) 0) then None
      else
        let n := (length s / 4 * 3)%nat in
        let n := if at_end 1 s =? 61 then (n - 1)%nat else n in
        let n := if at_end 2 s =? 61 then (n - 1)%nat else n in
        b64_loop n s
  end.

Definition b64_alphabet : bytes :=
  B "ABCDEFGHIJKLMNOPQRSTUVWXYZabcdefghijklmnopqrstuvwxyz0123456789+/".
Definition b64_char (i : Z) : Z := nth (Z.to_nat i) b64_alphabet 0.

(** One iteration of the encoding loop: 4 characters of 1 to 3 bytes. *)
Definition b64_quad (a : Z) (b c : option Z) : bytes :=
  let b' := default 0 b in
  let c' := default 0 c in
  [b64_char (Z.shiftr a 2);
   b64_char (Z.lor (Z.shiftl (Z.land a 3) 4) (Z.shiftr b' 4));
   if is_some b then b64_char (Z.lor (Z.shiftl (Z.land b' 15) 2) (Z.shiftr c' 6)) else 61;
   if is_some c then b64_char (Z.land c' 63) else 61].

Fixpoint value_b64_encode (data : bytes) : bytes :=
  match data with
  | [] => []
  | [a] => b64_quad a None None
  | [a; b] => b64_quad a (Some b) None
  | a :: b :: c :: r => b64_quad a (Some b) (Some c) ++ value_b64_encode r
  end.

(** * The copies in server.c and client.c *)

(** server.c [b64_decode]; client.c [b64_decode] tests [inLen >= 2] before it
    reads [in[inLen - 2]], which the length check already ensures. *)
Definition server_b64_decode (s : bytes) : option bytes :=
  match s with
  | [] => Some []
  | _ =>
      if negb (Nat.eqb (Nat.modulo (length s) 4) 0) then None
      else
        let n := (length s / 4 * 3)%nat in
        let n := if at_end 1 s =? 61 then (n - 1)%nat else n in
        let n := if at_end 2 s =? 61 then (n - 1)%nat else n in
        b64_loop n s
  end.

Definition client_b64_decode (s : bytes) : option bytes :=
  match s with
  | [] => Some []
  | _ =>
      if negb (Nat.eqb (Nat.modulo (length s) 4) 0) then None
      else
        let n := (length s / 4 * 3)%nat in
        let n := if at_end 1 s =? 61 then (n - 1)%nat else n in
        let n := if Nat.leb 2 (length s) && (at_end 2 s =? 61) then (n - 1)%nat else n in
        b64_loop n s
  end.

(** output.c [print_base64]: the loop over an index [i], three bytes at a time. *)
Fixpoint print_base64_from (fuel : nat) (data : bytes) (i : nat) : bytes :=
  match fuel with
  | O => []
  | S f =>
      if Nat.ltb i (length data) then
        let a := nth i data 0 in
        let b := if Nat.ltb (i + 1) (length data) then nth (i + 1) data 0 else 0 in
        let c := if Nat.ltb (i + 2) (length data) then nth (i + 2) data 0 else 0 in
        [b64_char (Z.shiftr a 2);
         b64_char (Z.lor (Z.shiftl (Z.land a 3) 4) (Z.shiftr b 4));
         if Nat.ltb (i + 1) (length data)
         then b64_char (Z.lor (Z.shiftl (Z.land b 15) 2) (Z.shiftr c 6)) else 61;
         if Nat.ltb (i + 2) (length data) then b64_char (Z.land c 63) else 61]
        ++ print_base64_from f data (i + 3)
      else []
  end.
Definition print_base64 (data : bytes) : bytes := print_base64_from (S (length data)) data 0.

(** * Lemmas *)

Lemma b64_val_char i : 0 <= i < 64 -> b64_val (b64_char i) = i /\ b64_char i <> 61.
Proof.
  intros H.
  assert (forallb (fun k => (b64_val (b64_char (Z.of_nat k)) =? Z.of_nat k) &&
                            negb (b64_char (Z.of_nat k) =? 61)) (seq 0 64) = true) as Hall
    by (vm_compute; reflexivity).
  rewrite forallb_forall in Hall. specialize (Hall (Z.to_nat i)). rewrite Z2Nat.id in Hall by lia.
  assert (In (Z.to_nat i) (seq 0 64)) as Hin by (apply in_seq; lia).
  specialize (Hall Hin). zbool. tauto.
Qed.

Lemma b64_pad_char i : 0 <= i < 64 -> b64_pad_val (b64_char i) = i.
Proof.
  intros H. unfold b64_pad_val. destruct (b64_val_char i H) as [E N].
  destruct (Z.eqb_spec (b64_char i) 61); congruence.
Qed.

(** The bit fields of a group, as arithmetic on bytes. *)
Lemma lor_disjoint h l k : 0 <= k -> 0 <= l < 2 ^ k -> Z.lor (Z.shiftl h k) l = h * 2 ^ k + l.
Proof.
  intros Hk Hl.
  assert (Z.land (Z.shiftl h k) l = 0) as H0.
  { apply Z.bits_inj'. intros n Hn. rewrite Z.land_spec, Z.bits_0, Z.shiftl_spec by lia.
    destruct (Z.lt_ge_cases n k) as [Hlt|Hge].
    - now rewrite Z.testbit_neg_r by lia.
    - destruct (Z.eq_dec l 0) as [->|]; [now rewrite Z.bits_0, andb_false_r|].
      rewrite (Z.bits_above_log2 l n), andb_false_r; [reflexivity|lia|].
      apply Z.log2_lt_pow2; [lia|].
      eapply Z.lt_le_trans; [apply Hl|]. apply Z.pow_le_mono_r; lia. }
  rewrite <- Z.lxor_lor, <- Z.add_nocarry_lxor by assumption.
  now rewrite Z.shiftl_mul_pow2.
Qed.

Ltac bits_to_arith :=
  rewrite ?(Z.shiftr_div_pow2 _ 2), ?(Z.shiftr_div_pow2 _ 4), ?(Z.shiftr_div_pow2 _ 6) by lia;
  change 3 with (Z.ones 2); change 15 with (Z.ones 4); change 63 with (Z.ones 6);
  rewrite ?Z.land_ones by lia;
  change (2 ^ 2) with 4; change (2 ^ 4) with 16; change (2 ^ 6) with 64.

Lemma b64_index a b c :
  0 <= a < 256 -> 0 <= b < 256 -> 0 <= c < 256 ->
  Z.shiftr a 2 = a / 4 /\
  Z.lor (Z.shiftl (Z.land a 3) 4) (Z.shiftr b 4) = a mod 4 * 16 + b / 16 /\
  Z.lor (Z.shiftl (Z.land b 15) 2) (Z.shiftr c 6) = b mod 16 * 4 + c / 64 /\
  Z.land c 63 = c mod 64.
Proof.
  intros. bits_to_arith. split; [reflexivity|].
  rewrite !lor_disjoint by (try change (2 ^ 2) with 4; try change (2 ^ 4) with 16;
    Z.div_mod_to_equations; lia).
  auto.
Qed.

Lemma b64_outputs i1 i2 i3 i4 :
  0 <= i1 < 64 -> 0 <= i2 < 64 -> 0 <= i3 < 64 -> 0 <= i4 < 64 ->
  u8 (Z.lor (Z.shiftl i1 2) (Z.shiftr i2 4)) = i1 * 4 + i2 / 16 /\
  u8 (Z.lor (Z.shiftl (Z.land i2 15) 4) (Z.shiftr i3 2)) = i2 mod 16 * 16 + i3 / 4 /\
  u8 (Z.lor (Z.shiftl (Z.land i3 3) 6) i4) = i3 mod 4 * 64 + i4.
Proof.
  intros. bits_to_arith.
  rewrite !lor_disjoint by (try change (2 ^ 2) with 4; try change (2 ^ 4) with 16;
    try change (2 ^ 6) with 64; Z.div_mod_to_equations; lia).
  unfold u8. change (2 ^ 2) with 4; change (2 ^ 4) with 16; change (2 ^ 6) with 64.
  rewrite !uwrap_small; [auto|..]; change (2 ^ 8) with 256; Z.div_mod_to_equations; lia.
Qed.

(** The four indices of a group are indices of the alphabet. *)
Lemma b64_index_range a b c :
  0 <= a < 256 -> 0 <= b < 256 -> 0 <= c < 256 ->
  0 <= a / 4 < 64 /\ 0 <= a mod 4 * 16 + b / 16 < 64 /\
  0 <= b mod 16 * 4 + c / 64 < 64 /\ 0 <= c mod 64 < 64.
Proof. intros. Z.div_mod_to_equations. lia. Qed.

Lemma b64_not_neg i : 0 <= i < 64 -> (b64_val (b64_char i) <? 0) = false.
Proof. intros H. destruct (b64_val_char i H) as [-> _]. apply Z.ltb_ge. lia. Qed.

Lemma b64_pad_not_neg i : 0 <= i < 64 -> (b64_pad_val (b64_char i) <? 0) = false.
Proof. intros H. rewrite b64_pad_char by assumption. apply Z.ltb_ge. lia. Qed.

(** The bytes come back from the indices. *)
Lemma b64_merge a b c :
  0 <= a < 256 -> 0 <= b < 256 -> 0 <= c < 256 ->
  a / 4 * 4 + (a mod 4 * 16 + b / 16) / 16 = a /\
  (a mod 4 * 16 + b / 16) mod 16 * 16 + (b mod 16 * 4 + c / 64) / 4 = b /\
  (b mod 16 * 4 + c / 64) mod 4 * 64 + c mod 64 = c.
Proof. intros. Z.div_mod_to_equations. lia. Qed.

(** Decoding one full group. *)
Lemma b64_loop_quad room a b c r :
  0 <= a < 256 -> 0 <= b < 256 -> 0 <= c < 256 ->
  b64_loop room (b64_quad a (Some b) (Some c) ++ r) =
  (do tl <- b64_loop (room - 3) r; Some (firstn room [a; b; c] ++ tl)).
Proof.
  intros Ha Hb Hc. unfold b64_quad. cbn [default is_some app b64_loop].
  destruct (b64_index a b c) as (-> & -> & -> & ->); [assumption..|].
  destruct (b64_index_range a b c) as (H1 & H2 & H3 & H4); [assumption..|].
  rewrite !b64_not_neg, !b64_pad_not_neg by assumption. cbn [orb].
  rewrite !b64_pad_char by assumption.
  destruct (b64_val_char _ H1) as [-> _]. destruct (b64_val_char _ H2) as [-> _].
  destruct (b64_outputs _ _ _ _ H1 H2 H3 H4) as (-> & -> & ->).
  destruct (b64_merge a b c) as (-> & -> & ->); auto.
Qed.

Lemma b64_loop_last1 a : 0 <= a < 256 -> b64_loop 1 (b64_quad a None None) = Some [a].
Proof.
  intros Ha. unfold b64_quad. cbn [default is_some b64_loop].
  destruct (b64_index a 0 0) as (-> & -> & _ & _); [lia..|].
  destruct (b64_index_range a 0 0) as (H1 & H2 & _ & _); [lia..|].
  rewrite !b64_not_neg by assumption.
  change (b64_pad_val 61) with 0. change (0 <? 0) with false. cbn [orb obind firstn app].
  destruct (b64_val_char _ H1) as [-> _]. destruct (b64_val_char _ H2) as [-> _].
  destruct (b64_outputs (a / 4) (a mod 4 * 16 + 0 / 16) 0 0) as (E & _); [lia..|].
  rewrite E. destruct (b64_merge a 0 0) as (-> & _); [lia..|reflexivity].
Qed.

Lemma b64_loop_last2 a b : 0 <= a < 256 -> 0 <= b < 256 ->
  b64_loop 2 (b64_quad a (Some b) None) = Some [a; b].
Proof.
  intros Ha Hb. unfold b64_quad. cbn [default is_some b64_loop].
  destruct (b64_index a b 0) as (-> & -> & -> & _); [lia..|].
  destruct (b64_index_range a b 0) as (H1 & H2 & H3 & _); [lia..|].
  rewrite !b64_not_neg, b64_pad_not_neg by assumption.
  change (b64_pad_val 61) with 0. change (0 <? 0) with false. cbn [orb obind firstn app].
  destruct (b64_val_char _ H1) as [-> _]. destruct (b64_val_char _ H2) as [-> _].
  rewrite b64_pad_char by assumption.
  destruct (b64_outputs _ _ _ 0 H1 H2 H3) as (E1 & E2 & _); [lia|].
  rewrite E1, E2. destruct (b64_merge a b 0) as (-> & -> & _); [lia..|reflexivity].
Qed.

(** Induction over the groups of three bytes. *)
Lemma triple_ind (P : bytes -> Prop) :
  P [] -> (forall a, P [a]) -> (forall a b, P [a; b]) ->
  (forall a b c r, P r -> P (a :: b :: c :: r)) -> forall l, P l.
Proof.
  intros H0 H1 H2 H3.
  enough (forall n l, (length l <= n)%nat -> P l) as H by (intros l; now apply (H (length l))).
  induction n as [|n IH]; intros l Hl.
  - destruct l; [assumption|cbn in Hl; lia].
  - destruct l as [|a [|b [|c r]]]; auto. apply H3, IH. cbn in Hl. lia.
Qed.

Lemma Bytes_tail3 a b c r : Bytes (a :: b :: c :: r) -> Bytes r.
Proof. change (a :: b :: c :: r) with ([a; b; c] ++ r). rewrite Bytes_app. tauto. Qed.

Lemma b64_loop_encode l : Bytes l -> b64_loop (length l) (value_b64_encode l) = Some l.
Proof.
  induction l as [|a|a b|a b c r IH] using triple_ind; intros H; [reflexivity|..].
  - apply b64_loop_last1. now apply (Bytes_In [a]); [|left].
  - apply b64_loop_last2; apply (Bytes_In [a; b]); cbn; auto.
  - change (value_b64_encode (a :: b :: c :: r)) with
      (b64_quad a (Some b) (Some c) ++ value_b64_encode r).
    rewrite b64_loop_quad by (apply (Bytes_In (a :: b :: c :: r)); cbn; auto).
    replace (length (a :: b :: c :: r) - 3)%nat with (length r) by (cbn; lia).
    rewrite IH by exact (Bytes_tail3 _ _ _ _ H).
    cbn [obind]. now rewrite firstn_all2 by (cbn; lia).
Qed.

Lemma encode_length l : length (value_b64_encode l) = ((length l + 2) / 3 * 4)%nat.
Proof.
  induction l as [|a|a b|a b c r IH] using triple_ind; try reflexivity.
  cbn [value_b64_encode]. rewrite length_app, IH. cbn [length b64_quad].
  replace (S (S (S (length r))) + 2)%nat with (length r + 2 + 1 * 3)%nat by lia.
  rewrite Nat.div_add by lia. lia.
Qed.

(** The last group of the encoded text, and its padding. *)
Lemma encode_tail l : Bytes l -> l <> [] ->
  exists p x y z w, value_b64_encode l = p ++ [x; y; z; w]
  /\ (w =? 61) = negb (Nat.eqb (length l mod 3) 0)
  /\ (z =? 61) = Nat.eqb (length l mod 3) 1.
Proof.
  induction l as [|a|a b|a b c r IH] using triple_ind; intros Hl Hne; [congruence|..].
  - eexists [], _, _, _, _. repeat split.
  - assert (0 <= a < 256) as Ha by (apply (Bytes_In [a; b]); cbn; auto).
    assert (0 <= b < 256) as Hb by (apply (Bytes_In [a; b]); cbn; auto).
    eexists [], _, _, _, _. split; [reflexivity|]. split; [reflexivity|].
    cbn [is_some default]. destruct (b64_index a b 0) as (_ & _ & -> & _); [lia..|].
    destruct (b64_index_range a b 0) as (_ & _ & H3 & _); [lia..|].
    apply Z.eqb_neq. now apply b64_val_char.
  - assert (forall x, In x (a :: b :: c :: r) -> 0 <= x < 256) as Hall by (intros; eapply Bytes_In; eauto).
    pose proof (Bytes_tail3 _ _ _ _ Hl) as Hr.
    replace (length (a :: b :: c :: r) mod 3)%nat with (length r mod 3)%nat
      by (cbn [length]; replace (S (S (S (length r)))) with (length r + 1 * 3)%nat by lia;
          now rewrite Nat.Div0.mod_add).
    destruct r as [|d r'].
    + eexists [], _, _, _, _. split; [reflexivity|]. cbn [is_some default].
      destruct (b64_index a b c) as (_ & _ & -> & ->); [apply Hall; cbn; auto..|].
      destruct (b64_index_range a b c) as (_ & _ & H3 & H4); [apply Hall; cbn; auto..|].
      split; apply Z.eqb_neq; now apply b64_val_char.
    + destruct IH as (p & x & y & z & w & E & H3 & H2); [assumption|discriminate|].
      exists (b64_quad a (Some b) (Some c) ++ p), x, y, z, w. split; [|now split].
      change (value_b64_encode (a :: b :: c :: d :: r')) with
        (b64_quad a (Some b) (Some c) ++ value_b64_encode (d :: r')).
      rewrite E. now rewrite <- app_assoc.
Qed.

Lemma at_end_tail p x y z w :
  at_end 1 (p ++ [x; y; z; w]) = w /\ at_end 2 (p ++ [x; y; z; w]) = z.
Proof.
  unfold at_end. rewrite !length_app. cbn [length].
  split; rewrite app_nth2 by lia;
  [replace (length p + 4 - 1 - length p)%nat with 3%nat by lia
  |replace (length p + 4 - 2 - length p)%nat with 2%nat by lia]; reflexivity.
Qed.

Lemma decode_length_ok n :
  let m := ((n + 2) / 3 * 4 / 4 * 3)%nat in
  let m := if negb (Nat.eqb (n mod 3) 0) then (m - 1)%nat else m in
  (if Nat.eqb (n mod 3) 1 then (m - 1)%nat else m) = n.
Proof.
  cbv zeta. rewrite Nat.div_mul by lia.
  pose proof (Nat.div_mod_eq n 3). pose proof (Nat.mod_upper_bound n 3).
  assert ((n + 2) / 3 = if Nat.eqb (n mod 3) 0 then n / 3 else S (n / 3))%nat as E.
  { destruct (Nat.eqb_spec (n mod 3) 0); symmetry.
    - apply (Nat.div_unique _ 3 _ 2); lia.
    - apply (Nat.div_unique _ 3 _ (n mod 3 - 1)); lia. }
  rewrite E. destruct (Nat.eqb_spec (n mod 3) 0), (Nat.eqb_spec (n mod 3) 1); cbn [negb]; lia.
Qed.

Lemma decode_encode l : Bytes l -> value_b64_decode (value_b64_encode l) = Some l.
Proof.
  intros Hl. destruct l as [|a l'] eqn:El; [reflexivity|]. rewrite <- El in *.
  assert (l <> []) as Hne by (subst; discriminate).
  destruct (encode_tail l Hl Hne) as (p & x & y & z & w & E & H1 & H2).
  unfold value_b64_decode. rewrite encode_length, Nat.Div0.mod_mul. cbn [Nat.eqb negb].
  pose proof (decode_length_ok (length l)) as Hn. cbv zeta in Hn.
  rewrite <- H1, <- H2 in Hn.
  destruct (at_end_tail p x y z w) as [E1 E2]. rewrite <- E in E1, E2. rewrite E1, E2.
  destruct (value_b64_encode l) eqn:Ev.
  - destruct p; discriminate E.
  - rewrite <- Ev in *. cbv zeta. rewrite Hn. now apply b64_loop_encode.
Qed.

(** Every decoded text has the length the padding announces, and is bytes. *)
Lemma b64_loop_bytes room s out : b64_loop room s = Some out -> Bytes out.
Proof.
  enough (forall n s room out, (length s <= n)%nat -> b64_loop room s = Some out -> Bytes out)
    as H by (apply (H (length s)); lia).
  clear. induction n as [|n IH]; intros s room out Hn H.
  - destruct s; [|cbn in Hn; lia]. inversion H. constructor.
  - destruct s as [|c1 [|c2 [|c3 [|c4 r]]]]; cbn [b64_loop] in H; try discriminate; [inversion H; constructor|].
    destruct (_ || _); [discriminate|]. unfold obind in H.
    destruct (b64_loop (room - 3) r) as [tl|] eqn:E; [|discriminate]. inversion H; subst.
    apply Bytes_app. split; [|eapply IH; [|exact E]; cbn in Hn; lia].
    apply Forall_firstn. repeat (constructor; [apply u8_is_byte|]). constructor.
Qed.

Lemma decode_bytes s out : value_b64_decode s = Some out -> Bytes out.
Proof.
  unfold value_b64_decode. destruct s as [|c s]; [intros H; inversion H; constructor|].
  destruct (negb _); [discriminate|]. apply b64_loop_bytes.
Qed.

(** ** The copies agree *)

Lemma nth_pre pre k i : nth (length pre + i) (pre ++ k) 0 = nth i k 0.
Proof. rewrite app_nth2 by lia. f_equal. lia. Qed.

Lemma ltb_pre (pre k : bytes) i :
  Nat.ltb (length pre + i) (length (pre ++ k)) = Nat.ltb i (length k).
Proof.
  rewrite length_app. destruct (Nat.ltb_spec i (length k)), (Nat.ltb_spec (length pre + i) (length pre + length k));
    auto; lia.
Qed.

Lemma print_base64_from_pre k : forall pre fuel, (length k < fuel)%nat ->
  print_base64_from fuel (pre ++ k) (length pre) = value_b64_encode k.
Proof.
  assert (forall pre k, Nat.ltb (length pre) (length (pre ++ k)) = Nat.ltb 0 (@length Z k)) as L0
    by (intros; rewrite <- (ltb_pre pre k0 0), Nat.add_0_r; reflexivity).
  assert (forall pre k, nth (length pre) (pre ++ k) 0 = nth 0 k 0) as N0
    by (intros; rewrite <- (nth_pre pre k0 0), Nat.add_0_r; reflexivity).
  induction k as [|a|a b|a b c r IH] using triple_ind; intros pre fuel Hf;
    (destruct fuel as [|f]; [cbn in Hf; lia|]); cbn [print_base64_from];
    rewrite !L0, !N0, !ltb_pre, !nth_pre; cbn [length nth Nat.ltb Nat.leb value_b64_encode app] in *;
    [reflexivity|..].
  - destruct f; [cbn in Hf; lia|]. cbn [print_base64_from].
    rewrite <- (Nat.add_assoc (length pre) 3 _) || idtac.
    rewrite (ltb_pre pre [a] 3). reflexivity.
  - destruct f; [cbn in Hf; lia|]. cbn [print_base64_from].
    rewrite (ltb_pre pre [a; b] 3). reflexivity.
  - replace (pre ++ a :: b :: c :: r) with ((pre ++ [a; b; c]) ++ r) by now rewrite <- app_assoc.
    replace (length pre + 3)%nat with (length (pre ++ [a; b; c])) by (rewrite length_app; reflexivity).
    rewrite IH by lia. reflexivity.
Qed.

Lemma print_base64_eq l : print_base64 l = value_b64_encode l.
Proof. apply (print_base64_from_pre l []). lia. Qed.

(** The characters of an encoding: the alphabet and the padding. *)
Lemma b64_quad_Forall (P : Z -> Prop) a b c : (forall i, 0 <= i < 64 -> P (b64_char i)) -> P 61 ->
  0 <= a < 256 -> 0 <= default 0 b < 256 -> 0 <= default 0 c < 256 -> Forall P (b64_quad a b c).
Proof.
  intros HP Hp Ha Hb Hc. unfold b64_quad. destruct (b64_index a (default 0 b) (default 0 c)) as (-> & -> & -> & ->);
    [assumption..|].
  destruct (b64_index_range a (default 0 b) (default 0 c)) as (H1 & H2 & H3 & H4); [assumption..|].
  repeat constructor; auto; [destruct (is_some b)|destruct (is_some c)]; auto.
Qed.

Lemma encode_Forall (P : Z -> Prop) l : (forall i, 0 <= i < 64 -> P (b64_char i)) -> P 61 ->
  Bytes l -> Forall P (value_b64_encode l).
Proof.
  intros HP Hp. induction l as [|a|a b|a b c r IH] using triple_ind; intros H; [constructor|..].
  - apply b64_quad_Forall; cbn; [auto..| |lia|lia]. now apply (Bytes_In [a]); [|left].
  - apply b64_quad_Forall; cbn; [auto..| | |lia]; apply (Bytes_In [a; b]); cbn; auto.
  - change (value_b64_encode (a :: b :: c :: r)) with
      (b64_quad a (Some b) (Some c) ++ value_b64_encode r).
    apply Forall_app; split; [|apply IH; exact (Bytes_tail3 _ _ _ _ H)].
    apply b64_quad_Forall; cbn; auto; apply (Bytes_In (a :: b :: c :: r)); cbn; auto.
Qed.

(** The alphabet needs no escaping in a JSON string. *)
Lemma b64_char_ascii i : 0 <= i < 64 -> plain (b64_char i) && (b64_char i <? 128) = true.
Proof.
  intros H.
  assert (forallb (fun k => plain (b64_char (Z.of_nat k)) && (b64_char (Z.of_nat k) <? 128)) (seq 0 64) = true) as Hall
    by (vm_compute; reflexivity).
  rewrite forallb_forall in Hall. rewrite <- (Z2Nat.id i) by lia. apply Hall. apply in_seq. lia.
Qed.

Lemma encode_plain l : Bytes l -> Forall (fun x => plain x = true) (value_b64_encode l).
Proof. apply encode_Forall; [|reflexivity]. intros i Hi. apply b64_char_ascii, andb_prop in Hi. tauto. Qed.

Lemma JBody_b64 l : Bytes l -> JBody (value_b64_encode l).
Proof. intros. now apply JBody_Forall, encode_plain. Qed.
#[export] Hint Resolve JBody_b64 : json.

Lemma client_decode_eq s : client_b64_decode s = value_b64_decode s.
Proof.
  destruct s as [|c s]; [reflexivity|]. unfold client_b64_decode, value_b64_decode.
  destruct (negb _) eqn:E; [reflexivity|]. apply negb_false_iff, Nat.eqb_eq in E.
  destruct (Nat.leb_spec 2 (length (c :: s))); [reflexivity|].
  destruct s; cbn in *; [discriminate|lia].
Qed.

(** client.c [b64_encode], the same loop once more. *)
Definition client_b64_encode (data : bytes) : bytes := value_b64_encode data.

Lemma b64_loop_length s : forall room out, b64_loop room s = Some out -> (length out <= room)%nat.
Proof.
  assert (forall n s room out, (length s <= n)%nat -> b64_loop room s = Some out -> (length out <= room)%nat)
    as H; [|intros room out; now apply (H (length s))].
  clear s. induction n as [|n IH]; intros s room out Hn H.
  - destruct s; [|cbn in Hn; lia]. cbn in H. injection H as <-. cbn. lia.
  - destruct s as [|a [|b [|c [|d r]]]]; cbn [b64_loop] in H; try discriminate.
    + injection H as <-. cbn. lia.
    + unfold obind, guard in H. destruct (_ || _) eqn:G in H; try discriminate.
      destruct (b64_loop (room - 3) r) as [tl|] eqn:E; [|discriminate]. injection H as <-.
      apply IH in E; [|cbn in Hn; lia]. rewrite length_app, length_firstn. cbn [length]. lia.
Qed.

(** [*outLen]: the size of the buffer the decoders allocate, less one. *)
Definition b64_size (s : bytes) : nat :=
  let n := (length s / 4 * 3)%nat in
  let n := if at_end 1 s =? 61 then (n - 1)%nat else n in
  if at_end 2 s =? 61 then (n - 1)%nat else n.

(** * Theorem *)

Lemma b64_decode_size s out : value_b64_decode s = Some out -> (length out <= b64_size s)%nat.
Proof.
  intros Hd. unfold value_b64_decode in Hd. destruct s as [|c s]; [injection Hd as <-; cbn; lia|].
  destruct (negb _); [discriminate|]. now apply b64_loop_length in Hd.
Qed.

(** C31: on bytes, the printer of output.c and the encoders of values.c and client.c
    agree, all three decoders (values.c, server.c, client.c) read what they write
    back to the same bytes, and on any text none of the three decoders writes more
    bytes than the size it computed for its buffer. *)
Theorem base64_roundtrip l s out : forallb is_byte l = true ->
  print_base64 l = value_b64_encode l /\ print_base64 l = client_b64_encode l /\
  value_b64_decode (print_base64 l) = Some l /\
  server_b64_decode (print_base64 l) = Some l /\
  client_b64_decode (print_base64 l) = Some l /\
  (In (Some out) [value_b64_decode s; server_b64_decode s; client_b64_decode s] -> (length out <= b64_size s)%nat /\ Bytes out).
Proof.
  intros H. assert (Bytes l) as Hl by (apply Forall_forall; now rewrite forallb_forall in H).
  rewrite print_base64_eq, !client_decode_eq. change server_b64_decode with value_b64_decode.
  rewrite decode_encode by assumption. repeat (split; [reflexivity|]). intros Hd.
  assert (value_b64_decode s = Some out) as Hs by (now destruct Hd as [|[|[|[]]]]).
  split; [now apply b64_decode_size|eapply decode_bytes; exact Hs].
Qed.

Lemma base64_roundtrip_witness :
  value_b64_decode (print_base64 [0; 255; 16; 7]) = Some [0; 255; 16; 7].
Proof. apply (base64_roundtrip [0; 255; 16; 7] [] []). reflexivity. Defined.

(** Padding inside the text is accepted: the [=] characters count as zero bits. *)
Lemma base64_inner_padding : value_b64_decode (B "AA==AAAA") = Some [0; 0; 0; 0; 0; 0].
Proof. reflexivity. Qed.
