(* ===== verification/Output.v ===== *)
(** output.c: the JSON the client commands print.  Each printer is the text it
    writes to stdout; a command's output is the concatenation in call order.
    The theorems: every value and envelope printed is JSON (with the condition
    on NodeId strings the code needs), and string literals read back to the
    bytes they stand for. *)

From Stdlib Require Import String Ascii ZArith Bool List Lia SpecFloat.
Import ListNotations.
From S2P Require Import Prelude CLib Json Float UaTypes RefStack Base64.

(** * Strings *)

(** The body of the [for] loop of print_json_string. *)
Definition json_escape (c : Z) : bytes :=
  if c =? 34 then [92; 34]
  else if c =? 92 then [92; 92]
  else if c =? 10 then B "\n"
  else if c =? 13 then B "\r"
  else if c =? 9 then B "\t"
  else if c <? 32 then B "\u" ++ fmt_x0 4 c
  else [c].

(** [s] is a C string, NULL as [None]. *)
Definition print_json_string (s : option bytes) : bytes :=
  match s with
  | None => B "null"
  | Some s => [34] ++ flat_map json_escape (cstr s) ++ [34]
  end.

Definition print_json_string_len (data : ua_string) : bytes :=
  match data with
  | None => B "null"
  | Some d => print_json_string (Some (cstr d))
  end.

Definition output_json_string := print_json_string.

(** [data] NULL and [len] 0 is the empty string here. *)
Definition output_json_string_len (data : ua_string) : bytes :=
  match data with
  | None => J "''"
  | Some _ => print_json_string_len data
  end.

Definition print_ua_string (s : ua_string) : bytes :=
  match s with
  | None => B "null"
  | Some [] => J "''"
  | Some _ => print_json_string_len s
  end.

Definition print_ua_string_nn (s : ua_string) : bytes :=
  match s with
  | None => J "''"
  | Some [] => J "''"
  | Some _ => print_json_string_len s
  end.

(** * Built-in type id *)

Definition ua_type_to_builtin_id (t : option ua_type) : Z :=
  match t with
  | None => 0
  | Some t =>
      match t with
      | TBoolean => 1 | TSByte => 2 | TByte => 3 | TInt16 => 4 | TUInt16 => 5 | TInt32 => 6
      | TUInt32 => 7 | TInt64 => 8 | TUInt64 => 9 | TFloat => 10 | TDouble => 11 | TString => 12
      | TDateTime => 13 | TGuid => 14 | TByteString => 15 | TXmlElement => 16 | TNodeId => 17
      | TExpandedNodeId => 18 | TStatusCode => 19 | TQualifiedName => 20 | TLocalizedText => 21
      | TExtensionObject => 22 | TDataValue => 23 | TVariant => 24 | TDiagnosticInfo => 25
      | TStructure _ => 0
      end
  end.

(** * NodeIds and GUIDs *)

Definition guid_text (g : ua_guid) : bytes :=
  let d i := fmt_x0 2 (nth i (data4 g) 0) in
  fmt_x0 8 (data1 g) ++ [45] ++ fmt_x0 4 (data2 g) ++ [45] ++ fmt_x0 4 (data3 g) ++ [45]
  ++ d 0%nat ++ d 1%nat ++ [45]
  ++ d 2%nat ++ d 3%nat ++ d 4%nat ++ d 5%nat ++ d 6%nat ++ d 7%nat.

(** A backslash before a double quote or a backslash, nothing else. *)
Definition quote_escape (c : Z) : bytes := if (c =? 34) || (c =? 92) then [92; c] else [c].

Definition print_ua_nodeid (n : ua_nodeid) : bytes :=
  let ns := fmt_u (namespaceIndex n) in
  match identifier n with
  | IdNumeric i =>
      if namespaceIndex n =? 0 then J "'i=" ++ fmt_u i ++ J "'"
      else J "'ns=" ++ ns ++ B ";i=" ++ fmt_u i ++ J "'"
  | IdString s => J "'ns=" ++ ns ++ B ";s=" ++ flat_map quote_escape (default [] s) ++ J "'"
  | IdGuid g => J "'ns=" ++ ns ++ B ";g=" ++ guid_text g ++ J "'"
  | IdByteString s =>
      J "'ns=" ++ ns ++ B ";b="
      ++ match s with Some ((_ :: _) as d) => print_base64 d | _ => [] end ++ J "'"
  | IdOther => J "'ns=" ++ ns ++ B ";..." ++ J "'"
  end.

Definition output_nodeid := print_ua_nodeid.

Definition print_ua_guid (g : ua_guid) : bytes := J "'" ++ guid_text g ++ J "'".

Definition print_nodeid_ident_raw (n : ua_nodeid) : bytes :=
  match identifier n with
  | IdNumeric i => B "i=" ++ fmt_u i
  | IdString s => B "s=" ++ flat_map quote_escape (default [] s)
  | IdGuid g => B "g=" ++ guid_text g
  | IdByteString s => B "b=" ++ match s with Some ((_ :: _) as d) => print_base64 d | _ => [] end
  | IdOther => []
  end.

Definition print_expanded_nodeid (e : ua_expanded_nodeid) : bytes :=
  J "'"
  ++ (if en_serverIndex e =? 0 then [] else B "svr=" ++ fmt_u (en_serverIndex e) ++ B ";")
  ++ match en_namespaceUri e with
     | Some ((_ :: _) as u) => B "nsu=" ++ flat_map quote_escape u ++ B ";"
     | _ => if namespaceIndex (en_nodeId e) =? 0 then []
            else B "ns=" ++ fmt_u (namespaceIndex (en_nodeId e)) ++ B ";"
     end
  ++ print_nodeid_ident_raw (en_nodeId e) ++ J "'".

(** * NodeClass name *)

Inductive ua_nodeclass :=
| NcObject | NcVariable | NcMethod | NcObjectType | NcVariableType | NcReferenceType
| NcDataType | NcView | NcUnspecified (n : Z).

Definition node_class_name (nc : ua_nodeclass) : bytes :=
  match nc with
  | NcObject => B "Object" | NcVariable => B "Variable" | NcMethod => B "Method"
  | NcObjectType => B "ObjectType" | NcVariableType => B "VariableType"
  | NcReferenceType => B "ReferenceType" | NcDataType => B "DataType" | NcView => B "View"
  | NcUnspecified _ => B "Unknown"
  end.

Record ua_reference := {
  referenceTypeId : ua_nodeid; isForward : bool; ref_nodeId : ua_nodeid;
  ref_browseName_ns : Z; ref_browseName : ua_string;
  ref_displayName_locale : ua_string; ref_displayName_text : ua_string;
  ref_nodeClass : ua_nodeclass }.

Section WithStack.
Context {stack : UaStack}.

(** * Status codes and timestamps *)

Definition output_severity (code : Z) : bytes :=
  if StatusCode_isGood code then B "Good"
  else if StatusCode_isUncertain code then B "Uncertain"
  else B "Bad".

Definition output_status_code_name (code : Z) : bytes :=
  match StatusCode_name code with
  | Some ((_ :: _) as n) => n
  | _ => B "Unknown"
  end.

Definition print_status_obj (sc : Z) : bytes :=
  J "{'name':'" ++ output_status_code_name sc ++ J "','code':" ++ fmt_u sc
  ++ J ",'severity':'" ++ output_severity sc ++ J "'}".

(** The text left in the 64-byte buffer of the callers. *)
Definition output_timestamp (dt : Z) : bytes :=
  if dt =? 0 then []
  else
    let t := DateTime_toStruct dt in
    snprintf 64
      (fmt_u0 4 (u32 (dts_year t)) ++ [45] ++ fmt_u0 2 (u32 (dts_month t)) ++ [45]
       ++ fmt_u0 2 (u32 (dts_day t)) ++ [84] ++ fmt_u0 2 (u32 (dts_hour t)) ++ [58]
       ++ fmt_u0 2 (u32 (dts_min t)) ++ [58] ++ fmt_u0 2 (u32 (dts_sec t)) ++ [46]
       ++ fmt_u0 3 (u32 (dts_milliSec t)) ++ [90]).

(** * Values *)

Definition print_extension_object (e : ua_extension) : bytes :=
  match e with
  | ExtNoBody => B "null"
  | ExtXml t b =>
      J "{'typeId':" ++ print_ua_nodeid t ++ J ",'encoding':'" ++ B "xml" ++ J "','body':"
      ++ print_ua_string_nn b ++ J "}"
  | ExtByteString t b =>
      J "{'typeId':" ++ print_ua_nodeid t ++ J ",'encoding':'" ++ B "binary" ++ J "','body':"
      ++ (J "'" ++ print_base64 (default [] b) ++ J "'") ++ J "}"
  | ExtDecoded t h =>
      J "{'typeId':" ++ print_ua_nodeid (type_binaryEncodingId t)
      ++ J ",'encoding':'binary','dataTypeName':"
      ++ print_json_string (Some (default [] (type_typeName t)))
      ++ J ",'body':" ++ (J "'" ++ print_base64 (default [] (encode_structure t h)) ++ J "'")
      ++ J "}"
  end.

Fixpoint print_diagnostic_info (d : ua_diagnostic) : bytes :=
  let num k (o : option Z) := option_map (fun z => J k ++ fmt_d z) o in
  jobject (present
    [num "'symbolicId':"%string (symbolicId d);
     num "'namespaceUri':"%string (di_namespaceUri d);
     num "'localizedText':"%string (localizedText d);
     num "'locale':"%string (di_locale d);
     option_map (fun s => J "'additionalInfo':" ++ print_ua_string_nn s) (additionalInfo d);
     option_map (fun c => J "'innerStatusCode':" ++ print_status_obj c) (innerStatusCode d);
     option_map (fun i => J "'innerDiagnosticInfo':" ++ print_diagnostic_info i)
                (innerDiagnosticInfo d)]).

Definition type_display_name (t : option ua_type) : bytes :=
  match t with
  | None => B "Null"
  | Some t => default (B "Unknown") (type_typeName t)
  end.

Definition print_dims (l : list Z) : bytes := jarray (map fmt_u l).

Fixpoint print_scalar (v : ua_value) : bytes :=
  match v with
  | VBoolean b => bool_text b
  | VSByte z | VInt16 z | VInt32 z => fmt_d z
  | VByte z | VUInt16 z | VUInt32 z => fmt_u z
  | VInt64 z => J "'" ++ fmt_d z ++ J "'"
  | VUInt64 z => J "'" ++ fmt_u z ++ J "'"
  | VFloat f => if isfinite f then fmt_g 6 f else B "null"
  | VDouble f => if isfinite f then fmt_g 17 f else B "null"
  | VString s => print_ua_string s
  | VDateTime t => match output_timestamp t with [] => B "null" | b => J "'" ++ b ++ J "'" end
  | VGuid g => print_ua_guid g
  | VByteString s => match s with None => B "null" | Some d => J "'" ++ print_base64 d ++ J "'" end
  | VXmlElement s => match s with None => B "null" | Some _ => print_json_string_len s end
  | VNodeId n => print_ua_nodeid n
  | VQualifiedName ns name =>
      J "{'ns':" ++ fmt_u ns ++ J ",'name':" ++ print_ua_string_nn name ++ J "}"
  | VLocalizedText loc text =>
      J "{'locale':" ++ print_ua_string_nn loc ++ J ",'text':" ++ print_ua_string_nn text ++ J "}"
  | VStatusCode c => print_status_obj c
  | VExpandedNodeId e => print_expanded_nodeid e
  | VExtensionObject e => print_extension_object e
  | VDataValue d => output_ua_datavalue d
  | VVariant w =>
      match w with
      | VtEmpty => B "null"
      | _ =>
          J "{'dataType':" ++ print_json_string (Some (type_display_name (variant_type w)))
          ++ J ",'builtInType':" ++ fmt_d (ua_type_to_builtin_id (variant_type w))
          ++ J ",'value':" ++ output_ua_variant_value w ++ J "}"
      end
  | VDiagnosticInfo d => print_diagnostic_info d
  | VStructure _ => B "null"
  end
with output_ua_variant_value (w : ua_variant) : bytes :=
  match w with
  | VtEmpty => B "null"
  | VtScalar v => print_scalar v
  | VtArray _ l _ => jarray (map print_scalar l)
  end
with output_ua_datavalue (d : ua_datavalue) : bytes :=
  let '(DataValue value status sts sps rts rps) := d in
  jobject (present
    [match value with
     | Some w => Some
         (J "'dataType':" ++ print_json_string (Some (type_display_name (variant_type w)))
          ++ J ",'builtInType':" ++ fmt_d (ua_type_to_builtin_id (variant_type w))
          ++ match variant_dims w with [] => [] | l => J ",'arrayDimensions':" ++ print_dims l end
          ++ J ",'value':" ++ output_ua_variant_value w)
     | None => None
     end;
     option_map (fun c => J "'statusCode':" ++ print_status_obj c) status;
     option_map (fun t => J "'sourceTimestamp':" ++ (J "'" ++ output_timestamp t ++ J "'")) sts;
     option_map (fun p => J "'sourcePicoseconds':" ++ fmt_u p) sps;
     option_map (fun t => J "'serverTimestamp':" ++ (J "'" ++ output_timestamp t ++ J "'")) rts;
     option_map (fun p => J "'serverPicoseconds':" ++ fmt_u p) rps]).

Definition output_ua_scalar := print_scalar.

Definition output_ua_variant_field (key : bytes) (w : ua_variant) : bytes :=
  J ",'" ++ key ++ J "':" ++ output_ua_variant_value w.

(** * Envelope *)

Definition output_begin (adapter op : bytes) : bytes :=
  J "{'schemaVersion':'1.0','adapter':" ++ print_json_string (Some adapter)
  ++ J ",'operation':" ++ print_json_string (Some op).

Definition output_success (ok : bool) : bytes := J ",'success':" ++ bool_text ok.

Definition output_service_result (code : Z) : bytes :=
  J ",'serviceResult':" ++ print_status_obj code.

Definition output_end : bytes := B "}" ++ [10].
Definition output_open_results : bytes := J ",'results':[".
Definition output_close_results : bytes := J "]".
Definition output_null_error : bytes := J ",'error':null".
Definition output_no_results : bytes := J ",'results':[]" ++ J ",'error':null".

Definition output_error (category message : bytes) : bytes :=
  J ",'results':[]" ++ J ",'error':{'category':" ++ print_json_string (Some category)
  ++ J ",'message':" ++ print_json_string (Some message) ++ J "}".

(** * Result items *)

Definition output_read_result_item (nodeId : bytes) (sc : Z) (dataType : option bytes)
    (builtInType : Z) (val : option ua_variant) (sourceTs : Z) : bytes :=
  J "{'nodeId':" ++ print_json_string (Some nodeId)
  ++ J ",'statusCode':" ++ print_status_obj sc
  ++ J ",'dataType':" ++ print_json_string dataType
  ++ J ",'builtInType':" ++ fmt_d builtInType
  ++ J ",'value':" ++ match val with Some w => output_ua_variant_value w | None => B "null" end
  ++ (if sourceTs =? 0 then []
      else match output_timestamp sourceTs with
           | [] => []
           | ts => J ",'sourceTimestamp':" ++ (J "'" ++ ts ++ J "'")
           end)
  ++ J "}".

Definition output_read_result (nodeId : bytes) (sc : Z) (dataType : option bytes)
    (builtInType : Z) (val : option ua_variant) (sourceTs : Z) : bytes :=
  output_open_results
  ++ output_read_result_item nodeId sc dataType builtInType val sourceTs
  ++ output_close_results ++ output_null_error.

Definition output_write_result_item (nodeId : bytes) (sc : Z) : bytes :=
  J "{'nodeId':" ++ print_json_string (Some nodeId)
  ++ J ",'statusCode':" ++ print_status_obj sc ++ J "}".

Definition output_write_result (nodeId : bytes) (sc : Z) : bytes :=
  J ",'results':[" ++ output_write_result_item nodeId sc ++ J "],'error':null".

Definition browse_item (ref : ua_reference) : bytes :=
  J "{'referenceTypeId':" ++ print_ua_nodeid (referenceTypeId ref)
  ++ J ",'isForward':" ++ bool_text (isForward ref)
  ++ J ",'nodeId':" ++ print_ua_nodeid (ref_nodeId ref)
  ++ J ",'browseName':{'ns':" ++ fmt_u (ref_browseName_ns ref)
  ++ J ",'name':" ++ print_ua_string_nn (ref_browseName ref)
  ++ J "},'displayName':{'locale':" ++ print_ua_string_nn (ref_displayName_locale ref)
  ++ J ",'text':" ++ print_ua_string_nn (ref_displayName_text ref)
  ++ J "},'nodeClass':" ++ (J "'" ++ node_class_name (ref_nodeClass ref) ++ J "'") ++ J "}".

Definition output_browse_results (refs : list ua_reference) : bytes :=
  J ",'results':" ++ jarray (map browse_item refs) ++ J ",'error':null".

Definition output_call_result (objectNodeId methodNodeId : bytes) (sc : Z)
    (outputs : list ua_variant) : bytes :=
  J "{'objectNodeId':" ++ print_json_string (Some objectNodeId)
  ++ J ",'methodNodeId':" ++ print_json_string (Some methodNodeId)
  ++ J ",'statusCode':" ++ print_status_obj sc
  ++ J ",'outputArguments':" ++ jarray (map output_ua_variant_value outputs)
  ++ J "}".

(** client.c [cli_emit_failure] and [print_sc_obj] *)
Definition cli_emit_failure (op : bytes) (sc : Z) (category message : bytes) : bytes :=
  output_begin (B "open62541") op ++ output_success false ++ output_service_result sc
  ++ output_error category message ++ output_end.

Definition cli_print_status (key : bytes) (sc : Z) : bytes :=
  J "'" ++ key ++ J "':" ++ print_status_obj sc.

End WithStack.

(** * Well-formed values *)

(** The bytes of a UA_String; the integers within their types; NodeId string
    identifiers and namespace URIs without control characters, which the
    NodeId printers write unescaped. *)
Definition wf_str (s : ua_string) : bool := forallb is_byte (default [] s).
Definition wf_printable (s : ua_string) : bool :=
  forallb (fun c => (32 <=? c) && (c <? 256)) (default [] s).
Definition wf_guid (g : ua_guid) : bool :=
  (0 <=? data1 g) && (0 <=? data2 g) && (0 <=? data3 g) && forallb (Z.leb 0) (data4 g).
Definition wf_nodeid (n : ua_nodeid) : bool :=
  (0 <=? namespaceIndex n) &&
  match identifier n with
  | IdNumeric i => 0 <=? i
  | IdString s => wf_printable s
  | IdGuid g => wf_guid g
  | IdByteString s => wf_str s
  | IdOther => true
  end.
Definition wf_expanded (e : ua_expanded_nodeid) : bool :=
  wf_nodeid (en_nodeId e) && wf_printable (en_namespaceUri e) && (0 <=? en_serverIndex e).
Definition wf_opt {A} (f : A -> bool) (o : option A) : bool :=
  match o with Some x => f x | None => true end.
Fixpoint wf_diagnostic (d : ua_diagnostic) : bool :=
  wf_opt wf_str (additionalInfo d) && wf_opt (Z.leb 0) (innerStatusCode d) &&
  match innerDiagnosticInfo d with Some i => wf_diagnostic i | None => true end.

Section Wf.
Context {stack : UaStack}.

Definition wf_extension (e : ua_extension) : bool :=
  match e with
  | ExtNoBody => true
  | ExtByteString t b | ExtXml t b => wf_nodeid t && wf_str b
  | ExtDecoded t h =>
      wf_nodeid (type_binaryEncodingId t) && wf_str (encode_structure t h)
  end.

Fixpoint wf_value (v : ua_value) : bool :=
  match v with
  | VByte z | VUInt16 z | VUInt32 z | VUInt64 z | VStatusCode z => 0 <=? z
  | VString s | VByteString s | VXmlElement s => wf_str s
  | VGuid g => wf_guid g
  | VNodeId n => wf_nodeid n
  | VExpandedNodeId e => wf_expanded e
  | VQualifiedName ns name => (0 <=? ns) && wf_str name
  | VLocalizedText l t => wf_str l && wf_str t
  | VExtensionObject e => wf_extension e
  | VDataValue d => wf_datavalue d
  | VVariant w => wf_variant w
  | VDiagnosticInfo d => wf_diagnostic d
  | _ => true
  end
with wf_variant (w : ua_variant) : bool :=
  match w with
  | VtEmpty => true
  | VtScalar v => wf_value v
  | VtArray _ l dims => forallb wf_value l && forallb (Z.leb 0) dims
  end
with wf_datavalue (d : ua_datavalue) : bool :=
  let '(DataValue value status sts sps rts rps) := d in
  match value with Some w => wf_variant w | None => true end
  && wf_opt (Z.leb 0) status && wf_opt (Z.leb 0) sps && wf_opt (Z.leb 0) rps.
End Wf.

(** * Induction over values *)

(** Constructors without a nested value. *)
Definition is_leaf (v : ua_value) : bool :=
  match v with VDataValue _ | VVariant _ => false | _ => true end.

Section ValueInd.
Variable P : ua_value -> Prop.
Variable Q : ua_variant -> Prop.
Variable R : ua_datavalue -> Prop.
Hypothesis Hleaf : forall v, is_leaf v = true -> P v.
Hypothesis Hdv : forall d, R d -> P (VDataValue d).
Hypothesis Hvar : forall w, Q w -> P (VVariant w).
Hypothesis Hempty : Q VtEmpty.
Hypothesis Hscalar : forall v, P v -> Q (VtScalar v).
Hypothesis Harray : forall t l d, Forall P l -> Q (VtArray t l d).
Hypothesis Hvalue : forall w st a b c d, (forall x, w = Some x -> Q x) -> R (DataValue w st a b c d).

Fixpoint value_ind (v : ua_value) : P v :=
  match v return P v with
  | VDataValue d => Hdv d (datavalue_ind d)
  | VVariant w => Hvar w (variant_ind w)
  | v => Hleaf v eq_refl
  end
with variant_ind (w : ua_variant) : Q w :=
  match w with
  | VtEmpty => Hempty
  | VtScalar v => Hscalar v (value_ind v)
  | VtArray t l d => Harray t l d
      ((fix go l := match l return Forall P l with
                    | [] => Forall_nil P
                    | x :: r => Forall_cons x (value_ind x) (go r)
                    end) l)
  end
with datavalue_ind (d : ua_datavalue) : R d :=
  match d with
  | DataValue w st a b c e => Hvalue w st a b c e
      (match w return forall x, w = Some x -> Q x with
       | Some y => fun x H => match H in _ = o return match o with Some z => Q z | None => True end
                              with eq_refl => variant_ind y end
       | None => fun x H => False_ind _ (eq_ind None (fun o => match o with None => True | Some _ => False end) I _ H)
       end)
  end.
End ValueInd.

Section DiagnosticInd.
Variable P : ua_diagnostic -> Prop.
Hypothesis Hd : forall a b c d e f g, (forall x, g = Some x -> P x) -> P (Diagnostic a b c d e f g).

Fixpoint diagnostic_ind (d : ua_diagnostic) : P d :=
  match d with
  | Diagnostic a b c d e f g => Hd a b c d e f g
      (match g return forall x, g = Some x -> P x with
       | Some y => fun x H => match H in _ = o return match o with Some z => P z | None => True end
                              with eq_refl => diagnostic_ind y end
       | None => fun x H => False_ind _ (eq_ind None (fun o => match o with None => True | Some _ => False end) I _ H)
       end)
  end.
End DiagnosticInd.

(** * String literals *)

Lemma forallb_Bytes l : forallb is_byte l = true -> Bytes l.
Proof. intros H. now apply Forall_forall; rewrite forallb_forall in H. Qed.

Lemma Bytes_cstr l : Bytes l -> Bytes (cstr l).
Proof.
  induction 1 as [|c l Hc _ IH]; cbn; [constructor|]. destruct (c =? 0); [constructor|].
  now constructor.
Qed.

(** The control characters, one by one. *)
Lemma control_cases (P : Z -> Prop) : (forall n, In n (seq 0 32) -> P (Z.of_nat n)) ->
  forall c, 0 <= c < 32 -> P c.
Proof.
  intros H c Hc. rewrite <- (Z2Nat.id c) by lia. apply H. apply in_seq. lia.
Qed.

(** An escape sequence: a backslash and a letter, or [\u] and four digits. *)
Definition is_escape (e : bytes) : bool :=
  match e with
  | [x; y] => (x =? 92) && jesc y
  | [x; u; a; b; c; d] =>
      (x =? 92) && (u =? 117) && is_xdigit a && is_xdigit b && is_xdigit c && is_xdigit d
  | _ => false
  end.

Lemma is_escape_body e : is_escape e = true -> JBody e.
Proof.
  intros H. destruct e as [|x [|y [|a [|b [|c [|d [|? ?]]]]]]]; try discriminate H;
  unfold is_escape in H; zbool; subst; [now apply JBody_esc|now apply JBody_hex4].
Qed.

Lemma escape_control c : 0 <= c < 32 -> is_escape (json_escape c) = true.
Proof.
  apply (control_cases (fun c => is_escape (json_escape c) = true)). intros n Hn.
  assert (forallb (fun n => is_escape (json_escape (Z.of_nat n))) (seq 0 32) = true) as Hall
    by (vm_compute; reflexivity).
  rewrite forallb_forall in Hall. exact (Hall n Hn).
Qed.

Lemma plain_intro c : 32 <= c -> c <> 34 -> c <> 92 -> plain c = true.
Proof.
  intros. unfold plain.
  destruct (Z.leb_spec 32 c), (Z.eqb_spec c 34), (Z.eqb_spec c 92); cbn; lia || reflexivity.
Qed.

Lemma JBody_escape c : is_byte c = true -> JBody (json_escape c).
Proof.
  unfold is_byte. intros H. zbool. destruct (Z.lt_ge_cases c 32) as [Hc|Hc].
  - apply is_escape_body, escape_control. lia.
  - unfold json_escape.
    destruct (Z.eqb_spec c 34); [now apply JBody_esc|].
    destruct (Z.eqb_spec c 92); [now apply JBody_esc|].
    destruct (Z.eqb_spec c 10); [lia|]. destruct (Z.eqb_spec c 13); [lia|].
    destruct (Z.eqb_spec c 9); [lia|]. destruct (Z.ltb_spec c 32); [lia|].
    now apply JBody_plain, plain_intro.
Qed.

Lemma JBody_escapes s : Bytes s -> JBody (flat_map json_escape s).
Proof.
  intros H. apply JBody_flat_map. intros c Hc. apply JBody_escape.
  unfold Bytes in H. rewrite Forall_forall in H. auto.
Qed.

Lemma JValue_json_string s : Bytes (default [] s) -> JValue (print_json_string s).
Proof.
  intros H. destruct s as [s|]; [|apply JValue_null]. unfold print_json_string.
  apply JValue_quoted. apply JBody_escapes. now apply Bytes_cstr.
Qed.

Lemma JValue_json_string_len s : wf_str s = true -> JValue (print_json_string_len s).
Proof.
  intros H. destruct s as [s|]; [|apply JValue_null]. unfold print_json_string_len.
  apply JValue_json_string. now apply Bytes_cstr, forallb_Bytes.
Qed.

Lemma JValue_output_len s : wf_str s = true -> JValue (output_json_string_len s).
Proof. destruct s as [s|]; [intros H; exact (JValue_json_string_len (Some s) H)|intros _; apply JValue_empty_string]. Qed.

Lemma JValue_ua_string s : wf_str s = true -> JValue (print_ua_string s).
Proof. intros H. destruct s as [[|c s]|]; jauto. now apply JValue_json_string_len. Qed.

Lemma JValue_ua_string_nn s : wf_str s = true -> JValue (print_ua_string_nn s).
Proof. intros H. destruct s as [[|c s]|]; jauto. now apply JValue_json_string_len. Qed.

(** The literal text of the program is made of bytes. *)
Lemma Bytes_B s : Bytes (B s).
Proof.
  unfold B, Bytes. apply Forall_forall. intros c Hc. apply in_map_iff in Hc as (a & <- & _).
  unfold is_byte. pose proof (N_ascii_bounded a).
  apply andb_true_intro; split; [apply Z.leb_le|apply Z.ltb_lt]; lia.
Qed.

#[export] Hint Resolve JBody_escapes JValue_json_string_len JValue_ua_string JValue_ua_string_nn
  Bytes_B Bytes_cstr forallb_Bytes : json.

(** ** Reading a string literal back *)

Definition keep (x : Z) (o : option (bytes * bytes)) : option (bytes * bytes) :=
  match o with Some (s, r) => Some (x :: s, r) | None => None end.

Lemma junescape_plain c t : plain c = true -> junescape (c :: t) = keep c (junescape t).
Proof.
  unfold plain. intros H. zbool. cbn [junescape].
  destruct c as [|p|p]; try lia.
  do 7 (destruct p as [p|p|]; try congruence; try lia; try reflexivity).
Qed.

Lemma junescape_escape c t : is_byte c = true -> junescape (json_escape c ++ t) = keep c (junescape t).
Proof.
  unfold is_byte. intros H. zbool. destruct (Z.lt_ge_cases c 32) as [Hc|Hc].
  - apply (control_cases (fun c => junescape (json_escape c ++ t) = keep c (junescape t))); [|lia].
    intros n Hn. cbn [seq In] in Hn. repeat (destruct Hn as [<-|Hn]; [reflexivity|]). destruct Hn.
  - unfold json_escape.
    destruct (Z.eqb_spec c 34); [subst; reflexivity|].
    destruct (Z.eqb_spec c 92); [subst; reflexivity|].
    destruct (Z.eqb_spec c 10); [lia|]. destruct (Z.eqb_spec c 13); [lia|].
    destruct (Z.eqb_spec c 9); [lia|]. destruct (Z.ltb_spec c 32); [lia|].
    now apply junescape_plain, plain_intro.
Qed.

Lemma junescape_escapes s t :
  Bytes s -> junescape (flat_map json_escape s ++ 34 :: t) = Some (s, t).
Proof.
  induction 1 as [|c s Hc _ IH]; [reflexivity|]. cbn [flat_map].
  rewrite <- app_assoc, junescape_escape, IH by assumption. reflexivity.
Qed.

(** * NodeIds *)

Lemma guid_nth g i : wf_guid g = true -> 0 <= nth i (data4 g) 0.
Proof.
  intros H. unfold wf_guid in H. zbool. rewrite forallb_forall in *.
  destruct (nth_in_or_default i (data4 g) 0) as [Hin | ->]; [|lia].
  match goal with Hf : forall x, In x _ -> _ |- _ => specialize (Hf _ Hin) end. zbool. lia.
Qed.

Lemma guid_fields g : wf_guid g = true -> 0 <= data1 g /\ 0 <= data2 g /\ 0 <= data3 g.
Proof. intros H. unfold wf_guid in H. zbool. lia. Qed.

Lemma JBody_guid g : wf_guid g = true -> JBody (guid_text g).
Proof.
  intros H. destruct (guid_fields g H) as (? & ? & ?). unfold guid_text.
  repeat first [apply JBody_x0; auto using guid_nth; fail | now apply JBody_plain | apply JBody_app].
Qed.

Lemma JBody_quote_escape s : wf_printable s = true -> JBody (flat_map quote_escape (default [] s)).
Proof.
  intros H. apply JBody_flat_map. intros c Hc. unfold wf_printable in H.
  rewrite forallb_forall in H. specialize (H _ Hc). zbool. unfold quote_escape.
  destruct (Z.eqb_spec c 34); [subst; now apply JBody_esc|].
  destruct (Z.eqb_spec c 92); [subst; now apply JBody_esc|]. now apply JBody_plain, plain_intro.
Qed.

Lemma JBody_id_b64 s : wf_str s = true ->
  JBody match s with Some ((_ :: _) as d) => print_base64 d | _ => [] end.
Proof.
  intros H. destruct s as [[|c s]|]; jauto. rewrite print_base64_eq.
  now apply JBody_b64, forallb_Bytes.
Qed.

#[export] Hint Resolve JBody_guid JBody_quote_escape JBody_id_b64 : json.

Lemma JValue_nodeid n : wf_nodeid n = true -> JValue (print_ua_nodeid n).
Proof.
  unfold wf_nodeid, print_ua_nodeid. intros H. zbool.
  destruct (identifier n) as [i|s|g|s|]; zbool; [destruct (namespaceIndex n =? 0)|..]; jvalue.
Qed.

Lemma JValue_guid g : wf_guid g = true -> JValue (print_ua_guid g).
Proof. intros H. unfold print_ua_guid. jvalue. Qed.

Lemma JBody_ident n : wf_nodeid n = true -> JBody (print_nodeid_ident_raw n).
Proof.
  unfold wf_nodeid, print_nodeid_ident_raw. intros H. zbool.
  destruct (identifier n) as [i|s|g|s|]; zbool; jbody.
Qed.

Lemma JValue_expanded e : wf_expanded e = true -> JValue (print_expanded_nodeid e).
Proof.
  unfold wf_expanded, print_expanded_nodeid. intros H. zbool.
  pose proof (JBody_ident _ H) as Hid. unfold wf_nodeid in H. zbool.
  set (a := if _ =? 0 then [] else _ ++ _). set (b := match en_namespaceUri e with Some _ => _ | _ => _ end).
  assert (JBody a) by (unfold a; destruct (en_serverIndex e =? 0); jbody).
  assert (JBody b).
  { unfold b. destruct (en_namespaceUri e) as [[|c u]|] eqn:E.
    - destruct (namespaceIndex (en_nodeId e) =? 0); jbody.
    - pose proof (JBody_quote_escape (Some (c :: u)) ltac:(assumption)) as Hq.
      cbn [default] in Hq. jbody.
    - destruct (namespaceIndex (en_nodeId e) =? 0); jbody. }
  jvalue.
Qed.
#[export] Hint Resolve JValue_nodeid JValue_guid JValue_expanded : json.

(** * Values *)

Section Printed.
Context {stack : UaStack} {laws : UaStackLaws stack}.

Lemma JBody_status_name c : JBody (output_status_code_name c).
Proof.
  unfold output_status_code_name. destruct (StatusCode_name c) as [[|x n]|] eqn:E; [jbody| |jbody].
  apply JBody_Forall. eapply Forall_impl; [|exact (StatusCode_name_plain _ _ E)].
  intros y (Hy & Hq & Hb). apply plain_intro; lia.
Qed.

Lemma JBody_severity c : JBody (output_severity c).
Proof. unfold output_severity. repeat case_goal; jbody. Qed.
Hint Resolve JBody_status_name JBody_severity : json.

Lemma JValue_status c : 0 <= c -> JValue (print_status_obj c).
Proof. intros H. unfold print_status_obj. jvalue. Qed.

Lemma plain_u0 w n : Forall (fun c => plain c = true) (fmt_u0 w (u32 n)).
Proof.
  apply pad0_Forall; [reflexivity|]. eapply Forall_impl; [|apply fmt_u_digits, uwrap_range; lia].
  intros c Hc. apply ishex_plain. unfold ishex. now rewrite Hc.
Qed.

Lemma JBody_timestamp t : JBody (output_timestamp t).
Proof.
  unfold output_timestamp. destruct (t =? 0); [apply JBody_nil|]. apply JBody_firstn_plain.
  repeat first [apply plain_u0 | apply Forall_app; split | now repeat constructor].
Qed.
Hint Resolve JValue_status JBody_timestamp : json.

Lemma JBody_print_b64 s : wf_str s = true -> JBody (print_base64 (default [] s)).
Proof. intros H. rewrite print_base64_eq. now apply JBody_b64, forallb_Bytes. Qed.
Hint Resolve JBody_print_b64 : json.

Lemma Bytes_typeName t n : type_typeName t = Some n -> Bytes n.
Proof.
  intros H. eapply Forall_impl; [|exact (typeName_text _ _ H)].
  intros c Hc. cbv beta in Hc. unfold is_byte. apply andb_true_intro; split; [apply Z.leb_le|apply Z.ltb_lt]; lia.
Qed.

Lemma JValue_typeName t : JValue (print_json_string (Some (default [] (type_typeName t)))).
Proof.
  apply JValue_json_string. destruct (type_typeName t) eqn:E; [|constructor].
  exact (Bytes_typeName _ _ E).
Qed.

Lemma JValue_display_name t : JValue (print_json_string (Some (type_display_name t))).
Proof.
  apply JValue_json_string. destruct t as [t|]; cbn [type_display_name default]; [|apply Bytes_B].
  destruct (type_typeName t) eqn:E; [exact (Bytes_typeName _ _ E)|apply Bytes_B].
Qed.
Hint Resolve JValue_typeName JValue_display_name : json.

Lemma JValue_extension e : wf_extension e = true -> JValue (print_extension_object e).
Proof.
  destruct e as [|t b|t b|t h]; cbn [wf_extension print_extension_object]; intros H; zbool.
  - jauto.
  - jvalue.
  - jvalue.
  - jvalue.
Qed.

(** A member printed only when the flag is set. *)
Lemma member_opt {A} (f : A -> bytes) k o :
  (forall st, jrun (MKey, FObj :: st) (J k) = Some (MVal, FObj :: st)) ->
  match J k with c :: _ => c =? 34 | [] => false end = true ->
  (forall x, o = Some x -> JValue (f x)) ->
  forall m, option_map (fun x => J k ++ f x) o = Some m -> JMember m.
Proof.
  intros H1 H2 H3 m Hm. destruct o as [x|]; [|discriminate]. inversion Hm; subst.
  apply JMember_lit; auto.
Qed.

Lemma wf_opt_le x : wf_opt (Z.leb 0) (Some x) = true -> 0 <= x.
Proof. intros H. cbn in H. now zbool. Qed.
Hint Resolve wf_opt_le : json.

Lemma JValue_diagnostic d : wf_diagnostic d = true -> JValue (print_diagnostic_info d).
Proof.
  induction d as [a b c d e f g IH] using diagnostic_ind. intros H.
  cbn [wf_diagnostic symbolicId di_namespaceUri localizedText
    di_locale additionalInfo innerStatusCode innerDiagnosticInfo] in H. zbool.
  cbn [print_diagnostic_info symbolicId di_namespaceUri localizedText
    di_locale additionalInfo innerStatusCode innerDiagnosticInfo].
  apply JValue_object, present_Forall.
  repeat (constructor; [apply member_opt; try reflexivity; intros x ->; jauto|]).
  constructor.
Qed.
Hint Resolve JValue_extension JValue_diagnostic : json.

Lemma JValue_timestamp t : JValue (J "'" ++ output_timestamp t ++ J "'").
Proof. jvalue. Qed.

Lemma JValue_leaf v : is_leaf v = true -> wf_value v = true -> JValue (print_scalar v).
Proof.
  intros Hl Hv.
  destruct v; try discriminate Hl; cbn [wf_value] in Hv; zbool; cbn [print_scalar]; auto with json.
  - jvalue.
  - jvalue.
  - destruct (isfinite f) eqn:E; jauto. now apply JValue_g.
  - destruct (isfinite f) eqn:E; jauto. now apply JValue_g.
  - pose proof (JValue_timestamp t). destruct (output_timestamp t); jauto.
  - destruct s as [d|]; jauto. pose proof (JBody_print_b64 (Some d) Hv). cbn [default] in *. jvalue.
  - destruct s; jauto.
  - jvalue.
  - jvalue.
Qed.

Lemma JValue_dims l : forallb (Z.leb 0) l = true -> JValue (print_dims l).
Proof.
  intros H. apply JValue_array. apply Forall_forall. intros x Hx. apply in_map_iff in Hx as (z & <- & Hz).
  rewrite forallb_forall in H. specialize (H z Hz). zbool. jauto.
Qed.

Definition printed (v : ua_value) : Prop := wf_value v = true -> JValue (print_scalar v).
Definition printed_variant (w : ua_variant) : Prop :=
  wf_variant w = true -> JValue (output_ua_variant_value w).
Definition printed_datavalue (d : ua_datavalue) : Prop :=
  wf_datavalue d = true -> JValue (output_ua_datavalue d).

Lemma printed_array t l d : Forall printed l -> printed_variant (VtArray t l d).
Proof.
  intros H Hw. cbn [wf_variant output_ua_variant_value] in *. zbool. apply JValue_array.
  apply Forall_map. rewrite Forall_forall in *. intros v Hv. apply H; [assumption|].
  match goal with F : forallb wf_value l = true |- _ => rewrite forallb_forall in F; auto end.
Qed.

Lemma printed_nested w : printed_variant w -> printed (VVariant w).
Proof.
  intros H Hw. cbn [wf_value] in Hw. zbool. specialize (H Hw). cbn [print_scalar].
  destruct w as [|v|t l d]; [jauto|..]; jvalue.
Qed.

Lemma JMember_value w : wf_variant w = true -> printed_variant w ->
  JMember (J "'dataType':" ++ print_json_string (Some (type_display_name (variant_type w)))
    ++ J ",'builtInType':" ++ fmt_d (ua_type_to_builtin_id (variant_type w))
    ++ match variant_dims w with [] => [] | l => J ",'arrayDimensions':" ++ print_dims l end
    ++ J ",'value':" ++ output_ua_variant_value w).
Proof.
  intros Hw H. specialize (H Hw).
  assert (JValue (print_dims (variant_dims w))) as Hd.
  { apply JValue_dims. destruct w as [| |t l d]; try reflexivity. cbn [wf_variant variant_dims] in *. now zbool. }
  destruct (variant_dims w); cbn [app]; jvalue.
Qed.

Lemma printed_data w st a b c d :
  (forall x, w = Some x -> printed_variant x) -> printed_datavalue (DataValue w st a b c d).
Proof.
  intros IH H. cbn [wf_datavalue] in H. zbool. cbn [output_ua_datavalue].
  apply JValue_object, present_Forall.
  constructor.
  { intros m Hm. destruct w as [w|]; [|discriminate]. inversion Hm; subst.
    apply JMember_value; auto. }
  repeat (constructor; [apply member_opt; try reflexivity; intros x ->|]); [..|constructor].
  all: auto using JValue_timestamp with json.
Qed.

Lemma printed_all : (forall v, printed v) /\ (forall w, printed_variant w) /\
  (forall d, printed_datavalue d).
Proof.
  assert (Hd : forall d, printed_datavalue d -> printed (VDataValue d)) by (intros d H Hw; now apply H).
  assert (He : printed_variant VtEmpty) by (intros _; jauto; exact JValue_null).
  assert (Hs : forall v, printed v -> printed_variant (VtScalar v)) by (intros v H Hw; now apply H).
  split; [|split].
  - apply (value_ind printed printed_variant printed_datavalue); auto using printed_array,
      printed_nested, printed_data. intros v Hl Hw. now apply JValue_leaf.
  - apply (variant_ind printed printed_variant printed_datavalue); auto using printed_array,
      printed_nested, printed_data. intros v Hl Hw. now apply JValue_leaf.
  - apply (datavalue_ind printed printed_variant printed_datavalue); auto using printed_array,
      printed_nested, printed_data. intros v Hl Hw. now apply JValue_leaf.
Qed.

Lemma JValue_scalar v : wf_value v = true -> JValue (print_scalar v).
Proof. apply printed_all. Qed.
Lemma JValue_variant w : wf_variant w = true -> JValue (output_ua_variant_value w).
Proof. apply printed_all. Qed.
Lemma JValue_datavalue d : wf_datavalue d = true -> JValue (output_ua_datavalue d).
Proof. apply printed_all. Qed.
Hint Resolve JValue_scalar JValue_variant JValue_datavalue : json.

(** ** Result items and the envelope *)

Definition wf_reference (r : ua_reference) : bool :=
  wf_nodeid (referenceTypeId r) && wf_nodeid (ref_nodeId r) && (0 <=? ref_browseName_ns r)
  && wf_str (ref_browseName r) && wf_str (ref_displayName_locale r)
  && wf_str (ref_displayName_text r).

Lemma JValue_text s : Bytes s -> JValue (print_json_string (Some s)).
Proof. apply (JValue_json_string (Some s)). Qed.
Hint Resolve JValue_text JValue_json_string : json.

Lemma JBody_node_class nc : JBody (node_class_name nc).
Proof. destruct nc; cbn [node_class_name]; jbody. Qed.
Hint Resolve JBody_node_class : json.

Lemma JValue_read_item nodeId sc dt bt val ts :
  Bytes nodeId -> 0 <= sc -> wf_str dt = true -> wf_opt wf_variant val = true ->
  JValue (output_read_result_item nodeId sc dt bt val ts).
Proof.
  intros Hn Hs Hd Hv. unfold output_read_result_item.
  assert (JValue (print_json_string dt)) by (apply JValue_json_string; now apply forallb_Bytes).
  assert (JValue match val with Some w => output_ua_variant_value w | None => B "null" end)
    by (destruct val; jauto).
  destruct (ts =? 0); [|destruct (output_timestamp ts) as [|z l] eqn:E];
    [cbn [app]|cbn [app]|rewrite <- E]; jvalue.
Qed.

Lemma JValue_write_item nodeId sc :
  Bytes nodeId -> 0 <= sc -> JValue (output_write_result_item nodeId sc).
Proof. intros. unfold output_write_result_item. jvalue. Qed.

Lemma JValue_browse_item r : wf_reference r = true -> JValue (browse_item r).
Proof. unfold wf_reference. intros H. zbool. unfold browse_item. jvalue. Qed.

Lemma JValue_call_result o m sc outs :
  Bytes o -> Bytes m -> 0 <= sc -> forallb wf_variant outs = true ->
  JValue (output_call_result o m sc outs).
Proof.
  intros Ho Hm Hs Hw. unfold output_call_result.
  assert (JValue (jarray (map output_ua_variant_value outs))).
  { apply JValue_array, Forall_map, Forall_forall. intros w Hin. apply JValue_variant.
    rewrite forallb_forall in Hw. auto. }
  jvalue.
Qed.

(** The members after [serviceResult] up to the closing brace. *)
Definition JRest (t : bytes) : Prop :=
  hd_error t = Some 44 /\ jrun (MAfter, [FObj]) (t ++ output_end) = Some (MAfter, []).

Lemma envelope_json op ok sc rest :
  Bytes op -> 0 <= sc -> JRest rest ->
  is_json (output_begin (B "open62541") op ++ output_success ok ++ output_service_result sc
           ++ rest ++ output_end) = true.
Proof.
  intros Ho Hs [Hh Hr]. destruct rest as [|c r]; [discriminate|]. inversion Hh; subst.
  unfold is_json, output_begin, output_success, output_service_result.
  pose proof (Bytes_B "open62541").
  cbn [app] in *. jwalk. now rewrite Hr.
Qed.

Lemma JRest_error category message : Bytes category -> Bytes message ->
  JRest (output_error category message).
Proof.
  intros Hc Hm. split; [reflexivity|]. unfold output_error, output_end. jwalk.
Qed.

Lemma JRest_results items : Forall JValue items ->
  JRest (output_open_results ++ commas items ++ output_close_results ++ output_null_error).
Proof.
  intros H. split; [reflexivity|].
  assert (JValue (jarray items)) as Ha by now apply JValue_array.
  transitivity (jrun (MAfter, [FObj]) (J ",'results':" ++ jarray items ++ J ",'error':null" ++ output_end)).
  - f_equal. unfold jarray. rewrite <- !app_assoc. reflexivity.
  - unfold output_end. jwalk.
Qed.
End Printed.

(** * Theorems *)

(** C9: every scalar, Variant and DataValue the client prints is one JSON text,
    at any nesting of Variants, DataValues, arrays and DiagnosticInfos, provided
    its strings are bytes and the strings inside NodeIds have no control
    characters. *)
Theorem values_print_json {stack : UaStack} {laws : UaStackLaws stack} v w d :
  wf_value v = true -> wf_variant w = true -> wf_datavalue d = true ->
  is_json (output_ua_scalar v ++ [10]) = true /\
  is_json (output_ua_variant_value w ++ [10]) = true /\
  is_json (output_ua_datavalue d ++ [10]) = true.
Proof.
  intros Hv Hw Hd. repeat split; apply JValue_is_json;
    [now apply JValue_scalar|now apply JValue_variant|now apply JValue_datavalue].
Qed.

Lemma values_print_json_witness :
  let d := DataValue (Some (VtArray TString [VString (Some [34; 7; 92; 200]); VString None] [2; 1]))
             (Some UA_STATUSCODE_BADTIMEOUT) (Some 133485408001234567) None None (Some 9) in
  let w := VtArray TVariant [VVariant (VtScalar (VInt64 (-5))); VVariant VtEmpty;
             VVariant (VtScalar (VDataValue d))] [] in
  let v := VDiagnosticInfo (Diagnostic (Some 1) None None None (Some (Some (B "info"))) (Some 0)
             (Some (Diagnostic None None None None None None None))) in
  is_json (output_ua_scalar v ++ [10]) = true /\
  is_json (output_ua_variant_value w ++ [10]) = true /\
  is_json (output_ua_datavalue d ++ [10]) = true.
Proof. intros d w v. apply (values_print_json v w d); reflexivity. Defined.

(** The text between the quotes that [print_json_string] writes for a byte
    string without zero bytes unescapes to exactly these bytes, and ends where
    the literal ends. *)
Lemma json_string_roundtrip s r : forallb (fun c => (0 <? c) && (c <? 256)) s = true ->
  junescape (tl (print_json_string (Some s)) ++ r) = Some (s, r).
Proof.
  intros H. assert (NoNul s /\ Bytes s) as [Hn Hb].
  { split; apply Forall_forall; intros c Hc; rewrite forallb_forall in H; specialize (H c Hc); zbool;
    [lia|]. unfold is_byte. apply andb_true_intro; split; [apply Z.leb_le|apply Z.ltb_lt]; lia. }
  cbn [print_json_string tl app]. rewrite cstr_id, <- app_assoc by assumption.
  now apply junescape_escapes.
Qed.

(** An embedded zero byte ends the printed text: the bytes after it are lost. *)
Lemma string_len_truncates : print_json_string_len (Some [65; 0; 66]) = J "'A'".
Proof. reflexivity. Qed.

(** A control character in a string NodeId is written as it is, which JSON does
    not allow. *)
Lemma nodeid_control_not_json :
  is_json (print_ua_nodeid {| namespaceIndex := 1; identifier := IdString (Some [10]) |} ++ [10]) = false.
Proof. reflexivity. Qed.
