(* ===== verification/OutputBuf.v ===== *)
(** output.c, [output_variant_to_buf]: a Variant printed into a buffer of the
    caller (the notification stores of the subscription commands).  A buffer is
    the text written to it so far; [None] where the C code leaves it without a
    terminating zero or copies more bytes than were formatted. *)

From Stdlib Require Import String Ascii ZArith Bool List Lia SpecFloat.
Import ListNotations.
From S2P Require Import Prelude CLib Json Float UaTypes RefStack Base64 Output.

(** [if (out < bufLen) buf[out++] = c;] *)
Definition put (bufLen : nat) (out : bytes) (c : Z) : bytes :=
  if Nat.ltb (length out) bufLen then out ++ [c] else out.

(** The loop over the characters: it stops 8 bytes before the end. *)
Fixpoint buf_escapes (bufLen : nat) (out s : bytes) : bytes :=
  match s with
  | [] => out
  | c :: r => if Nat.ltb (length out + 8) bufLen then buf_escapes bufLen (out ++ json_escape c) r else out
  end.

(** The text of the types that are formatted with [snprintf]. *)
Definition buf_text (v : ua_value) : bytes :=
  match v with
  | VBoolean b => bool_text b
  | VSByte z | VInt16 z | VInt32 z => fmt_d z
  | VByte z | VUInt16 z | VUInt32 z => fmt_u z
  | VInt64 z => J "'" ++ fmt_d z ++ J "'"
  | VUInt64 z => J "'" ++ fmt_u z ++ J "'"
  | VFloat f => if isfinite f then fmt_g 6 f else B "null"
  | VDouble f => if isfinite f then fmt_g 17 f else B "null"
  | _ => B "null"
  end.

(** The value returned and the text in the buffer. *)
Definition format_scalar_to_buf (v : ua_value) (bufLen : nat) : nat * bytes :=
  match v with
  | VString (Some s) =>
      let out := put bufLen (buf_escapes bufLen (put bufLen [] 34) s) 34 in (length out, out)
  | _ => (length (buf_text v), snprintf bufLen (buf_text v))
  end.

(** [if (out < bufLen) buf[out] = '\0';] *)
Definition terminate (bufLen : nat) (out : bytes) : option bytes :=
  if Nat.ltb (length out) bufLen then Some out else None.

Fixpoint buf_elements (bufLen : nat) (first : bool) (out : bytes) (l : list ua_value) : option bytes :=
  match l with
  | [] => Some out
  | v :: r =>
      if negb (Nat.ltb (length out + 32) bufLen) then Some out
      else
        let out := if negb first && Nat.ltb (length out + 1) bufLen then out ++ [44] else out in
        let '(n, tmp) := format_scalar_to_buf v 256 in
        if Nat.ltb 0 n && Nat.ltb (length out + n) bufLen then
          if Nat.leb n (length tmp) then buf_elements bufLen false (out ++ firstn n tmp) r else None
        else buf_elements bufLen false out r
  end.

Definition output_variant_to_buf (w : ua_variant) (bufLen : nat) : option bytes :=
  match w with
  | VtEmpty => Some (snprintf bufLen (B "null"))
  | VtScalar v =>
      let '(_, out) := format_scalar_to_buf v bufLen in
      match v with VString (Some _) => terminate bufLen out | _ => Some out end
  | VtArray _ l _ =>
      do out <- buf_elements bufLen true (put bufLen [] 91) l;
      terminate bufLen (put bufLen out 93)
  end.

(** * Lemmas *)

Section Lemmas.
Context {stack : UaStack} {laws : UaStackLaws stack}.

(** The types both printers of output.c print, strings without a zero byte. *)
Definition buffered (v : ua_value) : bool :=
  match v with
  | VBoolean _ | VSByte _ | VByte _ | VInt16 _ | VUInt16 _ | VInt32 _ | VUInt32 _ | VInt64 _
  | VUInt64 _ | VFloat _ | VDouble _ => true
  | VString s => forallb (fun c => (0 <? c) && (c <? 256)) (default [] s)
  | _ => false
  end.

Lemma put_room n out c : (length out < n)%nat -> put n out c = out ++ [c].
Proof. intros H. unfold put. now apply Nat.ltb_lt in H as ->. Qed.

Lemma terminate_room n out : (length out < n)%nat -> terminate n out = Some out.
Proof. intros H. unfold terminate. now apply Nat.ltb_lt in H as ->. Qed.

Lemma escape_length c : is_byte c = true -> (1 <= length (json_escape c) <= 6)%nat.
Proof.
  intros H. unfold is_byte in H. zbool. unfold json_escape.
  destruct (c =? 34); [cbn; lia|]. destruct (c =? 92); [cbn; lia|]. destruct (c =? 10); [cbn; lia|].
  destruct (c =? 13); [cbn; lia|]. destruct (c =? 9); [cbn; lia|].
  destruct (c <? 32); [|cbn; lia]. rewrite length_app, fmt_x0_length by (cbn; lia). cbn. lia.
Qed.

Lemma buf_escapes_all n s : forall out, Bytes s -> (length out + length (flat_map json_escape s) + 8 < n)%nat ->
  buf_escapes n out s = out ++ flat_map json_escape s.
Proof.
  induction s as [|c s IH]; intros out Hb Hl; cbn [buf_escapes flat_map]; [now rewrite app_nil_r|].
  cbn [flat_map] in Hl. rewrite length_app in Hl. inversion Hb as [|? ? Hc Hs]; subst.
  destruct (Nat.ltb_spec (length out + 8) n); [|lia].
  rewrite IH; [now rewrite app_assoc|exact Hs|rewrite length_app; lia].
Qed.

(** Whatever the length of the string, the text is the escapes of a prefix and
    leaves room for the closing quote and the zero. *)
Lemma buf_escapes_prefix n s : forall out, Bytes s -> (length out + 2 < n)%nat -> exists k,
  buf_escapes n out s = out ++ flat_map json_escape (firstn k s) /\ (length (buf_escapes n out s) + 2 < n)%nat.
Proof.
  induction s as [|c s IH]; intros out Hb Hl; cbn [buf_escapes].
  { exists O. cbn. rewrite app_nil_r. split; [reflexivity|lia]. }
  inversion Hb as [|? ? Hc Hs]; subst. destruct (Nat.ltb_spec (length out + 8) n).
  2:{ exists O. cbn. rewrite app_nil_r. split; [reflexivity|lia]. }
  pose proof (escape_length c Hc) as He.
  destruct (IH (out ++ json_escape c) Hs) as (k & E & Hk); [rewrite length_app; lia|].
  exists (S k). cbn [firstn flat_map]. rewrite E in Hk |- *. split; [now rewrite app_assoc|exact Hk].
Qed.

Lemma nonzero_bytes s : forallb (fun c => (0 <? c) && (c <? 256)) s = true -> Bytes s /\ cstr s = s.
Proof.
  induction s as [|c s IH]; [now split; [constructor|]|]. cbn [forallb cstr]. intros H. zbool.
  destruct IH as [Hb E]; [assumption|]. split; [constructor; [unfold is_byte; lia|assumption]|].
  destruct (Z.eqb_spec c 0); [lia|]. now rewrite E.
Qed.

Lemma format_exact v n : buffered v = true -> (length (print_scalar v) + 8 < n)%nat ->
  format_scalar_to_buf v n = (length (print_scalar v), print_scalar v).
Proof.
  intros Hb Hl.
  destruct v; try discriminate Hb;
    try (cbn [format_scalar_to_buf]; unfold snprintf; cbn [buf_text print_scalar] in *;
         rewrite firstn_all2 by lia; reflexivity).
  cbn [buffered] in Hb. cbn [print_scalar] in *. destruct s as [s|].
  2:{ cbn [format_scalar_to_buf]. unfold snprintf. cbn [buf_text print_ua_string] in *.
      rewrite firstn_all2 by lia. reflexivity. }
  cbn [default] in Hb. apply nonzero_bytes in Hb as [Hb Hc].
  assert (print_ua_string (Some s) = 34 :: flat_map json_escape s ++ [34]) as E.
  { destruct s as [|c s]; [reflexivity|]. cbn [print_ua_string print_json_string_len print_json_string].
    now rewrite !Hc. }
  rewrite E in *. cbn [length] in Hl. rewrite length_app in Hl. cbn [length] in Hl.
  cbn [format_scalar_to_buf]. rewrite (put_room n []) by (cbn; lia). cbn [app].
  rewrite (buf_escapes_all n s [34]) by (assumption || (cbn; lia)).
  rewrite put_room by (rewrite length_app; cbn; lia). cbn [app]. reflexivity.
Qed.

Lemma text_nonempty t : JValue t -> (0 < length t)%nat.
Proof. intros H. apply JValue_is_json in H. destruct t; [discriminate H|cbn; lia]. Qed.

(** ** Arrays *)

Lemma buf_elements_all n l : forall first out,
  forallb buffered l = true -> Forall (fun v => JValue (print_scalar v)) l ->
  Forall (fun v => (length (print_scalar v) + 8 < 256)%nat) l ->
  (length out + length (commas_from first (map print_scalar l)) + 32 < n)%nat ->
  buf_elements n first out l = Some (out ++ commas_from first (map print_scalar l)).
Proof.
  induction l as [|v l IH]; intros first out Hb Hj Hs Hl; cbn [buf_elements map commas_from].
  { now rewrite app_nil_r. }
  cbn [forallb] in Hb. apply andb_prop in Hb as [Hv Hb]. inversion Hj as [|? ? Hjv Hj']; inversion Hs as [|? ? Hsv Hs']; subst.
  cbn [map commas_from] in Hl. rewrite !length_app in Hl.
  destruct (Nat.ltb_spec (length out + 32) n); [cbn [negb]|lia].
  replace (if negb first && Nat.ltb (length out + 1) n then out ++ [44] else out)
    with (out ++ (if first then [] else [44])).
  2:{ destruct first; cbn [negb andb]; [apply app_nil_r|]. destruct (Nat.ltb_spec (length out + 1) n); [reflexivity|lia]. }
  rewrite format_exact by assumption. pose proof (text_nonempty _ Hjv) as Hp.
  destruct (Nat.ltb_spec 0 (length (print_scalar v))); [|lia]. rewrite length_app.
  destruct (Nat.ltb_spec (length out + length (if first then [] else [44]) + length (print_scalar v)) n); [|lia].
  cbn [andb]. rewrite Nat.leb_refl, firstn_all.
  rewrite IH by (assumption || (rewrite !length_app; lia)). now rewrite <- !app_assoc.
Qed.

Definition buffered_variant (w : ua_variant) : bool :=
  match w with
  | VtEmpty => true
  | VtScalar v => buffered v
  | VtArray _ l _ => forallb buffered l
  end.

(** The text fits: with the slack the loops keep, and each element its own
    buffer of 256. *)
Definition fits (w : ua_variant) (n : nat) : Prop :=
  (length (output_ua_variant_value w) + 32 < n)%nat /\
  match w with
  | VtArray _ l _ => Forall (fun v => (length (print_scalar v) + 8 < 256)%nat) l
  | _ => True
  end.

Lemma buffered_leaf v : buffered v = true -> is_leaf v = true.
Proof. now destruct v. Qed.

(** The two printers of output.c agree. *)
Lemma to_buf_exact w n :
  wf_variant w = true -> buffered_variant w = true -> fits w n ->
  output_variant_to_buf w n = Some (output_ua_variant_value w).
Proof.
  intros Hw Hb [Hl He]. destruct w as [|v|t l dims]; cbn [output_variant_to_buf output_ua_variant_value] in *.
  - unfold snprintf. rewrite firstn_all2 by lia. reflexivity.
  - rewrite format_exact by (assumption || lia).
    destruct v; try reflexivity. destruct s; [apply terminate_room; cbn [print_scalar] in *; lia|reflexivity].
  - unfold jarray, commas in *. rewrite !length_app in Hl. cbn [length] in Hl.
    rewrite (put_room n []) by (cbn; lia). cbn [app].
    rewrite buf_elements_all; [|assumption| |assumption|cbn [length]; lia].
    2:{ cbn [wf_variant] in Hw. apply Forall_forall. intros v Hv. cbn [buffered_variant] in Hb.
        apply andb_prop in Hw as [Hw _]. rewrite forallb_forall in Hb, Hw.
        apply JValue_leaf; [now apply buffered_leaf, Hb|now apply Hw]. }
    unfold obind. rewrite put_room by (rewrite length_app; cbn [length]; lia).
    rewrite terminate_room by (rewrite !length_app; cbn [length]; lia). now rewrite <- app_assoc.
Qed.

(** Any string, cut where the buffer ends, is a JSON string. *)
Lemma to_buf_string s n : Bytes s -> (16 <= n)%nat ->
  exists k, output_variant_to_buf (VtScalar (VString (Some s))) n
              = Some (34 :: flat_map json_escape (firstn k s) ++ [34]).
Proof.
  intros Hb Hn. cbn [output_variant_to_buf format_scalar_to_buf]. rewrite (put_room n []) by (cbn; lia).
  destruct (buf_escapes_prefix n s ([] ++ [34]) Hb) as (k & E & Hk); [cbn; lia|].
  exists k. rewrite put_room by lia. rewrite E in *.
  rewrite terminate_room by (rewrite length_app; cbn [length]; lia). reflexivity.
Qed.
End Lemmas.

(** * Theorem *)

(** A value printed into a buffer of [n] bytes is the text the other
    commands print for it, for every type the buffer printer knows, when it fits;
    a string too long for the buffer is cut to a JSON string of a prefix of its
    characters, with its closing quote. *)
Lemma variant_to_buf_exact {stack : UaStack} {laws : UaStackLaws stack} w n s :
  wf_variant w = true -> buffered_variant w = true -> fits w n -> Bytes s ->
  output_variant_to_buf w n = Some (output_ua_variant_value w) /\
  exists k t, output_variant_to_buf (VtScalar (VString (Some s))) n = Some t /\
    t = 34 :: flat_map json_escape (firstn k s) ++ [34] /\ is_json (t ++ [10]) = true.
Proof.
  intros Hw Hb Hf Hs. split; [now apply to_buf_exact|]. destruct Hf as [Hl _].
  destruct (to_buf_string s n Hs) as [k E]; [lia|].
  exists k, (34 :: flat_map json_escape (firstn k s) ++ [34]). split; [exact E|]. split; [reflexivity|].
  apply JValue_is_json, JValue_quoted, JBody_escapes. unfold Bytes in *. now apply Forall_firstn.
Qed.

(** An array element that does not fit is dropped but its comma is not. *)
Lemma buf_array_not_json :
  match output_variant_to_buf (VtArray TString [VString (Some (repeat 65 200)); VString (Some (repeat 65 200));
    VString (Some (repeat 65 200))] []) 512 with
  | Some t => is_json (t ++ [10]) = false
  | None => False
  end.
Proof. vm_compute. reflexivity. Qed.

(** An array text of exactly 512 bytes leaves the buffer without its zero. *)
Lemma buf_unterminated :
  output_variant_to_buf (VtArray TString [VString (Some (repeat 65 230)); VString (Some (repeat 65 230));
    VString (Some (repeat 65 42))] []) 512 = None.
Proof. vm_compute. reflexivity. Qed.
