(* ===== verification/CJson.v ===== *)
(** The cJSON library as the adapter uses it: the value tree with the fields the
    code reads, and the library's functions as the class [CJson].  The laws are
    the documented behaviour the theorems rely on. *)

From Stdlib Require Import String Ascii ZArith Bool List Lia SpecFloat.
Import ListNotations.
From S2P Require Import Prelude CLib.

(** [cJSON]: the type and the value fields; a number carries both
    [valuedouble] and [valueint]. *)
Inductive cjson :=
| CNull
| CBool (b : bool)
| CNumber (valuedouble : spec_float) (valueint : Z)
| CString (valuestring : bytes)
| CArray (items : list cjson)
| CObject (members : list (bytes * cjson)).

Definition cJSON_IsArray (v : cjson) : bool := match v with CArray _ => true | _ => false end.
Definition cJSON_IsString (v : cjson) : bool := match v with CString _ => true | _ => false end.

Definition cJSON_IsObject (v : cjson) : bool := match v with CObject _ => true | _ => false end.
Definition cJSON_IsTrue (v : cjson) : bool := match v with CBool b => b | _ => false end.

(** [item->valuedouble] and [item->valueint]; the parser sets [valueint] to 1 for
    [true] and leaves both 0 in every item that is not a number. *)
Definition valuedouble_of (v : cjson) : spec_float :=
  match v with CNumber d _ => d | _ => S754_zero false end.
Definition valueint_of (v : cjson) : Z :=
  match v with CNumber _ i => i | CBool true => 1 | _ => 0 end.

Class CJson := {
  cJSON_Parse : bytes -> option cjson;
  (** the text [*return_parse_end] points to after a failed parse *)
  cJSON_ParseError : bytes -> option bytes;
  cJSON_GetObjectItemCaseSensitive : cjson -> bytes -> option cjson;
  cJSON_PrintUnformatted : cjson -> option bytes;
  cJSON_GetObjectItem : cjson -> bytes -> option cjson
}.

(** A JSON text that is not a string starts with a bracket, a brace, a sign, a
    digit or one of the three literals. *)
Definition nonstring_start (c : Z) : bool :=
  (c =? 123) || (c =? 91) || (c =? 45) || isdigit c || (c =? 116) || (c =? 102) || (c =? 110).

(** The text of a string is shorter than its quoted form in the document, and
    printing follows the JSON grammar. *)
Class CJsonLaws (C : CJson) := {
  parse_string_shorter : forall p l s,
    cJSON_Parse p = Some (CArray l) -> In (CString s) l -> (length s + 2 <= length p)%nat;
  print_nonstring : forall v t, cJSON_IsString v = false -> cJSON_PrintUnformatted v = Some t ->
    exists c r, t = c :: r /\ nonstring_start c = true
}.

(** A small concrete library: it reads arrays of one string without escapes and
    prints every value that is not a string as [0]. *)
#[export] Instance ref_cjson : CJson := {
  cJSON_Parse p :=
    match p with
    | 91 :: 34 :: r =>
        match strchr 34 r with
        | Some (s, [93]) => Some (CArray [CString s])
        | _ => None
        end
    | _ => None
    end;
  cJSON_ParseError p := Some p;
  cJSON_GetObjectItemCaseSensitive v k :=
    match v with
    | CObject l => option_map snd (find (fun m => streq (fst m) k) l)
    | _ => None
    end;
  cJSON_PrintUnformatted v :=
    match v with CString s => Some ([34] ++ s ++ [34]) | _ => Some (B "0") end;
  cJSON_GetObjectItem v k :=
    match v with
    | CObject l => option_map snd (find (fun m => strcaseeq (fst m) k) l)
    | _ => None
    end }.

Lemma ref_parse_shape p l : @cJSON_Parse ref_cjson p = Some (CArray l) ->
  exists s, p = 91 :: 34 :: s ++ [34; 93] /\ l = [CString s].
Proof.
  cbn. intros H. destruct p as [|a [|b r]]; try discriminate; try (now destruct a as [|q|q];
    try discriminate; do 7 (destruct q; try discriminate)).
  destruct (Z.eq_dec a 91) as [->|Ha];
    [|destruct a as [|q|q]; try discriminate; do 7 (destruct q; try discriminate); congruence].
  destruct (Z.eq_dec b 34) as [->|Hb];
    [|destruct b as [|q|q]; try discriminate; do 6 (destruct q; try discriminate); congruence].
  destruct (strchr 34 r) as [[s t]|] eqn:E; [|discriminate]. apply strchr_Some in E as [-> _].
  exists s. destruct t as [|x [|y t]]; try discriminate; [|now destruct x as [|q|q];
    try discriminate; do 7 (destruct q; try discriminate)].
  destruct (Z.eq_dec x 93) as [->|Hx]; [now inversion H|].
  destruct x as [|q|q]; try discriminate; do 7 (destruct q; try discriminate); congruence.
Qed.

#[export] Instance ref_cjson_laws : CJsonLaws ref_cjson.
Proof.
  split.
  - intros p l s H Hin. apply ref_parse_shape in H as (t & -> & ->).
    destruct Hin as [E|[]]. inversion E; subst. cbn. rewrite length_app. cbn. lia.
  - intros v t Hv H. assert (t = [48]) as -> by (destruct v; try discriminate Hv; now inversion H).
    exists 48, []. split; reflexivity.
Qed.
