(* ===== verification/Values.v ===== *)
(** values.c: the literals of [--type] / [--value] / [--dimensions].  Each parser
    is a function from the text to the value, [None] where the C function
    returns -1; [value_parse] and [parse_scalar], which call each other through
    the Variant and DataValue literals, take a fuel argument whose exhaustion
    ([None] around the result) is shown not to happen. *)

From Stdlib Require Import String Ascii ZArith Bool List Lia SpecFloat.
Import ListNotations.
From S2P Require Import Prelude CLib Json Float UaTypes RefStack Base64 CJson.

(** * Built-in type table *)

Definition g_builtin : list (bytes * ua_type) :=
  [(B "Boolean", TBoolean); (B "SByte", TSByte); (B "Byte", TByte); (B "Int16", TInt16);
   (B "UInt16", TUInt16); (B "Int32", TInt32); (B "UInt32", TUInt32); (B "Int64", TInt64);
   (B "UInt64", TUInt64); (B "Float", TFloat); (B "Double", TDouble); (B "String", TString);
   (B "DateTime", TDateTime); (B "Guid", TGuid); (B "ByteString", TByteString);
   (B "XmlElement", TXmlElement); (B "NodeId", TNodeId); (B "ExpandedNodeId", TExpandedNodeId);
   (B "StatusCode", TStatusCode); (B "QualifiedName", TQualifiedName);
   (B "LocalizedText", TLocalizedText); (B "ExtensionObject", TExtensionObject);
   (B "DataValue", TDataValue); (B "Variant", TVariant); (B "DiagnosticInfo", TDiagnosticInfo)].

Definition value_builtin_type (name : bytes) : option ua_type :=
  option_map snd (find (fun p => streq name (fst p)) g_builtin).

Definition value_type_name {S : UaStack} (type : option ua_type) : bytes :=
  match type with
  | None => B "Unknown"
  | Some t =>
      match find (fun p => type_eqb t (snd p)) g_builtin with
      | Some p => fst p
      | None => default (B "Unknown") (type_typeName t)
      end
  end.

(** * Scalar literal parsers *)

(** The digits after the point: at most 7 count. *)
Fixpoint fraction_digits (digits : nat) (ticks : Z) (p : bytes) : nat * Z * bytes :=
  match p with
  | c :: r =>
      if isdigit c then
        if Nat.ltb digits 7 then fraction_digits (S digits) (ticks * 10 + (c - 48)) r
        else fraction_digits digits ticks r
      else (digits, ticks, p)
  | [] => (digits, ticks, p)
  end.

(** [sscanf(s, "%d-%d-%dT%d:%d:%d%n", ...)] *)
Definition scan_civil (s : bytes) : option (Z * Z * Z * Z * Z * Z * bytes) :=
  do a <- scan_d s; let '(Y, s) := a in do s <- scan_lit 45 s;
  do a <- scan_d s; let '(M, s) := a in do s <- scan_lit 45 s;
  do a <- scan_d s; let '(D, s) := a in do s <- scan_lit 84 s;
  do a <- scan_d s; let '(h, s) := a in do s <- scan_lit 58 s;
  do a <- scan_d s; let '(m, s) := a in do s <- scan_lit 58 s;
  do a <- scan_d s; let '(sec, s) := a in
  Some (Y, M, D, h, m, sec, s).

Definition value_parse_datetime (s : bytes) : option Z :=
  match s with
  | [] => None
  | _ =>
      do f <- scan_civil s;
      let '(Y, M, D, h, m, sec, p) := f in
      let '(ticks, p) :=
        match p with
        | 46 :: r => let '(digits, ticks, r') := fraction_digits 0 0 r in
                     (ticks * 10 ^ (7 - Z.of_nat digits), r')
        | _ => (0, p)
        end in
      match p with
      | [] | 90 :: _ | 122 :: _ =>
          let t := timegm (s32 (Y - 1900) + 1900) (s32 (M - 1) + 1) D h m sec in
          Some (s64 ((t + 11644473600) * UA_DATETIME_SEC + ticks))
      | _ => None
      end
  end.

(** [sscanf(s, "%08x-%04x-%04x-%02x%02x-%02x%02x%02x%02x%02x%02x", ...)] *)
Definition scan_guid (s : bytes) : option (Z * Z * Z * list Z) :=
  do a <- scan_xw 8 s; let '(d1, s) := a in do s <- scan_lit 45 s;
  do a <- scan_xw 4 s; let '(d2, s) := a in do s <- scan_lit 45 s;
  do a <- scan_xw 4 s; let '(d3, s) := a in do s <- scan_lit 45 s;
  do a <- scan_xw 2 s; let '(b0, s) := a in
  do a <- scan_xw 2 s; let '(b1, s) := a in do s <- scan_lit 45 s;
  do a <- scan_xw 2 s; let '(b2, s) := a in
  do a <- scan_xw 2 s; let '(b3, s) := a in
  do a <- scan_xw 2 s; let '(b4, s) := a in
  do a <- scan_xw 2 s; let '(b5, s) := a in
  do a <- scan_xw 2 s; let '(b6, s) := a in
  do a <- scan_xw 2 s; let '(b7, _) := a in
  Some (d1, d2, d3, [b0; b1; b2; b3; b4; b5; b6; b7]).

Definition parse_guid (s : bytes) : option ua_guid :=
  if negb (Nat.eqb (length s) 36) then None
  else do g <- scan_guid s;
       let '(d1, d2, d3, b) := g in
       Some {| data1 := u32 d1; data2 := u16 d2; data3 := u16 d3; data4 := map u8 b |}.

Definition parse_nodeid_ident (s : bytes) (ns : Z) : option ua_nodeid :=
  let id i := Some {| namespaceIndex := ns; identifier := i |} in
  match strip (B "i=") s with
  | Some r =>
      let v := strtoul 10 r in
      if negb (sconv v) || negb (streq (send v) []) then None else id (IdNumeric (u32 (sval v)))
  | None =>
  match strip (B "s=") s with
  | Some r => id (IdString (Some r))
  | None =>
  match strip (B "g=") s with
  | Some r => do g <- parse_guid r; id (IdGuid g)
  | None =>
  match strip (B "b=") s with
  | Some r => do raw <- value_b64_decode r; id (IdByteString (Some raw))
  | None => None
  end end end end.

(** [n=<number>;]: the number and the text after the semicolon. *)
Definition parse_index (w : Z) (r : bytes) : option (Z * bytes) :=
  let v := strtoul 10 r in
  match send v with
  | 59 :: rest => Some (uwrap w (sval v), rest)
  | _ => None
  end.

Definition parse_nodeid (s : bytes) : option ua_nodeid :=
  match strip (B "ns=") s with
  | Some r => do p <- parse_index 16 r; parse_nodeid_ident (snd p) (fst p)
  | None => parse_nodeid_ident s 0
  end.

Definition parse_expanded_nodeid (s : bytes) : option ua_expanded_nodeid :=
  do p <- match strip (B "svr=") s with
          | Some r => parse_index 32 r
          | None => Some (0, s)
          end;
  let '(server, s) := p in
  match strip (B "nsu=") s with
  | Some r =>
      do q <- strchr 59 r;
      let '(uri, rest) := q in
      do n <- parse_nodeid_ident rest 0;
      Some {| en_nodeId := n; en_namespaceUri := Some uri; en_serverIndex := server |}
  | None =>
      do n <- parse_nodeid s;
      Some {| en_nodeId := n; en_namespaceUri := None; en_serverIndex := server |}
  end.

Definition parse_u32 (s : bytes) : option Z :=
  match s with
  | [] => None
  | _ => let v := strtoul 0 s in
         if negb (sconv v) || negb (streq (send v) []) then None else Some (u32 (sval v))
  end.

Definition parse_double_lit (s : bytes) : option spec_float :=
  match s with
  | [] => None
  | _ =>
      if streq s (B "NaN") then Some S754_nan
      else if streq s (B "Infinity") then Some (S754_infinity false)
      else if streq s (B "-Infinity") then Some (S754_infinity true)
      else option_map fst (strtod s)
  end.

(** [typeBuf] holds [typeLen] characters, the terminator included. *)
Definition split_typed (typeLen : nat) (s : bytes) : option (bytes * bytes) :=
  match strchr 58 s with
  | None => None
  | Some (t, rest) =>
      if Nat.eqb (length t) 0 || Nat.leb typeLen (length t) then None else Some (t, rest)
  end.

Definition empty_diagnostic : ua_diagnostic := Diagnostic None None None None None None None.

(** One [key=value] token. *)
Definition parse_diagnostic_token (tok : bytes) (d : ua_diagnostic) : option ua_diagnostic :=
  let '(Diagnostic sym ns lt loc info code inner) := d in
  do kv <- strchr 61 tok;
  let '(key, val) := kv in
  if streq key (B "symbolicId") then Some (Diagnostic (Some (atoi val)) ns lt loc info code inner)
  else if streq key (B "namespaceUri") then Some (Diagnostic sym (Some (atoi val)) lt loc info code inner)
  else if streq key (B "localizedText") then Some (Diagnostic sym ns (Some (atoi val)) loc info code inner)
  else if streq key (B "locale") then Some (Diagnostic sym ns lt (Some (atoi val)) info code inner)
  else if streq key (B "additionalInfo") then Some (Diagnostic sym ns lt loc (Some (Some val)) code inner)
  else if streq key (B "innerStatusCode") then
    do c <- parse_u32 val; Some (Diagnostic sym ns lt loc info (Some c) inner)
  else None.

Fixpoint parse_diagnostic_tokens (toks : list bytes) (d : ua_diagnostic) : option ua_diagnostic :=
  match toks with
  | [] => Some d
  | t :: r => do d' <- parse_diagnostic_token t d; parse_diagnostic_tokens r d'
  end.

Definition parse_diagnostic_info (s : bytes) : option ua_diagnostic :=
  parse_diagnostic_tokens (strtok 59 s) empty_diagnostic.

(** * Array literal splitting *)

(** [start] is the text since the last comma, reversed. *)
Fixpoint split_commas (start s : bytes) : list bytes :=
  match s with
  | [] => [rev start]
  | c :: r => if c =? 44 then rev start :: split_commas [] r else split_commas (c :: start) r
  end.

Fixpoint skip_blanks (s : bytes) : bytes :=
  match s with
  | 32 :: r => skip_blanks r
  | _ => s
  end.

Definition out_of_fuel {A} : option (result A) := None.

(** Sequencing of fallible calls that may run out of fuel. *)
Definition fbind {A C} (o : option (result A)) (k : A -> option (result C)) : option (result C) :=
  match o with
  | Some (Ok a) => k a
  | Some (Err m) => Some (Err m)
  | None => None
  end.

Fixpoint mapF {A C} (f : A -> option (result C)) (l : list A) : option (result (list C)) :=
  match l with
  | [] => Some (Ok [])
  | x :: r => fbind (f x) (fun y => fbind (mapF f r) (fun ys => Some (Ok (y :: ys))))
  end.

Section WithLibraries.
Context {stack : UaStack} {cj : CJson}.

Definition array_item (el : cjson) : option bytes :=
  match el with
  | CString s => Some (cstr s)
  | _ => cJSON_PrintUnformatted el
  end.

Definition split_array_literal (val : option bytes) : option (list bytes) :=
  match val with
  | None | Some [] => Some []
  | Some v =>
      match skip_blanks v with
      | (91 :: _) as p =>
          match cJSON_Parse p with
          | Some (CArray els) => mapM array_item els
          | _ => None
          end
      | _ => Some (split_commas [] v)
      end
  end.

Definition parse_extension_object (s : bytes) : option ua_extension :=
  do p <- strchr 124 s;
  let '(id, rest) := p in
  if Nat.eqb (length id) 0 || Nat.leb 512 (length id) then None
  else
    do typeId <- parse_nodeid id;
    do body <- value_b64_decode rest;
    let raw := ExtByteString typeId (Some body) in
    Some (default raw (recode_extension raw)).

(** [rec] is the nested call of [value_parse]; [errLen] is the size of the
    caller's message buffer. *)
Definition parse_scalar (rec : bytes -> bytes -> option (result ua_variant)) (errLen : nat)
    (type : ua_type) (lit : bytes) : option (result ua_value) :=
  let ok v := Some (Ok v) in
  let FAIL msg := Some (Err (snprintf errLen msg)) in
  let invalid name := FAIL (B "invalid " ++ B name ++ B " literal '" ++ lit ++ B "'") in
  match type with
  | TBoolean => ok (VBoolean (streq lit (B "true") || streq lit (B "1")))
  | TSByte => ok (VSByte (s8 (atoi lit)))
  | TByte => ok (VByte (u8 (atoi lit)))
  | TInt16 => ok (VInt16 (s16 (atoi lit)))
  | TUInt16 => ok (VUInt16 (u16 (atoi lit)))
  | TInt32 => ok (VInt32 (atoi lit))
  | TUInt32 => ok (VUInt32 (u32 (sval (strtoul 10 lit))))
  | TInt64 => ok (VInt64 (sval (strtol 10 lit)))
  | TUInt64 => ok (VUInt64 (sval (strtoul 10 lit)))
  | TFloat => match parse_double_lit lit with
              | Some d => ok (VFloat (to_float32 d))
              | None => invalid "Float"%string
              end
  | TDouble => match parse_double_lit lit with
               | Some d => ok (VDouble d)
               | None => invalid "Double"%string
               end
  | TString => ok (VString (Some lit))
  | TXmlElement => ok (VXmlElement (Some lit))
  | TDateTime =>
      match value_parse_datetime lit with
      | Some t => ok (VDateTime t)
      | None => FAIL (B "invalid DateTime literal '" ++ lit ++ B "' (want RFC 3339 UTC)")
      end
  | TGuid => match parse_guid lit with Some g => ok (VGuid g) | None => invalid "Guid"%string end
  | TByteString =>
      match value_b64_decode lit with
      | Some raw => ok (VByteString (Some raw))
      | None => FAIL (B "invalid Base64 ByteString literal")
      end
  | TNodeId => match parse_nodeid lit with Some n => ok (VNodeId n) | None => invalid "NodeId"%string end
  | TExpandedNodeId =>
      match parse_expanded_nodeid lit with
      | Some n => ok (VExpandedNodeId n)
      | None => invalid "ExpandedNodeId"%string
      end
  | TStatusCode =>
      match parse_u32 lit with Some c => ok (VStatusCode c) | None => invalid "StatusCode"%string end
  | TQualifiedName =>
      match strchr 58 lit with
      | Some (_, name) => ok (VQualifiedName (u16 (atoi lit)) (Some name))
      | None => ok (VQualifiedName 0 (Some lit))
      end
  | TLocalizedText =>
      match strchr 58 lit with
      | Some (loc, text) => ok (VLocalizedText (match loc with [] => None | _ => Some loc end) (Some text))
      | None => ok (VLocalizedText None (Some lit))
      end
  | TExtensionObject =>
      match parse_extension_object lit with
      | Some e => ok (VExtensionObject e)
      | None => FAIL (B "invalid ExtensionObject literal (want <typeId>|<base64 body>)")
      end
  | TDataValue =>
      match split_typed 64 lit with
      | None => FAIL (B "invalid DataValue literal (want <Type>:<value>)")
      | Some (t, rest) =>
          fbind (rec t rest) (fun w => ok (VDataValue (DataValue (Some w) None None None None None)))
      end
  | TVariant =>
      match split_typed 64 lit with
      | None => FAIL (B "invalid Variant literal (want <Type>:<value>)")
      | Some (t, rest) => fbind (rec t rest) (fun w => ok (VVariant w))
      end
  | TDiagnosticInfo =>
      match parse_diagnostic_info lit with
      | Some d => ok (VDiagnosticInfo d)
      | None => FAIL (B "invalid DiagnosticInfo literal (want key=value;...)")
      end
  | TStructure _ =>
      FAIL (B "unsupported type '" ++ default (B "?") (type_typeName type) ++ B "'")
  end.

(** [typeStr] without a trailing [[]], and whether it had one. *)
Definition array_suffix (typeStr : bytes) : bytes * bool :=
  let tl := length typeStr in
  if Nat.ltb 2 tl && streq (skipn (tl - 2) typeStr) (B "[]")
  then (firstn (tl - 2) typeStr, true) else (typeStr, false).

(** [d[i] = (UA_UInt32)strtoul(...); product *= d[i];] with a [size_t] product. *)
Definition parse_dim (s : bytes) : Z := u32 (sval (strtoul 10 s)).
Definition dims_product (d : list Z) : Z := fold_left (fun p x => u64 (p * x)) d 1.

(** The ArrayDimensions of an array of [total] elements. *)
Definition parse_dims (errLen : nat) (dims : option bytes) (total : nat) : result (list Z) :=
  match dims with
  | None | Some [] => Ok []
  | Some _ =>
      match split_array_literal dims with
      | None | Some [] => Err (snprintf errLen (B "invalid --dimensions"))
      | Some dl =>
          let d := map parse_dim dl in
          if dims_product d =? Z.of_nat total then Ok d
          else Err (snprintf errLen (B "--dimensions product does not match the "
                 ++ fmt_u (Z.of_nat total) ++ B " array elements"))
      end
  end.

Fixpoint value_parse (fuel : nat) (errLen : nat) (typeStr : option bytes)
    (valStr dims : option bytes) : option (result ua_variant) :=
  match fuel with
  | O => out_of_fuel
  | S f =>
      let rec t rest := value_parse f errLen (Some t) (Some rest) None in
      let err msg := Some (Err (snprintf errLen msg)) in
      match typeStr with
      | None | Some [] => err (B "missing type")
      | Some ts =>
          let '(name, isArray) := array_suffix ts in
          let unknown := err (B "unknown type '" ++ ts ++ B "'") in
          if Nat.leb 64 (length name) then unknown
          else match value_builtin_type name with
          | None => unknown
          | Some type =>
              if isArray then
                match split_array_literal valStr with
                | None => err (B "invalid array literal")
                | Some items =>
                    fbind (mapF (parse_scalar rec errLen type) items) (fun arr =>
                    Some (try d <- parse_dims errLen dims (length items); Ok (VtArray type arr d)))
                end
              else
                match dims with
                | Some (_ :: _) => err (B "--dimensions requires an array type (" ++ name ++ B "[])")
                | _ =>
                    fbind (parse_scalar rec errLen type (default [] valStr)) (fun v =>
                    Some (Ok (match type, v with
                              | TVariant, VVariant w => w
                              | _, _ => VtScalar v
                              end)))
                end
          end
      end
  end.

End WithLibraries.

(** * Termination *)

Lemma split_commas_length s : forall start t,
  In t (split_commas start s) -> (length t <= length start + length s)%nat.
Proof.
  induction s as [|c s IH]; cbn [split_commas]; intros start t Ht.
  - destruct Ht as [<-|[]]. rewrite length_rev. lia.
  - cbn [length]. destruct (c =? 44).
    + destruct Ht as [<-|Ht]; [rewrite length_rev; lia|]. specialize (IH _ _ Ht). cbn in IH. lia.
    + specialize (IH _ _ Ht). cbn in IH. lia.
Qed.

Lemma skip_blanks_length s : (length (skip_blanks s) <= length s)%nat.
Proof.
  induction s as [|c s IH]; [cbn; lia|]. cbn [skip_blanks length].
  destruct c as [|p|p]; cbn; try lia. do 6 (destruct p; cbn; try lia).
Qed.

Lemma cstr_length s : (length (cstr s) <= length s)%nat.
Proof. induction s as [|c s IH]; cbn; [lia|]. destruct (c =? 0); cbn; lia. Qed.

(** The built-in names start with a capital letter. *)
Lemma builtin_capital c r t : value_builtin_type (c :: r) = Some t -> 65 <= c <= 90.
Proof.
  unfold value_builtin_type. intros H.
  destruct (find _ _) as [p|] eqn:E; [|discriminate]. apply find_some in E as [Hin Hs].
  apply streq_eq in Hs. cbn in Hin.
  repeat (destruct Hin as [<-|Hin]; [inversion Hs; lia|]). destruct Hin.
Qed.

Lemma array_suffix_head c r : exists r' b, array_suffix (c :: r) = (c :: r', b).
Proof.
  unfold array_suffix. destruct (Nat.ltb_spec 2 (length (c :: r))); cbn [andb]; [|eauto].
  destruct (streq _ _); [|eauto]. cbn [length] in *.
  destruct (S (length r) - 2)%nat eqn:E; [lia|]. cbn [firstn]. eauto.
Qed.

Lemma split_typed_spec n s t rest :
  split_typed n s = Some (t, rest) -> s = t ++ 58 :: rest /\ t <> [] /\ (length t < n)%nat.
Proof.
  unfold split_typed. destruct (strchr 58 s) as [[a b]|] eqn:E; [|discriminate].
  apply strchr_Some in E as [-> _]. intros H.
  destruct (Nat.eqb_spec (length a) 0), (Nat.leb_spec n (length a)); cbn in H; try discriminate.
  inversion H; subst. repeat split; [|assumption]. intros ->. cbn in *. lia.
Qed.

Section Termination.
Context {stack : UaStack} {cj : CJson} {laws : CJsonLaws cj}.

Definition small_item (n : nat) (t : bytes) : Prop :=
  (length t <= n)%nat \/ ((1 <= n)%nat /\ exists c r, t = c :: r /\ nonstring_start c = true).

Lemma mapM_items els items : mapM array_item els = Some items ->
  Forall (fun t => exists el, In el els /\ array_item el = Some t) items.
Proof.
  revert items. induction els as [|el els IH]; cbn; intros items H; [inversion H; constructor|].
  unfold obind in H. destruct (array_item el) as [y|] eqn:E; [|discriminate].
  destruct (mapM array_item els) as [ys|]; [|discriminate]. inversion H; subst.
  constructor; [eauto|]. eapply Forall_impl; [|exact (IH _ eq_refl)].
  cbn. intros t (e & ? & ?). eauto.
Qed.

Lemma split_items val items : split_array_literal val = Some items ->
  Forall (small_item (length (default [] val))) items.
Proof.
  destruct val as [[|c v]|]; cbn [split_array_literal]; [intros H; inversion H; constructor| |
    intros H; inversion H; constructor].
  intros H. apply Forall_forall. intros t Ht. cbn [default].
  assert (Some (split_commas [] (c :: v)) = Some items -> small_item (length (c :: v)) t) as Hc.
  { intros E. left. apply (split_commas_length (c :: v) [] t). congruence. }
  pose proof (skip_blanks_length (c :: v)) as Hs.
  destruct (skip_blanks (c :: v)) as [|x p] eqn:Ep; [now apply Hc|].
  destruct (Z.eq_dec x 91) as [->|Hx]; [|apply Hc; destruct x as [|q|q]; try exact H;
    do 7 (destruct q; try exact H); congruence].
  destruct (cJSON_Parse (91 :: p)) as [[| | | |els|]|] eqn:Epr; try discriminate.
  apply mapM_items in H. rewrite Forall_forall in H. destruct (H t Ht) as (el & Hel & Et).
  destruct el as [|b|d i|s|l|l]; cbn [array_item] in Et;
    try (right; split; [cbn; lia|]; eapply print_nonstring; [|exact Et]; reflexivity).
  left. inversion Et; subst. pose proof (parse_string_shorter _ _ _ Epr Hel).
  pose proof (cstr_length s). lia.
Qed.

(** An unknown type is answered without looking at the value. *)
Lemma value_parse_nonstring f errLen c r rest :
  nonstring_start c = true ->
  value_parse (S f) errLen (Some (c :: r)) (Some rest) None <> None.
Proof.
  intros Hc. cbn [value_parse]. destruct (array_suffix_head c r) as (r' & b & ->).
  destruct (Nat.leb _ _); [discriminate|].
  destruct (value_builtin_type (c :: r')) eqn:E; [|discriminate].
  exfalso. apply builtin_capital in E. unfold nonstring_start, isdigit in Hc.
  destruct (Z.eqb_spec c 123), (Z.eqb_spec c 91), (Z.eqb_spec c 45), (Z.leb_spec 48 c),
    (Z.leb_spec c 57), (Z.eqb_spec c 116), (Z.eqb_spec c 102), (Z.eqb_spec c 110);
    cbn in Hc; lia || discriminate.
Qed.

Definition answers (f errLen n : nat) : Prop :=
  forall ts val dims, (length (default [] val) < n)%nat -> value_parse f errLen ts val dims <> None.

Lemma fbind_answers {A C} (o : option (result A)) (k : A -> option (result C)) :
  o <> None -> (forall a, k a <> None) -> fbind o k <> None.
Proof. intros Ho Hk. destruct o as [[a|m]|]; cbn; congruence || apply Hk. Qed.

Lemma parse_scalar_answers f errLen type lit :
  (1 <= f)%nat -> answers f errLen f -> small_item f lit ->
  parse_scalar (fun t rest => value_parse f errLen (Some t) (Some rest) None) errLen type lit <> None.
Proof.
  intros Hf IH Hl.
  assert (forall t rest, split_typed 64 lit = Some (t, rest) ->
    value_parse f errLen (Some t) (Some rest) None <> None) as Hrec.
  { intros t rest E. apply split_typed_spec in E as (El & Ht & _).
    destruct Hl as [Hl | (_ & c & r & -> & Hc)].
    - apply IH. subst lit. rewrite length_app in Hl. cbn in *. lia.
    - destruct t as [|x t]; [congruence|]. inversion El; subst. destruct f; [lia|].
      now apply value_parse_nonstring. }
  destruct type; cbn [parse_scalar]; try discriminate;
    repeat match goal with
    | |- context [match ?x with Some _ => _ | None => _ end] =>
        let E := fresh "E" in destruct x as [?a|] eqn:E; try discriminate
    | p : bytes * bytes |- _ => destruct p
    end; try discriminate; apply fbind_answers; try discriminate; now apply Hrec.
Qed.

Lemma mapF_answers {A C} (f : A -> option (result C)) l :
  Forall (fun x => f x <> None) l -> mapF f l <> None.
Proof.
  induction 1 as [|x l Hx _ IH]; cbn; [discriminate|].
  apply fbind_answers; [assumption|]. intros y. apply fbind_answers; [assumption|discriminate].
Qed.

Lemma value_parse_answers errLen f : answers f errLen f.
Proof.
  induction f as [|f IH]; intros ts val dims Hn; [lia|]. cbn [value_parse].
  destruct ts as [[|c ts]|]; try discriminate.
  destruct (array_suffix (c :: ts)) as [name isArray]. destruct (Nat.leb _ _); [discriminate|].
  destruct (value_builtin_type name) as [type|]; [|discriminate].
  assert (forall lit, small_item (length (default [] val)) lit ->
    parse_scalar (fun t rest => value_parse f errLen (Some t) (Some rest) None) errLen type lit
      <> None \/ f = O /\ (length lit <= 0)%nat) as Hps.
  { intros lit Hl. destruct f as [|f'].
    - right. split; [reflexivity|]. destruct Hl as [Hl|[Hl _]]; lia.
    - left. apply parse_scalar_answers; [lia|assumption|].
      destruct Hl as [Hl|[_ Hl]]; [left; lia|right; split; [lia|exact Hl]]. }
  assert (forall lit, small_item (length (default [] val)) lit ->
    parse_scalar (fun t rest => value_parse f errLen (Some t) (Some rest) None) errLen type lit
      <> None) as Hps'.
  { intros lit Hl. destruct (Hps lit Hl) as [H|[-> Hz]]; [assumption|].
    destruct lit as [|x lit]; [|cbn in Hz; lia]. destruct type; discriminate. }
  destruct isArray.
  - destruct (split_array_literal val) as [items|] eqn:E; [|discriminate].
    apply fbind_answers; [|discriminate]. apply mapF_answers.
    eapply Forall_impl; [exact Hps'|]. now apply split_items.
  - assert (fbind (parse_scalar (fun t rest => value_parse f errLen (Some t) (Some rest) None) errLen
      type (default [] val)) (fun v => Some (Ok (match type, v with
                              | TVariant, VVariant w => w
                              | _, _ => VtScalar v
                              end))) <> None).
    { apply fbind_answers; [|discriminate]. apply Hps'. left. lia. }
    destruct dims as [[|x d]|]; assumption || discriminate.
Qed.
End Termination.

(** * Typing *)

Definition in_range (lo hi z : Z) : bool := (lo <=? z) && (z <=? hi).

Definition range_nodeid (n : ua_nodeid) : bool :=
  in_range 0 65535 (namespaceIndex n) &&
  match identifier n with
  | IdNumeric i => in_range 0 4294967295 i
  | IdString s | IdByteString s => is_some s
  | IdGuid g => in_range 0 4294967295 (data1 g) && in_range 0 65535 (data2 g)
      && in_range 0 65535 (data3 g) && Nat.eqb (length (data4 g)) 8 && forallb is_byte (data4 g)
  | IdOther => false
  end.

(** The number of elements of a matrix with these dimensions. *)
Definition product (d : list Z) : Z := fold_right Z.mul 1 d.

Lemma dims_product_from d : forall p, 0 <= p < 2 ^ 64 ->
  fold_left (fun p x => u64 (p * x)) d p = (p * product d) mod 2 ^ 64.
Proof.
  induction d as [|x d IH]; intros p Hp; cbn [fold_left product fold_right].
  - now rewrite Z.mul_1_r, Z.mod_small.
  - rewrite IH by (apply (uwrap_range 64); lia). unfold u64, uwrap.
    now rewrite Z.mul_mod_idemp_l, Z.mul_assoc by lia.
Qed.

Lemma dims_product_spec d : dims_product d = product d mod 2 ^ 64.
Proof. unfold dims_product. rewrite dims_product_from by lia. now rewrite Z.mul_1_l. Qed.

(** Integers within their type, arrays of one element type, ArrayDimensions that
    match the number of elements (as a [size_t]), and no Variant that holds a
    scalar Variant (Part 6, 5.1.2). *)
Fixpoint typed_value (v : ua_value) : bool :=
  match v with
  | VSByte z => in_range (-128) 127 z
  | VByte z => in_range 0 255 z
  | VInt16 z => in_range (-32768) 32767 z
  | VUInt16 z => in_range 0 65535 z
  | VInt32 z => in_range (-2147483648) 2147483647 z
  | VUInt32 z | VStatusCode z => in_range 0 4294967295 z
  | VInt64 z => in_range LONG_MIN LONG_MAX z
  | VUInt64 z => in_range 0 ULONG_MAX z
  | VDateTime t => in_range LONG_MIN LONG_MAX t
  | VGuid g => range_nodeid {| namespaceIndex := 0; identifier := IdGuid g |}
  | VNodeId n => range_nodeid n
  | VExpandedNodeId e => range_nodeid (en_nodeId e) && in_range 0 4294967295 (en_serverIndex e)
  | VQualifiedName ns _ => in_range 0 65535 ns
  | VDataValue d => typed_datavalue d
  | VVariant w => typed_variant w
  | _ => true
  end
with typed_variant (w : ua_variant) : bool :=
  match w with
  | VtEmpty => false
  | VtScalar v => negb (type_eqb (type_of v) TVariant) && typed_value v
  | VtArray t l d =>
      forallb (fun v => type_eqb (type_of v) t && typed_value v) l
      && match d with [] => true | _ => product d mod 2 ^ 64 =? Z.of_nat (length l) end
  end
with typed_datavalue (d : ua_datavalue) : bool :=
  let '(DataValue value _ _ _ _ _) := d in
  match value with Some w => typed_variant w | None => false end.

Lemma in_range_u w x : 0 <= w -> in_range 0 (2 ^ w - 1) (uwrap w x) = true.
Proof.
  intros. pose proof (uwrap_range w x). apply andb_true_intro; split; apply Z.leb_le; lia.
Qed.

Lemma in_range_s w x : 0 < w -> in_range (- 2 ^ (w - 1)) (2 ^ (w - 1) - 1) (swrap w x) = true.
Proof.
  intros. pose proof (swrap_range w x). apply andb_true_intro; split; apply Z.leb_le; lia.
Qed.

Lemma strtoul_range b s : in_range 0 ULONG_MAX (sval (strtoul b s)) = true.
Proof.
  unfold strtoul. destruct (strto_scan b s) as [[[neg v] r]|] eqn:E; [|reflexivity].
  destruct (Z.ltb_spec ULONG_MAX v); [reflexivity|]. cbn [sval].
  destruct neg; [apply (in_range_u 64); lia|].
  apply andb_true_intro; split; apply Z.leb_le; [|assumption].
  unfold strto_scan in E. destruct (scan_sign _) as [ng s1]. destruct (scan_base b s1) as [b' s2] eqn:Eb.
  destruct (starts_digit b' s2); [|discriminate]. destruct (scan b' 0 s2) as [v' r'] eqn:Es.
  inversion E; subst. revert Es. assert (0 <= 0) as H0 by lia. revert H0.
  generalize 0 at 2 3 as acc. assert (forall c d, digit_val b' c = Some d -> 0 <= d < b') as Hd.
  { intros c d. unfold digit_val, isdigit.
    destruct (Z.leb_spec 48 c), (Z.leb_spec c 57), (Z.leb_spec 97 c), (Z.leb_spec c 122),
      (Z.leb_spec 65 c), (Z.leb_spec c 90); cbn [andb]; try discriminate;
    match goal with |- context [?x <? b'] => destruct (Z.ltb_spec x b') end; intros Hx; inversion Hx; lia. }
  clear - Hd. induction s2 as [|c s IH]; cbn; intros acc Ha E; [inversion E; lia|].
  destruct (digit_val b' c) eqn:Ec; [|inversion E; lia].
  apply (IH (acc * b' + z)); [|assumption]. specialize (Hd _ _ Ec). nia.
Qed.

Lemma strtol_range b s : in_range LONG_MIN LONG_MAX (sval (strtol b s)) = true.
Proof.
  unfold strtol. destruct (strto_scan b s) as [[[neg v] r]|]; [|reflexivity]. cbn [sval].
  unfold in_range, LONG_MIN, LONG_MAX. apply andb_true_intro; split; apply Z.leb_le; lia.
Qed.

Lemma range_guid s g : parse_guid s = Some g ->
  range_nodeid {| namespaceIndex := 0; identifier := IdGuid g |} = true.
Proof.
  unfold parse_guid. destruct (negb _); [discriminate|]. intros H. unfold obind in H.
  destruct (scan_guid s) as [[[[d1 d2] d3] b]|] eqn:E; [|discriminate]. inversion H; subst; clear H.
  assert (length b = 8%nat) as Hb.
  { unfold scan_guid, obind in E. repeat (case_hyp E; try discriminate E). now inversion E. }
  unfold range_nodeid. cbn [namespaceIndex identifier data1 data2 data3 data4].
  rewrite (in_range_u 32), !(in_range_u 16), length_map, Hb by lia. cbn.
  apply forallb_forall. intros x Hx. apply in_map_iff in Hx as (y & <- & _). apply u8_is_byte.
Qed.

Lemma range_ident s ns n : in_range 0 65535 ns = true -> parse_nodeid_ident s ns = Some n ->
  range_nodeid n = true.
Proof.
  intros Hns. unfold parse_nodeid_ident.
  destruct (strip (B "i=") s) as [r|].
  { destruct (negb _ || negb _); [discriminate|]. intros H. inversion H; subst.
    unfold range_nodeid. cbn [namespaceIndex identifier]. now rewrite Hns, (in_range_u 32) by lia. }
  destruct (strip (B "s=") s) as [r|].
  { intros H. inversion H; subst. unfold range_nodeid. cbn. now rewrite Hns. }
  destruct (strip (B "g=") s) as [r|].
  { unfold obind. destruct (parse_guid r) as [g|] eqn:E; [|discriminate]. intros H. inversion H; subst.
    apply range_guid in E. unfold range_nodeid in *. cbn [namespaceIndex identifier] in *. now rewrite Hns. }
  destruct (strip (B "b=") s) as [r|]; [|discriminate].
  unfold obind. destruct (value_b64_decode r); [|discriminate]. intros H. inversion H; subst.
  unfold range_nodeid. cbn. now rewrite Hns.
Qed.

Lemma range_index w r z rest : 0 <= w -> parse_index w r = Some (z, rest) ->
  in_range 0 (2 ^ w - 1) z = true.
Proof.
  intros Hw. unfold parse_index. destruct (send (strtoul 10 r)) as [|x l]; [discriminate|].
  intros H. assert (z = uwrap w (sval (strtoul 10 r))) as ->.
  { destruct x as [|p|p]; try discriminate. do 6 (destruct p; try discriminate). now inversion H. }
  now apply in_range_u.
Qed.

Lemma range_parse_nodeid s n : parse_nodeid s = Some n -> range_nodeid n = true.
Proof.
  unfold parse_nodeid, obind. destruct (strip (B "ns=") s) as [r|]; [|now apply range_ident].
  destruct (parse_index 16 r) as [[z rest]|] eqn:E; [|discriminate]. apply range_ident.
  apply (range_index 16 r z rest); [lia|assumption].
Qed.

Lemma range_parse_expanded s e : parse_expanded_nodeid s = Some e ->
  range_nodeid (en_nodeId e) && in_range 0 4294967295 (en_serverIndex e) = true.
Proof.
  unfold parse_expanded_nodeid. intros H. unfold obind at 1 in H.
  destruct (match strip (B "svr=") s with Some r => parse_index 32 r | None => Some (0, s) end)
    as [[srv t]|] eqn:E; [|discriminate].
  assert (in_range 0 4294967295 srv = true) as Hs.
  { destruct (strip (B "svr=") s) as [b|]; [|now inversion E]. apply (range_index 32 b srv t); [lia|assumption]. }
  unfold obind in H. destruct (strip (B "nsu=") t) as [r|].
  - destruct (strchr 59 r) as [[u rest]|]; [|discriminate].
    destruct (parse_nodeid_ident rest 0) eqn:En; [|discriminate]. inversion H; subst.
    cbn. rewrite Hs, (range_ident rest 0 _ eq_refl En). reflexivity.
  - destruct (parse_nodeid t) eqn:En; [|discriminate]. inversion H; subst.
    cbn. rewrite Hs, (range_parse_nodeid _ _ En). reflexivity.
Qed.

Lemma range_datetime s t : value_parse_datetime s = Some t -> in_range LONG_MIN LONG_MAX t = true.
Proof.
  unfold value_parse_datetime. destruct s; [discriminate|]. unfold obind.
  destruct (scan_civil _) as [[[[[[[Y M] D] h] m] sec] p]|]; [|discriminate].
  match goal with |- (let '(a, b) := ?x in _) = _ -> _ => destruct x as [ticks q] end.
  intros H.
  assert (t = s64 ((timegm (s32 (Y - 1900) + 1900) (s32 (M - 1) + 1) D h m sec + 11644473600)
                   * UA_DATETIME_SEC + ticks)) as ->.
  { destruct q as [|x q]; [now inversion H|]. destruct x as [|p'|p']; try discriminate.
    do 7 (destruct p'; try discriminate); now inversion H. }
  apply (in_range_s 64). lia.
Qed.

Lemma range_parse_u32 s c : parse_u32 s = Some c -> in_range 0 4294967295 c = true.
Proof.
  unfold parse_u32. destruct s; [discriminate|]. destruct (_ || _); [discriminate|].
  intros H. inversion H. apply (in_range_u 32). lia.
Qed.

Section Typing.
Context {stack : UaStack} {cj : CJson}.

Lemma parse_scalar_typed rec errLen type lit v :
  (forall t r w, rec t r = Some (Ok w) -> typed_variant w = true) ->
  parse_scalar rec errLen type lit = Some (Ok v) -> type_of v = type /\ typed_value v = true.
Proof.
  intros Hrec H.
  destruct type; cbn [parse_scalar] in H;
    repeat match type of H with
    | context [match ?x with Some _ => _ | None => _ end] =>
        let E := fresh "E" in destruct x as [?a|] eqn:E; try discriminate H
    | context [match ?x with (_, _) => _ end] => destruct x
    end;
    unfold fbind in *;
    repeat match goal with
    | E : context [match rec ?a ?b with _ => _ end] |- _ =>
        let F := fresh "F" in destruct (rec a b) as [[?w|]|] eqn:F; try discriminate E
    end;
    inversion H; subst; split; try reflexivity; cbn [typed_value typed_datavalue];
    eauto using range_guid, range_parse_nodeid, range_parse_expanded, range_datetime, range_parse_u32,
      strtol_range, strtoul_range.
  - apply (in_range_s 8). lia.
  - apply (in_range_u 8). lia.
  - apply (in_range_s 16). lia.
  - apply (in_range_u 16). lia.
  - apply (in_range_s 32). lia.
  - apply (in_range_u 32). lia.
  - apply (in_range_u 16). lia.
Qed.

Lemma mapF_typed (f : bytes -> option (result ua_value)) type l vs :
  (forall x v, f x = Some (Ok v) -> type_of v = type /\ typed_value v = true) ->
  mapF f l = Some (Ok vs) ->
  forallb (fun v => type_eqb (type_of v) type && typed_value v) vs = true /\ length vs = length l.
Proof.
  intros Hf. revert vs. induction l as [|x l IH]; cbn [mapF]; intros vs H; [now inversion H|].
  unfold fbind in H. destruct (f x) as [[y|]|] eqn:E; try discriminate.
  destruct (mapF f l) as [[ys|]|]; try discriminate. inversion H; subst.
  destruct (IH _ eq_refl) as [Hl Hn]. destruct (Hf _ _ E) as [<- Ht].
  cbn [forallb length]. rewrite type_eqb_refl, Ht, Hl, Hn. split; reflexivity.
Qed.

Lemma parse_dims_typed errLen dims total d : parse_dims errLen dims total = Ok d ->
  match d with [] => true | _ => product d mod 2 ^ 64 =? Z.of_nat total end = true.
Proof.
  unfold parse_dims. rewrite <- dims_product_spec. intros H.
  destruct dims as [[|c s]|]; [now inversion H| |now inversion H].
  destruct (split_array_literal _) as [[|x dl]|]; try discriminate.
  destruct (dims_product (map parse_dim (x :: dl)) =? Z.of_nat total) eqn:E; [|discriminate].
  inversion H; subst. exact E.
Qed.

Lemma value_parse_typed errLen f : forall ts val dims w,
  value_parse f errLen ts val dims = Some (Ok w) -> typed_variant w = true.
Proof.
  induction f as [|f IH]; intros ts val dims w H; [discriminate|]. cbn [value_parse] in H.
  destruct ts as [[|c ts]|]; try discriminate.
  destruct (array_suffix (c :: ts)) as [name isArray]. destruct (Nat.leb _ _); [discriminate|].
  destruct (value_builtin_type name) as [type|]; [|discriminate].
  set (rec := fun t rest => value_parse f errLen (Some t) (Some rest) None) in H.
  assert (forall t r w, rec t r = Some (Ok w) -> typed_variant w = true) as Hrec
    by (intros t r w'; apply IH).
  destruct isArray.
  - destruct (split_array_literal val) as [items|]; [|discriminate]. unfold fbind in H.
    destruct (mapF _ items) as [[arr|]|] eqn:E; try discriminate. unfold rbind in H.
    destruct (parse_dims errLen dims (length items)) as [d|] eqn:Ed; [|discriminate]. inversion H; subst.
    destruct (mapF_typed _ type _ _ (fun x v => parse_scalar_typed rec errLen type x v Hrec) E) as [Hl Hn].
    cbn [typed_variant]. rewrite Hl, Hn. exact (parse_dims_typed _ _ _ _ Ed).
  - destruct dims as [[|x d]|]; try discriminate; unfold fbind in H;
      (destruct (parse_scalar rec errLen type (default [] val)) as [[v|]|] eqn:E; try discriminate);
      destruct (parse_scalar_typed _ _ _ _ _ Hrec E) as [<- Ht]; inversion H; subst;
      destruct v; try exact Ht; cbn [typed_variant type_of]; now rewrite Ht.
Qed.
End Typing.

(** * Arrays and matrices *)

(** A comma-separated literal of at least one element: no element contains a
    comma and the text does not start like a JSON array. *)
Definition plain_items (items : list bytes) : bool :=
  forallb (forallb (fun c => negb (c =? 44))) items
  && match items with
     | (c :: _) :: _ => negb (c =? 32) && negb (c =? 91)
     | _ => false
     end.

Lemma split_commas_skip t s start :
  forallb (fun c => negb (c =? 44)) t = true ->
  split_commas start (t ++ s) = split_commas (rev t ++ start) s.
Proof.
  revert start. induction t as [|c t IH]; cbn [forallb app rev]; intros start H; [reflexivity|].
  zbool. cbn [split_commas]. destruct (Z.eqb_spec c 44); [congruence|].
  rewrite IH by assumption. now rewrite <- app_assoc.
Qed.

Lemma split_commas_join items : items <> [] ->
  forallb (forallb (fun c => negb (c =? 44))) items = true -> split_commas [] (commas items) = items.
Proof.
  unfold commas. destruct items as [|t items]; [congruence|]. intros _.
  revert t. induction items as [|u items IH]; cbn [commas_from app forallb]; intros t H; zbool.
  - rewrite split_commas_skip by assumption. cbn. now rewrite app_nil_r, rev_involutive.
  - rewrite split_commas_skip by assumption. cbn [app split_commas].
    change (44 =? 44) with true. cbv iota. rewrite app_nil_r, rev_involutive. f_equal.
    apply IH. cbn [forallb]. now apply andb_true_intro.
Qed.

Lemma array_suffix_app name : name <> [] -> array_suffix (name ++ B "[]") = (name, true).
Proof.
  intros Hn. unfold array_suffix. rewrite length_app. change (length (B "[]")) with 2%nat.
  rewrite Nat.add_sub.
  assert (skipn (length name) (name ++ B "[]") = B "[]") as -> by
    (rewrite skipn_app, skipn_all, Nat.sub_diag; reflexivity).
  assert (firstn (length name) (name ++ B "[]") = name) as -> by
    (rewrite firstn_app, firstn_all, Nat.sub_diag; cbn; apply app_nil_r).
  rewrite streq_refl. destruct name; [congruence|]. cbn [length].
  destruct (Nat.ltb_spec 2 (S (length name) + 2)); [reflexivity|lia].
Qed.

Lemma builtin_name name t : value_builtin_type name = Some t ->
  name <> [] /\ Nat.leb 64 (length name) = false.
Proof.
  unfold value_builtin_type. intros H.
  destruct (find _ _) as [p|] eqn:E; [|discriminate]. apply find_some in E as [Hin Hs].
  apply streq_eq in Hs. subst name. cbn in Hin.
  repeat (destruct Hin as [<-|Hin]; [split; [discriminate|reflexivity]|]). destruct Hin.
Qed.

Section Arrays.
Context {stack : UaStack} {cj : CJson}.

Lemma split_array_commas items : plain_items items = true ->
  split_array_literal (Some (commas items)) = Some items.
Proof.
  unfold plain_items. intros H. zbool. destruct items as [|[|c t] items]; try discriminate. zbool.
  pose proof (split_commas_join ((c :: t) :: items) ltac:(discriminate) H) as Hj.
  unfold commas in *. cbn [commas_from app] in *. cbn [split_array_literal].
  rewrite <- Hj. cbn [skip_blanks].
  destruct c as [|p|p]; try reflexivity.
  do 7 (destruct p as [p|p|]; try reflexivity; try congruence).
Qed.

Lemma fmt_u_plain n : 0 <= n -> forallb (fun c => negb (c =? 44)) (fmt_u n) = true.
Proof.
  intros H. apply forallb_forall. intros c Hc. pose proof (fmt_u_digits n H) as Hd.
  rewrite Forall_forall in Hd. specialize (Hd c Hc). unfold isdigit in Hd. zbool.
  apply negb_true_iff, Z.eqb_neq. lia.
Qed.

Lemma plain_dims ds : ds <> [] -> Forall (fun d => 0 <= d < 2 ^ 32) ds ->
  plain_items (map fmt_u ds) = true.
Proof.
  intros Hn Hd. unfold plain_items. apply andb_true_intro. split.
  - apply forallb_forall. intros t Ht. apply in_map_iff in Ht as (d & <- & Hin).
    apply fmt_u_plain. rewrite Forall_forall in Hd. specialize (Hd d Hin). lia.
  - destruct ds as [|d ds]; [congruence|]. inversion Hd; subst. cbn [map].
    destruct (digit_head d []) as (c & r & E & Hc); [lia|]. rewrite app_nil_r in E. rewrite E.
    unfold isdigit in Hc. zbool.
    destruct (Z.eqb_spec c 32), (Z.eqb_spec c 91); lia || reflexivity.
Qed.

Lemma parse_dim_fmt ds : Forall (fun d => 0 <= d < 2 ^ 32) ds -> map parse_dim (map fmt_u ds) = ds.
Proof.
  induction 1 as [|d ds Hd _ IH]; [reflexivity|]. cbn [map]. f_equal; [|exact IH].
  unfold parse_dim. rewrite <- (app_nil_r (fmt_u d)), strtoul_fmt by (auto; lia).
  cbn [sval]. apply uwrap_small. exact Hd.
Qed.

Lemma parse_dims_commas errLen ds total : ds <> [] -> Forall (fun d => 0 <= d < 2 ^ 32) ds ->
  parse_dims errLen (Some (commas (map fmt_u ds))) total =
  if dims_product ds =? Z.of_nat total then Ok ds
  else Err (snprintf errLen (B "--dimensions product does not match the "
         ++ fmt_u (Z.of_nat total) ++ B " array elements")).
Proof.
  intros Hn Hd. unfold parse_dims. rewrite (split_array_commas (map fmt_u ds)) by now apply plain_dims.
  pose proof (parse_dim_fmt ds Hd) as Hp.
  destruct ds as [|d ds]; [congruence|]. cbn [map] in *.
  destruct (commas (fmt_u d :: map fmt_u ds)) eqn:E; [|now rewrite Hp].
  unfold commas in E. cbn in E. apply app_eq_nil in E as [E _]. now apply fmt_u_nonnil in E.
Qed.

Lemma value_parse_array f errLen name type items vs dims :
  value_builtin_type name = Some type -> plain_items items = true ->
  mapF (parse_scalar (fun t r => value_parse f errLen (Some t) (Some r) None) errLen type) items
    = Some (Ok vs) ->
  value_parse (S f) errLen (Some (name ++ B "[]")) (Some (commas items)) dims =
  Some (try d <- parse_dims errLen dims (length items); Ok (VtArray type vs d)).
Proof.
  intros Hb Hi Hv. destruct (builtin_name _ _ Hb) as [Hn Hl]. cbn [value_parse].
  pose proof (array_suffix_app name Hn) as Ha.
  destruct (name ++ B "[]") as [|c n] eqn:E; [destruct name; discriminate|].
  rewrite Ha, Hl, Hb, (split_array_commas items Hi), Hv. reflexivity.
Qed.
End Arrays.

(** * Theorems *)

(** C24: [value_parse] always answers: with one unit of fuel more than the
    literal has characters, the recursion through Variant and DataValue literals
    ends with a value or an error message, whatever the type, the literal and
    the dimensions. *)
Theorem value_parse_total {stack : UaStack} {cj : CJson} {laws : CJsonLaws cj} errLen ts val dims :
  exists r, value_parse (S (length (default [] val))) errLen ts val dims = Some r.
Proof.
  pose proof (value_parse_answers errLen (S (length (default [] val))) ts val dims) as H.
  destruct (value_parse _ errLen ts val dims) as [r|]; [eauto|]. exfalso. now apply H; [lia|].
Qed.

Lemma value_parse_total_witness :
  exists r, value_parse 23 256 (Some (B "Variant[]")) (Some (J "['DataValue:Int32:5']")) None = Some r.
Proof. exact (value_parse_total 256 (Some (B "Variant[]")) (Some (J "['DataValue:Int32:5']")) None). Defined.

(** C12: a value [value_parse] accepts is well typed: integers are within their
    type, array elements have the announced type, the dimensions multiply to the
    number of elements modulo 2^64, NodeIds have 16-bit namespaces and the
    Variant of a scalar never holds a Variant, at every nesting level. *)
Theorem value_parse_sound {stack : UaStack} {cj : CJson} f errLen ts val dims w :
  value_parse f errLen ts val dims = Some (Ok w) -> typed_variant w = true.
Proof. apply value_parse_typed. Qed.

Lemma value_parse_sound_witness :
  value_parse 12 256 (Some (B "Variant")) (Some (B "SByte:300")) None = Some (Ok (VtScalar (VSByte 44)))
  /\ typed_variant (VtScalar (VSByte 44)) = true.
Proof.
  split; [reflexivity|].
  apply (value_parse_sound 12 256 (Some (B "Variant")) (Some (B "SByte:300")) None). reflexivity.
Defined.

(** A comma-separated array literal with [--dimensions]: when every element
    parses, the result is the matrix with exactly these elements and dimensions
    if the product of the dimensions, as a [size_t], is the number of elements,
    and the mismatch message otherwise. *)
Lemma value_parse_matrix {stack : UaStack} {cj : CJson} f errLen name type items vs ds :
  value_builtin_type name = Some type -> plain_items items = true ->
  mapF (parse_scalar (fun t r => value_parse f errLen (Some t) (Some r) None) errLen type) items
    = Some (Ok vs) ->
  ds <> [] -> Forall (fun d => 0 <= d < 2 ^ 32) ds ->
  value_parse (S f) errLen (Some (name ++ B "[]")) (Some (commas items))
    (Some (commas (map fmt_u ds))) =
  Some (if product ds mod 2 ^ 64 =? Z.of_nat (length items) then Ok (VtArray type vs ds)
        else Err (snprintf errLen (B "--dimensions product does not match the "
               ++ fmt_u (Z.of_nat (length items)) ++ B " array elements"))).
Proof.
  intros Hb Hi Hv Hn Hd. rewrite (value_parse_array f errLen name type items vs) by assumption.
  rewrite parse_dims_commas, dims_product_spec by assumption. now destruct (product ds mod 2 ^ 64 =? _).
Qed.

(** The product of the dimensions is a [size_t]: dimensions whose true product
    is 2^64 are accepted for an empty array. *)
Lemma dims_product_wraps {stack : UaStack} {cj : CJson} :
  value_parse 1 256 (Some (B "Int32[]")) None (Some (B "65536,65536,65536,65536")) =
  Some (Ok (VtArray TInt32 [] [65536; 65536; 65536; 65536])).
Proof. reflexivity. Qed.
