(* ===== verification/RoundTrip.v ===== *)
(** output.c against values.c: the literals the client prints for NodeIds, Guids
    and DateTimes read back, through the JSON string they are printed in, to the
    values they stand for. *)

From Stdlib Require Import String Ascii ZArith Bool List Lia.
Import ListNotations.
From S2P Require Import Prelude CLib Json UaTypes RefStack Base64 Output CJson Values.

(** * String bodies *)

(** [b] is the body of a string literal whose text is [s]. *)
Definition JReads (b s : bytes) : Prop :=
  forall r, junescape (b ++ r) =
            match junescape r with Some (x, y) => Some (s ++ x, y) | None => None end.

Lemma JReads_app a b s t : JReads a s -> JReads b t -> JReads (a ++ b) (s ++ t).
Proof.
  intros Ha Hb r. rewrite <- app_assoc, Ha, Hb. destruct (junescape r) as [[x y]|]; [|reflexivity].
  now rewrite app_assoc.
Qed.

Lemma JReads_nil : JReads [] [].
Proof. intros r. cbn [app]. now destruct (junescape r) as [[x y]|]. Qed.

Lemma JReads_plain l : Forall (fun c => plain c = true) l -> JReads l l.
Proof.
  induction 1 as [|c l Hc _ IH]; intros r; [apply JReads_nil|].
  cbn [app]. rewrite junescape_plain, IH by assumption. now destruct (junescape r) as [[x y]|].
Qed.

Lemma JReads_quote s : forallb (fun c => (32 <=? c) && (c <? 256)) s = true ->
  JReads (flat_map quote_escape s) s.
Proof.
  induction s as [|c s IH]; cbn [forallb flat_map]; intros H; [apply JReads_nil|]. zbool.
  change (c :: s) with ([c] ++ s). apply JReads_app; [|now apply IH].
  unfold quote_escape. destruct (Z.eqb_spec c 34) as [->|]; cbn [orb].
  - intros r. cbn. now destruct (junescape r) as [[x y]|].
  - destruct (Z.eqb_spec c 92) as [->|].
    + intros r. cbn. now destruct (junescape r) as [[x y]|].
    + apply JReads_plain. constructor; [now apply plain_intro|constructor].
Qed.

Lemma escape_plain s : Forall (fun c => plain c = true) s -> flat_map json_escape s = s.
Proof.
  induction 1 as [|c s Hc _ IH]; [reflexivity|]. cbn [flat_map]. rewrite IH. unfold plain in Hc. zbool.
  unfold json_escape. repeat match goal with |- context [?a =? ?b] => destruct (Z.eqb_spec a b); [lia|] end.
  destruct (Z.ltb_spec c 32); [lia|reflexivity].
Qed.

Lemma escape_printable s : forallb (fun c => (32 <=? c) && (c <? 256)) s = true -> flat_map json_escape s = flat_map quote_escape s.
Proof.
  induction s as [|c s IH]; [reflexivity|]. cbn [forallb flat_map]. intros H. zbool. rewrite IH by assumption. f_equal.
  unfold json_escape, quote_escape. destruct (Z.eqb_spec c 34) as [->|]; [reflexivity|].
  destruct (Z.eqb_spec c 92) as [->|]; [reflexivity|].
  repeat match goal with |- context [?a =? ?b] => destruct (Z.eqb_spec a b); [lia|] end.
  destruct (Z.ltb_spec c 32); [lia|reflexivity].
Qed.

Lemma JReads_literal b s : JReads b s -> junescape (b ++ J "'") = Some (s, []).
Proof. intros H. rewrite H. cbn. now rewrite app_nil_r. Qed.

Lemma digits_plain l : Forall (fun c => ishex c = true) l -> JReads l l.
Proof. intros H. apply JReads_plain. eapply Forall_impl; [|exact H]. exact ishex_plain. Qed.

Lemma JReads_u n : 0 <= n -> JReads (fmt_u n) (fmt_u n).
Proof.
  intros H. apply digits_plain. eapply Forall_impl; [|now apply fmt_u_digits].
  intros c Hc. unfold ishex. now rewrite Hc.
Qed.

Lemma JReads_x0 w n : 0 <= n -> JReads (fmt_x0 w n) (fmt_x0 w n).
Proof. intros H. apply digits_plain. apply pad0_Forall; [reflexivity|now apply fmt_x_hex]. Qed.

Lemma JReads_b64 l : Bytes l -> JReads (print_base64 l) (value_b64_encode l).
Proof. intros H. rewrite print_base64_eq. now apply JReads_plain, encode_plain. Qed.

Lemma JReads_B s : forallb plain (B s) = true -> JReads (B s) (B s).
Proof. intros H. apply JReads_plain. now apply Forall_forall; rewrite forallb_forall in H. Qed.

(** * Guids *)

Definition range_guid_b (g : ua_guid) : bool :=
  range_nodeid {| namespaceIndex := 0; identifier := IdGuid g |}.

Lemma range_guid_spec g : range_guid_b g = true ->
  0 <= data1 g < 2 ^ 32 /\ 0 <= data2 g < 2 ^ 16 /\ 0 <= data3 g < 2 ^ 16 /\
  exists a b c d e f h i, data4 g = [a; b; c; d; e; f; h; i] /\
  Forall (fun x => 0 <= x < 256) [a; b; c; d; e; f; h; i].
Proof.
  unfold range_guid_b, range_nodeid, in_range. cbn [namespaceIndex identifier]. intros H. zbool.
  match goal with E : Nat.eqb _ 8 = true |- _ => apply Nat.eqb_eq in E; rename E into Hl end.
  match goal with E : forallb is_byte _ = true |- _ => rename E into Hb end.
  repeat split; try lia.
  destruct (data4 g) as [|a [|b [|c [|d [|e [|f [|h [|i [|? ?]]]]]]]]]; try discriminate Hl.
  exists a, b, c, d, e, f, h, i. split; [reflexivity|].
  apply Forall_forall. intros x Hx. rewrite forallb_forall in Hb. specialize (Hb x Hx).
  unfold is_byte in Hb. zbool. lia.
Qed.

Lemma range_guid_wf g : range_guid_b g = true -> wf_guid g = true.
Proof.
  intros H. apply range_guid_spec in H as (H1 & H2 & H3 & a & b & c & d & e & f & h & i & E & Hd). unfold wf_guid.
  repeat (apply andb_true_intro; split); try (apply Z.leb_le; lia). rewrite E.
  apply forallb_forall. intros x Hx. rewrite Forall_forall in Hd. apply Z.leb_le. specialize (Hd x Hx). lia.
Qed.

Lemma guid_text_length g : range_guid_b g = true -> length (guid_text g) = 36%nat.
Proof.
  intros H. destruct (range_guid_spec g H) as (H1 & H2 & H3 & a & b & c & d & e & f & h & i & E & Hd).
  unfold guid_text. rewrite E. cbn [nth]. repeat rewrite length_app.
  repeat match goal with Hf : Forall _ (_ :: _) |- _ => inversion Hf; clear Hf; subst end.
  rewrite !fmt_x0_length by (cbn; lia). reflexivity.
Qed.

Lemma parse_guid_text g : range_guid_b g = true -> parse_guid (guid_text g) = Some g.
Proof.
  intros H. unfold parse_guid. rewrite guid_text_length by assumption. cbn [Nat.eqb negb].
  destruct (range_guid_spec g H) as (H1 & H2 & H3 & a & b & c & d & e & f & h & i & E & Hd).
  repeat match goal with Hf : Forall _ (_ :: _) |- _ => inversion Hf; clear Hf; subst end.
  unfold scan_guid, guid_text. rewrite E. cbn [nth].
  repeat (rewrite scan_xw_fmt by (cbn; lia); cbn [obind scan_lit app]; rewrite ?Z.eqb_refl; cbn [obind]).
  rewrite <- (app_nil_r (fmt_x0 2 i)), scan_xw_fmt by (cbn; lia). cbn [obind map].
  unfold u32, u16, u8. rewrite !uwrap_small by (cbn; lia). rewrite <- E. now destruct g.
Qed.

(** * NodeIds *)

(** What a literal can express: identifiers within their range and strings of
    printable bytes. *)
Definition literal_nodeid (n : ua_nodeid) : bool :=
  range_nodeid n &&
  match identifier n with
  | IdString s => wf_printable s
  | IdByteString s => wf_str s
  | _ => true
  end.

Definition ident_text (n : ua_nodeid) : bytes :=
  match identifier n with
  | IdNumeric i => B "i=" ++ fmt_u i
  | IdString s => B "s=" ++ default [] s
  | IdGuid g => B "g=" ++ guid_text g
  | IdByteString s => B "b=" ++ value_b64_encode (default [] s)
  | IdOther => []
  end.

Definition nodeid_text (n : ua_nodeid) : bytes :=
  match identifier n with
  | IdNumeric i => if namespaceIndex n =? 0 then ident_text n
                   else B "ns=" ++ fmt_u (namespaceIndex n) ++ B ";" ++ ident_text n
  | _ => B "ns=" ++ fmt_u (namespaceIndex n) ++ B ";" ++ ident_text n
  end.

Lemma parse_ident_text n : literal_nodeid n = true ->
  parse_nodeid_ident (ident_text n) (namespaceIndex n) = Some n.
Proof.
  unfold literal_nodeid, range_nodeid, ident_text, parse_nodeid_ident. intros H. zbool.
  destruct n as [ns id]. cbn [namespaceIndex identifier] in *.
  destruct id as [i|s|g|s|]; try discriminate.
  - rewrite strip_app. unfold in_range in *. zbool.
    rewrite <- (app_nil_r (fmt_u i)), strtoul_fmt by (auto; lia). cbn [sconv send sval streq negb orb].
    unfold u32. now rewrite uwrap_small by lia.
  - destruct s as [s|]; [|discriminate]. reflexivity.
  - change (strip (B "i=") (B "g=" ++ guid_text g)) with (@None bytes).
    change (strip (B "s=") (B "g=" ++ guid_text g)) with (@None bytes).
    rewrite strip_app, parse_guid_text; [reflexivity|]. assumption.
  - destruct s as [s|]; [|discriminate]. cbn [default].
    change (strip (B "i=") (B "b=" ++ value_b64_encode s)) with (@None bytes).
    change (strip (B "s=") (B "b=" ++ value_b64_encode s)) with (@None bytes).
    change (strip (B "g=") (B "b=" ++ value_b64_encode s)) with (@None bytes).
    rewrite strip_app, decode_encode; [reflexivity|]. now apply forallb_Bytes.
Qed.

Lemma parse_index_fmt w n r : 0 <= n < 2 ^ w -> w <= 64 -> parse_index w (fmt_u n ++ 59 :: r) = Some (n, r).
Proof.
  intros Hn Hw. assert (n < 2 ^ 64).
  { eapply Z.lt_le_trans; [apply Hn|]. apply Z.pow_le_mono_r; lia. }
  unfold parse_index. rewrite strtoul_fmt by (auto; lia). cbn [send sval].
  now rewrite uwrap_small by lia.
Qed.

Lemma literal_ns n : literal_nodeid n = true -> 0 <= namespaceIndex n < 2 ^ 16.
Proof. unfold literal_nodeid, range_nodeid, in_range. intros H. zbool. lia. Qed.

Lemma parse_ns_ident n : literal_nodeid n = true ->
  parse_nodeid (B "ns=" ++ fmt_u (namespaceIndex n) ++ B ";" ++ ident_text n) = Some n.
Proof.
  intros H. unfold parse_nodeid. rewrite strip_app. cbn [app B map list_ascii_of_string].
  change (Z.of_N (N_of_ascii ";")) with 59.
  rewrite parse_index_fmt by (try lia; now apply literal_ns). cbn [obind fst snd].
  now apply parse_ident_text.
Qed.

Lemma parse_nodeid_text n : literal_nodeid n = true -> parse_nodeid (nodeid_text n) = Some n.
Proof.
  intros H. unfold nodeid_text. destruct (identifier n) eqn:E; try now apply parse_ns_ident.
  destruct (Z.eqb_spec (namespaceIndex n) 0) as [E0|]; [|now apply parse_ns_ident].
  pose proof (parse_ident_text n H) as Hp. rewrite E0 in Hp. unfold parse_nodeid.
  unfold ident_text in *. rewrite E in *. exact Hp.
Qed.

(** The printed identifier reads back as [ident_text]. *)
Lemma JReads_ident n : literal_nodeid n = true -> JReads (print_nodeid_ident_raw n) (ident_text n).
Proof.
  unfold literal_nodeid, range_nodeid, print_nodeid_ident_raw, ident_text. intros H. zbool.
  destruct (identifier n) as [i|s|g|s|]; try discriminate.
  - unfold in_range in *. zbool. apply JReads_app; [now apply JReads_B|now apply JReads_u].
  - apply JReads_app; [now apply JReads_B|now apply JReads_quote].
  - apply JReads_app; [now apply JReads_B|].
    assert (wf_guid g = true) as Hg.
    { unfold in_range in *. zbool. unfold wf_guid. repeat (apply andb_true_intro; split);
      try (apply Z.leb_le; lia). rewrite forallb_forall in *. intros x Hx.
      match goal with Hb : forall x, In x _ -> is_byte x = true |- _ => specialize (Hb x Hx) end.
      unfold is_byte in *. zbool. apply Z.leb_le. lia. }
    destruct (guid_fields g Hg) as (? & ? & ?). unfold guid_text.
    repeat first [apply JReads_x0; auto using guid_nth; fail
                 | apply JReads_plain; repeat constructor; fail | apply JReads_app].
  - apply JReads_app; [now apply JReads_B|].
    destruct s as [[|c s]|]; [apply JReads_nil| |apply JReads_nil].
    apply JReads_b64. now apply forallb_Bytes.
Qed.

Lemma print_ua_nodeid_body n : literal_nodeid n = true ->
  exists b, print_ua_nodeid n = J "'" ++ b ++ J "'" /\ JReads b (nodeid_text n).
Proof.
  intros H. pose proof (JReads_ident n H) as Hi. pose proof (literal_ns n H) as Hns.
  assert (JReads (B "ns=" ++ fmt_u (namespaceIndex n) ++ B ";" ++ print_nodeid_ident_raw n)
           (B "ns=" ++ fmt_u (namespaceIndex n) ++ B ";" ++ ident_text n)) as Hn.
  { repeat apply JReads_app; try (now apply JReads_B); [apply JReads_u; lia|exact Hi]. }
  unfold print_ua_nodeid, nodeid_text, print_nodeid_ident_raw in *.
  destruct (identifier n) as [i|s|g|s|] eqn:E.
  - destruct (namespaceIndex n =? 0); [exists (B "i=" ++ fmt_u i)|eexists; split; [|exact Hn]].
    + split; [reflexivity|exact Hi].
    + rewrite <- !app_assoc. reflexivity.
  - eexists; split; [|exact Hn]. rewrite <- !app_assoc. reflexivity.
  - eexists; split; [|exact Hn]. rewrite <- !app_assoc. reflexivity.
  - eexists; split; [|exact Hn]. rewrite <- !app_assoc. reflexivity.
  - unfold literal_nodeid, range_nodeid in H. rewrite E in H. zbool. discriminate.
Qed.

(** ** ExpandedNodeIds *)

(** A namespace URI replaces the index, which is then 0; the URI is not empty
    and has no semicolon. *)
Definition literal_expanded (e : ua_expanded_nodeid) : bool :=
  literal_nodeid (en_nodeId e) && in_range 0 4294967295 (en_serverIndex e)
  && match en_namespaceUri e with
     | None => true
     | Some u => (namespaceIndex (en_nodeId e) =? 0) && negb (Nat.eqb (length u) 0)
                 && wf_printable (Some u) && negb (existsb (Z.eqb 59) u)
     end.

Definition expanded_text (e : ua_expanded_nodeid) : bytes :=
  (if en_serverIndex e =? 0 then [] else B "svr=" ++ fmt_u (en_serverIndex e) ++ B ";")
  ++ match en_namespaceUri e with
     | Some u => B "nsu=" ++ u ++ B ";"
     | None => if namespaceIndex (en_nodeId e) =? 0 then []
               else B "ns=" ++ fmt_u (namespaceIndex (en_nodeId e)) ++ B ";"
     end
  ++ ident_text (en_nodeId e).

Lemma ident_text_strip p n : match p with x :: y :: _ => negb (y =? 61) | _ => false end = true ->
  literal_nodeid n = true -> strip p (ident_text n) = None.
Proof.
  intros Hp H. destruct p as [|x [|y p]]; try discriminate. zbool. unfold ident_text.
  destruct (identifier n) eqn:E; cbn; try (destruct (x =? _); [|reflexivity];
    destruct (Z.eqb_spec y 61); [congruence|reflexivity]).
  unfold literal_nodeid, range_nodeid in H. rewrite E in H. zbool. discriminate.
Qed.

(** The part of an ExpandedNodeId after the server index. *)
Definition expanded_tail (e : ua_expanded_nodeid) : bytes :=
  match en_namespaceUri e with
  | Some u => B "nsu=" ++ u ++ B ";"
  | None => if namespaceIndex (en_nodeId e) =? 0 then []
            else B "ns=" ++ fmt_u (namespaceIndex (en_nodeId e)) ++ B ";"
  end ++ ident_text (en_nodeId e).

Definition parse_expanded_tail (server : Z) (s : bytes) : option ua_expanded_nodeid :=
  match strip (B "nsu=") s with
  | Some r =>
      do q <- strchr 59 r;
      let '(uri, rest) := q in
      do n <- parse_nodeid_ident rest 0;
      Some {| en_nodeId := n; en_namespaceUri := Some uri; en_serverIndex := server |}
  | None =>
      do n <- parse_nodeid s;
      Some {| en_nodeId := n; en_namespaceUri := None; en_serverIndex := server |}
  end.

Lemma parse_expanded_tail_text e : literal_expanded e = true ->
  parse_expanded_tail (en_serverIndex e) (expanded_tail e) = Some e.
Proof.
  intros H. unfold literal_expanded in H. zbool. pose proof (parse_ident_text _ H) as Hp.
  unfold parse_expanded_tail, expanded_tail. destruct e as [n uri srv].
  cbn [en_nodeId en_namespaceUri en_serverIndex] in *.
  destruct uri as [u|].
  - zbool. match goal with E : namespaceIndex n = 0 |- _ => rewrite E in Hp end.
    rewrite <- !app_assoc, strip_app. change (B ";" ++ ident_text n) with (59 :: ident_text n).
    rewrite strchr_app; [cbn [obind]; now rewrite Hp|].
    intros Hin. match goal with E : existsb _ u = false |- _ => rename E into Hu end.
    assert (existsb (Z.eqb 59) u = true); [|congruence].
    apply existsb_exists. exists 59. split; [assumption|apply Z.eqb_refl].
  - destruct (Z.eqb_spec (namespaceIndex n) 0) as [E|E].
    + rewrite E in Hp. cbn [app]. rewrite ident_text_strip by (reflexivity || assumption).
      unfold parse_nodeid. rewrite ident_text_strip by (reflexivity || assumption). now rewrite Hp.
    + rewrite <- !app_assoc.
      change (strip (B "nsu=") (B "ns=" ++ fmt_u (namespaceIndex n) ++ B ";" ++ ident_text n))
        with (@None bytes).
      now rewrite parse_ns_ident.
Qed.

Lemma parse_expanded_text e : literal_expanded e = true -> parse_expanded_nodeid (expanded_text e) = Some e.
Proof.
  intros H. pose proof (parse_expanded_tail_text e H) as Ht.
  unfold literal_expanded, in_range in H. zbool.
  unfold parse_expanded_nodeid, expanded_text. fold (expanded_tail e).
  destruct (Z.eqb_spec (en_serverIndex e) 0) as [E|E].
  - rewrite E in Ht. cbn [app]. assert (strip (B "svr=") (expanded_tail e) = None) as ->; [|exact Ht].
    unfold expanded_tail. destruct (en_namespaceUri e) as [u|]; [reflexivity|].
    destruct (_ =? 0); [|reflexivity]. cbn [app]. now apply ident_text_strip.
  - rewrite <- !app_assoc, strip_app. change (B ";" ++ expanded_tail e) with (59 :: expanded_tail e).
    rewrite parse_index_fmt by lia. exact Ht.
Qed.

Lemma print_expanded_body e : literal_expanded e = true ->
  exists b, print_expanded_nodeid e = J "'" ++ b ++ J "'" /\ JReads b (expanded_text e).
Proof.
  intros H. unfold literal_expanded, in_range in H. zbool.
  pose proof (JReads_ident _ H) as Hi. pose proof (literal_ns _ H) as Hns.
  unfold print_expanded_nodeid, expanded_text.
  set (srv := if en_serverIndex e =? 0 then [] else _).
  set (uri := match en_namespaceUri e with Some _ => _ | None => _ end).
  exists (srv ++ uri ++ print_nodeid_ident_raw (en_nodeId e)). split; [now rewrite <- !app_assoc|].
  apply JReads_app; [|apply JReads_app; [|exact Hi]]; [unfold srv|unfold uri;
    destruct (en_namespaceUri e) as [[|c u]|]].
  - destruct (en_serverIndex e =? 0); [apply JReads_nil|].
    apply JReads_app; [now apply JReads_B|]. apply JReads_app; [now apply JReads_u|now apply JReads_B].
  - discriminate || (zbool; discriminate).
  - zbool. apply JReads_app; [now apply JReads_B|].
    apply (JReads_app (flat_map quote_escape (c :: u))); [now apply JReads_quote|now apply JReads_B].
  - destruct (namespaceIndex (en_nodeId e) =? 0); [apply JReads_nil|].
    apply JReads_app; [now apply JReads_B|].
    apply JReads_app; [apply JReads_u; lia|now apply JReads_B].
Qed.

(** * DateTimes *)

Section DateTime.
Context {stack : UaStack} {laws : UaStackLaws stack}.

Lemma fmt_u0_length w n : 0 <= n < 10 ^ Z.of_nat w -> (1 <= w)%nat -> length (fmt_u0 w n) = w.
Proof. intros Hn Hw. apply pad0_length. apply digits_length; auto; lia. Qed.

Lemma fraction_digits_scan l r : (length l <= 7)%nat -> Digits l ->
  match r with c :: _ => isdigit c = false | [] => True end ->
  forall k ticks, (k + length l <= 7)%nat ->
  fraction_digits k ticks (l ++ r) = ((k + length l)%nat, fst (scan 10 ticks l), r).
Proof.
  intros _ Hl Hr. induction Hl as [|c l Hc _ IH]; intros k ticks Hk.
  - cbn [app scan fst length]. rewrite Nat.add_0_r. destruct r as [|c r]; [reflexivity|].
    cbn [fraction_digits]. now rewrite Hr.
  - cbn [app fraction_digits length] in *. rewrite Hc. destruct (Nat.ltb_spec k 7); [|lia].
    rewrite IH by lia. cbn [scan]. unfold digit_val. rewrite Hc. unfold isdigit in Hc. zbool.
    destruct (Z.ltb_spec (c - 48) 10); [|lia]. now rewrite Nat.add_succ_r.
Qed.

Lemma milliseconds n : 0 <= n < 1000 -> fraction_digits 0 0 (fmt_u0 3 n ++ [90]) = (3%nat, n, [90]).
Proof.
  intros Hn. rewrite fraction_digits_scan.
  - rewrite (fmt_u0_length 3 n) by (cbn; lia). unfold fmt_u0, pad0. rewrite scan_zeros by lia.
    unfold fmt_u. rewrite scan_digits; [reflexivity|lia| |discriminate].
    split; [lia|apply num_fuel_ok; lia].
  - rewrite fmt_u0_length by (cbn; lia). lia.
  - apply pad0_Forall; [reflexivity|apply fmt_u_digits; lia].
  - reflexivity.
  - rewrite fmt_u0_length by (cbn; lia). lia.
Qed.

(** The six fields of a printed timestamp. *)
Lemma scan_civil_fmt Y M D h m s r :
  0 <= Y < 10000 -> 0 <= M < 100 -> 0 <= D < 100 -> 0 <= h < 100 -> 0 <= m < 100 -> 0 <= s < 100 ->
  scan_civil (fmt_u0 4 Y ++ [45] ++ fmt_u0 2 M ++ [45] ++ fmt_u0 2 D ++ [84] ++ fmt_u0 2 h ++ [58]
    ++ fmt_u0 2 m ++ [58] ++ fmt_u0 2 s ++ 46 :: r) = Some (Y, M, D, h, m, s, 46 :: r).
Proof.
  intros. unfold scan_civil. cbn [app].
  repeat (rewrite scan_d_fmt by (reflexivity || lia); cbn [obind scan_lit]; rewrite ?Z.eqb_refl;
          cbn [obind]). reflexivity.
Qed.

Lemma parse_timestamp Y M D h m s ms :
  0 <= Y < 10000 -> 0 <= M < 100 -> 0 <= D < 100 -> 0 <= h < 100 -> 0 <= m < 100 -> 0 <= s < 100 ->
  0 <= ms < 1000 ->
  value_parse_datetime (fmt_u0 4 Y ++ [45] ++ fmt_u0 2 M ++ [45] ++ fmt_u0 2 D ++ [84] ++ fmt_u0 2 h
    ++ [58] ++ fmt_u0 2 m ++ [58] ++ fmt_u0 2 s ++ [46] ++ fmt_u0 3 ms ++ [90]) =
  Some (s64 ((timegm Y M D h m s + UNIX_EPOCH_SEC) * UA_DATETIME_SEC + ms * 10000)).
Proof.
  intros HY HM HD Hh Hm Hs Hms.
  pose proof (scan_civil_fmt Y M D h m s (fmt_u0 3 ms ++ [90]) HY HM HD Hh Hm Hs) as Hc.
  cbn [app] in *. unfold value_parse_datetime.
  destruct (fmt_u0 4 Y) as [|c y] eqn:E; [apply (f_equal (@length Z)) in E;
    rewrite fmt_u0_length in E by (cbn; lia); discriminate|].
  cbn [app] in *. rewrite Hc. cbn [obind]. rewrite milliseconds by assumption.
  unfold s32. rewrite !swrap_small by lia.
  replace (Y - 1900 + 1900) with Y by lia. replace (M - 1 + 1) with M by lia. reflexivity.
Qed.

Lemma timestamp_text t : 0 < t < DATETIME_END ->
  let s := DateTime_toStruct t in
  output_timestamp t =
  fmt_u0 4 (dts_year s) ++ [45] ++ fmt_u0 2 (dts_month s) ++ [45] ++ fmt_u0 2 (dts_day s) ++ [84]
  ++ fmt_u0 2 (dts_hour s) ++ [58] ++ fmt_u0 2 (dts_min s) ++ [58] ++ fmt_u0 2 (dts_sec s) ++ [46]
  ++ fmt_u0 3 (dts_milliSec s) ++ [90].
Proof.
  intros Ht s. destruct (toStruct_range t) as (H1 & H2 & H3 & H4 & H5 & H6); [lia|].
  destruct (toStruct_instant t) as [_ Hms]; [lia|]. fold s in H1, H2, H3, H4, H5, H6, Hms.
  assert (0 <= dts_milliSec s < 1000) as H7.
  { rewrite Hms. unfold UA_DATETIME_SEC. Z.div_mod_to_equations; lia. }
  unfold output_timestamp. destruct (Z.eqb_spec t 0); [lia|]. fold s.
  unfold u32. rewrite !uwrap_small by lia. unfold snprintf. apply firstn_all2.
  repeat rewrite length_app. rewrite !fmt_u0_length by (cbn; lia). cbn. lia.
Qed.

Lemma datetime_text t : 0 < t < DATETIME_END ->
  value_parse_datetime (output_timestamp t) = Some (t - t mod 10000).
Proof.
  intros Ht. rewrite timestamp_text by assumption.
  destruct (toStruct_range t) as (H1 & H2 & H3 & H4 & H5 & H6); [lia|].
  destruct (toStruct_instant t) as [Hi Hms]; [lia|].
  rewrite parse_timestamp; try assumption; [|rewrite Hms; unfold UA_DATETIME_SEC;
    Z.div_mod_to_equations; lia].
  rewrite Hi, Hms. f_equal.
  assert (E : (t / UA_DATETIME_SEC - UNIX_EPOCH_SEC + UNIX_EPOCH_SEC) * UA_DATETIME_SEC
     + t mod UA_DATETIME_SEC / 10000 * 10000 = t - t mod 10000)
    by (unfold UA_DATETIME_SEC; clear; Z.div_mod_to_equations; lia).
  rewrite E. unfold DATETIME_END in Ht. apply swrap_small; [lia|].
  pose proof (Z.mod_pos_bound t 10000). lia.
Qed.
End DateTime.

(** * Theorems *)

(** C1: a NodeId whose namespace and identifier are in range, with a string
    identifier that is not null and has no control characters or an opaque one that is
    not null, round-trips: the JSON string [print_ua_nodeid] writes, unescaped, is a
    literal that [parse_nodeid] reads back to the same namespace, identifier type and
    identifier.  (A control character is printed raw, which is no JSON, and a null
    string reads back empty.) *)
Theorem nodeid_roundtrip n : literal_nodeid n = true ->
  exists t, junescape (tl (print_ua_nodeid n)) = Some (t, []) /\ parse_nodeid t = Some n.
Proof.
  intros H. destruct (print_ua_nodeid_body n H) as (b & -> & Hb).
  exists (nodeid_text n). split; [now apply JReads_literal|now apply parse_nodeid_text].
Qed.

Lemma nodeid_roundtrip_witness :
  let n := {| namespaceIndex := 2; identifier := IdString (Some (J "Line'1'\x")) |} in
  exists t, junescape (tl (print_ua_nodeid n)) = Some (t, []) /\ parse_nodeid t = Some n.
Proof. intros n. apply (nodeid_roundtrip n). reflexivity. Defined.

(** The same for ExpandedNodeIds with a server index and with a namespace
    URI (not empty, without a semicolon) or a namespace index. *)
Lemma expanded_nodeid_roundtrip e : literal_expanded e = true ->
  exists t, junescape (tl (print_expanded_nodeid e)) = Some (t, []) /\ parse_expanded_nodeid t = Some e.
Proof.
  intros H. destruct (print_expanded_body e H) as (b & -> & Hb).
  exists (expanded_text e). split; [now apply JReads_literal|now apply parse_expanded_text].
Qed.
