(* ===== verification/Args.v ===== *)
(** Command lines: the flag helpers and the global security configuration of
    client.c, [client_run]'s dispatch, and [server_parse_args] of server.c.
    [argv] is the list of arguments the function receives. *)

From Stdlib Require Import String Ascii ZArith Bool List Lia.
Import ListNotations.
From S2P Require Import Prelude CLib.

(** * client.c: flags *)

Fixpoint find_arg (argv : list bytes) (flag : bytes) : option bytes :=
  match argv with
  | a :: ((v :: _) as r) => if streq a flag then Some v else find_arg r flag
  | _ => None
  end.

Definition count_flag (argv : list bytes) (flag : bytes) : nat :=
  length (filter (fun a => streq a flag) argv).

Definition parse_int_flag (argv : list bytes) (flag : bytes) (def : Z) : Z :=
  match find_arg argv flag with
  | None => def
  | Some v => let r := atoi v in if 0 <? r then r else def
  end.

(** * client.c: security configuration *)

(** [trustFiles]: [None] is an element of the array that was never written. *)
Record ClientSecurity := {
  policyName : bytes; modeName : bytes; certFile : option bytes; keyFile : option bytes;
  trustFiles : list (option bytes); trustCount : nat;
  username : option bytes; password : option bytes;
  channelLifetimeMs : Z; applicationUri : option bytes;
  reverseListenPort : Z; reverseTimeoutMs : Z; reverseServerUri : option bytes }.

(** The initialiser of [g_sec]. *)
Definition g_sec_default : ClientSecurity :=
  {| policyName := B "None"; modeName := B "None"; certFile := None; keyFile := None;
     trustFiles := []; trustCount := 0; username := None; password := None;
     channelLifetimeMs := 0; applicationUri := None;
     reverseListenPort := 0; reverseTimeoutMs := 30000; reverseServerUri := None |}.

(** UA_MessageSecurityMode; [ModeInvalid] is any other value on the wire. *)
Inductive security_mode := ModeNone | ModeSign | ModeSignAndEncrypt | ModeInvalid.

Definition security_mode_enum (s : bytes) : security_mode :=
  if streq s (B "None") then ModeNone
  else if streq s (B "Sign") then ModeSign
  else if streq s (B "SignAndEncrypt") then ModeSignAndEncrypt
  else ModeNone.

Definition policy_prefix : bytes := B "http://opcfoundation.org/UA/SecurityPolicy#".

Definition policy_table : list (bytes * bytes) :=
  map (fun n => (B n, policy_prefix ++ B n))
    ["None"; "Basic128Rsa15"; "Basic256"; "Basic256Sha256"; "Aes128_Sha256_RsaOaep";
     "Aes256_Sha256_RsaPss"; "ECC_nistP256"; "ECC_nistP384"; "ECC_brainpoolP256r1";
     "ECC_brainpoolP384r1"; "ECC_curve25519"; "ECC_curve448"; "ECC_nistP256_AesGcm";
     "ECC_nistP256_ChaChaPoly"]%string.

Definition security_policy_uri (name : bytes) : bytes :=
  match find (fun p => streq name (fst p)) policy_table with
  | Some p => snd p
  | None => policy_prefix ++ B "None"
  end.

(** [strrchr(s, c) + 1] *)
Definition after_last (c : Z) (s : bytes) : option bytes :=
  match strchr c (rev s) with
  | Some (r, _) => Some (rev r)
  | None => None
  end.

Definition security_policy_known (name : option bytes) : bool :=
  match name with
  | None => true
  | Some n => match after_last 35 (security_policy_uri n) with
              | Some suffix => streq suffix n
              | None => false
              end
  end.

(** [--trust-list]: the slots the loop writes. *)
Fixpoint trust_values (argv : list bytes) : list bytes :=
  match argv with
  | a :: ((v :: _) as r) =>
      if streq a (B "--trust-list") then v :: trust_values r else trust_values r
  | _ => []
  end.

Definition trust_array (argv : list bytes) : list (option bytes) :=
  let tc := count_flag argv (B "--trust-list") in
  firstn tc (map Some (firstn tc (trust_values argv)) ++ repeat None tc).

(** The global flags of [client_run]. *)
Definition parse_security (argv : list bytes) (g : ClientSecurity) : ClientSecurity :=
  let over {A} (flag : string) (f : bytes -> A) (d : A) :=
    match find_arg argv (B flag) with Some v => f v | None => d end in
  let tc := count_flag argv (B "--trust-list") in
  {| policyName := over "--security-policy"%string id (policyName g);
     modeName := over "--security-mode"%string id (modeName g);
     certFile := over "--certificate"%string Some (certFile g);
     keyFile := over "--private-key"%string Some (keyFile g);
     trustFiles := if Nat.ltb 0 tc then trust_array argv else trustFiles g;
     trustCount := if Nat.ltb 0 tc then tc else trustCount g;
     username := over "--username"%string Some (username g);
     password := over "--password"%string Some (password g);
     channelLifetimeMs := over "--channel-lifetime-ms"%string atoi (channelLifetimeMs g);
     applicationUri := over "--application-uri"%string Some (applicationUri g);
     reverseListenPort := over "--reverse-listen"%string atoi (reverseListenPort g);
     reverseTimeoutMs := over "--reverse-timeout-ms"%string atoi (reverseTimeoutMs g);
     reverseServerUri := over "--reverse-server-uri"%string Some (reverseServerUri g) |}.

(** * client.c: dispatch *)

Inductive command :=
| CmdEndpoints | CmdFindServers | CmdRead | CmdWrite | CmdBrowse | CmdTranslate | CmdCall
| CmdSubscribe | CmdSubscriptionLifecycle | CmdEventSubscribe | CmdAlarms | CmdHistoryRead
| CmdHistoryReadEvents | CmdHistoryUpdateEvents | CmdRepublish | CmdTransferSubscriptions
| CmdRegisterNodes | CmdNodeManagement | CmdFindServersOnNetwork | CmdRegisterServer | CmdCodec
| CmdPush | CmdGdsPull.

Definition dispatch_table : list (bytes * command) :=
  [(B "endpoints", CmdEndpoints); (B "find-servers", CmdFindServers); (B "read", CmdRead);
   (B "write", CmdWrite); (B "browse", CmdBrowse); (B "translate", CmdTranslate); (B "call", CmdCall);
   (B "subscribe", CmdSubscribe); (B "subscription-lifecycle", CmdSubscriptionLifecycle);
   (B "event-subscribe", CmdEventSubscribe); (B "alarms", CmdAlarms);
   (B "history-read", CmdHistoryRead); (B "history-read-events", CmdHistoryReadEvents);
   (B "history-update-events", CmdHistoryUpdateEvents); (B "republish", CmdRepublish);
   (B "transfer-subscriptions", CmdTransferSubscriptions); (B "register-nodes", CmdRegisterNodes);
   (B "node-management", CmdNodeManagement); (B "find-servers-on-network", CmdFindServersOnNetwork);
   (B "register-server", CmdRegisterServer); (B "codec", CmdCodec); (B "push", CmdPush);
   (B "gds-pull", CmdGdsPull)].

(** What [client_run] does with its arguments: a usage error, or a command with
    the security configuration and the arguments after the program name. *)
Inductive dispatched := Usage (exit : Z) | Run (c : command) (sec : ClientSecurity) (argv : list bytes).

Definition client_run (argv : list bytes) : dispatched :=
  match argv with
  | _ :: ((sub :: _) as rest) =>
      let sec := parse_security argv g_sec_default in
      match find (fun p => streq sub (fst p)) dispatch_table with
      | Some p => Run (snd p) sec rest
      | None => Usage 2
      end
  | _ => Usage 2
  end.

(** * server.c: server_parse_args *)

Definition SERVER_MAX_REVERSE : nat := 8.
Definition SERVER_MAX_CAPS : nat := 8.

Record ServerArgs := {
  fixturePath : option bytes; bindAddress : option bytes; bindPort : Z;
  advertisedHost : option bytes; advertisedPort : Z; endpointPath : option bytes;
  pkiDir : option bytes; srvCertFile : option bytes; srvKeyFile : option bytes;
  readyFile : option bytes; readyFileExplicit : bool; eccDir : option bytes;
  reverseConnect : list bytes; reverseIntervalMs : Z;
  lds : bool; ldsCleanupTimeoutS : Z; mdnsName : option bytes; mdnsCaps : list bytes;
  registerWith : option bytes; registerIntervalMs : Z; pubsubConfig : option bytes }.

Definition server_args_zero : ServerArgs :=
  {| fixturePath := None; bindAddress := None; bindPort := 0; advertisedHost := None;
     advertisedPort := 0; endpointPath := None; pkiDir := None; srvCertFile := None;
     srvKeyFile := None; readyFile := None; readyFileExplicit := false; eccDir := None;
     reverseConnect := []; reverseIntervalMs := 0; lds := false; ldsCleanupTimeoutS := 0;
     mdnsName := None; mdnsCaps := []; registerWith := None; registerIntervalMs := 0;
     pubsubConfig := None |}.

(** [if (count < max) array[count++] = strdup(v);] *)
Definition push_max (max : nat) (l : list bytes) (v : bytes) : list bytes :=
  if Nat.ltb (length l) max then l ++ [v] else l.

Definition set_fixturePath (x : option bytes) (a : ServerArgs) : ServerArgs :=
  {| fixturePath := x; bindAddress := bindAddress a; bindPort := bindPort a;
     advertisedHost := advertisedHost a; advertisedPort := advertisedPort a;
     endpointPath := endpointPath a; pkiDir := pkiDir a; srvCertFile := srvCertFile a;
     srvKeyFile := srvKeyFile a; readyFile := readyFile a;
     readyFileExplicit := readyFileExplicit a; eccDir := eccDir a;
     reverseConnect := reverseConnect a; reverseIntervalMs := reverseIntervalMs a;
     lds := lds a; ldsCleanupTimeoutS := ldsCleanupTimeoutS a; mdnsName := mdnsName a;
     mdnsCaps := mdnsCaps a; registerWith := registerWith a;
     registerIntervalMs := registerIntervalMs a; pubsubConfig := pubsubConfig a |}.
Definition set_bindAddress (x : option bytes) (a : ServerArgs) : ServerArgs :=
  {| fixturePath := fixturePath a; bindAddress := x; bindPort := bindPort a;
     advertisedHost := advertisedHost a; advertisedPort := advertisedPort a;
     endpointPath := endpointPath a; pkiDir := pkiDir a; srvCertFile := srvCertFile a;
     srvKeyFile := srvKeyFile a; readyFile := readyFile a;
     readyFileExplicit := readyFileExplicit a; eccDir := eccDir a;
     reverseConnect := reverseConnect a; reverseIntervalMs := reverseIntervalMs a;
     lds := lds a; ldsCleanupTimeoutS := ldsCleanupTimeoutS a; mdnsName := mdnsName a;
     mdnsCaps := mdnsCaps a; registerWith := registerWith a;
     registerIntervalMs := registerIntervalMs a; pubsubConfig := pubsubConfig a |}.
Definition set_bindPort (x : Z) (a : ServerArgs) : ServerArgs :=
  {| fixturePath := fixturePath a; bindAddress := bindAddress a; bindPort := x;
     advertisedHost := advertisedHost a; advertisedPort := advertisedPort a;
     endpointPath := endpointPath a; pkiDir := pkiDir a; srvCertFile := srvCertFile a;
     srvKeyFile := srvKeyFile a; readyFile := readyFile a;
     readyFileExplicit := readyFileExplicit a; eccDir := eccDir a;
     reverseConnect := reverseConnect a; reverseIntervalMs := reverseIntervalMs a;
     lds := lds a; ldsCleanupTimeoutS := ldsCleanupTimeoutS a; mdnsName := mdnsName a;
     mdnsCaps := mdnsCaps a; registerWith := registerWith a;
     registerIntervalMs := registerIntervalMs a; pubsubConfig := pubsubConfig a |}.
Definition set_advertisedHost (x : option bytes) (a : ServerArgs) : ServerArgs :=
  {| fixturePath := fixturePath a; bindAddress := bindAddress a; bindPort := bindPort a;
     advertisedHost := x; advertisedPort := advertisedPort a;
     endpointPath := endpointPath a; pkiDir := pkiDir a; srvCertFile := srvCertFile a;
     srvKeyFile := srvKeyFile a; readyFile := readyFile a;
     readyFileExplicit := readyFileExplicit a; eccDir := eccDir a;
     reverseConnect := reverseConnect a; reverseIntervalMs := reverseIntervalMs a;
     lds := lds a; ldsCleanupTimeoutS := ldsCleanupTimeoutS a; mdnsName := mdnsName a;
     mdnsCaps := mdnsCaps a; registerWith := registerWith a;
     registerIntervalMs := registerIntervalMs a; pubsubConfig := pubsubConfig a |}.
Definition set_advertisedPort (x : Z) (a : ServerArgs) : ServerArgs :=
  {| fixturePath := fixturePath a; bindAddress := bindAddress a; bindPort := bindPort a;
     advertisedHost := advertisedHost a; advertisedPort := x;
     endpointPath := endpointPath a; pkiDir := pkiDir a; srvCertFile := srvCertFile a;
     srvKeyFile := srvKeyFile a; readyFile := readyFile a;
     readyFileExplicit := readyFileExplicit a; eccDir := eccDir a;
     reverseConnect := reverseConnect a; reverseIntervalMs := reverseIntervalMs a;
     lds := lds a; ldsCleanupTimeoutS := ldsCleanupTimeoutS a; mdnsName := mdnsName a;
     mdnsCaps := mdnsCaps a; registerWith := registerWith a;
     registerIntervalMs := registerIntervalMs a; pubsubConfig := pubsubConfig a |}.
Definition set_endpointPath (x : option bytes) (a : ServerArgs) : ServerArgs :=
  {| fixturePath := fixturePath a; bindAddress := bindAddress a; bindPort := bindPort a;
     advertisedHost := advertisedHost a; advertisedPort := advertisedPort a;
     endpointPath := x; pkiDir := pkiDir a; srvCertFile := srvCertFile a;
     srvKeyFile := srvKeyFile a; readyFile := readyFile a;
     readyFileExplicit := readyFileExplicit a; eccDir := eccDir a;
     reverseConnect := reverseConnect a; reverseIntervalMs := reverseIntervalMs a;
     lds := lds a; ldsCleanupTimeoutS := ldsCleanupTimeoutS a; mdnsName := mdnsName a;
     mdnsCaps := mdnsCaps a; registerWith := registerWith a;
     registerIntervalMs := registerIntervalMs a; pubsubConfig := pubsubConfig a |}.
Definition set_pkiDir (x : option bytes) (a : ServerArgs) : ServerArgs :=
  {| fixturePath := fixturePath a; bindAddress := bindAddress a; bindPort := bindPort a;
     advertisedHost := advertisedHost a; advertisedPort := advertisedPort a;
     endpointPath := endpointPath a; pkiDir := x; srvCertFile := srvCertFile a;
     srvKeyFile := srvKeyFile a; readyFile := readyFile a;
     readyFileExplicit := readyFileExplicit a; eccDir := eccDir a;
     reverseConnect := reverseConnect a; reverseIntervalMs := reverseIntervalMs a;
     lds := lds a; ldsCleanupTimeoutS := ldsCleanupTimeoutS a; mdnsName := mdnsName a;
     mdnsCaps := mdnsCaps a; registerWith := registerWith a;
     registerIntervalMs := registerIntervalMs a; pubsubConfig := pubsubConfig a |}.
Definition set_srvCertFile (x : option bytes) (a : ServerArgs) : ServerArgs :=
  {| fixturePath := fixturePath a; bindAddress := bindAddress a; bindPort := bindPort a;
     advertisedHost := advertisedHost a; advertisedPort := advertisedPort a;
     endpointPath := endpointPath a; pkiDir := pkiDir a; srvCertFile := x;
     srvKeyFile := srvKeyFile a; readyFile := readyFile a;
     readyFileExplicit := readyFileExplicit a; eccDir := eccDir a;
     reverseConnect := reverseConnect a; reverseIntervalMs := reverseIntervalMs a;
     lds := lds a; ldsCleanupTimeoutS := ldsCleanupTimeoutS a; mdnsName := mdnsName a;
     mdnsCaps := mdnsCaps a; registerWith := registerWith a;
     registerIntervalMs := registerIntervalMs a; pubsubConfig := pubsubConfig a |}.
Definition set_srvKeyFile (x : option bytes) (a : ServerArgs) : ServerArgs :=
  {| fixturePath := fixturePath a; bindAddress := bindAddress a; bindPort := bindPort a;
     advertisedHost := advertisedHost a; advertisedPort := advertisedPort a;
     endpointPath := endpointPath a; pkiDir := pkiDir a; srvCertFile := srvCertFile a;
     srvKeyFile := x; readyFile := readyFile a; readyFileExplicit := readyFileExplicit a;
     eccDir := eccDir a; reverseConnect := reverseConnect a;
     reverseIntervalMs := reverseIntervalMs a; lds := lds a;
     ldsCleanupTimeoutS := ldsCleanupTimeoutS a; mdnsName := mdnsName a;
     mdnsCaps := mdnsCaps a; registerWith := registerWith a;
     registerIntervalMs := registerIntervalMs a; pubsubConfig := pubsubConfig a |}.
Definition set_readyFile (x : option bytes) (a : ServerArgs) : ServerArgs :=
  {| fixturePath := fixturePath a; bindAddress := bindAddress a; bindPort := bindPort a;
     advertisedHost := advertisedHost a; advertisedPort := advertisedPort a;
     endpointPath := endpointPath a; pkiDir := pkiDir a; srvCertFile := srvCertFile a;
     srvKeyFile := srvKeyFile a; readyFile := x; readyFileExplicit := readyFileExplicit a;
     eccDir := eccDir a; reverseConnect := reverseConnect a;
     reverseIntervalMs := reverseIntervalMs a; lds := lds a;
     ldsCleanupTimeoutS := ldsCleanupTimeoutS a; mdnsName := mdnsName a;
     mdnsCaps := mdnsCaps a; registerWith := registerWith a;
     registerIntervalMs := registerIntervalMs a; pubsubConfig := pubsubConfig a |}.
Definition set_readyFileExplicit (x : bool) (a : ServerArgs) : ServerArgs :=
  {| fixturePath := fixturePath a; bindAddress := bindAddress a; bindPort := bindPort a;
     advertisedHost := advertisedHost a; advertisedPort := advertisedPort a;
     endpointPath := endpointPath a; pkiDir := pkiDir a; srvCertFile := srvCertFile a;
     srvKeyFile := srvKeyFile a; readyFile := readyFile a; readyFileExplicit := x;
     eccDir := eccDir a; reverseConnect := reverseConnect a;
     reverseIntervalMs := reverseIntervalMs a; lds := lds a;
     ldsCleanupTimeoutS := ldsCleanupTimeoutS a; mdnsName := mdnsName a;
     mdnsCaps := mdnsCaps a; registerWith := registerWith a;
     registerIntervalMs := registerIntervalMs a; pubsubConfig := pubsubConfig a |}.
Definition set_eccDir (x : option bytes) (a : ServerArgs) : ServerArgs :=
  {| fixturePath := fixturePath a; bindAddress := bindAddress a; bindPort := bindPort a;
     advertisedHost := advertisedHost a; advertisedPort := advertisedPort a;
     endpointPath := endpointPath a; pkiDir := pkiDir a; srvCertFile := srvCertFile a;
     srvKeyFile := srvKeyFile a; readyFile := readyFile a;
     readyFileExplicit := readyFileExplicit a; eccDir := x;
     reverseConnect := reverseConnect a; reverseIntervalMs := reverseIntervalMs a;
     lds := lds a; ldsCleanupTimeoutS := ldsCleanupTimeoutS a; mdnsName := mdnsName a;
     mdnsCaps := mdnsCaps a; registerWith := registerWith a;
     registerIntervalMs := registerIntervalMs a; pubsubConfig := pubsubConfig a |}.
Definition set_reverseConnect (x : list bytes) (a : ServerArgs) : ServerArgs :=
  {| fixturePath := fixturePath a; bindAddress := bindAddress a; bindPort := bindPort a;
     advertisedHost := advertisedHost a; advertisedPort := advertisedPort a;
     endpointPath := endpointPath a; pkiDir := pkiDir a; srvCertFile := srvCertFile a;
     srvKeyFile := srvKeyFile a; readyFile := readyFile a;
     readyFileExplicit := readyFileExplicit a; eccDir := eccDir a; reverseConnect := x;
     reverseIntervalMs := reverseIntervalMs a; lds := lds a;
     ldsCleanupTimeoutS := ldsCleanupTimeoutS a; mdnsName := mdnsName a;
     mdnsCaps := mdnsCaps a; registerWith := registerWith a;
     registerIntervalMs := registerIntervalMs a; pubsubConfig := pubsubConfig a |}.
Definition set_reverseIntervalMs (x : Z) (a : ServerArgs) : ServerArgs :=
  {| fixturePath := fixturePath a; bindAddress := bindAddress a; bindPort := bindPort a;
     advertisedHost := advertisedHost a; advertisedPort := advertisedPort a;
     endpointPath := endpointPath a; pkiDir := pkiDir a; srvCertFile := srvCertFile a;
     srvKeyFile := srvKeyFile a; readyFile := readyFile a;
     readyFileExplicit := readyFileExplicit a; eccDir := eccDir a;
     reverseConnect := reverseConnect a; reverseIntervalMs := x; lds := lds a;
     ldsCleanupTimeoutS := ldsCleanupTimeoutS a; mdnsName := mdnsName a;
     mdnsCaps := mdnsCaps a; registerWith := registerWith a;
     registerIntervalMs := registerIntervalMs a; pubsubConfig := pubsubConfig a |}.
Definition set_ldsCleanupTimeoutS (x : Z) (a : ServerArgs) : ServerArgs :=
  {| fixturePath := fixturePath a; bindAddress := bindAddress a; bindPort := bindPort a;
     advertisedHost := advertisedHost a; advertisedPort := advertisedPort a;
     endpointPath := endpointPath a; pkiDir := pkiDir a; srvCertFile := srvCertFile a;
     srvKeyFile := srvKeyFile a; readyFile := readyFile a;
     readyFileExplicit := readyFileExplicit a; eccDir := eccDir a;
     reverseConnect := reverseConnect a; reverseIntervalMs := reverseIntervalMs a;
     lds := lds a; ldsCleanupTimeoutS := x; mdnsName := mdnsName a;
     mdnsCaps := mdnsCaps a; registerWith := registerWith a;
     registerIntervalMs := registerIntervalMs a; pubsubConfig := pubsubConfig a |}.
Definition set_mdnsName (x : option bytes) (a : ServerArgs) : ServerArgs :=
  {| fixturePath := fixturePath a; bindAddress := bindAddress a; bindPort := bindPort a;
     advertisedHost := advertisedHost a; advertisedPort := advertisedPort a;
     endpointPath := endpointPath a; pkiDir := pkiDir a; srvCertFile := srvCertFile a;
     srvKeyFile := srvKeyFile a; readyFile := readyFile a;
     readyFileExplicit := readyFileExplicit a; eccDir := eccDir a;
     reverseConnect := reverseConnect a; reverseIntervalMs := reverseIntervalMs a;
     lds := lds a; ldsCleanupTimeoutS := ldsCleanupTimeoutS a; mdnsName := x;
     mdnsCaps := mdnsCaps a; registerWith := registerWith a;
     registerIntervalMs := registerIntervalMs a; pubsubConfig := pubsubConfig a |}.
Definition set_mdnsCaps (x : list bytes) (a : ServerArgs) : ServerArgs :=
  {| fixturePath := fixturePath a; bindAddress := bindAddress a; bindPort := bindPort a;
     advertisedHost := advertisedHost a; advertisedPort := advertisedPort a;
     endpointPath := endpointPath a; pkiDir := pkiDir a; srvCertFile := srvCertFile a;
     srvKeyFile := srvKeyFile a; readyFile := readyFile a;
     readyFileExplicit := readyFileExplicit a; eccDir := eccDir a;
     reverseConnect := reverseConnect a; reverseIntervalMs := reverseIntervalMs a;
     lds := lds a; ldsCleanupTimeoutS := ldsCleanupTimeoutS a; mdnsName := mdnsName a;
     mdnsCaps := x; registerWith := registerWith a;
     registerIntervalMs := registerIntervalMs a; pubsubConfig := pubsubConfig a |}.
Definition set_registerWith (x : option bytes) (a : ServerArgs) : ServerArgs :=
  {| fixturePath := fixturePath a; bindAddress := bindAddress a; bindPort := bindPort a;
     advertisedHost := advertisedHost a; advertisedPort := advertisedPort a;
     endpointPath := endpointPath a; pkiDir := pkiDir a; srvCertFile := srvCertFile a;
     srvKeyFile := srvKeyFile a; readyFile := readyFile a;
     readyFileExplicit := readyFileExplicit a; eccDir := eccDir a;
     reverseConnect := reverseConnect a; reverseIntervalMs := reverseIntervalMs a;
     lds := lds a; ldsCleanupTimeoutS := ldsCleanupTimeoutS a; mdnsName := mdnsName a;
     mdnsCaps := mdnsCaps a; registerWith := x;
     registerIntervalMs := registerIntervalMs a; pubsubConfig := pubsubConfig a |}.
Definition set_registerIntervalMs (x : Z) (a : ServerArgs) : ServerArgs :=
  {| fixturePath := fixturePath a; bindAddress := bindAddress a; bindPort := bindPort a;
     advertisedHost := advertisedHost a; advertisedPort := advertisedPort a;
     endpointPath := endpointPath a; pkiDir := pkiDir a; srvCertFile := srvCertFile a;
     srvKeyFile := srvKeyFile a; readyFile := readyFile a;
     readyFileExplicit := readyFileExplicit a; eccDir := eccDir a;
     reverseConnect := reverseConnect a; reverseIntervalMs := reverseIntervalMs a;
     lds := lds a; ldsCleanupTimeoutS := ldsCleanupTimeoutS a; mdnsName := mdnsName a;
     mdnsCaps := mdnsCaps a; registerWith := registerWith a; registerIntervalMs := x;
     pubsubConfig := pubsubConfig a |}.
Definition set_pubsubConfig (x : option bytes) (a : ServerArgs) : ServerArgs :=
  {| fixturePath := fixturePath a; bindAddress := bindAddress a; bindPort := bindPort a;
     advertisedHost := advertisedHost a; advertisedPort := advertisedPort a;
     endpointPath := endpointPath a; pkiDir := pkiDir a; srvCertFile := srvCertFile a;
     srvKeyFile := srvKeyFile a; readyFile := readyFile a;
     readyFileExplicit := readyFileExplicit a; eccDir := eccDir a;
     reverseConnect := reverseConnect a; reverseIntervalMs := reverseIntervalMs a;
     lds := lds a; ldsCleanupTimeoutS := ldsCleanupTimeoutS a; mdnsName := mdnsName a;
     mdnsCaps := mdnsCaps a; registerWith := registerWith a;
     registerIntervalMs := registerIntervalMs a; pubsubConfig := x |}.
Definition set_lds (x : bool) (a : ServerArgs) : ServerArgs :=
  {| fixturePath := fixturePath a; bindAddress := bindAddress a; bindPort := bindPort a;
     advertisedHost := advertisedHost a; advertisedPort := advertisedPort a;
     endpointPath := endpointPath a; pkiDir := pkiDir a; srvCertFile := srvCertFile a;
     srvKeyFile := srvKeyFile a; readyFile := readyFile a;
     readyFileExplicit := readyFileExplicit a; eccDir := eccDir a;
     reverseConnect := reverseConnect a; reverseIntervalMs := reverseIntervalMs a;
     lds := x; ldsCleanupTimeoutS := ldsCleanupTimeoutS a; mdnsName := mdnsName a;
     mdnsCaps := mdnsCaps a; registerWith := registerWith a;
     registerIntervalMs := registerIntervalMs a; pubsubConfig := pubsubConfig a |}.

(** One flag with its value; [None] for an argument that is no such flag. *)
Definition server_flag (flag v : bytes) (a : ServerArgs) : option ServerArgs :=
  if streq flag (B "--fixture") then Some (set_fixturePath (Some v) a)
  else if streq flag (B "--bind-address") then Some (set_bindAddress (Some v) a)
  else if streq flag (B "--bind-port") then Some (set_bindPort (atoi v) a)
  else if streq flag (B "--advertised-host") then Some (set_advertisedHost (Some v) a)
  else if streq flag (B "--advertised-port") then Some (set_advertisedPort (atoi v) a)
  else if streq flag (B "--endpoint-path") then Some (set_endpointPath (Some v) a)
  else if streq flag (B "--pki-dir") then Some (set_pkiDir (Some v) a)
  else if streq flag (B "--certificate") then Some (set_srvCertFile (Some v) a)
  else if streq flag (B "--private-key") then Some (set_srvKeyFile (Some v) a)
  else if streq flag (B "--ready-file") then Some (set_readyFileExplicit (true) (set_readyFile (Some v) a))
  else if streq flag (B "--ecc-dir") then Some (set_eccDir (Some v) a)
  else if streq flag (B "--reverse-connect") then Some (set_reverseConnect (push_max SERVER_MAX_REVERSE (reverseConnect a) v) a)
  else if streq flag (B "--reverse-connect-interval-ms") then Some (set_reverseIntervalMs (atoi v) a)
  else if streq flag (B "--lds-cleanup-timeout") then Some (set_ldsCleanupTimeoutS (atoi v) a)
  else if streq flag (B "--mdns-name") then Some (set_mdnsName (Some v) a)
  else if streq flag (B "--mdns-capability") then Some (set_mdnsCaps (push_max SERVER_MAX_CAPS (mdnsCaps a) v) a)
  else if streq flag (B "--register-with") then Some (set_registerWith (Some v) a)
  else if streq flag (B "--register-interval-ms") then Some (set_registerIntervalMs (atoi v) a)
  else if streq flag (B "--pubsub-config") then Some (set_pubsubConfig (Some v) a)
  else None.

(** The loop over [argv[1..]]: a flag without its value is passed over. *)
Fixpoint server_args_loop (args : list bytes) (a : ServerArgs) : ServerArgs :=
  match args with
  | [] => a
  | x :: r =>
      if streq x (B "--lds") then server_args_loop r (set_lds true a)
      else match r with
           | v :: r' => match server_flag x v a with
                        | Some a' => server_args_loop r' a'
                        | None => server_args_loop r a
                        end
           | [] => a
           end
  end.

(** An environment variable that is set and not empty. *)
Definition env_set (getenv : bytes -> option bytes) (name : string) : option bytes :=
  match getenv (B name) with Some ((_ :: _) as v) => Some v | _ => None end.

Definition server_env (getenv : bytes -> option bytes) : ServerArgs :=
  let str name f a := match env_set getenv name with Some v => f (Some v) a | None => a end in
  let a := str "OPCUA_FIXTURE"%string set_fixturePath server_args_zero in
  let a := str "OPCUA_READY_FILE"%string set_readyFile a in
  let a := str "OPCUA_PKI_DIR"%string set_pkiDir a in
  let a := str "OPCUA_BIND_ADDRESS"%string set_bindAddress a in
  let a := str "OPCUA_ADVERTISED_HOST"%string set_advertisedHost a in
  let a := str "OPCUA_ENDPOINT_PATH"%string set_endpointPath a in
  match env_set getenv "OPCUA_PORT" with Some v => set_bindPort (atoi v) a | None => a end.

Definition server_parse_args (getenv : bytes -> option bytes) (argv : list bytes) (errLen : nat)
    : result ServerArgs :=
  let a := server_args_loop (tl argv) (server_env getenv) in
  let a := if reverseIntervalMs a <=? 0 then set_reverseIntervalMs 1000 a else a in
  let a := if registerIntervalMs a <=? 0 then set_registerIntervalMs 30000 a else a in
  match fixturePath a with
  | Some (_ :: _) => Ok a
  | _ => Err (snprintf errLen (B "missing --fixture (or OPCUA_FIXTURE)"))
  end.

(** * Lemmas *)

Lemma find_arg_skip pre flag r : ~ In flag pre -> r <> [] ->
  find_arg (pre ++ r) flag = find_arg r flag.
Proof.
  induction pre as [|a pre IH]; intros Hn Hr; [reflexivity|].
  cbn [app find_arg]. destruct (pre ++ r) as [|v rest] eqn:E; [now destruct pre|].
  destruct (streq a flag) eqn:Es; [apply streq_eq in Es; subst; exfalso; apply Hn; now left|].
  rewrite <- IH; [reflexivity| |assumption]. intros Hin. apply Hn. now right.
Qed.

Lemma count_flag_cons a argv flag :
  count_flag (a :: argv) flag = ((if streq a flag then 1 else 0) + count_flag argv flag)%nat.
Proof. unfold count_flag. cbn [filter]. now destruct (streq a flag). Qed.

(** The loop writes one slot per flag, except for a flag in the last place. *)
Lemma trust_values_count argv :
  (length (trust_values argv) + (if streq (last argv []) (B "--trust-list") then 1 else 0)
   = count_flag argv (B "--trust-list"))%nat.
Proof.
  induction argv as [|a argv IH]; [reflexivity|]. rewrite count_flag_cons.
  destruct argv as [|v r]; [now cbn; destruct (streq a _)|].
  change (last (a :: v :: r) []) with (last (v :: r) []). cbn [trust_values].
  destruct (streq a (B "--trust-list")); cbn [length] in *; cbn [trust_values] in IH; lia.
Qed.

Lemma trust_array_full argv : streq (last argv []) (B "--trust-list") = false ->
  trust_array argv = map Some (trust_values argv).
Proof.
  intros H. pose proof (trust_values_count argv) as Hc. rewrite H, Nat.add_0_r in Hc.
  unfold trust_array. rewrite <- Hc, firstn_all, firstn_app, length_map, Nat.sub_diag.
  rewrite firstn_O, app_nil_r. apply firstn_all2. rewrite length_map. lia.
Qed.

(** ** server_parse_args *)

Definition args_inv (a : ServerArgs) : Prop :=
  (length (reverseConnect a) <= SERVER_MAX_REVERSE)%nat /\ (length (mdnsCaps a) <= SERVER_MAX_CAPS)%nat.

Lemma push_max_length max l v : (length l <= max)%nat -> (length (push_max max l v) <= max)%nat.
Proof.
  intros H. unfold push_max. destruct (Nat.ltb_spec (length l) max); [|assumption].
  rewrite length_app. cbn. lia.
Qed.

Lemma server_flag_inv flag v a a' : args_inv a -> server_flag flag v a = Some a' -> args_inv a'.
Proof.
  intros [H1 H2]. unfold server_flag.
  repeat match goal with
  | |- (if ?b then _ else _) = _ -> _ => destruct b; [intros H; inversion H; subst; split; cbn;
      auto using push_max_length|]
  end. discriminate.
Qed.

Lemma server_args_loop_inv n : forall args a, (length args <= n)%nat -> args_inv a ->
  args_inv (server_args_loop args a).
Proof.
  induction n as [|n IH]; intros args a Hn Ha; [destruct args; [assumption|cbn in Hn; lia]|].
  destruct args as [|x r]; [assumption|]. cbn [server_args_loop length] in *.
  destruct (streq x (B "--lds")); [apply IH; [lia|exact Ha]|].
  destruct r as [|v r']; [assumption|]. cbn [length] in *.
  destruct (server_flag x v a) as [a'|] eqn:E; [|apply IH; [cbn; lia|assumption]].
  apply IH; [lia|]. eapply server_flag_inv; eauto.
Qed.

Lemma server_env_inv getenv : args_inv (server_env getenv).
Proof.
  unfold server_env. repeat match goal with
  | |- context [env_set getenv ?n] => destruct (env_set getenv n)
  end; split; cbn; lia.
Qed.

Definition is_server_flag (flag : bytes) : bool := is_some (server_flag flag [] server_args_zero).

(** A list of [flag value] assignments. *)
Fixpoint flat_args (l : list (bytes * bytes)) : list bytes :=
  match l with [] => [] | (f, v) :: r => f :: v :: flat_args r end.

Definition assign (a : ServerArgs) (p : bytes * bytes) : ServerArgs :=
  default a (server_flag (fst p) (snd p) a).

Lemma server_flag_known flag v a : is_server_flag flag = true -> is_some (server_flag flag v a) = true.
Proof.
  unfold is_server_flag, server_flag.
  repeat match goal with |- is_some (if ?b then _ else _) = true -> _ => destruct b; [reflexivity|] end.
  discriminate.
Qed.

Lemma lds_is_no_value_flag flag : is_server_flag flag = true -> streq flag (B "--lds") = false.
Proof. intros H. apply streq_neq. intros ->. discriminate. Qed.

Lemma server_args_assign l rest a : forallb (fun p => is_server_flag (fst p)) l = true ->
  server_args_loop (flat_args l ++ rest) a = server_args_loop rest (fold_left assign l a).
Proof.
  revert a. induction l as [|[f v] l IH]; intros a H; [reflexivity|]. cbn [forallb fst] in H. zbool.
  cbn [flat_args app server_args_loop]. rewrite lds_is_no_value_flag by assumption.
  cbn [fold_left]. unfold assign at 2. cbn [fst snd].
  pose proof (server_flag_known f v a H) as Hk.
  destruct (server_flag f v a); [apply IH; assumption|discriminate].
Qed.

(** * Theorems *)

(** The flag lookup every command uses: the value after the first occurrence
    of the flag, whatever follows, and nothing when the flag does not occur
    before the last argument. *)
Lemma find_arg_first pre flag v r :
  ~ In flag pre -> find_arg (pre ++ flag :: v :: r) flag = Some v /\ find_arg (pre ++ [flag]) flag = None.
Proof.
  intros Hn. rewrite !find_arg_skip by (auto; discriminate). cbn [find_arg]. now rewrite streq_refl.
Qed.

(** With the last argument not being a bare [--trust-list], the client's
    trust list is exactly the values after the flags, in order, and as many as
    [trustCount] says: every element of the array has been written. *)
Lemma trust_list_complete argv g : streq (last argv []) (B "--trust-list") = false ->
  (0 < count_flag argv (B "--trust-list"))%nat ->
  trustFiles (parse_security argv g) = map Some (trust_values argv)
  /\ trustCount (parse_security argv g) = length (trust_values argv).
Proof.
  intros H Hc. pose proof (trust_values_count argv) as Hv. rewrite H, Nat.add_0_r in Hv.
  cbn [parse_security trustFiles trustCount]. destruct (Nat.ltb_spec 0 (count_flag argv (B "--trust-list"))); [|lia].
  split; [now apply trust_array_full|now symmetry].
Qed.

(** A [--trust-list] in the last place counts but its slot is never written. *)
Lemma trust_list_unwritten :
  trustFiles (parse_security [B "client"; B "read"; B "--trust-list"] g_sec_default) = [None].
Proof. reflexivity. Qed.

(** Whatever the arguments and the environment, an accepted server command
    line has a fixture path, at most 8 reverse-connect URLs and 8 mDNS
    capabilities, and positive retry and registration intervals. *)
Lemma server_args_bounds getenv argv errLen a : server_parse_args getenv argv errLen = Ok a ->
  args_inv a /\ 0 < reverseIntervalMs a /\ 0 < registerIntervalMs a /\
  exists c r, fixturePath a = Some (c :: r).
Proof.
  unfold server_parse_args. pose proof (server_args_loop_inv (length (tl argv)) (tl argv) (server_env getenv)
    ltac:(lia) (server_env_inv getenv)) as Hi.
  set (a0 := server_args_loop (tl argv) (server_env getenv)) in *. clearbody a0. destruct a0.
  cbn [reverseIntervalMs registerIntervalMs set_reverseIntervalMs].
  destruct (Z.leb_spec reverseIntervalMs0 0); cbn [registerIntervalMs set_reverseIntervalMs];
  destruct (Z.leb_spec registerIntervalMs0 0); cbn [fixturePath set_registerIntervalMs set_reverseIntervalMs];
  (destruct fixturePath0 as [[|c r]|]; intros E; inversion E; subst; clear E);
  (split; [exact Hi|]); cbn; repeat split; try lia; eauto.
Qed.

(** A command line of flag and value pairs is the sequence of these
    assignments over the environment's defaults: a later flag overrides an
    earlier one and the environment. *)
Lemma server_args_override getenv prog l path errLen :
  forallb (fun p => is_server_flag (fst p)) l = true -> path <> [] ->
  exists a, server_parse_args getenv (prog :: flat_args (l ++ [(B "--fixture", path)])) errLen = Ok a
  /\ fixturePath a = Some path
  /\ bindAddress a = bindAddress (fold_left assign l (server_env getenv))
  /\ reverseConnect a = reverseConnect (fold_left assign l (server_env getenv)).
Proof.
  intros Hl Hp. unfold server_parse_args. cbn [tl].
  rewrite <- (app_nil_r (flat_args _)), server_args_assign;
    [|rewrite forallb_app, Hl; reflexivity]. rewrite fold_left_app. cbn [fold_left server_args_loop].
  set (a0 := fold_left assign l (server_env getenv)).
  change (assign a0 (B "--fixture", path)) with (set_fixturePath (Some path) a0).
  destruct path as [|c r]; [congruence|].
  destruct (reverseIntervalMs (set_fixturePath (Some (c :: r)) a0) <=? 0);
  match goal with |- context [registerIntervalMs ?x <=? 0] => destruct (registerIntervalMs x <=? 0) end;
  eexists; repeat split.
Qed.

