(* ===== verification/Capabilities.v ===== *)
(** main.c: [print-capabilities] and the subcommand dispatch of [main].  The
    capability document is the text the program prints, line by line; the two
    build options it depends on are arguments. *)

From Stdlib Require Import String Ascii ZArith Bool List Lia.
Import ListNotations.
From S2P Require Import Prelude CLib Json Args.

(** Printed lines, each ended by a newline. *)
Definition print_lines (l : list string) : bytes := flat_map (fun s => J s ++ [10]) l.

Definition print_pubsub_capabilities : bytes := print_lines
  ["  'pubsub': {";
   "    'supported': true,";
   "    'serverFlag': '--pubsub-config',";
   "    'roles': ['publisher', 'subscriber'],";
   "    'transports': ['udp-uadp', 'mqtt-uadp', 'mqtt-json'],";
   "    'transportProfiles': [";
   "      'http://opcfoundation.org/UA-Profile/Transport/pubsub-udp-uadp',";
   "      'http://opcfoundation.org/UA-Profile/Transport/pubsub-mqtt-uadp',";
   "      'http://opcfoundation.org/UA-Profile/Transport/pubsub-mqtt-json'";
   "    ],";
   "    'udp': {'unicast': true, 'multicast': true},";
   "    'encodings': ['uadp', 'json'],";
   "    'fieldEncodings': ['Variant', 'DataValue', 'RawData'],";
   "    'dataSetMessageTypes': {'uadp': ['KeyFrame', 'DeltaFrame', 'KeepAlive'], 'json': ['KeyFrame']},";
   "    'publishedDataSets': ['PublishedDataItems'],";
   "    'subscribedDataSets': ['TargetVariables'],";
   "    'securityPolicies': [";
   "      'http://opcfoundation.org/UA/SecurityPolicy#PubSub-Aes128-CTR',";
   "      'http://opcfoundation.org/UA/SecurityPolicy#PubSub-Aes256-CTR'";
   "    ],";
   "    'securityModes': ['None', 'Sign', 'SignAndEncrypt'],";
   "    'securityEncodings': ['uadp'],";
   "    'keySources': ['static', 'sks-pull', 'sks-push', 'sks-server'],";
   "    'sks': {'server': true, 'pull': true, 'push': true,";
   "            'methods': ['GetSecurityKeys', 'SetSecurityKeys', 'AddSecurityGroup', 'RemoveSecurityGroup']},";
   "    'informationModel': true,";
   "    'informationModelMethods': [";
   "      'AddConnection', 'RemoveConnection', 'AddWriterGroup', 'AddReaderGroup', 'RemoveGroup',";
   "      'AddDataSetWriter', 'RemoveDataSetWriter', 'AddDataSetReader', 'RemoveDataSetReader',";
   "      'AddPublishedDataItems', 'RemovePublishedDataSet', 'AddDataSetFolder', 'RemoveDataSetFolder',";
   "      'ReserveIds', 'Enable', 'Disable',";
   "      'GetSecurityKeys', 'SetSecurityKeys', 'AddSecurityGroup', 'RemoveSecurityGroup'";
   "    ],";
   "    'codecOps': ['pubsub-uadp-encode', 'pubsub-uadp-decode', 'pubsub-json-encode', 'pubsub-json-decode'],";
   "    'codecSecurity': false";
   "  },"]%string.

(** The operations listed under [clientOperations]. *)
Definition client_operations : list string :=
  ["endpoints"; "find-servers"; "read"; "write"; "browse"; "translate"; "call"; "subscribe"; "subscription-lifecycle"; "event-subscribe"; "alarms"; "history-read"; "history-read-events"; "history-update-events"; "republish"; "transfer-subscriptions"; "register-nodes"; "node-management"; "find-servers-on-network"; "register-server"; "codec"; "push"; "gds-pull"]%string.

Fixpoint operation_lines (l : list string) : bytes :=
  match l with
  | [] => []
  | [s] => J "    '" ++ B s ++ J "'" ++ [10]
  | s :: r => J "    '" ++ B s ++ J "'," ++ [10] ++ operation_lines r
  end.

(** [alarms]: UA_ENABLE_SUBSCRIPTIONS_ALARMS_CONDITIONS; [push]:
    UA_ENABLE_GDS_PUSHMANAGEMENT. *)
Definition cmd_print_capabilities (alarms push : bool) : bytes :=
  print_lines
  ["{";
   "  'schemaVersion': '1.0',";
   "  'adapter': {'name': 'open62541', 'version': '0.19.0'},";
   "  'stack': {'name': 'open62541', 'version': '1.5.9'},";
   "  'fixtureSchemaVersions': ['1.0'],";
   "  'roles': ['client', 'server'],";
   "  'transports': ['opc.tcp'],";
   "  'encodings': ['binary'],";
   "  'clientOperations': ["]%string
  ++ operation_lines client_operations
  ++ print_lines
  ["  ],";
   "  'clientFeatures': [";
   "    'channel-lifetime',";
   "    'deadband',";
   "    'reverse-listen',";
   "    'ecc-security',";
   "    'ecc-user-token',";
   "    'application-uri',";
   "    'register-server2',";
   "    'codec-json',";
   "    'codec-xml',";
   "    'codec-pubsub',";
   "    'push-groups',";
   "    'push-certificates',";
   "    'push-transaction-diagnostics'";
   "  ],";
   "  'serverFeatures': [";
   "    'deadband',";
   "    'percent-deadband',";
   "    'reverse-connect',";
   "    'ecc-security',";
   "    'ecc-user-token',";
   "    'lds',";
   "    'mdns',";
   "    'node-management',";
   "    'pubsub',"]%string
  ++ (if alarms then print_lines ["    'alarms',"]%string else [])
  ++ (if push then print_lines ["    'push-management',"]%string else [])
  ++ print_lines
  ["    'register-with'";
   "  ],";
   "  'codec': {";
   "    'formats': ['json', 'xml'],";
   "    'jsonVersion': '1.05',";
   "    'jsonModes': ['compact'],";
   "    'xmlEncodeUnsupported': ['DataValue', 'DiagnosticInfo', 'Matrix'],";
   "    'xmlDecodeUnsupported': ['DataValue', 'DiagnosticInfo', 'XmlElement']";
   "  },"]%string
  ++ print_pubsub_capabilities
  ++ print_lines
  ["  'serverServices': [";
   "    'GetEndpoints',";
   "    'CreateSession',";
   "    'Browse',";
   "    'Read',";
   "    'Write',";
   "    'Call',";
   "    'CreateSubscription',";
   "    'CreateMonitoredItems',";
   "    'Publish',";
   "    'SetPublishingMode',";
   "    'SetMonitoringMode',";
   "    'DeleteMonitoredItems',";
   "    'DeleteSubscriptions',";
   "    'HistoryRead',";
   "    'Republish',";
   "    'TransferSubscriptions',";
   "    'FindServers',";
   "    'FindServersOnNetwork',";
   "    'RegisterServer',";
   "    'RegisterServer2'";
   "  ],";
   "  'securityProfiles': [";
   "    {'policy': 'None',                  'mode': 'None'},";
   "    {'policy': 'Basic256Sha256',        'mode': 'Sign'},";
   "    {'policy': 'Basic256Sha256',        'mode': 'SignAndEncrypt'},";
   "    {'policy': 'Aes128_Sha256_RsaOaep', 'mode': 'SignAndEncrypt'},";
   "    {'policy': 'Aes256_Sha256_RsaPss',  'mode': 'SignAndEncrypt'},";
   "    {'policy': 'ECC_nistP256',            'mode': 'Sign'},";
   "    {'policy': 'ECC_nistP256',            'mode': 'SignAndEncrypt'},";
   "    {'policy': 'ECC_nistP384',            'mode': 'Sign'},";
   "    {'policy': 'ECC_nistP384',            'mode': 'SignAndEncrypt'},";
   "    {'policy': 'ECC_brainpoolP256r1',     'mode': 'SignAndEncrypt'},";
   "    {'policy': 'ECC_brainpoolP384r1',     'mode': 'SignAndEncrypt'},";
   "    {'policy': 'ECC_curve25519',          'mode': 'SignAndEncrypt'},";
   "    {'policy': 'ECC_curve448',            'mode': 'SignAndEncrypt'},";
   "    {'policy': 'ECC_nistP256_AesGcm',     'mode': 'SignAndEncrypt'},";
   "    {'policy': 'ECC_nistP256_ChaChaPoly', 'mode': 'SignAndEncrypt'}";
   "  ],";
   "  'userTokenTypes': ['Anonymous', 'UserName']";
   "}"]%string.

(** * main *)

Inductive subcommand := SubServer | SubClient | SubValidateFixture | SubPrintCapabilities | SubTest.

(** The subcommand and its arguments, or the exit code of a usage error. *)
Definition main (argv : list bytes) : subcommand * list bytes + Z :=
  match argv with
  | _ :: ((cmd :: rest) as tail) =>
      if streq cmd (B "server") then inl (SubServer, tail)
      else if streq cmd (B "client") then inl (SubClient, tail)
      else if streq cmd (B "validate-fixture") then inl (SubValidateFixture, rest)
      else if streq cmd (B "print-capabilities") then inl (SubPrintCapabilities, [])
      else if streq cmd (B "test") then inl (SubTest, rest)
      else inr 1
  | _ => inr 1
  end.
