(* ===== verification/NodeIds.v ===== *)
(** NodeId texts of the command line and of the fixture: client.c
    ([validate_nodeid_structure], [parse_nodeid_local], [resolve_nsu_nodeid],
    [parse_guid_string]) and server.c ([parse_nodeid], [resolve_nodeid],
    [parse_guid], [parse_qualified_name], [parse_localized_text],
    [ref_type_id], [data_type_for_name]).  The theorems compare them with the
    parser of values.c on the texts the client prints. *)

From Stdlib Require Import String Ascii ZArith Bool List Lia.
Import ListNotations.
From S2P Require Import Prelude CLib Json UaTypes RefStack Base64 Output CJson Values.
From S2P Require Import RoundTrip.

(** * client.c *)

Definition parse_guid_string (s : bytes) : option ua_guid :=
  do g <- scan_guid s;
  let '(d1, d2, d3, b) := g in
  Some {| data1 := u32 d1; data2 := u16 d2; data3 := u16 d3; data4 := map u8 b |}.

Definition all_digits (s : bytes) : bool := forallb isdigit s.

(** [s=], [i=], [g=] or [b=] at the front. *)
Definition has_ident (s : bytes) : bool :=
  is_some (strip (B "s=") s) || is_some (strip (B "i=") s)
  || is_some (strip (B "g=") s) || is_some (strip (B "b=") s).

Definition validate_nodeid_structure (s : bytes) : bool :=
  match strip (B "i=") s with
  | Some rest => match rest with [] => false | _ => all_digits rest end
  | None =>
  match strip (B "ns=") s with
  | Some r => match strchr 59 r with Some (_, id) => has_ident id | None => false end
  | None =>
  match strip (B "nsu=") s with
  | Some r => match strchr 59 r with Some (_, id) => has_ident id | None => false end
  | None => false
  end end end.

(** The identifier after the namespace: [None] where the code gives up. *)
Definition client_ident (ns : Z) (id : bytes) : option ua_nodeid :=
  let node i := Some {| namespaceIndex := ns; identifier := i |} in
  match strip (B "s=") id with
  | Some r => node (IdString (Some r))
  | None =>
  match strip (B "i=") id with
  | Some r => node (IdNumeric (u32 (atoi r)))
  | None =>
  match strip (B "g=") id with
  | Some r => do g <- parse_guid_string r; node (IdGuid g)
  | None =>
  match strip (B "b=") id with
  | Some r => do d <- client_b64_decode r; node (IdByteString (Some d))
  | None => None
  end end end end.

Definition parse_nodeid_local (s : bytes) : ua_nodeid :=
  match strip (B "i=") s with
  | Some r => UA_NODEID_NUMERIC 0 (u32 (atoi r))
  | None =>
  match strip (B "ns=") s with
  | Some r =>
      match strchr 59 r with
      | Some (_, id) => default UA_NODEID_NULL (client_ident (u16 (atoi r)) id)
      | None => UA_NODEID_NULL
      end
  | None => UA_NODEID_NULL
  end end.

(** Return codes of [resolve_nsu_nodeid]: 0 with the NodeId, -1, -2. *)
Inductive nsu_result := NsuOk (n : ua_nodeid) | NsuUnknownUri | NsuError.

(** [getIndex]: UA_Client_NamespaceGetIndex, [None] for a status other than Good. *)
Definition resolve_nsu_nodeid (getIndex : bytes -> option Z) (s : bytes) : nsu_result :=
  match strip (B "nsu=") s with
  | None => NsuError
  | Some r =>
      match strchr 59 r with
      | None => NsuError
      | Some (uri, id) =>
          match getIndex uri with
          | None => NsuUnknownUri
          | Some ns => match client_ident ns id with Some n => NsuOk n | None => NsuError end
          end
      end
  end.

(** * server.c *)

(** [s=] or [i=] after the semicolon. *)
Definition server_ident (ns : Z) (id : bytes) : ua_nodeid :=
  match strip (B "s=") id with
  | Some r => {| namespaceIndex := ns; identifier := IdString (Some r) |}
  | None =>
  match strip (B "i=") id with
  | Some r => UA_NODEID_NUMERIC ns (u32 (atoi r))
  | None => UA_NODEID_NULL
  end end.

Definition server_parse_nodeid (s : bytes) (nsuIndex : Z) : ua_nodeid :=
  match strip (B "nsu=") s with
  | Some _ => match strchr 59 s with
              | Some (_, id) => server_ident nsuIndex id
              | None => UA_NODEID_NULL
              end
  | None =>
  match strip (B "ns=") s with
  | Some r => match strchr 59 s with
              | Some (_, id) => server_ident (u16 (atoi r)) id
              | None => UA_NODEID_NULL
              end
  | None =>
  match strip (B "i=") s with
  | Some r => UA_NODEID_NUMERIC 0 (u32 (atoi r))
  | None => UA_NODEID_NULL
  end end end.

(** [addNamespace]: UA_Server_addNamespace, the index of the URI. *)
Definition resolve_nodeid (addNamespace : bytes -> Z) (s : bytes) : ua_nodeid :=
  match strip (B "nsu=") s with
  | Some r => match strchr 59 r with
              | Some (uri, _) => server_parse_nodeid s (u16 (addNamespace uri))
              | None => UA_NODEID_NULL
              end
  | None => server_parse_nodeid s 0
  end.

Definition zero_guid : ua_guid := {| data1 := 0; data2 := 0; data3 := 0; data4 := repeat 0 8 |}.

Definition server_parse_guid (s : bytes) : ua_guid := default zero_guid (parse_guid_string s).

Definition parse_qualified_name (s : option bytes) : Z * ua_string :=
  match s with
  | None => (0, None)
  | Some s => match strchr 58 s with
              | Some (_, name) => (u16 (atoi s), Some name)
              | None => (0, Some s)
              end
  end.

Definition parse_localized_text (s : option bytes) : ua_string * ua_string :=
  match s with
  | None => (Some [], Some [])
  | Some s => match strchr 58 s with
              | Some (loc, text) => (Some loc, Some text)
              | None => (Some [], Some s)
              end
  end.

(** Numeric identifiers of the standard reference types (Part 6, NodeIds.csv). *)
Definition ref_types : list (bytes * Z) :=
  [(B "Organizes", 35); (B "HasComponent", 47); (B "HasProperty", 46); (B "HasSubtype", 45);
   (B "HasTypeDefinition", 40); (B "HasModellingRule", 37); (B "HasEncoding", 38);
   (B "Aggregates", 44)].

Definition ref_type_id (name : option bytes) : ua_nodeid :=
  match name with
  | None => UA_NODEID_NUMERIC 0 35
  | Some n => match find (fun p => streq n (fst p)) ref_types with
              | Some p => UA_NODEID_NUMERIC 0 (snd p)
              | None => UA_NODEID_NUMERIC 0 35
              end
  end.

(** The names server.c knows; any other name is a Variant. *)
Definition server_types : list (bytes * ua_type) :=
  [(B "Boolean", TBoolean); (B "SByte", TSByte); (B "Byte", TByte); (B "Int16", TInt16);
   (B "UInt16", TUInt16); (B "Int32", TInt32); (B "UInt32", TUInt32); (B "Int64", TInt64);
   (B "UInt64", TUInt64); (B "Float", TFloat); (B "Double", TDouble); (B "String", TString);
   (B "DateTime", TDateTime); (B "Guid", TGuid); (B "ByteString", TByteString);
   (B "XmlElement", TXmlElement); (B "NodeId", TNodeId); (B "ExpandedNodeId", TExpandedNodeId);
   (B "QualifiedName", TQualifiedName); (B "LocalizedText", TLocalizedText);
   (B "StatusCode", TStatusCode)].

Definition data_type_for_name (name : option bytes) : ua_type :=
  match name with
  | None => TVariant
  | Some n => match find (fun p => streq n (fst p)) server_types with
              | Some p => snd p
              | None => TVariant
              end
  end.

(** * Lemmas *)

Lemma u16_s32 n : 0 <= n < 2 ^ 16 -> u16 (s32 n) = n.
Proof.
  intros Hn. unfold s32. rewrite swrap_small by lia. unfold u16. now apply uwrap_small.
Qed.

Lemma digits_no_semicolon n : 0 <= n -> ~ In 59 (fmt_u n).
Proof.
  intros Hn Hin. pose proof (fmt_u_digits n Hn) as Hd. rewrite Forall_forall in Hd.
  specialize (Hd 59 Hin). discriminate.
Qed.

Lemma strchr_index n r : 0 <= n -> strchr 59 (fmt_u n ++ B ";" ++ r) = Some (fmt_u n, r).
Proof. intros Hn. apply (strchr_app 59 (fmt_u n) r). now apply digits_no_semicolon. Qed.

Lemma parse_guid_string_text g : range_guid_b g = true -> parse_guid_string (guid_text g) = Some g.
Proof.
  intros H. pose proof (parse_guid_text g H) as E. unfold parse_guid in E.
  rewrite guid_text_length in E by assumption. exact E.
Qed.

Lemma client_ident_text n : literal_nodeid n = true -> client_ident (namespaceIndex n) (ident_text n) = Some n.
Proof.
  unfold literal_nodeid, range_nodeid, ident_text, client_ident. intros H. zbool.
  destruct n as [ns id]. cbn [namespaceIndex identifier] in *.
  destruct id as [i|s|g|s|]; try discriminate.
  - change (strip (B "s=") (B "i=" ++ fmt_u i)) with (@None bytes). rewrite strip_app.
    unfold in_range in *. zbool.
    rewrite <- (app_nil_r (fmt_u i)), atoi_fmt by (auto; lia). now rewrite u32_s32 by lia.
  - destruct s as [s|]; [|discriminate]. now rewrite strip_app.
  - change (strip (B "s=") (B "g=" ++ guid_text g)) with (@None bytes).
    change (strip (B "i=") (B "g=" ++ guid_text g)) with (@None bytes).
    rewrite strip_app, parse_guid_string_text; [reflexivity|assumption].
  - destruct s as [s|]; [|discriminate]. cbn [default].
    change (strip (B "s=") (B "b=" ++ value_b64_encode s)) with (@None bytes).
    change (strip (B "i=") (B "b=" ++ value_b64_encode s)) with (@None bytes).
    change (strip (B "g=") (B "b=" ++ value_b64_encode s)) with (@None bytes).
    rewrite strip_app, client_decode_eq, decode_encode; [reflexivity|]. now apply forallb_Bytes.
Qed.

Lemma has_ident_text n : literal_nodeid n = true -> has_ident (ident_text n) = true.
Proof.
  intros H. unfold has_ident, ident_text. destruct (identifier n) eqn:E; rewrite ?strip_app; cbn;
    rewrite ?orb_true_r; try reflexivity.
  unfold literal_nodeid, range_nodeid in H. rewrite E in H. zbool. discriminate.
Qed.

Lemma all_digits_fmt n : 0 <= n -> all_digits (fmt_u n) = true /\ fmt_u n <> [].
Proof.
  intros Hn. split; [|apply fmt_u_nonnil]. apply forallb_forall. pose proof (fmt_u_digits n Hn) as H.
  now rewrite Forall_forall in H.
Qed.

(** The two shapes of a printed NodeId. *)
Lemma nodeid_text_cases n : literal_nodeid n = true ->
  (exists i, identifier n = IdNumeric i /\ namespaceIndex n = 0 /\ 0 <= i < 2 ^ 32 /\
     nodeid_text n = B "i=" ++ fmt_u i) \/
  nodeid_text n = B "ns=" ++ fmt_u (namespaceIndex n) ++ B ";" ++ ident_text n.
Proof.
  intros H. unfold nodeid_text, ident_text.
  destruct (identifier n) as [i|s|g|s|] eqn:E; try (now right).
  destruct (Z.eqb_spec (namespaceIndex n) 0); [left|now right].
  exists i. repeat split; try assumption; unfold literal_nodeid, range_nodeid, in_range in H;
    rewrite E in H; zbool; lia.
Qed.

Lemma client_reads_text n : literal_nodeid n = true ->
  validate_nodeid_structure (nodeid_text n) = true /\ parse_nodeid_local (nodeid_text n) = n.
Proof.
  intros H. pose proof (literal_ns n H) as Hns.
  destruct (nodeid_text_cases n H) as [(i & E & E0 & Hi & ->) | ->].
  - unfold validate_nodeid_structure, parse_nodeid_local. rewrite strip_app.
    destruct (all_digits_fmt i) as [Hd Hne]; [lia|]. split.
    + destruct (fmt_u i); [congruence|assumption].
    + rewrite <- (app_nil_r (fmt_u i)), atoi_fmt, u32_s32 by (auto; lia).
      destruct n; cbn in *; subst; reflexivity.
  - unfold validate_nodeid_structure, parse_nodeid_local.
    change (strip (B "i=") (B "ns=" ++ fmt_u (namespaceIndex n) ++ B ";" ++ ident_text n))
      with (@None bytes).
    rewrite strip_app, strchr_index by lia. split; [now apply has_ident_text|].
    rewrite atoi_fmt, u16_s32, client_ident_text by (auto; lia). reflexivity.
Qed.

(** The identifier types a fixture can name. *)
Definition fixture_ident (n : ua_nodeid) : bool :=
  match identifier n with IdNumeric _ | IdString _ => true | _ => false end.

Lemma server_ident_text n : literal_nodeid n = true -> fixture_ident n = true ->
  server_ident (namespaceIndex n) (ident_text n) = n.
Proof.
  intros H Hf. pose proof (client_ident_text n H) as Hc. unfold client_ident in Hc. unfold server_ident.
  unfold fixture_ident in Hf. destruct (strip (B "s=") (ident_text n)); [now inversion Hc|].
  destruct (strip (B "i=") (ident_text n)) eqn:E; [now inversion Hc|].
  unfold ident_text in *. destruct (identifier n); try discriminate.
Qed.

Lemma server_reads_text n addNamespace : literal_nodeid n = true -> fixture_ident n = true ->
  resolve_nodeid addNamespace (nodeid_text n) = n.
Proof.
  intros H Hf. pose proof (literal_ns n H) as Hns.
  destruct (nodeid_text_cases n H) as [(i & E & E0 & Hi & ->) | ->].
  - unfold resolve_nodeid, server_parse_nodeid.
    change (strip (B "nsu=") (B "i=" ++ fmt_u i)) with (@None bytes).
    change (strip (B "ns=") (B "i=" ++ fmt_u i)) with (@None bytes). rewrite strip_app.
    rewrite <- (app_nil_r (fmt_u i)), atoi_fmt, u32_s32 by (auto; lia).
    destruct n; cbn in *; subst; reflexivity.
  - unfold resolve_nodeid, server_parse_nodeid. set (r := fmt_u (namespaceIndex n) ++ B ";" ++ ident_text n).
    change (strip (B "nsu=") (B "ns=" ++ r)) with (@None bytes). rewrite strip_app.
    assert (strchr 59 (B "ns=" ++ r) = Some (B "ns=" ++ fmt_u (namespaceIndex n), ident_text n)) as ->.
    { unfold r. rewrite app_assoc. change (B ";" ++ ident_text n) with (59 :: ident_text n).
      apply strchr_app. rewrite in_app_iff. intros [Hin|Hin];
        [cbn in Hin; lia|now apply (digits_no_semicolon (namespaceIndex n)) in Hin]. }
    unfold r. rewrite atoi_fmt, u16_s32 by (auto; lia). now apply server_ident_text.
Qed.

(** * Theorems *)

(** C36: on the NodeId texts the client prints (of NodeIds in range, not null, without
    control characters), the two parsers of the client agree: the command line accepts
    the text and parses it to the printed NodeId, as values.c does; the parser of the
    server agrees on the numeric and string identifiers a fixture uses (it has none for
    Guids and opaque identifiers). *)
Theorem nodeid_parsers_agree n addNamespace : literal_nodeid n = true ->
  validate_nodeid_structure (nodeid_text n) = true /\
  parse_nodeid_local (nodeid_text n) = n /\
  Values.parse_nodeid (nodeid_text n) = Some n /\
  (fixture_ident n = true -> resolve_nodeid addNamespace (nodeid_text n) = n).
Proof.
  intros H. destruct (client_reads_text n H) as [H1 H2].
  split; [assumption|]. split; [assumption|]. split; [now apply parse_nodeid_text|].
  now apply server_reads_text.
Qed.

Lemma nodeid_parsers_agree_witness :
  parse_nodeid_local (B "ns=3;s=Static.Int32") =
  {| namespaceIndex := 3; identifier := IdString (Some (B "Static.Int32")) |}.
Proof.
  exact (proj1 (proj2 (nodeid_parsers_agree
    {| namespaceIndex := 3; identifier := IdString (Some (B "Static.Int32")) |} (fun _ => 0) eq_refl))).
Defined.

(** A [nsu=] NodeId is the identifier in the namespace the server reports for
    its URI, an unknown URI is told apart from a malformed identifier, and the
    server resolves the same text to the same NodeId. *)
Lemma nsu_resolution n uri getIndex addNamespace :
  literal_nodeid n = true -> forallb (fun c => negb (c =? 59)) uri = true ->
  let s := B "nsu=" ++ uri ++ B ";" ++ ident_text n in
  validate_nodeid_structure s = true /\
  (getIndex uri = Some (namespaceIndex n) -> resolve_nsu_nodeid getIndex s = NsuOk n) /\
  (getIndex uri = None -> resolve_nsu_nodeid getIndex s = NsuUnknownUri) /\
  (fixture_ident n = true -> u16 (addNamespace uri) = namespaceIndex n ->
   resolve_nodeid addNamespace s = n).
Proof.
  intros H Hu s.
  assert (~ In 59 uri) as Hn by (intros Hin; rewrite forallb_forall in Hu; specialize (Hu 59 Hin); discriminate).
  assert (strchr 59 (uri ++ B ";" ++ ident_text n) = Some (uri, ident_text n)) as Hs
    by now apply (strchr_app 59 uri (ident_text n)).
  repeat split.
  - unfold validate_nodeid_structure, s.
    change (strip (B "i=") (B "nsu=" ++ uri ++ B ";" ++ ident_text n)) with (@None bytes).
    change (strip (B "ns=") (B "nsu=" ++ uri ++ B ";" ++ ident_text n)) with (@None bytes).
    rewrite strip_app, Hs. now apply has_ident_text.
  - intros E. unfold resolve_nsu_nodeid, s. rewrite strip_app, Hs, E, client_ident_text by assumption.
    reflexivity.
  - intros E. unfold resolve_nsu_nodeid, s. now rewrite strip_app, Hs, E.
  - intros Hf E. unfold resolve_nodeid, server_parse_nodeid, s. rewrite strip_app, Hs, E.
    assert (strchr 59 (B "nsu=" ++ uri ++ B ";" ++ ident_text n) = Some (B "nsu=" ++ uri, ident_text n)) as ->.
    { rewrite app_assoc. change (B ";" ++ ident_text n) with (59 :: ident_text n). apply strchr_app.
      rewrite in_app_iff. intros [Hin|Hin]; [cbn in Hin; lia|tauto]. }
    now apply server_ident_text.
Qed.

