(* ===== verification/Connect.v ===== *)
(** client.c: how a command obtains its client.  [endpoint_check_security],
    [policy_array_add_ecc], [make_client_unconnected], [reverse_connect],
    [reverse_check_server_uri] and [make_client], for the build with encryption.
    The network, the clock and the files are the state [W] of the class
    [ClientLib]; a failing function returns the envelope it printed and the exit
    code. *)

From Stdlib Require Import String Ascii ZArith Bool List Lia.
Import ListNotations.
From S2P Require Import Prelude CLib Certificates Json UaTypes RefStack Output Args.

(** * The client library *)

Record ua_endpoint := { ep_url : ua_string; ep_policyUri : ua_string; ep_mode : security_mode }.

(** The fields of UA_ClientConfig the adapter sets. *)
Record client_config := {
  cfg_securityPolicyUri : bytes; cfg_securityMode : security_mode;
  cfg_securityPolicies : list bytes; cfg_authPolicies : list bytes;
  cfg_timeout : option Z; cfg_channelLifeTime : option Z; cfg_applicationUri : option bytes;
  cfg_user : option (bytes * bytes); cfg_allowNonePassword : bool }.

Inductive channel_state := ChClosed | ChReverseListening | ChOpen | ChOther.
Inductive session_state := SsActivated | SsOther.

Class ClientLib (W : Type) := {
  Client_new : W -> W * bool;
  Client_getEndpoints : W -> bytes -> W * (Z * list ua_endpoint);
  Client_connect : W -> client_config -> bytes -> W * Z;
  Client_disconnect : W -> W;
  Client_readServerArray : W -> W * (Z * list ua_string);
  Client_run_iterate : W -> Z -> W;
  Client_getState : W -> channel_state * session_state * Z;
  (** UA_Client_startListeningForReverseConnect with [noReconnect] and [tcpReuseAddr]
      set; the flag is [noSession] *)
  Client_startListening : W -> client_config -> bool -> Z -> W * Z;
  mono_ms : W -> W * Z;
  (** a readable file's bytes *)
  file_bytes : W -> bytes -> option bytes;
  (** OpenSSL on certificate files *)
  x509_names : CertificateNames;
  (** UA_ClientConfig_setDefaultEncryption: status and the policies it installs *)
  setDefaultEncryption : ua_string -> ua_string -> list ua_string -> Z * list bytes * list bytes;
  decryptPrivateKey : ua_string -> Z * ua_string;
  (** the constructor of an ECC policy, by its name *)
  ecc_ctor : bytes -> ua_string -> ua_string -> Z
}.

(** * Policies *)

Definition load_cert_file {W} {L : ClientLib W} (w : W) (path : option bytes) : ua_string :=
  match path with
  | None | Some [] => None
  | Some p => match file_bytes w p with Some ((_ :: _) as d) => Some d | _ => None end
  end.

(** The names [ecc_policy_ctor] has a constructor for. *)
Definition ecc_names : list bytes :=
  map (fun n => B n) ["ECC_nistP256"; "ECC_nistP384"; "ECC_brainpoolP256r1"; "ECC_brainpoolP384r1";
    "ECC_curve25519"; "ECC_curve448"; "ECC_nistP256_AesGcm"; "ECC_nistP256_ChaChaPoly"]%string.

Definition ecc_policy_ctor (name : bytes) : bool := existsb (streq name) ecc_names.

Definition policy_array_has (arr : list bytes) (uri : bytes) : bool := existsb (fun u => streq u uri) arr.

Definition policy_array_add_ecc {W} {L : ClientLib W} (arr : list bytes) (name : bytes)
    (cert key : ua_string) : list bytes * Z :=
  if negb (ecc_policy_ctor name) then (arr, UA_STATUSCODE_GOOD)
  else if policy_array_has arr (security_policy_uri name) then (arr, UA_STATUSCODE_GOOD)
  else let sc := ecc_ctor name cert key in
       (if sc =? UA_STATUSCODE_GOOD then arr ++ [security_policy_uri name] else arr, sc).

Definition security_is_none (g : ClientSecurity) : bool :=
  match security_mode_enum (modeName g) with ModeNone => true | _ => false end.

Definition mode_eqb (a b : security_mode) : bool :=
  match a, b with
  | ModeInvalid, ModeInvalid | ModeNone, ModeNone | ModeSign, ModeSign | ModeSignAndEncrypt, ModeSignAndEncrypt => true
  | _, _ => false
  end.

(** * endpoint_check_security *)

Definition endpoint_matches (g : ClientSecurity) (e : ua_endpoint) : bool :=
  mode_eqb (ep_mode e) (security_mode_enum (modeName g))
  && streq (default [] (ep_policyUri e)) (security_policy_uri (policyName g)).

Section Connect.
Context {stack : UaStack} {W : Type} {L : ClientLib W}.

(** The result of GetEndpoints, retried once when the channel was closed. *)
Definition get_endpoints_retry (w : W) (url : bytes) : W * (Z * list ua_endpoint) :=
  let '(w, (sc, eps)) := Client_getEndpoints w url in
  if (sc =? UA_STATUSCODE_BADSECURECHANNELCLOSED) || (sc =? UA_STATUSCODE_BADSECURECHANNELIDINVALID)
  then let '(w, ok) := Client_new w in
       if ok then Client_getEndpoints w url else (w, (UA_STATUSCODE_BADOUTOFMEMORY, []))
  else (w, (sc, eps)).

(** The [found] result and [*out_sc]. *)
Definition endpoint_check_security (w : W) (g : ClientSecurity) (url : bytes) : W * (bool * Z) :=
  let '(w, ok) := Client_new w in
  if negb ok then (w, (false, UA_STATUSCODE_BADOUTOFMEMORY))
  else
    let '(w, (sc, eps)) := get_endpoints_retry w url in
    if negb (sc =? UA_STATUSCODE_GOOD) then (w, (false, sc))
    else (w, (existsb (endpoint_matches g) eps, sc)).

(** * make_client_unconnected *)

(** The exit code and what was printed. *)
Record failure := { f_exit : Z; f_out : bytes }.

Definition fail (op : bytes) (exit sc : Z) (category message : bytes) : failure :=
  {| f_exit := exit; f_out := cli_emit_failure op sc category message |}.

Definition ecc_error : bytes :=
  B "the certificate / private key cannot be used with the requested ECC security policy (curve mismatch?)".

(** The security part of the configuration. *)
Definition security_config (w : W) (g : ClientSecurity) (op : bytes)
    : result (list bytes * list bytes) * Z :=
  let cert := load_cert_file w (certFile g) in
  let key := load_cert_file w (keyFile g) in
  let trust := map (fun f => load_cert_file w f) (trustFiles g) in
  let '(sc, pols, auth) := setDefaultEncryption cert key trust in
  if negb (sc =? UA_STATUSCODE_GOOD) then (Err (B "UA_ClientConfig_setDefaultEncryption failed"), sc)
  else if negb (ecc_policy_ctor (policyName g)) then (Ok (pols, auth), UA_STATUSCODE_GOOD)
  else
    let '(sc, der) := decryptPrivateKey key in
    if negb (sc =? UA_STATUSCODE_GOOD) then (Err ecc_error, sc)
    else
      let '(pols, sc) := policy_array_add_ecc pols (policyName g) cert der in
      if negb (sc =? UA_STATUSCODE_GOOD) then (Err ecc_error, sc)
      else
        let '(auth, sc) := policy_array_add_ecc auth (policyName g) cert der in
        if negb (sc =? UA_STATUSCODE_GOOD) then (Err ecc_error, sc) else (Ok (pols, auth), sc).

(** Lifetimes, application URI and identity. *)
Definition finish_config (w : W) (g : ClientSecurity) (request_ms : Z) (uri : bytes)
    (mode : security_mode) (pols auth : list bytes) : client_config :=
  let appUri := match applicationUri g with
                | Some u => Some u
                | None => if security_is_none g then None else certificate_san_uri (x509_names (W := W)) (file_bytes w) (certFile g)
                end in
  {| cfg_securityPolicyUri := uri; cfg_securityMode := mode;
     cfg_securityPolicies := pols; cfg_authPolicies := auth;
     cfg_timeout := if 0 <? request_ms then Some (u32 request_ms) else None;
     cfg_channelLifeTime := if 0 <? channelLifetimeMs g then Some (u32 (channelLifetimeMs g)) else None;
     cfg_applicationUri := match appUri with Some ((_ :: _) as u) => Some u | _ => None end;
     cfg_user := option_map (fun u => (u, default [] (password g))) (username g);
     cfg_allowNonePassword := security_is_none g && is_some (username g) |}.

Definition make_client_unconnected (w : W) (g : ClientSecurity) (url : bytes) (request_ms : Z)
    (op : bytes) : W * (client_config + failure) :=
  if negb (security_policy_known (Some (policyName g))) then
    (w, inr (fail op 2 UA_STATUSCODE_BADINVALIDARGUMENT (B "input")
               (snprintf 256 (B "unknown --security-policy '" ++ policyName g ++ B "'"))))
  else
    let '(w, (found, ep_sc)) :=
      if reverseListenPort g <=? 0 then endpoint_check_security w g url
      else (w, (true, UA_STATUSCODE_GOOD)) in
    if negb found then
      (w, inr (if negb (ep_sc =? UA_STATUSCODE_GOOD)
               then fail op 3 ep_sc (B "transport") (B "GetEndpoints request failed")
               else fail op 3 UA_STATUSCODE_BADSECURITYPOLICYREJECTED (B "transport")
                      (snprintf 256 (B "no " ++ policyName g ++ B "/" ++ modeName g
                                     ++ B " endpoint available"))))
    else
      let '(w, ok) := Client_new w in
      if negb ok then
        (w, inr (fail op 6 UA_STATUSCODE_BADOUTOFMEMORY (B "internal") (B "UA_Client_new failed")))
      else if security_is_none g then
        (w, inl (finish_config w g request_ms (security_policy_uri (B "None")) ModeNone [] []))
      else
        match security_config w g op with
        | (Err msg, sc) => (w, inr (fail op 6 sc (B "internal") msg))
        | (Ok (pols, auth), _) =>
            (w, inl (finish_config w g request_ms (security_policy_uri (policyName g))
                       (security_mode_enum (modeName g)) pols auth))
        end.

(** * Reverse connections *)

(** [while (ch != CLOSED && mono_ms() < deadline) ...]; [None]: out of fuel. *)
Fixpoint wait_closed (fuel : nat) (w : W) (deadline : Z) : option (W * channel_state) :=
  match fuel with
  | O => None
  | S f =>
      let '(ch, _, _) := Client_getState w in
      match ch with
      | ChClosed => Some (w, ch)
      | _ => let '(w, now) := mono_ms w in
             if now <? deadline then wait_closed f (Client_run_iterate w 20) deadline
             else Some (w, ch)
      end
  end.

(** The inner loop: a final status, or [inr] to listen again. *)
Fixpoint wait_channel (fuel : nat) (w : W) (deadline : Z) (want_session listening : bool)
    : option (W * (Z + unit)) :=
  match fuel with
  | O => None
  | S f =>
      let '(w, now) := mono_ms w in
      if negb (now <? deadline) then Some (w, inr tt)
      else
        let w := Client_run_iterate w 20 in
        let '(ch, ss, cs) := Client_getState w in
        let listening := match ch with ChReverseListening => true | _ => listening end in
        match want_session, ss, ch with
        | true, SsActivated, _ => Some (w, inl UA_STATUSCODE_GOOD)
        | false, _, ChOpen => Some (w, inl UA_STATUSCODE_GOOD)
        | _, _, _ =>
            if negb (cs =? UA_STATUSCODE_GOOD) then
              if negb (cs =? UA_STATUSCODE_BADNOTCONNECTED)
                 && negb (cs =? UA_STATUSCODE_BADCONNECTIONCLOSED)
              then Some (w, inl cs) else Some (w, inr tt)
            else match ch with
                 | ChClosed => if listening then Some (w, inr tt)
                               else wait_channel f w deadline want_session listening
                 | _ => wait_channel f w deadline want_session listening
                 end
        end
  end.

Fixpoint reverse_rounds (fuel : nat) (w : W) (cfg : client_config) (port deadline : Z)
    (want_session : bool) : option (W * Z) :=
  match fuel with
  | O => None
  | S f =>
      let '(w, now) := mono_ms w in
      if negb (now <? deadline) then Some (w, UA_STATUSCODE_BADTIMEOUT)
      else
        match wait_closed f w deadline with
        | None => None
        | Some (w, ChClosed) =>
            let '(w, sc) := Client_startListening w cfg (negb want_session) port in
            if negb (sc =? UA_STATUSCODE_GOOD) then
              if negb (sc =? UA_STATUSCODE_BADCONNECTIONCLOSED) then Some (w, sc)
              else reverse_rounds f (Client_run_iterate w 100) cfg port deadline want_session
            else
              match wait_channel f w deadline want_session false with
              | None => None
              | Some (w, inl sc) => Some (w, sc)
              | Some (w, inr tt) => reverse_rounds f w cfg port deadline want_session
              end
        | Some (w, _) => Some (w, UA_STATUSCODE_BADTIMEOUT)
        end
  end.

Definition reverse_connect (fuel : nat) (w : W) (g : ClientSecurity) (cfg : client_config)
    (want_session : bool) : option (W * Z) :=
  let timeout_ms := if 0 <? reverseTimeoutMs g then reverseTimeoutMs g else 30000 in
  let '(w, now) := mono_ms w in
  reverse_rounds fuel w cfg (u16 (reverseListenPort g)) (now + timeout_ms) want_session.

Definition reverse_check_server_uri (w : W) (uri : bytes) : W * Z :=
  let '(w, (sc, arr)) := Client_readServerArray w in
  if negb (sc =? UA_STATUSCODE_GOOD) then (w, sc)
  else (w, match arr with
           | s :: _ => if streq (default [] s) uri then UA_STATUSCODE_GOOD
                       else UA_STATUSCODE_BADSERVERURIINVALID
           | [] => UA_STATUSCODE_BADSERVERURIINVALID
           end).

(** * make_client *)

Definition reverse_uri_error : bytes :=
  B "the reverse-connected server does not have the expected --reverse-server-uri".

(** Dial or wait: the status and, for a wrong server, the message. *)
Definition open_session (fuel : nat) (w : W) (g : ClientSecurity) (cfg : client_config) (url : bytes)
    : option (W * (Z * option bytes)) :=
  if 0 <? reverseListenPort g then
    match reverse_connect fuel w g cfg true with
    | None => None
    | Some (w, sc) =>
        match reverseServerUri g with
        | Some uri =>
            if sc =? UA_STATUSCODE_GOOD then
              let '(w, sc) := reverse_check_server_uri w uri in
              if negb (sc =? UA_STATUSCODE_GOOD)
              then Some (Client_disconnect w, (sc, Some reverse_uri_error))
              else Some (w, (sc, None))
            else Some (w, (sc, None))
        | None => Some (w, (sc, None))
        end
    end
  else let '(w, sc) := Client_connect w cfg url in Some (w, (sc, None)).

Definition make_client (fuel : nat) (w : W) (g : ClientSecurity) (url : bytes) (request_ms : Z)
    (op : bytes) : option (W * (client_config + failure)) :=
  match make_client_unconnected w g url request_ms op with
  | (w, inr f) => Some (w, inr f)
  | (w, inl cfg) =>
      match open_session fuel w g cfg url with
      | None => None
      | Some (w, (sc, reverse_msg)) =>
          if sc =? UA_STATUSCODE_GOOD then Some (w, inl cfg)
          else
            let timeout := sc =? UA_STATUSCODE_BADTIMEOUT in
            let msg := if timeout then
                         if 0 <? reverseListenPort g
                         then B "timed out waiting for the reverse connection"
                         else B "connection timed out"
                       else default (B "failed to connect") reverse_msg in
            Some (w, inr (fail op (if timeout then 7 else 3) sc
                            (if timeout then B "timeout" else B "transport") msg))
      end
  end.
End Connect.

(** Status codes are 32-bit. *)
Class ClientLibLaws {W : Type} (L : ClientLib W) := {
  endpoints_status : forall w url, 0 <= fst (snd (Client_getEndpoints w url)) < 2 ^ 32;
  connect_status : forall w c url, 0 <= snd (Client_connect w c url) < 2 ^ 32;
  server_array_status : forall w, 0 <= fst (snd (Client_readServerArray w)) < 2 ^ 32;
  state_status : forall w, 0 <= snd (Client_getState w) < 2 ^ 32;
  listen_status : forall w c b p, 0 <= snd (Client_startListening w c b p) < 2 ^ 32;
  encryption_status : forall a b c, 0 <= fst (fst (setDefaultEncryption a b c)) < 2 ^ 32;
  decrypt_status : forall k, 0 <= fst (decryptPrivateKey k) < 2 ^ 32;
  ctor_status : forall n a b, 0 <= ecc_ctor n a b < 2 ^ 32
}.

(** * Lemmas *)

Lemma policy_known_uri n : security_policy_known (Some n) = true ->
  security_policy_uri n = policy_prefix ++ n.
Proof.
  unfold security_policy_known, security_policy_uri.
  destruct (find _ policy_table) as [p|] eqn:E.
  - intros _. apply find_some in E as [Hin Hs]. apply streq_eq in Hs. subst n.
    cbn in Hin. repeat (destruct Hin as [<-|Hin]; [reflexivity|]). destruct Hin.
  - change (after_last 35 (policy_prefix ++ B "None")) with (Some (B "None")). cbv beta iota.
    intros H. apply streq_eq in H. now subst n.
Qed.

Lemma mode_eqb_eq a b : mode_eqb a b = true -> a = b.
Proof. destruct a, b; discriminate || reflexivity. Qed.

Section Lemmas.
Context {stack : UaStack} {W : Type} {L : ClientLib W}.

Lemma check_found w g url w' sc : endpoint_check_security w g url = (w', (true, sc)) ->
  exists w2 eps e, get_endpoints_retry (fst (Client_new w)) url = (w2, (UA_STATUSCODE_GOOD, eps)) /\ In e eps /\
    endpoint_matches g e = true.
Proof.
  unfold endpoint_check_security. destruct (Client_new w) as [w1 ok]. cbn [fst]. destruct ok; cbn [negb]; [|discriminate].
  destruct (get_endpoints_retry w1 url) as [w2 [s eps]] eqn:E.
  destruct (Z.eqb_spec s UA_STATUSCODE_GOOD) as [->|]; cbn [negb]; [|discriminate].
  intros H. injection H as Hw Hx Hs. apply existsb_exists in Hx as (e & Hin & He).
  exists w2, eps, e. split; [reflexivity|split; assumption].
Qed.

(** The modes by the names of the command line; any other text asks for none of them. *)
Definition requested_mode (name : bytes) : option security_mode :=
  option_map snd (find (fun p => streq name (B (fst p)))
    [("None"%string, ModeNone); ("Sign"%string, ModeSign); ("SignAndEncrypt"%string, ModeSignAndEncrypt)]).

Lemma requested_mode_enum name m : requested_mode name = Some m -> security_mode_enum name = m /\ m <> ModeInvalid.
Proof.
  unfold requested_mode, security_mode_enum. cbn [find fst snd]. destruct (streq name (B "None"));
    [|destruct (streq name (B "Sign")); [|destruct (streq name (B "SignAndEncrypt"))]]; cbn [option_map snd];
    intros H; try discriminate H; injection H as <-; split; (reflexivity || discriminate).
Qed.

(** What a configuration accepted for the mode [m] says about the request. *)
Definition secure_config (w : W) (g : ClientSecurity) (url : bytes) (m : security_mode) (cfg : client_config) : Prop :=
  security_policy_known (Some (policyName g)) = true /\
  cfg_securityMode cfg = m /\
  cfg_securityPolicyUri cfg = policy_prefix ++ (if mode_eqb m ModeNone then B "None" else policyName g) /\
  (reverseListenPort g <= 0 -> exists w2 eps e,
     get_endpoints_retry (fst (Client_new w)) url = (w2, (UA_STATUSCODE_GOOD, eps)) /\ In e eps /\
     ep_mode e = m /\ default [] (ep_policyUri e) = policy_prefix ++ policyName g).

Lemma unconnected_secure w g url ms op w' cfg m : requested_mode (modeName g) = Some m ->
  make_client_unconnected w g url ms op = (w', inl cfg) -> secure_config w g url m cfg.
Proof.
  intros [M Hm]%requested_mode_enum.
  unfold make_client_unconnected. destruct (security_policy_known (Some (policyName g))) eqn:K;
    cbn [negb]; [|discriminate]. pose proof (policy_known_uri _ K) as Hu.
  destruct (if reverseListenPort g <=? 0 then endpoint_check_security w g url
            else (w, (true, UA_STATUSCODE_GOOD))) as [w1 [found sc]] eqn:E.
  destruct found; cbn [negb]; [|discriminate].
  assert (reverseListenPort g <= 0 -> exists w2 eps e,
     get_endpoints_retry (fst (Client_new w)) url = (w2, (UA_STATUSCODE_GOOD, eps)) /\ In e eps /\
     ep_mode e = m /\ default [] (ep_policyUri e) = policy_prefix ++ policyName g) as Hep.
  { intros Hr. destruct (Z.leb_spec (reverseListenPort g) 0); [|lia].
    apply check_found in E as (v2 & eps & e & E1 & E2 & E3). exists v2, eps, e.
    unfold endpoint_matches in E3. zbool. apply mode_eqb_eq in H0. apply streq_eq in H1.
    rewrite Hu in H1. rewrite M in H0. auto. }
  destruct (Client_new w1) as [w2 ok]. destruct ok; cbn [negb]; [|discriminate].
  unfold security_is_none. rewrite M. destruct m; [| | |now destruct Hm].
  1: intros H; inversion H; subst; unfold secure_config; now repeat split.
  all: destruct (security_config w2 g op) as [[[pols auth]|msg] sc']; [|discriminate];
    intros H; inversion H; subst; unfold secure_config; rewrite <- Hu in *; now repeat split.
Qed.

Lemma make_client_exit fuel w g url ms op w' f :
  make_client fuel w g url ms op = Some (w', inr f) -> In (f_exit f) [2; 3; 6; 7].
Proof.
  unfold make_client. destruct (make_client_unconnected w g url ms op) as [w1 [cfg|f1]] eqn:E.
  - destruct (open_session fuel w1 g cfg url) as [[w2 [sc msg]]|]; [|discriminate].
    destruct (sc =? UA_STATUSCODE_GOOD); [discriminate|]. intros H.
    assert (f_exit f = if sc =? UA_STATUSCODE_BADTIMEOUT then 7 else 3) as -> by now injection H as _ <-.
    destruct (_ =? _); cbn; tauto.
  - intros H. injection H as _ <-. revert E. unfold make_client_unconnected.
    destruct (negb _); [intros H; injection H as _ <-; cbn; tauto|].
    destruct (if reverseListenPort g <=? 0 then _ else _) as [w2 [found sc]].
    destruct (negb found); [intros H; injection H as _ <-; destruct (negb _); cbn; tauto|].
    destruct (Client_new w2) as [w3 ok]. destruct (negb ok); [intros H; injection H as _ <-; cbn; tauto|].
    destruct (security_is_none g); [discriminate|].
    destruct (security_config w3 g op) as [[[pols auth]|msg] sc']; [discriminate|].
    intros H. injection H as _ <-. cbn; tauto.
Qed.
End Lemmas.

Section Failures.
Context {stack : UaStack} {laws : UaStackLaws stack} {W : Type} {L : ClientLib W} {libLaws : ClientLibLaws L}.

(** A failure printed one JSON envelope and has a documented exit code. *)
Definition good_failure (op : bytes) (f : failure) : Prop :=
  is_json (f_out f) = true /\ In (f_exit f) [2; 3; 6; 7] /\
  exists sc category message, f_out f = cli_emit_failure op sc category message.

Lemma good_fail op exit sc cat msg : Bytes op -> Bytes cat -> Bytes msg -> 0 <= sc -> In exit [2; 3; 6; 7] ->
  good_failure op (fail op exit sc cat msg).
Proof.
  intros Ho Hc Hm Hs He. split; [|split; [exact He|now repeat eexists]]. cbn [f_out fail]. apply envelope_json; [assumption..|].
  now apply JRest_error.
Qed.

Lemma Bytes_snprintf n s : Bytes s -> Bytes (snprintf n s).
Proof. intros H. now apply Forall_firstn. Qed.

(** The texts of the command line. *)
Definition text_args (g : ClientSecurity) (op : bytes) : Prop :=
  Bytes op /\ Bytes (policyName g) /\ Bytes (modeName g).

Lemma endpoints_retry_status w url w' sc eps : get_endpoints_retry w url = (w', (sc, eps)) -> 0 <= sc.
Proof.
  unfold get_endpoints_retry. pose proof (endpoints_status w url) as H1.
  destruct (Client_getEndpoints w url) as [w1 [s1 e1]]. cbn [fst snd] in H1.
  destruct (_ || _); [|intros H; inversion H; subst; lia].
  destruct (Client_new w1) as [w2 ok]. destruct ok.
  - pose proof (endpoints_status w2 url) as H2. intros H. rewrite H in H2. cbn in H2. lia.
  - intros H. inversion H. unfold UA_STATUSCODE_BADOUTOFMEMORY. lia.
Qed.

Lemma check_status w g url w' found sc : endpoint_check_security w g url = (w', (found, sc)) -> 0 <= sc.
Proof.
  unfold endpoint_check_security. destruct (Client_new w) as [w1 ok].
  destruct ok; cbn [negb]; [|intros H; inversion H; unfold UA_STATUSCODE_BADOUTOFMEMORY; lia].
  destruct (get_endpoints_retry w1 url) as [w2 [s eps]] eqn:E. apply endpoints_retry_status in E.
  destruct (negb _); intros H; inversion H; subst; assumption.
Qed.

Lemma add_ecc_status arr n a b : 0 <= snd (policy_array_add_ecc arr n a b).
Proof.
  unfold policy_array_add_ecc. pose proof (ctor_status n a b).
  destruct (negb _); [cbn; unfold UA_STATUSCODE_GOOD; lia|].
  destruct (policy_array_has _ _); cbn; [unfold UA_STATUSCODE_GOOD|]; lia.
Qed.

Lemma security_config_err w g op msg sc : security_config w g op = (Err msg, sc) -> Bytes msg /\ 0 <= sc.
Proof.
  unfold security_config. set (cert := load_cert_file w (certFile g)). set (key := load_cert_file w (keyFile g)).
  set (trust := map _ (trustFiles g)). pose proof (encryption_status cert key trust) as H1.
  destruct (setDefaultEncryption cert key trust) as [[s pols] auth]. cbn [fst] in H1.
  destruct (negb (s =? _)); [intros H; inversion H; subst; split; [apply Bytes_B|lia]|].
  destruct (negb (ecc_policy_ctor _)); [discriminate|].
  pose proof (decrypt_status key) as H2. destruct (decryptPrivateKey key) as [s2 der]. cbn [fst] in H2.
  destruct (negb (s2 =? _)); [intros H; inversion H; subst; split; [apply Bytes_B|lia]|].
  pose proof (add_ecc_status pols (policyName g) cert der) as H3.
  destruct (policy_array_add_ecc pols (policyName g) cert der) as [p3 s3]. cbn [snd] in H3.
  destruct (negb (s3 =? _)); [intros H; inversion H; subst; split; [apply Bytes_B|lia]|].
  pose proof (add_ecc_status auth (policyName g) cert der) as H4.
  destruct (policy_array_add_ecc auth (policyName g) cert der) as [p4 s4]. cbn [snd] in H4.
  destruct (negb (s4 =? _)); [intros H; inversion H; subst; split; [apply Bytes_B|lia]|discriminate].
Qed.

Lemma fail_eq op (w w' : W) (a f : failure) :
  (w, @inr client_config _ a) = (w', inr f) -> good_failure op a -> good_failure op f.
Proof. intros H Ha. now injection H as _ <-. Qed.

Lemma unconnected_failure w g url ms op w' f : text_args g op ->
  make_client_unconnected w g url ms op = (w', inr f) -> good_failure op f.
Proof.
  intros (Ho & Hp & Hm). unfold make_client_unconnected.
  destruct (security_policy_known (Some (policyName g))); cbn [negb].
  2:{ intros H. apply (fail_eq _ _ _ _ _ H). apply good_fail; [assumption|apply Bytes_B| |unfold UA_STATUSCODE_BADINVALIDARGUMENT; lia|cbn; tauto].
      apply Bytes_snprintf. auto 6 using Bytes_cat, Bytes_B. }
  destruct (if reverseListenPort g <=? 0 then endpoint_check_security w g url
            else (w, (true, UA_STATUSCODE_GOOD))) as [w1 [found sc]] eqn:E.
  assert (0 <= sc) as Hs.
  { destruct (reverseListenPort g <=? 0); [now apply check_status in E|].
    inversion E. unfold UA_STATUSCODE_GOOD. lia. }
  destruct found; cbn [negb].
  2:{ intros H. apply (fail_eq _ _ _ _ _ H). destruct (negb (sc =? UA_STATUSCODE_GOOD)).
      - apply good_fail; [assumption|apply Bytes_B..|assumption|cbn; tauto].
      - apply good_fail; [assumption|apply Bytes_B| |unfold UA_STATUSCODE_BADSECURITYPOLICYREJECTED; lia|cbn; tauto].
        apply Bytes_snprintf. auto 6 using Bytes_cat, Bytes_B. }
  destruct (Client_new w1) as [w2 ok]. destruct ok; cbn [negb].
  2:{ intros H. apply (fail_eq _ _ _ _ _ H). apply good_fail; [assumption|apply Bytes_B..|
      unfold UA_STATUSCODE_BADOUTOFMEMORY; lia|cbn; tauto]. }
  destruct (security_is_none g); [discriminate|].
  destruct (security_config w2 g op) as [[[pols auth]|msg] sc'] eqn:Es; [discriminate|].
  apply security_config_err in Es as [Hb Hz]. intros H. apply (fail_eq _ _ _ _ _ H).
  apply good_fail; [assumption|apply Bytes_B|assumption|assumption|cbn; tauto].
Qed.

Lemma wait_channel_status fuel : forall w d b l w' sc, wait_channel fuel w d b l = Some (w', inl sc) -> 0 <= sc.
Proof.
  induction fuel as [|f IH]; intros w d b l w' sc H; [discriminate|]. cbn [wait_channel] in H.
  destruct (mono_ms w) as [w1 now]. destruct (negb (now <? d)); [discriminate|].
  set (w2 := Client_run_iterate w1 20) in H. pose proof (state_status w2) as Hs.
  destruct (Client_getState w2) as [[ch ss] cs]. cbn [snd] in Hs.
  destruct b, ss, ch; cbn [negb] in H;
    repeat match type of H with
    | Some (_, inl ?x) = _ => inversion H; subst; unfold UA_STATUSCODE_GOOD in *; lia
    | Some (_, inr _) = _ => discriminate H
    | wait_channel f _ _ _ _ = _ => apply IH in H; exact H
    | context [if ?c then _ else _] => destruct c
    end.
Qed.

Lemma reverse_status fuel : forall w cfg p d b w' sc, reverse_rounds fuel w cfg p d b = Some (w', sc) -> 0 <= sc.
Proof.
  induction fuel as [|f IH]; intros w cfg p d b w' sc H; [discriminate|]. cbn [reverse_rounds] in H.
  destruct (mono_ms w) as [w1 now].
  destruct (negb (now <? d)); [inversion H; subst; unfold UA_STATUSCODE_BADTIMEOUT; lia|].
  destruct (wait_closed f w1 d) as [[w2 ch]|]; [|discriminate].
  destruct ch; try (inversion H; subst; unfold UA_STATUSCODE_BADTIMEOUT; lia).
  pose proof (listen_status w2 cfg (negb b) p) as Hl.
  destruct (Client_startListening w2 cfg (negb b) p) as [w3 s3]. cbn [snd] in Hl.
  destruct (negb (s3 =? UA_STATUSCODE_GOOD)).
  - destruct (negb (s3 =? _)); [inversion H; subst; lia|now apply IH in H].
  - destruct (wait_channel f w3 d b false) as [[w4 [s4|[]]]|] eqn:E; [|now apply IH in H|discriminate].
    inversion H; subst. now apply wait_channel_status in E.
Qed.

Lemma open_session_status fuel w g cfg url w' sc msg :
  open_session fuel w g cfg url = Some (w', (sc, msg)) -> 0 <= sc /\ Bytes (default [] msg).
Proof.
  unfold open_session. destruct (0 <? reverseListenPort g).
  - unfold reverse_connect. destruct (mono_ms w) as [w1 now].
    destruct (reverse_rounds _ _ _ _ _ _) as [[w2 s2]|] eqn:E; [|discriminate]. apply reverse_status in E.
    destruct (reverseServerUri g) as [uri|]; [|intros H; inversion H; subst; split; [assumption|constructor]].
    destruct (s2 =? UA_STATUSCODE_GOOD); [|intros H; inversion H; subst; split; [assumption|constructor]].
    unfold reverse_check_server_uri. pose proof (server_array_status w2) as Ha.
    destruct (Client_readServerArray w2) as [w3 [s3 arr]]. cbn [fst snd] in Ha.
    assert (forall w4 s4, 0 <= s4 -> (if negb (s4 =? UA_STATUSCODE_GOOD)
      then Some (Client_disconnect w4, (s4, Some reverse_uri_error)) else Some (w4, (s4, None)))
      = Some (w', (sc, msg)) -> 0 <= sc /\ Bytes (default [] msg)) as Hk.
    { intros w4 s4 H4. destruct (negb (s4 =? UA_STATUSCODE_GOOD)); intros H.
      - assert (s4 = sc /\ Some reverse_uri_error = msg) as [<- <-] by (split; congruence).
        split; [assumption|apply Bytes_B].
      - inversion H; subst. split; [assumption|constructor]. }
    destruct (negb (s3 =? UA_STATUSCODE_GOOD)); [apply Hk; lia|].
    destruct arr as [|x arr]; [apply Hk; unfold UA_STATUSCODE_BADSERVERURIINVALID; lia|].
    destruct (streq _ _); apply Hk; unfold UA_STATUSCODE_GOOD, UA_STATUSCODE_BADSERVERURIINVALID; lia.
  - pose proof (connect_status w cfg url) as Hc. destruct (Client_connect w cfg url) as [w1 s1].
    cbn [snd] in Hc. intros H. inversion H; subst. split; [lia|constructor].
Qed.

Lemma make_client_failure fuel w g url ms op w' f : text_args g op ->
  make_client fuel w g url ms op = Some (w', inr f) -> good_failure op f.
Proof.
  intros Ht. unfold make_client. destruct (make_client_unconnected w g url ms op) as [w1 [cfg|f1]] eqn:E.
  2:{ intros H. injection H as <- <-. eapply unconnected_failure; eauto. }
  destruct (open_session fuel w1 g cfg url) as [[w2 [sc msg]]|] eqn:Eo; [|discriminate].
  apply open_session_status in Eo as [Hs Hm]. destruct (sc =? UA_STATUSCODE_GOOD); [discriminate|].
  set (timeout := sc =? UA_STATUSCODE_BADTIMEOUT).
  intros H. assert (Hf : forall P : failure -> Prop, P (fail op (if timeout then 7 else 3) sc
    (if timeout then B "timeout" else B "transport")
    (if timeout then if 0 <? reverseListenPort g then B "timed out waiting for the reverse connection"
       else B "connection timed out" else default (B "failed to connect") msg)) -> P f)
    by (intros P HP; injection H as _ <-; exact HP).
  apply Hf. destruct Ht as (Ho & _ & _). apply good_fail; [assumption| | |assumption|].
  - destruct timeout; apply Bytes_B.
  - destruct timeout; [destruct (0 <? _); apply Bytes_B|]. destruct msg; [assumption|apply Bytes_B].
  - destruct timeout; cbn; tauto.
Qed.
End Failures.

(** * Termination *)

(** Time passes: before any deadline only so many rounds of the network loop
    run, and the clock does not go back. *)
Class Clock {W : Type} (L : ClientLib W) := {
  budget : Z -> W -> nat;
  budget_spent : forall d w, budget d w = O -> d <= snd (mono_ms w);
  budget_iterate : forall d w n, (budget d (Client_run_iterate w n) <= pred (budget d w))%nat;
  budget_mono : forall d w, (budget d (fst (mono_ms w)) <= budget d w)%nat;
  budget_listen : forall d w c b p, (budget d (fst (Client_startListening w c b p)) <= budget d w)%nat;
  mono_monotone : forall w, snd (mono_ms w) <= snd (mono_ms (fst (mono_ms w)))
}.

Section Termination.
Context {stack : UaStack} {W : Type} {L : ClientLib W} {clk : Clock L}.

Lemma wait_closed_ends fuel : forall w d, (budget d w < fuel)%nat ->
  exists w' ch, wait_closed fuel w d = Some (w', ch) /\ (budget d w' <= budget d w)%nat.
Proof.
  induction fuel as [|f IH]; intros w d Hf; [lia|]. cbn [wait_closed].
  destruct (Client_getState w) as [[ch ss] cs].
  pose proof (budget_spent d w) as Hs. pose proof (budget_mono d w) as Hm.
  destruct (mono_ms w) as [w1 now]. cbn [fst snd] in *.
  assert (exists w' ch', (if now <? d then wait_closed f (Client_run_iterate w1 20) d
            else Some (w1, ch)) = Some (w', ch') /\ (budget d w' <= budget d w)%nat) as Hnext.
  { destruct (Z.ltb_spec now d) as [Hn|Hn]; [|now exists w1, ch].
    pose proof (budget_iterate d w1 20) as Hi.
    assert (budget d w <> O) by (intros E; specialize (Hs E); lia).
    destruct (IH (Client_run_iterate w1 20) d ltac:(lia)) as (w' & ch' & E & Hb).
    exists w', ch'. split; [exact E|lia]. }
  destruct ch; [|exact Hnext..]. eexists _, _. split; [reflexivity|lia].
Qed.

(** Either a round of the loop ran or the deadline has passed. *)
Definition spent (d : Z) (w w' : W) : Prop :=
  (budget d w' < budget d w)%nat \/ d <= snd (mono_ms w').

Lemma wait_channel_ends fuel : forall w d b l, (budget d w < fuel)%nat ->
  exists w' r, wait_channel fuel w d b l = Some (w', r) /\ (r = inr tt -> spent d w w').
Proof.
  induction fuel as [|f IH]; intros w d b l Hf; [lia|]. cbn [wait_channel].
  pose proof (budget_spent d w) as Hs. pose proof (budget_mono d w) as Hm.
  pose proof (mono_monotone w) as Ht. destruct (mono_ms w) as [w1 now]. cbn [fst snd] in *.
  destruct (Z.ltb_spec now d) as [Hn|Hn]; cbn [negb].
  2:{ exists w1, (inr tt). split; [reflexivity|]. intros _. right. lia. }
  assert (budget d w <> O) as Hz by (intros E; specialize (Hs E); lia).
  pose proof (budget_iterate d w1 20) as Hi. set (w2 := Client_run_iterate w1 20) in *.
  assert (forall r : Z + unit, exists w' r', Some (w2, r) = Some (w', r') /\ (r' = inr tt -> spent d w w')) as Hdone
    by (intros r; exists w2, r; split; [reflexivity|intros _; left; lia]).
  assert (forall l', exists w' r, wait_channel f w2 d b l' = Some (w', r) /\ (r = inr tt -> spent d w w')) as Hgo.
  { intros l'. destruct (IH w2 d b l' ltac:(lia)) as (w' & r & E & Hr). exists w', r.
    split; [exact E|]. intros Er. destruct (Hr Er) as [Hlt|Hlt]; [left; lia|now right]. }
  destruct (Client_getState w2) as [[ch ss] cs].
  destruct b, ss, ch; repeat match goal with |- context [if ?c then _ else _] => destruct c end;
    first [apply Hdone | apply Hgo].
Qed.

Lemma reverse_rounds_end fuel : forall w cfg p d b,
  (budget d w + 2 <= fuel)%nat \/ (d <= snd (mono_ms w) /\ (1 <= fuel)%nat) ->
  exists r, reverse_rounds fuel w cfg p d b = Some r.
Proof.
  induction fuel as [|f IH]; intros w cfg p d b Hf; [lia|]. cbn [reverse_rounds].
  pose proof (budget_spent d w) as Hs. pose proof (budget_mono d w) as Hm.
  destruct (mono_ms w) as [w1 now]. cbn [fst snd] in *.
  destruct (Z.ltb_spec now d) as [Hn|Hn]; cbn [negb]; [|eauto]. destruct Hf as [Hf|Hf]; [|lia].
  assert (budget d w <> O) as Hz by (intros E; specialize (Hs E); lia).
  destruct (wait_closed_ends f w1 d ltac:(lia)) as (w2 & ch & -> & Hb). destruct ch; eauto.
  pose proof (budget_listen d w2 cfg (negb b) p) as Hl.
  destruct (Client_startListening w2 cfg (negb b) p) as [w3 sc]. cbn [fst] in Hl.
  destruct (negb (sc =? UA_STATUSCODE_GOOD)).
  - destruct (negb _); [eauto|]. apply IH. left. pose proof (budget_iterate d w3 100). lia.
  - destruct (wait_channel_ends f w3 d b false ltac:(lia)) as (w4 & r & -> & Hr).
    destruct r as [s|[]]; [eauto|]. apply IH. destruct (Hr eq_refl) as [Hlt|Hlt]; [left; lia|right; split; lia].
Qed.

(** More fuel does not change an answer. *)
Lemma wait_closed_mono f : forall f' w d r, wait_closed f w d = Some r -> (f <= f')%nat ->
  wait_closed f' w d = Some r.
Proof.
  induction f as [|f IH]; intros [|f'] w d r H Hf; [discriminate|discriminate|lia|]. cbn [wait_closed] in *.
  destruct (Client_getState w) as [[ch ss] cs]. destruct ch; [exact H|..];
    destruct (mono_ms w) as [w1 now]; destruct (now <? d); [apply IH; [exact H|lia]|exact H|
    apply IH; [exact H|lia]|exact H|apply IH; [exact H|lia]|exact H].
Qed.

Lemma wait_channel_mono f : forall f' w d b l r, wait_channel f w d b l = Some r -> (f <= f')%nat ->
  wait_channel f' w d b l = Some r.
Proof.
  induction f as [|f IH]; intros [|f'] w d b l r H Hf; [discriminate|discriminate|lia|]. cbn [wait_channel] in *.
  destruct (mono_ms w) as [w1 now]. destruct (negb _); [exact H|].
  set (w2 := Client_run_iterate w1 20) in *. destruct (Client_getState w2) as [[ch ss] cs].
  destruct b, ss, ch; repeat match goal with |- context [if ?c then _ else _] => destruct c end;
    first [exact H|apply IH; [exact H|lia]].
Qed.

Lemma reverse_rounds_mono f : forall f' w cfg p d b r, reverse_rounds f w cfg p d b = Some r ->
  (f <= f')%nat -> reverse_rounds f' w cfg p d b = Some r.
Proof.
  induction f as [|f IH]; intros [|f'] w cfg p d b r H Hf; [discriminate|discriminate|lia|].
  cbn [reverse_rounds] in *. destruct (mono_ms w) as [w1 now]. destruct (negb _); [exact H|].
  destruct (wait_closed f w1 d) as [[w2 ch]|] eqn:E; [|discriminate].
  rewrite (wait_closed_mono _ f' _ _ _ E) by lia. destruct ch; try exact H.
  destruct (Client_startListening w2 cfg (negb b) p) as [w3 sc]. destruct (negb (sc =? UA_STATUSCODE_GOOD)).
  - destruct (negb _); [exact H|]. apply IH; [exact H|lia].
  - destruct (wait_channel f w3 d b false) as [[w4 [s|[]]]|] eqn:E2; [| |discriminate];
      rewrite (wait_channel_mono _ f' _ _ _ _ _ E2) by lia; [exact H|]. apply IH; [exact H|lia].
Qed.

Lemma reverse_connect_mono f f' w g cfg b r : reverse_connect f w g cfg b = Some r -> (f <= f')%nat ->
  reverse_connect f' w g cfg b = Some r.
Proof. unfold reverse_connect. destruct (mono_ms w). apply reverse_rounds_mono. Qed.

(** The budget up to any other deadline never grows, and shrinks when a channel
    was obtained. *)
Lemma wait_closed_budget f : forall w d w' ch, wait_closed f w d = Some (w', ch) ->
  forall e, (budget e w' <= budget e w)%nat.
Proof.
  induction f as [|f IH]; intros w d w' ch H e; [discriminate|]. cbn [wait_closed] in H.
  destruct (Client_getState w) as [[c ss] cs]. pose proof (budget_mono e w) as Hm.
  destruct (mono_ms w) as [w1 now]. cbn [fst] in Hm. pose proof (budget_iterate e w1 20) as Hi.
  destruct c; [injection H as <- _; lia|..];
    (destruct (now <? d); [apply IH with (e := e) in H; lia|injection H as <- _; lia]).
Qed.

Lemma wait_channel_budget f : forall w d b l w' r, wait_channel f w d b l = Some (w', r) -> forall e,
  (budget e w' <= budget e w)%nat /\ (r <> inr tt -> (budget e w' <= pred (budget e w))%nat).
Proof.
  induction f as [|f IH]; intros w d b l w' r H e; [discriminate|]. cbn [wait_channel] in H.
  pose proof (budget_mono e w) as Hm. destruct (mono_ms w) as [w1 now]. cbn [fst] in Hm.
  pose proof (budget_iterate e w1 20) as Hi.
  destruct (negb _); [injection H as <- <-; split; [lia|congruence]|].
  set (w2 := Client_run_iterate w1 20) in *. destruct (Client_getState w2) as [[ch ss] cs].
  assert (forall x, Some (w2, x) = Some (w', r) ->
    (budget e w' <= budget e w)%nat /\ (r <> inr tt -> (budget e w' <= pred (budget e w))%nat)) as Hdone
    by (intros x Hx; injection Hx as <- <-; split; lia).
  assert (forall l', wait_channel f w2 d b l' = Some (w', r) ->
    (budget e w' <= budget e w)%nat /\ (r <> inr tt -> (budget e w' <= pred (budget e w))%nat)) as Hgo
    by (intros l' Hx; apply IH with (e := e) in Hx as [Ha Hb]; split; lia).
  destruct b, ss, ch; repeat match type of H with context [if ?c then _ else _] => destruct c end;
    eauto using Hdone, Hgo.
Qed.

Lemma reverse_rounds_budget f : forall w cfg p d b w' sc, reverse_rounds f w cfg p d b = Some (w', sc) ->
  sc = UA_STATUSCODE_GOOD -> forall e, (budget e w' <= pred (budget e w))%nat.
Proof.
  induction f as [|f IH]; intros w cfg p d b w' sc H Hs e; [discriminate|]. cbn [reverse_rounds] in H.
  pose proof (budget_mono e w) as Hm. destruct (mono_ms w) as [w1 now]. cbn [fst] in Hm.
  destruct (negb _); [injection H as _ <-; discriminate Hs|].
  destruct (wait_closed f w1 d) as [[w2 ch]|] eqn:E; [|discriminate].
  apply wait_closed_budget with (e := e) in E.
  destruct ch; try (injection H as _ <-; discriminate Hs).
  pose proof (budget_listen e w2 cfg (negb b) p) as Hl.
  destruct (Client_startListening w2 cfg (negb b) p) as [w3 s3]. cbn [fst] in Hl.
  destruct (Z.eqb_spec s3 UA_STATUSCODE_GOOD) as [Hg|Hg]; cbn [negb] in H.
  - destruct (wait_channel f w3 d b false) as [[w4 [s4|[]]]|] eqn:E2; [| |discriminate];
      apply wait_channel_budget with (e := e) in E2 as [Ha Hb].
    + injection H as <- <-. specialize (Hb ltac:(discriminate)). lia.
    + apply IH with (e := e) in H; [lia|assumption].
  - destruct (negb _); [injection H as _ <-; congruence|].
    apply IH with (e := e) in H; [|assumption]. pose proof (budget_iterate e w3 100). lia.
Qed.

Lemma reverse_connect_ends w g cfg b :
  exists n, forall fuel, (n <= fuel)%nat -> exists r, reverse_connect fuel w g cfg b = Some r.
Proof.
  unfold reverse_connect. destruct (mono_ms w) as [w1 now].
  set (d := now + if 0 <? reverseTimeoutMs g then reverseTimeoutMs g else 30000).
  exists (budget d w1 + 2)%nat. intros fuel Hf. apply reverse_rounds_end. now left.
Qed.

Lemma make_client_ends w g url ms op :
  exists n, forall fuel, (n <= fuel)%nat -> exists r, make_client fuel w g url ms op = Some r.
Proof.
  unfold make_client. destruct (make_client_unconnected w g url ms op) as [w1 [cfg|f]]; [|exists O; eauto].
  destruct (reverse_connect_ends w1 g cfg true) as [n Hn]. exists n. intros fuel Hf.
  assert (exists r, open_session fuel w1 g cfg url = Some r) as [[w2 [sc msg]] ->].
  { unfold open_session. destruct (0 <? reverseListenPort g); [|destruct (Client_connect w1 cfg url); eauto].
    destruct (Hn fuel Hf) as [[w2 sc] ->]. destruct (reverseServerUri g) as [uri|]; [|eauto].
    destruct (sc =? UA_STATUSCODE_GOOD); [|eauto].
    destruct (reverse_check_server_uri w2 uri) as [w3 s3]. destruct (negb _); eauto. }
  destruct (sc =? UA_STATUSCODE_GOOD); eauto.
Qed.
End Termination.

(** * Theorems *)

(** C2: no downgrade of a mode spelled as the contract spells it (None, Sign or
    SignAndEncrypt): a command only gets a client whose SecurityPolicy is one the
    adapter knows and whose mode is that mode; with a mode other than None the
    policy URI is that of the requested policy itself, and unless the server dials
    in, GetEndpoints returned an endpoint with exactly this policy and mode. *)
Theorem make_client_no_downgrade {stack : UaStack} {W} {L : ClientLib W} fuel w g url ms op w' cfg m :
  requested_mode (modeName g) = Some m ->
  make_client fuel w g url ms op = Some (w', inl cfg) -> secure_config w g url m cfg.
Proof.
  intros M. unfold make_client. destruct (make_client_unconnected w g url ms op) as [w1 [c|f]] eqn:E; [|discriminate].
  apply (unconnected_secure _ _ _ _ _ _ _ _ M) in E. destruct (open_session fuel w1 g c url) as [[w2 [sc msg]]|]; [|discriminate].
  destruct (sc =? UA_STATUSCODE_GOOD); [|discriminate]. intros H. injection H as _ <-. exact E.
Qed.

(** Section 5 of the container contract: the exit code of each error category. *)
Definition contract_exit (category : bytes) : option Z :=
  option_map snd (find (fun p => streq category (B (fst p)))
    [("input"%string, 2); ("transport"%string, 3); ("service"%string, 4); ("internal"%string, 6); ("timeout"%string, 7)]).

(** The world after the endpoint check. *)
Definition checked {stack : UaStack} {W} {L : ClientLib W} (w : W) (g : ClientSecurity) (url : bytes) : W :=
  if reverseListenPort g <=? 0 then fst (endpoint_check_security w g url) else w.

(** Why no client is obtained: category and status. *)
Inductive connect_failure {stack : UaStack} {W} {L : ClientLib W} fuel w g url ms op (w' : W) : bytes -> Z -> Prop :=
| unknown_policy :
    security_policy_known (Some (policyName g)) = false -> w' = w ->
    connect_failure fuel w g url ms op w' (B "input") UA_STATUSCODE_BADINVALIDARGUMENT
| no_endpoints sc :
    security_policy_known (Some (policyName g)) = true -> reverseListenPort g <= 0 ->
    endpoint_check_security w g url = (w', (false, sc)) -> sc <> UA_STATUSCODE_GOOD ->
    connect_failure fuel w g url ms op w' (B "transport") sc
| not_offered :
    security_policy_known (Some (policyName g)) = true -> reverseListenPort g <= 0 ->
    endpoint_check_security w g url = (w', (false, UA_STATUSCODE_GOOD)) ->
    connect_failure fuel w g url ms op w' (B "transport") UA_STATUSCODE_BADSECURITYPOLICYREJECTED
| no_client :
    security_policy_known (Some (policyName g)) = true -> Client_new (checked w g url) = (w', false) ->
    connect_failure fuel w g url ms op w' (B "internal") UA_STATUSCODE_BADOUTOFMEMORY
| no_security sc message :
    security_policy_known (Some (policyName g)) = true -> requested_mode (modeName g) <> Some ModeNone ->
    Client_new (checked w g url) = (w', true) -> security_config w' g op = (Err message, sc) -> connect_failure fuel w g url ms op w' (B "internal") sc
| no_session w1 cfg sc message :
    make_client_unconnected w g url ms op = (w1, inl cfg) -> open_session fuel w1 g cfg url = Some (w', (sc, message)) ->
    sc <> UA_STATUSCODE_GOOD -> sc <> UA_STATUSCODE_BADTIMEOUT -> connect_failure fuel w g url ms op w' (B "transport") sc
| no_answer w1 cfg message :
    make_client_unconnected w g url ms op = (w1, inl cfg) ->
    open_session fuel w1 g cfg url = Some (w', (UA_STATUSCODE_BADTIMEOUT, message)) ->
    connect_failure fuel w g url ms op w' (B "timeout") UA_STATUSCODE_BADTIMEOUT.

Lemma make_client_cause {stack : UaStack} {W} {L : ClientLib W} fuel w g url ms op w' f :
  make_client fuel w g url ms op = Some (w', inr f) ->
  exists category sc message, connect_failure fuel w g url ms op w' category sc /\
    f_out f = cli_emit_failure op sc category message /\ contract_exit category = Some (f_exit f).
Proof.
  unfold make_client. destruct (make_client_unconnected w g url ms op) as [w1 [cfg|f1]] eqn:E.
  - destruct (open_session fuel w1 g cfg url) as [[w2 [sc msg]]|] eqn:O; [|discriminate].
    destruct (Z.eqb_spec sc UA_STATUSCODE_GOOD) as [|Hg]; [discriminate|].
    destruct (Z.eqb_spec sc UA_STATUSCODE_BADTIMEOUT) as [->|Ht]; intros H; injection H as <- <-;
      eexists _, _, _; (split; [|split; reflexivity]); [now apply (no_answer fuel w g url ms op w2 w1 cfg msg)|
      now apply (no_session fuel w g url ms op w2 w1 cfg sc msg)].
  - intros H. injection H as -> <-. revert E. unfold make_client_unconnected.
    destruct (security_policy_known (Some (policyName g))) eqn:K; cbn [negb].
    2:{ intros H. injection H as <- <-. eexists _, _, _. split; [now apply unknown_policy|split; reflexivity]. }
    destruct (if reverseListenPort g <=? 0 then _ else _) as [w2 [found sc]] eqn:Ep.
    destruct found; cbn [negb].
    2:{ destruct (Z.leb_spec (reverseListenPort g) 0) as [Hr|Hr]; [|discriminate Ep].
        destruct (Z.eqb_spec sc UA_STATUSCODE_GOOD) as [->|Hs]; cbn [negb]; intros H; injection H as <- <-;
          eexists _, _, _; (split; [|split; reflexivity]); [now apply not_offered|now apply no_endpoints]. }
    assert (checked w g url = w2) as Hc.
    { unfold checked. destruct (reverseListenPort g <=? 0); [now rewrite Ep|now injection Ep]. }
    destruct (Client_new w2) as [w3 ok] eqn:N. rewrite <- Hc in N. destruct ok; cbn [negb].
    2:{ intros H. injection H as <- <-. eexists _, _, _. split; [now apply no_client|split; reflexivity]. }
    destruct (security_is_none g) eqn:S; [discriminate|].
    destruct (security_config w3 g op) as [[[pols auth]|msg] sc'] eqn:C; [discriminate|].
    intros H. injection H as <- <-. eexists _, _, _. split; [|split; reflexivity].
    apply (no_security fuel w g url ms op w3 sc' msg K); [|exact N|exact C].
    intros M. apply requested_mode_enum in M as [M _]. unfold security_is_none in S. rewrite M in S. discriminate S.
Qed.


(** A server that offers a None and a Basic256Sha256/Sign endpoint and never dials
    in; the world is its clock, and a round of the network loop takes 20 ms. *)
#[export] Instance ref_client : ClientLib Z := {
  Client_new w := (w, true);
  Client_getEndpoints w _ := (w, (UA_STATUSCODE_GOOD,
    [{| ep_url := None; ep_policyUri := Some (policy_prefix ++ B "None"); ep_mode := ModeNone |};
     {| ep_url := None; ep_policyUri := Some (policy_prefix ++ B "Basic256Sha256"); ep_mode := ModeSign |}]));
  Client_connect w _ _ := (w, UA_STATUSCODE_GOOD);
  Client_disconnect w := w;
  Client_readServerArray w := (w, (UA_STATUSCODE_GOOD, []));
  Client_run_iterate w _ := w + 20;
  Client_getState _ := (ChClosed, SsOther, UA_STATUSCODE_GOOD);
  Client_startListening w _ _ _ := (w, UA_STATUSCODE_GOOD);
  mono_ms w := (w, w);
  file_bytes _ _ := Some [1];
  x509_names := no_certificates;
  setDefaultEncryption _ _ _ := (UA_STATUSCODE_GOOD, [policy_prefix ++ B "Basic256Sha256"], []);
  decryptPrivateKey k := (UA_STATUSCODE_GOOD, k);
  ecc_ctor _ _ _ := UA_STATUSCODE_GOOD }.

#[export] Instance ref_client_laws : ClientLibLaws ref_client.
Proof. split; intros; cbn; unfold UA_STATUSCODE_GOOD; lia. Qed.

#[export] Instance ref_clock : Clock ref_client.
Proof. refine {| budget := fun d w => Z.to_nat (d - w) |}; intros; cbn in *; lia. Defined.

Definition ref_sec (policy mode : bytes) : ClientSecurity :=
  parse_security [B "client"; B "read"; B "--security-policy"; policy; B "--security-mode"; mode] g_sec_default.

Lemma make_client_no_downgrade_witness :
  exists cfg, make_client 5 0 (ref_sec (B "Basic256Sha256") (B "Sign")) (B "opc.tcp://s") 5000 (B "read")
                = Some (0, inl cfg)
  /\ secure_config 0 (ref_sec (B "Basic256Sha256") (B "Sign")) (B "opc.tcp://s") ModeSign cfg.
Proof.
  eexists. split; [reflexivity|].
  apply (make_client_no_downgrade 5 0 (ref_sec (B "Basic256Sha256") (B "Sign")) (B "opc.tcp://s") 5000
           (B "read") 0); reflexivity.
Defined.


(** An unknown [--security-mode] name is taken as None, unlike an unknown policy. *)
Lemma unknown_mode_is_none :
  exists cfg, make_client 5 0 (ref_sec (B "None") (B "SignEncrypt")) (B "opc.tcp://s") 5000 (B "read")
                = Some (0, inl cfg) /\ cfg_securityMode cfg = ModeNone.
Proof. eexists. split; reflexivity. Qed.
