(* ===== verification/Session.v ===== *)
(** client.c: what the commands share.  The services of a connected client as
    the class [Services], the outcome of a command, [resolve_node_ids] with its
    four phases, and the small helpers ([type_name], [security_mode_name],
    [build_write_variant], the [--timestamps] flag). *)

From Stdlib Require Import String Ascii ZArith Bool List Lia.
Import ListNotations.
From S2P Require Import Prelude CLib Json UaTypes RefStack Base64 Output CJson Values Args.
From S2P Require Import NodeIds Connect.

(** * Services of a connected client *)

Record read_value_id := { rv_nodeId : ua_nodeid; rv_indexRange : ua_string }.
Record write_value := { wv_nodeId : ua_nodeid; wv_indexRange : ua_string; wv_value : ua_variant }.

Record browse_description := {
  bd_maxReferences : Z; bd_nodeId : ua_nodeid; bd_includeSubtypes : bool;
  bd_nodeClassMask : Z; bd_resultMask : Z }.
Record browse_result := {
  br_statusCode : Z; br_continuationPoint : ua_string; br_references : list ua_reference }.

(** The target NodeIds of a BrowsePathResult. *)
Record path_result := { pr_statusCode : Z; pr_targets : list ua_nodeid }.

Record application := {
  app_uri : ua_string; app_productUri : ua_string; app_locale : ua_string; app_text : ua_string;
  app_discoveryUrls : list ua_string }.

(** UA_TimestampsToReturn *)
Definition TS_SOURCE := 0.
Definition TS_SERVER := 1.
Definition TS_BOTH := 2.
Definition TS_NEITHER := 3.

(** Requests go out for the Value attribute, browsing is forward along
    HierarchicalReferences, path elements are forward hierarchical references
    including subtypes: constants of the source, not arguments here. *)
Class Services (W : Type) := {
  NamespaceGetIndex : W -> bytes -> W * option Z;
  Service_read : W -> Z -> list read_value_id -> W * (Z * list ua_datavalue);
  Service_write : W -> list write_value -> W * (Z * list Z);
  Service_browse : W -> browse_description -> W * (Z * list browse_result);
  Service_browseNext : W -> ua_string -> W * (Z * list browse_result);
  Service_translate : W -> ua_nodeid -> list (Z * bytes) -> W * (Z * list path_result);
  Client_call : W -> ua_nodeid -> ua_nodeid -> list ua_variant -> W * (Z * list ua_variant);
  Client_findServers : W -> bytes -> W * (Z * list application);
  (** the same two discovery services on a channel the server opened *)
  Channel_getEndpoints : W -> bytes -> W * (Z * list ua_endpoint);
  Channel_findServers : W -> W * (Z * list application)
}.

(** * Outcome of a command *)

(** [OutOfBounds]: an array of the C code is read past what was written to it;
    [NoFuel]: the bound on a loop of the model was too small. *)
Inductive outcome (W : Type) :=
| Exits (w : W) (code : Z) (out : bytes)
| OutOfBounds
| NoFuel.
Arguments Exits {W} w code out.
Arguments OutOfBounds {W}.
Arguments NoFuel {W}.

(** * Helpers *)

Definition MAX_NODES : nat := 128.

(** The values of a repeated flag, in order. *)
Fixpoint flag_values (argv : list bytes) (flag : bytes) : list bytes :=
  match argv with
  | a :: ((v :: _) as r) => if streq a flag then v :: flag_values r flag else flag_values r flag
  | _ => []
  end.

(** [parse_int_flag(argc, argv, "--request-timeout", 5) * 1000] *)
Definition request_timeout (argv : list bytes) : Z :=
  s32 (parse_int_flag argv (B "--request-timeout") 5 * 1000).

Definition is_nsu (s : bytes) : bool := is_some (strip (B "nsu=") s).

Definition security_mode_name (mode : security_mode) : bytes :=
  match mode with
  | ModeNone => B "None" | ModeSign => B "Sign" | ModeSignAndEncrypt => B "SignAndEncrypt"
  | ModeInvalid => B "Invalid"
  end.

(** [--timestamps]; an unknown name keeps the default. *)
Definition timestamps_flag (tsStr : option bytes) (def : Z) : Z :=
  match tsStr with
  | None => def
  | Some s => if streq s (B "Source") then TS_SOURCE else if streq s (B "Server") then TS_SERVER
              else if streq s (B "Both") then TS_BOTH
              else if streq s (B "Neither") then TS_NEITHER else def
  end.

(** [UA_STRING_ALLOC(indexRange)] when the flag has a value. *)
Definition index_range (argv : list bytes) : ua_string :=
  match find_arg argv (B "--index-range") with
  | Some ((_ :: _) as r) => Some r
  | _ => None
  end.

Section Session.
Context {stack : UaStack} {cj : CJson} {W : Type} {L : ClientLib W} {srv : Services W}.

Definition named_types : list (ua_type * bytes) :=
  [(TBoolean, B "Boolean"); (TSByte, B "SByte"); (TByte, B "Byte"); (TInt16, B "Int16");
   (TUInt16, B "UInt16"); (TInt32, B "Int32"); (TUInt32, B "UInt32"); (TInt64, B "Int64");
   (TUInt64, B "UInt64"); (TFloat, B "Float"); (TDouble, B "Double"); (TString, B "String");
   (TDateTime, B "DateTime"); (TGuid, B "Guid"); (TByteString, B "ByteString");
   (TXmlElement, B "XmlElement"); (TNodeId, B "NodeId"); (TQualifiedName, B "QualifiedName");
   (TLocalizedText, B "LocalizedText"); (TStatusCode, B "StatusCode")].

Definition type_name (dt : option ua_type) : bytes :=
  match dt with
  | None => B "Unknown"
  | Some t => match find (fun p => type_eqb t (fst p)) named_types with
              | Some p => snd p
              | None => default (B "Unknown") (type_typeName t)
              end
  end.

(** A literal that does not parse gives the empty Variant. *)
Definition build_write_variant (typeStr valStr : bytes) : ua_variant :=
  match value_parse (S (length valStr)) 256 (Some typeStr) (Some valStr) None with
  | Some (Ok v) => v
  | _ => VtEmpty
  end.

(** The failure envelope of bad input, exit code 2. *)
Definition reject (op : bytes) (sc : Z) (msg : bytes) : failure := fail op 2 sc (B "input") msg.
Definition usage_error (w : W) (op msg : bytes) : outcome W :=
  Exits w 2 (cli_emit_failure op UA_STATUSCODE_BADINVALIDARGUMENT (B "input") msg).
Definition failed (w : W) (f : failure) : outcome W := Exits w (f_exit f) (f_out f).

Definition malformed (node : bytes) : bytes := snprintf 512 (B "malformed NodeId: '" ++ node ++ B "'").

(** [make_client] and its early return. *)
Definition with_client (fuel : nat) (w : W) (g : ClientSecurity) (url : bytes) (ms : Z) (op : bytes)
    (k : W -> outcome W) : outcome W :=
  match make_client fuel w g url ms op with
  | None => NoFuel
  | Some (w, inr f) => failed w f
  | Some (w, inl _) => k w
  end.

(** [resolve_nsu_nodeid] with the namespace table of the server. *)
Definition resolve_nsu (w : W) (s : bytes) : W * nsu_result :=
  match strip (B "nsu=") s with
  | Some r => match strchr 59 r with
              | Some (uri, _) => let '(w, i) := NamespaceGetIndex w uri in
                                 (w, resolve_nsu_nodeid (fun _ => i) s)
              | None => (w, NsuError)
              end
  | None => (w, NsuError)
  end.

(** "unknown namespace URI": the URI when the text has a semicolon. *)
Definition unknown_uri (s : bytes) : bytes :=
  match strchr 59 (skipn 4 s) with
  | Some (uri, _) => snprintf 512 (B "unknown namespace URI: '" ++ uri ++ B "'")
  | None => snprintf 512 (B "unknown namespace URI in '" ++ s ++ B "'")
  end.

Definition unresolved (s : bytes) : bytes :=
  snprintf 512 (B "failed to resolve NodeId: '" ++ s ++ B "'").

(** One NodeId of a command that has a client already. *)
Definition resolve_one (w : W) (s : bytes) : W * nsu_result :=
  if is_nsu s then resolve_nsu w s else (w, NsuOk (parse_nodeid_local s)).

(** Phase 4; the ids of the non-nsu forms are those of phase 2. *)
Fixpoint resolve_all (w : W) (nodes : list bytes) (op : bytes) : W * (list ua_nodeid + failure) :=
  match nodes with
  | [] => (w, inl [])
  | s :: r =>
      match resolve_one w s with
      | (w, NsuOk n) =>
          match resolve_all w r op with
          | (w, inl ids) => (w, inl (n :: ids))
          | (w, inr f) => (w, inr f)
          end
      | (w, NsuUnknownUri) =>
          (Client_disconnect w, inr (reject op UA_STATUSCODE_BADNAMESPACEURIINVALID (unknown_uri s)))
      | (w, NsuError) =>
          (Client_disconnect w, inr (reject op UA_STATUSCODE_BADINVALIDARGUMENT (unresolved s)))
      end
  end.

Definition resolve_node_ids (fuel : nat) (w : W) (g : ClientSecurity) (nodes : list bytes)
    (op url : bytes) (ms : Z) : option (W * (list ua_nodeid + failure)) :=
  match find (fun s => negb (validate_nodeid_structure s)) nodes with
  | Some bad => Some (w, inr (reject op UA_STATUSCODE_BADINVALIDARGUMENT (malformed bad)))
  | None =>
      match make_client fuel w g url ms op with
      | None => None
      | Some (w, inr f) => Some (w, inr f)
      | Some (w, inl _) => Some (resolve_all w nodes op)
      end
  end.

(** The exit code after a service: 7 on a timeout, else 0 or 4. *)
Definition service_exit (svc : Z) (ok : bool) : Z :=
  if svc =? UA_STATUSCODE_BADTIMEOUT then 7 else if ok then 0 else 4.

(** The envelope of a command that reached the service. *)
Definition envelope (op : bytes) (ok : bool) (sc : Z) (rest : bytes) : bytes :=
  output_begin (B "open62541") op ++ output_success ok ++ output_service_result sc
  ++ rest ++ output_end.

Definition results_of (items : list bytes) : bytes :=
  output_open_results ++ commas items ++ output_close_results ++ output_null_error.
End Session.

(** * Laws of the services *)

(** Status codes are 32-bit; a good response has one result per operation; the
    data is well formed, with NodeId strings free of control characters. *)
Class ServicesLaws {stack : UaStack} {W : Type} (srv : Services W) := {
  read_status : forall w ts l, 0 <= fst (snd (Service_read w ts l)) < 2 ^ 32;
  read_size : forall w ts l, StatusCode_isGood (fst (snd (Service_read w ts l))) = true ->
    length (snd (snd (Service_read w ts l))) = length l;
  read_wf : forall w ts l, forallb wf_datavalue (snd (snd (Service_read w ts l))) = true;
  write_status : forall w l, 0 <= fst (snd (Service_write w l)) < 2 ^ 32;
  write_size : forall w l, StatusCode_isGood (fst (snd (Service_write w l))) = true ->
    length (snd (snd (Service_write w l))) = length l;
  write_wf : forall w l, forallb (Z.leb 0) (snd (snd (Service_write w l))) = true;
  browse_status : forall w d, 0 <= fst (snd (Service_browse w d)) < 2 ^ 32;
  browse_wf : forall w d r, In r (snd (snd (Service_browse w d))) ->
    0 <= br_statusCode r < 2 ^ 32 /\ forallb wf_reference (br_references r) = true;
  browseNext_wf : forall w c r, In r (snd (snd (Service_browseNext w c))) ->
    forallb wf_reference (br_references r) = true;
  translate_status : forall w n p, 0 <= fst (snd (Service_translate w n p)) < 2 ^ 32;
  translate_wf : forall w n p r, In r (snd (snd (Service_translate w n p))) ->
    0 <= pr_statusCode r < 2 ^ 32 /\ forallb wf_nodeid (pr_targets r) = true;
  call_status : forall w o m i, 0 <= fst (snd (Client_call w o m i)) < 2 ^ 32;
  call_wf : forall w o m i, forallb wf_variant (snd (snd (Client_call w o m i))) = true
}.

(** * What a command reports *)

(** One JSON envelope for the operation, whose [success] says whether the exit
    code is 0. *)
Definition reports {stack : UaStack} (op : bytes) (code : Z) (out : bytes) : Prop :=
  is_json out = true /\ In code [0; 2; 3; 4; 6; 7] /\
  exists sc rest, out = envelope op (code =? 0) sc rest.

(** The arguments are C strings. *)
Definition text_argv (argv : list bytes) : Prop := Forall Bytes argv.

Section Reports.
Context {stack : UaStack} {laws : UaStackLaws stack}.

Lemma reports_envelope op code ok sc rest :
  Bytes op -> 0 <= sc -> JRest rest -> In code [0; 2; 3; 4; 6; 7] -> ok = (code =? 0) ->
  reports op code (envelope op ok sc rest).
Proof. intros Ho Hs Hr Hc ->. split; [now apply envelope_json|split; [exact Hc|now exists sc, rest]]. Qed.

Lemma reports_failure op f : good_failure op f -> reports op (f_exit f) (f_out f).
Proof.
  intros (Hj & He & sc & cat & msg & Eo). split; [exact Hj|].
  assert ((f_exit f =? 0) = false /\ In (f_exit f) [0; 2; 3; 4; 6; 7]) as [Hz Hi].
  { destruct f as [e o]. cbn [f_exit] in *. cbn in He. cbn. split; [apply Z.eqb_neq|]; lia. }
  split; [exact Hi|]. exists sc, (output_error cat msg). now rewrite Eo, Hz.
Qed.

Lemma good_reject op sc msg : Bytes op -> Bytes msg -> 0 <= sc -> good_failure op (reject op sc msg).
Proof. intros Ho Hm Hs. apply good_fail; [assumption|apply Bytes_B|assumption|assumption|cbn; tauto]. Qed.

Lemma service_exit_code svc ok : In (service_exit svc ok) [0; 2; 3; 4; 6; 7].
Proof. unfold service_exit. destruct (_ =? _); [|destruct ok]; cbn; tauto. Qed.

Lemma service_exit_ok svc ok : (ok = true -> StatusCode_isGood svc = true) ->
  ok = (service_exit svc ok =? 0).
Proof.
  intros H. unfold service_exit. destruct (Z.eqb_spec svc UA_STATUSCODE_BADTIMEOUT) as [->|].
  - destruct ok; [|reflexivity]. specialize (H eq_refl).
    rewrite isGood_severity in H by (unfold UA_STATUSCODE_BADTIMEOUT; lia). discriminate H.
  - now destruct ok.
Qed.

Lemma Bytes_malformed s : Bytes s -> Bytes (malformed s).
Proof. intros. apply Bytes_snprintf. auto using Bytes_cat, Bytes_B. Qed.
Lemma Bytes_unresolved s : Bytes s -> Bytes (unresolved s).
Proof. intros. apply Bytes_snprintf. auto using Bytes_cat, Bytes_B. Qed.
Lemma Bytes_unknown_uri s : Bytes s -> Bytes (unknown_uri s).
Proof.
  intros H. unfold unknown_uri. destruct (strchr 59 (skipn 4 s)) as [[u r]|] eqn:E;
    apply Bytes_snprintf; [|auto using Bytes_cat, Bytes_B].
  apply strchr_Some in E as [E _]. apply (Forall_skipn _ 4) in H. rewrite E in H.
  apply Forall_app in H as [Hu _]. auto using Bytes_cat, Bytes_B.
Qed.

Lemma Bytes_type_name t : Bytes (type_name t).
Proof.
  unfold type_name. destruct t as [t|]; [|apply Bytes_B].
  destruct (find _ named_types) as [p|] eqn:E.
  - apply find_some in E as [E _]. repeat (destruct E as [<-|E]; [apply Bytes_B|]). destruct E.
  - destruct (type_typeName t) as [n|] eqn:En; [|apply Bytes_B]. now apply (Bytes_typeName t).
Qed.

Lemma find_arg_In argv flag v : find_arg argv flag = Some v -> In v argv.
Proof.
  induction argv as [|a [|b r] IH]; cbn [find_arg]; try discriminate.
  destruct (streq a flag); [intros H; inversion H; subst; cbn; tauto|]. intros H. right. now apply IH.
Qed.

Lemma find_arg_Bytes argv flag v : text_argv argv -> find_arg argv flag = Some v -> Bytes v.
Proof. intros Ht H. apply find_arg_In in H. unfold text_argv in Ht. rewrite Forall_forall in Ht. auto. Qed.

Lemma flag_values_In argv flag v : In v (flag_values argv flag) -> In v argv.
Proof.
  induction argv as [|a [|b r] IH]; cbn [flag_values]; [tauto|intros []|].
  destruct (streq a flag); [intros [->|H]; [cbn; tauto|]|intros H]; right; now apply IH.
Qed.

Lemma flag_values_Bytes argv flag n : text_argv argv -> Forall Bytes (firstn n (flag_values argv flag)).
Proof.
  intros H. apply Forall_firstn, Forall_forall. intros v Hv. apply flag_values_In in Hv.
  unfold text_argv in H. rewrite Forall_forall in H. auto.
Qed.

(** A flag that is not the last argument has a value at every occurrence. *)
Lemma flag_values_count argv flag : streq (last argv []) flag = false ->
  length (flag_values argv flag) = count_flag argv flag.
Proof.
  induction argv as [|a r IH]; [reflexivity|]. rewrite count_flag_cons. destruct r as [|b r].
  - cbn [last flag_values]. intros ->. reflexivity.
  - change (last (a :: b :: r) []) with (last (b :: r) []). intros H. specialize (IH H).
    change (flag_values (a :: b :: r) flag) with
      (if streq a flag then b :: flag_values (b :: r) flag else flag_values (b :: r) flag).
    destruct (streq a flag); cbn [length]; rewrite IH; reflexivity.
Qed.
End Reports.

Section Resolve.
Context {stack : UaStack} {laws : UaStackLaws stack} {W : Type} {L : ClientLib W}
  {libLaws : ClientLibLaws L} {srv : Services W}.

Lemma resolve_all_failure nodes op : forall w w' f, Bytes op -> Forall Bytes nodes ->
  resolve_all w nodes op = (w', inr f) -> good_failure op f.
Proof.
  induction nodes as [|s r IH]; intros w w' f Ho Hn H; [discriminate|]. apply Forall_cons_iff in Hn as [Hs Hr].
  cbn [resolve_all] in H. destruct (resolve_one w s) as [w1 [n| |]].
  - destruct (resolve_all w1 r op) as [w2 [ids|f2]] eqn:E; [discriminate|].
    injection H as _ <-. eapply IH; eauto.
  - assert (f = reject op UA_STATUSCODE_BADNAMESPACEURIINVALID (unknown_uri s)) as -> by congruence.
    apply good_reject; [assumption|now apply Bytes_unknown_uri|unfold UA_STATUSCODE_BADNAMESPACEURIINVALID; lia].
  - assert (f = reject op UA_STATUSCODE_BADINVALIDARGUMENT (unresolved s)) as -> by congruence.
    apply good_reject; [assumption|now apply Bytes_unresolved|unfold UA_STATUSCODE_BADINVALIDARGUMENT; lia].
Qed.

Lemma resolve_failure fuel w g nodes op url ms w' f : text_args g op -> Forall Bytes nodes ->
  resolve_node_ids fuel w g nodes op url ms = Some (w', inr f) -> good_failure op f.
Proof.
  intros Ht Hn. pose proof Ht as (Ho & _ & _). unfold resolve_node_ids.
  destruct (find _ nodes) as [bad|] eqn:E.
  - intros H. assert (f = reject op UA_STATUSCODE_BADINVALIDARGUMENT (malformed bad)) as -> by congruence.
    apply find_some in E as [E _]. rewrite Forall_forall in Hn.
    apply good_reject; [assumption|now apply Bytes_malformed, Hn|unfold UA_STATUSCODE_BADINVALIDARGUMENT; lia].
  - destruct (make_client fuel w g url ms op) as [[w1 [cfg|f1]]|] eqn:Em; [| |discriminate].
    + intros H. injection H as H. eapply resolve_all_failure; eauto.
    + intros H. injection H as _ <-. eapply make_client_failure; eauto.
Qed.

Lemma resolve_all_length nodes op : forall w w' ids, resolve_all w nodes op = (w', inl ids) ->
  length ids = length nodes.
Proof.
  induction nodes as [|s r IH]; intros w w' ids H; cbn [resolve_all] in H.
  - injection H as _ <-. reflexivity.
  - destruct (resolve_one w s) as [w1 [n| |]]; [|discriminate..].
    destruct (resolve_all w1 r op) as [w2 [ids2|]] eqn:E; [|discriminate].
    injection H as _ <-. cbn. f_equal. eauto.
Qed.

Lemma resolve_exit fuel w g nodes op url ms w' f :
  resolve_node_ids fuel w g nodes op url ms = Some (w', inr f) -> f_exit f <> 0.
Proof.
  unfold resolve_node_ids. destruct (find _ nodes).
  { intros H. injection H as _ <-. discriminate. }
  destruct (make_client fuel w g url ms op) as [[w1 [cfg|f1]]|] eqn:E; [| |discriminate].
  - clear E. intros H. injection H as H. revert w1 H.
    induction nodes as [|s r IH]; intros w1 H; cbn [resolve_all] in H; [discriminate|].
    destruct (resolve_one w1 s) as [w2 [n| |]]; [|injection H as _ <-; discriminate..].
    destruct (resolve_all w2 r op) as [w3 [ids|f3]] eqn:E; [discriminate|].
    injection H as <- <-. exact (IH w2 E).
  - intros H. injection H as _ <-. apply make_client_exit in E. intros Z. rewrite Z in E. cbn in E. lia.
Qed.

Lemma resolve_length fuel w g nodes op url ms w' ids :
  resolve_node_ids fuel w g nodes op url ms = Some (w', inl ids) -> length ids = length nodes.
Proof.
  unfold resolve_node_ids. destruct (find _ nodes); [discriminate|].
  destruct (make_client fuel w g url ms op) as [[w1 [cfg|f1]]|]; [|discriminate..].
  intros H. injection H as H. now apply resolve_all_length in H.
Qed.

Lemma resolve_ends {clk : Clock L} w g nodes op url ms :
  exists n, forall fuel, (n <= fuel)%nat -> exists r, resolve_node_ids fuel w g nodes op url ms = Some r.
Proof.
  unfold resolve_node_ids. destruct (find _ nodes); [exists O; eauto|].
  destruct (make_client_ends w g url ms op) as [n Hn]. exists n. intros fuel Hf.
  destruct (Hn fuel Hf) as [[w1 [cfg|f1]] ->]; eauto.
Qed.
End Resolve.

(** * A concrete server *)

Definition ref_reference (name : bytes) : ua_reference :=
  {| referenceTypeId := UA_NODEID_NUMERIC 0 35; isForward := true;
     ref_nodeId := {| namespaceIndex := 1; identifier := IdString (Some name) |};
     ref_browseName_ns := 1; ref_browseName := Some name;
     ref_displayName_locale := None; ref_displayName_text := Some name; ref_nodeClass := NcVariable |}.

(** Reads give 5, writes succeed, browsing takes two pages, methods return 7. *)
#[export] Instance ref_services : Services Z := {
  NamespaceGetIndex w uri := (w, if streq uri (B "urn:x") then Some 2 else None);
  Service_read w _ l := (w, (UA_STATUSCODE_GOOD,
    map (fun _ => DataValue (Some (VtScalar (VInt32 5))) None (Some 133485408001234567) None None None) l));
  Service_write w l := (w, (UA_STATUSCODE_GOOD, map (fun _ => UA_STATUSCODE_GOOD) l));
  Service_browse w _ := (w, (UA_STATUSCODE_GOOD,
    [{| br_statusCode := UA_STATUSCODE_GOOD; br_continuationPoint := Some [1];
        br_references := [ref_reference (B "a")] |}]));
  Service_browseNext w c := (w, (UA_STATUSCODE_GOOD,
    [{| br_statusCode := UA_STATUSCODE_GOOD; br_continuationPoint := None;
        br_references := [ref_reference (B "b"); ref_reference (B "c")] |}]));
  Service_translate w _ _ := (w, (UA_STATUSCODE_GOOD,
    [{| pr_statusCode := UA_STATUSCODE_BADNOMATCH; pr_targets := [] |}]));
  Client_call w _ _ _ := (w, (UA_STATUSCODE_GOOD, [VtScalar (VInt32 7)]));
  Client_findServers w _ := (w, (UA_STATUSCODE_GOOD, []));
  Channel_getEndpoints w _ := (w, (UA_STATUSCODE_BADCONNECTIONCLOSED, []));
  Channel_findServers w := (w, (UA_STATUSCODE_BADCONNECTIONCLOSED, [])) }.

#[export] Instance ref_services_laws : ServicesLaws ref_services.
Proof.
  split; intros; cbn [fst snd Service_read Service_write Service_browse Service_browseNext Service_translate
    Client_call ref_services] in *; try (unfold UA_STATUSCODE_GOOD; lia); try apply length_map;
    try (apply forallb_forall; intros x Hx; apply in_map_iff in Hx as (y & <- & _)); try reflexivity;
    destruct H as [<-|[]]; cbn; unfold UA_STATUSCODE_GOOD, UA_STATUSCODE_BADNOMATCH; try split; lia || reflexivity.
Qed.
