(* ===== verification/ReadWrite.v ===== *)
(** client.c: the [read] and [write] commands, from the arguments to the exit
    code and the printed envelope. *)

From Stdlib Require Import String Ascii ZArith Bool List Lia.
Import ListNotations.
From S2P Require Import Prelude CLib Json UaTypes RefStack Base64 Output CJson Values Args.
From S2P Require Import NodeIds Connect Session.

Section ReadWrite.
Context {stack : UaStack} {cj : CJson} {W : Type} {L : ClientLib W} {srv : Services W}.

(** [dv->status], 0 when the response carries none. *)
Definition dv_status (d : ua_datavalue) : Z := let '(DataValue _ st _ _ _ _) := d in default 0 st.

(** [results[i]] printed with [nodes[i]]; [None] when there is no such node. *)
Fixpoint with_nodes {A} (f : bytes -> A -> bytes) (nodes : list bytes) (results : list A)
    {struct results} : option (list bytes) :=
  match results, nodes with
  | [], _ => Some []
  | r :: rs, n :: ns => do items <- with_nodes f ns rs; Some (f n r :: items)
  | _ :: _, [] => None
  end.

(** The first status that is not Good. *)
Definition first_bad (l : list Z) : option Z := find (fun s => negb (StatusCode_isGood s)) l.

(** The service status, or the first bad item of a Good response. *)
Definition promoted (svc : Z) (items : list Z) : Z :=
  if StatusCode_isGood svc then default svc (first_bad items) else svc.

Definition all_good (svc : Z) (items : list Z) : bool :=
  StatusCode_isGood svc && forallb StatusCode_isGood items.

(** * cmd_read *)

Definition read_item (node : bytes) (d : ua_datavalue) : bytes :=
  let '(DataValue value _ src _ _ _) := d in
  let type := match value with Some v => variant_type v | None => None end in
  output_read_result_item node (dv_status d) (Some (type_name type))
    (match type with Some t => ua_type_to_builtin_id (Some t) | None => 0 end) value (default 0 src).

Definition cmd_read (fuel : nat) (w : W) (g : ClientSecurity) (argv : list bytes) : outcome W :=
  match find_arg argv (B "--endpoint") with
  | None => usage_error w (B "read") (B "missing --endpoint")
  | Some endpoint =>
      if Nat.eqb (count_flag argv (B "--node")) 0 then usage_error w (B "read") (B "missing --node")
      else
        let nodes := firstn MAX_NODES (flag_values argv (B "--node")) in
        match resolve_node_ids fuel w g nodes (B "read") endpoint (request_timeout argv) with
        | None => NoFuel
        | Some (w, inr f) => failed w f
        | Some (w, inl ids) =>
            let ts := timestamps_flag (find_arg argv (B "--timestamps")) TS_SOURCE in
            let '(w, (svc, results)) := Service_read w ts
              (map (fun n => {| rv_nodeId := n; rv_indexRange := index_range argv |}) ids) in
            let statuses := map dv_status results in
            let ok := all_good svc statuses in
            match (if StatusCode_isGood svc then with_nodes read_item nodes results else Some []) with
            | None => OutOfBounds
            | Some items =>
                Exits (Client_disconnect w) (service_exit svc ok)
                  (envelope (B "read") ok (promoted svc statuses) (results_of items))
            end
        end
  end.

(** * cmd_write *)

(** [node_count] values of [nodes], [types] and [vals]; [None] where one of the
    arrays has not been written. *)
Fixpoint write_values (ids : list ua_nodeid) (range : ua_string) (types vals : list bytes)
    : option (list write_value) :=
  match ids, types, vals with
  | [], _, _ => Some []
  | n :: ns, t :: ts, v :: vs =>
      do r <- write_values ns range ts vs;
      Some ({| wv_nodeId := n; wv_indexRange := range; wv_value := build_write_variant t v |} :: r)
  | _, _, _ => None
  end.

Definition write_usage : bytes :=
  B "usage: write --endpoint <url> --node <id> --type <t> --value <v> [--node ... --type ... --value ...] (equal counts required)".

Definition write_counts (argv : list bytes) : bool :=
  let nodes := count_flag argv (B "--node") in
  negb (Nat.eqb nodes 0) && Nat.eqb nodes (count_flag argv (B "--type"))
  && Nat.eqb nodes (count_flag argv (B "--value")).

(** The loop over the node strings: the first malformed one, or [OutOfBounds]
    when fewer than [count] were written. *)
Definition check_nodes (nodes : list bytes) (count : nat) : option (option bytes) :=
  match find (fun s => negb (validate_nodeid_structure s)) (firstn count nodes) with
  | Some bad => Some (Some bad)
  | None => if Nat.ltb (length nodes) count then None else Some None
  end.

(** From the connected client on. *)
Definition send_write (w : W) (nodes : list bytes) (writes : list write_value) : outcome W :=
  let '(w, (svc, results)) := Service_write w writes in
  let ok := all_good svc results in
  match (if StatusCode_isGood svc then with_nodes output_write_result_item nodes results else Some []) with
  | None => OutOfBounds
  | Some items =>
      Exits (Client_disconnect w) (service_exit svc ok)
        (envelope (B "write") ok (promoted svc results) (results_of items))
  end.

Definition cmd_write (fuel : nat) (w : W) (g : ClientSecurity) (argv : list bytes) : outcome W :=
  match find_arg argv (B "--endpoint"), write_counts argv with
  | Some endpoint, true =>
      let count := Nat.min MAX_NODES (count_flag argv (B "--node")) in
      let nodes := firstn MAX_NODES (flag_values argv (B "--node")) in
      let types := firstn MAX_NODES (flag_values argv (B "--type")) in
      let vals := firstn MAX_NODES (flag_values argv (B "--value")) in
      match check_nodes nodes count with
      | None => OutOfBounds
      | Some (Some bad) => usage_error w (B "write") (malformed bad)
      | Some None =>
          match resolve_node_ids fuel w g (firstn count nodes) (B "write") endpoint (request_timeout argv) with
          | None => NoFuel
          | Some (w, inr f) => failed w f
          | Some (w, inl ids) =>
              match write_values ids (index_range argv) types vals with
              | None => OutOfBounds
              | Some writes => send_write w nodes writes
              end
          end
      end
  | _, _ => usage_error w (B "write") write_usage
  end.
End ReadWrite.

(** * Lemmas *)

Section Lemmas.
Context {stack : UaStack} {laws : UaStackLaws stack}.

Lemma with_nodes_total {A} (f : bytes -> A -> bytes) (P : A -> Prop) results : forall nodes,
  (length results <= length nodes)%nat -> Forall Bytes nodes -> Forall P results ->
  (forall n r, Bytes n -> P r -> JValue (f n r)) ->
  exists items, with_nodes f nodes results = Some items /\ Forall JValue items /\
    length items = length results.
Proof.
  induction results as [|r rs IH]; intros nodes Hl Hn Hr Hf; cbn [with_nodes].
  - exists []. split; [destruct nodes; reflexivity|]. split; [constructor|reflexivity].
  - destruct nodes as [|n ns]; cbn [length] in Hl; [lia|].
    apply Forall_cons_iff in Hn as [Hn Hns]. apply Forall_cons_iff in Hr as [Hr Hrs].
    destruct (IH ns ltac:(lia) Hns Hrs Hf) as (items & -> & Hi & Hlen). cbn [obind].
    eexists. split; [reflexivity|]. split; [constructor; auto|cbn; lia].
Qed.

(** The [i]-th result with the [i]-th node. *)
Fixpoint map2 {A C} (f : A -> C -> bytes) (l : list A) (m : list C) : list bytes :=
  match l, m with
  | a :: l', c :: m' => f a c :: map2 f l' m'
  | _, _ => []
  end.

Lemma with_nodes_map2 {A} (f : bytes -> A -> bytes) results : forall nodes items,
  with_nodes f nodes results = Some items -> items = map2 f nodes results.
Proof.
  induction results as [|r rs IH]; intros nodes items H; cbn [with_nodes] in H.
  - injection H as <-. now destruct nodes.
  - destruct nodes as [|n ns]; [discriminate|]. cbn [map2]. unfold obind in H.
    destruct (with_nodes f ns rs) as [l|] eqn:E; [|discriminate]. injection H as <-. f_equal. now apply IH.
Qed.

Lemma all_good_service svc items : all_good svc items = true -> StatusCode_isGood svc = true.
Proof. unfold all_good. intros H. now apply andb_prop in H. Qed.

Lemma promoted_range svc items : 0 <= svc -> Forall (Z.le 0) items -> 0 <= promoted svc items.
Proof.
  intros Hs Hi. unfold promoted. destruct (StatusCode_isGood svc); [|assumption].
  destruct (first_bad items) as [x|] eqn:E; [|assumption]. apply find_some in E as [E _].
  rewrite Forall_forall in Hi. now apply Hi.
Qed.

Lemma JValue_read n d : Bytes n -> wf_datavalue d = true -> JValue (read_item n d).
Proof.
  intros Hn. destruct d as [value st src sp sr srp]. cbn [wf_datavalue]. intros H. zbool.
  cbn [read_item]. apply JValue_read_item; [assumption| | |].
  - cbn. destruct st; [now apply wf_opt_le|]. cbn. lia.
  - unfold wf_str. cbn [default]. apply forallb_forall. apply Forall_forall, Bytes_type_name.
  - destruct value; assumption.
Qed.

Lemma dv_status_range l : forallb wf_datavalue l = true -> Forall (Z.le 0) (map dv_status l).
Proof.
  intros H. apply Forall_map, Forall_forall. intros d Hd. rewrite forallb_forall in H. specialize (H d Hd).
  destruct d as [value st src sp sr srp]. cbn [wf_datavalue] in H. zbool. cbn.
  destruct st; [now apply wf_opt_le|]. cbn. lia.
Qed.

(** A service response that is printed one item per node. *)
Lemma reports_items {A} (f : bytes -> A -> bytes) (P : A -> Prop) op svc statuses nodes results :
  Bytes op -> 0 <= svc -> Forall (Z.le 0) statuses -> Forall Bytes nodes -> Forall P results ->
  (StatusCode_isGood svc = true -> (length results <= length nodes)%nat) ->
  (forall n r, Bytes n -> P r -> JValue (f n r)) ->
  exists items, (if StatusCode_isGood svc then with_nodes f nodes results else Some []) = Some items /\
    reports op (service_exit svc (all_good svc statuses))
      (envelope op (all_good svc statuses) (promoted svc statuses) (results_of items)).
Proof.
  intros Ho Hs Hst Hn Hr Hl Hf.
  assert (exists items, (if StatusCode_isGood svc then with_nodes f nodes results else Some []) = Some items
    /\ Forall JValue items) as (items & E & Hi).
  { destruct (StatusCode_isGood svc); [|exists []; split; [reflexivity|constructor]].
    destruct (with_nodes_total f P results nodes (Hl eq_refl) Hn Hr Hf) as (items & E & Hi & _). eauto. }
  exists items. split; [exact E|]. apply reports_envelope; [assumption|now apply promoted_range| | |].
  - now apply JRest_results.
  - apply service_exit_code.
  - apply service_exit_ok, all_good_service.
Qed.

Lemma Forall_forallb {A} (f : A -> bool) l : forallb f l = true -> Forall (fun x => f x = true) l.
Proof. intros H. apply Forall_forall. now apply forallb_forall. Qed.

Lemma usage_reports {W} (w : W) op msg : Bytes op -> Bytes msg ->
  reports op 2 (cli_emit_failure op UA_STATUSCODE_BADINVALIDARGUMENT (B "input") msg).
Proof.
  intros Ho Hm. apply (reports_failure op (reject op UA_STATUSCODE_BADINVALIDARGUMENT msg)).
  apply good_reject; [assumption..|unfold UA_STATUSCODE_BADINVALIDARGUMENT; lia].
Qed.
End Lemmas.

Lemma find_none_iff {A} (f : A -> bool) l : (forall x, In x l -> f x = false) -> find f l = None.
Proof.
  induction l as [|x l IH]; intros H; cbn; [reflexivity|]. rewrite (H x) by now left.
  apply IH. intros y Hy. apply H. now right.
Qed.

Section WriteLemmas.
Context {stack : UaStack} {laws : UaStackLaws stack} {cj : CJson} {W : Type} {L : ClientLib W}
  {srv : Services W} {srvLaws : ServicesLaws srv}.

Lemma write_values_total ids range : forall types vals,
  (length ids <= length types)%nat -> (length ids <= length vals)%nat ->
  exists writes, write_values ids range types vals = Some writes /\ length writes = length ids.
Proof.
  induction ids as [|n ns IH]; intros types vals Ht Hv; cbn [write_values]; [now exists []|].
  destruct types as [|t ts]; cbn [length] in Ht; [lia|]. destruct vals as [|v vs]; cbn [length] in Hv; [lia|].
  destruct (IH ts vs ltac:(lia) ltac:(lia)) as (r & -> & Hr). cbn [obind].
  eexists. split; [reflexivity|]. cbn. lia.
Qed.

Lemma send_write_reports w nodes writes : Forall Bytes nodes -> (length writes <= length nodes)%nat ->
  exists w' code out, send_write w nodes writes = Exits w' code out /\ reports (B "write") code out.
Proof.
  intros Hn Hl. unfold send_write. pose proof (write_status w writes) as H1.
  pose proof (write_size w writes) as H2. pose proof (write_wf w writes) as H3.
  destruct (Service_write w writes) as [w1 [svc results]]. cbn [fst snd] in *.
  assert (Forall (Z.le 0) results) as H4
    by (eapply Forall_impl; [|now apply Forall_forallb, H3]; cbn; intros; now apply Z.leb_le).
  destruct (reports_items output_write_result_item (Z.le 0) (B "write") svc results nodes results)
    as (items & -> & Hr); [apply Bytes_B|lia|assumption..|intros Hok; specialize (H2 Hok); lia
    |apply JValue_write_item|].
  eexists _, _, _. split; [reflexivity|exact Hr].
Qed.
End WriteLemmas.

(** * Theorems *)

(** The flags of a command are complete: the last argument is not one of them. *)
Definition complete (argv : list bytes) (flags : list bytes) : Prop :=
  forall f, In f flags -> streq (last argv []) f = false.

Section Theorems.
Context {stack : UaStack} {laws : UaStackLaws stack} {cj : CJson} {W : Type} {L : ClientLib W}
  {libLaws : ClientLibLaws L} {clk : Clock L} {srv : Services W} {srvLaws : ServicesLaws srv}.

(** the read command always ends, never reads past its node array, and
    prints exactly one JSON envelope whose [success] is true exactly when the
    exit code is 0. *)
Lemma read_reports w g argv : text_argv argv -> text_args g (B "read") ->
  exists n, forall fuel, (n <= fuel)%nat -> exists w' code out,
    cmd_read fuel w g argv = Exits w' code out /\ reports (B "read") code out.
Proof.
  intros Ht Hg. unfold cmd_read. destruct (find_arg argv (B "--endpoint")) as [url|].
  2:{ exists O. intros. eexists _, _, _. split; [reflexivity|]. apply (usage_reports w); apply Bytes_B. }
  destruct (Nat.eqb _ 0).
  { exists O. intros. eexists _, _, _. split; [reflexivity|]. apply (usage_reports w); apply Bytes_B. }
  set (nodes := firstn MAX_NODES _). pose proof (flag_values_Bytes argv (B "--node") MAX_NODES Ht) as Hn.
  fold nodes in Hn.
  destruct (resolve_ends w g nodes (B "read") url (request_timeout argv)) as [n Hr]. exists n.
  intros fuel Hf. destruct (Hr fuel Hf) as [[w1 [ids|f]] E]; rewrite E.
  2:{ eexists _, _, _. split; [reflexivity|]. apply reports_failure. eapply resolve_failure; eauto. }
  apply resolve_length in E.
  set (ts := timestamps_flag _ _). set (reqs := map _ ids).
  pose proof (read_status w1 ts reqs) as H1. pose proof (read_size w1 ts reqs) as H2.
  pose proof (read_wf w1 ts reqs) as H3. assert (length reqs = length nodes) as H4
    by (unfold reqs; now rewrite length_map).
  destruct (Service_read w1 ts reqs) as [w2 [svc results]]. cbn [fst snd] in *.
  destruct (reports_items read_item (fun d => wf_datavalue d = true) (B "read") svc (map dv_status results)
    nodes results) as (items & -> & Hrep);
    [apply Bytes_B|lia|now apply dv_status_range|assumption|now apply Forall_forallb
    |intros Hok; specialize (H2 Hok); lia|apply JValue_read|].
  eexists _, _, _. split; [reflexivity|exact Hrep].
Qed.

(** the write command reports in the same way when every [--node],
    [--type] and [--value] has its value. *)
Lemma write_reports w g argv : text_argv argv -> text_args g (B "write") ->
  complete argv [B "--node"; B "--type"; B "--value"] ->
  exists n, forall fuel, (n <= fuel)%nat -> exists w' code out,
    cmd_write fuel w g argv = Exits w' code out /\ reports (B "write") code out.
Proof.
  intros Ht Hg Hc. unfold cmd_write. destruct (find_arg argv (B "--endpoint")) as [url|].
  2:{ exists O. intros. eexists _, _, _. split; [reflexivity|]. apply (usage_reports w); apply Bytes_B. }
  destruct (write_counts argv) eqn:Ec.
  2:{ exists O. intros. eexists _, _, _. split; [reflexivity|]. apply (usage_reports w); apply Bytes_B. }
  unfold write_counts in Ec. apply andb_prop in Ec as [Ec Ev]. apply andb_prop in Ec as [_ Et].
  apply Nat.eqb_eq in Ev, Et.
  pose proof (flag_values_count argv (B "--node") ltac:(apply Hc; cbn; tauto)) as Ln.
  pose proof (flag_values_count argv (B "--type") ltac:(apply Hc; cbn; tauto)) as Lt.
  pose proof (flag_values_count argv (B "--value") ltac:(apply Hc; cbn; tauto)) as Lv.
  set (count := Nat.min MAX_NODES (count_flag argv (B "--node"))).
  set (nodes := firstn MAX_NODES (flag_values argv (B "--node"))).
  set (types := firstn MAX_NODES (flag_values argv (B "--type"))).
  set (vals := firstn MAX_NODES (flag_values argv (B "--value"))).
  assert (length nodes = count /\ length types = count /\ length vals = count) as (Cn & Ct & Cv)
    by (unfold nodes, types, vals, count; rewrite !length_firstn; lia).
  pose proof (flag_values_Bytes argv (B "--node") MAX_NODES Ht) as Hn. fold nodes in Hn.
  assert (firstn count nodes = nodes) as Ef by (rewrite <- Cn; apply firstn_all).
  unfold check_nodes. rewrite Ef. destruct (find _ nodes) as [bad|] eqn:Eb.
  { exists O. intros. eexists _, _, _. split; [reflexivity|]. apply (usage_reports w); [apply Bytes_B|].
    apply Bytes_malformed. apply find_some in Eb as [Eb _]. rewrite Forall_forall in Hn. auto. }
  destruct (Nat.ltb_spec (length nodes) count); [lia|].
  destruct (resolve_ends w g nodes (B "write") url (request_timeout argv)) as [n Hr]. exists n.
  intros fuel Hf. destruct (Hr fuel Hf) as [[w1 [ids|f]] E]; rewrite E.
  2:{ eexists _, _, _. split; [reflexivity|]. apply reports_failure. eapply resolve_failure; eauto. }
  apply resolve_length in E.
  destruct (write_values_total ids (index_range argv) types vals) as (writes & -> & Hw); [lia..|].
  apply send_write_reports; [assumption|lia].
Qed.
End Theorems.

(** C16: exit code 0 of the read command, given at most 128 [--node] flags, means
    what it says: every requested node got a Good value of a Good service response,
    and the printed results are these values, one per node, in the order of the
    flags. *)
Theorem read_exit_zero {stack : UaStack} {cj : CJson} {W} {L : ClientLib W} {srv : Services W}
    {srvLaws : ServicesLaws srv} fuel w g argv w' out :
  (length (flag_values argv (B "--node")) <= MAX_NODES)%nat ->
  cmd_read fuel w g argv = Exits w' 0 out ->
  exists url w1 w2 ids svc results items,
    let nodes := flag_values argv (B "--node") in
    find_arg argv (B "--endpoint") = Some url /\
    resolve_node_ids fuel w g nodes (B "read") url (request_timeout argv) = Some (w1, inl ids) /\
    Service_read w1 (timestamps_flag (find_arg argv (B "--timestamps")) TS_SOURCE)
      (map (fun n => {| rv_nodeId := n; rv_indexRange := index_range argv |}) ids) = (w2, (svc, results)) /\
    StatusCode_isGood svc = true /\ forallb (fun d => StatusCode_isGood (dv_status d)) results = true /\
    length results = length nodes /\ items = map2 read_item nodes results /\
    out = envelope (B "read") true svc (results_of items).
Proof.
  intros Hcap. unfold cmd_read. destruct (find_arg argv (B "--endpoint")) as [url|]; [|discriminate].
  destruct (Nat.eqb _ 0); [discriminate|]. rewrite (firstn_all2 _ Hcap). set (nodes := flag_values argv _).
  destruct (resolve_node_ids _ _ _ _ _ _ _) as [[w1 [ids|f]]|] eqn:E; [| |discriminate].
  2:{ unfold failed. intros H. injection H as _ He _. apply resolve_exit in E. lia. }
  destruct (Service_read _ _ _) as [w2 [svc results]] eqn:Er. unfold all_good, promoted, service_exit.
  destruct (StatusCode_isGood svc) eqn:Eg; cbn [andb].
  2:{ destruct (svc =? _); discriminate. }
  destruct (with_nodes _ _ _) as [items|] eqn:Ew; [|discriminate].
  destruct (svc =? UA_STATUSCODE_BADTIMEOUT); [discriminate|].
  destruct (forallb StatusCode_isGood (map dv_status results)) eqn:Ef; [|discriminate].
  intros H. exists url, w1, w2, ids, svc, results, items. cbv zeta.
  assert (first_bad (map dv_status results) = None) as Hb.
  { apply find_none_iff. intros x Hx. rewrite forallb_forall in Ef. now rewrite Ef. }
  rewrite Hb in H. cbn [default] in H.
  repeat split; try assumption; try reflexivity.
  - clear - Ef. induction results as [|d l IH]; [reflexivity|]. cbn in *. apply andb_prop in Ef as [-> Ef]. now apply IH.
  - pose proof (read_size w1 _ _ (eq_trans (f_equal (fun x => StatusCode_isGood (fst (snd x))) Er) Eg)) as Hl.
    rewrite Er, length_map in Hl. apply resolve_length in E. cbn [fst snd] in Hl. congruence.
  - now apply with_nodes_map2.
  - congruence.
Qed.

Definition read_argv : list bytes :=
  [B "read"; B "--endpoint"; B "opc.tcp://s"; B "--node"; B "i=2258"; B "--node"; B "nsu=urn:x;s=v"].

Lemma read_exit_zero_witness :
  exists w' out, cmd_read 5 0 g_sec_default read_argv = Exits w' 0 out /\
  exists items, out = envelope (B "read") true UA_STATUSCODE_GOOD (results_of items) /\ length items = 2%nat.
Proof.
  eexists _, _. split; [reflexivity|].
  edestruct (read_exit_zero 5 0 g_sec_default read_argv) as (url & w1 & w2 & ids & svc & results & items & Hx);
    [vm_compute; lia|reflexivity|]. cbv zeta in Hx. destruct Hx as (_ & Hr & Hs & _ & _ & _ & -> & Ho).
  vm_compute in Hr. injection Hr as <- <-. vm_compute in Hs. injection Hs as <- <- <-.
  eexists. split; [exact Ho|]. reflexivity.
Defined.

(** The 129th node is not read, and not reported: the command succeeds. *)
Lemma read_beyond_cap :
  let argv extra := [B "read"; B "--endpoint"; B "opc.tcp://s"] ++ concat (repeat [B "--node"; B "i=2258"] 128) ++ extra in
  match cmd_read 5 0 g_sec_default (argv [B "--node"; B "i=1"]), cmd_read 5 0 g_sec_default (argv []) with
  | Exits _ 0 out, Exits _ 0 out' => streq out out'
  | _, _ => false
  end = true.
Proof. vm_compute. reflexivity. Qed.

(** A trailing [--node] is counted but has no value: the write command then reads
    a node string that was never set. *)
Lemma write_trailing_node :
  cmd_write 5 0 g_sec_default [B "write"; B "--endpoint"; B "opc.tcp://s"; B "--type"; B "Int32"; B "--value";
    B "7"; B "--node"] = OutOfBounds.
Proof. reflexivity. Qed.
