(* ===== verification/BrowseCall.v ===== *)
(** client.c: the [browse], [translate] and [call] commands. *)

From Stdlib Require Import String Ascii ZArith Bool List Lia.
Import ListNotations.
From S2P Require Import Prelude CLib Json UaTypes RefStack Base64 Output CJson Values Args.
From S2P Require Import NodeIds Connect Session ReadWrite.

Section BrowseCall.
Context {stack : UaStack} {cj : CJson} {W : Type} {L : ClientLib W} {srv : Services W}.

(** A NodeId text that could not be resolved: disconnect and report. *)
Definition unresolved_exit (w : W) (op msg : bytes) : outcome W :=
  failed (Client_disconnect w) (reject op UA_STATUSCODE_BADNAMESPACEURIINVALID msg).

(** * cmd_browse *)

Definition UA_BROWSERESULTMASK_ALL : Z := 63.

Definition mask_flag (argv : list bytes) (flag : bytes) (def : Z) : Z :=
  match find_arg argv flag with Some s => u32 (sval (strtoul 0 s)) | None => def end.

Definition browse_request (argv : list bytes) (n : ua_nodeid) : browse_description :=
  {| bd_maxReferences := u32 (parse_int_flag argv (B "--max-refs") 0);
     bd_nodeId := n;
     bd_includeSubtypes := match find_arg argv (B "--include-subtypes") with
                           | Some s => negb (streq s (B "false") || streq s (B "0"))
                           | None => true
                           end;
     bd_nodeClassMask := mask_flag argv (B "--node-class-mask") 0;
     bd_resultMask := mask_flag argv (B "--result-mask") UA_BROWSERESULTMASK_ALL |}.

(** [while (cp.length > 0)]; [None]: out of fuel. *)
Fixpoint browse_next (fuel : nat) (w : W) (cp : ua_string) (acc : list ua_reference)
    : option (W * list ua_reference) :=
  match cp with
  | None | Some [] => Some (w, acc)
  | Some _ =>
      match fuel with
      | O => None
      | S f =>
          let '(w, (sc, results)) := Service_browseNext w cp in
          if negb (sc =? UA_STATUSCODE_GOOD) then Some (w, acc)
          else match results with
               | [] => Some (w, acc)
               | r :: _ => browse_next f w (br_continuationPoint r) (acc ++ br_references r)
               end
      end
  end.

(** The service status, or the status of the first result of a Good response. *)
Definition browse_sc (svc : Z) (results : list browse_result) : Z :=
  match results with
  | r :: _ => if StatusCode_isGood svc && negb (StatusCode_isGood (br_statusCode r))
              then br_statusCode r else svc
  | [] => svc
  end.

Definition send_browse (pages : nat) (w : W) (d : browse_description) : outcome W :=
  let '(w, (svc, results)) := Service_browse w d in
  let sc := browse_sc svc results in
  match (match StatusCode_isGood sc, results with
         | true, r :: _ => browse_next pages w (br_continuationPoint r) (br_references r)
         | _, _ => Some (w, [])
         end) with
  | None => NoFuel
  | Some (w, refs) =>
      let ok := StatusCode_isGood sc in
      Exits (Client_disconnect w) (service_exit sc ok)
        (envelope (B "browse") ok sc
           (if ok then output_browse_results refs
            else output_error (B "service") (B "Browse service failed")))
  end.

Definition browse_node (argv : list bytes) : bytes := default (B "i=85") (find_arg argv (B "--node")).

Definition cmd_browse (fuel pages : nat) (w : W) (g : ClientSecurity) (argv : list bytes) : outcome W :=
  match find_arg argv (B "--endpoint") with
  | None => usage_error w (B "browse") (B "missing --endpoint")
  | Some endpoint =>
      let nodeStr := browse_node argv in
      if negb (validate_nodeid_structure nodeStr)
      then usage_error w (B "browse") (malformed nodeStr)
      else
        with_client fuel w g endpoint (request_timeout argv) (B "browse") (fun w =>
        match resolve_one w nodeStr with
        | (w, NsuUnknownUri) => unresolved_exit w (B "browse") (unknown_uri nodeStr)
        | (w, NsuError) => unresolved_exit w (B "browse") (unresolved nodeStr)
        | (w, NsuOk n) => send_browse pages w (browse_request argv n)
        end)
  end.

(** * cmd_translate *)

Definition path_segments (path : bytes) : list bytes := firstn 64 (strtok 46 path).

Definition path_item (r : path_result) : bytes :=
  J "{'statusCode':" ++ print_status_obj (pr_statusCode r) ++ J ",'targets':"
  ++ jarray (map output_nodeid (pr_targets r)) ++ J "}".

Definition translate_sc (svc : Z) (results : list path_result) : Z :=
  match results with
  | r :: _ => if StatusCode_isGood svc && negb (StatusCode_isGood (pr_statusCode r))
              then pr_statusCode r else svc
  | [] => svc
  end.

Definition send_translate (w : W) (n : ua_nodeid) (path : list (Z * bytes)) : outcome W :=
  let '(w, (svc, results)) := Service_translate w n path in
  let sc := translate_sc svc results in
  let ok := StatusCode_isGood sc in
  Exits (Client_disconnect w) (service_exit sc ok)
    (envelope (B "translate") ok svc
       match StatusCode_isGood svc, results with
       | true, r :: _ => results_of [path_item r]
       | _, _ => if ok then output_no_results
                 else output_error (B "service") (B "TranslateBrowsePathsToNodeIds failed")
       end).

Definition cmd_translate (fuel : nat) (w : W) (g : ClientSecurity) (argv : list bytes) : outcome W :=
  match find_arg argv (B "--endpoint") with
  | None => usage_error w (B "translate") (B "missing --endpoint")
  | Some endpoint =>
      let startStr := default (B "i=85") (find_arg argv (B "--starting-node")) in
      match find_arg argv (B "--path") with
      | None | Some [] => usage_error w (B "translate") (B "missing --path")
      | Some path =>
          if negb (validate_nodeid_structure startStr)
          then usage_error w (B "translate") (malformed startStr)
          else
            let ns := match find_arg argv (B "--namespace") with Some s => u16 (atoi s) | None => 0 end in
            match path_segments path with
            | [] => usage_error w (B "translate") (B "empty --path")
            | segments =>
                with_client fuel w g endpoint (request_timeout argv) (B "translate") (fun w =>
                match resolve_one w startStr with
                | (w, NsuOk n) => send_translate w n (map (fun s => (ns, s)) segments)
                | (w, _) => unresolved_exit w (B "translate") (unresolved startStr)
                end)
            end
      end
  end.

(** * cmd_call *)

Definition call_usage : bytes :=
  B "usage: call --endpoint <url> --object <nodeId> --method <nodeId> [--input <type:val> ...]".

(** [--input <type>:<value>]; without a colon the slot stays empty. *)
Definition call_input (spec : bytes) : ua_variant :=
  match strchr 58 spec with
  | Some (t, v) => build_write_variant (firstn 63 t) v
  | None => VtEmpty
  end.

Definition call_inputs (argv : list bytes) : list ua_variant :=
  let inCount := count_flag argv (B "--input") in
  firstn inCount (map call_input (flag_values argv (B "--input")) ++ repeat VtEmpty inCount).

Definition send_call (w : W) (objStr methStr : bytes) (o m : ua_nodeid) (inputs : list ua_variant)
    : outcome W :=
  let '(w, (sc, outputs)) := Client_call w o m inputs in
  let ok := StatusCode_isGood sc in
  Exits (Client_disconnect w) (service_exit sc ok)
    (envelope (B "call") ok sc (results_of [output_call_result objStr methStr sc outputs])).

Definition cmd_call (fuel : nat) (w : W) (g : ClientSecurity) (argv : list bytes) : outcome W :=
  match find_arg argv (B "--endpoint"), find_arg argv (B "--object"), find_arg argv (B "--method") with
  | Some endpoint, Some objStr, Some methStr =>
      if negb (validate_nodeid_structure objStr) then usage_error w (B "call") (malformed objStr)
      else if negb (validate_nodeid_structure methStr) then usage_error w (B "call") (malformed methStr)
      else
        with_client fuel w g endpoint (request_timeout argv) (B "call") (fun w =>
        match resolve_one w objStr with
        | (w, NsuOk o) =>
            match resolve_one w methStr with
            | (w, NsuOk m) => send_call w objStr methStr o m (call_inputs argv)
            | (w, _) => unresolved_exit w (B "call")
                (snprintf 512 (B "unknown namespace URI in method NodeId: '" ++ methStr ++ B "'"))
            end
        | (w, _) => unresolved_exit w (B "call")
            (snprintf 512 (B "unknown namespace URI in object NodeId: '" ++ objStr ++ B "'"))
        end)
  | _, _, _ => usage_error w (B "call") call_usage
  end.

(** * What the BrowseNext calls deliver *)

(** [Pages w cp later w' k]: from [cp] on, [k] Good BrowseNext calls deliver the
    references [later] and the last one has no continuation point. *)
Inductive Pages : W -> ua_string -> list ua_reference -> W -> nat -> Prop :=
| pages_end w cp : default [] cp = [] -> Pages w cp [] w O
| pages_next w c cp w1 r rs later w' k :
    Service_browseNext w (Some (c :: cp)) = (w1, (UA_STATUSCODE_GOOD, r :: rs)) ->
    Pages w1 (br_continuationPoint r) later w' k ->
    Pages w (Some (c :: cp)) (br_references r ++ later) w' (S k).

(** The chain of continuation points ends, in whatever way. *)
Inductive ChainEnds : W -> ua_string -> Prop :=
| ends_now w cp : default [] cp = [] -> ChainEnds w cp
| ends_after w cp :
    (forall w1 r rs, Service_browseNext w cp = (w1, (UA_STATUSCODE_GOOD, r :: rs)) ->
       ChainEnds w1 (br_continuationPoint r)) ->
    ChainEnds w cp.
End BrowseCall.

(** * Lemmas *)

Section Lemmas.
Context {stack : UaStack} {laws : UaStackLaws stack} {cj : CJson} {W : Type} {L : ClientLib W}
  {libLaws : ClientLibLaws L} {srv : Services W}.

Lemma browse_next_pages cp w later w' k : Pages w cp later w' k -> forall fuel acc, (k <= fuel)%nat ->
  browse_next fuel w cp acc = Some (w', acc ++ later).
Proof.
  induction 1 as [w cp He|w c cp w1 r rs later w' k E _ IH]; intros fuel acc Hf.
  - rewrite app_nil_r. destruct cp as [[|x cp]|]; [|discriminate He|]; destruct fuel; reflexivity.
  - destruct fuel as [|f]; [lia|]. cbn [browse_next]. rewrite E. cbn [negb].
    change (UA_STATUSCODE_GOOD =? UA_STATUSCODE_GOOD) with true. cbn [negb].
    rewrite IH by lia. now rewrite app_assoc.
Qed.

Lemma browse_next_ends w cp : ChainEnds w cp ->
  exists k, forall fuel acc, (k <= fuel)%nat -> exists r, browse_next fuel w cp acc = Some r.
Proof.
  induction 1 as [w cp He|w cp _ IH].
  - exists O. intros fuel acc _. destruct cp as [[|x cp]|]; [|discriminate He|]; destruct fuel; cbn; eauto.
  - destruct cp as [[|c cp]|]; try (exists O; intros [|fuel] acc _; cbn; eauto; fail).
    destruct (Service_browseNext w (Some (c :: cp))) as [w1 [sc results]] eqn:E.
    assert (exists k, forall fuel acc, (k <= fuel)%nat -> exists r,
      (if negb (sc =? UA_STATUSCODE_GOOD) then Some (w1, acc)
       else match results with [] => Some (w1, acc)
            | r :: _ => browse_next fuel w1 (br_continuationPoint r) (acc ++ br_references r) end) = Some r)
      as [k Hk].
    { destruct (Z.eqb_spec sc UA_STATUSCODE_GOOD) as [->|]; cbn [negb]; [|exists O; eauto].
      destruct results as [|r rs]; [exists O; eauto|].
      destruct (IH w1 r rs eq_refl) as [k Hk]. exists k. eauto. }
    exists (S k). intros [|f] acc Hf; [lia|]. cbn [browse_next]. rewrite E. apply Hk. lia.
Qed.

Lemma browse_next_wf {srvLaws : ServicesLaws srv} fuel : forall w cp acc w' refs,
  forallb wf_reference acc = true -> browse_next fuel w cp acc = Some (w', refs) ->
  forallb wf_reference refs = true.
Proof.
  induction fuel as [|f IH]; intros w cp acc w' refs Ha H; destruct cp as [[|c cp]|]; cbn [browse_next] in H;
    try (injection H as _ <-; exact Ha); [discriminate|].
  pose proof (browseNext_wf w (Some (c :: cp))) as Hw.
  destruct (Service_browseNext w (Some (c :: cp))) as [w1 [sc results]]. cbn [snd] in Hw.
  destruct (negb _); [injection H as _ <-; exact Ha|].
  destruct results as [|r rs]; [injection H as _ <-; exact Ha|].
  eapply IH; [|exact H]. rewrite forallb_app, Ha. apply Hw. now left.
Qed.

Lemma browse_results_eq refs : output_browse_results refs = results_of (map browse_item refs).
Proof. unfold output_browse_results, results_of, jarray. rewrite <- !app_assoc. reflexivity. Qed.

Lemma JRest_browse refs : forallb wf_reference refs = true -> JRest (output_browse_results refs).
Proof.
  intros H. rewrite browse_results_eq. apply JRest_results, Forall_map, Forall_forall.
  intros r Hr. apply JValue_browse_item. rewrite forallb_forall in H. auto.
Qed.

Lemma JRest_no_results : JRest output_no_results.
Proof. split; reflexivity. Qed.

Lemma JValue_path r : 0 <= pr_statusCode r -> forallb wf_nodeid (pr_targets r) = true ->
  JValue (path_item r).
Proof.
  intros Hs Ht. assert (JValue (jarray (map output_nodeid (pr_targets r)))).
  { apply JValue_array, Forall_map, Forall_forall. intros n Hn. apply JValue_nodeid.
    rewrite forallb_forall in Ht. auto. }
  pose proof (JValue_status _ Hs). unfold path_item. jvalue.
Qed.

(** Every outcome of a command that needs a client, given what follows. *)
Definition ends_reporting (op : bytes) (o : outcome W) : Prop :=
  exists w' code out, o = Exits w' code out /\ reports op code out.

Lemma ends_usage w op msg : Bytes op -> Bytes msg -> ends_reporting op (usage_error w op msg).
Proof. intros. eexists _, _, _. split; [reflexivity|]. now apply (usage_reports w). Qed.

Lemma ends_unresolved w op msg : Bytes op -> Bytes msg -> ends_reporting op (unresolved_exit w op msg).
Proof.
  intros. eexists _, _, _. split; [reflexivity|]. apply reports_failure.
  apply good_reject; [assumption..|unfold UA_STATUSCODE_BADNAMESPACEURIINVALID; lia].
Qed.

Lemma with_client_reports {clk : Clock L} w g url ms op k : text_args g op ->
  (forall w1, ends_reporting op (k w1)) ->
  exists n, forall fuel, (n <= fuel)%nat -> ends_reporting op (with_client fuel w g url ms op k).
Proof.
  intros Ht Hk. destruct (make_client_ends w g url ms op) as [n Hn]. exists n. intros fuel Hf.
  unfold with_client. destruct (Hn fuel Hf) as [[w1 [cfg|f]] E]; rewrite E; [apply Hk|].
  eexists _, _, _. split; [reflexivity|]. apply reports_failure. eapply make_client_failure; eauto.
Qed.

Lemma reports_service op sc rest : Bytes op -> 0 <= sc -> JRest rest ->
  forall status, 0 <= status ->
  reports op (service_exit sc (StatusCode_isGood sc)) (envelope op (StatusCode_isGood sc) status rest).
Proof.
  intros Ho Hs Hr status Hst. apply reports_envelope; try assumption.
  - apply service_exit_code.
  - now apply service_exit_ok.
Qed.

Lemma browse_sc_range {srvLaws : ServicesLaws srv} w d :
  0 <= browse_sc (fst (snd (Service_browse w d))) (snd (snd (Service_browse w d))).
Proof.
  pose proof (browse_status w d) as H1. pose proof (browse_wf w d) as H2.
  destruct (Service_browse w d) as [w1 [svc [|r rs]]]; cbn [fst snd browse_sc] in *; [lia|].
  destruct (_ && _); [|lia]. destruct (H2 r (or_introl eq_refl)). lia.
Qed.

Lemma send_browse_reports {srvLaws : ServicesLaws srv} w d : (forall w cp, ChainEnds w cp) ->
  exists p, forall pages, (p <= pages)%nat -> ends_reporting (B "browse") (send_browse pages w d).
Proof.
  intros Hc. unfold send_browse. pose proof (browse_sc_range w d) as Hs. pose proof (browse_wf w d) as Hw.
  destruct (Service_browse w d) as [w1 [svc results]]. cbn [fst snd] in *. set (sc := browse_sc svc results) in *.
  assert (exists p, forall pages, (p <= pages)%nat -> exists w2 refs,
    (match StatusCode_isGood sc, results with
     | true, r :: _ => browse_next pages w1 (br_continuationPoint r) (br_references r)
     | _, _ => Some (w1, []) end) = Some (w2, refs) /\ forallb wf_reference refs = true) as [p Hp].
  { destruct (StatusCode_isGood sc); [|exists O; eauto]. destruct results as [|r rs]; [exists O; eauto|].
    destruct (browse_next_ends w1 (br_continuationPoint r) (Hc _ _)) as [k Hk]. exists k. intros pages Hle.
    destruct (Hk pages (br_references r) Hle) as [[w2 refs] E]. exists w2, refs. split; [exact E|].
    apply browse_next_wf in E; [exact E|]. now apply Hw; left. }
  exists p. intros pages Hle. destruct (Hp pages Hle) as (w2 & refs & -> & Hr).
  eexists _, _, _. split; [reflexivity|]. apply reports_service; [apply Bytes_B|assumption| |assumption].
  destruct (StatusCode_isGood sc); [now apply JRest_browse|apply JRest_error; apply Bytes_B].
Qed.

Lemma send_translate_reports {srvLaws : ServicesLaws srv} w n path :
  ends_reporting (B "translate") (send_translate w n path).
Proof.
  unfold send_translate. pose proof (translate_status w n path) as H1. pose proof (translate_wf w n path) as H2.
  destruct (Service_translate w n path) as [w1 [svc results]]. cbn [fst snd] in *.
  eexists _, _, _. split; [reflexivity|]. apply reports_service; [apply Bytes_B| | |lia].
  - destruct results as [|r rs]; cbn [translate_sc]; [lia|]. destruct (_ && _); [|lia].
    destruct (H2 r (or_introl eq_refl)). lia.
  - assert (JRest (if StatusCode_isGood (translate_sc svc results) then output_no_results
      else output_error (B "service") (B "TranslateBrowsePathsToNodeIds failed"))) as Hrest
      by (destruct (StatusCode_isGood _); [apply JRest_no_results|apply JRest_error; apply Bytes_B]).
    destruct (StatusCode_isGood svc), results as [|r rs]; try exact Hrest.
    destruct (H2 r (or_introl eq_refl)). apply JRest_results. constructor; [apply JValue_path; [lia|assumption]|constructor].
Qed.

Lemma send_call_reports {srvLaws : ServicesLaws srv} w objStr methStr o m inputs :
  Bytes objStr -> Bytes methStr -> ends_reporting (B "call") (send_call w objStr methStr o m inputs).
Proof.
  intros Ho Hm. unfold send_call. pose proof (call_status w o m inputs) as H1. pose proof (call_wf w o m inputs) as H2.
  destruct (Client_call w o m inputs) as [w1 [sc outs]]. cbn [fst snd] in *.
  eexists _, _, _. split; [reflexivity|]. apply reports_service; [apply Bytes_B|lia| |lia].
  apply JRest_results. constructor; [apply JValue_call_result; [assumption..|lia|assumption]|constructor].
Qed.

Lemma browse_node_Bytes argv : text_argv argv -> Bytes (browse_node argv).
Proof.
  intros Ht. unfold browse_node. destruct (find_arg argv (B "--node")) eqn:E; [|apply Bytes_B].
  eapply find_arg_Bytes; eauto.
Qed.

Section Commands.
Context {clk : Clock L} {srvLaws : ServicesLaws srv}.

Lemma browse_reports w g argv : text_argv argv -> text_args g (B "browse") ->
  (forall w cp, ChainEnds w cp) ->
  exists n, forall fuel, (n <= fuel)%nat -> exists p, forall pages, (p <= pages)%nat ->
    ends_reporting (B "browse") (cmd_browse fuel pages w g argv).
Proof.
  intros Ht Hg Hc. unfold cmd_browse. pose proof (browse_node_Bytes argv Ht) as Hn.
  destruct (find_arg argv (B "--endpoint")) as [url|];
    [|exists O; intros; exists O; intros; apply ends_usage; apply Bytes_B].
  destruct (negb _); [exists O; intros; exists O; intros; apply ends_usage;
    [apply Bytes_B|now apply Bytes_malformed]|].
  destruct (make_client_ends w g url (request_timeout argv) (B "browse")) as [n Hm]. exists n. intros fuel Hf.
  unfold with_client. destruct (Hm fuel Hf) as [[w1 [cfg|f]] E]; rewrite E.
  2:{ exists O. intros. eexists _, _, _. split; [reflexivity|]. apply reports_failure. eapply make_client_failure; eauto. }
  destruct (resolve_one w1 (browse_node argv)) as [w2 [i| |]].
  - now apply send_browse_reports.
  - exists O. intros. apply ends_unresolved; [apply Bytes_B|now apply Bytes_unknown_uri].
  - exists O. intros. apply ends_unresolved; [apply Bytes_B|now apply Bytes_unresolved].
Qed.

Lemma translate_reports w g argv : text_argv argv -> text_args g (B "translate") ->
  exists n, forall fuel, (n <= fuel)%nat -> ends_reporting (B "translate") (cmd_translate fuel w g argv).
Proof.
  intros Ht Hg. unfold cmd_translate.
  destruct (find_arg argv (B "--endpoint")) as [url|]; [|exists O; intros; apply ends_usage; apply Bytes_B].
  set (start := default (B "i=85") (find_arg argv (B "--starting-node"))).
  assert (Bytes start) as Hs.
  { unfold start. destruct (find_arg argv (B "--starting-node")) eqn:E; [|apply Bytes_B]. eapply find_arg_Bytes; eauto. }
  destruct (find_arg argv (B "--path")) as [[|c path]|]; try (exists O; intros; apply ends_usage; apply Bytes_B).
  destruct (negb _); [exists O; intros; apply ends_usage; [apply Bytes_B|now apply Bytes_malformed]|].
  destruct (path_segments (c :: path)) as [|sg sgs]; [exists O; intros; apply ends_usage; apply Bytes_B|].
  apply with_client_reports; [exact Hg|]. intros w1. destruct (resolve_one w1 start) as [w2 [i| |]];
    [apply send_translate_reports|apply ends_unresolved; [apply Bytes_B|now apply Bytes_unresolved]..].
Qed.

Lemma call_reports w g argv : text_argv argv -> text_args g (B "call") ->
  exists n, forall fuel, (n <= fuel)%nat -> ends_reporting (B "call") (cmd_call fuel w g argv).
Proof.
  intros Ht Hg. unfold cmd_call.
  destruct (find_arg argv (B "--endpoint")) as [url|]; [|exists O; intros; apply ends_usage; apply Bytes_B].
  destruct (find_arg argv (B "--object")) as [o|] eqn:Eo; [|exists O; intros; apply ends_usage; apply Bytes_B].
  destruct (find_arg argv (B "--method")) as [m|] eqn:Em; [|exists O; intros; apply ends_usage; apply Bytes_B].
  apply (find_arg_Bytes _ _ _ Ht) in Eo, Em.
  destruct (negb (validate_nodeid_structure o)); [exists O; intros; apply ends_usage; [apply Bytes_B|now apply Bytes_malformed]|].
  destruct (negb (validate_nodeid_structure m)); [exists O; intros; apply ends_usage; [apply Bytes_B|now apply Bytes_malformed]|].
  apply with_client_reports; [exact Hg|]. intros w1.
  destruct (resolve_one w1 o) as [w2 [i| |]];
    [|apply ends_unresolved; [apply Bytes_B|apply Bytes_snprintf; auto using Bytes_cat, Bytes_B]..].
  destruct (resolve_one w2 m) as [w3 [j| |]];
    [now apply send_call_reports|apply ends_unresolved; [apply Bytes_B|apply Bytes_snprintf; auto using Bytes_cat, Bytes_B]..].
Qed.
End Commands.
End Lemmas.

(** * Theorems *)

(** C11: the browse command is complete as long as every BrowseNext is answered Good:
    then what is printed are exactly the references of the first page followed by
    those of all later pages, in order, with success and exit code 0.  (A BrowseNext
    that fails ends the loop unnoticed, see [browse_next_failure_hidden].) *)
Theorem browse_complete {stack : UaStack} {laws : UaStackLaws stack} {cj : CJson} {W} {L : ClientLib W}
    {srv : Services W} fuel pages w g argv url w1 cfg w2 n w3 svc r rs later w4 k :
  find_arg argv (B "--endpoint") = Some url ->
  validate_nodeid_structure (browse_node argv) = true ->
  make_client fuel w g url (request_timeout argv) (B "browse") = Some (w1, inl cfg) ->
  resolve_one w1 (browse_node argv) = (w2, NsuOk n) ->
  Service_browse w2 (browse_request argv n) = (w3, (svc, r :: rs)) ->
  0 <= svc < 2 ^ 32 ->
  StatusCode_isGood svc = true -> StatusCode_isGood (br_statusCode r) = true ->
  Pages w3 (br_continuationPoint r) later w4 k -> (k <= pages)%nat ->
  cmd_browse fuel pages w g argv =
  Exits (Client_disconnect w4) 0
    (envelope (B "browse") true svc (results_of (map browse_item (br_references r ++ later)))).
Proof.
  intros Hu Hv Hm Hr Hb Hs Hg Hi Hp Hk. unfold cmd_browse, with_client.
  rewrite Hu, Hv, Hm, Hr. cbn [negb]. unfold send_browse. rewrite Hb. cbn [browse_sc].
  rewrite Hg, Hi. cbn [negb andb]. rewrite Hg, (browse_next_pages _ _ _ _ _ Hp) by assumption.
  rewrite browse_results_eq. f_equal. pose proof (service_exit_ok svc true (fun _ => Hg)) as He.
  symmetry in He. now apply Z.eqb_eq in He.
Qed.

Definition browse_argv : list bytes :=
  [B "browse"; B "--endpoint"; B "opc.tcp://s"; B "--node"; B "nsu=urn:x;s=v"; B "--max-refs"; B "1"].

Lemma browse_complete_witness :
  cmd_browse 5 1 0 g_sec_default browse_argv =
  Exits 0 0 (envelope (B "browse") true UA_STATUSCODE_GOOD
    (results_of (map browse_item [ref_reference (B "a"); ref_reference (B "b"); ref_reference (B "c")]))).
Proof.
  eapply (browse_complete (L := ref_client) (srv := ref_services) (cj := ref_cjson) (laws := ref_stack_laws) 5 1 0 g_sec_default browse_argv (B "opc.tcp://s") 0 _ 0 _ 0 UA_STATUSCODE_GOOD
    {| br_statusCode := UA_STATUSCODE_GOOD; br_continuationPoint := Some [1];
       br_references := [ref_reference (B "a")] |} [] [ref_reference (B "b"); ref_reference (B "c")] 0 1);
    [reflexivity|reflexivity|reflexivity|reflexivity|reflexivity|unfold UA_STATUSCODE_GOOD; lia
    |reflexivity|reflexivity| |lia].
  apply (pages_next (srv := ref_services) 0 1 [] 0
    {| br_statusCode := UA_STATUSCODE_GOOD; br_continuationPoint := None;
       br_references := [ref_reference (B "b"); ref_reference (B "c")] |} [] [] 0 0); [reflexivity|].
  now apply pages_end.
Defined.

(** browse, translate and call always end (browse: when the chain of
    continuation points ends) and print exactly one JSON envelope whose
    [success] is true exactly when the exit code is 0. *)
Lemma service_commands_report {stack : UaStack} {laws : UaStackLaws stack} {cj : CJson} {W}
    {L : ClientLib W} {libLaws : ClientLibLaws L} {clk : Clock L} {srv : Services W}
    {srvLaws : ServicesLaws srv} w g argv :
  text_argv argv -> Bytes (policyName g) -> Bytes (modeName g) -> (forall w cp, ChainEnds w cp) ->
  exists n, forall fuel, (n <= fuel)%nat ->
    (exists p, forall pages, (p <= pages)%nat ->
       ends_reporting (B "browse") (cmd_browse fuel pages w g argv)) /\
    ends_reporting (B "translate") (cmd_translate fuel w g argv) /\
    ends_reporting (B "call") (cmd_call fuel w g argv).
Proof.
  intros Ht Hp Hm Hc.
  destruct (browse_reports w g argv) as [n1 H1]; try assumption; [repeat split; auto using Bytes_B|].
  destruct (translate_reports w g argv) as [n2 H2]; try assumption; [repeat split; auto using Bytes_B|].
  destruct (call_reports w g argv) as [n3 H3]; try assumption; [repeat split; auto using Bytes_B|].
  exists (n1 + n2 + n3)%nat. intros fuel Hf. repeat split; [apply H1|apply H2|apply H3]; lia.
Qed.

Lemma ref_chain w cp : ChainEnds (srv := ref_services) w cp.
Proof.
  apply ends_after. intros w1 r rs H. cbn in H. injection H as <- <- <-. now apply ends_now.
Defined.

(** A server whose BrowseNext fails: the references of the first page are then
    reported as the complete result, with success. *)
Definition failing_next : Services Z :=
  {| NamespaceGetIndex := NamespaceGetIndex; Service_read := Service_read; Service_write := Service_write;
     Service_browse := Service_browse;
     Service_browseNext := fun w _ => (w, (UA_STATUSCODE_BADCONTINUATIONPOINTINVALID, []));
     Service_translate := Service_translate; Client_call := Client_call;
     Client_findServers := Client_findServers; Channel_getEndpoints := Channel_getEndpoints;
     Channel_findServers := Channel_findServers |}.

Lemma browse_next_failure_hidden :
  cmd_browse (srv := failing_next) 5 5 0 g_sec_default browse_argv =
  Exits 0 0 (envelope (B "browse") true UA_STATUSCODE_GOOD
    (results_of (map browse_item [ref_reference (B "a")]))).
Proof. reflexivity. Qed.
