(* ===== verification/Discovery.v ===== *)
(** client.c: the session-less commands [endpoints] and [find-servers], dialled
    or on a reverse connection. *)

From Stdlib Require Import String Ascii ZArith Bool List Lia.
Import ListNotations.
From S2P Require Import Prelude CLib Json UaTypes RefStack Base64 Output CJson Values Args.
From S2P Require Import NodeIds Connect Session ReadWrite BrowseCall.

(** The buffer after the call, as [%s] prints it. *)
Definition copy_ua_string (bufsz : nat) (s : ua_string) : bytes :=
  match s with
  | Some d => if Nat.ltb (length d) bufsz then cstr d else []
  | None => []
  end.

Section Discovery.
Context {stack : UaStack} {W : Type} {L : ClientLib W} {srv : Services W}.

(** [cli_new_plain_client(0)]: the stack's default configuration. *)
Definition plain_config : client_config :=
  {| cfg_securityPolicyUri := []; cfg_securityMode := ModeInvalid; cfg_securityPolicies := [];
     cfg_authPolicies := []; cfg_timeout := None; cfg_channelLifeTime := None;
     cfg_applicationUri := None; cfg_user := None; cfg_allowNonePassword := false |}.

(** The channel was closed under the call: try again on the next connection. *)
Definition channel_lost (sc : Z) : bool :=
  (sc =? UA_STATUSCODE_BADCONNECTIONCLOSED) || (sc =? UA_STATUSCODE_BADSECURECHANNELCLOSED)
  || (sc =? UA_STATUSCODE_BADNOTCONNECTED) || (sc =? UA_STATUSCODE_BADSERVERNOTCONNECTED).

Fixpoint discovery_rounds {A} (fuel : nat) (w : W) (g : ClientSecurity) (deadline : Z)
    (service : W -> W * (Z * list A)) (last : Z * list A) : option (W * (Z * list A)) :=
  match fuel with
  | O => None
  | S f =>
      let '(w, now) := mono_ms w in
      if negb (now <? deadline) then Some (w, last)
      else
        match reverse_connect f w g plain_config false with
        | None => None
        | Some (w, sc) =>
            if negb (sc =? UA_STATUSCODE_GOOD) then Some (w, (sc, []))
            else
              let '(w, (sc, resp)) := service w in
              if negb (channel_lost sc) then Some (w, (sc, resp))
              else discovery_rounds f w g deadline service (sc, resp)
        end
  end.

Definition reverse_discovery_call {A} (fuel : nat) (w : W) (g : ClientSecurity)
    (service : W -> W * (Z * list A)) : option (W * (Z * list A)) :=
  let timeout_ms := if 0 <? reverseTimeoutMs g then reverseTimeoutMs g else 30000 in
  let '(w, now) := mono_ms w in
  discovery_rounds fuel w g (now + timeout_ms) service (UA_STATUSCODE_BADTIMEOUT, []).

(** The call, reversed or dialled, with the retry of a dialled call; [inr]: no
    client for the retry. *)
Definition discovery_call {A} (fuel : nat) (w : W) (g : ClientSecurity)
    (channel dialled : W -> W * (Z * list A)) : option (W * (Z * list A + unit)) :=
  if 0 <? reverseListenPort g then
    match reverse_discovery_call fuel w g channel with
    | None => None
    | Some (w, (sc, resp)) =>
        Some (Client_disconnect w, inl (sc, if sc =? UA_STATUSCODE_GOOD then resp else []))
    end
  else
    let '(w, (sc, resp)) := dialled w in
    if (sc =? UA_STATUSCODE_BADSECURECHANNELCLOSED) || (sc =? UA_STATUSCODE_BADSECURECHANNELIDINVALID)
    then let '(w, ok) := Client_new w in
         if ok then let '(w, r) := dialled w in Some (w, inl r) else Some (w, inr tt)
    else Some (w, inl (sc, resp)).

(** Both commands: [item] prints one result. *)
Definition discovery_command {A} (fuel : nat) (w : W) (g : ClientSecurity) (argv : list bytes)
    (op errMsg : bytes) (channel dialled : bytes -> W -> W * (Z * list A)) (item : A -> bytes) : outcome W :=
  match find_arg argv (B "--endpoint") with
  | None => usage_error w op (B "missing --endpoint")
  | Some endpoint =>
      let no_client w msg := failed w (fail op 6 UA_STATUSCODE_BADOUTOFMEMORY (B "internal") msg) in
      let '(w, ok) := Client_new w in
      if negb ok then no_client w (B "UA_Client_new failed")
      else
        match discovery_call fuel w g (channel endpoint) (dialled endpoint) with
        | None => NoFuel
        | Some (w, inr tt) => no_client w (B "UA_Client_new failed on retry")
        | Some (w, inl (sc, resp)) =>
            let ok := sc =? UA_STATUSCODE_GOOD in
            Exits w (if ok then 0 else 3)
              (envelope op ok sc (if ok then results_of (map item resp)
                                  else output_error (B "transport") errMsg))
        end
  end.

Definition endpoint_item (e : ua_endpoint) : bytes :=
  J "{'url':'" ++ copy_ua_string 511 (ep_url e) ++ J "','securityPolicy':'"
  ++ copy_ua_string 511 (ep_policyUri e) ++ J "','securityMode':'"
  ++ security_mode_name (ep_mode e) ++ J "'}".

Definition cmd_endpoints (fuel : nat) (w : W) (g : ClientSecurity) (argv : list bytes) : outcome W :=
  discovery_command fuel w g argv (B "endpoints") (B "GetEndpoints failed")
    (fun url w => Channel_getEndpoints w url) (fun url w => Client_getEndpoints w url) endpoint_item.

Definition application_item (a : application) : bytes :=
  J "{'applicationUri':'" ++ copy_ua_string 512 (app_uri a)
  ++ J "','applicationName':{'locale':'" ++ copy_ua_string 64 (app_locale a)
  ++ J "','text':'" ++ copy_ua_string 512 (app_text a)
  ++ J "'},'productUri':'" ++ copy_ua_string 512 (app_productUri a)
  ++ J "','discoveryUrls':"
  ++ jarray (map (fun u => J "'" ++ copy_ua_string 512 u ++ J "'") (app_discoveryUrls a)) ++ J "}".

Definition cmd_find_servers (fuel : nat) (w : W) (g : ClientSecurity) (argv : list bytes) : outcome W :=
  discovery_command fuel w g argv (B "find-servers") (B "FindServers failed")
    (fun _ w => Channel_findServers w) (fun url w => Client_findServers w url) application_item.
End Discovery.

(** * Laws *)

(** The texts the commands print without escaping. *)
Definition plain_text (s : ua_string) : bool := forallb plain (default [] s).
Definition plain_endpoint (e : ua_endpoint) : bool := plain_text (ep_url e) && plain_text (ep_policyUri e).
Definition plain_application (a : application) : bool :=
  plain_text (app_uri a) && plain_text (app_productUri a) && plain_text (app_locale a)
  && plain_text (app_text a) && forallb plain_text (app_discoveryUrls a).

Class DiscoveryLaws {W : Type} (L : ClientLib W) (srv : Services W) := {
  channel_endpoints_status : forall w u, 0 <= fst (snd (Channel_getEndpoints w u)) < 2 ^ 32;
  find_servers_status : forall w u, 0 <= fst (snd (Client_findServers w u)) < 2 ^ 32;
  channel_servers_status : forall w, 0 <= fst (snd (Channel_findServers w)) < 2 ^ 32;
  endpoints_plain : forall w u, forallb plain_endpoint (snd (snd (Client_getEndpoints w u))) = true;
  channel_endpoints_plain : forall w u, forallb plain_endpoint (snd (snd (Channel_getEndpoints w u))) = true;
  servers_plain : forall w u, forallb plain_application (snd (snd (Client_findServers w u))) = true;
  channel_servers_plain : forall w, forallb plain_application (snd (snd (Channel_findServers w))) = true
}.

(** Talking to the server on the channel does not bring time back. *)
Class DiscoveryClock {W : Type} {L : ClientLib W} (clk : Clock L) (srv : Services W) := {
  endpoints_budget : forall d w u, (budget d (fst (Channel_getEndpoints w u)) <= budget d w)%nat;
  servers_budget : forall d w, (budget d (fst (Channel_findServers w)) <= budget d w)%nat
}.

(** * Lemmas *)

Lemma plain_cstr l : Forall (fun c => plain c = true) l -> Forall (fun c => plain c = true) (cstr l).
Proof.
  induction 1 as [|c l Hc _ IH]; cbn; [constructor|]. destruct (c =? 0); [constructor|now constructor].
Qed.

Lemma JBody_copy n s : plain_text s = true -> JBody (copy_ua_string n s).
Proof.
  intros H. unfold copy_ua_string. destruct s as [d|]; [|apply JBody_nil].
  destruct (Nat.ltb _ _); [|apply JBody_nil]. apply JBody_Forall, plain_cstr.
  apply Forall_forall. now apply forallb_forall.
Qed.

Lemma JValue_endpoint e : plain_endpoint e = true -> JValue (endpoint_item e).
Proof.
  unfold plain_endpoint. intros H. apply andb_prop in H as [Hu Hp].
  pose proof (JBody_copy 511 _ Hu). pose proof (JBody_copy 511 _ Hp).
  assert (JBody (security_mode_name (ep_mode e))) by (destruct (ep_mode e); cbn [security_mode_name]; jbody).
  unfold endpoint_item. jvalue.
Qed.

Lemma JValue_application a : plain_application a = true -> JValue (application_item a).
Proof.
  unfold plain_application. intros H. repeat (apply andb_prop in H as [H ?]).
  pose proof (JBody_copy 512 _ H). pose proof (JBody_copy 512 _ H3). pose proof (JBody_copy 64 _ H2).
  pose proof (JBody_copy 512 _ H1).
  assert (JValue (jarray (map (fun u => J "'" ++ copy_ua_string 512 u ++ J "'") (app_discoveryUrls a)))).
  { apply JValue_array, Forall_map, Forall_forall. intros u Hu. rewrite forallb_forall in H0.
    apply JValue_quoted. apply JBody_copy. auto. }
  unfold application_item. jvalue.
Qed.

Section Lemmas.
Context {stack : UaStack} {laws : UaStackLaws stack} {W : Type} {L : ClientLib W} {libLaws : ClientLibLaws L}
  {clk : Clock L} {A : Type}.

Section Service.
Variable service : W -> W * (Z * list A).
Variable P : A -> Prop.
Hypothesis service_status : forall w, 0 <= fst (snd (service w)) < 2 ^ 32.
Hypothesis service_items : forall w, Forall P (snd (snd (service w))).
Hypothesis service_budget : forall d w, (budget d (fst (service w)) <= budget d w)%nat.

Lemma discovery_rounds_end g d : forall k w last, (budget d w <= k)%nat ->
  0 <= fst last -> Forall P (snd last) ->
  exists n, forall fuel, (n <= fuel)%nat -> exists w' sc resp,
    discovery_rounds fuel w g d service last = Some (w', (sc, resp)) /\ 0 <= sc /\ Forall P resp.
Proof.
  induction k as [|k IH]; intros w last Hk Hs Hi; pose proof (budget_spent d w) as Hz;
    pose proof (budget_mono d w) as Hm; destruct (mono_ms w) as [w1 now] eqn:Ew; cbn [fst snd] in *.
  1: assert (d <= now) by (apply Hz; lia).
  all: destruct (Z.ltb_spec now d) as [Hn|Hn].
  1: lia.
  1,3: exists 1%nat; intros [|fuel] Hf; [lia|]; cbn [discovery_rounds]; rewrite Ew;
    destruct (Z.ltb_spec now d); [lia|]; destruct last; cbn [negb fst snd] in *; eauto 6.
  assert (budget d w <> O) as Hnz by (intros Hx; specialize (Hz Hx); lia).
  destruct (reverse_connect_ends w1 g plain_config false) as [n1 Hn1].
  destruct (Hn1 n1 (le_n _)) as [[w2 sc] E].
  assert (0 <= sc) as Hsc by (unfold reverse_connect in E; destruct (mono_ms w1); now apply reverse_status in E).
  destruct (Z.eqb_spec sc UA_STATUSCODE_GOOD) as [Hg|Hg].
  2:{ exists (S n1). intros [|fuel] Hf; [lia|]. cbn [discovery_rounds]. rewrite Ew.
      destruct (Z.ltb_spec now d); [|lia]. cbn [negb]. rewrite (reverse_connect_mono _ fuel _ _ _ _ _ E) by lia.
      destruct (Z.eqb_spec sc UA_STATUSCODE_GOOD); [congruence|]. cbn [negb]. eauto 6. }
  assert (budget d w2 < budget d w)%nat as Hb.
  { unfold reverse_connect in E. pose proof (budget_mono d w1). destruct (mono_ms w1) as [w1' now1]. cbn [fst] in *.
    apply reverse_rounds_budget with (e := d) in E; [lia|assumption]. }
  pose proof (service_status w2) as H2. pose proof (service_items w2) as H3. pose proof (service_budget d w2) as H4.
  destruct (service w2) as [w3 [sc3 resp]] eqn:E3. cbn [fst snd] in *.
  destruct (IH w3 (sc3, resp) ltac:(lia) ltac:(cbn; lia) H3) as [n2 Hn2].
  exists (S (n1 + n2)). intros [|fuel] Hf; [lia|]. cbn [discovery_rounds]. rewrite Ew.
  destruct (Z.ltb_spec now d); [|lia]. cbn [negb]. rewrite (reverse_connect_mono _ fuel _ _ _ _ _ E) by lia.
  destruct (Z.eqb_spec sc UA_STATUSCODE_GOOD); [|congruence]. cbn [negb]. rewrite E3.
  destruct (negb (channel_lost sc3)); [exists w3, sc3, resp; split; [reflexivity|split; [lia|assumption]]|].
  apply Hn2. lia.
Qed.

Lemma discovery_call_ends w g dialled :
  (forall w, 0 <= fst (snd (dialled w)) < 2 ^ 32) -> (forall w, Forall P (snd (snd (dialled w)))) ->
  exists n, forall fuel, (n <= fuel)%nat -> exists w' r,
    discovery_call fuel w g service dialled = Some (w', r) /\
    match r with inl (sc, resp) => 0 <= sc /\ Forall P resp | inr tt => True end.
Proof.
  intros Hd Hp. unfold discovery_call. destruct (0 <? reverseListenPort g).
  - unfold reverse_discovery_call. destruct (mono_ms w) as [w1 now].
    set (d := now + _).
    destruct (discovery_rounds_end g d (budget d w1) w1 (UA_STATUSCODE_BADTIMEOUT, [])) as [n Hn];
      [lia|unfold UA_STATUSCODE_BADTIMEOUT; cbn; lia|constructor|].
    exists n. intros fuel Hf. destruct (Hn fuel Hf) as (w2 & sc & resp & -> & Hs & Hr).
    eexists _, _. split; [reflexivity|]. split; [assumption|]. destruct (_ =? _); [assumption|constructor].
  - exists O. intros fuel _. pose proof (Hd w) as H1. pose proof (Hp w) as H2.
    destruct (dialled w) as [w1 [sc resp]]. cbn [fst snd] in *.
    destruct (_ || _); [|eexists _, _; split; [reflexivity|split; [lia|assumption]]].
    destruct (Client_new w1) as [w2 ok]. destruct ok; [|eexists _, _; split; [reflexivity|exact I]].
    pose proof (Hd w2) as H3. pose proof (Hp w2) as H4. destruct (dialled w2) as [w3 [sc3 resp3]].
    cbn [fst snd] in *. eexists _, _. split; [reflexivity|]. split; [lia|assumption].
Qed.
End Service.

Lemma discovery_reports w g argv op errMsg (channel dialled : bytes -> W -> W * (Z * list A)) item
    (P : A -> Prop) :
  Bytes op -> Bytes errMsg ->
  (forall u w, 0 <= fst (snd (channel u w)) < 2 ^ 32) -> (forall u w, Forall P (snd (snd (channel u w)))) ->
  (forall d u w, (budget d (fst (channel u w)) <= budget d w)%nat) ->
  (forall u w, 0 <= fst (snd (dialled u w)) < 2 ^ 32) -> (forall u w, Forall P (snd (snd (dialled u w)))) ->
  (forall a, P a -> JValue (item a)) ->
  exists n, forall fuel, (n <= fuel)%nat ->
    ends_reporting op (discovery_command fuel w g argv op errMsg channel dialled item).
Proof.
  intros Ho He H1 H2 H3 H4 H5 Hi. unfold discovery_command.
  destruct (find_arg argv (B "--endpoint")) as [url|]; [|exists O; intros; apply ends_usage; [assumption|apply Bytes_B]].
  destruct (Client_new w) as [w1 ok].
  assert (forall (w : W) msg, Bytes msg -> ends_reporting op
    (failed w (fail op 6 UA_STATUSCODE_BADOUTOFMEMORY (B "internal") msg))) as Hno.
  { intros w2 msg Hm. eexists _, _, _. split; [reflexivity|]. apply reports_failure.
    apply good_fail; [assumption|apply Bytes_B|assumption|unfold UA_STATUSCODE_BADOUTOFMEMORY; lia|cbn; tauto]. }
  destruct ok; cbn [negb]; [|exists O; intros; apply Hno, Bytes_B].
  destruct (discovery_call_ends (channel url) P (H1 url) (H2 url) (fun d => H3 d url) w1 g (dialled url)
    (H4 url) (H5 url)) as [n Hn]. exists n. intros fuel Hf.
  destruct (Hn fuel Hf) as (w2 & r & -> & Hr). destruct r as [[sc resp]|[]]; [|apply Hno, Bytes_B].
  destruct Hr as [Hs Hp]. eexists _, _, _. split; [reflexivity|]. destruct (sc =? UA_STATUSCODE_GOOD);
    (apply reports_envelope; [assumption|assumption| |cbn; tauto|reflexivity]).
  - apply JRest_results, Forall_map. eapply Forall_impl; [|exact Hp]. exact Hi.
  - apply JRest_error; [apply Bytes_B|assumption].
Qed.
End Lemmas.

(** * Theorem *)

(** endpoints and find-servers always end, reversed or dialled, and print
    exactly one JSON envelope whose [success] is true exactly when the exit code
    is 0, provided the texts the server sends need no escaping. *)
Lemma discovery_commands_report {stack : UaStack} {laws : UaStackLaws stack} {W} {L : ClientLib W}
    {libLaws : ClientLibLaws L} {clk : Clock L} {srv : Services W} {dl : DiscoveryLaws L srv}
    {dc : DiscoveryClock clk srv} w g argv :
  exists n, forall fuel, (n <= fuel)%nat ->
    ends_reporting (B "endpoints") (cmd_endpoints fuel w g argv) /\
    ends_reporting (B "find-servers") (cmd_find_servers fuel w g argv).
Proof.
  assert (forall {T} (f : T -> bool) l, forallb f l = true -> Forall (fun x => f x = true) l) as HF
    by (intros; now apply Forall_forallb).
  destruct (discovery_reports w g argv (B "endpoints") (B "GetEndpoints failed")
    (fun url w => Channel_getEndpoints w url) (fun url w => Client_getEndpoints w url) endpoint_item
    (fun e => plain_endpoint e = true)) as [n1 H1];
    [apply Bytes_B..|intros; apply channel_endpoints_status|intros; apply HF, channel_endpoints_plain
    |intros; apply endpoints_budget|intros; apply endpoints_status|intros; apply HF, endpoints_plain
    |apply JValue_endpoint|].
  destruct (discovery_reports w g argv (B "find-servers") (B "FindServers failed")
    (fun _ w => Channel_findServers w) (fun url w => Client_findServers w url) application_item
    (fun e => plain_application e = true)) as [n2 H2];
    [apply Bytes_B..|intros; apply channel_servers_status|intros; apply HF, channel_servers_plain
    |intros; apply servers_budget|intros; apply find_servers_status|intros; apply HF, servers_plain
    |apply JValue_application|].
  exists (n1 + n2)%nat. intros fuel Hf. split; [apply H1|apply H2]; lia.
Qed.

#[export] Instance ref_discovery : DiscoveryLaws ref_client ref_services.
Proof.
  split; intros; cbn; unfold UA_STATUSCODE_GOOD, UA_STATUSCODE_BADCONNECTIONCLOSED; lia || reflexivity.
Qed.
#[export] Instance ref_discovery_clock : DiscoveryClock ref_clock ref_services.
Proof. split; intros; cbn; lia. Qed.

(** An endpoint URL is printed without escaping: a quote in it breaks the
    envelope. *)
Lemma endpoint_url_unescaped :
  is_json (endpoint_item {| ep_url := Some (J "opc.tcp://h/'x"); ep_policyUri := None; ep_mode := ModeNone |} ++ [10])
  = false.
Proof. reflexivity. Qed.
