(* ===== verification/Historian.v ===== *)
(** server.c, the raw historian ([InteropHistCtx], [interop_hist_read_raw],
    [interop_make_history_database]) and client.c, [history_read_once] and the
    [--scenario continue] run of [cmd_history_read].  The client is written
    against the class [HistoryServer]; the historian is an instance of it.  The
    theorems: the invariant of the continuation-point table, what one read does
    to it, and that following continuation points returns every matching sample
    once and in order. *)

From Stdlib Require Import String Ascii ZArith Bool List Lia SpecFloat.
From stdpp Require Import base decidable list.
From S2P Require Import Prelude CLib Json Float UaTypes RefStack Base64.

#[export] Instance nodeid_eq_decision : EqDecision ua_nodeid := nodeid_eq_dec.

(** * server.c: the context *)

Record cp_slot := { token0 : Z; token1 : Z; cp_offset : nat; inUse : bool; released : bool }.

Record InteropHistCtx := {
  histNodeId : ua_nodeid;
  samples : list ua_datavalue;
  cps : list cp_slot }.

Definition sampleCount (ctx : InteropHistCtx) : nat := length (samples ctx).

Definition set_cps (ctx : InteropHistCtx) (l : list cp_slot) : InteropHistCtx :=
  {| histNodeId := histNodeId ctx; samples := samples ctx; cps := l |}.

Definition sample_time (d : ua_datavalue) : Z :=
  let '(DataValue _ _ t _ _ _) := d in Prelude.default 0 t.

Record read_details := { startTime : Z; endTime : Z; numValuesPerNode : Z }.

(** A node to read; [rn_hd] tells whether the response has a place for its
    values ([historyData[i]] is not NULL). *)
Record read_node := { rn_nodeId : ua_nodeid; rn_cp : ua_string; rn_hd : bool }.

Record read_result := {
  rr_statusCode : Z; rr_continuationPoint : ua_string; rr_data : option (list ua_datavalue) }.

Definition status_only (sc : Z) : read_result :=
  {| rr_statusCode := sc; rr_continuationPoint := None; rr_data := None |}.

(** * server.c: interop_hist_read_raw *)

(** A continuation point names a slot by its first byte and, when it has one,
    its second. *)
Definition token_matches (cp : bytes) (s : cp_slot) : bool :=
  inUse s && (token0 s =? nth 0 cp 0) &&
  (Nat.ltb (length cp) 2 || (token1 s =? nth 1 cp 0)).

Definition find_cp (l : list cp_slot) (cp : bytes) : option (nat * cp_slot) :=
  list_find (fun s => token_matches cp s = true) l.

(** Where to read from, or the status that ends the node's read. *)
Inductive resolved := Stop (ctx : InteropHistCtx) (sc : Z) | From (offset : nat).

Definition resolve_cp (ctx : InteropHistCtx) (release : bool) (cp : ua_string) : resolved :=
  match cp with
  | Some ((_ :: _) as d) =>
      match find_cp (cps ctx) d with
      | None => Stop ctx UA_STATUSCODE_BADCONTINUATIONPOINTINVALID
      | Some (i, s) =>
          if released s then Stop ctx UA_STATUSCODE_BADCONTINUATIONPOINTINVALID
          else if release then
            Stop (set_cps ctx (<[i := {| token0 := token0 s; token1 := token1 s;
                    cp_offset := cp_offset s; inUse := inUse s; released := true |}]> (cps ctx)))
                 UA_STATUSCODE_GOOD
          else From (cp_offset s)
      end
  | _ => if release then Stop ctx UA_STATUSCODE_GOOD else From 0
  end.

(** The samples within the inclusive time range; a zero bound is open. *)
Definition in_time_range (d : read_details) (v : ua_datavalue) : bool :=
  negb (negb (startTime d =? 0) && (sample_time v <? startTime d)) &&
  negb (negb (endTime d =? 0) && (endTime d <? sample_time v)).

Definition matched_samples (ctx : InteropHistCtx) (d : read_details) : list ua_datavalue :=
  take 5 (List.filter (in_time_range d) (samples ctx)).

Definition find_slot (l : list cp_slot) (cp : ua_string) : nat :=
  match list_find (fun s => (negb (inUse s) ||
          match cp with Some (c :: _) => token0 s =? c | _ => false end) = true) l with
  | Some (i, _) => i
  | None => 0%nat
  end.

(** The token of slot [i]. *)
Definition cp_token (i : nat) : bytes := [u8 (1 + Z.of_nat i); 0xA5].

Definition issue_cp (ctx : InteropHistCtx) (cp : ua_string) (end_ : nat) : InteropHistCtx * bytes :=
  let slot := find_slot (cps ctx) cp in
  (set_cps ctx (<[slot := {| token0 := u8 (1 + Z.of_nat slot); token1 := 0xA5; cp_offset := end_;
                             inUse := true; released := false |}]> (cps ctx)), cp_token slot).

Definition read_page (ctx : InteropHistCtx) (d : read_details) (node : read_node) (offset : nat)
    : InteropHistCtx * read_result :=
  let m := matched_samples ctx d in
  let n := numValuesPerNode d in
  let num := if (n =? 0) || (Z.of_nat (length m) <? n) then length m else Z.to_nat n in
  if Nat.ltb (length m) offset then (ctx, status_only UA_STATUSCODE_BADCONTINUATIONPOINTINVALID)
  else
    let end_ := Nat.min (offset + num) (length m) in
    if negb (rn_hd node) then (ctx, status_only UA_STATUSCODE_BADINTERNALERROR)
    else
      let values := take (end_ - offset) (drop offset m) in
      if Nat.ltb end_ (length m) then
        let '(ctx', token) := issue_cp ctx (rn_cp node) end_ in
        (ctx', {| rr_statusCode := UA_STATUSCODE_GOOD; rr_continuationPoint := Some token;
                  rr_data := Some values |})
      else (ctx, {| rr_statusCode := UA_STATUSCODE_GOOD; rr_continuationPoint := None;
                    rr_data := Some values |}).

Definition hist_read_node (d : read_details) (release : bool) (ctx : InteropHistCtx) (node : read_node)
    : InteropHistCtx * read_result :=
  if negb (bool_decide (rn_nodeId node = histNodeId ctx)) then
    (ctx, status_only UA_STATUSCODE_BADHISTORYOPERATIONUNSUPPORTED)
  else match resolve_cp ctx release (rn_cp node) with
       | Stop ctx' sc => (ctx', status_only sc)
       | From offset => read_page ctx d node offset
       end.

Fixpoint interop_hist_read_raw (d : read_details) (release : bool) (ctx : InteropHistCtx)
    (nodes : list read_node) : InteropHistCtx * list read_result :=
  match nodes with
  | [] => (ctx, [])
  | n :: r =>
      let '(ctx1, res) := hist_read_node d release ctx n in
      let '(ctx2, rest) := interop_hist_read_raw d release ctx1 r in
      (ctx2, res :: rest)
  end.

(** * server.c: interop_make_history_database *)

(** 2026-07-24T10:00:00Z *)
Definition hist_base : Z := (1784887200 + UNIX_EPOCH_SEC) * UA_DATETIME_SEC.

Definition hist_sample (i : nat) : ua_datavalue :=
  let t := hist_base + Z.of_nat (i * 5) * UA_DATETIME_SEC in
  DataValue (Some (VtScalar (VDouble (double_of false (20 + Z.of_nat i) 0))))
    (Some UA_STATUSCODE_GOOD) (Some t) None (Some t) None.

Definition empty_slot : cp_slot :=
  {| token0 := 0; token1 := 0; cp_offset := 0; inUse := false; released := false |}.

Definition interop_make_history_database (histNode : ua_nodeid) : InteropHistCtx :=
  {| histNodeId := histNode; samples := map hist_sample (seq 0 5); cps := replicate 16 empty_slot |}.

(** * client.c: history_read_once *)

Record history_request := {
  hq_details : read_details; hq_returnBounds : bool; hq_timestamps : Z; hq_release : bool;
  hq_nodeId : ua_nodeid; hq_cp : ua_string }.

Record history_response := { hs_serviceResult : Z; hs_results : list read_result }.

(** What the client needs of a server: the HistoryRead service on its state. *)
Class HistoryServer (St : Type) := {
  Service_historyRead : St -> history_request -> St * history_response
}.

Record read_once := { ro_svc : Z; ro_item : Z; ro_cp : ua_string; ro_data : option (list ua_datavalue) }.

Section Client.
Context {stack : UaStack} {St : Type} {srv : HistoryServer St}.

(** The [--continuation-point] text: ignored when it is not Base64 or empty. *)
Definition request_cp (cpStr : option bytes) : ua_string :=
  match cpStr with
  | Some ((_ :: _) as s) =>
      match client_b64_decode s with
      | Some ((_ :: _) as d) => Some d
      | _ => None
      end
  | _ => None
  end.

Definition history_read_once (st : St) (nodeId : ua_nodeid) (details : read_details)
    (returnBounds : bool) (ts : Z) (cpStr : option bytes) (releaseCp : bool) : St * read_once :=
  let '(st', resp) := Service_historyRead st
    {| hq_details := details; hq_returnBounds := returnBounds; hq_timestamps := ts;
       hq_release := releaseCp; hq_nodeId := nodeId; hq_cp := request_cp cpStr |} in
  (st',
   match StatusCode_isGood (hs_serviceResult resp), hs_results resp with
   | true, hr :: _ =>
       {| ro_svc := hs_serviceResult resp; ro_item := rr_statusCode hr;
          ro_cp := match rr_continuationPoint hr with Some ((_ :: _) as c) => Some c | _ => None end;
          ro_data := rr_data hr |}
   | _, _ => {| ro_svc := hs_serviceResult resp; ro_item := UA_STATUSCODE_GOOD; ro_cp := None;
                ro_data := None |}
   end).

(** * client.c: the continue scenario *)

Record cont_run := {
  cr_pages : list read_once; cr_lastSvc : Z; cr_lastItem : Z; cr_reuse : bytes }.

(** The [for (i = 0; i < 8; i++)] loop; [n] counts the iterations left, [reuse]
    is [reuseCpB64]. *)
Fixpoint cont_pages (n : nat) (st : St) (nodeId : ua_nodeid) (details : read_details)
    (returnBounds : bool) (ts : Z) (curCp : option bytes) (acc : cont_run) : St * cont_run :=
  match n with
  | O => (st, acc)
  | S n' =>
      let '(st', r) := history_read_once st nodeId details returnBounds ts curCp false in
      let b64 := option_map (fun c => snprintf 512 (value_b64_encode c)) (ro_cp r) in
      let acc' := {| cr_pages := cr_pages acc ++ [r]; cr_lastSvc := ro_svc r; cr_lastItem := ro_item r;
                     cr_reuse := Prelude.default (cr_reuse acc) b64 |} in
      if negb (StatusCode_isGood (ro_svc r)) || negb (StatusCode_isGood (ro_item r))
         || negb (is_some b64)
      then (st', acc')
      else cont_pages n' st' nodeId details returnBounds ts b64 acc'
  end.

Definition item_or_service (r : read_once) : Z :=
  if StatusCode_isGood (ro_svc r) then ro_item r else ro_svc r.

Record cont_result := { cc_run : cont_run; cc_releaseSc : Z; cc_reuseSc : Z }.

Definition history_continue (st : St) (nodeId : ua_nodeid) (details : read_details)
    (returnBounds : bool) (ts : Z) : St * cont_result :=
  let details := {| startTime := startTime details; endTime := endTime details;
    numValuesPerNode := if numValuesPerNode details =? 0 then 2 else numValuesPerNode details |} in
  let '(st, run) := cont_pages 8 st nodeId details returnBounds ts None
    {| cr_pages := []; cr_lastSvc := UA_STATUSCODE_GOOD; cr_lastItem := UA_STATUSCODE_GOOD;
       cr_reuse := [] |} in
  match cr_reuse run with
  | [] => (st, {| cc_run := run; cc_releaseSc := UA_STATUSCODE_GOOD; cc_reuseSc := UA_STATUSCODE_GOOD |})
  | reuse =>
      let '(st, rel) := history_read_once st nodeId details returnBounds ts (Some reuse) true in
      let '(st, again) := history_read_once st nodeId details returnBounds ts (Some reuse) false in
      (st, {| cc_run := run; cc_releaseSc := item_or_service rel; cc_reuseSc := item_or_service again |})
  end.

Definition continue_ok (r : cont_result) : bool :=
  StatusCode_isGood (cr_lastSvc (cc_run r)) && StatusCode_isGood (cr_lastItem (cc_run r))
  && Nat.ltb 0 (length (cr_pages (cc_run r))).
End Client.

(** The historian behind the HistoryRead service: one node per request, and a
    place for its values. *)
#[export] Instance historian_server : HistoryServer InteropHistCtx := {
  Service_historyRead ctx q :=
    let '(ctx', results) := interop_hist_read_raw (hq_details q) (hq_release q) ctx
      [{| rn_nodeId := hq_nodeId q; rn_cp := hq_cp q; rn_hd := true |}] in
    (ctx', {| hs_serviceResult := UA_STATUSCODE_GOOD; hs_results := results |}) }.

(** * The invariant of the continuation-point table *)

(** 16 slots; a slot in use carries the token of its index; slots come into use
    from the front and stay in use. *)
Record hist_inv (ctx : InteropHistCtx) : Prop := {
  inv_len : length (cps ctx) = 16%nat;
  inv_token : forall i s, cps ctx !! i = Some s -> inUse s = true ->
    [token0 s; token1 s] = cp_token i;
  inv_prefix : forall i j si sj, (i < j)%nat -> cps ctx !! i = Some si -> cps ctx !! j = Some sj ->
    inUse sj = true -> inUse si = true }.

Lemma cp_token_eq i : (i < 16)%nat -> cp_token i = [1 + Z.of_nat i; 165].
Proof. intros H. unfold cp_token, u8. rewrite uwrap_small by lia. reflexivity. Qed.

Lemma slot_index ctx i s : hist_inv ctx -> cps ctx !! i = Some s -> (i < 16)%nat.
Proof. intros H E. rewrite <- (inv_len ctx H). now apply lookup_lt_Some in E. Qed.

Lemma inv_tokens ctx i s : hist_inv ctx -> cps ctx !! i = Some s -> inUse s = true ->
  token0 s = 1 + Z.of_nat i /\ token1 s = 165.
Proof.
  intros H E U. pose proof (inv_token ctx H i s E U) as T.
  rewrite cp_token_eq in T by (eapply slot_index; eauto). injection T. auto.
Qed.

(** A token finds its slot. *)
Lemma find_cp_token ctx i s : hist_inv ctx -> cps ctx !! i = Some s -> inUse s = true ->
  find_cp (cps ctx) (cp_token i) = Some (i, s).
Proof.
  intros H E U. pose proof (slot_index _ _ _ H E) as Hi. unfold find_cp. apply list_find_Some.
  destruct (inv_tokens _ _ _ H E U) as [T0 T1]. rewrite cp_token_eq by assumption.
  split; [assumption|split].
  - unfold token_matches. cbn [nth length]. rewrite U, T0, T1, !Z.eqb_refl. reflexivity.
  - intros j y Ej Hj Hm. unfold token_matches in Hm. cbn [nth] in Hm. zbool.
    destruct (inv_tokens _ _ _ H Ej) as [Tj _]; [assumption|]. lia.
Qed.

(** A reader that continues keeps its slot. *)
Lemma find_slot_own ctx i s : hist_inv ctx -> cps ctx !! i = Some s -> inUse s = true ->
  find_slot (cps ctx) (Some (cp_token i)) = i.
Proof.
  intros H E U. pose proof (slot_index _ _ _ H E) as Hi. unfold find_slot.
  rewrite cp_token_eq by assumption.
  destruct (inv_tokens _ _ _ H E U) as [T0 _].
  match goal with |- match list_find ?P ?l with _ => _ end = _ =>
    assert (list_find P l = Some (i, s)) as -> end; [|reflexivity].
  apply list_find_Some. split; [assumption|split].
  - rewrite T0, Z.eqb_refl. apply orb_true_r.
  - intros j y Ej Hj Hm. assert (inUse y = true) as Uy by (eapply (inv_prefix ctx H j i); eauto).
    destruct (inv_tokens _ _ _ H Ej Uy) as [Tj _]. rewrite Uy, Tj in Hm. cbn in Hm. zbool. lia.
Qed.

(** Every slot before the chosen one is in use. *)
Lemma find_slot_first ctx cp : hist_inv ctx ->
  (find_slot (cps ctx) cp < 16)%nat /\
  forall j s, (j < find_slot (cps ctx) cp)%nat -> cps ctx !! j = Some s -> inUse s = true.
Proof.
  intros H. unfold find_slot. destruct (list_find _ _) as [[i s]|] eqn:E; [|split; lia].
  apply list_find_Some in E as (E & _ & Hmin). split; [eapply slot_index; eauto|].
  intros j y Hj Ej. destruct (inUse y) eqn:U; [reflexivity|]. exfalso.
  apply (Hmin j y Ej Hj). now rewrite U.
Qed.

Lemma inv_release ctx i s : hist_inv ctx -> cps ctx !! i = Some s ->
  hist_inv (set_cps ctx (<[i := {| token0 := token0 s; token1 := token1 s;
    cp_offset := cp_offset s; inUse := inUse s; released := true |}]> (cps ctx))).
Proof.
  intros H E. pose proof (slot_index _ _ _ H E) as Hi. pose proof (inv_len ctx H) as Hl. split; cbn [cps set_cps].
  - now rewrite length_insert.
  - intros j t Ej U. destruct (decide (i = j)) as [<-|Hn].
    + rewrite list_lookup_insert_eq in Ej by lia. injection Ej as <-. cbn in *.
      now apply (inv_token ctx H i s).
    + rewrite list_lookup_insert_ne in Ej by assumption. now apply (inv_token ctx H).
  - intros j k sj sk Hjk Ej Ek U.
    assert (exists tj, cps ctx !! j = Some tj /\ inUse tj = inUse sj) as (tj & Etj & <-).
    { destruct (decide (i = j)) as [<-|Hn].
      - rewrite list_lookup_insert_eq in Ej by lia. injection Ej as <-. eauto.
      - rewrite list_lookup_insert_ne in Ej by assumption. eauto. }
    assert (exists tk, cps ctx !! k = Some tk /\ inUse tk = true) as (tk & Etk & Uk).
    { destruct (decide (i = k)) as [<-|Hn].
      - rewrite list_lookup_insert_eq in Ek by lia. injection Ek as <-. eauto.
      - rewrite list_lookup_insert_ne in Ek by assumption. eauto. }
    exact (inv_prefix ctx H j k tj tk Hjk Etj Etk Uk).
Qed.

Lemma inv_issue ctx cp k : hist_inv ctx -> hist_inv (fst (issue_cp ctx cp k)).
Proof.
  intros H. destruct (find_slot_first ctx cp H) as [Hi Hf]. pose proof (inv_len ctx H) as Hl.
  unfold issue_cp. set (i := find_slot (cps ctx) cp) in *. split; cbn [fst cps set_cps].
  - now rewrite length_insert.
  - intros j t Ej U. destruct (decide (i = j)) as [<-|Hn].
    + rewrite list_lookup_insert_eq in Ej by lia. injection Ej as <-. reflexivity.
    + rewrite list_lookup_insert_ne in Ej by assumption. now apply (inv_token ctx H).
  - intros j l sj sl Hjl Ej El U. destruct (decide (i = j)) as [<-|Hn].
    { rewrite list_lookup_insert_eq in Ej by lia. now injection Ej as <-. }
    rewrite list_lookup_insert_ne in Ej by assumption. destruct (decide (i = l)) as [<-|Hn'].
    + now apply (Hf j).
    + rewrite list_lookup_insert_ne in El by assumption. exact (inv_prefix ctx H j l sj sl Hjl Ej El U).
Qed.

(** What a read leaves alone. *)
Definition same_store (a b : InteropHistCtx) : Prop :=
  histNodeId a = histNodeId b /\ samples a = samples b.

Lemma same_store_matched a b d : same_store a b -> matched_samples a d = matched_samples b d.
Proof. intros [_ E]. unfold matched_samples. now rewrite E. Qed.

(** The cases of one node's read. *)
Inductive read_case (d : read_details) (ctx : InteropHistCtx) (node : read_node)
  : InteropHistCtx -> read_result -> Prop :=
| read_none r : read_case d ctx node ctx r
| read_release i s : cps ctx !! i = Some s -> find_cp (cps ctx) (Prelude.default [] (rn_cp node)) = Some (i, s) ->
    read_case d ctx node
      (set_cps ctx (<[i := {| token0 := token0 s; token1 := token1 s;
        cp_offset := cp_offset s; inUse := inUse s; released := true |}]> (cps ctx)))
      (status_only UA_STATUSCODE_GOOD)
| read_issue k r : read_case d ctx node (fst (issue_cp ctx (rn_cp node) k)) r.

Lemma hist_read_cases d release ctx node :
  read_case d ctx node (fst (hist_read_node d release ctx node)) (snd (hist_read_node d release ctx node)).
Proof.
  unfold hist_read_node. destruct (bool_decide _); cbn [negb]; [|apply read_none].
  assert (forall off, read_case d ctx node (fst (read_page ctx d node off)) (snd (read_page ctx d node off)))
    as Hpage.
  { intros off. unfold read_page. destruct (Nat.ltb _ off); [apply read_none|].
    destruct (negb (rn_hd node)); [apply read_none|].
    destruct (Nat.ltb _ (length _)); [|apply read_none].
    match goal with |- context [issue_cp ctx (rn_cp node) ?k] =>
      pose proof (read_issue d ctx node k) as Hi; destruct (issue_cp ctx (rn_cp node) k) end. apply Hi. }
  unfold resolve_cp. destruct (rn_cp node) as [[|c cp]|] eqn:Ecp.
  - destruct release; [apply read_none|apply Hpage].
  - destruct (find_cp (cps ctx) (c :: cp)) as [[i s]|] eqn:E; [|apply read_none].
    destruct (released s); [apply read_none|]. destruct release; [|apply Hpage].
    pose proof E as E'. unfold find_cp in E'. apply list_find_Some in E' as (El & _).
    cbn [fst snd]. apply read_release; [assumption|]. now rewrite Ecp.
  - destruct release; [apply read_none|apply Hpage].
Qed.

Lemma hist_read_node_inv d release ctx node : hist_inv ctx ->
  hist_inv (fst (hist_read_node d release ctx node))
  /\ same_store ctx (fst (hist_read_node d release ctx node)).
Proof.
  intros H. destruct (hist_read_cases d release ctx node); [now split|..].
  - split; [now apply inv_release|now split].
  - split; [now apply inv_issue|now split].
Qed.

Lemma same_store_trans a b c : same_store a b -> same_store b c -> same_store a c.
Proof. intros [? ?] [? ?]. split; congruence. Qed.

Lemma hist_read_raw_inv d release nodes : forall ctx, hist_inv ctx ->
  hist_inv (fst (interop_hist_read_raw d release ctx nodes))
  /\ same_store ctx (fst (interop_hist_read_raw d release ctx nodes))
  /\ length (snd (interop_hist_read_raw d release ctx nodes)) = length nodes.
Proof.
  induction nodes as [|n nodes IH]; intros ctx H; [split; [assumption|now repeat split]|].
  cbn [interop_hist_read_raw]. destruct (hist_read_node_inv d release ctx n H) as [H1 S1].
  destruct (hist_read_node d release ctx n) as [ctx1 res]. cbn [fst] in *.
  destruct (IH ctx1 H1) as (H2 & S2 & L). destruct (interop_hist_read_raw d release ctx1 nodes) as [ctx2 rest].
  cbn [fst snd length] in *. split; [assumption|]. split; [|congruence].
  exact (same_store_trans _ _ _ S1 S2).
Qed.

Lemma make_inv n : hist_inv (interop_make_history_database n).
Proof.
  split; cbn [cps interop_make_history_database].
  - apply length_replicate.
  - intros i s E U. apply lookup_replicate_1 in E as [-> _]. discriminate.
  - intros i j si sj _ _ E U. apply lookup_replicate_1 in E as [-> _]. discriminate.
Qed.

(** The states of a running server: any sequence of HistoryRead requests. *)
Inductive reachable (n : ua_nodeid) : InteropHistCtx -> Prop :=
| reach_init : reachable n (interop_make_history_database n)
| reach_read ctx d release nodes : reachable n ctx ->
    reachable n (fst (interop_hist_read_raw d release ctx nodes)).

Lemma reachable_inv n ctx : reachable n ctx ->
  hist_inv ctx /\ same_store (interop_make_history_database n) ctx.
Proof.
  induction 1 as [|ctx d release nodes _ [H S]]; [split; [apply make_inv|now split]|].
  destruct (hist_read_raw_inv d release nodes ctx H) as (H' & S' & _). split; [assumption|].
  exact (same_store_trans _ _ _ S S').
Qed.

(** * One page *)

Definition page_node (n : ua_nodeid) (cp : ua_string) : read_node :=
  {| rn_nodeId := n; rn_cp := cp; rn_hd := true |}.

(** A reader of node [n] holds slot [i] at offset [k]. *)
Definition holds (ctx : InteropHistCtx) (i k : nat) : Prop :=
  exists s, cps ctx !! i = Some s /\ inUse s = true /\ released s = false /\ cp_offset s = k.

Lemma issue_holds ctx cp k : hist_inv ctx -> holds (fst (issue_cp ctx cp k)) (find_slot (cps ctx) cp) k.
Proof.
  intros H. destruct (find_slot_first ctx cp H) as [Hi _]. unfold holds, issue_cp. cbn [fst cps set_cps].
  eexists. split; [apply list_lookup_insert_eq; rewrite (inv_len ctx H); lia|]. repeat split.
Qed.

Lemma read_page_last ctx d n cp k : numValuesPerNode d > 0 ->
  (k <= length (matched_samples ctx d))%nat ->
  (length (matched_samples ctx d) <= k + Z.to_nat (numValuesPerNode d))%nat ->
  read_page ctx d (page_node n cp) k =
  (ctx, {| rr_statusCode := UA_STATUSCODE_GOOD; rr_continuationPoint := None;
           rr_data := Some (drop k (matched_samples ctx d)) |}).
Proof.
  intros Hn Hk Hl. unfold read_page. cbn [rn_hd page_node negb].
  set (m := matched_samples ctx d) in *.
  destruct (Nat.ltb_spec (length m) k); [lia|].
  destruct (Z.eqb_spec (numValuesPerNode d) 0); [lia|]. cbn [orb].
  assert (Nat.min (k + (if Z.of_nat (length m) <? numValuesPerNode d then length m
    else Z.to_nat (numValuesPerNode d))) (length m) = length m) as ->
    by (destruct (Z.ltb_spec (Z.of_nat (length m)) (numValuesPerNode d)); lia).
  destruct (Nat.ltb_spec (length m) (length m)); [lia|].
  rewrite take_ge by (rewrite length_drop; lia). reflexivity.
Qed.

Lemma read_page_more ctx d n cp k : numValuesPerNode d > 0 ->
  (k + Z.to_nat (numValuesPerNode d) < length (matched_samples ctx d))%nat ->
  read_page ctx d (page_node n cp) k =
  (fst (issue_cp ctx cp (k + Z.to_nat (numValuesPerNode d))),
   {| rr_statusCode := UA_STATUSCODE_GOOD;
      rr_continuationPoint := Some (cp_token (find_slot (cps ctx) cp));
      rr_data := Some (take (Z.to_nat (numValuesPerNode d)) (drop k (matched_samples ctx d))) |}).
Proof.
  intros Hn Hl. unfold read_page. cbn [rn_hd rn_cp page_node negb].
  set (m := matched_samples ctx d) in *. set (num := Z.to_nat (numValuesPerNode d)) in *.
  destruct (Nat.ltb_spec (length m) k); [lia|].
  destruct (Z.eqb_spec (numValuesPerNode d) 0); [lia|]. cbn [orb].
  destruct (Z.ltb_spec (Z.of_nat (length m)) (numValuesPerNode d)); [lia|]. fold num.
  rewrite Nat.min_l by lia. destruct (Nat.ltb_spec (k + num) (length m)); [|lia].
  replace (k + num - k)%nat with num by lia. reflexivity.
Qed.

(** * Following the continuation points *)

Section Paging.
Context {stack : UaStack} {laws : UaStackLaws stack}.

Lemma good_is_good : StatusCode_isGood UA_STATUSCODE_GOOD = true.
Proof. rewrite isGood_severity by (unfold UA_STATUSCODE_GOOD; lia). reflexivity. Qed.

(** A token survives the Base64 text it is shown in. *)
Definition token_text (i : nat) : bytes := snprintf 512 (value_b64_encode (cp_token i)).

Lemma request_token i : request_cp (Some (token_text i)) = Some (cp_token i).
Proof.
  assert (token_text i = value_b64_encode (cp_token i)) as ->.
  { unfold token_text, snprintf. apply take_ge. rewrite encode_length. cbn. lia. }
  unfold request_cp. rewrite client_decode_eq, decode_encode; [reflexivity|].
  repeat constructor. apply u8_is_byte.
Qed.

Lemma token_text_nonempty i : exists c r, token_text i = c :: r.
Proof. unfold token_text, cp_token. cbn. eauto. Qed.

(** The client's view of one read of the historian. *)
Lemma read_once_historian ctx n d rb ts cpStr release :
  history_read_once ctx n d rb ts cpStr release =
  (fst (hist_read_node d release ctx (page_node n (request_cp cpStr))),
   let hr := snd (hist_read_node d release ctx (page_node n (request_cp cpStr))) in
   {| ro_svc := UA_STATUSCODE_GOOD; ro_item := rr_statusCode hr;
      ro_cp := match rr_continuationPoint hr with Some ((_ :: _) as c) => Some c | _ => None end;
      ro_data := rr_data hr |}).
Proof.
  unfold history_read_once, Service_historyRead, historian_server.
  cbn [hq_details hq_release hq_nodeId hq_cp interop_hist_read_raw]. fold (page_node n (request_cp cpStr)).
  destruct (hist_read_node d release ctx (page_node n (request_cp cpStr))) as [ctx' hr].
  cbn [hs_serviceResult hs_results fst snd]. now rewrite good_is_good.
Qed.

(** Where a read of the historian's node starts. *)
Definition starts_at (ctx : InteropHistCtx) (cpStr : option bytes) (k : nat) : Prop :=
  cpStr = None /\ k = 0%nat \/ exists i, cpStr = Some (token_text i) /\ holds ctx i k.

Lemma starts_read ctx n d k cpStr : hist_inv ctx -> n = histNodeId ctx -> starts_at ctx cpStr k ->
  hist_read_node d false ctx (page_node n (request_cp cpStr)) =
  read_page ctx d (page_node n (request_cp cpStr)) k.
Proof.
  intros H Hn Hs. unfold hist_read_node. cbn [rn_nodeId rn_cp page_node].
  rewrite bool_decide_true by assumption. cbn [negb].
  destruct Hs as [[-> ->] | (i & -> & s & E & U & R & <-)]; [reflexivity|].
  rewrite request_token. unfold resolve_cp, cp_token. fold (cp_token i).
  rewrite (find_cp_token ctx i s H E U), R. reflexivity.
Qed.

(** The slot a reader uses: its own, or the one chosen for a new reader. *)
Definition reader_slot (ctx : InteropHistCtx) (cpStr : option bytes) : nat :=
  find_slot (cps ctx) (request_cp cpStr).

(** What the loop collects from offset [k] on. *)
Record collected (d : read_details) (m : list ua_datavalue) (k : nat)
    (acc run : cont_run) (ctx' : InteropHistCtx) : Prop := {
  col_values : concat (map (fun r => Prelude.default [] (ro_data r)) (cr_pages run)) =
    concat (map (fun r => Prelude.default [] (ro_data r)) (cr_pages acc)) ++ drop k m;
  col_good : Forall (fun r => ro_svc r = UA_STATUSCODE_GOOD /\ ro_item r = UA_STATUSCODE_GOOD)
    (cr_pages acc) ->
    Forall (fun r => ro_svc r = UA_STATUSCODE_GOOD /\ ro_item r = UA_STATUSCODE_GOOD) (cr_pages run);
  col_last : cr_lastSvc run = UA_STATUSCODE_GOOD /\ cr_lastItem run = UA_STATUSCODE_GOOD;
  col_some : (0 < length (cr_pages run))%nat;
  col_inv : hist_inv ctx';
  col_reuse : (k + Z.to_nat (numValuesPerNode d) < length m)%nat ->
    exists i k', cr_reuse run = token_text i /\ holds ctx' i k';
  col_single : (length m <= k + Z.to_nat (numValuesPerNode d))%nat -> cr_reuse run = cr_reuse acc }.

Lemma cont_pages_collect d rb ts : numValuesPerNode d > 0 -> forall n ctx cpStr k acc,
  hist_inv ctx -> starts_at ctx cpStr k -> (k <= length (matched_samples ctx d))%nat ->
  (length (matched_samples ctx d) - k < n)%nat ->
  let '(ctx', run) := cont_pages n ctx (histNodeId ctx) d rb ts cpStr acc in
  collected d (matched_samples ctx d) k acc run ctx' /\ same_store ctx ctx' /\
  (forall i, cpStr = Some (token_text i) ->
     (length (matched_samples ctx d) <= k + Z.to_nat (numValuesPerNode d))%nat -> ctx' = ctx).
Proof.
  intros Hn. induction n as [|n IH]; intros ctx cpStr k acc H Hs Hk Hf; [lia|].
  cbn [cont_pages]. rewrite read_once_historian, (starts_read ctx _ d k) by auto.
  set (m := matched_samples ctx d) in *. set (num := Z.to_nat (numValuesPerNode d)).
  destruct (Nat.le_gt_cases (length m) (k + num)) as [Hlast|Hmore].
  - rewrite read_page_last by assumption. cbn [fst snd rr_statusCode rr_continuationPoint rr_data
      ro_svc ro_item ro_cp ro_data option_map is_some negb]. rewrite orb_true_r.
    split; [|split; [now split|auto]]. split; cbn [cr_pages cr_lastSvc cr_lastItem cr_reuse Prelude.default].
    + rewrite map_app, concat_app. cbn. now rewrite app_nil_r.
    + intros Ha. apply Forall_app; split; [assumption|]. constructor; [now split|constructor].
    + now split.
    + rewrite length_app. cbn. lia.
    + assumption.
    + fold m num. lia.
    + reflexivity.
  - rewrite read_page_more by assumption. fold num. cbn [fst snd rr_statusCode rr_continuationPoint
      rr_data ro_svc ro_item ro_cp ro_data]. set (i := find_slot (cps ctx) (request_cp cpStr)).
    set (ctx1 := fst (issue_cp ctx (request_cp cpStr) (k + num))).
    assert (hist_inv ctx1) as H1 by now apply inv_issue.
    assert (holds ctx1 i (k + num)) as Hh by now apply issue_holds.
    assert (same_store ctx ctx1) as S1 by now split.
    replace (match Some (cp_token i) with Some ((_ :: _) as c) => Some c | _ => None end)
      with (Some (cp_token i)) by reflexivity.
    cbn [option_map is_some negb]. rewrite good_is_good. cbn [negb orb]. fold (token_text i).
    pose proof (same_store_matched _ _ d S1) as Em. fold m in Em.
    match goal with |- context [cont_pages n ctx1 _ d rb ts _ ?a] => set (acc1 := a) end.
    specialize (IH ctx1 (Some (token_text i)) (k + num)%nat acc1 H1).
    rewrite <- Em in IH. replace (histNodeId ctx) with (histNodeId ctx1) by apply S1.
    destruct (cont_pages n ctx1 (histNodeId ctx1) d rb ts (Some (token_text i)) acc1) as [ctx' run].
    destruct IH as (C & S2 & Hsame); [right; eauto|lia|unfold num; lia|].
    destruct C as [C1 C2 C3 C4 C5 C6 C7].
    split; [|split; [exact (same_store_trans _ _ _ S1 S2)|intros; lia]].
    split; try assumption.
    + rewrite C1. unfold acc1. cbn [cr_pages]. rewrite map_app, concat_app. cbn. rewrite app_nil_r, <- app_assoc.
      f_equal. rewrite <- drop_drop. apply take_drop.
    + intros Ha. apply C2. unfold acc1. cbn [cr_pages]. apply Forall_app; split; [assumption|].
      constructor; [now split|constructor].
    + intros _. fold num in C6, C7.
      destruct (Nat.le_gt_cases (length m) (k + num + num)) as [Hl2|Hm2]; [|now apply C6].
      exists i, (k + num)%nat. rewrite (Hsame i eq_refl Hl2). split; [|assumption].
      rewrite (C7 Hl2). reflexivity.
    + fold num. lia.
Qed.

Lemma released_token ctx n d rb ts i k : hist_inv ctx -> n = histNodeId ctx -> holds ctx i k ->
  let '(ctx1, rel) := history_read_once ctx n d rb ts (Some (token_text i)) true in
  let '(ctx2, again) := history_read_once ctx1 n d rb ts (Some (token_text i)) false in
  ro_svc rel = UA_STATUSCODE_GOOD /\ ro_item rel = UA_STATUSCODE_GOOD /\
  ro_svc again = UA_STATUSCODE_GOOD /\ ro_item again = UA_STATUSCODE_BADCONTINUATIONPOINTINVALID /\
  hist_inv ctx2.
Proof.
  intros H Hn (s & E & U & R & _). rewrite read_once_historian, request_token.
  assert (hist_read_node d true ctx (page_node n (Some (cp_token i))) =
    (set_cps ctx (<[i := {| token0 := token0 s; token1 := token1 s;
       cp_offset := cp_offset s; inUse := inUse s; released := true |}]> (cps ctx)),
     status_only UA_STATUSCODE_GOOD)) as Er.
  { unfold hist_read_node. cbn [rn_nodeId rn_cp page_node]. rewrite bool_decide_true by assumption.
    cbn [negb]. unfold resolve_cp, cp_token. fold (cp_token i).
    now rewrite (find_cp_token ctx i s H E U), R. }
  rewrite Er. cbn [fst snd]. set (ctx1 := set_cps ctx _).
  assert (hist_inv ctx1) as H1 by now apply inv_release.
  rewrite read_once_historian, request_token.
  assert (cps ctx1 !! i = Some {| token0 := token0 s; token1 := token1 s;
       cp_offset := cp_offset s; inUse := inUse s; released := true |}) as E1.
  { apply list_lookup_insert_eq. rewrite (inv_len ctx H). exact (slot_index ctx i s H E). }
  assert (hist_read_node d false ctx1 (page_node n (Some (cp_token i))) =
    (ctx1, status_only UA_STATUSCODE_BADCONTINUATIONPOINTINVALID)) as Er1.
  { unfold hist_read_node. cbn [rn_nodeId rn_cp page_node]. rewrite bool_decide_true by assumption.
    cbn [negb]. unfold resolve_cp, cp_token. fold (cp_token i).
    now rewrite (find_cp_token ctx1 i _ H1 E1 U). }
  rewrite Er1. cbn. auto.
Qed.

Lemma matched_le_5 ctx d : (length (matched_samples ctx d) <= 5)%nat.
Proof. unfold matched_samples. rewrite length_take. lia. Qed.
End Paging.

(** * Interleaved readers *)

Lemma find_slot_free ctx cp j s : cps ctx !! j = Some s -> inUse s = false ->
  exists t, cps ctx !! find_slot (cps ctx) cp = Some t /\
    (inUse t = false \/ exists c r, cp = Some (c :: r) /\ token0 t = c).
Proof.
  intros E U. unfold find_slot. destruct (list_find _ (cps ctx)) as [[i t]|] eqn:F.
  - apply list_find_Some in F as (Et & Ht & _). exists t. split; [assumption|].
    apply orb_prop in Ht as [Ht|Ht]; [left; now apply negb_true_iff|right].
    destruct cp as [[|c r]|]; try discriminate. zbool. eauto.
  - exfalso. apply list_find_None in F. rewrite Forall_lookup in F. apply (F j s E). now rewrite U.
Qed.

Lemma holds_insert ctx i j k s : i <> j -> holds ctx i k -> holds (set_cps ctx (<[j := s]> (cps ctx))) i k.
Proof.
  intros Hn (t & E & Ht). exists t. split; [|assumption]. cbn.
  rewrite list_lookup_insert_ne by congruence. assumption.
Qed.

Lemma undisturbed ctx i k d release node j s :
  hist_inv ctx -> holds ctx i k -> cps ctx !! j = Some s -> inUse s = false ->
  (forall c r, rn_cp node = Some (c :: r) -> c <> 1 + Z.of_nat i) ->
  holds (fst (hist_read_node d release ctx node)) i k.
Proof.
  intros H Hh Ej Uj Hcp. destruct (hist_read_cases d release ctx node) as [r|l t El Ef|k' r]; [assumption|..].
  - apply holds_insert; [|assumption]. intros <-. unfold find_cp in Ef.
    apply list_find_Some in Ef as (_ & Hm & _). unfold token_matches in Hm.
    destruct (rn_cp node) as [[|c cp]|] eqn:E; cbn in Hm; zbool;
      destruct (inv_tokens ctx i t H El) as [T _]; try assumption; [lia| |lia].
    apply (Hcp c cp eq_refl). lia.
  - unfold issue_cp. cbn [fst]. apply holds_insert; [|assumption]. intros Hi.
    destruct (find_slot_free ctx (rn_cp node) j s Ej Uj) as (t & Et & Ht). rewrite <- Hi in Et.
    destruct Hh as (u & Eu & Uu & _). assert (u = t) as -> by congruence.
    destruct Ht as [Ht|(c & r' & Ec & Tc)]; [congruence|].
    destruct (inv_tokens ctx i t H Et Uu) as [T _]. apply (Hcp c r' Ec). lia.
Qed.

(** * Theorems *)

(** C25: in every state a sequence of HistoryRead requests can reach, from any
    number of clients, the continuation-point table has 16 slots, a slot in use
    carries its own token, slots come into use from the front, and the samples
    and the historized node are those of the start. *)
Theorem historian_invariant n ctx : reachable n ctx ->
  hist_inv ctx /\ same_store (interop_make_history_database n) ctx.
Proof. apply reachable_inv. Qed.

(** C8: the continue scenario against the historian in any reachable state: the
    pages, all Good, concatenate to exactly the samples in the time range, in
    order; the scenario succeeds; when more than one page was needed, releasing
    the last continuation point is Good and using it again is
    BadContinuationPointInvalid, otherwise neither call is made. *)
Theorem history_continue_complete {stack : UaStack} {laws : UaStackLaws stack} n ctx d rb ts :
  reachable n ctx -> 0 <= numValuesPerNode d ->
  let num := if numValuesPerNode d =? 0 then 2 else numValuesPerNode d in
  let m := matched_samples ctx d in
  let '(ctx', r) := history_continue ctx n d rb ts in
  concat (map (fun p => Prelude.default [] (ro_data p)) (cr_pages (cc_run r))) = m /\
  Forall (fun p => ro_svc p = UA_STATUSCODE_GOOD /\ ro_item p = UA_STATUSCODE_GOOD) (cr_pages (cc_run r)) /\
  continue_ok r = true /\ hist_inv ctx' /\
  cc_releaseSc r = UA_STATUSCODE_GOOD /\
  cc_reuseSc r = (if Z.of_nat (length m) <=? num then UA_STATUSCODE_GOOD
                  else UA_STATUSCODE_BADCONTINUATIONPOINTINVALID).
Proof.
  intros Hr Hd num m. destruct (reachable_inv n ctx Hr) as [H [Hn _]]. cbn in Hn.
  unfold history_continue. fold num.
  set (d' := {| startTime := startTime d; endTime := endTime d; numValuesPerNode := num |}).
  assert (numValuesPerNode d' > 0) as Hp by (cbn; unfold num; destruct (Z.eqb_spec (numValuesPerNode d) 0); lia).
  assert (matched_samples ctx d' = m) as Em by reflexivity.
  pose proof (matched_le_5 ctx d') as H5. rewrite Hn.
  match goal with |- context [cont_pages 8 ctx _ d' rb ts None ?a] =>
    pose proof (cont_pages_collect d' rb ts Hp 8 ctx None 0 a H (or_introl (conj eq_refl eq_refl)))
      as Hc; specialize (Hc ltac:(lia) ltac:(lia)); set (acc := a) in * end.
  destruct (cont_pages 8 ctx (histNodeId ctx) d' rb ts None acc) as [ctx1 run].
  destruct Hc as ([C1 C2 [C3a C3b] C4 C5 C6 C7] & S & _). rewrite Em in *.
  change (numValuesPerNode d') with num in C6, C7, Hp.
  assert (forall a b, continue_ok {| cc_run := run; cc_releaseSc := a; cc_reuseSc := b |} = true) as Hok.
  { intros a b. unfold continue_ok. cbn [cc_run]. rewrite C3a, C3b, good_is_good. cbn [andb].
    apply Nat.ltb_lt. exact C4. }
  destruct (Z.leb_spec (Z.of_nat (length m)) num) as [Hle|Hgt].
  - rewrite C7 by lia. cbn [cr_reuse acc cc_run cc_releaseSc cc_reuseSc]. repeat split; auto; apply C5.
  - destruct C6 as (i & k & Et & Hh); [lia|]. rewrite Et. destruct (token_text_nonempty i) as (c & t & Ec).
    pose proof (released_token ctx1 (histNodeId ctx) d' rb ts i k C5 ltac:(apply S) Hh) as Hrel.
    rewrite Ec in *.
    destruct (history_read_once ctx1 (histNodeId ctx) d' rb ts (Some (c :: t)) true) as [ctx2 rel].
    destruct (history_read_once ctx2 (histNodeId ctx) d' rb ts (Some (c :: t)) false) as [ctx3 again].
    destruct Hrel as (R1 & R2 & R3 & R4 & R5). cbn [cc_run cc_releaseSc cc_reuseSc].
    unfold item_or_service. rewrite R1, R3, good_is_good. repeat split; auto; apply R5.
Qed.

Lemma history_continue_complete_witness :
  let n := UA_NODEID_NUMERIC 1 7 in
  let ctx := interop_make_history_database n in
  let d := {| startTime := hist_base; endTime := 0; numValuesPerNode := 2 |} in
  let '(ctx', r) := history_continue ctx n d false 2 in
  concat (map (fun p => Prelude.default [] (ro_data p)) (cr_pages (cc_run r))) = matched_samples ctx d
  /\ length (cr_pages (cc_run r)) = 3%nat
  /\ cc_reuseSc r = UA_STATUSCODE_BADCONTINUATIONPOINTINVALID.
Proof.
  intros n ctx d.
  pose proof (history_continue_complete n ctx d false 2 (reach_init n) ltac:(cbn; lia)) as H. cbv zeta in H.
  assert (length (cr_pages (cc_run (snd (history_continue ctx n d false 2)))) = 3%nat) as Hl
    by (vm_compute; reflexivity).
  destruct (history_continue ctx n d false 2) as [ctx' r]. cbn [snd] in Hl.
  destruct H as (H1 & _ & _ & _ & _ & H6). repeat split; [exact H1|exact Hl|exact H6].
Defined.

Lemma historian_invariant_witness :
  let ctx := fst (interop_hist_read_raw {| startTime := 0; endTime := 0; numValuesPerNode := 1 |} false
                    (interop_make_history_database UA_NODEID_NULL) [page_node UA_NODEID_NULL None]) in
  hist_inv ctx /\ same_store (interop_make_history_database UA_NODEID_NULL) ctx.
Proof. apply historian_invariant. apply reach_read, reach_init. Defined.

(** Readers do not disturb each other while the table has a free slot: a
    reader that holds slot [i] at offset [k] still does after any other request,
    for any node, range and release flag, that does not present its token. *)
Lemma readers_isolated ctx i k d release node j s :
  hist_inv ctx -> holds ctx i k -> cps ctx !! j = Some s -> inUse s = false ->
  (forall c r, rn_cp node = Some (c :: r) -> c <> 1 + Z.of_nat i) ->
  hist_inv (fst (hist_read_node d release ctx node)) /\
  holds (fst (hist_read_node d release ctx node)) i k.
Proof.
  intros H Hh Ej Uj Hcp. split; [now apply hist_read_node_inv|]. eapply undisturbed; eauto.
Qed.

(** [k] readers that each take one value and keep their continuation point. *)
Fixpoint one_value_readers (k : nat) (n : ua_nodeid) (ctx : InteropHistCtx) : InteropHistCtx :=
  match k with
  | O => ctx
  | S k' => one_value_readers k' n (fst (hist_read_node
      {| startTime := 0; endTime := 0; numValuesPerNode := 1 |} false ctx (page_node n None)))
  end.

(** The seventeenth open reader takes over slot 0: the first reader, which had
    read one value, would go on from offset 2. *)
Lemma seventeenth_reader_takes_slot :
  let n := UA_NODEID_NULL in
  let ctx := one_value_readers 16 n (interop_make_history_database n) in
  holds ctx 0 1 /\
  holds (fst (hist_read_node {| startTime := 0; endTime := 0; numValuesPerNode := 2 |} false ctx
                (page_node n None))) 0 2.
Proof.
  split.
  - exists {| token0 := 1; token1 := 165; cp_offset := 1; inUse := true; released := false |}.
    split; [vm_compute; reflexivity|]. now repeat split.
  - exists {| token0 := 1; token1 := 165; cp_offset := 2; inUse := true; released := false |}.
    split; [vm_compute; reflexivity|]. now repeat split.
Qed.
