(* ===== verification/HistoryRead.v ===== *)
(** client.c: the [history-read] command: [parse_rfc3339_utc],
    [emit_history_page_json] and [cmd_history_read] with its single read and its
    continue scenario (whose requests are those of Historian.v). *)

From Stdlib Require Import String Ascii ZArith Bool List Lia.
Import ListNotations.
From S2P Require Import Prelude CLib Json UaTypes RefStack Base64 Output CJson Values.
From S2P Require Import RoundTrip Args NodeIds Connect Session ReadWrite BrowseCall Historian.

(** * parse_rfc3339_utc *)

(** [.%u] after the seconds; what follows, the zone included, is not looked at. *)
Definition scan_millis (p : bytes) : Z :=
  match p with
  | 46 :: r => if sconv (strtoul 10 r) then u32 (sval (strtoul 10 r)) else 0
  | _ => 0
  end.

Definition parse_rfc3339_utc (s : bytes) : Z :=
  match s with
  | [] => 0
  | _ =>
      match scan_civil s with
      | None => 0
      | Some (Y, M, D, h, m, sec, p) =>
          let t := timegm (s32 (Y - 1900) + 1900) (s32 (M - 1) + 1) D h m sec in
          if t =? -1 then 0
          else s64 ((t + 11644473600) * UA_DATETIME_SEC + scan_millis p * 10000)
      end
  end.

Section HistoryRead.
Context {stack : UaStack} {cj : CJson} {W : Type} {L : ClientLib W} {srv : Services W}
  {hist : HistoryServer W}.

(** * emit_history_page_json *)

(** [,"<key>":"<timestamp>"] when there is one. *)
Definition stamp (key : string) (t : option Z) : bytes :=
  match t with
  | Some t => match output_timestamp t with [] => [] | txt => J key ++ txt ++ J "'" end
  | None => []
  end.

Definition history_value (d : ua_datavalue) : bytes :=
  let '(DataValue value _ src _ rcv _) := d in
  let type := match value with Some v => variant_type v | None => None end in
  J "{'value':" ++ match value with Some v => output_ua_variant_value v | None => B "null" end
  ++ J ",'dataType':'" ++ type_name type
  ++ J "','builtInType':" ++ fmt_d (match type with Some t => ua_type_to_builtin_id (Some t) | None => 0 end)
  ++ J ",'statusCode':" ++ print_status_obj (dv_status d)
  ++ stamp ",'sourceTimestamp':'"%string src ++ stamp ",'serverTimestamp':'"%string rcv ++ J "}".

Definition emit_history_page_json (nodeId : ua_nodeid) (r : read_once) : bytes :=
  J "{'nodeId':" ++ output_nodeid nodeId
  ++ J ",'statusCode':" ++ print_status_obj (ro_item r)
  ++ J ",'continuationPoint':"
  ++ match ro_cp r with
     | Some ((_ :: _) as cp) => J "'" ++ value_b64_encode cp ++ J "'"
     | _ => B "null"
     end
  ++ J ",'values':" ++ jarray (map history_value (default [] (ro_data r))) ++ J "}".

(** * cmd_history_read *)

Definition history_usage : bytes :=
  B "usage: history-read --endpoint <url> --node <nodeId> --start <rfc3339> --end <rfc3339> [--num-values <n>] [--continuation-point <b64>] [--release-continuation-point true|false] [--return-bounds true|false] [--timestamps Source|Server|Both|Neither] [--scenario continue]".

Definition is_true (o : option bytes) : bool :=
  match o with Some s => streq s (B "true") | None => false end.

(** The continue scenario's envelope. *)
Definition continue_item (nodeId : ua_nodeid) (r : cont_result) : bytes :=
  J "{'scenario':'continue','nodeId':" ++ output_nodeid nodeId
  ++ J ",'pages':" ++ jarray (map (emit_history_page_json nodeId) (cr_pages (cc_run r)))
  ++ J ",'releaseStatusCode':" ++ print_status_obj (cc_releaseSc r)
  ++ J ",'reuseAfterReleaseStatusCode':" ++ print_status_obj (cc_reuseSc r) ++ J "}".

Definition send_continue (w : W) (nodeId : ua_nodeid) (d : read_details) (rb : bool) (ts : Z) : outcome W :=
  let '(w, r) := history_continue w nodeId d rb ts in
  let ok := continue_ok r in
  let emit_sc := if StatusCode_isGood (cr_lastSvc (cc_run r)) then cr_lastItem (cc_run r)
                 else cr_lastSvc (cc_run r) in
  Exits (Client_disconnect w) (if ok then 0 else 4)
    (envelope (B "history-read") ok emit_sc (results_of [continue_item nodeId r])).

Definition send_history (w : W) (nodeId : ua_nodeid) (d : read_details) (rb : bool) (ts : Z)
    (cpStr : option bytes) (releaseCp : bool) : outcome W :=
  let '(w, r) := history_read_once w nodeId d rb ts cpStr releaseCp in
  let ok := StatusCode_isGood (ro_svc r) && StatusCode_isGood (ro_item r) in
  Exits (Client_disconnect w) (service_exit (ro_svc r) ok)
    (envelope (B "history-read") ok (item_or_service r) (results_of [emit_history_page_json nodeId r])).

Definition cmd_history_read (fuel : nat) (w : W) (g : ClientSecurity) (argv : list bytes) : outcome W :=
  match find_arg argv (B "--endpoint"), find_arg argv (B "--node"),
        find_arg argv (B "--start"), find_arg argv (B "--end") with
  | Some endpoint, Some nodeStr, Some startStr, Some endStr =>
      let startTime := parse_rfc3339_utc startStr in
      let endTime := parse_rfc3339_utc endStr in
      if negb (validate_nodeid_structure nodeStr)
      then usage_error w (B "history-read") (malformed nodeStr)
      else if (startTime =? 0) || (endTime =? 0)
      then usage_error w (B "history-read") (B "invalid --start or --end timestamp (expect UTC RFC 3339)")
      else
        let d := {| startTime := startTime; endTime := endTime;
                    numValuesPerNode := match find_arg argv (B "--num-values") with
                                        | Some s => u32 (atoi s) | None => 0 end |} in
        let releaseCp := is_true (find_arg argv (B "--release-continuation-point")) in
        let rb := is_true (find_arg argv (B "--return-bounds")) in
        let ts := timestamps_flag (find_arg argv (B "--timestamps")) TS_BOTH in
        with_client fuel w g endpoint (request_timeout argv) (B "history-read") (fun w =>
        match resolve_one w nodeStr with
        | (w, NsuOk n) =>
            match find_arg argv (B "--scenario") with
            | Some s => if streq s (B "continue") then send_continue w n d rb ts
                        else send_history w n d rb ts (find_arg argv (B "--continuation-point")) releaseCp
            | None => send_history w n d rb ts (find_arg argv (B "--continuation-point")) releaseCp
            end
        | (w, _) => unresolved_exit w (B "history-read")
                      (snprintf 512 (B "unknown namespace URI in '" ++ nodeStr ++ B "'"))
        end)
  | _, _, _, _ => usage_error w (B "history-read") history_usage
  end.
End HistoryRead.

(** * Laws of the HistoryRead service *)

Class HistoryLaws {stack : UaStack} {W : Type} (hist : HistoryServer W) := {
  history_status : forall w q, 0 <= hs_serviceResult (snd (Service_historyRead w q)) < 2 ^ 32;
  history_wf : forall w q r, In r (hs_results (snd (Service_historyRead w q))) ->
    0 <= rr_statusCode r < 2 ^ 32 /\ wf_str (rr_continuationPoint r) = true /\
    forallb wf_datavalue (default [] (rr_data r)) = true
}.

(** * Lemmas *)

Definition wf_read {stack : UaStack} (r : read_once) : Prop :=
  0 <= ro_svc r < 2 ^ 32 /\ 0 <= ro_item r < 2 ^ 32 /\ wf_str (ro_cp r) = true /\
  forallb wf_datavalue (default [] (ro_data r)) = true.

Section Lemmas.
Context {stack : UaStack} {laws : UaStackLaws stack} {W : Type} {hist : HistoryServer W}
  {hl : HistoryLaws hist}.

Lemma read_once_wf w n d rb ts cp rel : wf_read (snd (history_read_once w n d rb ts cp rel)).
Proof.
  unfold history_read_once. set (q := Build_history_request _ _ _ _ _ _).
  pose proof (history_status w q) as H1. pose proof (history_wf w q) as H2.
  destruct (Service_historyRead w q) as [w1 resp]. cbn [snd] in *.
  assert (0 <= UA_STATUSCODE_GOOD < 2 ^ 32) by (unfold UA_STATUSCODE_GOOD; lia).
  destruct (StatusCode_isGood _), (hs_results resp) as [|r rs]; try (repeat split; cbn; try assumption; lia).
  destruct (H2 r (or_introl eq_refl)) as (Hs & Hc & Hd).
  repeat split; cbn [ro_svc ro_item ro_cp ro_data]; try lia; [|exact Hd].
  destruct (rr_continuationPoint r) as [[|c cp']|]; [reflexivity|exact Hc|reflexivity].
Qed.

Definition wf_run (a : cont_run) : Prop :=
  Forall wf_read (cr_pages a) /\ 0 <= cr_lastSvc a < 2 ^ 32 /\ 0 <= cr_lastItem a < 2 ^ 32.

Lemma cont_pages_wf k : forall w n d rb ts cp acc, wf_run acc ->
  wf_run (snd (cont_pages k w n d rb ts cp acc)).
Proof.
  induction k as [|k IH]; intros w n d rb ts cp acc Ha; [exact Ha|]. cbn [cont_pages].
  pose proof (read_once_wf w n d rb ts cp false) as Hr.
  destruct (history_read_once w n d rb ts cp false) as [w1 r]. cbn [snd] in Hr.
  assert (forall b, wf_run {| cr_pages := cr_pages acc ++ [r]; cr_lastSvc := ro_svc r;
    cr_lastItem := ro_item r; cr_reuse := b |}) as Hacc.
  { intros b. destruct Ha as [Hp _], Hr as (Hs & Hi & Hrest). split; [|now split].
    apply Forall_app. split; [exact Hp|]. repeat constructor; try apply Hs; try apply Hi; apply Hrest. }
  destruct (_ || _); [apply Hacc|]. now apply IH.
Qed.

Lemma item_or_service_range r : wf_read r -> 0 <= item_or_service r.
Proof. intros (Hs & Hi & _). unfold item_or_service. destruct (StatusCode_isGood _); lia. Qed.

Lemma continue_wf w n d rb ts : let r := snd (history_continue w n d rb ts) in
  wf_run (cc_run r) /\ 0 <= cc_releaseSc r /\ 0 <= cc_reuseSc r.
Proof.
  unfold history_continue. set (d' := Build_read_details _ _ _).
  pose proof (cont_pages_wf 8 w n d' rb ts None {| cr_pages := []; cr_lastSvc := UA_STATUSCODE_GOOD;
    cr_lastItem := UA_STATUSCODE_GOOD; cr_reuse := [] |}) as Hw.
  destruct (cont_pages 8 w n d' rb ts None _) as [w1 run]. cbn [snd] in Hw.
  assert (wf_run run) as Hrun by (apply Hw; repeat split; try constructor; cbn; unfold UA_STATUSCODE_GOOD; lia).
  destruct (cr_reuse run) as [|c cs] eqn:E.
  - cbn. split; [exact Hrun|unfold UA_STATUSCODE_GOOD; lia].
  - pose proof (read_once_wf w1 n d' rb ts (Some (cr_reuse run)) true) as H1. rewrite E in H1.
    destruct (history_read_once w1 n d' rb ts _ true) as [w2 r2]. cbn [snd] in H1.
    pose proof (read_once_wf w2 n d' rb ts (Some (cr_reuse run)) false) as H2. rewrite E in H2.
    destruct (history_read_once w2 n d' rb ts _ false) as [w3 r3]. cbn [snd] in *.
    cbn. split; [exact Hrun|]. split; now apply item_or_service_range.
Qed.

Lemma JBody_type_name t : JBody (type_name t).
Proof.
  unfold type_name. destruct t as [t|]; [|jbody]. destruct (find _ named_types) as [p|] eqn:E.
  - apply find_some in E as [E _]. repeat (destruct E as [<-|E]; [cbn [snd]; jbody|]). destruct E.
  - destruct (type_typeName t) as [n|] eqn:En; [|cbn [default]; jbody]. apply JBody_Forall.
    eapply Forall_impl; [|exact (typeName_text _ _ En)]. intros c (Hc & Hq & Hb). apply plain_intro; lia.
Qed.

Lemma stamp_cases key t : stamp key t = [] \/
  exists b, stamp key t = J key ++ b ++ J "'" /\ JBody b.
Proof.
  destruct t as [t|]; [|now left]. cbn [stamp]. pose proof (JBody_timestamp t) as Hb.
  destruct (output_timestamp t); [now left|]. right. eauto.
Qed.

Lemma JValue_history_value d : wf_datavalue d = true -> JValue (history_value d).
Proof.
  destruct d as [value st src sp rcv rp]. cbn [wf_datavalue]. intros H. zbool.
  assert (0 <= default 0 st) as Hst by (destruct st; [now apply wf_opt_le|cbn; lia]).
  unfold history_value. set (type := match value with Some v => variant_type v | None => None end).
  set (bi := match type with Some t => ua_type_to_builtin_id (Some t) | None => 0 end).
  pose proof (JBody_type_name type). pose proof (JValue_d bi). pose proof (JValue_status _ Hst).
  assert (JValue match value with Some v => output_ua_variant_value v | None => B "null" end)
    by (destruct value; [now apply JValue_variant|apply JValue_null]).
  cbn [dv_status].
  destruct (stamp_cases ",'sourceTimestamp':'" src) as [->|(a & -> & Ha)];
    destruct (stamp_cases ",'serverTimestamp':'" rcv) as [->|(b & -> & Hb)];
    cbn [app]; jvalue.
Qed.
End Lemmas.

Section PageLemmas.
Context {stack : UaStack} {laws : UaStackLaws stack}.

Lemma JValue_page n r : wf_nodeid n = true -> wf_read r -> JValue (emit_history_page_json n r).
Proof.
  intros Hn (Hs & Hi & Hc & Hd). pose proof (JValue_nodeid n Hn) as H1. change (print_ua_nodeid n) with (output_nodeid n) in H1.
  pose proof (JValue_status (ro_item r) ltac:(lia)) as H2.
  assert (JValue (jarray (map history_value (default [] (ro_data r))))) as H3.
  { apply JValue_array, Forall_map, Forall_forall. intros d Hin. apply JValue_history_value.
    rewrite forallb_forall in Hd. auto. }
  assert (JValue match ro_cp r with Some ((_ :: _) as cp) => J "'" ++ value_b64_encode cp ++ J "'"
                 | _ => B "null" end) as H4.
  { destruct (ro_cp r) as [[|c cp]|]; [apply JValue_null| |apply JValue_null].
    apply JValue_quoted, JBody_b64. now apply forallb_Bytes in Hc. }
  unfold emit_history_page_json. jvalue.
Qed.

Lemma JValue_continue n r : wf_nodeid n = true -> wf_run (cc_run r) -> 0 <= cc_releaseSc r ->
  0 <= cc_reuseSc r -> JValue (continue_item n r).
Proof.
  intros Hn [Hp _] Hr Hu. pose proof (JValue_nodeid n Hn) as H1. change (print_ua_nodeid n) with (output_nodeid n) in H1.
  pose proof (JValue_status _ Hr) as H2. pose proof (JValue_status _ Hu) as H3.
  assert (JValue (jarray (map (emit_history_page_json n) (cr_pages (cc_run r))))) as H4.
  { apply JValue_array, Forall_map. eapply Forall_impl; [|exact Hp]. intros x Hx. now apply JValue_page. }
  unfold continue_item. jvalue.
Qed.

(** NodeIds parsed from printable text print as JSON. *)
Lemma guid_string_wf s g : parse_guid_string s = Some g -> wf_guid g = true.
Proof.
  unfold parse_guid_string, obind. destruct (scan_guid s) as [[[[d1 d2] d3] b]|]; [|discriminate].
  intros H. injection H as <-. unfold wf_guid. cbn.
  assert (forall w x, 0 <= w -> (0 <=? uwrap w x) = true) as Hu
    by (intros w x Hw; apply Z.leb_le, (uwrap_range w x Hw)).
  unfold u32, u16. rewrite !Hu by lia. cbn. apply forallb_forall. intros x Hx.
  apply in_map_iff in Hx as (y & <- & _). apply Hu. lia.
Qed.

Definition printable (s : bytes) : Prop := Forall (fun c => (32 <=? c) && (c <? 256) = true) s.

Lemma printable_strip p s r : printable s -> strip p s = Some r -> printable r.
Proof. intros H E. apply strip_Some in E. subst. now apply Forall_app in H as [_ H]. Qed.

Lemma find_arg_printable argv flag s : Forall printable argv -> find_arg argv flag = Some s -> printable s.
Proof.
  intros H. induction H as [|a r Ha Hr IH]; [discriminate|]. destruct r as [|v r]; [discriminate|].
  cbn [find_arg]. destruct (streq a flag); [|exact IH]. intros E. injection E as <-. now inversion Hr.
Qed.

Lemma printable_values argv flag : Forall printable argv -> Forall printable (flag_values argv flag).
Proof.
  intros H. apply Forall_forall. intros x Hx. rewrite Forall_forall in H. apply H. eapply flag_values_In; eauto.
Qed.

Lemma client_ident_wf ns id n : 0 <= ns -> printable id -> client_ident ns id = Some n -> wf_nodeid n = true.
Proof.
  intros Hns Hp. unfold client_ident, obind.
  assert (forall i, match i with IdNumeric k => 0 <=? k | IdString s => wf_printable s | IdGuid g => wf_guid g
    | IdByteString s => wf_str s | IdOther => true end = true ->
    wf_nodeid {| namespaceIndex := ns; identifier := i |} = true) as Hi.
  { intros i Hi. unfold wf_nodeid. cbn. apply Z.leb_le in Hns. rewrite Hns. destruct i; exact Hi. }
  destruct (strip (B "s=") id) as [r|] eqn:E1.
  { intros H. injection H as <-. apply Hi. unfold wf_printable. cbn.
    apply forallb_forall, Forall_forall. eapply printable_strip; eauto. }
  destruct (strip (B "i=") id) as [r|].
  { intros H. injection H as <-. apply Hi, Z.leb_le. apply (uwrap_range 32). lia. }
  destruct (strip (B "g=") id) as [r|].
  { destruct (parse_guid_string r) as [g|] eqn:Eg; [|discriminate]. intros H. injection H as <-.
    apply Hi. eapply guid_string_wf; eauto. }
  destruct (strip (B "b=") id) as [r|]; [|discriminate].
  destruct (client_b64_decode r) as [d|] eqn:Ed; [|discriminate]. intros H. injection H as <-. apply Hi.
  rewrite client_decode_eq in Ed. apply decode_bytes in Ed. unfold wf_str. cbn.
  now apply forallb_forall, Forall_forall.
Qed.

Lemma printable_after c s a b : printable s -> strchr c s = Some (a, b) -> printable b.
Proof.
  intros H E. apply strchr_Some in E as [-> _]. apply Forall_app in H as [_ H]. now inversion H.
Qed.

Lemma parse_nodeid_local_wf s : printable s -> wf_nodeid (parse_nodeid_local s) = true.
Proof.
  intros Hp. unfold parse_nodeid_local. destruct (strip (B "i=") s) as [r|].
  { unfold wf_nodeid. cbn. apply Z.leb_le, (uwrap_range 32). lia. }
  destruct (strip (B "ns=") s) as [r|] eqn:E; [|reflexivity]. apply (printable_strip _ _ _ Hp) in E.
  destruct (strchr 59 r) as [[x id]|] eqn:Es; [|reflexivity]. apply (printable_after _ _ _ _ E) in Es.
  destruct (client_ident (u16 (atoi r)) id) as [n|] eqn:Ei; [|reflexivity]. cbn [default].
  eapply client_ident_wf; [|exact Es|exact Ei]. apply (uwrap_range 16). lia.
Qed.

Lemma resolve_one_wf {W} {srv : Services W} w s w' n :
  (forall w u i, snd (NamespaceGetIndex w u) = Some i -> 0 <= i) -> printable s ->
  resolve_one w s = (w', NsuOk n) -> wf_nodeid n = true.
Proof.
  intros Hns Hp. unfold resolve_one. destruct (is_nsu s).
  - unfold resolve_nsu. destruct (strip (B "nsu=") s) as [r|] eqn:E; [|discriminate].
    pose proof E as E0. apply (printable_strip _ _ _ Hp) in E.
    destruct (strchr 59 r) as [[uri id]|] eqn:Es; [|discriminate]. pose proof Es as Es0.
    apply (printable_after _ _ _ _ E) in Es. pose proof (Hns w uri) as Hi.
    destruct (NamespaceGetIndex w uri) as [w1 [i|]]; unfold resolve_nsu_nodeid; rewrite E0, Es0;
      [|discriminate]. cbn [snd] in Hi. specialize (Hi i eq_refl).
    destruct (client_ident i id) as [k|] eqn:Ei; [|discriminate]. intros H. injection H as _ <-.
    eapply client_ident_wf; eauto.
  - intros H. injection H as _ <-. now apply parse_nodeid_local_wf.
Qed.
End PageLemmas.

Lemma scan_millis_fmt ms : 0 <= ms < 1000 -> scan_millis (46 :: fmt_u0 3 ms ++ [90]) = ms.
Proof.
  intros H. unfold scan_millis. pose proof (scan_d_fmt 3 ms [90] ltac:(lia) eq_refl) as Hd.
  unfold scan_d in Hd. unfold strtoul.
  destruct (strto_scan 10 (fmt_u0 3 ms ++ [90])) as [[[neg v] r]|] eqn:E; [|discriminate].
  pose proof (strto_scan_u0 3 ms [90] ltac:(lia) eq_refl) as Hu. rewrite Hu in E. injection E as <- <- <-.
  unfold ULONG_MAX. destruct (Z.ltb_spec (2 ^ 64 - 1) ms); [lia|]. cbn [sconv sval].
  apply uwrap_small. lia.
Qed.

Lemma rfc3339_text Y M D h m s ms :
  0 <= Y < 10000 -> 0 <= M < 100 -> 0 <= D < 100 -> 0 <= h < 100 -> 0 <= m < 100 -> 0 <= s < 100 ->
  0 <= ms < 1000 ->
  parse_rfc3339_utc (fmt_u0 4 Y ++ [45] ++ fmt_u0 2 M ++ [45] ++ fmt_u0 2 D ++ [84] ++ fmt_u0 2 h
    ++ [58] ++ fmt_u0 2 m ++ [58] ++ fmt_u0 2 s ++ [46] ++ fmt_u0 3 ms ++ [90]) =
  let t := timegm Y M D h m s in
  if t =? -1 then 0 else s64 ((t + UNIX_EPOCH_SEC) * UA_DATETIME_SEC + ms * 10000).
Proof.
  intros HY HM HD Hh Hm Hs Hms.
  pose proof (scan_civil_fmt Y M D h m s (fmt_u0 3 ms ++ [90]) HY HM HD Hh Hm Hs) as Hc.
  cbn [app] in *. unfold parse_rfc3339_utc.
  destruct (fmt_u0 4 Y) as [|c y] eqn:E; [apply (f_equal (@length Z)) in E;
    rewrite fmt_u0_length in E by (cbn; lia); discriminate|].
  cbn [app] in *. rewrite Hc, scan_millis_fmt by assumption.
  unfold s32. rewrite !swrap_small by lia.
  replace (Y - 1900 + 1900) with Y by lia. replace (M - 1 + 1) with M by lia. reflexivity.
Qed.

(** * Theorems *)

Section Theorems.
Context {stack : UaStack} {laws : UaStackLaws stack} {W : Type} {L : ClientLib W}
  {libLaws : ClientLibLaws L} {clk : Clock L} {srv : Services W} {hist : HistoryServer W}
  {hl : HistoryLaws hist}.

Lemma send_history_reports w n d rb ts cp rel : wf_nodeid n = true ->
  ends_reporting (B "history-read") (send_history w n d rb ts cp rel).
Proof.
  intros Hn. unfold send_history. pose proof (read_once_wf w n d rb ts cp rel) as Hr.
  destruct (history_read_once w n d rb ts cp rel) as [w1 r]. cbn [snd] in Hr.
  eexists _, _, _. split; [reflexivity|]. apply reports_envelope.
  - apply Bytes_B.
  - now apply item_or_service_range.
  - apply JRest_results. constructor; [now apply JValue_page|constructor].
  - apply service_exit_code.
  - apply service_exit_ok. intros H. now apply andb_prop in H.
Qed.

Lemma send_continue_reports w n d rb ts : wf_nodeid n = true ->
  ends_reporting (B "history-read") (send_continue w n d rb ts).
Proof.
  intros Hn. unfold send_continue. pose proof (continue_wf w n d rb ts) as Hr. cbv zeta in Hr.
  destruct (history_continue w n d rb ts) as [w1 r]. cbn [snd] in Hr. destruct Hr as (Hw & H1 & H2).
  eexists _, _, _. split; [reflexivity|]. apply reports_envelope.
  - apply Bytes_B.
  - destruct Hw as (_ & Hs & Hi). destruct (StatusCode_isGood _); lia.
  - apply JRest_results. constructor; [now apply JValue_continue|constructor].
  - destruct (continue_ok r); cbn; tauto.
  - now destruct (continue_ok r).
Qed.

(** history-read, plain or with the continue scenario, always ends and
    prints exactly one JSON envelope whose [success] is true exactly when the
    exit code is 0; the NodeId must be printable text. *)
Lemma history_read_reports w g argv : text_argv argv -> text_args g (B "history-read") ->
  (forall s, find_arg argv (B "--node") = Some s -> printable s) ->
  (forall w u i, snd (NamespaceGetIndex w u) = Some i -> 0 <= i) ->
  exists n, forall fuel, (n <= fuel)%nat ->
    ends_reporting (B "history-read") (cmd_history_read fuel w g argv).
Proof.
  intros Ht Hg Hp Hns. unfold cmd_history_read.
  assert (exists n, forall fuel, (n <= fuel)%nat -> ends_reporting (B "history-read")
    (usage_error w (B "history-read") history_usage)) as Hu
    by (exists O; intros; apply ends_usage; apply Bytes_B).
  destruct (find_arg argv (B "--endpoint")) as [url|]; [|exact Hu].
  destruct (find_arg argv (B "--node")) as [s|] eqn:Es; [|exact Hu].
  destruct (find_arg argv (B "--start")) as [a|]; [|exact Hu].
  destruct (find_arg argv (B "--end")) as [b|]; [|exact Hu].
  pose proof (find_arg_Bytes _ _ _ Ht Es) as Hb. specialize (Hp s eq_refl).
  destruct (negb _); [exists O; intros; apply ends_usage; [apply Bytes_B|now apply Bytes_malformed]|].
  destruct (_ || _); [exists O; intros; apply ends_usage; apply Bytes_B|].
  apply with_client_reports; [exact Hg|]. intros w1.
  destruct (resolve_one w1 s) as [w2 [i| |]] eqn:Er;
    [|apply ends_unresolved; [apply Bytes_B|apply Bytes_snprintf; auto using Bytes_cat, Bytes_B]..].
  apply resolve_one_wf in Er; [|exact Hns|exact Hp].
  destruct (find_arg argv (B "--scenario")) as [sc|]; [destruct (streq sc _)|];
    auto using send_continue_reports, send_history_reports.
Qed.
End Theorems.

(** One value per read, no continuation point. *)
#[export] Instance ref_history : HistoryServer Z := {
  Service_historyRead w _ := (w, {| hs_serviceResult := UA_STATUSCODE_GOOD;
    hs_results := [{| rr_statusCode := UA_STATUSCODE_GOOD; rr_continuationPoint := None;
      rr_data := Some [DataValue (Some (VtScalar (VInt32 5))) None (Some 133485408001234567) None None None] |}] |}) }.

#[export] Instance ref_history_laws : HistoryLaws ref_history.
Proof.
  split; [intros; cbn; unfold UA_STATUSCODE_GOOD; lia|].
  intros w q r [<-|[]]. cbn. unfold UA_STATUSCODE_GOOD. repeat split; lia.
Qed.

(** A timestamp the client prints (between 1601 and 9999, other than the
    second before 1970) is a valid [--start] / [--end]: it is read back to the
    same instant at millisecond precision, as [value_parse_datetime] does. *)
Lemma rfc3339_roundtrip {stack : UaStack} {laws : UaStackLaws stack} t : 0 < t < DATETIME_END ->
  t / UA_DATETIME_SEC <> UNIX_EPOCH_SEC - 1 ->
  parse_rfc3339_utc (output_timestamp t) = t - t mod 10000 /\
  value_parse_datetime (output_timestamp t) = Some (parse_rfc3339_utc (output_timestamp t)).
Proof.
  intros Ht Hne. assert (parse_rfc3339_utc (output_timestamp t) = t - t mod 10000) as E.
  2:{ split; [exact E|]. rewrite E. now apply datetime_text. }
  rewrite timestamp_text by assumption.
  destruct (toStruct_range t) as (H1 & H2 & H3 & H4 & H5 & H6); [lia|].
  destruct (toStruct_instant t) as [Hi Hms]; [lia|]. set (s := DateTime_toStruct t) in *.
  assert (0 <= dts_milliSec s < 1000) as H7
    by (rewrite Hms; unfold UA_DATETIME_SEC; Z.div_mod_to_equations; lia).
  rewrite rfc3339_text by assumption. cbv zeta. rewrite Hi, Hms.
  destruct (Z.eqb_spec (t / UA_DATETIME_SEC - UNIX_EPOCH_SEC) (-1)); [lia|].
  assert (E : (t / UA_DATETIME_SEC - UNIX_EPOCH_SEC + UNIX_EPOCH_SEC) * UA_DATETIME_SEC
     + t mod UA_DATETIME_SEC / 10000 * 10000 = t - t mod 10000)
    by (unfold UA_DATETIME_SEC; clear; Z.div_mod_to_equations; lia).
  rewrite E. unfold DATETIME_END in Ht. apply swrap_small; [lia|].
  pose proof (Z.mod_pos_bound t 10000). lia.
Qed.

(** The fraction counts as milliseconds whatever its digits, and the zone is not
    looked at: half a second is read as 5 ms, an offset is ignored. *)
Lemma rfc3339_fraction :
  parse_rfc3339_utc (B "2026-07-24T10:00:00.5Z") = parse_rfc3339_utc (B "2026-07-24T10:00:00.005Z") /\
  parse_rfc3339_utc (B "2026-07-24T10:00:00+02:00") = parse_rfc3339_utc (B "2026-07-24T10:00:00Z") /\
  value_parse_datetime (B "2026-07-24T10:00:00+02:00") = None.
Proof. repeat split. Qed.
