(* ===== verification/Subscribe.v ===== *)
(** client.c: the [subscribe] command.  The notifications of the monitored item
    arrive in a callback while the client runs its network loop; the callback
    appends them to a store of 256 entries the command prints. *)

From Stdlib Require Import String Ascii ZArith Bool List Lia SpecFloat.
Import ListNotations.
From S2P Require Import Prelude CLib Json Float UaTypes RefStack Base64 Output OutputBuf.
From S2P Require Import CJson Values Args NodeIds Connect Session ReadWrite BrowseCall.
From S2P Require Import Historian HistoryRead.

(** * Requests and responses *)

(** [None] where the request keeps the default of the library. *)
Record sub_request := { sr_interval : spec_float; sr_counts : option (Z * Z) }.
Record sub_response := {
  sb_serviceResult : Z; sb_id : Z; sb_interval : spec_float; sb_lifetime : Z; sb_keepAlive : Z }.

Record data_change_filter := { trigger : Z; deadbandType : Z; deadbandValue : spec_float }.

Record mon_request := {
  mr_node : ua_nodeid; mr_sampling : option spec_float; mr_queueSize : option Z;
  mr_discardOldest : option bool; mr_filter : option data_change_filter }.

Inductive filter_result :=
| FrNone
| FrDecoded (typeId : ua_nodeid) (typeName : option bytes)
| FrEncoded (typeId : ua_nodeid).

Record mon_result := {
  mn_statusCode : Z; mn_id : Z; mn_sampling : spec_float; mn_queueSize : Z; mn_filter : filter_result }.

(** The subscription calls of the client; [fired]: the values handed to the
    monitored item's callback during the last call, in order. *)
Class Subscriptions (W : Type) := {
  Subscriptions_create : W -> sub_request -> W * sub_response;
  Subscriptions_deleteSingle : W -> Z -> W;
  MonitoredItems_createDataChange : W -> Z -> Z -> mon_request -> W * mon_result;
  fired : W -> W * list ua_datavalue;
  (** [time(NULL)], and the cast of a double to int where it is out of range *)
  time_s : W -> W * Z;
  int_oob : Z -> Z
}.

Definition atof (s : bytes) : spec_float :=
  match strtod s with Some (d, _) => d | None => S754_zero false end.

(** * The notification store *)

Definition MAX_NOTIFICATIONS : nat := 256.

(** [valueJson]: [None] when the buffer has no terminating zero. *)
Record NotifEntry := {
  index : nat; statusCode : Z; dataType : bytes; builtInType : Z; valueJson : option bytes;
  sourceTimestamp : bytes; serverTimestamp : bytes }.

(** [count] is the length of [entries]. *)
Record NotifStore := { wanted : Z; entries : list NotifEntry }.

Section Subscribe.
Context {stack : UaStack} {cj : CJson} {W : Type} {L : ClientLib W} {srv : Services W} {sub : Subscriptions W}.

Definition notif_entry (i : nat) (val : ua_datavalue) : NotifEntry :=
  let '(DataValue value _ src _ rcv _) := val in
  let text t := match t with Some t => output_timestamp t | None => [] end in
  let type := match value with Some v => variant_type v | None => None end in
  {| index := i; statusCode := dv_status val;
     dataType := match type with Some t => firstn 63 (type_name (Some t)) | None => B "Unknown" end;
     builtInType := match type with Some t => ua_type_to_builtin_id (Some t) | None => 0 end;
     valueJson := match value, type with
                  | Some v, Some _ => output_variant_to_buf v 512
                  | _, _ => Some (B "null")
                  end;
     sourceTimestamp := text src; serverTimestamp := text rcv |}.

Definition sub_data_change_cb (store : NotifStore) (val : ua_datavalue) : NotifStore :=
  if Nat.leb MAX_NOTIFICATIONS (length (entries store)) then store
  else {| wanted := wanted store;
          entries := entries store ++ [notif_entry (length (entries store)) val] |}.

(** The callbacks of the last call. *)
Definition deliver (w : W) (store : NotifStore) : W * NotifStore :=
  let '(w, l) := fired w in (w, fold_left sub_data_change_cb l store).

(** [(int)(difftime(now, start) * 1000.0)] *)
Definition elapsed_ms (start now : Z) : Z :=
  let ms := (now - start) * 1000 in
  if (- 2 ^ 31 <=? ms) && (ms <? 2 ^ 31) then ms else int_oob ms.

(** [while (!done) { if (elapsed >= ms) break; UA_Client_run_iterate(client, iter); }];
    the result says whether the time ran out.  [None]: out of fuel. *)
Fixpoint wait_for (rounds : nat) (ready : NotifStore -> bool) (ms iter start : Z) (w : W)
    (store : NotifStore) : option (W * NotifStore * bool) :=
  if ready store then Some (w, store, false)
  else
    match rounds with
    | O => None
    | S k =>
        let '(w, now) := time_s w in
        if ms <=? elapsed_ms start now then Some (w, store, true)
        else
          let '(w, store) := deliver (Client_run_iterate w iter) store in
          wait_for k ready ms iter start w store
    end.

(** * cmd_subscribe *)

Definition subscribe_usage : bytes :=
  B "usage: subscribe --endpoint <url> --node <nodeId> [--notifications <n>] [--timeout-ms <ms>]".

Definition triggers : list (bytes * Z) :=
  [(B "Status", 0); (B "StatusValue", 1); (B "StatusValueTimestamp", 2)].

(** The filter of [--deadband-absolute], [--deadband-percent] and [--trigger], if
    any was given, or the message that refuses it. *)
Definition data_change_filter_of (argv : list bytes) : option data_change_filter + bytes :=
  let dbAbs := find_arg argv (B "--deadband-absolute") in
  let dbPct := find_arg argv (B "--deadband-percent") in
  let trig := find_arg argv (B "--trigger") in
  let named := match trig with
               | Some t => find (fun p => streq t (fst p)) triggers
               | None => Some (B "StatusValue", 1)
               end in
  match named with
  | None => inr (B "--trigger must be Status, StatusValue or StatusValueTimestamp")
  | Some (_, t) =>
      if is_some dbAbs && is_some dbPct
      then inr (B "--deadband-absolute and --deadband-percent are mutually exclusive")
      else if is_some dbAbs || is_some dbPct || is_some trig then
        inl (Some {| trigger := t;
                     deadbandType := if is_some dbAbs then 1 else if is_some dbPct then 2 else 0;
                     deadbandValue := match dbAbs, dbPct with
                                      | Some s, _ | None, Some s => atof s
                                      | None, None => S754_zero false
                                      end |})
      else inl None
  end.

(** [--notifications]: 5 by default and for what is not positive, at most 256. *)
Definition notifications_wanted (argv : list bytes) : Z :=
  let n := match find_arg argv (B "--notifications") with Some s => atoi s | None => 5 end in
  let n := if n <=? 0 then 5 else n in
  if 256 <? n then 256 else n.

Definition subscribe_timeout (argv : list bytes) : Z :=
  match find_arg argv (B "--timeout-ms") with Some s => atoi s | None => 10000 end.

Definition queue_size (argv : list bytes) : Z :=
  let n := match find_arg argv (B "--queue-size") with Some s => u32 (atoi s) | None => 1 end in
  if n <? 1 then 1 else n.

Definition discard_oldest (argv : list bytes) : bool :=
  match find_arg argv (B "--discard-oldest") with Some s => negb (streq s (B "false")) | None => true end.

Definition interval_flag (argv : list bytes) (flag : bytes) (def : Z) : spec_float :=
  match find_arg argv flag with Some s => atof s | None => double_of false def 0 end.

Definition monitored_request (argv : list bytes) (n : ua_nodeid) (filter : option data_change_filter) : mon_request :=
  {| mr_node := n; mr_sampling := Some (interval_flag argv (B "--sampling-interval-ms") 100);
     mr_queueSize := Some (queue_size argv); mr_discardOldest := Some (discard_oldest argv);
     mr_filter := filter |}.

(** A timestamp member, when there is a text. *)
Definition stamp_text (key : string) (txt : bytes) : bytes :=
  match txt with [] => [] | _ => J key ++ txt ++ J "'" end.

(** [None]: the value is printed past the end of its buffer. *)
Definition notification_item (e : NotifEntry) : option bytes :=
  option_map (fun v =>
    J "{'sequenceNumber':" ++ fmt_d (Z.of_nat (index e) + 1)
    ++ J ",'statusCode':" ++ print_status_obj (statusCode e)
    ++ J ",'dataType':'" ++ dataType e
    ++ J "','builtInType':" ++ fmt_d (builtInType e)
    ++ J ",'value':" ++ v
    ++ stamp_text ",'sourceTimestamp':'"%string (sourceTimestamp e)
    ++ stamp_text ",'serverTimestamp':'"%string (serverTimestamp e) ++ J "}") (valueJson e).

Definition filter_result_json (r : filter_result) : bytes :=
  match r with
  | FrNone => B "null"
  | FrDecoded id name => J "{'typeId':" ++ output_nodeid id ++ J ",'typeName':'" ++ default [] name ++ J "'}"
  | FrEncoded id => J "{'typeId':" ++ output_nodeid id ++ J "}"
  end.

(** The members printed only when a filter was requested. *)
Definition filter_members (filter : option data_change_filter) (mon : mon_result) : list bytes :=
  match filter with
  | None => []
  | Some f =>
      [J "'monitoredItemId':" ++ fmt_u (mn_id mon);
       J "'revisedSamplingInterval':" ++ fmt_g 17 (mn_sampling mon);
       J "'revisedQueueSize':" ++ fmt_u (mn_queueSize mon);
       J "'filter':" ++ (J "{'trigger':'"
         ++ nth (Z.to_nat (trigger f)) [B "Status"; B "StatusValue"; B "StatusValueTimestamp"] []
         ++ J "','deadbandType':'" ++ nth (Z.to_nat (deadbandType f)) [B "None"; B "Absolute"; B "Percent"] []
         ++ J "','deadbandValue':" ++ fmt_g 17 (deadbandValue f) ++ J "}");
       J "'filterResult':" ++ filter_result_json (mn_filter mon)]
  end.

Definition subscribe_item (n : ua_nodeid) (sb : sub_response) (mon : mon_result)
    (filter : option data_change_filter) (notifications : list bytes) : bytes :=
  jobject ([J "'nodeId':" ++ output_nodeid n;
            J "'subscriptionId':" ++ fmt_u (sb_id sb);
            J "'revisedPublishingInterval':" ++ fmt_g 17 (sb_interval sb);
            J "'revisedLifetimeCount':" ++ fmt_u (sb_lifetime sb);
            J "'revisedMaxKeepAliveCount':" ++ fmt_u (sb_keepAlive sb);
            J "'monitoredItemStatusCode':" ++ print_status_obj (mn_statusCode mon)]
           ++ filter_members filter mon ++ [J "'notifications':" ++ jarray notifications]).

Definition subscribe_error (timedOut : bool) (mon_sc : Z) : bytes :=
  if timedOut then J "{'category':'timeout','message':'timeout waiting for notifications'}"
  else if negb (StatusCode_isGood mon_sc) then
    J "{'category':'service','message':'CreateMonitoredItems rejected the monitored item'}"
  else B "null".

(** From the session to the exit code. *)
Definition run_subscription (rounds : nat) (w : W) (argv : list bytes) (n : ua_nodeid)
    (filter : option data_change_filter) : outcome W :=
  let '(w, sb) := Subscriptions_create w
    {| sr_interval := interval_flag argv (B "--publishing-interval-ms") 500; sr_counts := None |} in
  let svc := sb_serviceResult sb in
  if negb (StatusCode_isGood svc) then
    failed (Client_disconnect w) (fail (B "subscribe") 4 svc (B "service") (B "CreateSubscription failed"))
  else
    let nWanted := notifications_wanted argv in
    let ts := timestamps_flag (find_arg argv (B "--timestamps")) TS_BOTH in
    let '(w, mon) := MonitoredItems_createDataChange w (sb_id sb) ts (monitored_request argv n filter) in
    let '(w, store) := deliver w {| wanted := nWanted; entries := [] |} in
    let good := StatusCode_isGood (mn_statusCode mon) in
    match
      (if good then
         let '(w, start) := time_s w in
         wait_for rounds (fun st => nWanted <=? Z.of_nat (length (entries st))) (subscribe_timeout argv) 100
           start w store
       else Some (w, store, false))
    with
    | None => NoFuel
    | Some (w, store, timedOut) =>
        match mapM notification_item (entries store) with
        | None => OutOfBounds
        | Some items =>
            Exits (Client_disconnect (Subscriptions_deleteSingle w (sb_id sb)))
              (if timedOut then 7 else if good then 0 else 4)
              (envelope (B "subscribe") (good && negb timedOut)
                 (if good then svc else mn_statusCode mon)
                 (J ",'results':" ++ jarray [subscribe_item n sb mon filter items]
                  ++ J ",'error':" ++ subscribe_error timedOut (mn_statusCode mon)))
        end
    end.

Definition cmd_subscribe (fuel rounds : nat) (w : W) (g : ClientSecurity) (argv : list bytes) : outcome W :=
  match find_arg argv (B "--endpoint"), find_arg argv (B "--node") with
  | Some endpoint, Some nodeStr =>
      if negb (validate_nodeid_structure nodeStr)
      then usage_error w (B "subscribe") (malformed nodeStr)
      else
        match data_change_filter_of argv with
        | inr msg => usage_error w (B "subscribe") msg
        | inl filter =>
            with_client fuel w g endpoint 5000 (B "subscribe") (fun w =>
            match resolve_one w nodeStr with
            | (w, NsuOk n) => run_subscription rounds w argv n filter
            | (w, _) => unresolved_exit w (B "subscribe")
                          (snprintf 512 (B "unknown namespace URI in '" ++ nodeStr ++ B "'"))
            end)
        end
  | _, _ => usage_error w (B "subscribe") subscribe_usage
  end.
End Subscribe.

(** * Laws *)

Definition is_some_string (v : ua_value) : bool := match v with VString (Some _) => true | _ => false end.

(** Values a buffer of [n] bytes shows in full, strings of any length, and the
    scalars it shows as null. *)
Definition shown_in {stack : UaStack} (n : nat) (w : ua_variant) : Prop :=
  (buffered_variant w = true /\ fits w n) \/ (exists s, w = VtScalar (VString (Some s)) /\ Bytes s)
  \/ (exists v, w = VtScalar v /\ is_some_string v = false /\ buf_text v = B "null").

(** The notification buffer. *)
Definition shown {stack : UaStack} (w : ua_variant) : Prop := shown_in 512 w.

Section Rounds.
Context {W : Type} {L : ClientLib W} {sub : Subscriptions W}.

(** The time runs out after [k] more rounds of the network loop. *)
Inductive times_out (ms iter start : Z) : nat -> W -> Prop :=
| out_now w : ms <= elapsed_ms start (snd (time_s w)) -> times_out ms iter start 0 w
| out_later k w :
    times_out ms iter start k (fst (fired (Client_run_iterate (fst (time_s w)) iter))) ->
    times_out ms iter start (S k) w.

(** Rounds of the network loop and the values they deliver. *)
Inductive Rounds (iter : Z) : W -> W -> list ua_datavalue -> Prop :=
| Rounds_end w : Rounds iter w w []
| Rounds_step w w' l :
    Rounds iter (fst (fired (Client_run_iterate (fst (time_s w)) iter))) w' l ->
    Rounds iter w w' (snd (fired (Client_run_iterate (fst (time_s w)) iter)) ++ l).

(** The same, with the values of each round apart. *)
Inductive Deliveries (iter : Z) : W -> W -> list (list ua_datavalue) -> Prop :=
| Deliveries_end w : Deliveries iter w w []
| Deliveries_step w w' ls :
    Deliveries iter (fst (fired (Client_run_iterate (fst (time_s w)) iter))) w' ls ->
    Deliveries iter w w' (snd (fired (Client_run_iterate (fst (time_s w)) iter)) :: ls).
End Rounds.

Class SubscriptionLaws {stack : UaStack} {W : Type} (L : ClientLib W) (sub : Subscriptions W) := {
  create_wf : forall w r, let sb := snd (Subscriptions_create w r) in
    0 <= sb_serviceResult sb < 2 ^ 32 /\ 0 <= sb_id sb /\ isfinite (sb_interval sb) = true /\
    0 <= sb_lifetime sb /\ 0 <= sb_keepAlive sb;
  monitored_wf : forall w i t r, let mon := snd (MonitoredItems_createDataChange w i t r) in
    0 <= mn_statusCode mon < 2 ^ 32 /\ 0 <= mn_id mon /\ isfinite (mn_sampling mon) = true /\
    0 <= mn_queueSize mon /\
    match mn_filter mon with
    | FrNone => True
    | FrDecoded n name => wf_nodeid n = true /\ forallb plain (default [] name) = true
    | FrEncoded n => wf_nodeid n = true
    end;
  fired_wf : forall w d, In d (snd (fired w)) -> wf_datavalue d = true /\
    match d with DataValue (Some v) _ _ _ _ _ => shown v | _ => True end;
  (** time passes, and is looked at before it leaves the range of [int] *)
  time_passes : forall w ms iter, ms <= 2147483000 -> 0 < iter ->
    exists k, times_out ms iter (snd (time_s w)) k (fst (time_s w))
}.

(** * Lemmas *)

Section Lemmas.
Context {stack : UaStack} {laws : UaStackLaws stack}.

Lemma mapM_total {A C} (f : A -> option C) (P : C -> Prop) l :
  Forall (fun x => exists y, f x = Some y /\ P y) l ->
  exists ys, mapM f l = Some ys /\ Forall P ys /\ length ys = length l.
Proof.
  induction 1 as [|x l (y & Ey & Hy) _ (ys & E & Hys & Hl)]; [now exists []|].
  exists (y :: ys). cbn [mapM]. unfold obind. rewrite Ey, E. cbn. auto.
Qed.

Lemma mapM_map {A C D} (f : C -> option D) (h : A -> C) l : mapM f (map h l) = mapM (fun x => f (h x)) l.
Proof. induction l as [|x l IH]; [reflexivity|]. cbn. now rewrite IH. Qed.

Lemma shown_json n w : (16 <= n)%nat -> wf_variant w = true -> shown_in n w ->
  exists t, output_variant_to_buf w n = Some t /\ JValue t.
Proof.
  intros Hn Hw [[Hb Hf]|[(s & -> & Hs)|(v & -> & Hv & Ht)]].
  - exists (output_ua_variant_value w). split; [now apply to_buf_exact|now apply JValue_variant].
  - destruct (to_buf_string s n Hs) as [k E]; [lia|]. eexists. split; [exact E|].
    apply JValue_quoted, JBody_escapes. unfold Bytes in *. now apply Forall_firstn.
  - exists (B "null"). split; [|apply JValue_null]. cbn [output_variant_to_buf].
    assert (format_scalar_to_buf v n = (4%nat, B "null")) as ->
      by (destruct v; try destruct s; try discriminate Hv; unfold format_scalar_to_buf; rewrite Ht;
          unfold snprintf; rewrite firstn_all2 by (cbn; lia); reflexivity).
    destruct v; try reflexivity. destruct s; [discriminate Hv|reflexivity].
Qed.

Lemma stamp_text_cases key t :
  let b := match t with Some t => output_timestamp t | None => [] end in
  stamp_text key b = [] \/ (stamp_text key b = J key ++ b ++ J "'" /\ JBody b).
Proof.
  destruct t as [t|]; [|now left]. pose proof (JBody_timestamp t) as Hb. cbn zeta.
  destruct (output_timestamp t); [now left|]. now right.
Qed.

Lemma type_name_plain t : Forall (fun c => plain c = true) (type_name t).
Proof.
  unfold type_name. destruct t as [t|]; [|repeat constructor]. destruct (find _ named_types) as [p|] eqn:E.
  - apply find_some in E as [E _]. repeat (destruct E as [<-|E]; [repeat constructor|]). destruct E.
  - destruct (type_typeName t) as [n|] eqn:En; [|repeat constructor]. cbn [default].
    eapply Forall_impl; [|exact (typeName_text _ _ En)]. intros c (Hc & Hq & Hb). apply plain_intro; lia.
Qed.

(** What [fired_wf] asks of a delivered value. *)
Definition good_value (d : ua_datavalue) : Prop := wf_datavalue d = true /\
  match d with DataValue (Some v) _ _ _ _ _ => shown v | _ => True end.

Lemma JValue_notification i d : good_value d ->
  exists t, notification_item (notif_entry i d) = Some t /\ JValue t.
Proof.
  destruct d as [value st src sp rcv rp]. intros [H Hs]. cbn [wf_datavalue] in H. zbool.
  assert (0 <= default 0 st) as Hst by (destruct st; [now apply wf_opt_le|cbn; lia]).
  unfold notif_entry. set (type := match value with Some v => variant_type v | None => None end).
  assert (exists v, match value, type with Some v, Some _ => output_variant_to_buf v 512 | _, _ => Some (B "null") end
            = Some v /\ JValue v) as (v & Ev & Hv).
  { destruct value as [v|]; [|exists (B "null"); split; [reflexivity|apply JValue_null]].
    destruct type; [apply shown_json; [lia|assumption|exact Hs]|exists (B "null"); split; [reflexivity|apply JValue_null]]. }
  unfold notification_item. cbn [valueJson index statusCode dataType builtInType sourceTimestamp serverTimestamp dv_status].
  rewrite Ev. cbn [option_map]. eexists. split; [reflexivity|].
  assert (JBody (match type with Some t => firstn 63 (type_name (Some t)) | None => B "Unknown" end)) as Hn
    by (destruct type; [apply JBody_firstn_plain, type_name_plain|jbody]).
  set (dt := match type with Some t => firstn 63 (type_name (Some t)) | None => B "Unknown" end) in *.
  set (bi := match type with Some t => ua_type_to_builtin_id (Some t) | None => 0 end).
  pose proof (JValue_d bi). pose proof (JValue_status _ Hst). pose proof (JValue_d (Z.of_nat i + 1)).
  destruct (stamp_text_cases ",'sourceTimestamp':'" src) as [->|[-> Ha]];
    destruct (stamp_text_cases ",'serverTimestamp':'" rcv) as [->|[-> Hb]];
    cbn [app]; jvalue.
Qed.

(** ** The store *)

Lemma combine_shift {A C} (f : nat -> A -> C) n xs : forall l,
  map (fun p => f (n + 1 + fst p)%nat (snd p)) (combine xs l)
  = map (fun p => f (n + fst p)%nat (snd p)) (combine (map S xs) l).
Proof.
  induction xs as [|x xs IH]; intros [|d l]; try reflexivity. cbn.
  rewrite IH. do 2 f_equal. lia.
Qed.

(** The callbacks in sequence keep the first 256 values, numbered from 0. *)
Lemma store_append l : forall store,
  (length (entries store) <= MAX_NOTIFICATIONS)%nat ->
  let n := length (entries store) in
  entries (fold_left sub_data_change_cb l store)
    = entries store ++ map (fun p => notif_entry (n + fst p) (snd p))
        (combine (seq 0 (MAX_NOTIFICATIONS - n)) l)
  /\ wanted (fold_left sub_data_change_cb l store) = wanted store.
Proof.
  induction l as [|d l IH]; intros store Hs n; cbn [fold_left].
  { destruct (MAX_NOTIFICATIONS - n)%nat; cbn; now rewrite app_nil_r. }
  destruct (Nat.leb_spec MAX_NOTIFICATIONS (length (entries store))) as [Hf|Hf].
  - assert (sub_data_change_cb store d = store) as E by (unfold sub_data_change_cb; apply Nat.leb_le in Hf; now rewrite Hf).
    rewrite E. destruct (IH store Hs) as [-> Hw]. split; [|exact Hw]. fold n.
    replace (MAX_NOTIFICATIONS - n)%nat with O by (unfold n; lia). reflexivity.
  - set (store' := {| wanted := wanted store; entries := entries store ++ [notif_entry n d] |}).
    assert (sub_data_change_cb store d = store') as E
      by (unfold sub_data_change_cb; apply Nat.leb_gt in Hf; now rewrite Hf).
    rewrite E. destruct (IH store') as [-> Hw]; [cbn; rewrite length_app; cbn; lia|].
    split; [|rewrite Hw; reflexivity]. cbn [store' entries]. rewrite length_app. cbn [length]. fold n.
    replace (MAX_NOTIFICATIONS - n)%nat with (S (MAX_NOTIFICATIONS - (n + 1))) by lia.
    cbn [seq combine map fst snd]. rewrite <- app_assoc, Nat.add_0_r. cbn [app]. do 2 f_equal.
    rewrite <- seq_shift. apply combine_shift.
Qed.

Lemma store_from_empty l wtd :
  let store := fold_left sub_data_change_cb l {| wanted := wtd; entries := [] |} in
  entries store = map (fun p => notif_entry (fst p) (snd p)) (combine (seq 0 MAX_NOTIFICATIONS) l).
Proof. apply (store_append l {| wanted := wtd; entries := [] |}). cbn. lia. Qed.
End Lemmas.

(** * Waiting for notifications *)

Section Waiting.
Context {stack : UaStack} {laws : UaStackLaws stack} {W : Type} {L : ClientLib W} {sub : Subscriptions W}.

Lemma wait_for_rounds rounds ready ms iter start : forall w store w' store' b,
  wait_for rounds ready ms iter start w store = Some (w', store', b) ->
  exists w2 l, Rounds iter w w2 l /\ store' = fold_left sub_data_change_cb l store /\
    (b = false -> ready store' = true /\ w' = w2).
Proof.
  induction rounds as [|k IH]; intros w store w' store' b; cbn [wait_for];
    destruct (ready store) eqn:Er; intros H; try discriminate H.
  1, 2: injection H as <- <- <-; exists w, []; repeat split; [constructor|exact Er].
  pose proof (Rounds_step iter w) as Hstep.
  destruct (time_s w) as [w1 now]. cbn [fst] in Hstep. destruct (ms <=? elapsed_ms start now).
  { injection H as <- <- <-. exists w, []. repeat split; [constructor|discriminate..]. }
  unfold deliver in H. destruct (fired (Client_run_iterate w1 iter)) as [w2 l]. cbn [fst snd] in Hstep.
  apply IH in H as (w3 & l' & Hr & -> & Hb). exists w3, (l ++ l'). split; [now apply Hstep|].
  split; [now rewrite fold_left_app|exact Hb].
Qed.

(** A wait that ends in time ends with the first round that makes it ready. *)
Lemma wait_for_stops rounds ready ms iter start : forall w store w' store',
  wait_for rounds ready ms iter start w store = Some (w', store', false) ->
  exists ls, Deliveries iter w w' ls /\ store' = fold_left sub_data_change_cb (concat ls) store /\
    ready store' = true /\
    forall before last, ls = before ++ [last] -> ready (fold_left sub_data_change_cb (concat before) store) = false.
Proof.
  induction rounds as [|k IH]; intros w store w' store'; cbn [wait_for];
    destruct (ready store) eqn:Er; intros H; try discriminate H.
  1, 2: injection H as <- <-; exists []; repeat split; [constructor|exact Er|now intros [|] ? [=]].
  pose proof (Deliveries_step iter w) as Hstep.
  destruct (time_s w) as [w1 now]. cbn [fst] in Hstep. destruct (ms <=? elapsed_ms start now); [discriminate|].
  unfold deliver in H. destruct (fired (Client_run_iterate w1 iter)) as [w2 l]. cbn [fst snd] in Hstep.
  apply IH in H as (ls & Hr & -> & Hb & Hs). exists (l :: ls). split; [now apply Hstep|].
  cbn [concat]. rewrite fold_left_app. repeat split; [exact Hb|].
  intros [|b before] last [= -> Hl]; [exact Er|]. cbn [concat]. rewrite fold_left_app. now apply (Hs before last).
Qed.

Lemma wait_for_ends ready ms iter start k w : times_out ms iter start k w -> forall store,
  exists r, forall rounds, (k < rounds)%nat -> wait_for rounds ready ms iter start w store = Some r.
Proof.
  induction 1 as [w Ht|k w Ht IH]; intros store; destruct (ready store) eqn:Er.
  1, 3: exists (w, store, false); intros [|r] Hr; cbn [wait_for]; rewrite Er; reflexivity.
  - exists (fst (time_s w), store, true). intros [|r] Hr; [lia|]. cbn [wait_for]. rewrite Er.
    destruct (time_s w) as [w1 now]. cbn [fst snd] in *. now apply Z.leb_le in Ht as ->.
  - destruct (time_s w) as [w1 now] eqn:Et. cbn [fst] in *. destruct (ms <=? elapsed_ms start now) eqn:E.
    { exists (w1, store, true). intros [|r] Hr; [lia|]. cbn [wait_for]. now rewrite Er, Et, E. }
    destruct (fired (Client_run_iterate w1 iter)) as [w2 l] eqn:Ef. cbn [fst] in *.
    destruct (IH (fold_left sub_data_change_cb l store)) as [r Hr]. exists r. intros [|n] Hn; [lia|].
    cbn [wait_for]. unfold deliver. rewrite Er, Et, E, Ef. apply Hr. lia.
Qed.

Context {subLaws : SubscriptionLaws L sub}.

Lemma rounds_good iter w w' l : Rounds iter w w' l -> Forall good_value l.
Proof.
  induction 1 as [|w w' l _ IH]; [constructor|]. apply Forall_app; split; [|exact IH].
  apply Forall_forall. intros d Hd. now apply (fired_wf _ d Hd).
Qed.

(** Every stored entry prints as JSON, whatever sequence of values came in. *)
Lemma store_items l : Forall good_value l -> forall wtd,
  exists items, mapM notification_item (entries (fold_left sub_data_change_cb l {| wanted := wtd; entries := [] |}))
    = Some items /\ Forall JValue items.
Proof.
  intros Hl wtd. destruct (mapM_total notification_item JValue
    (entries (fold_left sub_data_change_cb l {| wanted := wtd; entries := [] |}))) as (items & E & Hj & _).
  - rewrite store_from_empty. apply Forall_map, Forall_forall. intros [i d] Hp.
    apply in_combine_r in Hp. rewrite Forall_forall in Hl. now apply JValue_notification, Hl.
  - eauto.
Qed.
End Waiting.

Section Reports.
Context {stack : UaStack} {laws : UaStackLaws stack} {cj : CJson} {W : Type} {L : ClientLib W}
  {libLaws : ClientLibLaws L} {clk : Clock L} {srv : Services W} {sub : Subscriptions W}
  {subLaws : SubscriptionLaws L sub}.

Definition finite_filter (filter : option data_change_filter) : Prop :=
  match filter with
  | Some f => isfinite (deadbandValue f) = true /\ 0 <= trigger f < 3 /\ 0 <= deadbandType f < 3
  | None => True
  end.

Lemma three_names (n : Z) a b c : 0 <= n < 3 -> JBody a -> JBody b -> JBody c ->
  JBody (nth (Z.to_nat n) [a; b; c] []).
Proof.
  intros Hn Ha Hb Hc. assert (n = 0 \/ n = 1 \/ n = 2) as [E|[E|E]] by lia; subst n; assumption.
Qed.

Lemma JMember_filter filter w i t r : finite_filter filter ->
  Forall JMember (filter_members filter (snd (MonitoredItems_createDataChange w i t r))).
Proof.
  intros Hf. destruct filter as [f|]; [|constructor]. destruct Hf as (Hd & Ht & Hb). cbn [filter_members].
  destruct (monitored_wf w i t r) as (_ & H1 & H2 & H3 & H4).
  set (mon := snd (MonitoredItems_createDataChange w i t r)) in *.
  assert (JValue (fmt_g 17 (mn_sampling mon))) by (apply JValue_g; [lia|assumption]).
  assert (JValue (fmt_g 17 (deadbandValue f))) by (apply JValue_g; [lia|assumption]).
  assert (JValue (filter_result_json (mn_filter mon))).
  { destruct (mn_filter mon) as [|n name|n]; cbn [filter_result_json]; [apply JValue_null| |].
    - destruct H4 as [H4 H5]. pose proof (JValue_nodeid n H4) as H6. change (print_ua_nodeid n) with (output_nodeid n) in H6.
      assert (JBody (default [] name)) by (apply JBody_Forall, Forall_forall; intros x Hx; rewrite forallb_forall in H5; auto).
      jvalue.
    - pose proof (JValue_nodeid n H4) as H6. change (print_ua_nodeid n) with (output_nodeid n) in H6. jvalue. }
  pose proof (three_names (trigger f) (B "Status") (B "StatusValue") (B "StatusValueTimestamp") Ht
    ltac:(jbody) ltac:(jbody) ltac:(jbody)) as Hn1.
  pose proof (three_names (deadbandType f) (B "None") (B "Absolute") (B "Percent") Hb
    ltac:(jbody) ltac:(jbody) ltac:(jbody)) as Hn2.
  set (n1 := nth _ [B "Status"; _; _] []) in *. set (n2 := nth _ [B "None"; _; _] []) in *.
  repeat apply Forall_cons; try apply Forall_nil; (apply JMember_lit; [reflexivity|reflexivity|]);
    auto using JValue_u.
  jvalue.
Qed.

Lemma JRest_subscribe n sb mon filter items err :
  JValue (subscribe_item n sb mon filter items) -> JValue err ->
  JRest (J ",'results':" ++ jarray [subscribe_item n sb mon filter items] ++ J ",'error':" ++ err).
Proof.
  intros Hi He. split; [reflexivity|].
  assert (JValue (jarray [subscribe_item n sb mon filter items])) by (apply JValue_array; repeat constructor; assumption).
  change output_end with [125; 10]. jwalk.
Qed.

Lemma ends_failed (w : W) op code sc cat msg : Bytes op -> Bytes cat -> Bytes msg -> 0 <= sc ->
  In code [2; 3; 4; 6; 7] -> ends_reporting op (failed w (fail op code sc cat msg)).
Proof.
  intros Ho Hc Hm Hs Hi. eexists _, _, _. split; [reflexivity|].
  apply (reports_envelope op code false sc (output_error cat msg)); auto using JRest_error.
  - cbn in *. tauto.
  - symmetry. apply Z.eqb_neq. intros ->. cbn in Hi. intuition discriminate.
Qed.

Lemma run_subscription_reports w argv n filter :
  wf_nodeid n = true -> finite_filter filter -> subscribe_timeout argv <= 2147483000 ->
  exists p, forall rounds, (p <= rounds)%nat ->
    ends_reporting (B "subscribe") (run_subscription rounds w argv n filter).
Proof.
  intros Hn Hf Ht. unfold run_subscription.
  set (r0 := {| sr_interval := _; sr_counts := _ |}). destruct (create_wf w r0) as (H1 & H2 & H3 & H4 & H5).
  destruct (Subscriptions_create w r0) as [w1 sb]. cbn [snd] in *.
  destruct (StatusCode_isGood (sb_serviceResult sb)) eqn:Eg; cbn [negb].
  2:{ exists O. intros _ _. apply ends_failed; [apply Bytes_B..|lia|cbn; tauto]. }
  set (ts := timestamps_flag _ _). set (mr := monitored_request argv n filter).
  pose proof (JMember_filter filter w1 (sb_id sb) ts mr Hf) as Hfm.
  destruct (monitored_wf w1 (sb_id sb) ts mr) as (Hm & _).
  destruct (MonitoredItems_createDataChange w1 (sb_id sb) ts mr) as [w2 mon]. cbn [snd] in *.
  unfold deliver. pose proof (fun d => fired_wf w2 d) as Hw2. destruct (fired w2) as [w3 l0]. cbn [snd] in Hw2.
  assert (Forall good_value l0) as Hl0 by (apply Forall_forall; exact Hw2).
  set (wtd := notifications_wanted argv). set (ready := fun st : NotifStore => _).
  set (store0 := fold_left sub_data_change_cb l0 {| wanted := wtd; entries := [] |}).
  assert (exists p w4 l b, forall rounds, (p <= rounds)%nat ->
    (if StatusCode_isGood (mn_statusCode mon)
     then let '(w, start) := time_s w3 in wait_for rounds ready (subscribe_timeout argv) 100 start w store0
     else Some (w3, store0, false))
    = Some (w4, fold_left sub_data_change_cb (l0 ++ l) {| wanted := wtd; entries := [] |}, b)
    /\ Forall good_value l) as (p & w4 & l & b & Hp).
  { destruct (StatusCode_isGood (mn_statusCode mon)).
    2:{ exists O, w3, [], false. intros. rewrite app_nil_r. split; [reflexivity|constructor]. }
    destruct (time_passes w3 (subscribe_timeout argv) 100 Ht) as [k Hk]; [lia|].
    destruct (time_s w3) as [w5 start]. cbn [fst snd] in Hk.
    destruct (wait_for_ends ready _ _ _ _ _ Hk store0) as [[[w4 st] b] Hr].
    pose proof (Hr (S k) ltac:(lia)) as E. apply wait_for_rounds in E as (w6 & l & Hrd & -> & _).
    exists (S k), w4, l, b. intros rounds Hge. rewrite Hr by lia. rewrite fold_left_app. split; [reflexivity|].
    eapply rounds_good; eauto. }
  exists p. intros rounds Hge. destruct (Hp rounds Hge) as [-> Hl].
  destruct (store_items (l0 ++ l)) with (wtd := wtd) as (items & -> & Hj); [now apply Forall_app|].
  eexists _, _, _. split; [reflexivity|]. apply reports_envelope; [apply Bytes_B| | | |].
  - destruct (StatusCode_isGood (mn_statusCode mon)); lia.
  - apply JRest_subscribe.
    + unfold subscribe_item. apply JValue_object.
      pose proof (JValue_nodeid n Hn) as J1. change (print_ua_nodeid n) with (output_nodeid n) in J1.
      pose proof (JValue_g 17 (sb_interval sb) ltac:(lia) H3). pose proof (JValue_status (mn_statusCode mon) ltac:(lia)).
      apply Forall_app; split; [|apply Forall_app; split; [exact Hfm|]];
        repeat apply Forall_cons; try apply Forall_nil; (apply JMember_lit; [reflexivity|reflexivity|]);
        auto using JValue_u, JValue_array.
    + unfold subscribe_error. destruct b; [jvalue|]. destruct (negb _); [jvalue|apply JValue_null].
  - destruct b, (StatusCode_isGood (mn_statusCode mon)); cbn; tauto.
  - destruct b, (StatusCode_isGood (mn_statusCode mon)); reflexivity.
Qed.
(** As [with_client_reports], for a command that also waits. *)
Lemma with_client_rounds w g url ms op (k : nat -> W -> outcome W) : text_args g op ->
  (forall w1, exists p, forall rounds, (p <= rounds)%nat -> ends_reporting op (k rounds w1)) ->
  exists n, forall fuel, (n <= fuel)%nat -> exists p, forall rounds, (p <= rounds)%nat ->
    ends_reporting op (with_client fuel w g url ms op (k rounds)).
Proof.
  intros Ht Hk. destruct (make_client_ends w g url ms op) as [n Hn]. exists n. intros fuel Hf.
  unfold with_client. destruct (Hn fuel Hf) as [[w1 [cfg|f]] E]; rewrite E; [apply Hk|].
  exists O. intros. eexists _, _, _. split; [reflexivity|]. apply reports_failure. eapply make_client_failure; eauto.
Qed.

Lemma filter_message argv msg : data_change_filter_of argv = inr msg -> Bytes msg.
Proof.
  unfold data_change_filter_of. intros H. repeat case_hyp H; try discriminate H; injection H as <-; apply Bytes_B.
Qed.

Lemma filter_finite argv filter :
  (forall f s, In f [B "--deadband-absolute"; B "--deadband-percent"] -> find_arg argv f = Some s ->
     isfinite (atof s) = true) ->
  data_change_filter_of argv = inl filter -> finite_filter filter.
Proof.
  intros Hd. unfold data_change_filter_of.
  destruct (match find_arg argv (B "--trigger") with Some _ => _ | None => _ end) as [[x t]|] eqn:Et; [|discriminate].
  assert (0 <= t < 3) as Htr.
  { destruct (find_arg argv (B "--trigger")); [|injection Et as _ <-; lia].
    apply find_some in Et as [Et _]. repeat (destruct Et as [Et|Et]; [injection Et as _ <-; lia|]). destruct Et. }
  pose proof (Hd (B "--deadband-absolute")) as H1. pose proof (Hd (B "--deadband-percent")) as H2.
  destruct (find_arg argv (B "--deadband-absolute")) as [a|], (find_arg argv (B "--deadband-percent")) as [b|];
    cbn [is_some andb orb]; intros H; try discriminate H.
  - injection H as <-. repeat split; try (cbn; lia). apply (H1 a); [now left|reflexivity].
  - injection H as <-. repeat split; try (cbn; lia). apply (H2 b); [now right; left|reflexivity].
  - destruct (is_some _); injection H as <-; [|exact I]. repeat split; cbn; lia.
Qed.
End Reports.

(** * Theorems *)

(** subscribe always ends, by the notifications it waits for or by its
    timeout, never prints past the end of a value buffer, and prints exactly one
    JSON envelope whose [success] is true exactly when the exit code is 0;
    provided the deadband is a finite number and the timeout is below 2147483
    seconds. *)
Lemma subscribe_reports {stack : UaStack} {laws : UaStackLaws stack} {cj : CJson} {W} {L : ClientLib W}
    {libLaws : ClientLibLaws L} {clk : Clock L} {srv : Services W} {sub : Subscriptions W}
    {subLaws : SubscriptionLaws L sub} w g argv :
  text_argv argv -> text_args g (B "subscribe") ->
  (forall s, find_arg argv (B "--node") = Some s -> printable s) ->
  (forall w u i, snd (NamespaceGetIndex w u) = Some i -> 0 <= i) ->
  (forall f s, In f [B "--deadband-absolute"; B "--deadband-percent"] -> find_arg argv f = Some s ->
     isfinite (atof s) = true) ->
  subscribe_timeout argv <= 2147483000 ->
  exists n, forall fuel, (n <= fuel)%nat -> exists p, forall rounds, (p <= rounds)%nat ->
    ends_reporting (B "subscribe") (cmd_subscribe fuel rounds w g argv).
Proof.
  intros Ht Hg Hp Hns Hd Hms. unfold cmd_subscribe.
  assert (forall msg, Bytes msg -> exists n, forall fuel, (n <= fuel)%nat -> exists p, forall rounds, (p <= rounds)%nat ->
    ends_reporting (B "subscribe") (usage_error w (B "subscribe") msg)) as Hu
    by (intros msg Hm; exists O; intros; exists O; intros; apply ends_usage; [apply Bytes_B|exact Hm]).
  destruct (find_arg argv (B "--endpoint")) as [url|]; [|apply Hu, Bytes_B].
  destruct (find_arg argv (B "--node")) as [s|] eqn:Es; [|apply Hu, Bytes_B].
  pose proof (find_arg_Bytes _ _ _ Ht Es) as Hb. specialize (Hp s eq_refl).
  destruct (negb _); [now apply Hu, Bytes_malformed|].
  destruct (data_change_filter_of argv) as [filter|msg] eqn:Ef; [|apply filter_message in Ef; now apply Hu].
  apply filter_finite in Ef; [|exact Hd].
  apply with_client_rounds; [exact Hg|]. intros w1.
  destruct (resolve_one w1 s) as [w2 [i| |]] eqn:Er.
  2, 3: exists O; intros; apply ends_unresolved; [apply Bytes_B|apply Bytes_snprintf; auto using Bytes_cat, Bytes_B].
  apply resolve_one_wf in Er; [|exact Hns|exact Hp]. now apply run_subscription_reports.
Qed.

(** What --notifications asks for; 5 without the flag. *)
Definition notifications_asked (argv : list bytes) : Z :=
  match find_arg argv (B "--notifications") with Some s => atoi s | None => 5 end.

Lemma wanted_asked argv : 1 <= notifications_asked argv <= Z.of_nat MAX_NOTIFICATIONS ->
  notifications_wanted argv = notifications_asked argv.
Proof.
  unfold notifications_asked, notifications_wanted, MAX_NOTIFICATIONS. intros H.
  destruct (find_arg argv (B "--notifications")) as [s|]; [|reflexivity].
  destruct (Z.leb_spec (atoi s) 0); [lia|]. destruct (Z.ltb_spec 256 (atoi s)); [lia|reflexivity].
Qed.

(** Rounds of at most one delivery that stop as soon as enough came in bring exactly as many. *)
Lemma stop_exact {A} (ask : nat) (ls : list (list A)) : (1 <= ask)%nat -> Forall (fun l => (length l <= 1)%nat) ls ->
  (ask <= length (concat ls))%nat ->
  (forall before last, ls = before ++ [last] -> before <> [] -> (length (concat before) < ask)%nat) ->
  length (concat ls) = ask.
Proof.
  intros H1 Ho Hn Hs. destruct ls as [|x r] using rev_ind; [cbn in Hn; lia|]. clear IHr.
  apply Forall_app in Ho as [_ Ho]. inversion_clear Ho as [|? ? Hx _].
  rewrite concat_app, length_app in *. cbn [concat] in *. rewrite app_nil_r in *.
  destruct r as [|y r]; [cbn [concat length] in *; lia|]. specialize (Hs (y :: r) x eq_refl ltac:(discriminate)). lia.
Qed.


(** A server that delivers one value per call; the world is its clock in
    milliseconds. *)
#[export] Instance ref_subscriptions : Subscriptions Z := {
  Subscriptions_create w _ := (w, {| sb_serviceResult := UA_STATUSCODE_GOOD; sb_id := 7;
    sb_interval := double_of false 500 0; sb_lifetime := 30; sb_keepAlive := 10 |});
  Subscriptions_deleteSingle w _ := w;
  MonitoredItems_createDataChange w _ _ _ := (w, {| mn_statusCode := UA_STATUSCODE_GOOD; mn_id := 1;
    mn_sampling := double_of false 100 0; mn_queueSize := 1; mn_filter := FrNone |});
  fired w := (w, [DataValue (Some (VtScalar (VBoolean true))) None (Some 133485408001234567) None None None]);
  time_s w := (w, w / 1000);
  int_oob _ := - 2 ^ 31 }.

Lemma ref_times_out ms iter start k : forall w, ms <= elapsed_ms start ((w + 20 * Z.of_nat k) / 1000) ->
  times_out (L := ref_client) ms iter start k w.
Proof.
  induction k as [|k IH]; intros w H.
  - constructor. cbn [time_s ref_subscriptions snd]. now rewrite Z.mul_0_r, Z.add_0_r in H.
  - constructor. cbn. apply IH. replace (w + 20 + 20 * Z.of_nat k) with (w + 20 * Z.of_nat (S k)) by lia. exact H.
Qed.

#[export] Instance ref_subscription_laws : SubscriptionLaws ref_client ref_subscriptions.
Proof.
  split.
  - intros. cbn. unfold UA_STATUSCODE_GOOD. repeat split; lia.
  - intros. cbn. unfold UA_STATUSCODE_GOOD. repeat split; lia.
  - intros w d [<-|[]]. split; [reflexivity|]. left. split; [reflexivity|]. split; [vm_compute; lia|exact I].
  - intros w ms iter Hms Hi. set (c := Z.max 0 ((ms + 999) / 1000)). exists (Z.to_nat (50 * c)).
    cbn [time_s ref_subscriptions fst snd]. apply ref_times_out.
    assert (0 <= c) by lia. rewrite Z2Nat.id by lia.
    replace (w + 20 * (50 * c)) with (w + c * 1000) by lia. rewrite Z.div_add by lia.
    pose proof (Z.div_mod (ms + 999) 1000 ltac:(lia)). pose proof (Z.mod_pos_bound (ms + 999) 1000 ltac:(lia)).
    unfold elapsed_ms. replace ((w / 1000 + c - w / 1000) * 1000) with (c * 1000) by lia.
    destruct (Z.leb_spec (- 2 ^ 31) (c * 1000)); [|lia]. destruct (Z.ltb_spec (c * 1000) (2 ^ 31)); [|lia].
    cbn [andb]. lia.
Qed.

Definition subscribe_argv : list bytes :=
  [B "subscribe"; B "--endpoint"; B "opc.tcp://s"; B "--node"; B "ns=1;s=x"; B "--notifications"; B "3";
   B "--deadband-absolute"; B "0.5"].


(** A request above 256 is capped in silence: exit 0 with fewer values than asked for. *)
Lemma notifications_capped argv n : notifications_asked argv = n -> 256 < n -> notifications_wanted argv = 256.
Proof.
  unfold notifications_asked, notifications_wanted. intros H Hn. destruct (find_arg argv (B "--notifications")) as [s|]; [|lia].
  rewrite H. destruct (Z.leb_spec n 0); [lia|]. destruct (Z.ltb_spec 256 n); [reflexivity|lia].
Qed.

(** A server that delivers two values per call. *)
Definition pair_subscriptions : Subscriptions Z :=
  {| Subscriptions_create := Subscriptions_create (Subscriptions := ref_subscriptions); Subscriptions_deleteSingle := Subscriptions_deleteSingle;
     MonitoredItems_createDataChange := MonitoredItems_createDataChange;
     fired := fun w => let '(w, l) := fired w in (w, l ++ l); time_s := time_s; int_oob := int_oob |}.

(** The count is only tested between rounds: three values are asked for and four collected. *)
Lemma subscribe_overshoot :
  option_map (fun r => length (entries (snd (fst r))))
    (wait_for (L := ref_client) (sub := pair_subscriptions) 9 (fun st => 3 <=? Z.of_nat (length (entries st))) 10000 100 0 0
       {| wanted := 3; entries := [] |}) = Some 4%nat.
Proof. vm_compute. reflexivity. Qed.

(** [--deadband-absolute inf] is accepted and printed as [inf]. *)
Lemma deadband_inf_not_json :
  match cmd_subscribe 5 9 0 g_sec_default [B "subscribe"; B "--endpoint"; B "opc.tcp://s"; B "--node"; B "ns=1;s=x";
    B "--notifications"; B "1"; B "--deadband-absolute"; B "inf"] with
  | Exits _ code out => code = 0 /\ is_json out = false
  | _ => False
  end.
Proof. vm_compute. split; reflexivity. Qed.
