(* ===== verification/Lifecycle.v ===== *)
(** client.c: the [subscription-lifecycle] command: the revise, publishing-mode,
    monitoring-mode and delete scenarios against one subscription. *)

From Stdlib Require Import String Ascii ZArith Bool List Lia SpecFloat.
Import ListNotations.
From S2P Require Import Prelude CLib Json Float UaTypes RefStack Base64 Output OutputBuf.
From S2P Require Import CJson Values Args NodeIds Connect Session ReadWrite BrowseCall.
From S2P Require Import Historian HistoryRead Subscribe.

(** The further services of the scenarios: the service result and the results
    per item. *)
Class SubscriptionControl (W : Type) := {
  SetPublishingMode : W -> Z -> bool -> W * (Z * list Z);
  SetMonitoringMode : W -> Z -> Z -> Z -> W * (Z * list Z);
  writeValueAttribute : W -> ua_nodeid -> ua_variant -> W * Z;
  DeleteMonitoredItems : W -> Z -> Z -> W * (Z * list Z);
  DeleteSubscriptions : W -> Z -> W * (Z * list Z)
}.

(** UA_MonitoringMode *)
Definition MON_DISABLED := 0.
Definition MON_SAMPLING := 1.
Definition MON_REPORTING := 2.

Section Lifecycle.
Context {stack : UaStack} {cj : CJson} {W : Type} {L : ClientLib W} {srv : Services W}
  {sub : Subscriptions W} {ctl : SubscriptionControl W}.

Definition lifecycle_op : bytes := B "subscription-lifecycle".

(** The service result, or the first item result of a Good response. *)
Definition first_result (r : Z * list Z) : Z :=
  let '(sc, results) := r in
  match results with x :: _ => if StatusCode_isGood sc then x else sc | [] => sc end.

Definition slc_set_publishing_mode (w : W) (subId : Z) (enabled : bool) : W * Z :=
  let '(w, r) := SetPublishingMode w subId enabled in (w, first_result r).

Definition slc_set_monitoring_mode (w : W) (subId monId mode : Z) : W * Z :=
  let '(w, r) := SetMonitoringMode w subId monId mode in (w, first_result r).

Definition slc_write_int32 (w : W) (nodeId : ua_nodeid) (val : Z) : W * Z :=
  writeValueAttribute w nodeId (VtScalar (VInt32 val)).

(** ** revise *)

Definition service_failed (w : W) (sc : Z) (msg : bytes) : outcome W :=
  failed w (fail lifecycle_op 4 sc (B "service") msg).

(** One object of results, no error. *)
Definition one_result (w : W) (ok : bool) (sc : Z) (members : list bytes) : outcome W :=
  Exits w (if ok then 0 else 4)
    (envelope lifecycle_op ok sc (results_of [jobject members])).

Definition slc_revise (w : W) : outcome W :=
  let '(w, sb) := Subscriptions_create w
    {| sr_interval := double_of false 1 0; sr_counts := Some (5, 10) |} in
  let sc := sb_serviceResult sb in
  if negb (StatusCode_isGood sc) then service_failed w sc (B "CreateSubscription failed")
  else
    let w := Subscriptions_deleteSingle w (sb_id sb) in
    let ok := (u32 (3 * sb_keepAlive sb) <=? sb_lifetime sb) && SFleb (double_of false 10 0) (sb_interval sb) in
    one_result w ok sc
      [J "'subscriptionId':" ++ fmt_u (sb_id sb);
       J "'requestedPublishingInterval':1"; J "'requestedLifetimeCount':5"; J "'requestedMaxKeepAliveCount':10";
       J "'revisedPublishingInterval':" ++ fmt_g 17 (sb_interval sb);
       J "'revisedLifetimeCount':" ++ fmt_u (sb_lifetime sb);
       J "'revisedMaxKeepAliveCount':" ++ fmt_u (sb_keepAlive sb)].

(** ** Steps of the scenarios: a call and the callbacks it fires *)

Definition step (f : W -> W * Z) (w : W) (st : NotifStore) : W * NotifStore := deliver (fst (f w)) st.

Definition count (st : NotifStore) : Z := Z.of_nat (length (entries st)).
Definition reset (st : NotifStore) : NotifStore := {| wanted := wanted st; entries := [] |}.

(** [while (!ready) { if (elapsed >= ms) break; iterate(50); }], the clock read
    before the loop. *)
Definition await (rounds : nat) (ready : NotifStore -> bool) (ms : Z) (w : W) (st : NotifStore)
    : option (W * NotifStore) :=
  let '(w, t0) := time_s w in
  option_map fst (wait_for rounds ready ms 50 t0 w st).

Definition drain (rounds : nat) := await rounds (fun st => 1 <=? count st) 500.
Definition pause (rounds : nat) (ms : Z) := await rounds (fun _ => false) ms.

(** [toMs - 2000] between 2000 and 5000. *)
Definition collect_ms (toMs : Z) : Z :=
  let c := toMs - 2000 in
  let c := if c <? 2000 then 2000 else c in
  if 5000 <? c then 5000 else c.

(** CreateSubscription and CreateMonitoredItem, and what follows when both are
    Good. *)
Definition with_item (w : W) (interval : Z) (req : mon_request) (wtd : Z)
    (k : W -> NotifStore -> sub_response -> Z -> outcome W) : outcome W :=
  let '(w, sb) := Subscriptions_create w {| sr_interval := double_of false interval 0; sr_counts := None |} in
  let sc := sb_serviceResult sb in
  if negb (StatusCode_isGood sc) then service_failed w sc (B "CreateSubscription failed")
  else
    let '(w, mon) := MonitoredItems_createDataChange w (sb_id sb) TS_SOURCE req in
    let '(w, st) := deliver w {| wanted := wtd; entries := [] |} in
    if negb (StatusCode_isGood (mn_statusCode mon)) then
      service_failed (Subscriptions_deleteSingle w (sb_id sb)) (mn_statusCode mon) (B "CreateMonitoredItem failed")
    else k w st sb (mn_id mon).

Definition item_request (n : ua_nodeid) (queueSize : Z) : mon_request :=
  {| mr_node := n; mr_sampling := Some (S754_zero false); mr_queueSize := Some queueSize;
     mr_discardOldest := Some true; mr_filter := None |}.

(** ** publishing-mode *)

Definition OVERFLOW_MASK : Z := 0x04800000.

Fixpoint write_sequence (w : W) (st : NotifStore) (n : ua_nodeid) (vals : list Z) : W * NotifStore :=
  match vals with
  | [] => (w, st)
  | v :: r =>
      let '(w, st) := step (fun w => slc_write_int32 w n v) w st in
      let '(w, st) := deliver (Client_run_iterate w 20) st in
      write_sequence w st n r
  end.

(** The last three values are 3, 4, 5; with fewer, the last is 5. *)
Definition expected_window (vals : list Z) : bool :=
  match rev vals with
  | c :: b :: a :: _ => (a =? 3) && (b =? 4) && (c =? 5)
  | c :: _ => c =? 5
  | [] => false
  end.

Definition slc_publishing_mode (rounds : nat) (w : W) (n : ua_nodeid) (toMs : Z) : outcome W :=
  with_item w 500 (item_request n 3) 256 (fun w st sb monId =>
  let subId := sb_id sb in
  match drain rounds w st with
  | None => NoFuel
  | Some (w, st) =>
  let '(w, st) := step (fun w => slc_set_publishing_mode w subId false) w st in
  let '(w, st) := write_sequence w (reset st) n [1; 2; 3; 4; 5] in
  match pause rounds 200 w st with
  | None => NoFuel
  | Some (w, st) =>
  let '(w, st) := step (fun w => slc_set_publishing_mode w subId true) w st in
  match await rounds (fun st => 3 <=? count st) (collect_ms toMs) w st with
  | None => NoFuel
  | Some (w, st) =>
  let '(w, st) := deliver (Subscriptions_deleteSingle w subId) st in
  match mapM valueJson (entries st) with
  | None => OutOfBounds
  | Some texts =>
      let overflow := (count st <? 5)
        || existsb (fun e => negb (Z.land (statusCode e) OVERFLOW_MASK =? 0)) (entries st) in
      one_result w (expected_window (map atoi texts)) (sb_serviceResult sb)
        [J "'subscriptionId':" ++ fmt_u subId;
         J "'revisedPublishingInterval':" ++ fmt_g 17 (sb_interval sb);
         J "'revisedLifetimeCount':" ++ fmt_u (sb_lifetime sb);
         J "'revisedMaxKeepAliveCount':" ++ fmt_u (sb_keepAlive sb);
         J "'overflow':" ++ bool_text overflow;
         J "'values':" ++ jarray texts]
  end end end end).

(** ** monitoring-mode *)

Definition mode_step (mode : string) (n : Z) : bytes :=
  J "{'mode':'" ++ B mode ++ J "','notificationCount':" ++ fmt_d n ++ J "}".

Definition slc_monitoring_mode (rounds : nat) (w : W) (n : ua_nodeid) (toMs : Z) : outcome W :=
  with_item w 100 (item_request n 5) 256 (fun w st sb monId =>
  let subId := sb_id sb in
  match drain rounds w st with
  | None => NoFuel
  | Some (w, st) =>
  let '(w, st) := step (fun w => slc_set_monitoring_mode w subId monId MON_DISABLED) w (reset st) in
  let '(w, st) := step (fun w => slc_write_int32 w n 100) w st in
  match pause rounds 300 w st with
  | None => NoFuel
  | Some (w, st) =>
  let disabledCount := count st in
  let '(w, st) := step (fun w => slc_set_monitoring_mode w subId monId MON_SAMPLING) w st in
  let '(w, st) := step (fun w => slc_write_int32 w n 101) w st in
  let '(w, st) := deliver (Client_run_iterate w 20) st in
  let '(w, st) := step (fun w => slc_write_int32 w n 102) w st in
  match pause rounds 300 w st with
  | None => NoFuel
  | Some (w, st) =>
  let samplingCount := count st - disabledCount in
  let '(w, st) := step (fun w => slc_set_monitoring_mode w subId monId MON_REPORTING) w st in
  let '(w, st) := step (fun w => slc_write_int32 w n 103) w st in
  let beforeReporting := count st in
  match await rounds (fun st => beforeReporting <? count st) (collect_ms toMs) w st with
  | None => NoFuel
  | Some (w, st) =>
  let reportingCount := count st - beforeReporting in
  let w := Subscriptions_deleteSingle w subId in
  one_result w ((disabledCount =? 0) && (1 <=? reportingCount)) (sb_serviceResult sb)
    [J "'subscriptionId':" ++ fmt_u subId;
     J "'modeSteps':" ++ jarray [mode_step "Disabled" disabledCount; mode_step "Sampling" samplingCount;
                                 mode_step "Reporting" reportingCount]]
  end end end end).

(** ** delete *)

(** The first result, whatever the service result. *)
Definition result_or_service (r : Z * list Z) : Z := match snd r with x :: _ => x | [] => fst r end.

Definition twice (f : W -> W * (Z * list Z)) (w : W) : W * (Z * Z) :=
  let '(w, a) := f w in
  let '(w, b) := f w in
  (w, (result_or_service a, result_or_service b)).

Definition first_second (a b : Z) : bytes :=
  J "{'first':" ++ print_status_obj a ++ J ",'second':" ++ print_status_obj b ++ J "}".

Definition slc_delete (w : W) (n : ua_nodeid) : outcome W :=
  with_item w 500
    {| mr_node := n; mr_sampling := None; mr_queueSize := None; mr_discardOldest := None; mr_filter := None |} 0
    (fun w st sb monId =>
  let '(w, (delMon1, delMon2)) := twice (fun w => DeleteMonitoredItems w (sb_id sb) monId) w in
  let '(w, (delSub1, delSub2)) := twice (fun w => DeleteSubscriptions w (sb_id sb)) w in
  one_result w (StatusCode_isBad delMon2 && StatusCode_isBad delSub2) (sb_serviceResult sb)
    [J "'subscriptionId':" ++ fmt_u (sb_id sb);
     J "'deleteMonitoredItem':" ++ first_second delMon1 delMon2;
     J "'deleteSubscription':" ++ first_second delSub1 delSub2]).

(** ** The command *)

Definition lifecycle_usage : bytes :=
  B "usage: subscription-lifecycle --endpoint <url> --node <nodeId> --scenario <revise|publishing-mode|monitoring-mode|delete>".

Definition run_scenario (rounds : nat) (w : W) (n : ua_nodeid) (toMs : Z) (scenario : bytes) : outcome W :=
  if streq scenario (B "revise") then slc_revise w
  else if streq scenario (B "publishing-mode") then slc_publishing_mode rounds w n toMs
  else if streq scenario (B "monitoring-mode") then slc_monitoring_mode rounds w n toMs
  else if streq scenario (B "delete") then slc_delete w n
  else usage_error w lifecycle_op (snprintf 256 (B "unknown scenario: '" ++ scenario ++ B "'")).

Definition disconnecting (o : outcome W) : outcome W :=
  match o with Exits w code out => Exits (Client_disconnect w) code out | _ => o end.

Definition cmd_subscription_lifecycle (fuel rounds : nat) (w : W) (g : ClientSecurity) (argv : list bytes)
    : outcome W :=
  match find_arg argv (B "--endpoint"), find_arg argv (B "--node"), find_arg argv (B "--scenario") with
  | Some endpoint, Some nodeStr, Some scenario =>
      let toMs := match find_arg argv (B "--timeout-ms") with Some s => atoi s | None => 15000 end in
      if negb (validate_nodeid_structure nodeStr) then usage_error w lifecycle_op (malformed nodeStr)
      else
        with_client fuel w g endpoint 5000 lifecycle_op (fun w =>
        match resolve_one w nodeStr with
        | (w, NsuOk n) => disconnecting (run_scenario rounds w n toMs scenario)
        | (w, _) => unresolved_exit w lifecycle_op (snprintf 512 (B "unknown namespace URI in '" ++ nodeStr ++ B "'"))
        end)
  | _, _, _ => usage_error w lifecycle_op lifecycle_usage
  end.
End Lifecycle.

(** * Laws and lemmas *)

Class ControlLaws {W : Type} (ctl : SubscriptionControl W) := {
  delete_items_wf : forall w i j, let r := snd (DeleteMonitoredItems w i j) in
    0 <= fst r /\ Forall (Z.le 0) (snd r);
  delete_subscriptions_wf : forall w i, let r := snd (DeleteSubscriptions w i) in
    0 <= fst r /\ Forall (Z.le 0) (snd r)
}.

Section Lemmas.
Context {stack : UaStack} {laws : UaStackLaws stack} {cj : CJson} {W : Type} {L : ClientLib W}
  {libLaws : ClientLibLaws L} {clk : Clock L} {srv : Services W} {sub : Subscriptions W}
  {subLaws : SubscriptionLaws L sub} {ctl : SubscriptionControl W} {ctlLaws : ControlLaws ctl}.

(** Every stored value prints as JSON. *)
Definition good_store (st : NotifStore) : Prop :=
  Forall (fun e => exists t, valueJson e = Some t /\ JValue t) (entries st).

Lemma good_reset st : good_store (reset st).
Proof. constructor. Qed.

Lemma callback_good st d : good_store st -> good_value d -> good_store (sub_data_change_cb st d).
Proof.
  intros Hs Hd. unfold sub_data_change_cb. destruct (Nat.leb _ _); [exact Hs|].
  apply Forall_app; split; [exact Hs|]. constructor; [|constructor].
  destruct (JValue_notification (length (entries st)) d Hd) as (t & E & _). unfold notification_item in E.
  destruct d as [value x1 x2 x3 x4 x5]. destruct Hd as [Hw Hv]. cbn [notif_entry valueJson wf_datavalue] in *. zbool.
  destruct value as [v|]; [|exists (B "null"); split; [reflexivity|apply JValue_null]].
  destruct (variant_type v); [apply shown_json; [lia|assumption|exact Hv]|exists (B "null"); split; [reflexivity|apply JValue_null]].
Qed.

Lemma fold_good l : Forall good_value l -> forall st, good_store st -> good_store (fold_left sub_data_change_cb l st).
Proof. induction 1 as [|d l Hd _ IH]; intros st Hs; [exact Hs|]. cbn. now apply IH, callback_good. Qed.

Lemma deliver_good w st : good_store st -> good_store (snd (deliver w st)).
Proof.
  intros Hs. unfold deliver. pose proof (fun d => fired_wf w d) as Hw. destruct (fired w) as [w' l]. cbn [snd] in *.
  apply fold_good; [|exact Hs]. apply Forall_forall. exact Hw.
Qed.

Lemma write_sequence_good n vals : forall w st, good_store st -> good_store (snd (write_sequence w st n vals)).
Proof.
  induction vals as [|v vals IH]; intros w st Hs; [exact Hs|]. cbn [write_sequence].
  unfold step. pose proof (deliver_good (fst (slc_write_int32 w n v)) st Hs) as H1.
  destruct (deliver _ st) as [w1 st1]. pose proof (deliver_good (Client_run_iterate w1 20) st1 H1) as H2.
  destruct (deliver _ st1) as [w2 st2]. now apply IH.
Qed.

(** A wait of the scenarios ends, with the same result for every larger bound. *)
Lemma await_ends ready ms w st : ms <= 2147483000 -> good_store st ->
  exists p w' st', good_store st' /\ forall rounds, (p <= rounds)%nat -> await rounds ready ms w st = Some (w', st').
Proof.
  intros Hms Hs. destruct (time_passes w ms 50 Hms) as [k Hk]; [lia|]. unfold await.
  destruct (time_s w) as [w1 t0]. cbn [fst snd] in Hk.
  destruct (wait_for_ends ready _ _ _ _ _ Hk st) as [[[w' st'] b] Hr]. exists (S k), w', st'. split.
  - pose proof (Hr (S k) ltac:(lia)) as E. apply wait_for_rounds in E as (w2 & l & Hrd & -> & _).
    apply fold_good; [eapply rounds_good; eauto|exact Hs].
  - intros rounds Hge. now rewrite Hr by lia.
Qed.

Lemma collect_bound toMs : collect_ms toMs <= 2147483000.
Proof. unfold collect_ms. destruct (5000 <? _) eqn:E; zbool; lia. Qed.

Lemma one_result_reports (w : W) ok sc members : 0 <= sc -> Forall JMember members ->
  ends_reporting lifecycle_op (one_result w ok sc members).
Proof.
  intros Hs Hm. eexists _, _, _. split; [reflexivity|]. apply reports_envelope; [apply Bytes_B|assumption| | |].
  - apply JRest_results. repeat constructor. now apply JValue_object.
  - destruct ok; cbn; tauto.
  - now destruct ok.
Qed.

Definition ends_waiting (k : nat -> outcome W) : Prop :=
  exists p, forall rounds, (p <= rounds)%nat -> ends_reporting lifecycle_op (k rounds).

(** Waiting, then going on with a good store. *)
Lemma await_then ready ms w st (k : nat -> W -> NotifStore -> outcome W) :
  ms <= 2147483000 -> good_store st ->
  (forall w' st', good_store st' -> ends_waiting (fun r => k r w' st')) ->
  ends_waiting (fun r => match await r ready ms w st with None => NoFuel | Some (w, st) => k r w st end).
Proof.
  intros Hms Hs Hk. destruct (await_ends ready ms w st Hms Hs) as (p & w' & st' & Hs' & Hp).
  destruct (Hk w' st' Hs') as [q Hq]. exists (Nat.max p q). intros rounds Hr. rewrite Hp by lia. apply Hq. lia.
Qed.

(** A call, then going on with a good store. *)
Lemma deliver_then w st (k : nat -> W -> NotifStore -> outcome W) : good_store st ->
  (forall w' st', good_store st' -> ends_waiting (fun r => k r w' st')) ->
  ends_waiting (fun r => let '(w, st) := deliver w st in k r w st).
Proof.
  intros Hs Hk. pose proof (deliver_good w st Hs). destruct (deliver w st) as [w' st']. now apply Hk.
Qed.

Definition wf_sub (sb : sub_response) : Prop :=
  0 <= sb_serviceResult sb /\ 0 <= sb_id sb /\ isfinite (sb_interval sb) = true /\
  0 <= sb_lifetime sb /\ 0 <= sb_keepAlive sb.

Lemma ends_now (o : outcome W) : ends_reporting lifecycle_op o -> ends_waiting (fun _ => o).
Proof. intros H. now exists O. Qed.

Lemma service_failed_reports (w : W) sc msg : Bytes msg -> 0 <= sc ->
  ends_reporting lifecycle_op (service_failed w sc msg).
Proof. intros. apply ends_failed; [apply Bytes_B|apply Bytes_B|assumption..|cbn; tauto]. Qed.

Lemma with_item_reports w i req wtd (k : nat -> W -> NotifStore -> sub_response -> Z -> outcome W) :
  (forall w' st sb m, good_store st -> wf_sub sb -> ends_waiting (fun r => k r w' st sb m)) ->
  ends_waiting (fun r => with_item w i req wtd (k r)).
Proof.
  intros Hk. unfold with_item. set (r0 := {| sr_interval := _; sr_counts := _ |}).
  destruct (create_wf w r0) as (H1 & H2 & H3 & H4 & H5). destruct (Subscriptions_create w r0) as [w1 sb]. cbn [snd] in *.
  destruct (negb _); [apply ends_now, service_failed_reports; [apply Bytes_B|lia]|].
  destruct (monitored_wf w1 (sb_id sb) TS_SOURCE req) as [Hm _].
  destruct (MonitoredItems_createDataChange _ _ _ _) as [w2 mon]. cbn [snd] in *.
  pose proof (deliver_good w2 {| wanted := wtd; entries := [] |} ltac:(constructor)) as Hd.
  destruct (deliver w2 _) as [w3 st]. destruct (negb _).
  - apply ends_now, service_failed_reports; [apply Bytes_B|lia].
  - apply Hk; [exact Hd|]. repeat split; lia || assumption.
Qed.

(** The members of a result object. *)
Ltac members := repeat apply Forall_cons; try apply Forall_nil;
  (apply JMember_lit; [reflexivity|reflexivity|]); auto using JValue_u, JValue_bool, JValue_array.

Lemma revise_reports w : ends_reporting lifecycle_op (slc_revise w).
Proof.
  unfold slc_revise. set (r0 := {| sr_interval := _; sr_counts := _ |}).
  destruct (create_wf w r0) as (H1 & H2 & H3 & H4 & H5). destruct (Subscriptions_create w r0) as [w1 sb]. cbn [snd] in *.
  destruct (negb _); [apply service_failed_reports; [apply Bytes_B|lia]|].
  apply one_result_reports; [lia|]. pose proof (JValue_g 17 _ ltac:(lia) H3).
  change (J "'requestedPublishingInterval':1") with (J "'requestedPublishingInterval':" ++ fmt_u 1).
  change (J "'requestedLifetimeCount':5") with (J "'requestedLifetimeCount':" ++ fmt_u 5).
  change (J "'requestedMaxKeepAliveCount':10") with (J "'requestedMaxKeepAliveCount':" ++ fmt_u 10).
  members; apply JValue_u; lia.
Qed.

Lemma publishing_reports w n toMs : ends_waiting (fun r => slc_publishing_mode r w n toMs).
Proof.
  apply with_item_reports. intros w1 st sb m Hs Hsb. unfold drain, pause, step.
  apply await_then; [lia|exact Hs|]. intros w2 st2 H2. apply deliver_then; [exact H2|]. intros w3 st3 H3.
  pose proof (write_sequence_good n [1; 2; 3; 4; 5] w3 (reset st3) (good_reset st3)) as H4.
  destruct (write_sequence _ _ _ _) as [w4 st4]. cbn [snd] in H4.
  apply await_then; [lia|exact H4|]. intros w5 st5 H5. apply deliver_then; [exact H5|]. intros w6 st6 H6.
  apply await_then; [apply collect_bound|exact H6|]. intros w7 st7 H7. apply deliver_then; [exact H7|]. intros w8 st8 H8.
  apply ends_now. destruct (mapM_total valueJson JValue (entries st8) H8) as (texts & -> & Hj & _).
  destruct Hsb as (K1 & K2 & K3 & K4 & K5). apply one_result_reports; [exact K1|].
  pose proof (JValue_g 17 _ ltac:(lia) K3). members.
Qed.

Lemma JValue_mode_step m n : JBody (B m) -> JValue (mode_step m n).
Proof. unfold mode_step. generalize (B m). intros b H. pose proof (JValue_d n). jvalue. Qed.

Lemma monitoring_reports w n toMs : ends_waiting (fun r => slc_monitoring_mode r w n toMs).
Proof.
  apply with_item_reports. intros w1 st sb m Hs Hsb. unfold drain, pause, step.
  apply await_then; [lia|exact Hs|]. intros w2 st2 _. apply deliver_then; [apply good_reset|]. intros w3 st3 H3.
  apply deliver_then; [exact H3|]. intros w4 st4 H4. apply await_then; [lia|exact H4|]. intros w5 st5 H5.
  apply deliver_then; [exact H5|]. intros w6 st6 H6. apply deliver_then; [exact H6|]. intros w7 st7 H7.
  apply deliver_then; [exact H7|]. intros w8 st8 H8. apply deliver_then; [exact H8|]. intros w9 st9 H9.
  apply await_then; [lia|exact H9|]. intros wa sta Ha. apply deliver_then; [exact Ha|]. intros wb stb Hb.
  apply deliver_then; [exact Hb|]. intros wc stc Hc. apply await_then; [apply collect_bound|exact Hc|]. intros wd std Hd.
  apply ends_now. destruct Hsb as (K1 & K2 & _). apply one_result_reports; [exact K1|].
  members. apply JValue_array. repeat apply Forall_cons; try apply Forall_nil; apply JValue_mode_step; jbody.
Qed.

Lemma result_or_service_nonneg r : 0 <= fst r -> Forall (Z.le 0) (snd r) -> 0 <= result_or_service r.
Proof. intros H1 H2. unfold result_or_service. destruct (snd r); [exact H1|now inversion H2]. Qed.

Lemma delete_reports w n : ends_reporting lifecycle_op (slc_delete w n).
Proof.
  set (req := {| mr_node := n; mr_sampling := None; mr_queueSize := None; mr_discardOldest := None; mr_filter := None |}).
  enough (ends_waiting (fun _ => slc_delete w n)) as [p Hp] by (apply (Hp p); lia).
  apply (with_item_reports w 500 req 0 (fun _ w st sb monId => _)). intros w1 st sb m _ (K1 & K2 & _). apply ends_now.
  unfold twice. destruct (delete_items_wf w1 (sb_id sb) m) as [D1 D2].
  destruct (DeleteMonitoredItems w1 (sb_id sb) m) as [w2 r1]. cbn [snd] in *.
  destruct (delete_items_wf w2 (sb_id sb) m) as [D3 D4].
  destruct (DeleteMonitoredItems w2 (sb_id sb) m) as [w3 r2]. cbn [snd] in *.
  destruct (delete_subscriptions_wf w3 (sb_id sb)) as [D5 D6].
  destruct (DeleteSubscriptions w3 (sb_id sb)) as [w4 r3]. cbn [snd] in *.
  destruct (delete_subscriptions_wf w4 (sb_id sb)) as [D7 D8].
  destruct (DeleteSubscriptions w4 (sb_id sb)) as [w5 r4]. cbn [snd] in *.
  apply one_result_reports; [exact K1|].
  assert (forall a b, 0 <= a -> 0 <= b -> JValue (first_second a b)) as Hfs.
  { intros a b Ha Hb. pose proof (JValue_status a Ha). pose proof (JValue_status b Hb). unfold first_second. jvalue. }
  members; apply Hfs; apply result_or_service_nonneg; assumption.
Qed.

Lemma scenario_reports w n toMs s : Bytes s -> ends_waiting (fun r => run_scenario r w n toMs s).
Proof.
  intros Hs. unfold run_scenario. destruct (streq s (B "revise")); [apply ends_now, revise_reports|].
  destruct (streq s (B "publishing-mode")); [apply publishing_reports|].
  destruct (streq s (B "monitoring-mode")); [apply monitoring_reports|].
  destruct (streq s (B "delete")); [apply ends_now, delete_reports|].
  apply ends_now, ends_usage; [apply Bytes_B|apply Bytes_snprintf; auto using Bytes_cat, Bytes_B].
Qed.
End Lemmas.

(** * Theorem *)

(** subscription-lifecycle always ends, whatever the scenario: its waits are
    bounded by their timeouts, the store of notifications is never read past its
    end, and exactly one JSON envelope is printed whose [success] is true exactly
    when the exit code is 0. *)
Lemma lifecycle_reports {stack : UaStack} {laws : UaStackLaws stack} {cj : CJson} {W} {L : ClientLib W}
    {libLaws : ClientLibLaws L} {clk : Clock L} {srv : Services W} {sub : Subscriptions W}
    {subLaws : SubscriptionLaws L sub} {ctl : SubscriptionControl W} {ctlLaws : ControlLaws ctl} w g argv :
  text_argv argv -> text_args g lifecycle_op ->
  exists n, forall fuel, (n <= fuel)%nat -> exists p, forall rounds, (p <= rounds)%nat ->
    ends_reporting lifecycle_op (cmd_subscription_lifecycle fuel rounds w g argv).
Proof.
  intros Ht Hg. unfold cmd_subscription_lifecycle.
  assert (forall msg, Bytes msg -> exists n, forall fuel, (n <= fuel)%nat -> exists p, forall rounds, (p <= rounds)%nat ->
    ends_reporting lifecycle_op (usage_error w lifecycle_op msg)) as Hu
    by (intros msg Hm; exists O; intros; exists O; intros; apply ends_usage; [apply Bytes_B|exact Hm]).
  destruct (find_arg argv (B "--endpoint")) as [url|]; [|apply Hu, Bytes_B].
  destruct (find_arg argv (B "--node")) as [s|] eqn:Es; [|apply Hu, Bytes_B].
  destruct (find_arg argv (B "--scenario")) as [sc|] eqn:Ec; [|apply Hu, Bytes_B].
  pose proof (find_arg_Bytes _ _ _ Ht Es) as Hb. pose proof (find_arg_Bytes _ _ _ Ht Ec) as Hc.
  destruct (negb _); [now apply Hu, Bytes_malformed|].
  apply with_client_rounds; [exact Hg|]. intros w1. destruct (resolve_one w1 s) as [w2 [i| |]].
  2, 3: exists O; intros; apply ends_unresolved; [apply Bytes_B|apply Bytes_snprintf; auto using Bytes_cat, Bytes_B].
  set (toMs := match find_arg argv (B "--timeout-ms") with Some s => atoi s | None => 15000 end).
  destruct (scenario_reports w2 i toMs sc Hc) as [p Hp].
  exists p. intros rounds Hr. destruct (Hp rounds Hr) as (w' & code & out & -> & Hrep).
  eexists _, _, _. split; [reflexivity|exact Hrep].
Qed.

#[export] Instance ref_control : SubscriptionControl Z := {
  SetPublishingMode w _ _ := (w, (UA_STATUSCODE_GOOD, [UA_STATUSCODE_GOOD]));
  SetMonitoringMode w _ _ _ := (w, (UA_STATUSCODE_GOOD, [UA_STATUSCODE_GOOD]));
  writeValueAttribute w _ _ := (w, UA_STATUSCODE_GOOD);
  DeleteMonitoredItems w _ _ := (w + 1, (UA_STATUSCODE_GOOD,
    [if w =? 0 then UA_STATUSCODE_GOOD else UA_STATUSCODE_BADINTERNALERROR]));
  DeleteSubscriptions w _ := (w + 1, (UA_STATUSCODE_GOOD,
    [if w =? 2 then UA_STATUSCODE_GOOD else UA_STATUSCODE_BADINTERNALERROR])) }.

#[export] Instance ref_control_laws : ControlLaws ref_control.
Proof.
  split; intros; cbn; unfold UA_STATUSCODE_GOOD, UA_STATUSCODE_BADINTERNALERROR; split; try lia;
    repeat constructor; destruct (_ =? _); lia.
Qed.

(** The Overflow bits of a notification (Part 4: 0x480, in the low half) are not
    those of the mask the publishing-mode scenario tests. *)
Lemma overflow_bits_missed : Z.land (UA_STATUSCODE_GOOD + 0x480) OVERFLOW_MASK = 0.
Proof. reflexivity. Qed.
