(* ===== verification/NodeServices.v ===== *)
(** client.c: the [republish], [transfer-subscriptions], [register-nodes] and
    [node-management] commands. *)

From Stdlib Require Import String Ascii ZArith Bool List Lia.
Import ListNotations.
From S2P Require Import Prelude CLib Json UaTypes RefStack Base64 Output CJson Values Args.
From S2P Require Import NodeIds Connect Session ReadWrite BrowseCall Historian HistoryRead Subscribe.

Record notification_message := { nm_sequence : Z; nm_publishTime : Z; nm_dataSize : Z }.

Class NodeManagement (W : Type) := {
  Service_republish : W -> Z -> Z -> W * (Z * notification_message);
  Service_transfer : W -> list Z -> bool -> W * (Z * list (Z * list Z));
  Service_registerNodes : W -> list ua_nodeid -> W * (Z * list ua_nodeid);
  Service_unregisterNodes : W -> list ua_nodeid -> W * Z;
  (** an Int32 Variable with the BrowseName below the parent; the NodeId it got *)
  Client_addVariableNode : W -> ua_nodeid -> ua_nodeid -> bytes -> Z -> W * (Z * ua_nodeid);
  Client_readValueAttribute : W -> ua_nodeid -> W * (Z * ua_variant);
  Client_deleteNode : W -> ua_nodeid -> W * Z
}.

Section NodeServices.
Context {stack : UaStack} {cj : CJson} {W : Type} {L : ClientLib W} {srv : Services W} {nms : NodeManagement W}.

(** [(UA_UInt32)strtoul(s, NULL, 10)] *)
Definition uint32_text (s : bytes) : Z := u32 (sval (strtoul 10 s)).

(** * republish *)

Definition republish_usage : bytes :=
  B "usage: republish --endpoint <url> --subscription-id <n> --sequence-number <n>".

Definition republish_item (subId seqNum : Z) (ok : bool) (m : notification_message) : bytes :=
  jobject ([J "'subscriptionId':" ++ fmt_u subId; J "'retransmitSequenceNumber':" ++ fmt_u seqNum]
    ++ (if ok then
          [J "'sequenceNumber':" ++ fmt_u (nm_sequence m)]
          ++ match output_timestamp (nm_publishTime m) with
             | [] => []
             | ts => [J "'publishTime':" ++ (J "'" ++ ts ++ J "'")]
             end
          ++ [J "'notificationDataCount':" ++ fmt_u (nm_dataSize m)]
        else [])).

Definition cmd_republish (fuel : nat) (w : W) (g : ClientSecurity) (argv : list bytes) : outcome W :=
  match find_arg argv (B "--endpoint"), find_arg argv (B "--subscription-id"), find_arg argv (B "--sequence-number") with
  | Some endpoint, Some subIdStr, Some seqStr =>
      let subId := uint32_text subIdStr in
      let seqNum := uint32_text seqStr in
      with_client fuel w g endpoint (request_timeout argv) (B "republish") (fun w =>
      let '(w, (sc, m)) := Service_republish w subId seqNum in
      let ok := StatusCode_isGood sc in
      Exits (Client_disconnect w) (service_exit sc ok)
        (envelope (B "republish") ok sc (results_of [republish_item subId seqNum ok m])))
  | _, _, _ => usage_error w (B "republish") republish_usage
  end.

(** * transfer-subscriptions *)

Definition transfer_usage : bytes :=
  B "usage: transfer-subscriptions --endpoint <url> --subscription-id <n> [--subscription-id <n> ...] [--send-initial-values true|false]".

Definition transfer_item (subId : Z) (r : Z * list Z) : bytes :=
  J "{'subscriptionId':" ++ fmt_u subId ++ J ",'statusCode':" ++ print_status_obj (fst r)
  ++ J ",'availableSequenceNumbers':" ++ jarray (map fmt_u (snd r)) ++ J "}".

(** [subIds[i]] for each result; [None] past the ids that were sent. *)
Fixpoint transfer_items (subIds : list Z) (results : list (Z * list Z)) {struct results} : option (list bytes) :=
  match results, subIds with
  | [], _ => Some []
  | r :: rs, i :: more => do items <- transfer_items more rs; Some (transfer_item i r :: items)
  | _ :: _, [] => None
  end.

Definition cmd_transfer_subscriptions (fuel : nat) (w : W) (g : ClientSecurity) (argv : list bytes) : outcome W :=
  let op := B "transfer-subscriptions" in
  match find_arg argv (B "--endpoint"), count_flag argv (B "--subscription-id") with
  | None, _ | _, O => usage_error w op transfer_usage
  | Some endpoint, _ =>
      let sendInitial := is_true (find_arg argv (B "--send-initial-values")) in
      let subIds := map uint32_text (firstn MAX_NODES (flag_values argv (B "--subscription-id"))) in
      with_client fuel w g endpoint (request_timeout argv) op (fun w =>
      let '(w, (sc, results)) := Service_transfer w subIds sendInitial in
      let ok := all_good sc (map fst results) in
      match (if StatusCode_isGood sc then transfer_items subIds results else Some []) with
      | None => OutOfBounds
      | Some items =>
          Exits (Client_disconnect w) (service_exit sc ok) (envelope op ok sc (results_of items))
      end)
  end.

(** * register-nodes *)

Definition register_usage : bytes :=
  B "usage: register-nodes --endpoint <url> --node <nodeId> [--node ...]".

(** [BadUnexpectedError] for a Good response of the wrong size. *)
Definition sized (sc : Z) (size n : nat) : Z :=
  if StatusCode_isGood sc && negb (Nat.eqb size n) then UA_STATUSCODE_BADUNEXPECTEDERROR else sc.

(** The members of a value that has a type. *)
Definition value_members (value : option ua_variant) : bytes :=
  match value with
  | Some v => match variant_type v with
              | Some t => J ",'dataType':'" ++ type_name (Some t) ++ J "','builtInType':"
                          ++ fmt_d (ua_type_to_builtin_id (Some t)) ++ output_ua_variant_field (B "value") v
              | None => []
              end
  | None => []
  end.

Definition register_item (read_sc unreg_sc : Z) (id registered : ua_nodeid) (dv : ua_datavalue) : bytes :=
  let '(DataValue value _ _ _ _ _) := dv in
  J "{'nodeId':" ++ output_nodeid id ++ J ",'registeredNodeId':" ++ output_nodeid registered ++ J ","
  ++ (if StatusCode_isGood read_sc then cli_print_status (B "statusCode") (dv_status dv) ++ value_members value
      else cli_print_status (B "statusCode") read_sc)
  ++ J "," ++ cli_print_status (B "unregisterStatusCode") unreg_sc ++ J "}".

(** The rows of the report; a response that is not Good has no results to read. *)
Fixpoint register_items (read_sc unreg_sc : Z) (ids regs : list ua_nodeid) (dvs : list ua_datavalue) : list bytes :=
  match ids, regs with
  | i :: more, r :: rs =>
      register_item read_sc unreg_sc i r (hd (DataValue None None None None None None) dvs)
      :: register_items read_sc unreg_sc more rs (tl dvs)
  | _, _ => []
  end.

Definition send_register (w : W) (ids : list ua_nodeid) : outcome W :=
  let op := B "register-nodes" in
  let n := length ids in
  let '(w, (sc, regs)) := Service_registerNodes w ids in
  let reg_sc := sized sc (length regs) n in
  if negb (StatusCode_isGood reg_sc) then
    failed (Client_disconnect w)
      (fail op (if reg_sc =? UA_STATUSCODE_BADTIMEOUT then 7 else 4) reg_sc (B "service") (B "RegisterNodes failed"))
  else
    let '(w, (rsc, dvs)) := Service_read w TS_SOURCE
      (map (fun i => {| rv_nodeId := i; rv_indexRange := None |}) regs) in
    let read_sc := sized rsc (length dvs) n in
    let '(w, unreg_sc) := Service_unregisterNodes w regs in
    let first_sc := if negb (StatusCode_isGood read_sc) then read_sc else unreg_sc in
    let bad := if StatusCode_isGood read_sc then first_bad (map dv_status dvs) else None in
    let ok := StatusCode_isGood read_sc && StatusCode_isGood unreg_sc && negb (is_some bad) in
    let emit_sc := match bad with
                   | Some b => if StatusCode_isGood first_sc then b else first_sc
                   | None => first_sc
                   end in
    Exits (Client_disconnect w) (service_exit emit_sc ok)
      (envelope op ok emit_sc (results_of (register_items read_sc unreg_sc ids regs dvs))).

Definition cmd_register_nodes (fuel : nat) (w : W) (g : ClientSecurity) (argv : list bytes) : outcome W :=
  let op := B "register-nodes" in
  match find_arg argv (B "--endpoint"), count_flag argv (B "--node") with
  | None, _ | _, O => usage_error w op register_usage
  | Some endpoint, _ =>
      let n := Nat.min MAX_NODES (count_flag argv (B "--node")) in
      let nodes := firstn MAX_NODES (flag_values argv (B "--node")) in
      match check_nodes nodes n with
      | None => OutOfBounds
      | Some _ =>
          match resolve_node_ids fuel w g (firstn n nodes) op endpoint (request_timeout argv) with
          | None => NoFuel
          | Some (w, inr f) => failed w f
          | Some (w, inl ids) => send_register w ids
          end
      end
  end.

(** * node-management *)

Definition management_usage : bytes :=
  B "usage: node-management --endpoint <url> --parent <nodeId> --node <newNodeId> [--browse-name <name>] [--value <int32>]".

(** What the steps after a Good AddNodes gave. *)
Record managed := { mg_read : Z; mg_value : ua_variant; mg_delete : Z; mg_gone : Z }.

Definition manage (w : W) (added : ua_nodeid) : W * managed :=
  let '(w, (read_sc, v)) := Client_readValueAttribute w added in
  let '(w, del_sc) := Client_deleteNode w added in
  let '(w, (read2_sc, _)) := Client_readValueAttribute w added in
  (w, {| mg_read := read_sc; mg_value := v; mg_delete := del_sc; mg_gone := read2_sc |}).

Definition nothing_done : managed :=
  {| mg_read := UA_STATUSCODE_BADNOTHINGTODO; mg_value := VtEmpty; mg_delete := UA_STATUSCODE_BADNOTHINGTODO;
     mg_gone := UA_STATUSCODE_BADNOTHINGTODO |}.

Definition value_matches (m : managed) (value : Z) : bool :=
  StatusCode_isGood (mg_read m) &&
  match scalar_of TInt32 (mg_value m) with Some (VInt32 z) => z =? value | _ => false end.

Definition managed_ok (add_sc : Z) (m : managed) (value : Z) : bool :=
  StatusCode_isGood add_sc && StatusCode_isGood (mg_read m) && value_matches m value
  && StatusCode_isGood (mg_delete m) && StatusCode_isBad (mg_gone m).

Definition managed_sc (add_sc : Z) (m : managed) : Z :=
  if negb (StatusCode_isGood add_sc) then add_sc
  else if negb (StatusCode_isGood (mg_read m)) then mg_read m
  else if negb (StatusCode_isGood (mg_delete m)) then mg_delete m
  else UA_STATUSCODE_GOOD.

Definition management_item (parent new : ua_nodeid) (add_sc : Z) (added : ua_nodeid) (m : managed) : bytes :=
  J "{'parentNodeId':" ++ output_nodeid parent ++ J ",'requestedNodeId':" ++ output_nodeid new ++ J ","
  ++ cli_print_status (B "addStatusCode") add_sc
  ++ (if StatusCode_isGood add_sc then
        J ",'addedNodeId':" ++ output_nodeid added ++ J "," ++ cli_print_status (B "readStatusCode") (mg_read m)
        ++ (if StatusCode_isGood (mg_read m) then value_members (Some (mg_value m)) else [])
        ++ J "," ++ cli_print_status (B "deleteStatusCode") (mg_delete m)
        ++ J "," ++ cli_print_status (B "readAfterDeleteStatusCode") (mg_gone m)
      else [])
  ++ J "}".

Definition send_management (w : W) (parent new : ua_nodeid) (bname : bytes) (value : Z) : outcome W :=
  let op := B "node-management" in
  let '(w, (add_sc, added)) := Client_addVariableNode w new parent bname value in
  let '(w, m) := if StatusCode_isGood add_sc then manage w added else (w, nothing_done) in
  let ok := managed_ok add_sc m value in
  let emit_sc := managed_sc add_sc m in
  Exits (Client_disconnect w) (service_exit emit_sc ok)
    (envelope op ok emit_sc (results_of [management_item parent new add_sc added m])).

Definition cmd_node_management (fuel : nat) (w : W) (g : ClientSecurity) (argv : list bytes) : outcome W :=
  let op := B "node-management" in
  match find_arg argv (B "--endpoint"), find_arg argv (B "--parent"), find_arg argv (B "--node") with
  | Some endpoint, Some parent, Some node =>
      let bname := default (B "InteropAdded") (find_arg argv (B "--browse-name")) in
      let value := match find_arg argv (B "--value") with Some s => atoi s | None => 42 end in
      match resolve_node_ids fuel w g [parent; node] op endpoint (request_timeout argv) with
      | None => NoFuel
      | Some (w, inr f) => failed w f
      | Some (w, inl [p; n]) => send_management w p n bname value
      | Some (w, inl _) => OutOfBounds
      end
  | _, _, _ => usage_error w op management_usage
  end.
End NodeServices.

(** * Laws *)

Class ManagementLaws {stack : UaStack} {W : Type} (nms : NodeManagement W) := {
  republish_wf : forall w i s, let r := snd (Service_republish w i s) in
    0 <= fst r /\ 0 <= nm_sequence (snd r) /\ 0 <= nm_dataSize (snd r);
  transfer_wf : forall w l b, let r := snd (Service_transfer w l b) in
    0 <= fst r < 2 ^ 32 /\ (StatusCode_isGood (fst r) = true -> (length (snd r) <= length l)%nat) /\
    Forall (fun x => 0 <= fst x /\ Forall (Z.le 0) (snd x)) (snd r);
  register_wf : forall w l, let r := snd (Service_registerNodes w l) in
    0 <= fst r /\ forallb wf_nodeid (snd r) = true;
  unregister_wf : forall w l, 0 <= snd (Service_unregisterNodes w l) < 2 ^ 32;
  add_wf : forall w n p b v, let r := snd (Client_addVariableNode w n p b v) in
    0 <= fst r < 2 ^ 32 /\ wf_nodeid (snd r) = true;
  readValue_wf : forall w n, let r := snd (Client_readValueAttribute w n) in
    0 <= fst r < 2 ^ 32 /\ wf_variant (snd r) = true;
  deleteNode_wf : forall w n, 0 <= snd (Client_deleteNode w n) < 2 ^ 32
}.

Section Lemmas.
Context {stack : UaStack} {laws : UaStackLaws stack} {cj : CJson} {W : Type} {L : ClientLib W}
  {libLaws : ClientLibLaws L} {clk : Clock L} {srv : Services W} {srvLaws : ServicesLaws srv}
  {nms : NodeManagement W} {nmsLaws : ManagementLaws nms}.

(** The exit code agrees with [success] when success implies a Good status. *)
Lemma reports_status op ok sc rest : Bytes op -> 0 <= sc -> JRest rest ->
  (ok = true -> StatusCode_isGood sc = true) ->
  reports op (service_exit sc ok) (envelope op ok sc rest).
Proof.
  intros Ho Hs Hr Hok. apply reports_envelope; [assumption|lia|assumption|apply service_exit_code|].
  now apply service_exit_ok.
Qed.

Lemma JValue_output_nodeid n : wf_nodeid n = true -> JValue (output_nodeid n).
Proof. intros H. exact (JValue_nodeid n H). Qed.

Lemma transfer_items_total results : forall ids, (length results <= length ids)%nat ->
  Forall (Z.le 0) ids -> Forall (fun x => 0 <= fst x /\ Forall (Z.le 0) (snd x)) results ->
  exists items, transfer_items ids results = Some items /\ Forall JValue items.
Proof.
  induction results as [|r rs IH]; intros ids Hl Hi Hr; [exists []; split; [reflexivity|constructor]|].
  destruct ids as [|i ids]; [cbn in Hl; lia|]. inversion Hr as [|? ? [Hr1 Hr2] Hr3]; inversion Hi as [|? ? Hi1 Hi2]; subst.
  destruct (IH ids) as (items & E & Hj); [cbn in Hl; lia|assumption..|].
  exists (transfer_item i r :: items). cbn [transfer_items]. unfold obind. rewrite E. split; [reflexivity|].
  constructor; [|exact Hj]. pose proof (JValue_u i Hi1). pose proof (JValue_status _ Hr1).
  assert (JValue (jarray (map fmt_u (snd r)))) by (apply JValue_array, Forall_map; eapply Forall_impl; [|exact Hr2]; apply JValue_u).
  unfold transfer_item. jvalue.
Qed.

(** The optional members [,"dataType":...,"value":...]. *)
Lemma value_members_cases v : wf_variant v = true ->
  value_members (Some v) = [] \/
  exists t, variant_type v = Some t /\
  value_members (Some v) = J ",'dataType':'" ++ type_name (Some t) ++ J "','builtInType':"
    ++ fmt_d (ua_type_to_builtin_id (Some t)) ++ J ",'" ++ B "value" ++ J "':" ++ output_ua_variant_value v
  /\ JValue (output_ua_variant_value v).
Proof.
  intros H. cbn [value_members]. destruct (variant_type v) as [t|]; [right|now left].
  exists t. repeat split. now apply JValue_variant.
Qed.

Lemma JValue_republish i s ok m : 0 <= i -> 0 <= s -> 0 <= nm_sequence m -> 0 <= nm_dataSize m ->
  JValue (republish_item i s ok m).
Proof.
  intros H1 H2 H3 H4. apply JValue_object. pose proof (JBody_timestamp (nm_publishTime m)) as Ht.
  destruct ok; [|repeat constructor; apply JMember_lit; auto using JValue_u].
  destruct (output_timestamp (nm_publishTime m)) as [|c t];
    repeat constructor; (apply JMember_lit; [reflexivity|reflexivity|]); auto using JValue_u.
  now apply JValue_quoted.
Qed.

Lemma republish_reports w g argv : text_argv argv -> text_args g (B "republish") ->
  exists n, forall fuel, (n <= fuel)%nat -> ends_reporting (B "republish") (cmd_republish fuel w g argv).
Proof.
  intros Ht Hg. unfold cmd_republish.
  assert (exists n, forall fuel, (n <= fuel)%nat -> ends_reporting (B "republish")
    (usage_error w (B "republish") republish_usage)) as Hu by (exists O; intros; apply ends_usage; apply Bytes_B).
  destruct (find_arg argv (B "--endpoint")) as [url|]; [|exact Hu].
  destruct (find_arg argv (B "--subscription-id")) as [a|]; [|exact Hu].
  destruct (find_arg argv (B "--sequence-number")) as [b|]; [|exact Hu].
  apply with_client_reports; [exact Hg|]. intros w1. destruct (republish_wf w1 (uint32_text a) (uint32_text b)) as (H1 & H2 & H3).
  destruct (Service_republish w1 _ _) as [w2 [sc m]]. cbn [fst snd] in *.
  eexists _, _, _. split; [reflexivity|]. apply reports_service; [apply Bytes_B|lia| |lia].
  apply JRest_results. repeat constructor. apply JValue_republish; try assumption; apply (uwrap_range 32); lia.
Qed.

Lemma transfer_reports w g argv : text_argv argv -> text_args g (B "transfer-subscriptions") ->
  exists n, forall fuel, (n <= fuel)%nat ->
    ends_reporting (B "transfer-subscriptions") (cmd_transfer_subscriptions fuel w g argv).
Proof.
  intros Ht Hg. unfold cmd_transfer_subscriptions. set (op := B "transfer-subscriptions") in *.
  assert (exists n, forall fuel, (n <= fuel)%nat -> ends_reporting op (usage_error w op transfer_usage)) as Hu
    by (exists O; intros; apply ends_usage; apply Bytes_B).
  destruct (find_arg argv (B "--endpoint")) as [url|]; [|exact Hu]. destruct (count_flag _ _); [exact Hu|].
  apply with_client_reports; [exact Hg|]. intros w1. set (ids := map uint32_text _). set (b := is_true _).
  destruct (transfer_wf w1 ids b) as (H1 & H2 & H3). destruct (Service_transfer w1 ids b) as [w2 [sc results]]. cbn [fst snd] in *.
  assert (exists items, (if StatusCode_isGood sc then transfer_items ids results else Some []) = Some items
            /\ Forall JValue items) as (items & -> & Hj).
  { destruct (StatusCode_isGood sc); [|exists []; split; [reflexivity|constructor]].
    apply transfer_items_total; auto. apply Forall_map, Forall_forall. intros x _. apply (uwrap_range 32). lia. }
  eexists _, _, _. split; [reflexivity|]. apply reports_status; [apply Bytes_B|lia|now apply JRest_results|].
  intros H. now apply all_good_service in H.
Qed.

Lemma JValue_register read_sc unreg_sc i r dv : wf_nodeid i = true -> wf_nodeid r = true ->
  0 <= read_sc -> 0 <= unreg_sc -> wf_datavalue dv = true -> JValue (register_item read_sc unreg_sc i r dv).
Proof.
  intros Hi Hr H1 H2 Hd. destruct dv as [value st x1 x2 x3 x4]. cbn [wf_datavalue] in Hd. zbool.
  assert (0 <= default 0 st) as Hst by (destruct st; [now apply wf_opt_le|cbn; lia]).
  pose proof (JValue_output_nodeid i Hi). pose proof (JValue_output_nodeid r Hr).
  pose proof (JValue_status _ H1). pose proof (JValue_status _ H2). pose proof (JValue_status _ Hst).
  unfold register_item, cli_print_status. cbn [dv_status]. destruct (StatusCode_isGood read_sc); [|jvalue].
  destruct value as [v|]; [|cbn [value_members]; rewrite ?app_nil_r; jvalue].
  destruct (value_members_cases v) as [->|(t & Et & -> & Hv)]; [assumption|rewrite ?app_nil_r; jvalue|].
  pose proof (JBody_type_name (Some t)). pose proof (JValue_d (ua_type_to_builtin_id (Some t))). jvalue.
Qed.

Lemma JValue_registers read_sc unreg_sc ids : forall regs dvs,
  forallb wf_nodeid ids = true -> forallb wf_nodeid regs = true -> 0 <= read_sc -> 0 <= unreg_sc ->
  forallb wf_datavalue dvs = true -> Forall JValue (register_items read_sc unreg_sc ids regs dvs).
Proof.
  induction ids as [|i ids IH]; intros [|r regs] dvs Hi Hr H1 H2 Hd; try constructor; cbn [forallb] in *; zbool.
  - apply JValue_register; try assumption. destruct dvs as [|d dvs]; [reflexivity|]. cbn in Hd. now apply andb_prop in Hd.
  - apply IH; try assumption. destruct dvs as [|d dvs]; [reflexivity|]. cbn in Hd. now apply andb_prop in Hd.
Qed.

Lemma sized_range sc n m : 0 <= sc < 2 ^ 32 -> 0 <= sized sc n m < 2 ^ 32.
Proof. intros H. unfold sized. destruct (_ && _); [unfold UA_STATUSCODE_BADUNEXPECTEDERROR|]; lia. Qed.

Lemma send_register_reports w ids : forallb wf_nodeid ids = true ->
  ends_reporting (B "register-nodes") (send_register w ids).
Proof.
  intros Hi. unfold send_register. destruct (register_wf w ids) as [R1 R2].
  destruct (Service_registerNodes w ids) as [w1 [sc regs]]. cbn [fst snd] in *. destruct (negb _) eqn:Eg.
  { apply ends_failed; [apply Bytes_B..| |destruct (_ =? _); cbn; tauto].
    unfold sized. destruct (_ && _); [unfold UA_STATUSCODE_BADUNEXPECTEDERROR; lia|assumption]. }
  set (req := map _ regs). pose proof (read_status w1 TS_SOURCE req) as S1. pose proof (read_wf w1 TS_SOURCE req) as S2.
  destruct (Service_read w1 TS_SOURCE req) as [w2 [rsc dvs]]. cbn [fst snd] in *.
  pose proof (sized_range rsc (length dvs) (length ids) S1) as S3. set (read_sc := sized rsc _ _) in *.
  pose proof (unregister_wf w2 regs) as U. destruct (Service_unregisterNodes w2 regs) as [w3 unreg]. cbn [snd] in U.
  set (bad := if StatusCode_isGood read_sc then _ else _).
  assert (forall b, bad = Some b -> 0 <= b) as Hbad.
  { intros b Hb. unfold bad in Hb. destruct (StatusCode_isGood read_sc); [|discriminate].
    apply find_some in Hb as [Hb _]. pose proof (dv_status_range dvs S2) as H. rewrite Forall_forall in H. now apply H. }
  eexists _, _, _. split; [reflexivity|]. apply reports_status; [apply Bytes_B| | |].
  - set (first_sc := if negb (StatusCode_isGood read_sc) then read_sc else unreg).
    assert (0 <= first_sc) by (unfold first_sc; destruct (StatusCode_isGood read_sc); cbn [negb]; lia).
    destruct bad as [b|]; [|assumption]. destruct (StatusCode_isGood first_sc); auto.
  - apply JRest_results, JValue_registers; try assumption; lia.
  - destruct bad as [b|]; cbn [is_some negb]; [now rewrite andb_false_r|]. rewrite andb_true_r.
    intros H. apply andb_prop in H as [-> H]. exact H.
Qed.

Lemma JValue_management p n add added m : wf_nodeid p = true -> wf_nodeid n = true -> wf_nodeid added = true ->
  0 <= add -> 0 <= mg_read m -> wf_variant (mg_value m) = true -> 0 <= mg_delete m -> 0 <= mg_gone m ->
  JValue (management_item p n add added m).
Proof.
  intros Hp Hn Ha H1 H2 Hv H3 H4. pose proof (JValue_output_nodeid p Hp). pose proof (JValue_output_nodeid n Hn).
  pose proof (JValue_output_nodeid added Ha). pose proof (JValue_status _ H1). pose proof (JValue_status _ H2).
  pose proof (JValue_status _ H3). pose proof (JValue_status _ H4).
  unfold management_item, cli_print_status. destruct (StatusCode_isGood add); [|jvalue].
  destruct (StatusCode_isGood (mg_read m)); [|jvalue].
  destruct (value_members_cases (mg_value m) Hv) as [->|(t & Et & -> & Hj)]; [jvalue|].
  pose proof (JBody_type_name (Some t)). pose proof (JValue_d (ua_type_to_builtin_id (Some t))). jvalue.
Qed.

(** The status of a report that succeeds is Good. *)
Lemma managed_ok_good add m value : managed_ok add m value = true -> StatusCode_isGood (managed_sc add m) = true.
Proof.
  unfold managed_ok, managed_sc. intros H. repeat (apply andb_prop in H as [H ?]).
  repeat match goal with E : StatusCode_isGood _ = true |- _ => rewrite E; clear E end. cbn [negb].
  now rewrite isGood_severity by (unfold UA_STATUSCODE_GOOD; lia).
Qed.

Lemma send_management_reports w p n bname value : wf_nodeid p = true -> wf_nodeid n = true ->
  ends_reporting (B "node-management") (send_management w p n bname value).
Proof.
  intros Hp Hn. unfold send_management. destruct (add_wf w n p bname value) as [A1 A2].
  destruct (Client_addVariableNode w n p bname value) as [w1 [add added]]. cbn [fst snd] in *.
  assert (exists w2 m, (if StatusCode_isGood add then manage w1 added else (w1, nothing_done)) = (w2, m) /\
    0 <= mg_read m /\ wf_variant (mg_value m) = true /\ 0 <= mg_delete m /\ 0 <= mg_gone m) as (w2 & m & -> & M1 & M2 & M3 & M4).
  { destruct (StatusCode_isGood add).
    2:{ eexists _, _. split; [reflexivity|]. cbn. unfold UA_STATUSCODE_BADNOTHINGTODO. repeat split; lia. }
    unfold manage. destruct (readValue_wf w1 added) as [R1 R2]. destruct (Client_readValueAttribute w1 added) as [w3 [rsc v]].
    pose proof (deleteNode_wf w3 added) as D. destruct (Client_deleteNode w3 added) as [w4 dsc].
    destruct (readValue_wf w4 added) as [G1 _]. destruct (Client_readValueAttribute w4 added) as [w5 [gsc gv]].
    cbn [fst snd] in *. eexists _, _. split; [reflexivity|]. cbn. repeat split; lia || assumption. }
  eexists _, _, _. split; [reflexivity|]. apply reports_status; [apply Bytes_B| | |apply managed_ok_good].
  - unfold managed_sc. unfold UA_STATUSCODE_GOOD. destruct (negb _); [lia|]. destruct (negb _); [lia|]. destruct (negb _); lia.
  - apply JRest_results. repeat constructor. apply JValue_management; assumption || lia.
Qed.

Lemma resolve_all_wf nodes op : (forall w u i, snd (NamespaceGetIndex w u) = Some i -> 0 <= i) ->
  Forall printable nodes -> forall w w' ids, resolve_all w nodes op = (w', inl ids) -> forallb wf_nodeid ids = true.
Proof.
  intros Hns. induction 1 as [|s r Hs _ IH]; intros w w' ids H; cbn [resolve_all] in H; [now injection H as _ <-|].
  destruct (resolve_one w s) as [w1 [n| |]] eqn:E; [|discriminate..].
  destruct (resolve_all w1 r op) as [w2 [ids2|]] eqn:E2; [|discriminate]. injection H as _ <-. cbn [forallb].
  rewrite (resolve_one_wf w s w1 n Hns Hs E). cbn. now apply (IH w1 w2).
Qed.

(** Resolving the nodes of a command, then going on with their NodeIds. *)
Lemma resolve_then w g nodes op url ms (k : W -> list ua_nodeid -> outcome W) : text_args g op -> Forall Bytes nodes ->
  (forall w u i, snd (NamespaceGetIndex w u) = Some i -> 0 <= i) -> Forall printable nodes ->
  (forall w1 ids, forallb wf_nodeid ids = true -> length ids = length nodes -> ends_reporting op (k w1 ids)) ->
  exists n, forall fuel, (n <= fuel)%nat -> ends_reporting op
    match resolve_node_ids fuel w g nodes op url ms with
    | None => NoFuel
    | Some (w, inr f) => failed w f
    | Some (w, inl ids) => k w ids
    end.
Proof.
  intros Hg Hb Hns Hp Hk. destruct (resolve_ends w g nodes op url ms) as [n Hn]. exists n. intros fuel Hf.
  destruct (Hn fuel Hf) as [[w1 [ids|f]] E]; rewrite E.
  - apply Hk; [|eapply resolve_length; eauto]. unfold resolve_node_ids in E. destruct (find _ nodes); [discriminate|].
    destruct (make_client _ _ _ _ _ _) as [[w2 [cfg|f2]]|]; [|discriminate..]. injection E as E. eapply resolve_all_wf; eauto.
  - eexists _, _, _. split; [reflexivity|]. apply reports_failure. eapply resolve_failure; eauto.
Qed.

Lemma register_reports w g argv : text_argv argv -> text_args g (B "register-nodes") -> Forall printable argv ->
  (forall w u i, snd (NamespaceGetIndex w u) = Some i -> 0 <= i) -> complete argv [B "--node"] ->
  exists n, forall fuel, (n <= fuel)%nat -> ends_reporting (B "register-nodes") (cmd_register_nodes fuel w g argv).
Proof.
  intros Ht Hg Hp Hns Hc. unfold cmd_register_nodes. set (op := B "register-nodes") in *.
  assert (exists n, forall fuel, (n <= fuel)%nat -> ends_reporting op (usage_error w op register_usage)) as Hu
    by (exists O; intros; apply ends_usage; apply Bytes_B).
  destruct (find_arg argv (B "--endpoint")) as [url|]; [|exact Hu].
  pose proof (flag_values_count argv (B "--node") (Hc _ (or_introl eq_refl))) as Hl.
  destruct (count_flag argv (B "--node")) as [|c]; [exact Hu|].
  set (n := Nat.min MAX_NODES (S c)). set (nodes := firstn MAX_NODES (flag_values argv (B "--node"))).
  assert (length nodes = n) as Hn by (unfold nodes, n; rewrite length_firstn, Hl; reflexivity).
  assert (exists r, check_nodes nodes n = Some r) as [r ->].
  { unfold check_nodes. destruct (find _ _); [eauto|]. rewrite Hn, Nat.ltb_irrefl. eauto. }
  rewrite firstn_all2 by lia. apply resolve_then; [exact Hg| |exact Hns| |].
  - now apply flag_values_Bytes.
  - now apply Forall_firstn, printable_values.
  - intros w1 ids Hi _. now apply send_register_reports.
Qed.

Lemma management_reports w g argv : text_argv argv -> text_args g (B "node-management") -> Forall printable argv ->
  (forall w u i, snd (NamespaceGetIndex w u) = Some i -> 0 <= i) ->
  exists n, forall fuel, (n <= fuel)%nat -> ends_reporting (B "node-management") (cmd_node_management fuel w g argv).
Proof.
  intros Ht Hg Hp Hns. unfold cmd_node_management. set (op := B "node-management") in *.
  assert (exists n, forall fuel, (n <= fuel)%nat -> ends_reporting op (usage_error w op management_usage)) as Hu
    by (exists O; intros; apply ends_usage; apply Bytes_B).
  destruct (find_arg argv (B "--endpoint")) as [url|]; [|exact Hu].
  destruct (find_arg argv (B "--parent")) as [p|] eqn:Ep; [|exact Hu].
  destruct (find_arg argv (B "--node")) as [s|] eqn:Es; [|exact Hu].
  pose proof (find_arg_Bytes _ _ _ Ht Ep). pose proof (find_arg_Bytes _ _ _ Ht Es).
  rewrite Forall_forall in Hp. pose proof (Hp _ (find_arg_In _ _ _ Ep)). pose proof (Hp _ (find_arg_In _ _ _ Es)).
  set (bname := default _ _). set (value := match find_arg argv (B "--value") with Some s => atoi s | None => 42 end).
  apply (resolve_then w g [p; s] op url (request_timeout argv)
    (fun w ids => match ids with [p; n] => send_management w p n bname value | _ => OutOfBounds end)); auto.
  intros w1 ids Hi Hl. destruct ids as [|a [|b [|]]]; try discriminate Hl. cbn in Hi. zbool.
  now apply send_management_reports.
Qed.
End Lemmas.

(** * Theorem *)

(** republish, transfer-subscriptions, register-nodes and node-management
    always end and print exactly one JSON envelope whose [success] is true
    exactly when the exit code is 0; the NodeIds must be printable text and
    register-nodes must not end with a bare [--node]. *)
Lemma node_commands_report {stack : UaStack} {laws : UaStackLaws stack} {cj : CJson} {W} {L : ClientLib W}
    {libLaws : ClientLibLaws L} {clk : Clock L} {srv : Services W} {srvLaws : ServicesLaws srv}
    {nms : NodeManagement W} {nmsLaws : ManagementLaws nms} w g argv :
  text_argv argv -> Bytes (policyName g) -> Bytes (modeName g) -> Forall printable argv ->
  (forall w u i, snd (NamespaceGetIndex w u) = Some i -> 0 <= i) -> complete argv [B "--node"] ->
  exists n, forall fuel, (n <= fuel)%nat ->
    ends_reporting (B "republish") (cmd_republish fuel w g argv) /\
    ends_reporting (B "transfer-subscriptions") (cmd_transfer_subscriptions fuel w g argv) /\
    ends_reporting (B "register-nodes") (cmd_register_nodes fuel w g argv) /\
    ends_reporting (B "node-management") (cmd_node_management fuel w g argv).
Proof.
  intros Ht Hp1 Hp2 Hpr Hns Hc.
  assert (forall s, text_args g (B s)) as Hg by (intros s; repeat split; auto using Bytes_B).
  destruct (republish_reports w g argv Ht (Hg _)) as [n1 H1].
  destruct (transfer_reports w g argv Ht (Hg _)) as [n2 H2].
  destruct (register_reports w g argv Ht (Hg _) Hpr Hns Hc) as [n3 H3].
  destruct (management_reports w g argv Ht (Hg _) Hpr Hns) as [n4 H4].
  exists (n1 + n2 + n3 + n4)%nat. intros fuel Hf.
  repeat split; [apply H1|apply H2|apply H3|apply H4]; lia.
Qed.

#[export] Instance ref_management : NodeManagement Z := {
  Service_republish w _ s := (w, (UA_STATUSCODE_GOOD,
    {| nm_sequence := 4; nm_publishTime := 133485408001234567; nm_dataSize := 1 |}));
  Service_transfer w l _ := (w, (UA_STATUSCODE_GOOD, map (fun _ => (UA_STATUSCODE_GOOD, [1; 2])) l));
  Service_registerNodes w l := (w, (UA_STATUSCODE_GOOD, map (fun _ => UA_NODEID_NUMERIC 2 9) l));
  Service_unregisterNodes w _ := (w, UA_STATUSCODE_GOOD);
  Client_addVariableNode w _ _ _ v := (w + 1, (UA_STATUSCODE_GOOD, UA_NODEID_NUMERIC 1 7));
  Client_readValueAttribute w _ := (w, if w =? 1 then (UA_STATUSCODE_GOOD, VtScalar (VInt32 42))
                                       else (UA_STATUSCODE_BADINTERNALERROR, VtEmpty));
  Client_deleteNode w _ := (w + 1, UA_STATUSCODE_GOOD) }.

#[export] Instance ref_management_laws : ManagementLaws ref_management.
Proof.
  split; intros; cbn; try destruct (w =? 1); cbn; unfold UA_STATUSCODE_GOOD, UA_STATUSCODE_BADINTERNALERROR;
    repeat split; try rewrite length_map; try lia.
  all: try (apply Forall_map, Forall_forall; intros x _; cbn; split; [lia|]; repeat constructor; lia).
  all: apply forallb_forall; intros x Hx; apply in_map_iff in Hx as (y & <- & _); reflexivity.
Qed.

(** A trailing [--node] is counted but has no value: register-nodes then reads a
    node string that was never set. *)
Lemma register_trailing_node :
  cmd_register_nodes 5 0 g_sec_default [B "register-nodes"; B "--endpoint"; B "opc.tcp://s"; B "--node"] = OutOfBounds.
Proof. reflexivity. Qed.
