(* ===== verification/HistoryEvents.v ===== *)
(** history_events.c: the [history-read-events] and [history-update-events]
    commands: SelectClause paths, WhereClause, event field values, the paged
    read with its continue scenario, the update and delete requests. *)

From Stdlib Require Import String Ascii ZArith Bool List Lia SpecFloat.
Import ListNotations.
From S2P Require Import Prelude CLib Json Float UaTypes RefStack Base64 Output CJson Values.
From S2P Require Import RoundTrip Args NodeIds Connect Session ReadWrite BrowseCall.
From S2P Require Import Historian HistoryRead.

(** * hev_parse_select *)

(** Namespace index and name of each element of the browse path. *)
Record simple_attribute_operand := {
  typeDefinitionId : ua_nodeid; browsePath : list (Z * bytes); attributeId : Z }.

Definition UA_NS0ID_BASEEVENTTYPE : Z := 2041.
Definition UA_ATTRIBUTEID_VALUE : Z := 13.

(** One segment, of [strlen] 1 or more, at the start of [seg]. *)
Definition select_segment (seg part : bytes) : option (Z * bytes) :=
  match strchr 58 part with
  | Some (((_ :: _) as index), name) =>
      if forallb isdigit index then
        let v := sval (strtoul 10 seg) in
        if 65535 <? v then None else match name with [] => None | _ => Some (u16 v, name) end
      else Some (0, part)
  | _ => Some (0, part)
  end.

(** The [n] segments of the path. *)
Fixpoint select_segments (n : nat) (seg : bytes) : option (list (Z * bytes)) :=
  match n with
  | O => Some []
  | S k =>
      let '(part, rest) := match strchr 47 seg with Some p => p | None => (seg, []) end in
      match part with
      | [] => None
      | _ => do q <- select_segment seg part; do r <- select_segments k rest; Some (q :: r)
      end
  end.

Definition hev_parse_select (path : option bytes) : option simple_attribute_operand :=
  match path with
  | None | Some [] => None
  | Some path =>
      do l <- select_segments (S (length (filter (fun c => c =? 47) path))) path;
      Some {| typeDefinitionId := UA_NODEID_NUMERIC 0 UA_NS0ID_BASEEVENTTYPE;
              browsePath := l; attributeId := UA_ATTRIBUTEID_VALUE |}
  end.

(** * hev_parse_timestamps, hev_parse_perform *)

Definition timestamp_names : list (bytes * Z) :=
  [(B "source", TS_SOURCE); (B "server", TS_SERVER); (B "both", TS_BOTH); (B "neither", TS_NEITHER)].

Definition hev_parse_timestamps (s : option bytes) : option Z :=
  match s with
  | None => Some TS_BOTH
  | Some s => option_map snd (find (fun p => strcaseeq s (fst p)) timestamp_names)
  end.

Inductive perform_update := PerformInsert | PerformReplace | PerformUpdate | PerformRemove.

Definition perform_names : list (bytes * perform_update) :=
  [(B "insert", PerformInsert); (B "replace", PerformReplace); (B "update", PerformUpdate);
   (B "delete", PerformRemove)].

(** The update type and [isDelete]. *)
Definition hev_parse_perform (s : option bytes) : option (perform_update * bool) :=
  match s with
  | None => None
  | Some s =>
      match option_map snd (find (fun p => strcaseeq s (fst p)) perform_names) with
      | Some PerformRemove => Some (PerformRemove, true)
      | Some p => Some (p, false)
      | None => None
      end
  end.

Definition perform_name (t : perform_update) : bytes :=
  match t with
  | PerformInsert => B "Insert" | PerformReplace => B "Replace" | PerformUpdate => B "Update"
  | PerformRemove => B "Delete"
  end.

(** * hev_build_where *)

Inductive filter_operator := OpAnd | OpOfType | OpGreaterThanOrEqual.
Inductive filter_operand :=
| ElementOperand (index : Z)
| LiteralOperand (v : ua_variant)
| SimpleAttributeOperand (a : simple_attribute_operand).
Record filter_element := { filterOperator : filter_operator; filterOperands : list filter_operand }.

Definition hev_build_where (ofType : option ua_nodeid) (minSev : option Z) : list filter_element :=
  match ofType, minSev with
  | Some _, Some _ =>
      [{| filterOperator := OpAnd; filterOperands := [ElementOperand 1; ElementOperand 2] |}]
  | _, _ => []
  end
  ++ match ofType with
     | Some t => [{| filterOperator := OpOfType; filterOperands := [LiteralOperand (VtScalar (VNodeId t))] |}]
     | None => []
     end
  ++ match minSev with
     | Some m =>
         [{| filterOperator := OpGreaterThanOrEqual;
             filterOperands :=
               match hev_parse_select (Some (B "Severity")) with
               | Some a => [SimpleAttributeOperand a]
               | None => []
               end ++ [LiteralOperand (VtScalar (VUInt16 m))] |}]
     | None => []
     end.

(** * hev_event_value *)

Section EventValue.
Context {stack : UaStack} {cj : CJson} {cpu : Cpu}.

(** [%lld] when the double is an integer of that type, else [%.17g], in 64 bytes. *)
Definition number_literal (d : spec_float) : bytes :=
  let z := to_int64 d in
  snprintf 64 (if SFeqb d (double_of (z <? 0) (Z.abs z) 0) then fmt_d z else fmt_g 17 d).

Definition text_or_empty (j : option cjson) : ua_string :=
  match j with Some (CString s) => Some s | _ => Some [] end.

(** The type given or implied, and the JSON value. *)
Definition event_typed (j : cjson) : result (option bytes * cjson) :=
  match (if cJSON_IsObject j then cJSON_GetObjectItemCaseSensitive j (B "type") else None) with
  | None => Ok (None, j)
  | Some (CString t) =>
      match cJSON_GetObjectItemCaseSensitive j (B "value") with
      | Some v => Ok (Some t, v)
      | None => Err (J "missing 'value'")
      end
  | Some _ => Err (J "'type' is not a string")
  end.

Definition implied_type (val : cjson) : option bytes :=
  match val with
  | CString _ => Some (B "String")
  | CBool _ => Some (B "Boolean")
  | CNumber _ _ => Some (B "Double")
  | CObject _ => match cJSON_GetObjectItemCaseSensitive val (B "text") with
                 | Some _ => Some (B "LocalizedText") | None => None
                 end
  | _ => None
  end.

Definition event_literal (val : cjson) : option bytes :=
  match val with
  | CString s => Some s
  | CBool b => Some (if b then B "true" else B "false")
  | CNumber d _ => Some (number_literal d)
  | _ => None
  end.

(** [None]: out of fuel.  The messages are cut to [errLen] bytes. *)
Definition hev_event_value (errLen : nat) (j : cjson) : option (result ua_variant) :=
  let err msg := Some (Err (snprintf errLen msg)) in
  match event_typed j with
  | Err msg => err msg
  | Ok (_, CNull) => Some (Ok VtEmpty)
  | Ok (type, val) =>
      match (match type with Some t => Some t | None => implied_type val end) with
      | None => err (J "a value without 'type' must be a string, number, boolean or LocalizedText")
      | Some type =>
          if streq type (B "LocalizedText") && cJSON_IsObject val then
            Some (Ok (VtScalar (VLocalizedText
              (text_or_empty (cJSON_GetObjectItemCaseSensitive val (B "locale")))
              (text_or_empty (cJSON_GetObjectItemCaseSensitive val (B "text"))))))
          else if streq type (B "QualifiedName") && cJSON_IsObject val then
            Some (Ok (VtScalar (VQualifiedName
              (match cJSON_GetObjectItemCaseSensitive val (B "ns") with
               | Some (CNumber _ i) => u16 i | _ => 0 end)
              (text_or_empty (cJSON_GetObjectItemCaseSensitive val (B "name"))))))
          else
            match event_literal val with
            | None => err (B "unsupported value for type " ++ type)
            | Some literal => value_parse (S (length literal)) errLen (Some type) (Some literal) None
            end
      end
  end.
End EventValue.

(** * Argument helpers *)

(** [collect] is [flag_values]. *)
Definition collect (argv : list bytes) (flag : bytes) : list bytes := flag_values argv flag.

(** The first occurrence decides: [false] or [0] after it turns the flag off. *)
Fixpoint presence_flag (argv : list bytes) (flag : bytes) : bool :=
  match argv with
  | [] => false
  | a :: r =>
      if streq a flag then
        match r with
        | v :: _ => negb (strcaseeq v (B "false") || streq v (B "0"))
        | [] => true
        end
      else presence_flag r flag
  end.

(** [strtol] of a flag in the range 0 to [max]; the text must be used up. *)
Definition ranged_flag (s : bytes) (max : Z) : option Z :=
  let r := strtol 10 s in
  match send r with
  | [] => if (sval r <? 0) || (max <? sval r) then None else Some (sval r)
  | _ => None
  end.

(** * The event history services *)

Record hev_request := {
  hq_nodes : list ua_nodeid; hq_start : Z; hq_end : Z; hq_numValues : Z; hq_timestamps : Z;
  hq_select : list simple_attribute_operand; hq_where : list filter_element;
  hq_cp : ua_string; hq_release : bool }.

(** [hr_events]: the field lists when the history data is a decoded HistoryEvent. *)
Record hev_result := {
  hr_statusCode : Z; hr_continuationPoint : ua_string; hr_events : option (list (list ua_variant)) }.
Record hev_response := { hp_serviceResult : Z; hp_results : list hev_result }.

Inductive update_details :=
| DeleteEventDetails (node : ua_nodeid) (eventIds : list bytes)
| UpdateEventDetails (node : ua_nodeid) (perform : perform_update)
    (select : list simple_attribute_operand) (events : list (list ua_variant)).

Record update_result := { up_statusCode : Z; up_operationResults : list Z }.

Class EventHistory (W : Type) := {
  Service_historyReadEvents : W -> hev_request -> W * hev_response;
  Service_historyUpdate : W -> update_details -> W * (Z * list update_result)
}.

Definition HEV_DEFAULT_MAX_PAGES : Z := 8.

Definition kDefaultSelectOrdered : list bytes :=
  [B "EventId"; B "EventType"; B "SourceNode"; B "SourceName"; B "Time"; B "ReceiveTime";
   B "Message"; B "Severity"].

Record HevRead := {
  hv_start : Z; hv_end : Z; hv_numValues : Z; hv_ts : Z;
  hv_select : list simple_attribute_operand; hv_where : list filter_element }.

Section HistoryEvents.
Context {stack : UaStack} {cj : CJson} {cpu : Cpu} {W : Type} {L : ClientLib W} {srv : Services W}
  {ev : EventHistory W}.

(** * Printing *)

(** [print_status] is [cli_print_status] of the client. *)
Definition hev_print_status (key : string) (sc : Z) : bytes :=
  J "'" ++ B key ++ J "':" ++ print_status_obj sc.

Definition print_select (sel : list bytes) : bytes :=
  J "'selectClauses':" ++ jarray (map (fun s => output_json_string (Some s)) sel).

Definition print_cp (cp : ua_string) : bytes :=
  J "'continuationPoint':"
  ++ match cp with Some ((_ :: _) as c) => J "'" ++ value_b64_encode c ++ J "'" | _ => B "null" end.

Definition event_field (sel : list bytes) (p : nat * ua_variant) : bytes :=
  let '(j, v) := p in
  J "{'name':" ++ match nth_error sel j with
                  | Some s => output_json_string (Some s)
                  | None => J "'field" ++ fmt_u (Z.of_nat j) ++ J "'"
                  end
  ++ match v with
     | VtEmpty => J ",'dataType':'Null','builtInType':0,'value':null}"
     | _ => J ",'dataType':'" ++ value_type_name (variant_type v) ++ J "','builtInType':"
            ++ fmt_d (ua_type_to_builtin_id (variant_type v)) ++ J ",'value':"
            ++ output_ua_variant_value v ++ J "}"
     end.

Definition enumerate {A} (l : list A) : list (nat * A) := combine (seq 0 (length l)) l.

Definition event_item (sel : list bytes) (fields : list ua_variant) : bytes :=
  J "{'fields':" ++ jarray (map (event_field sel) (enumerate fields)) ++ J "}".

(** The events of a result, separated by commas across the calls. *)
Definition print_event_list (r : option hev_result) (sel : list bytes) : list bytes :=
  match r with
  | Some r => map (event_item sel) (default [] (hr_events r))
  | None => []
  end.

Definition print_events (r : option hev_result) (sel : list bytes) : bytes :=
  J "'events':" ++ jarray (print_event_list r sel).

Definition result_of (r : hev_response) (i : nat) : option hev_result :=
  if StatusCode_isGood (hp_serviceResult r) then nth_error (hp_results r) i else None.

Definition item_status (r : hev_response) (i : nat) : Z :=
  if negb (StatusCode_isGood (hp_serviceResult r)) then hp_serviceResult r
  else match nth_error (hp_results r) i with
       | Some x => hr_statusCode x
       | None => UA_STATUSCODE_BADUNEXPECTEDERROR
       end.

Definition cp_of (r : option hev_result) : ua_string :=
  match r with Some x => hr_continuationPoint x | None => None end.

(** * history-read-events *)

Definition hev_read (w : W) (rd : HevRead) (nodes : list ua_nodeid) (cp : ua_string) (release : bool)
    : W * hev_response :=
  Service_historyReadEvents w
    {| hq_nodes := nodes; hq_start := hv_start rd; hq_end := hv_end rd; hq_numValues := hv_numValues rd;
       hq_timestamps := hv_ts rd; hq_select := hv_select rd; hq_where := hv_where rd;
       hq_cp := match cp with Some ((_ :: _) as c) => Some c | _ => None end; hq_release := release |}.

(** Pages of one node, the last status and the last continuation point seen. *)
Record page_run := { pg_pages : list hev_response; pg_last : Z; pg_lastCp : bytes }.

(** At most [k] pages; [cur] is the continuation point of the next one. *)
Fixpoint hev_pages (k : nat) (w : W) (rd : HevRead) (node : ua_nodeid) (cur : bytes) (acc : page_run)
    : W * page_run :=
  match k with
  | O => (w, acc)
  | S k =>
      let '(w, r) := hev_read w rd [node] (match cur with [] => None | _ => Some cur end) false in
      let last := item_status r 0 in
      let pages := pg_pages acc ++ [r] in
      match (if StatusCode_isGood last then cp_of (nth_error (hp_results r) 0) else None) with
      | Some ((_ :: _) as cp) => hev_pages k w rd node cp {| pg_pages := pages; pg_last := last; pg_lastCp := cp |}
      | _ => (w, {| pg_pages := pages; pg_last := last; pg_lastCp := pg_lastCp acc |})
      end
  end.

(** The pages, then the release and the reuse of the last continuation point. *)
Definition hev_continue (w : W) (rd : HevRead) (maxPages : Z) (node : ua_nodeid)
    : W * (page_run * option (Z * Z)) :=
  let '(w, run) := hev_pages (Z.to_nat maxPages) w rd node []
                     {| pg_pages := []; pg_last := UA_STATUSCODE_GOOD; pg_lastCp := [] |} in
  match pg_lastCp run with
  | [] => (w, (run, None))
  | cp =>
      let '(w, r1) := hev_read w rd [node] (Some cp) true in
      let '(w, r2) := hev_read w rd [node] (Some cp) false in
      (w, (run, Some (item_status r1 0, item_status r2 0)))
  end.

Fixpoint hev_continue_all (w : W) (rd : HevRead) (maxPages : Z) (nodes : list ua_nodeid)
    : W * list (page_run * option (Z * Z)) :=
  match nodes with
  | [] => (w, [])
  | n :: r =>
      let '(w, x) := hev_continue w rd maxPages n in
      let '(w, xs) := hev_continue_all w rd maxPages r in
      (w, x :: xs)
  end.

(** [ok], [emit] and [timeout] over the nodes. *)
Definition fold_status (acc : bool * Z * bool) (last : Z) : bool * Z * bool :=
  let '(ok, emit, timeout) := acc in
  if negb (StatusCode_isGood last) then
    (false, if ok then last else emit, timeout || (last =? UA_STATUSCODE_BADTIMEOUT))
  else (ok, if ok && (emit =? UA_STATUSCODE_GOOD) && negb (last =? UA_STATUSCODE_GOOD) then last else emit, timeout).

Definition page_item (sel : list bytes) (r : hev_response) : bytes :=
  J "{" ++ hev_print_status "statusCode" (item_status r 0) ++ J ","
  ++ print_cp (cp_of (result_of r 0)) ++ J "," ++ print_events (result_of r 0) sel ++ J "}".

(** The release members. *)
Definition release_members (rel : option (Z * Z)) : bytes :=
  match rel with
  | Some (a, b) => hev_print_status "releaseStatusCode" a ++ J ","
                   ++ hev_print_status "reuseAfterReleaseStatusCode" b
  | None => J "'releaseStatusCode':null,'reuseAfterReleaseStatusCode':null"
  end.

(** One node of the continue scenario; [pages[pageCount - 1]] is the last page. *)
Definition scenario_item (sel : list bytes) (p : ua_nodeid * (page_run * option (Z * Z))) : option bytes :=
  let '(node, (run, rel)) := p in
  match rev (pg_pages run) with
  | [] => None
  | lastPage :: _ => Some
      (J "{'scenario':'continue','nodeId':" ++ output_nodeid node ++ J "," ++ print_select sel ++ J ","
       ++ hev_print_status "statusCode" (item_status lastPage 0) ++ J ","
       ++ print_cp (cp_of (result_of lastPage 0))
       ++ J ",'events':" ++ jarray (flat_map (fun r => print_event_list (result_of r 0) sel) (pg_pages run))
       ++ J ",'pages':" ++ jarray (map (page_item sel) (pg_pages run)) ++ J ","
       ++ release_members rel ++ J "}")
  end.

Definition send_scenario (w : W) (rd : HevRead) (maxPages : Z) (sel : list bytes) (nodes : list ua_nodeid)
    : outcome W :=
  let rd := {| hv_start := hv_start rd; hv_end := hv_end rd;
               hv_numValues := if hv_numValues rd =? 0 then 2 else hv_numValues rd; hv_ts := hv_ts rd;
               hv_select := hv_select rd; hv_where := hv_where rd |} in
  let '(w, runs) := hev_continue_all w rd maxPages nodes in
  let '(ok, emit, timeout) :=
    fold_left fold_status (map (fun r => pg_last (fst r)) runs) (true, UA_STATUSCODE_GOOD, false) in
  match mapM (scenario_item sel) (combine nodes runs) with
  | None => OutOfBounds
  | Some items =>
      Exits (Client_disconnect w) (if timeout then 7 else if ok then 0 else 4)
        (envelope (B "history-read-events") ok emit (results_of items))
  end.

(** [ok] and [emit] of the single read. *)
Definition fold_items (acc : bool * Z) (sc : Z) : bool * Z :=
  let '(ok, emit) := acc in
  if negb (StatusCode_isGood sc) then (false, if ok then sc else emit)
  else (ok, if ok && (emit =? UA_STATUSCODE_GOOD) then sc else emit).

Definition service_failed (what : string) (svc : Z) : bytes :=
  J ",'results':[],'error':{'category':'"
  ++ (if svc =? UA_STATUSCODE_BADTIMEOUT then B "timeout" else B "service")
  ++ J "','message':'" ++ B what ++ J " failed: " ++ output_status_code_name svc ++ J "'}".

Definition read_event_item (sel : list bytes) (r : hev_response) (p : nat * ua_nodeid) : bytes :=
  let '(i, node) := p in
  J "{'nodeId':" ++ output_nodeid node ++ J "," ++ hev_print_status "statusCode" (item_status r i) ++ J ","
  ++ print_cp (cp_of (nth_error (hp_results r) i)) ++ J "," ++ print_select sel ++ J ","
  ++ print_events (nth_error (hp_results r) i) sel ++ J "}".

Definition send_events (w : W) (rd : HevRead) (cp : ua_string) (release : bool) (sel : list bytes)
    (nodes : list ua_nodeid) : outcome W :=
  let '(w, r) := hev_read w rd nodes cp release in
  let svc := hp_serviceResult r in
  let good := StatusCode_isGood svc in
  let '(ok, emit) := if good
                     then fold_left fold_items (map (item_status r) (seq 0 (length nodes))) (true, svc)
                     else (false, svc) in
  Exits (Client_disconnect w) (service_exit svc ok)
    (envelope (B "history-read-events") ok emit
       (if good then results_of (map (read_event_item sel r) (enumerate nodes))
        else service_failed "HistoryRead" svc)).
End HistoryEvents.

(** * The commands *)

Definition events_usage : bytes :=
  B "usage: history-read-events --endpoint <url> --node <nodeId> [--node ...] [--start <rfc3339>] [--end <rfc3339>] [--num-values <n>] [--select <path>]... [--of-type <nodeId>] [--min-severity <n>] [--continuation-point <b64>] [--release-continuation-point] [--timestamps source|server|both|neither] [--scenario continue [--max-pages <n>]]".

Record events_args := {
  ea_endpoint : bytes; ea_nodes : list bytes; ea_select : list bytes; ea_clauses : list simple_attribute_operand;
  ea_start : Z; ea_end : Z; ea_numValues : Z; ea_ts : Z; ea_ofType : option bytes; ea_minSev : option Z;
  ea_scenario : bool; ea_maxPages : Z; ea_cp : ua_string; ea_release : bool }.

(** An optional flag: [d] without it. *)
Definition opt_flag {A} (argv : list bytes) (flag : string) (d : A) (f : bytes -> option A) (msg : bytes) : result A :=
  match find_arg argv (B flag) with
  | None => Ok d
  | Some s => of_option msg (f s)
  end.

(** [if (c) goto fail;] *)
Definition reject_if {A} (c : bool) (msg : bytes) (k : result A) : result A := if c then Err msg else k.

Definition parse_clauses (sel : list bytes) : result (list simple_attribute_operand) :=
  mapR (fun s => of_option (snprintf 512 (B "invalid --select path: '" ++ s ++ B "'")) (hev_parse_select (Some s))) sel.

(** Everything before the connection, in the order of the code. *)
Definition parse_events_args (argv : list bytes) : result events_args :=
  let nodes := collect argv (B "--node") in
  let selStrs := collect argv (B "--select") in
  match find_arg argv (B "--endpoint"), nodes with
  | Some endpoint, _ :: _ =>
      match find (fun s => negb (validate_nodeid_structure s)) nodes with
      | Some bad => Err (malformed bad)
      | None =>
          let sel := match selStrs with [] => kDefaultSelectOrdered | _ => selStrs end in
          try start <- opt_flag argv "--start" 0 value_parse_datetime (B "invalid --start (expect UTC RFC 3339)");
          try stop <- opt_flag argv "--end" 0 value_parse_datetime (B "invalid --end (expect UTC RFC 3339)");
          try numValues <- opt_flag argv "--num-values" 0 (fun s => ranged_flag s 4294967295)
                             (B "--num-values must be a non-negative integer");
          try ts <- of_option (B "--timestamps must be source, server, both or neither")
                      (hev_parse_timestamps (find_arg argv (B "--timestamps")));
          let ofType := find_arg argv (B "--of-type") in
          reject_if (match ofType with Some s => negb (validate_nodeid_structure s) | None => false end)
            (B "malformed --of-type NodeId")
          (try minSev <- opt_flag argv "--min-severity" None (fun s => option_map Some (ranged_flag s 65535))
                           (B "--min-severity must be 0..65535");
           let scenario := find_arg argv (B "--scenario") in
           reject_if (match scenario with Some s => negb (streq s (B "continue")) | None => false end)
             (B "unknown --scenario (only continue)")
           (try maxPages <- opt_flag argv "--max-pages" HEV_DEFAULT_MAX_PAGES
                              (fun s => if atoi s <=? 0 then None else Some (atoi s)) (B "--max-pages must be positive");
            let release := presence_flag argv (B "--release-continuation-point") in
            try cp <- opt_flag argv "--continuation-point" None (fun s => option_map Some (value_b64_decode s))
                        (B "--continuation-point is not Base64");
            reject_if (release && negb (is_some cp)) (B "--release-continuation-point needs --continuation-point")
            (reject_if (is_some cp && Nat.ltb 1 (length nodes)) (B "--continuation-point takes a single --node")
             (try clauses <- parse_clauses sel;
              Ok {| ea_endpoint := endpoint; ea_nodes := nodes; ea_select := sel; ea_clauses := clauses;
                    ea_start := start; ea_end := stop; ea_numValues := numValues; ea_ts := ts;
                    ea_ofType := ofType; ea_minSev := minSev; ea_scenario := is_some scenario;
                    ea_maxPages := maxPages; ea_cp := cp; ea_release := release |}))))
      end
  | _, _ => Err events_usage
  end.

Section Commands.
Context {stack : UaStack} {cj : CJson} {cpu : Cpu} {W : Type} {L : ClientLib W} {srv : Services W}
  {ev : EventHistory W}.

(** Bad input found after connecting: the client is closed. *)
Definition connected_input_fail (w : W) (op msg : bytes) : outcome W :=
  failed (Client_disconnect w) (reject op UA_STATUSCODE_BADINVALIDARGUMENT msg).

Definition unknown_namespace (s : bytes) : bytes := snprintf 512 (B "unknown namespace URI in '" ++ s ++ B "'").

(** The resolved nodes, or the first text that does not resolve. *)
Fixpoint resolve_nodes (w : W) (nodes : list bytes) : W * (list ua_nodeid + bytes) :=
  match nodes with
  | [] => (w, inl [])
  | s :: r =>
      match resolve_one w s with
      | (w, NsuOk n) =>
          match resolve_nodes w r with
          | (w, inl ids) => (w, inl (n :: ids))
          | (w, inr bad) => (w, inr bad)
          end
      | (w, _) => (w, inr s)
      end
  end.

(** The type of [--of-type]; [None] when it does not resolve. *)
Definition resolve_of_type (w : W) (ofType : option bytes) : W * option (option ua_nodeid) :=
  match ofType with
  | None => (w, Some None)
  | Some s => match resolve_one w s with
              | (w, NsuOk n) => (w, Some (Some n))
              | (w, _) => (w, None)
              end
  end.

Definition cmd_history_read_events (fuel : nat) (w : W) (g : ClientSecurity) (argv : list bytes) : outcome W :=
  let op := B "history-read-events" in
  match parse_events_args argv with
  | Err msg => usage_error w op msg
  | Ok a =>
      with_client fuel w g (ea_endpoint a) 5000 op (fun w =>
      match resolve_nodes w (ea_nodes a) with
      | (w, inr bad) => connected_input_fail w op (unknown_namespace bad)
      | (w, inl nodes) =>
          match resolve_of_type w (ea_ofType a) with
          | (w, None) => connected_input_fail w op (B "unknown namespace URI in --of-type")
          | (w, Some ofType) =>
              let rd := {| hv_start := ea_start a; hv_end := ea_end a; hv_numValues := ea_numValues a;
                           hv_ts := ea_ts a; hv_select := ea_clauses a;
                           hv_where := hev_build_where ofType (ea_minSev a) |} in
              if ea_scenario a then send_scenario w rd (ea_maxPages a) (ea_select a) nodes
              else send_events w rd (ea_cp a) (ea_release a) (ea_select a) nodes
          end
      end)
  end.

(** * history-update-events *)

Definition update_usage : bytes :=
  B "usage: history-update-events --endpoint <url> --node <nodeId> --perform insert|replace|update|delete [--select <path>]... [--event <json>]... [--event-id <b64>]...".

(** The keys of an event that are not selected yet, at most [cap] in all. *)
Fixpoint add_keys (cap : nat) (sel : list bytes) (keys : list bytes) : list bytes :=
  match keys with
  | [] => sel
  | k :: r => add_keys cap (if existsb (fun s => streq s k) sel || Nat.leb cap (length sel) then sel else sel ++ [k]) r
  end.

Definition member_keys (j : cjson) : list bytes :=
  match j with CObject l => map fst l | _ => [] end.

(** [cJSON_Parse] of the [--event] texts, numbered from 1. *)
Fixpoint parse_events (i : Z) (texts : list bytes) : result (list cjson) :=
  match texts with
  | [] => Ok []
  | t :: r =>
      match cJSON_Parse t with
      | Some ((CObject _) as j) => try js <- parse_events (i + 1) r; Ok (j :: js)
      | _ => Err (B "--event " ++ fmt_u i ++ B " is not a JSON object")
      end
  end.

(** The selected paths: the flags, or the keys in first-seen order. *)
Definition update_select (selStrs : list bytes) (evs : list cjson) : list bytes :=
  match selStrs with
  | [] => fold_left (fun sel j => add_keys (64 * length evs) sel (member_keys j)) evs []
  | _ => selStrs
  end.

Definition event_ids (ids : list bytes) : result (list bytes) :=
  mapR (fun s => of_option (snprintf 512 (B "--event-id is not Base64: '" ++ s ++ B "'")) (value_b64_decode s)) ids.

(** A [result] computation that may run out of fuel. *)
Definition event_row (i : Z) (sel : list bytes) (j : cjson) : option (result (list ua_variant)) :=
  mapF (fun k =>
    match cJSON_GetObjectItemCaseSensitive j k with
    | None => Some (Ok VtEmpty)
    | Some v =>
        match hev_event_value 256 v with
        | Some (Err verr) => Some (Err (snprintf 512 (B "--event " ++ fmt_u i ++ B " field " ++ k ++ B ": " ++ verr)))
        | r => r
        end
    end) sel.

Fixpoint event_rows (i : Z) (sel : list bytes) (evs : list cjson) : option (result (list (list ua_variant))) :=
  match evs with
  | [] => Some (Ok [])
  | j :: r => fbind (event_row i sel j) (fun row => fbind (event_rows (i + 1) sel r) (fun rows => Some (Ok (row :: rows))))
  end.

(** The request without its NodeId, which is set after connecting. *)
Definition update_request (argv : list bytes) (perform : perform_update) (isDelete : bool)
    : option (result (ua_nodeid -> update_details)) :=
  let evStrs := collect argv (B "--event") in
  match parse_events 1 evStrs with
  | Err msg => Some (Err msg)
  | Ok evs =>
      if isDelete then
        Some (try ids <- event_ids (collect argv (B "--event-id")); Ok (fun n => DeleteEventDetails n ids))
      else
        let sel := update_select (collect argv (B "--select")) evs in
        match parse_clauses sel with
        | Err msg => Some (Err msg)
        | Ok clauses =>
            fbind (event_rows 1 sel evs) (fun rows =>
            Some (Ok (fun n => UpdateEventDetails n perform clauses rows)))
        end
  end.

Definition parse_update_args (argv : list bytes)
    : option (result (bytes * bytes * perform_update * (ua_nodeid -> update_details))) :=
  let err msg := Some (Err msg) in
  match find_arg argv (B "--endpoint"), find_arg argv (B "--node"), find_arg argv (B "--perform") with
  | Some endpoint, Some nodeStr, Some performStr =>
      if negb (validate_nodeid_structure nodeStr) then err (malformed nodeStr)
      else
        match hev_parse_perform (Some performStr) with
        | None => err (B "--perform must be insert, replace, update or delete")
        | Some (perform, isDelete) =>
            if isDelete && Nat.eqb (length (collect argv (B "--event-id"))) 0
            then err (B "--perform delete needs --event-id")
            else if negb isDelete && Nat.eqb (length (collect argv (B "--event"))) 0
            then err (B "--perform insert|replace|update needs --event")
            else fbind (update_request argv perform isDelete) (fun req =>
                 Some (Ok (endpoint, nodeStr, perform, req)))
        end
  | _, _, _ => err update_usage
  end.

Definition update_item (n : ua_nodeid) (perform : perform_update) (item : Z) (results : list update_result) : bytes :=
  J "{'nodeId':" ++ output_nodeid n ++ J ",'performUpdateType':'" ++ perform_name perform ++ J "',"
  ++ hev_print_status "statusCode" item
  ++ J ",'operationResults':" ++ jarray (match results with
                                        | r :: _ => map print_status_obj (up_operationResults r)
                                        | [] => []
                                        end) ++ J "}".

Definition send_update (w : W) (n : ua_nodeid) (perform : perform_update) (d : update_details) : outcome W :=
  let '(w, (svc, results)) := Service_historyUpdate w d in
  let good := StatusCode_isGood svc in
  let item := if good then match results with r :: _ => up_statusCode r | [] => UA_STATUSCODE_BADUNEXPECTEDERROR end
              else UA_STATUSCODE_GOOD in
  let ok := good && StatusCode_isGood item in
  Exits (Client_disconnect w) (service_exit svc ok)
    (envelope (B "history-update-events") ok (if good then item else svc)
       (if good then results_of [update_item n perform item results] else service_failed "HistoryUpdate" svc)).

Definition cmd_history_update_events (fuel : nat) (w : W) (g : ClientSecurity) (argv : list bytes) : outcome W :=
  let op := B "history-update-events" in
  match parse_update_args argv with
  | None => NoFuel
  | Some (Err msg) => usage_error w op msg
  | Some (Ok (endpoint, nodeStr, perform, req)) =>
      with_client fuel w g endpoint 5000 op (fun w =>
      match resolve_one w nodeStr with
      | (w, NsuOk n) => send_update w n perform (req n)
      | (w, _) => connected_input_fail w op (unknown_namespace nodeStr)
      end)
  end.
End Commands.

(** * Texts of error messages *)

(** The strings of a JSON tree are C strings. *)
Fixpoint cjson_text (j : cjson) : bool :=
  match j with
  | CString s => forallb is_byte s
  | CArray l => forallb cjson_text l
  | CObject l => forallb (fun m => forallb is_byte (fst m) && cjson_text (snd m)) l
  | _ => true
  end.

Class CJsonText (C : CJson) := {
  parse_text : forall p j, Bytes p -> cJSON_Parse p = Some j -> cjson_text j = true;
  item_text : forall j k v, cjson_text j = true -> cJSON_GetObjectItemCaseSensitive j k = Some v -> cjson_text v = true;
  print_text : forall j t, cjson_text j = true -> cJSON_PrintUnformatted j = Some t -> Bytes t
}.

(** A computation whose error message is a text. *)
Definition err_text {A} (r : result A) : Prop := match r with Err m => Bytes m | Ok _ => True end.
Definition err_text_o {A} (r : option (result A)) : Prop := match r with Some r => err_text r | None => True end.

Lemma err_text_bind {A C} (r : result A) (k : A -> result C) :
  err_text r -> (forall a, r = Ok a -> err_text (k a)) -> err_text (rbind r k).
Proof. destruct r; cbn; auto. Qed.

Lemma err_text_fbind {A C} (r : option (result A)) (k : A -> option (result C)) :
  err_text_o r -> (forall a, r = Some (Ok a) -> err_text_o (k a)) -> err_text_o (fbind r k).
Proof. destruct r as [[a|m]|]; cbn; auto. Qed.

Lemma err_text_mapF {A C} (f : A -> option (result C)) l :
  (forall x, In x l -> err_text_o (f x)) -> err_text_o (mapF f l).
Proof.
  induction l as [|x l IH]; intros H; [exact I|]. cbn [mapF].
  apply err_text_fbind; [apply H; now left|]. intros y _.
  apply err_text_fbind; [apply IH; intros z Hz; apply H; now right|]. intros; exact I.
Qed.

Lemma err_text_mapR {A C} (f : A -> result C) l :
  (forall x, In x l -> err_text (f x)) -> err_text (mapR f l).
Proof.
  induction l as [|x l IH]; intros H; [exact I|]. cbn [mapR].
  apply err_text_bind; [apply H; now left|]. intros y _.
  apply err_text_bind; [apply IH; intros z Hz; apply H; now right|]. intros; exact I.
Qed.

Lemma rbind_Ok {A C} (r : result A) (k : A -> result C) c : rbind r k = Ok c -> exists a, r = Ok a /\ k a = Ok c.
Proof. destruct r as [a|m]; [|discriminate]. intros H. now exists a. Qed.

Lemma reject_if_Ok {A} c msg (k : result A) a : reject_if c msg k = Ok a -> k = Ok a.
Proof. now destruct c. Qed.

Lemma err_text_of_option {A} msg (o : option A) : Bytes msg -> err_text (of_option msg o).
Proof. now destruct o. Qed.

Lemma err_text_opt {A} argv flag (d : A) f msg : Bytes msg -> err_text (opt_flag argv flag d f msg).
Proof. intros. unfold opt_flag. destruct (find_arg argv _); [now apply err_text_of_option|exact I]. Qed.

Lemma err_text_reject {A} c msg (k : result A) : Bytes msg -> err_text k -> err_text (reject_if c msg k).
Proof. now destruct c. Qed.

Ltac btext := repeat first [apply Bytes_B | apply Bytes_snprintf | assumption | apply Bytes_cat].

Section Texts.
Context {stack : UaStack} {laws : UaStackLaws stack} {cj : CJson} {ct : CJsonText cj}.

Lemma Bytes_fmt_u n : 0 <= n -> Bytes (fmt_u n).
Proof.
  intros H. destruct (all_digits_fmt n H) as [H1 _]. apply Forall_forall. intros c Hc.
  unfold all_digits in H1. rewrite forallb_forall in H1. specialize (H1 c Hc). unfold isdigit in H1. unfold is_byte. zbool.
  apply andb_true_intro; split; [apply Z.leb_le|apply Z.ltb_lt]; lia.
Qed.

Lemma Bytes_strchr c s a b : Bytes s -> strchr c s = Some (a, b) -> Bytes a /\ Bytes b.
Proof.
  intros H E. apply strchr_Some in E as [-> _]. apply Forall_app in H as [Ha Hb]. split; [exact Ha|].
  now inversion Hb.
Qed.

Lemma Bytes_split_commas s : forall start, Bytes start -> Bytes s -> Forall Bytes (split_commas start s).
Proof.
  induction s as [|c s IH]; intros start Hs H; cbn [split_commas].
  - constructor; [now apply Forall_rev|constructor].
  - inversion H; subst. destruct (c =? 44).
    + constructor; [now apply Forall_rev|]. apply IH; [constructor|assumption].
    + apply IH; [now constructor|assumption].
Qed.

Lemma Bytes_skip_blanks s : Bytes s -> Bytes (skip_blanks s).
Proof.
  induction s as [|c s IH]; intros H; [exact H|]. inversion H; subst. cbn [skip_blanks].
  destruct c as [|p|p]; try exact H. repeat (destruct p as [p|p|]; try exact H). now apply IH.
Qed.

Lemma Bytes_array_items val items : Bytes (default [] val) -> split_array_literal val = Some items -> Forall Bytes items.
Proof.
  unfold split_array_literal. destruct val as [[|c v]|]; intros Hb H; try (injection H as <-; constructor).
  cbn [default] in Hb. pose proof (Bytes_skip_blanks _ Hb) as Hs.
  assert (Some (split_commas [] (c :: v)) = Some items -> Forall Bytes items) as Hc
    by (intros E; replace items with (split_commas [] (c :: v)) by congruence;
        apply Bytes_split_commas; [constructor|exact Hb]).
  destruct (skip_blanks (c :: v)) as [|x r]; [now apply Hc|].
  destruct (Z.eq_dec x 91) as [->|Hx];
    [|apply Hc; destruct x as [|q|q]; try exact H; do 7 (destruct q; try exact H); congruence].
  destruct (cJSON_Parse (91 :: r)) as [j|] eqn:E; [|discriminate].
  apply (parse_text _ _ Hs) in E. destruct j as [| | | |els|]; try discriminate. cbn [cjson_text] in E.
  clear Hc Hs Hb. revert items H. induction els as [|el els IH]; intros items H; [injection H as <-; constructor|].
  cbn [forallb] in E. zbool. cbn [mapM] in H. unfold obind in H.
  destruct (array_item el) as [t|] eqn:Ea; [|discriminate].
  destruct (mapM array_item els) as [ts|]; [|discriminate]. injection H as <-. constructor; [|now apply IH].
  destruct el; cbn [array_item] in Ea; try (now apply (print_text _ _ ltac:(eassumption) Ea)).
  injection Ea as <-. apply Bytes_cstr. now apply forallb_Bytes.
Qed.

Lemma parse_scalar_text rec errLen type lit : Bytes lit ->
  (forall t rest, Bytes t -> Bytes rest -> err_text_o (rec t rest)) ->
  err_text_o (parse_scalar rec errLen type lit).
Proof.
  intros Hl Hrec. assert (forall t rest, split_typed 64 lit = Some (t, rest) -> err_text_o (rec t rest)) as Hs.
  { intros t rest E. unfold split_typed in E. destruct (strchr 58 lit) as [[a b]|] eqn:Es; [|discriminate].
    apply (Bytes_strchr _ _ _ _ Hl) in Es as [Ha Hb]. destruct (_ || _); [discriminate|]. injection E as <- <-. auto. }
  destruct type; cbn [parse_scalar]; try exact I.
  all: try (match goal with |- context [match ?x with Some _ => _ | None => _ end] => destruct x as [[? ?]|] eqn:? end;
    [|now btext]; first [exact I | apply err_text_fbind; [now apply Hs|intros; exact I]]).
  all: try (match goal with |- context [match ?x with Some _ => _ | None => _ end] => destruct x end; [exact I|now btext]).
  all: try (destruct (strchr 58 lit) as [[? ?]|]; exact I).
  cbn [err_text_o err_text]. apply Bytes_snprintf, Bytes_cat; [apply Bytes_B|]. apply Bytes_cat; [|apply Bytes_B].
  destruct (type_typeName _) as [n|] eqn:E; [now apply Bytes_typeName in E|apply Bytes_B].
Qed.

Lemma parse_dims_text errLen dims n : err_text (parse_dims errLen dims n).
Proof.
  unfold parse_dims. destruct dims as [[|c d]|]; try exact I.
  destruct (split_array_literal _) as [[|x l]|]; try (now btext). destruct (_ =? _); [exact I|].
  cbn [err_text_o err_text]. apply Bytes_snprintf, Bytes_cat; [apply Bytes_B|]. apply Bytes_cat; [apply Bytes_fmt_u; lia|apply Bytes_B].
Qed.

Lemma value_parse_text errLen f : forall ts val dims, Bytes (default [] ts) -> Bytes (default [] val) ->
  err_text_o (value_parse f errLen ts val dims).
Proof.
  induction f as [|f IH]; intros ts val dims Ht Hv; [exact I|]. cbn [value_parse].
  destruct ts as [[|c ts]|]; try (now btext). cbn [default] in Ht.
  assert (Bytes (fst (array_suffix (c :: ts)))) as Hn.
  { unfold array_suffix. destruct (_ && _); [now apply Forall_firstn|exact Ht]. }
  destruct (array_suffix (c :: ts)) as [name isArray]. cbn [fst] in Hn.
  destruct (Nat.leb 64 (length name)); [now btext|].
  destruct (value_builtin_type name) as [type|]; [|now btext].
  assert (forall lit, Bytes lit -> err_text_o (parse_scalar
    (fun t rest => value_parse f errLen (Some t) (Some rest) None) errLen type lit)) as Hp.
  { intros lit Hlit. apply parse_scalar_text; [exact Hlit|]. intros. now apply IH. }
  destruct isArray.
  - destruct (split_array_literal val) as [items|] eqn:Ei; [|now btext].
    apply Bytes_array_items in Ei; [|exact Hv]. apply err_text_fbind.
    + apply err_text_mapF. intros x Hx. apply Hp. rewrite Forall_forall in Ei. auto.
    + intros arr _. cbn. apply err_text_bind; [apply parse_dims_text|]. intros; exact I.
  - assert (err_text_o (fbind (parse_scalar (fun t rest => value_parse f errLen (Some t) (Some rest) None)
      errLen type (default [] val)) (fun v => Some (Ok (match type, v with TVariant, VVariant w => w | _, _ => VtScalar v end)))))
      by (apply err_text_fbind; [now apply Hp|intros; exact I]).
    destruct dims as [[|x d]|]; [assumption|now btext|assumption].
Qed.
End Texts.

Section ArgTexts.
Context {stack : UaStack} {laws : UaStackLaws stack} {cj : CJson} {ct : CJsonText cj} {cpu : Cpu}.

Lemma collect_text argv flag : text_argv argv -> Forall Bytes (collect argv flag).
Proof. intros H. rewrite <- (firstn_all (collect argv flag)). now apply flag_values_Bytes. Qed.

Lemma clauses_text sel : Forall Bytes sel -> err_text (parse_clauses sel).
Proof.
  intros H. apply err_text_mapR. intros s Hs. rewrite Forall_forall in H. apply err_text_of_option.
  apply Bytes_snprintf, Bytes_cat; [apply Bytes_B|]. apply Bytes_cat; [auto|apply Bytes_B].
Qed.

Lemma default_select_text : Forall Bytes kDefaultSelectOrdered.
Proof. repeat (constructor; [apply Bytes_B|]). constructor. Qed.

Lemma selected_text l : Forall Bytes l -> Forall Bytes (match l with [] => kDefaultSelectOrdered | _ => l end).
Proof. destruct l; [intros _; apply default_select_text|auto]. Qed.

Lemma events_args_text argv : text_argv argv -> err_text (parse_events_args argv).
Proof.
  intros Ht. unfold parse_events_args. pose proof (collect_text argv (B "--node") Ht) as Hn.
  pose proof (selected_text _ (collect_text argv (B "--select") Ht)) as Hs.
  destruct (find_arg argv (B "--endpoint")) as [url|]; [|apply Bytes_B].
  destruct (collect argv (B "--node")) as [|n nodes] eqn:E; [apply Bytes_B|]. rewrite <- E in Hn |- *.
  destruct (find _ (collect argv (B "--node"))) as [bad|] eqn:Eb.
  { apply find_some in Eb as [Hin _]. rewrite Forall_forall in Hn. now apply Bytes_malformed, Hn. }
  repeat first
    [ apply err_text_bind; [first [apply err_text_opt; apply Bytes_B
                                  | apply err_text_of_option; apply Bytes_B
                                  | apply clauses_text; exact Hs]|intros ? _]
    | apply err_text_reject; [apply Bytes_B|] | exact I ].
Qed.

Lemma events_args_ok argv a : text_argv argv -> parse_events_args argv = Ok a ->
  ea_nodes a = collect argv (B "--node") /\ ea_ofType a = find_arg argv (B "--of-type") /\
  Forall Bytes (ea_select a) /\ 1 <= ea_maxPages a.
Proof.
  intros Ht H. unfold parse_events_args in H.
  pose proof (selected_text _ (collect_text argv (B "--select") Ht)) as Hs.
  destruct (find_arg argv (B "--endpoint")) as [url|]; [|discriminate].
  destruct (collect argv (B "--node")) as [|n nodes] eqn:E; [discriminate|]. rewrite <- E in H |- *.
  destruct (find _ (collect argv (B "--node"))); [discriminate|].
  repeat match type of H with
  | rbind _ _ = Ok _ => let x := fresh "x" in let Ex := fresh "Ex" in apply rbind_Ok in H as (x & Ex & H)
  | reject_if _ _ _ = Ok _ => apply reject_if_Ok in H
  end.
  match goal with Ex : opt_flag argv "--max-pages" _ _ _ = Ok _ |- _ => rename Ex into Emax end.
  injection H as <-. cbn [ea_nodes ea_ofType ea_select ea_maxPages]. repeat (split; [first [reflexivity|exact Hs]|]).
  unfold opt_flag in Emax. destruct (find_arg argv (B "--max-pages")) as [s|];
    [|injection Emax as <-; unfold HEV_DEFAULT_MAX_PAGES; lia].
  destruct (Z.leb_spec (atoi s) 0); [discriminate|]. injection Emax as <-. lia.
Qed.

Lemma Bytes_J s : Bytes (J s).
Proof.
  apply Forall_map. eapply Forall_impl; [|apply (Bytes_B s)]. intros c Hc. cbn. now destruct (c =? 39).
Qed.

Lemma event_typed_text j : cjson_text j = true ->
  match event_typed j with
  | Ok (t, v) => Bytes (default [] t) /\ cjson_text v = true
  | Err m => Bytes m
  end.
Proof.
  intros Hj. unfold event_typed. destruct (cJSON_IsObject j); [|split; [constructor|exact Hj]].
  destruct (cJSON_GetObjectItemCaseSensitive j (B "type")) as [t|] eqn:E; [|split; [constructor|exact Hj]].
  apply (item_text _ _ _ Hj) in E. destruct t; try apply Bytes_J.
  destruct (cJSON_GetObjectItemCaseSensitive j (B "value")) as [v|] eqn:Ev; [|apply Bytes_J].
  split; [now apply forallb_Bytes in E|exact (item_text _ _ _ Hj Ev)].
Qed.

Lemma digit_byte c : isdigit c = true -> is_byte c = true.
Proof. unfold isdigit, is_byte. intros H. zbool. apply andb_true_intro; split; [apply Z.leb_le|apply Z.ltb_lt]; lia. Qed.

Lemma Bytes_Digits l : Digits l -> Bytes l.
Proof. intros H. eapply Forall_impl; [|exact H]. intros c. apply digit_byte. Qed.

Lemma Bytes_JInt l : JInt l -> Bytes l.
Proof.
  intros [->|(c & r & -> & Hc & _ & Hr)]; [repeat constructor|].
  constructor; [now apply digit_byte|now apply Bytes_Digits].
Qed.

Lemma Bytes_JTail t : JTail t -> Bytes t.
Proof.
  assert (forall s, s = 43 \/ s = 45 -> is_byte s = true) as Hs by (intros s [->| ->]; reflexivity).
  destruct 1; repeat (first [apply Forall_cons; [first [reflexivity|now apply digit_byte|now apply Hs]|]
    | apply Forall_app; split | now apply Bytes_Digits | constructor]).
Qed.

Lemma Bytes_fmt_d n : Bytes (fmt_d n).
Proof.
  unfold fmt_d. destruct (Z.ltb_spec n 0); [|apply Bytes_fmt_u; lia].
  apply Forall_cons; [reflexivity|]. apply Bytes_fmt_u. lia.
Qed.

Lemma Bytes_fmt_g P d : 1 <= P -> Bytes (fmt_g P d).
Proof.
  intros HP. destruct d as [s|s| |s m e]; cbn [fmt_g]; try (destruct s; repeat constructor; fail);
    try apply Bytes_B. apply Bytes_cat; [destruct s; repeat constructor|].
  destruct (Z.leb_spec 0 e) as [He|He].
  - destruct (fmt_g_pos_number P (Zpos m * 2 ^ e) 1) as (i & t & -> & Hi & Ht); try lia.
    apply Bytes_cat; [now apply Bytes_JInt|now apply Bytes_JTail].
  - destruct (fmt_g_pos_number P (Zpos m) (2 ^ (- e))) as (i & t & -> & Hi & Ht); try lia.
    apply Bytes_cat; [now apply Bytes_JInt|now apply Bytes_JTail].
Qed.

Lemma event_value_text errLen j : cjson_text j = true -> err_text_o (hev_event_value errLen j).
Proof.
  intros Hj. unfold hev_event_value. pose proof (event_typed_text j Hj) as Ht.
  destruct (event_typed j) as [[t v]|m]; [|now apply Bytes_snprintf]. destruct Ht as [Ht Hv].
  assert (Bytes (B "String") /\ Bytes (B "Boolean") /\ Bytes (B "Double") /\ Bytes (B "LocalizedText")) as Hb
    by (repeat split; apply Bytes_B).
  assert (forall t', match t with Some t => Some t | None => implied_type v end = Some t' -> Bytes t') as Hty.
  { intros t' E. destruct t as [t|]; [now injection E as <-|]. destruct v; try discriminate E;
      try (now injection E as <-). cbn [implied_type] in E.
    destruct (cJSON_GetObjectItemCaseSensitive _ _); [now injection E as <-|discriminate]. }
  destruct v as [| | | | |]; [exact I|..];
    destruct (match t with Some t => Some t | None => implied_type _ end) as [t'|];
    try (apply Bytes_snprintf, Bytes_J); specialize (Hty _ eq_refl);
    repeat match goal with |- err_text_o (if ?c then _ else _) => destruct c; [exact I|] end;
    cbn [event_literal];
    first [apply value_parse_text; [exact Hty|]; cbn [default]
          | apply Bytes_snprintf, Bytes_cat; [apply Bytes_B|exact Hty]].
  - destruct b; apply Bytes_B.
  - unfold number_literal. apply Bytes_snprintf. destruct (SFeqb _ _); [apply Bytes_fmt_d|apply Bytes_fmt_g; lia].
  - now apply forallb_Bytes in Hv.
Qed.
End ArgTexts.

(** * Laws of the event services *)

Definition wf_event_result {stack : UaStack} (r : hev_result) : Prop :=
  0 <= hr_statusCode r < 2 ^ 32 /\ wf_str (hr_continuationPoint r) = true /\
  forallb (forallb wf_variant) (default [] (hr_events r)) = true.

Class EventHistoryLaws {stack : UaStack} {W : Type} (ev : EventHistory W) := {
  events_status : forall w q, 0 <= hp_serviceResult (snd (Service_historyReadEvents w q)) < 2 ^ 32;
  events_wf : forall w q r, In r (hp_results (snd (Service_historyReadEvents w q))) -> wf_event_result r;
  update_status : forall w d, 0 <= fst (snd (Service_historyUpdate w d)) < 2 ^ 32;
  update_wf : forall w d r, In r (snd (snd (Service_historyUpdate w d))) ->
    0 <= up_statusCode r < 2 ^ 32 /\ forallb (Z.leb 0) (up_operationResults r) = true
}.

Section Printing.
Context {stack : UaStack} {laws : UaStackLaws stack}.

Definition wf_response (r : hev_response) : Prop :=
  0 <= hp_serviceResult r < 2 ^ 32 /\ Forall wf_event_result (hp_results r).

Lemma item_status_range r i : wf_response r -> 0 <= item_status r i < 2 ^ 32.
Proof.
  intros [Hs Hr]. unfold item_status. destruct (negb _); [exact Hs|].
  destruct (nth_error _ _) as [x|] eqn:E; [|unfold UA_STATUSCODE_BADUNEXPECTEDERROR; lia].
  apply nth_error_In in E. rewrite Forall_forall in Hr. now apply Hr in E as [E _].
Qed.

Lemma JValue_item_status r i : wf_response r -> JValue (print_status_obj (item_status r i)).
Proof. intros H. apply JValue_status. pose proof (item_status_range r i H). lia. Qed.

Lemma JBody_value_type_name t : JBody (value_type_name t).
Proof.
  unfold value_type_name. destruct t as [t|]; [|jbody]. destruct (find _ g_builtin) as [p|] eqn:E.
  - apply find_some in E as [E _]. repeat (destruct E as [<-|E]; [cbn [fst]; jbody|]). destruct E.
  - destruct (type_typeName t) as [n|] eqn:En; [|cbn [default]; jbody]. apply JBody_Forall.
    eapply Forall_impl; [|exact (typeName_text _ _ En)]. intros c (Hc & Hq & Hb). apply plain_intro; lia.
Qed.

Lemma JValue_event_field sel j v : Forall Bytes sel -> wf_variant v = true -> JValue (event_field sel (j, v)).
Proof.
  intros Hs Hv. unfold event_field. pose proof (JBody_value_type_name (variant_type v)).
  pose proof (JValue_d (ua_type_to_builtin_id (variant_type v))). pose proof (JValue_variant v Hv).
  assert (JValue (match nth_error sel j with Some s => output_json_string (Some s)
                  | None => J "'field" ++ fmt_u (Z.of_nat j) ++ J "'" end)) as Hn.
  { destruct (nth_error sel j) as [s|] eqn:E.
    - apply JValue_text. apply nth_error_In in E. rewrite Forall_forall in Hs. auto.
    - pose proof (JBody_u (Z.of_nat j) ltac:(lia)). jvalue. }
  destruct v; jvalue.
Qed.

Lemma JValue_event sel fields : Forall Bytes sel -> forallb wf_variant fields = true -> JValue (event_item sel fields).
Proof.
  intros Hs Hf. assert (JValue (jarray (map (event_field sel) (enumerate fields)))) as H.
  { apply JValue_array, Forall_map, Forall_forall. intros [j v] Hin. apply JValue_event_field; [exact Hs|].
    rewrite forallb_forall in Hf. apply Hf. now apply in_combine_r in Hin. }
  unfold event_item. jvalue.
Qed.

Definition wf_result_opt (r : option hev_result) : Prop := match r with Some x => wf_event_result x | None => True end.

Lemma JValue_event_list r sel : Forall Bytes sel -> wf_result_opt r -> Forall JValue (print_event_list r sel).
Proof.
  intros Hs Hr. destruct r as [r|]; [|constructor]. destruct Hr as (_ & _ & Hr). apply Forall_map, Forall_forall.
  intros f Hf. rewrite forallb_forall in Hr. apply JValue_event; auto.
Qed.

(** The members of the items, each a name and a JSON value. *)
Lemma print_status_member key sc : hev_print_status key sc = J "'" ++ B key ++ J "':" ++ print_status_obj sc.
Proof. reflexivity. Qed.

Lemma JValue_cp r : wf_result_opt r ->
  JValue (match cp_of r with Some ((_ :: _) as c) => J "'" ++ value_b64_encode c ++ J "'" | _ => B "null" end).
Proof.
  destruct r as [r|]; [|intros; apply JValue_null]. intros (_ & Hc & _). cbn [cp_of].
  destruct (hr_continuationPoint r) as [[|c cp]|]; [apply JValue_null| |apply JValue_null].
  apply JValue_quoted, JBody_b64. now apply forallb_Bytes in Hc.
Qed.

Lemma JValue_select sel : Forall Bytes sel -> JValue (jarray (map (fun s => output_json_string (Some s)) sel)).
Proof.
  intros H. apply JValue_array, Forall_map. eapply Forall_impl; [|exact H]. intros s Hs. now apply JValue_text.
Qed.

Lemma wf_result_of r i : wf_response r -> wf_result_opt (result_of r i).
Proof.
  intros [_ H]. unfold result_of. destruct (StatusCode_isGood _); [|exact I].
  destruct (nth_error _ _) as [x|] eqn:E; [|exact I]. apply nth_error_In in E. rewrite Forall_forall in H. now apply H.
Qed.

Lemma wf_nth_result r i : wf_response r -> wf_result_opt (nth_error (hp_results r) i).
Proof.
  intros [_ H]. destruct (nth_error _ _) as [x|] eqn:E; [|exact I]. apply nth_error_In in E.
  rewrite Forall_forall in H. now apply H.
Qed.

Lemma JValue_page_item sel r : Forall Bytes sel -> wf_response r -> JValue (page_item sel r).
Proof.
  intros Hs Hr. pose proof (JValue_item_status r 0 Hr).
  pose proof (JValue_cp _ (wf_result_of r 0 Hr)).
  pose proof (JValue_array _ (JValue_event_list _ sel Hs (wf_result_of r 0 Hr))).
  unfold page_item, print_cp, print_events. rewrite !print_status_member. jvalue.
Qed.

Lemma JValue_read_event_item sel r i n : Forall Bytes sel -> wf_response r -> wf_nodeid n = true ->
  JValue (read_event_item sel r (i, n)).
Proof.
  intros Hs Hr Hn. pose proof (JValue_item_status r i Hr).
  pose proof (JValue_cp _ (wf_nth_result r i Hr)). pose proof (JValue_select sel Hs).
  pose proof (JValue_array _ (JValue_event_list _ sel Hs (wf_nth_result r i Hr))).
  pose proof (JValue_nodeid n Hn) as Hid. change (print_ua_nodeid n) with (output_nodeid n) in Hid.
  unfold read_event_item, print_cp, print_events, print_select. rewrite !print_status_member. jvalue.
Qed.

(** A run of the continue scenario: at least one page, everything well formed. *)
Definition wf_page_run (run : page_run) (rel : option (Z * Z)) : Prop :=
  Forall wf_response (pg_pages run) /\ 0 <= pg_last run < 2 ^ 32 /\
  match rel with Some (a, b) => 0 <= a /\ 0 <= b | None => True end.

Lemma JValue_scenario sel n run rel : Forall Bytes sel -> wf_nodeid n = true -> wf_page_run run rel ->
  pg_pages run <> [] -> exists t, scenario_item sel (n, (run, rel)) = Some t /\ JValue t.
Proof.
  intros Hs Hn (Hp & _ & Hrel) Hne. unfold scenario_item.
  destruct (rev (pg_pages run)) as [|lp rest] eqn:E.
  { exfalso. apply Hne. rewrite <- (rev_involutive (pg_pages run)), E. reflexivity. }
  assert (wf_response lp) as Hl.
  { rewrite Forall_forall in Hp. apply Hp, in_rev. rewrite E. now left. }
  eexists. split; [reflexivity|].
  pose proof (JValue_item_status lp 0 Hl).
  pose proof (JValue_cp _ (wf_result_of lp 0 Hl)). pose proof (JValue_select sel Hs).
  pose proof (JValue_nodeid n Hn) as Hid. change (print_ua_nodeid n) with (output_nodeid n) in Hid.
  assert (JValue (jarray (map (page_item sel) (pg_pages run)))).
  { apply JValue_array, Forall_map. eapply Forall_impl; [|exact Hp]. intros r Hr. now apply JValue_page_item. }
  assert (JValue (jarray (flat_map (fun r => print_event_list (result_of r 0) sel) (pg_pages run)))).
  { apply JValue_array, Forall_flat_map. eapply Forall_impl; [|exact Hp]. intros r Hr.
    apply JValue_event_list; [exact Hs|now apply wf_result_of]. }
  unfold print_cp, print_select. rewrite !print_status_member. destruct rel as [[a b]|]; cbn [release_members].
  - destruct Hrel as [Ha Hb]. pose proof (JValue_status _ Ha). pose proof (JValue_status _ Hb).
    rewrite !print_status_member. jvalue.
  - jvalue.
Qed.
End Printing.

Section Reporting.
Context {stack : UaStack} {laws : UaStackLaws stack} {cj : CJson} {cjl : CJsonLaws cj} {ct : CJsonText cj}
  {cpu : Cpu} {W : Type} {L : ClientLib W} {libLaws : ClientLibLaws L} {clk : Clock L} {srv : Services W}
  {ev : EventHistory W} {el : EventHistoryLaws ev}.

Lemma hev_read_wf w rd nodes cp rel : wf_response (snd (hev_read w rd nodes cp rel)).
Proof. unfold hev_read. split; [apply events_status|]. apply Forall_forall. intros r. apply events_wf. Qed.

Lemma hev_pages_wf k : forall w rd n cur acc, wf_page_run acc None ->
  let run := snd (hev_pages k w rd n cur acc) in
  wf_page_run run None /\ (length (pg_pages run) <= length (pg_pages acc) + k)%nat /\
  ((1 <= k)%nat -> pg_pages run <> []).
Proof.
  induction k as [|k IH]; intros w rd n cur acc Ha; [cbn; split; [exact Ha|split; lia]|]. cbn [hev_pages].
  set (cp := match cur with [] => None | _ => Some cur end). pose proof (hev_read_wf w rd [n] cp false) as Hr.
  destruct (hev_read w rd [n] cp false) as [w1 r]. cbn [snd] in Hr.
  assert (forall c, wf_page_run {| pg_pages := pg_pages acc ++ [r]; pg_last := item_status r 0; pg_lastCp := c |} None) as Hacc.
  { intros c. destruct Ha as (Hp & _ & _). split; [|split; [now apply item_status_range|exact I]].
    apply Forall_app. split; [exact Hp|]. now constructor. }
  assert (pg_pages acc ++ [r] <> []) as Hne by (intros E; apply app_eq_nil in E as [_ E]; discriminate).
  assert (forall c, let run := {| pg_pages := pg_pages acc ++ [r]; pg_last := item_status r 0; pg_lastCp := c |} in
    wf_page_run run None /\ (length (pg_pages run) <= length (pg_pages acc) + S k)%nat /\
    ((1 <= S k)%nat -> pg_pages run <> [])) as Hstop.
  { intros c. split; [apply Hacc|]. cbn [pg_pages]. rewrite length_app. cbn. split; [lia|auto]. }
  destruct (if StatusCode_isGood (item_status r 0) then _ else _) as [[|b c]|]; try apply Hstop.
  destruct (IH w1 rd n (b :: c) _ (Hacc (b :: c))) as (H1 & H2 & H3). split; [exact H1|].
  cbn [pg_pages] in H2. rewrite length_app in H2. cbn [length] in H2. split; [lia|]. intros _ E.
  destruct k as [|k]; [cbn in E; auto|]. apply H3; [lia|exact E].
Qed.

Lemma hev_continue_wf w rd max n : 1 <= max ->
  let '(run, rel) := snd (hev_continue w rd max n) in wf_page_run run rel /\ pg_pages run <> [].
Proof.
  intros Hm. unfold hev_continue. set (acc := Build_page_run _ _ _).
  assert (wf_page_run acc None) as Ha by (split; [constructor|split; [cbn; unfold UA_STATUSCODE_GOOD; lia|exact I]]).
  pose proof (hev_pages_wf (Z.to_nat max) w rd n [] acc Ha) as H.
  destruct (hev_pages (Z.to_nat max) w rd n [] acc) as [w1 run]. cbn [snd] in H.
  destruct H as (Hw & _ & Hne). specialize (Hne ltac:(lia)).
  destruct (pg_lastCp run) as [|c cp]; [cbn; auto|].
  pose proof (hev_read_wf w1 rd [n] (Some (c :: cp)) true) as H1.
  destruct (hev_read w1 rd [n] (Some (c :: cp)) true) as [w2 r1].
  pose proof (hev_read_wf w2 rd [n] (Some (c :: cp)) false) as H2.
  destruct (hev_read w2 rd [n] (Some (c :: cp)) false) as [w3 r2]. cbn [snd] in *.
  split; [|exact Hne]. destruct Hw as (Hp & Hl & _). split; [exact Hp|]. split; [exact Hl|].
  split; now apply item_status_range.
Qed.

Lemma hev_continue_all_wf nodes : forall w rd max, 1 <= max ->
  Forall2 (fun _ x => wf_page_run (fst x) (snd x) /\ pg_pages (fst x) <> []) nodes (snd (hev_continue_all w rd max nodes)).
Proof.
  induction nodes as [|n nodes IH]; intros w rd max Hm; [constructor|]. cbn [hev_continue_all].
  pose proof (hev_continue_wf w rd max n Hm) as H. destruct (hev_continue w rd max n) as [w1 [run rel]].
  specialize (IH w1 rd max Hm). destruct (hev_continue_all w1 rd max nodes) as [w2 xs]. cbn [snd] in *.
  constructor; assumption.
Qed.

(** The status fold: [ok] is false after a timeout, and [emit] is a status of the runs. *)
Lemma fold_status_spec l : forall acc, Forall (fun x => 0 <= x < 2 ^ 32) l ->
  0 <= snd (fst acc) -> (snd acc = true -> fst (fst acc) = false) ->
  let r := fold_left fold_status l acc in 0 <= snd (fst r) /\ (snd r = true -> fst (fst r) = false).
Proof.
  induction l as [|x l IH]; intros [[ok emit] timeout] Hl He Ht; [now split|]. inversion Hl; subst.
  cbn [fold_left]. apply IH; [assumption|..]; unfold fold_status; destruct (negb _); cbn [fst snd] in *.
  - destruct ok; lia.
  - repeat match goal with |- context [if ?c then _ else _] => destruct c end; lia.
  - auto.
  - auto.
Qed.

Lemma mapM_scenario sel nodes runs : Forall Bytes sel -> Forall (fun n => wf_nodeid n = true) nodes ->
  Forall2 (fun _ x => wf_page_run (fst x) (snd x) /\ pg_pages (fst x) <> []) nodes runs ->
  exists items, mapM (scenario_item sel) (combine nodes runs) = Some items /\ Forall JValue items.
Proof.
  intros Hs Hn H. induction H as [|n [run rel] nodes runs [Hw Hne] _ IH]; [now exists []|].
  inversion Hn; subst. cbn [combine mapM]. cbn [fst snd] in *.
  destruct (JValue_scenario sel n run rel Hs) as (t & E & Ht); [assumption..|].
  destruct IH as (items & Ei & Hi); [assumption|]. unfold obind. rewrite E, Ei. eexists. split; [reflexivity|].
  now constructor.
Qed.

Lemma send_scenario_reports w rd max sel nodes : 1 <= max -> Forall Bytes sel ->
  Forall (fun n => wf_nodeid n = true) nodes ->
  ends_reporting (B "history-read-events") (send_scenario w rd max sel nodes).
Proof.
  intros Hm Hs Hn. unfold send_scenario. set (rd' := Build_HevRead _ _ _ _ _ _).
  pose proof (hev_continue_all_wf nodes w rd' max Hm) as H.
  destruct (hev_continue_all w rd' max nodes) as [w1 runs]. cbn [snd] in H.
  destruct (mapM_scenario sel nodes runs Hs Hn H) as (items & Ei & Hi).
  pose proof (fold_status_spec (map (fun r => pg_last (fst r)) runs) (true, UA_STATUSCODE_GOOD, false)) as Hf.
  destruct (fold_left fold_status _ _) as [[ok emit] timeout]. cbn [fst snd] in Hf. rewrite Ei.
  destruct Hf as [He Ht].
  - apply Forall_map. clear Ei Hn. induction H as [|n x l l' [[_ [Hw _]] _] _ IH]; constructor; auto.
  - unfold UA_STATUSCODE_GOOD. lia.
  - discriminate.
  - eexists _, _, _. split; [reflexivity|]. apply reports_envelope.
    + apply Bytes_B.
    + exact He.
    + now apply JRest_results.
    + destruct timeout, ok; cbn; tauto.
    + destruct timeout; [now rewrite Ht|now destruct ok].
Qed.

Lemma JBody_what what : what = "HistoryRead"%string \/ what = "HistoryUpdate"%string -> JBody (B what).
Proof. intros [->| ->]; jbody. Qed.

Lemma JRest_service_failed what svc : what = "HistoryRead"%string \/ what = "HistoryUpdate"%string ->
  JRest (service_failed what svc).
Proof.
  intros Hw. pose proof (JBody_what what Hw) as Hb. pose proof (JBody_status_name svc).
  split; [reflexivity|]. unfold service_failed, output_end. generalize dependent (B what). intros t Hb.
  destruct (svc =? _); jwalk.
Qed.

Lemma fold_items_spec l : forall acc, Forall (fun x => 0 <= x < 2 ^ 32) l -> 0 <= snd acc ->
  0 <= snd (fold_left fold_items l acc).
Proof.
  induction l as [|x l IH]; intros [ok emit] Hl He; [exact He|]. inversion Hl; subst. cbn [fold_left].
  apply IH; [assumption|]. unfold fold_items. destruct (negb _); cbn [snd] in *; [destruct ok; lia|].
  destruct (_ && _); lia.
Qed.

Lemma send_events_reports w rd cp rel sel nodes : Forall Bytes sel ->
  Forall (fun n => wf_nodeid n = true) nodes ->
  ends_reporting (B "history-read-events") (send_events w rd cp rel sel nodes).
Proof.
  intros Hs Hn. unfold send_events. pose proof (hev_read_wf w rd nodes cp rel) as Hr.
  destruct (hev_read w rd nodes cp rel) as [w1 r]. cbn [snd] in Hr. pose proof Hr as [Hsc _].
  destruct (StatusCode_isGood (hp_serviceResult r)) eqn:Eg.
  - pose proof (fold_items_spec (map (item_status r) (seq 0 (length nodes))) (true, hp_serviceResult r)) as Hf.
    destruct (fold_left fold_items _ _) as [ok emit]. cbn [snd] in Hf.
    eexists _, _, _. split; [reflexivity|]. apply reports_envelope.
    + apply Bytes_B.
    + apply Hf; [|lia]. apply Forall_map, Forall_forall. intros i _. now apply item_status_range.
    + apply JRest_results, Forall_map, Forall_forall. intros [i n] Hin. apply JValue_read_event_item; [exact Hs|exact Hr|].
      apply in_combine_r in Hin. rewrite Forall_forall in Hn. auto.
    + apply service_exit_code.
    + now apply service_exit_ok.
  - eexists _, _, _. split; [reflexivity|]. apply reports_envelope.
    + apply Bytes_B.
    + lia.
    + apply JRest_service_failed. now left.
    + apply service_exit_code.
    + now apply service_exit_ok.
Qed.

Lemma send_update_reports w n perform d : wf_nodeid n = true ->
  ends_reporting (B "history-update-events") (send_update w n perform d).
Proof.
  intros Hn. unfold send_update. pose proof (update_status w d) as Hs. pose proof (update_wf w d) as Hr.
  destruct (Service_historyUpdate w d) as [w1 [svc results]]. cbn [fst snd] in *.
  set (item := if StatusCode_isGood svc then _ else _).
  assert (0 <= item < 2 ^ 32) as Hi.
  { unfold item. destruct (StatusCode_isGood svc); [|unfold UA_STATUSCODE_GOOD; lia].
    destruct results as [|r rs]; [unfold UA_STATUSCODE_BADUNEXPECTEDERROR; lia|]. apply (Hr r). now left. }
  eexists _, _, _. split; [reflexivity|]. apply reports_envelope.
  - apply Bytes_B.
  - destruct (StatusCode_isGood svc); lia.
  - destruct (StatusCode_isGood svc); [|apply JRest_service_failed; now right].
    apply JRest_results. constructor; [|constructor].
    pose proof (JValue_nodeid n Hn) as Hid. change (print_ua_nodeid n) with (output_nodeid n) in Hid.
    pose proof (JValue_status item ltac:(lia)).
    assert (JBody (perform_name perform)) by (destruct perform; jbody).
    assert (JValue (jarray (match results with r :: _ => map print_status_obj (up_operationResults r) | [] => [] end))).
    { apply JValue_array. destruct results as [|r rs]; [constructor|]. destruct (Hr r (or_introl eq_refl)) as [_ Ho].
      apply Forall_map, Forall_forall. intros c Hc. rewrite forallb_forall in Ho. apply Ho, Z.leb_le in Hc.
      now apply JValue_status. }
    unfold update_item. rewrite !print_status_member. jvalue.
  - apply service_exit_code.
  - apply service_exit_ok. intros H. now apply andb_prop in H.
Qed.
End Reporting.

(** * The requests of history-update-events *)

Section UpdateRequests.
Context {stack : UaStack} {laws : UaStackLaws stack} {cj : CJson} {cjl : CJsonLaws cj} {ct : CJsonText cj} {cpu : Cpu}.

(** Enough fuel: the literal of a value is read by [value_parse_answers]. *)
Lemma event_value_total errLen j : exists r, hev_event_value errLen j = Some r.
Proof.
  unfold hev_event_value. destruct (event_typed j) as [[t v]|m]; [|eauto].
  destruct v; eauto;
    destruct (match t with Some t => Some t | None => _ end) as [t'|]; eauto;
    repeat match goal with |- exists r, (if ?c then _ else _) = _ => destruct c; [eauto|] end;
    cbn [event_literal]; eauto;
    match goal with |- exists r, value_parse (S (length ?l)) _ _ _ _ = _ =>
      pose proof (value_parse_answers errLen (S (length l)) (Some t') (Some l) None ltac:(cbn [default]; lia));
      destruct (value_parse (S (length l)) errLen (Some t') (Some l) None); [eauto|congruence] end.
Qed.

(** A field of an event: the null Variant or a well-typed one. *)
Definition typed_field (v : ua_variant) : bool :=
  match v with VtEmpty => true | _ => typed_variant v end.

Lemma typed_field_of v : typed_variant v = true -> typed_field v = true.
Proof. now destruct v. Qed.

Lemma event_value_typed errLen j v : hev_event_value errLen j = Some (Ok v) -> typed_field v = true.
Proof.
  unfold hev_event_value. destruct (event_typed j) as [[t val]|m]; [|discriminate].
  assert (forall o, in_range 0 65535 (match o with Some (CNumber _ i) => u16 i | _ => 0 end) = true) as Hu.
  { intros [[]|]; try reflexivity. apply (in_range_u 16). lia. }
  destruct val; try (intros H; injection H as <-; reflexivity);
    match goal with |- match ?o with Some _ => _ | None => _ end = _ -> _ => destruct o as [t'|]; [|discriminate] end;
    repeat match goal with |- (if ?c then _ else _) = _ -> _ =>
      destruct c; [intros H; injection H as <-; first [reflexivity|exact (Hu _)]|] end;
    cbn [event_literal]; try discriminate; intros H; apply typed_field_of; eapply value_parse_typed; exact H.
Qed.

Lemma mapF_total {A C} (f : A -> option (result C)) l : (forall x, exists r, f x = Some r) -> exists r, mapF f l = Some r.
Proof.
  intros H. induction l as [|x l [r IH]]; [eexists; reflexivity|]. cbn [mapF]. destruct (H x) as [[y|m] ->]; [|now eexists].
  cbn [fbind]. rewrite IH. destruct r; now eexists.
Qed.

Lemma mapF_Ok {A C} (f : A -> option (result C)) (P : C -> Prop) l ys :
  (forall x y, f x = Some (Ok y) -> P y) -> mapF f l = Some (Ok ys) -> length ys = length l /\ Forall P ys.
Proof.
  intros Hf. revert ys. induction l as [|x l IH]; intros ys H; [injection H as <-; split; [reflexivity|constructor]|].
  cbn [mapF] in H. unfold fbind in H. destruct (f x) as [[y|m]|] eqn:E; try discriminate.
  destruct (mapF f l) as [[zs|m]|]; try discriminate. injection H as <-.
  destruct (IH zs eq_refl) as [Hl HP]. split; [cbn; now rewrite Hl|]. constructor; [now apply (Hf x)|exact HP].
Qed.

Lemma event_rows_total sel evs : forall i, exists r, event_rows i sel evs = Some r.
Proof.
  induction evs as [|j evs IH]; intros i; [now eexists|]. cbn [event_rows].
  destruct (mapF_total (fun k => match cJSON_GetObjectItemCaseSensitive j k with
    | None => Some (Ok VtEmpty)
    | Some v => match hev_event_value 256 v with
                | Some (Err verr) => Some (Err (snprintf 512 (B "--event " ++ fmt_u i ++ B " field " ++ k ++ B ": " ++ verr)))
                | r => r
                end
    end) sel) as [[row|m] E].
  { intros k. destruct (cJSON_GetObjectItemCaseSensitive j k) as [v|]; [|eauto].
    destruct (event_value_total 256 v) as [[x|m] ->]; eauto. }
  - unfold event_row. rewrite E. cbn [fbind]. destruct (IH (i + 1)) as [[rows|m] ->]; now eexists.
  - unfold event_row. rewrite E. now eexists.
Qed.

(** Every event has one Variant per SelectClause, each well typed. *)
Lemma event_rows_shape sel evs : forall i rows, event_rows i sel evs = Some (Ok rows) ->
  length rows = length evs /\
  Forall (fun row => length row = length sel /\ forallb typed_field row = true) rows.
Proof.
  induction evs as [|j evs IH]; intros i rows H; [injection H as <-; split; [reflexivity|constructor]|].
  cbn [event_rows] in H. unfold fbind in H. destruct (event_row i sel j) as [[row|m]|] eqn:E; try discriminate.
  destruct (event_rows (i + 1) sel evs) as [[rest|m]|] eqn:E'; try discriminate. injection H as <-.
  destruct (IH _ _ E') as [Hl HF]. split; [cbn; now rewrite Hl|]. constructor; [|exact HF].
  apply (mapF_Ok _ (fun v => typed_field v = true)) in E as [E1 E2].
  - split; [exact E1|]. now apply forallb_forall, Forall_forall.
  - intros k v. destruct (cJSON_GetObjectItemCaseSensitive j k) as [x|]; [|intros Ev; now injection Ev as <-].
    destruct (hev_event_value 256 x) as [[y|m]|] eqn:Ev; intros Eq; try discriminate.
    injection Eq as <-. exact (event_value_typed _ _ _ Ev).
Qed.

Lemma parse_events_text texts : Forall Bytes texts -> forall i, 0 <= i ->
  match parse_events i texts with
  | Ok js => Forall (fun j => cjson_text j = true) js /\ length js = length texts
  | Err m => Bytes m
  end.
Proof.
  induction 1 as [|t texts Ht _ IH]; intros i Hi; [split; [constructor|reflexivity]|]. cbn [parse_events].
  assert (Bytes (B "--event " ++ fmt_u i ++ B " is not a JSON object")) as Hb
    by (apply Bytes_cat; [apply Bytes_B|apply Bytes_cat; [now apply Bytes_fmt_u|apply Bytes_B]]).
  destruct (cJSON_Parse t) as [j|] eqn:E; [|exact Hb]. apply (parse_text _ _ Ht) in E.
  destruct j; try exact Hb. specialize (IH (i + 1) ltac:(lia)). unfold rbind.
  destruct (parse_events (i + 1) texts) as [js|m]; [|exact IH]. destruct IH as [IH1 IH2].
  split; [now constructor|cbn; now rewrite IH2].
Qed.

Lemma event_rows_text sel evs : Forall Bytes sel -> Forall (fun j => cjson_text j = true) evs ->
  forall i, 0 <= i -> err_text_o (event_rows i sel evs).
Proof.
  intros Hs. induction 1 as [|j evs Hj _ IH]; intros i Hi; [exact I|]. cbn [event_rows].
  apply err_text_fbind.
  - apply err_text_mapF. intros k Hk. rewrite Forall_forall in Hs.
    destruct (cJSON_GetObjectItemCaseSensitive j k) as [v|] eqn:E; [|exact I].
    apply (item_text _ _ _ Hj) in E. pose proof (event_value_text 256 v E) as Hv.
    destruct (hev_event_value 256 v) as [[x|m]|]; try exact I. cbn [err_text_o err_text] in *.
    apply Bytes_snprintf, Bytes_cat; [apply Bytes_B|]. apply Bytes_cat; [now apply Bytes_fmt_u|].
    apply Bytes_cat; [apply Bytes_B|]. apply Bytes_cat; [auto|]. apply Bytes_cat; [apply Bytes_B|exact Hv].
  - intros row _. apply err_text_fbind; [apply IH; lia|]. intros; exact I.
Qed.

Lemma member_keys_text j : cjson_text j = true -> Forall Bytes (member_keys j).
Proof.
  destruct j; try (intros; constructor). cbn [cjson_text member_keys]. intros H. apply Forall_map, Forall_forall.
  intros m Hm. rewrite forallb_forall in H. specialize (H m Hm). zbool. now apply forallb_Bytes.
Qed.

Lemma add_keys_text cap keys : forall sel, Forall Bytes sel -> Forall Bytes keys -> Forall Bytes (add_keys cap sel keys).
Proof.
  induction keys as [|k keys IH]; intros sel Hs Hk; [exact Hs|]. inversion Hk; subst. cbn [add_keys].
  apply IH; [|assumption]. destruct (_ || _); [exact Hs|]. apply Forall_app. split; [exact Hs|]. now constructor.
Qed.

Lemma update_select_text sels evs : Forall Bytes sels -> Forall (fun j => cjson_text j = true) evs ->
  Forall Bytes (update_select sels evs).
Proof.
  intros Hs He. unfold update_select. destruct sels; [|exact Hs]. set (cap := (64 * length evs)%nat). clearbody cap.
  assert (forall sel, Forall Bytes sel -> Forall Bytes
    (fold_left (fun sel j => add_keys cap sel (member_keys j)) evs sel)) as H; [|apply H; constructor].
  induction He as [|j evs Hj _ IH]; intros sel Hsel; [exact Hsel|]. cbn [fold_left]. apply IH.
  apply add_keys_text; [exact Hsel|now apply member_keys_text].
Qed.

Lemma event_ids_text ids : Forall Bytes ids -> err_text (event_ids ids).
Proof.
  intros H. apply err_text_mapR. intros s Hs. rewrite Forall_forall in H. apply err_text_of_option.
  apply Bytes_snprintf, Bytes_cat; [apply Bytes_B|]. apply Bytes_cat; [auto|apply Bytes_B].
Qed.

Lemma update_request_ok argv p del : text_argv argv ->
  exists r, update_request argv p del = Some r /\ err_text r.
Proof.
  intros Ht. unfold update_request. pose proof (parse_events_text _ (collect_text argv (B "--event") Ht) 1 ltac:(lia)) as Hp.
  destruct (parse_events 1 _) as [evs|m]; [|now exists (Err m)]. destruct Hp as [Hp _]. destruct del.
  - eexists. split; [reflexivity|]. apply err_text_bind; [now apply event_ids_text, collect_text|intros; exact I].
  - set (sel := update_select _ _). assert (Forall Bytes sel) as Hs by now apply update_select_text; [apply collect_text|].
    pose proof (clauses_text sel Hs) as Hc. destruct (parse_clauses sel) as [cl|m]; [|now exists (Err m)].
    pose proof (event_rows_text sel evs Hs Hp 1 ltac:(lia)) as Hr.
    destruct (event_rows_total sel evs 1) as [[rows|m] E]; rewrite E in Hr |- *; cbn [fbind].
    + now eexists.
    + now exists (Err m).
Qed.

Lemma update_args_ok argv : text_argv argv -> exists r, parse_update_args argv = Some r /\ err_text r.
Proof.
  intros Ht. unfold parse_update_args.
  destruct (find_arg argv (B "--endpoint")) as [url|]; [|eexists; split; [reflexivity|apply Bytes_B]].
  destruct (find_arg argv (B "--node")) as [node|] eqn:En; [|eexists; split; [reflexivity|apply Bytes_B]].
  destruct (find_arg argv (B "--perform")) as [ps|]; [|eexists; split; [reflexivity|apply Bytes_B]].
  pose proof (find_arg_Bytes _ _ _ Ht En) as Hn.
  destruct (negb (validate_nodeid_structure node)); [eexists; split; [reflexivity|now apply Bytes_malformed]|].
  destruct (hev_parse_perform (Some ps)) as [[p del]|]; [|eexists; split; [reflexivity|apply Bytes_B]].
  destruct (del && _); [eexists; split; [reflexivity|apply Bytes_B]|].
  destruct (negb del && _); [eexists; split; [reflexivity|apply Bytes_B]|].
  destruct (update_request_ok argv p del Ht) as ([req|m] & -> & Hr); cbn [fbind]; eexists; split;
    [reflexivity|exact I|reflexivity|exact Hr].
Qed.
End UpdateRequests.

(** * Paths and filters, specified *)

(** A path element as text: with its namespace index, or the bare name. *)
Definition segment_text (q : bool * (Z * bytes)) : bytes :=
  let '(qualified, (ns, name)) := q in if qualified then fmt_u ns ++ [58] ++ name else name.

Definition no_slash (s : bytes) : bool := forallb (fun c => negb (c =? 47)) s.

(** A bare name has namespace 0 and no decimal index before its first colon. *)
Definition segment_ok (q : bool * (Z * bytes)) : Prop :=
  let '(qualified, (ns, name)) := q in
  name <> [] /\ no_slash name = true /\ 0 <= ns < 65536 /\
  (qualified = true \/
   (ns = 0 /\ match strchr 58 name with
              | Some ((_ :: _) as p, _) => forallb isdigit p = false
              | _ => True
              end)).

Fixpoint path_text (l : list (bool * (Z * bytes))) : bytes :=
  match l with
  | [] => []
  | [q] => segment_text q
  | q :: r => segment_text q ++ [47] ++ path_text r
  end.

(** What Part 4 of OPC UA says a content filter means, for the operators used: the
    first element is the root, an empty filter accepts everything. *)
Record event_view := { of_type : ua_nodeid -> bool; field_value : simple_attribute_operand -> option Z }.

Fixpoint filter_holds (fuel : nat) (els : list filter_element) (e : event_view) (i : Z) : option bool :=
  match fuel, nth_error els (Z.to_nat i) with
  | S k, Some el =>
      match filterOperator el, filterOperands el with
      | OpAnd, [ElementOperand a; ElementOperand b] =>
          do x <- filter_holds k els e a; do y <- filter_holds k els e b; Some (x && y)
      | OpOfType, [LiteralOperand (VtScalar (VNodeId t))] => Some (of_type e t)
      | OpGreaterThanOrEqual, [SimpleAttributeOperand a; LiteralOperand (VtScalar (VUInt16 m))] =>
          Some (match field_value e a with Some s => m <=? s | None => false end)
      | _, _ => None
      end
  | _, _ => None
  end.

Definition filter_accepts (els : list filter_element) (e : event_view) : option bool :=
  match els with [] => Some true | _ => filter_holds (length els) els e 0 end.

(** ** Reading a path back *)

Lemma no_slash_spec s : no_slash s = true <-> ~ In 47 s.
Proof.
  unfold no_slash. rewrite forallb_forall. split; intros H.
  - intros Hin. specialize (H _ Hin). discriminate.
  - intros c Hc. destruct (Z.eqb_spec c 47); [subst; contradiction|reflexivity].
Qed.

Lemma digits_no c n : isdigit c = false -> 0 <= n -> ~ In c (fmt_u n).
Proof.
  intros Hc Hn Hin. destruct (all_digits_fmt n Hn) as [Hd _]. unfold all_digits in Hd. rewrite forallb_forall in Hd.
  specialize (Hd c Hin). congruence.
Qed.

Lemma segment_no_slash q : segment_ok q -> ~ In 47 (segment_text q) /\ segment_text q <> [].
Proof.
  destruct q as [[|] [ns name]]; intros (Hne & Hs & Hn & _); apply no_slash_spec in Hs; cbn [segment_text].
  - split.
    + intros H. apply in_app_or in H as [H|[H|H]]; [|discriminate|contradiction].
      revert H. apply digits_no; [reflexivity|lia].
    + intros E. apply app_eq_nil in E as [_ E]. discriminate.
  - now split.
Qed.

Lemma select_segment_text q rest : segment_ok q -> (rest = [] \/ exists r, rest = 47 :: r) ->
  select_segment (segment_text q ++ rest) (segment_text q) = Some (snd q).
Proof.
  destruct q as [[|] [ns name]]; intros (Hne & Hs & Hn & Hq) Hrest; cbn [segment_text snd]; unfold select_segment.
  - assert (strchr 58 (fmt_u ns ++ [58] ++ name) = Some (fmt_u ns, name)) as ->.
    { apply strchr_app. apply digits_no; [reflexivity|lia]. }
    destruct (all_digits_fmt ns) as [Hd Hne']; [lia|]. destruct (fmt_u ns) as [|c d] eqn:E; [congruence|].
    unfold all_digits in Hd. rewrite Hd, <- E. rewrite <- app_assoc. cbn [app].
    rewrite strtoul_fmt by (first [lia|reflexivity]). cbn [sval].
    destruct (Z.ltb_spec 65535 ns); [lia|]. destruct name; [congruence|]. unfold u16. now rewrite uwrap_small by lia.
  - destruct Hq as [Hq|[-> Hq]]; [discriminate|].
    destruct (strchr 58 name) as [[[|c p] x]|]; [reflexivity| |reflexivity]. now rewrite Hq.
Qed.

Lemma length_slashes a : ~ In 47 a -> filter (fun c => c =? 47) a = [].
Proof.
  intros H. induction a as [|c a IH]; [reflexivity|]. cbn. destruct (Z.eqb_spec c 47); [subst; exfalso; apply H; now left|].
  apply IH. intros Hin. apply H. now right.
Qed.

Lemma select_path_text l : l <> [] -> Forall segment_ok l ->
  length (filter (fun c => c =? 47) (path_text l)) = (length l - 1)%nat /\
  select_segments (length l) (path_text l) = Some (map snd l).
Proof.
  induction l as [|q [|q' l] IH]; intros Hne H; [congruence|..]; inversion H as [|? ? Hq Hl]; subst;
    destruct (segment_no_slash q Hq) as [Hns Hnil].
  - cbn [path_text length]. split; [now rewrite length_slashes|]. cbn [select_segments map].
    rewrite (proj2 (strchr_None 47 _) Hns). destruct (segment_text q) as [|c t] eqn:E; [congruence|].
    pose proof (select_segment_text q [] Hq (or_introl eq_refl)) as Hs. rewrite app_nil_r, E in Hs. now rewrite Hs.
  - destruct IH as [IH1 IH2]; [discriminate|assumption|].
    change (path_text (q :: q' :: l)) with (segment_text q ++ 47 :: path_text (q' :: l)). split.
    + rewrite filter_app, length_app, length_slashes by exact Hns. cbn [filter]. rewrite Z.eqb_refl. cbn [length].
      rewrite IH1. cbn. lia.
    + change (length (q :: q' :: l)) with (S (length (q' :: l))). cbn [select_segments]. rewrite strchr_app by exact Hns.
      pose proof (select_segment_text q (47 :: path_text (q' :: l)) Hq) as Hs. specialize (Hs ltac:(eauto)).
      destruct (segment_text q) as [|c t] eqn:E; [congruence|]. rewrite Hs. cbn [obind]. rewrite IH2. reflexivity.
Qed.

(** * Theorems *)

(** C30: SelectClause paths and WhereClauses.  A path of elements printed as
    ["ns:name/..."] (or bare names) is read back to exactly those elements; and
    the WhereClause that is built from --of-type and --min-severity accepts an
    event exactly when it is of the type and has at least that severity. *)
Theorem event_filter_meaning l ofType minSev e :
  l <> [] -> Forall segment_ok l ->
  hev_parse_select (Some (path_text l))
    = Some {| typeDefinitionId := UA_NODEID_NUMERIC 0 UA_NS0ID_BASEEVENTTYPE;
              browsePath := map snd l; attributeId := UA_ATTRIBUTEID_VALUE |} /\
  filter_accepts (hev_build_where ofType minSev) e
    = Some (match ofType with Some t => of_type e t | None => true end &&
            match minSev with
            | Some m => match field_value e {| typeDefinitionId := UA_NODEID_NUMERIC 0 UA_NS0ID_BASEEVENTTYPE;
                                               browsePath := [(0, B "Severity")];
                                               attributeId := UA_ATTRIBUTEID_VALUE |} with
                        | Some s => m <=? s | None => false end
            | None => true
            end).
Proof.
  intros Hne Hl. split.
  - destruct (select_path_text l Hne Hl) as [Hc Hs]. unfold hev_parse_select.
    assert (path_text l <> []) as Hp.
    { destruct l as [|q [|q' l]]; [congruence|..]; inversion Hl as [|? ? Hq _]; subst;
        destruct (segment_no_slash q Hq) as [_ Hq']; [exact Hq'|].
      cbn [path_text]. intros E. apply app_eq_nil in E as [_ E]. discriminate. }
    destruct (path_text l) as [|c t]; [congruence|]. rewrite Hc.
    replace (S (length l - 1)) with (length l) by (destruct l; cbn; [congruence|lia]). now rewrite Hs.
  - destruct ofType as [t|], minSev as [m|]; try reflexivity; cbn; now rewrite ?andb_true_r.
Qed.

Lemma event_filter_meaning_witness :
  hev_parse_select (Some (B "AckedState/2:Id"))
  = Some {| typeDefinitionId := UA_NODEID_NUMERIC 0 2041; browsePath := [(0, B "AckedState"); (2, B "Id")];
            attributeId := 13 |}.
Proof.
  destruct (event_filter_meaning [(false, (0, B "AckedState")); (true, (2, B "Id"))] None None
    {| of_type := fun _ => true; field_value := fun _ => None |}) as [H _].
  - discriminate.
  - constructor; [|constructor; [|constructor]]; (split; [discriminate|]; split; [reflexivity|]; split; [lia|]).
    + right. split; [reflexivity|]. vm_compute. exact I.
    + now left.
  - exact H.
Defined.

(** The values of --event.  Reading a value always ends, a value that is accepted
    is null or well typed, and the events of an update request have one such
    value per SelectClause. *)
Lemma event_values_typed {stack : UaStack} {cj : CJson} {cjl : CJsonLaws cj} {cpu : Cpu} i sel evs :
  (forall errLen j, exists r, hev_event_value errLen j = Some r) /\
  (exists r, event_rows i sel evs = Some r) /\
  (forall rows, event_rows i sel evs = Some (Ok rows) -> length rows = length evs /\
     Forall (fun row => length row = length sel /\ forallb typed_field row = true) rows).
Proof.
  split; [intros; apply event_value_total|]. split; [apply event_rows_total|]. intros rows. apply event_rows_shape.
Qed.

Section Theorems.
Context {stack : UaStack} {laws : UaStackLaws stack} {cj : CJson} {cjl : CJsonLaws cj} {ct : CJsonText cj}
  {cpu : Cpu} {W : Type} {L : ClientLib W} {libLaws : ClientLibLaws L} {clk : Clock L} {srv : Services W}
  {ev : EventHistory W} {el : EventHistoryLaws ev}.

Lemma ends_input_fail w op msg : Bytes op -> Bytes msg -> ends_reporting op (connected_input_fail w op msg).
Proof.
  intros. eexists _, _, _. split; [reflexivity|]. apply reports_failure.
  apply good_reject; [assumption..|unfold UA_STATUSCODE_BADINVALIDARGUMENT; lia].
Qed.

Lemma Bytes_unknown_namespace s : Bytes s -> Bytes (unknown_namespace s).
Proof. intros. apply Bytes_snprintf. auto using Bytes_cat, Bytes_B. Qed.

Context (Hns : forall w u i, snd (NamespaceGetIndex w u) = Some i -> 0 <= i).

Lemma resolve_nodes_wf nodes : forall w, Forall printable nodes ->
  match snd (resolve_nodes w nodes) with
  | inl ids => Forall (fun n => wf_nodeid n = true) ids
  | inr bad => In bad nodes
  end.
Proof.
  induction nodes as [|s nodes IH]; intros w H; [constructor|]. inversion H as [|? ? Hs Hrest]; subst. cbn [resolve_nodes].
  destruct (resolve_one w s) as [w1 [n| |]] eqn:E; [|now left..].
  apply resolve_one_wf in E; [|exact Hns|exact Hs]. specialize (IH w1 Hrest).
  destruct (resolve_nodes w1 nodes) as [w2 [ids|bad]]; cbn [snd] in *; [now constructor|now right].
Qed.

Lemma read_events_reports w g argv : text_argv argv -> text_args g (B "history-read-events") ->
  Forall printable (flag_values argv (B "--node")) ->
  exists n, forall fuel, (n <= fuel)%nat ->
    ends_reporting (B "history-read-events") (cmd_history_read_events fuel w g argv).
Proof.
  intros Ht Hg Hp. unfold cmd_history_read_events. pose proof (events_args_text argv Ht) as He.
  destruct (parse_events_args argv) as [a|m] eqn:Ea; [|exists O; intros; now apply ends_usage; [apply Bytes_B|]].
  apply (events_args_ok argv a Ht) in Ea as (En & Eo & Hs & Hm).
  apply with_client_reports; [exact Hg|]. intros w1.
  pose proof (resolve_nodes_wf (ea_nodes a) w1) as Hr. rewrite En in Hr |- *. specialize (Hr Hp).
  destruct (resolve_nodes w1 (collect argv (B "--node"))) as [w2 [ids|bad]]; cbn [snd] in Hr.
  - destruct (resolve_of_type w2 (ea_ofType a)) as [w3 [t|]].
    + destruct (ea_scenario a); [now apply send_scenario_reports|now apply send_events_reports].
    + apply ends_input_fail; apply Bytes_B.
  - apply ends_input_fail; [apply Bytes_B|]. apply Bytes_unknown_namespace.
    pose proof (collect_text argv (B "--node") Ht) as Hc. rewrite Forall_forall in Hc. auto.
Qed.

Lemma update_events_reports w g argv : text_argv argv -> text_args g (B "history-update-events") ->
  (forall s, find_arg argv (B "--node") = Some s -> printable s) ->
  exists n, forall fuel, (n <= fuel)%nat ->
    ends_reporting (B "history-update-events") (cmd_history_update_events fuel w g argv).
Proof.
  intros Ht Hg Hp. unfold cmd_history_update_events.
  destruct (update_args_ok argv Ht) as (r & Er & Hr). rewrite Er.
  destruct r as [[[[url node] p] req]|m]; [|exists O; intros; now apply ends_usage; [apply Bytes_B|]].
  assert (find_arg argv (B "--node") = Some node) as En.
  { clear Hr. unfold parse_update_args in Er. destruct (find_arg argv (B "--endpoint")); [|discriminate].
    destruct (find_arg argv (B "--node")) as [nd|]; [|discriminate].
    destruct (find_arg argv (B "--perform")) as [ps|]; [|discriminate].
    destruct (negb (validate_nodeid_structure nd)); [discriminate|].
    destruct (hev_parse_perform (Some ps)) as [[p' del]|]; [|discriminate].
    destruct (del && _); [discriminate|]. destruct (negb del && _); [discriminate|].
    destruct (update_request argv p' del) as [[rq|m]|]; try discriminate. cbn [fbind] in Er. congruence. }
  specialize (Hp _ En). pose proof (find_arg_Bytes _ _ _ Ht En) as Hb.
  apply with_client_reports; [exact Hg|]. intros w1.
  destruct (resolve_one w1 node) as [w2 [n| |]] eqn:E.
  - apply resolve_one_wf in E; [|exact Hns|exact Hp]. now apply send_update_reports.
  - apply ends_input_fail; [apply Bytes_B|now apply Bytes_unknown_namespace].
  - apply ends_input_fail; [apply Bytes_B|now apply Bytes_unknown_namespace].
Qed.
End Theorems.
