(* ===== verification/EventSubscribe.v ===== *)
(** client.c: the [event-subscribe] command.  Events of the monitored node arrive in
    a callback while the client runs its network loop, as maps from field names
    to values; the callback keeps the selected fields of the first 64. *)

From Stdlib Require Import String Ascii ZArith Bool List Lia SpecFloat.
Import ListNotations.
From S2P Require Import Prelude CLib Json Float UaTypes RefStack Base64 Output OutputBuf.
From S2P Require Import CJson Values Args NodeIds Connect Session ReadWrite BrowseCall.
From S2P Require Import Historian HistoryRead HistoryEvents Subscribe.

(** * The event calls of the client *)

(** The EventNotifier attribute, reporting, sampling interval 0, discard oldest. *)
Record event_request := {
  er_node : ua_nodeid; er_queueSize : Z;
  er_select : list simple_attribute_operand; er_where : list filter_element }.

(** UA_KeyValueMap: the names of the keys with their values. *)
Definition event_fields : Type := list (ua_string * ua_variant).

(** [fired_events]: the events handed to the callback during the last call. *)
Class EventSubscriptions (W : Type) := {
  MonitoredItems_createEvent : W -> Z -> event_request -> W * Z;
  fired_events : W -> W * list event_fields;
  nowMonotonic : W -> W * Z
}.

(** * The event store *)

Definition MAX_EVENTS : nat := 64.
Definition MAX_EVENT_FIELDS : nat := 8.

(** [ef_valueJson]: [None] when the buffer has no terminating zero. *)
Record EvField := {
  ef_name : bytes; ef_dataType : bytes; ef_builtInType : Z; ef_valueJson : option bytes }.
Record EvEntry := { sequenceNumber : Z; fields : list EvField }.
(** [count] and [fieldCount] are the lengths. *)
Record EvStore := { ev_entries : list EvEntry; fieldNames : list bytes }.

Definition kFieldNames : list bytes :=
  [B "EventId"; B "EventType"; B "SourceName"; B "Message"; B "Severity"; B "Time"].

Section EventSubscribe.
Context {stack : UaStack} {cj : CJson} {W : Type} {L : ClientLib W} {srv : Services W}
  {sub : Subscriptions W} {evs : EventSubscriptions W}.

(** The name of field [i]: wanted, or the key, or [field<i>]. *)
Definition field_name (want : option bytes) (eventFields : event_fields) (i : nat) : bytes :=
  match want with
  | Some n => firstn 31 n
  | None => match nth_error eventFields i with
            | Some (Some key, _) => cstr (firstn 31 key)
            | _ => snprintf 32 (B "field" ++ fmt_d (Z.of_nat i))
            end
  end.

(** The value of that name, else the one at the same position. *)
Definition field_variant (want : option bytes) (eventFields : event_fields) (i : nat) : option ua_variant :=
  let positional := option_map snd (nth_error eventFields i) in
  match want with
  | Some n => match find (fun p => match fst p with Some key => streq key n | None => false end) eventFields with
              | Some p => Some (snd p)
              | None => positional
              end
  | None => positional
  end.

Definition ev_field (names : list bytes) (eventFields : event_fields) (i : nat) : EvField :=
  let want := match names with [] => None | _ => nth_error names i end in
  let name := field_name want eventFields i in
  match field_variant want eventFields i with
  | Some ((VtScalar _ | VtArray _ _ _) as v) =>
      {| ef_name := name; ef_dataType := firstn 63 (type_name (variant_type v));
         ef_builtInType := ua_type_to_builtin_id (variant_type v);
         ef_valueJson := output_variant_to_buf v 1024 |}
  | _ => {| ef_name := name; ef_dataType := B "Null"; ef_builtInType := 0; ef_valueJson := Some (B "null") |}
  end.

Definition event_notif_cb (store : EvStore) (eventFields : event_fields) : EvStore :=
  if Nat.leb MAX_EVENTS (length (ev_entries store)) then store
  else
    let nWant := match fieldNames store with [] => length eventFields | names => length names end in
    {| ev_entries := ev_entries store ++
         [{| sequenceNumber := Z.of_nat (length (ev_entries store)) + 1;
             fields := map (ev_field (fieldNames store) eventFields) (seq 0 (Nat.min nWant MAX_EVENT_FIELDS)) |}];
       fieldNames := fieldNames store |}.

Definition deliver_events {St} (cb : St -> event_fields -> St) (w : W) (store : St) : W * St :=
  let '(w, l) := fired_events w in (w, fold_left cb l store).

(** [while (!ready) { if (expired(clock)) break; UA_Client_run_iterate(client, iter); }];
    the result says whether the time ran out.  [None]: out of fuel. *)
Fixpoint event_loop {St} (rounds : nat) (cb : St -> event_fields -> St) (ready : St -> bool)
    (clock : W -> W * Z) (expired : Z -> bool) (iter : Z) (w : W) (store : St) : option (W * St * bool) :=
  if ready store then Some (w, store, false)
  else
    match rounds with
    | O => None
    | S k =>
        let '(w, now) := clock w in
        if expired now then Some (w, store, true)
        else
          let '(w, store) := deliver_events cb (Client_run_iterate w iter) store in
          event_loop k cb ready clock expired iter w store
    end.

(** [store.count < nWanted] with the timeout in milliseconds. *)
Definition wait_events (rounds : nat) (nWanted ms start : Z) (w : W) (store : EvStore) : option (W * EvStore * bool) :=
  event_loop rounds event_notif_cb (fun st => nWanted <=? Z.of_nat (length (ev_entries st))) time_s
    (fun now => ms <=? elapsed_ms start now) 100 w store.

(** * The filter *)

Definition base_event_field (name : bytes) : simple_attribute_operand :=
  {| typeDefinitionId := UA_NODEID_NUMERIC 0 UA_NS0ID_BASEEVENTTYPE; browsePath := [(0, name)];
     attributeId := UA_ATTRIBUTEID_VALUE |}.

(** The elements in the order they are appended: the And comes last. *)
Definition event_where (ofType : option ua_nodeid) (minSev : option Z) : list filter_element :=
  match ofType with
  | Some t => [{| filterOperator := OpOfType; filterOperands := [LiteralOperand (VtScalar (VNodeId t))] |}]
  | None => []
  end
  ++ match minSev with
     | Some m => [{| filterOperator := OpGreaterThanOrEqual;
                     filterOperands := [SimpleAttributeOperand (base_event_field (B "Severity"));
                                        LiteralOperand (VtScalar (VUInt16 m))] |}]
     | None => []
     end
  ++ match ofType, minSev with
     | Some _, Some _ => [{| filterOperator := OpAnd; filterOperands := [ElementOperand 0; ElementOperand 1] |}]
     | _, _ => []
     end.

(** [parse_nodeid_local], overwritten by the resolved [nsu=] form when it resolves. *)
Definition event_type_id (w : W) (s : bytes) : W * ua_nodeid :=
  if is_nsu s then
    match resolve_nsu w s with
    | (w, NsuOk n) => (w, n)
    | (w, _) => (w, parse_nodeid_local s)
    end
  else (w, parse_nodeid_local s).

(** A flag with a non-empty value. *)
Definition nonempty_flag (argv : list bytes) (flag : bytes) : option bytes :=
  match find_arg argv flag with Some ((_ :: _) as s) => Some s | _ => None end.

Definition event_where_of (w : W) (argv : list bytes) : W * list filter_element :=
  let minSev := option_map (fun s => u16 (atoi s)) (nonempty_flag argv (B "--min-severity")) in
  match nonempty_flag argv (B "--of-type") with
  | Some s => let '(w, t) := event_type_id w s in (w, event_where (Some t) minSev)
  | None => (w, event_where None minSev)
  end.

(** * cmd_event_subscribe *)

Definition event_usage : bytes :=
  B "usage: event-subscribe --endpoint <url> --node <nodeId> [--events <n>] [--timeout-ms <ms>] [--publishing-interval-ms <ms>] [--queue-size <n>] [--of-type <nodeId>] [--min-severity <n>]".

(** [--events]: 1 by default and for what is not positive, at most 64. *)
Definition events_wanted (argv : list bytes) : Z :=
  let n := match find_arg argv (B "--events") with Some s => atoi s | None => 1 end in
  let n := if n <=? 0 then 1 else n in
  if 64 <? n then 64 else n.

Definition event_queue_size (argv : list bytes) : Z :=
  let n := match find_arg argv (B "--queue-size") with Some s => u32 (atoi s) | None => 10 end in
  if n <? 1 then 1 else n.

Definition ev_field_item (f : EvField) : option bytes :=
  option_map (fun v =>
    J "{'name':'" ++ ef_name f ++ J "','dataType':'" ++ ef_dataType f ++ J "','builtInType':"
    ++ fmt_d (ef_builtInType f) ++ J ",'value':" ++ v ++ J "}") (ef_valueJson f).

Definition ev_entry_item (e : EvEntry) : option bytes :=
  do fs <- mapM ev_field_item (fields e);
  Some (J "{'sequenceNumber':" ++ fmt_d (sequenceNumber e) ++ J ",'fields':" ++ jarray fs ++ J "}").

Definition event_subscribe_item (n : ua_nodeid) (sb : sub_response) (mon_sc : Z) (items : list bytes) : bytes :=
  J "{'nodeId':" ++ output_nodeid n
  ++ J ",'subscriptionId':" ++ fmt_u (sb_id sb)
  ++ J ",'revisedPublishingInterval':" ++ fmt_g 17 (sb_interval sb)
  ++ J ",'monitoredItemStatusCode':" ++ print_status_obj mon_sc
  ++ J ",'selectClauses':" ++ jarray (map (fun f => J "'" ++ f ++ J "'") kFieldNames)
  ++ J ",'events':" ++ jarray items ++ J "}".

Definition run_event_subscription (rounds : nat) (w : W) (argv : list bytes) (n : ua_nodeid) : outcome W :=
  let '(w, sb) := Subscriptions_create w
    {| sr_interval := interval_flag argv (B "--publishing-interval-ms") 500; sr_counts := None |} in
  let svc := sb_serviceResult sb in
  if negb (StatusCode_isGood svc) then
    failed (Client_disconnect w) (fail (B "event-subscribe") 4 svc (B "service") (B "CreateSubscription failed"))
  else
    let nWanted := events_wanted argv in
    let '(w, wh) := event_where_of w argv in
    let '(w, mon_sc) := MonitoredItems_createEvent w (sb_id sb)
      {| er_node := n; er_queueSize := event_queue_size argv; er_select := map base_event_field kFieldNames;
         er_where := wh |} in
    let '(w, store) := deliver_events event_notif_cb w {| ev_entries := []; fieldNames := kFieldNames |} in
    let good := StatusCode_isGood mon_sc in
    match
      (if good then let '(w, start) := time_s w in
                    wait_events rounds nWanted (subscribe_timeout argv) start w store
       else Some (w, store, false))
    with
    | None => NoFuel
    | Some (w, store, timedOut) =>
        match mapM ev_entry_item (ev_entries store) with
        | None => OutOfBounds
        | Some items =>
            Exits (Client_disconnect (Subscriptions_deleteSingle w (sb_id sb)))
              (if timedOut then 7 else if good then 0 else 4)
              (envelope (B "event-subscribe") (good && negb timedOut) (if good then svc else mon_sc)
                 (J ",'results':" ++ jarray [event_subscribe_item n sb mon_sc items]
                  ++ J ",'error':" ++ (if timedOut
                     then J "{'category':'timeout','message':'timeout waiting for events'}" else B "null")))
        end
    end.

Definition cmd_event_subscribe (fuel rounds : nat) (w : W) (g : ClientSecurity) (argv : list bytes) : outcome W :=
  match find_arg argv (B "--endpoint"), find_arg argv (B "--node") with
  | Some endpoint, Some nodeStr =>
      if negb (validate_nodeid_structure nodeStr)
      then usage_error w (B "event-subscribe") (malformed nodeStr)
      else
        with_client fuel w g endpoint 5000 (B "event-subscribe") (fun w =>
        match resolve_one w nodeStr with
        | (w, NsuOk n) => run_event_subscription rounds w argv n
        | (w, _) => unresolved_exit w (B "event-subscribe") (unknown_namespace nodeStr)
        end)
  | _, _ => usage_error w (B "event-subscribe") event_usage
  end.
End EventSubscribe.

(** * Rounds of the network loop *)

Section Rounds.
Context {W : Type} {L : ClientLib W} {evs : EventSubscriptions W}.
Context (clock : W -> W * Z) (expired : Z -> bool) (iter : Z).

(** The time runs out after [k] more rounds. *)
Inductive expires : nat -> W -> Prop :=
| expires_now w : expired (snd (clock w)) = true -> expires 0 w
| expires_later k w :
    expires k (fst (fired_events (Client_run_iterate (fst (clock w)) iter))) -> expires (S k) w.

(** Rounds and the events they deliver. *)
Inductive EventRounds : W -> W -> list event_fields -> Prop :=
| EventRounds_end w : EventRounds w w []
| EventRounds_step w w' l :
    EventRounds (fst (fired_events (Client_run_iterate (fst (clock w)) iter))) w' l ->
    EventRounds w w' (snd (fired_events (Client_run_iterate (fst (clock w)) iter)) ++ l).

(** The same, with the events of each round apart. *)
Inductive EventDeliveries : W -> W -> list (list event_fields) -> Prop :=
| EventDeliveries_end w : EventDeliveries w w []
| EventDeliveries_step w w' ls :
    EventDeliveries (fst (fired_events (Client_run_iterate (fst (clock w)) iter))) w' ls ->
    EventDeliveries w w' (snd (fired_events (Client_run_iterate (fst (clock w)) iter)) :: ls).

Context {St : Type} (cb : St -> event_fields -> St) (ready : St -> bool).

Lemma event_loop_rounds rounds : forall w store w' store' b,
  event_loop rounds cb ready clock expired iter w store = Some (w', store', b) ->
  exists w2 l, EventRounds w w2 l /\ store' = fold_left cb l store /\ (b = false -> ready store' = true) /\
    (b = true -> ready store' = false).
Proof.
  induction rounds as [|k IH]; intros w store w' store' b; cbn [event_loop];
    destruct (ready store) eqn:Er; intros H; try discriminate H.
  1, 2: injection H as <- <- <-; exists w, []; repeat split; [constructor|auto|discriminate].
  pose proof (EventRounds_step w) as Hstep.
  destruct (clock w) as [w1 now]. cbn [fst] in Hstep. destruct (expired now).
  { injection H as <- <- <-. exists w, []. repeat split; [constructor|discriminate|auto]. }
  unfold deliver_events in H. destruct (fired_events (Client_run_iterate w1 iter)) as [w2 l]. cbn [fst snd] in Hstep.
  apply IH in H as (w3 & l' & Hr & -> & Hb). exists w3, (l ++ l'). split; [now apply Hstep|].
  split; [now rewrite fold_left_app|exact Hb].
Qed.

(** A wait that ends in time ends with the first round that makes it ready. *)
Lemma event_loop_stops rounds : forall w store w' store',
  event_loop rounds cb ready clock expired iter w store = Some (w', store', false) ->
  exists ls, EventDeliveries w w' ls /\ store' = fold_left cb (concat ls) store /\ ready store' = true /\
    forall before last, ls = before ++ [last] -> ready (fold_left cb (concat before) store) = false.
Proof.
  induction rounds as [|k IH]; intros w store w' store'; cbn [event_loop];
    destruct (ready store) eqn:Er; intros H; try discriminate H.
  1, 2: injection H as <- <-; exists []; repeat split; [constructor|exact Er|now intros [|] ? [=]].
  pose proof (EventDeliveries_step w) as Hstep.
  destruct (clock w) as [w1 now]. cbn [fst] in Hstep. destruct (expired now); [discriminate|].
  unfold deliver_events in H. destruct (fired_events (Client_run_iterate w1 iter)) as [w2 l]. cbn [fst snd] in Hstep.
  apply IH in H as (ls & Hr & -> & Hb & Hs). exists (l :: ls). split; [now apply Hstep|].
  cbn [concat]. rewrite fold_left_app. repeat split; [exact Hb|].
  intros [|b before] last [= -> Hl]; [exact Er|]. cbn [concat]. rewrite fold_left_app. now apply (Hs before last).
Qed.

Lemma event_loop_ends k w : expires k w -> forall store,
  exists r, forall rounds, (k < rounds)%nat -> event_loop rounds cb ready clock expired iter w store = Some r.
Proof.
  induction 1 as [w Ht|k w Ht IH]; intros store; destruct (ready store) eqn:Er.
  1, 3: exists (w, store, false); intros [|r] Hr; cbn [event_loop]; rewrite Er; reflexivity.
  - exists (fst (clock w), store, true). intros [|r] Hr; [lia|]. cbn [event_loop]. rewrite Er.
    destruct (clock w) as [w1 now]. cbn [fst snd] in *. now rewrite Ht.
  - destruct (clock w) as [w1 now] eqn:Et. cbn [fst] in *. destruct (expired now) eqn:E.
    { exists (w1, store, true). intros [|r] Hr; [lia|]. cbn [event_loop]. now rewrite Er, Et, E. }
    destruct (fired_events (Client_run_iterate w1 iter)) as [w2 l] eqn:Ef. cbn [fst] in *.
    destruct (IH (fold_left cb l store)) as [r Hr]. exists r. intros [|n] Hn; [lia|].
    cbn [event_loop]. unfold deliver_events. rewrite Er, Et, E, Ef. apply Hr. lia.
Qed.
End Rounds.

(** * Laws *)

(** A delivered event: well-formed values that fit the buffers. *)
Definition good_event {stack : UaStack} (e : event_fields) : Prop :=
  Forall (fun p => wf_variant (snd p) = true /\ shown_in 1024 (snd p)) e.

Class EventSubscriptionLaws {stack : UaStack} {W : Type} (L : ClientLib W) (sub : Subscriptions W)
    (evs : EventSubscriptions W) := {
  createEvent_status : forall w i r, 0 <= snd (MonitoredItems_createEvent w i r) < 2 ^ 32;
  fired_events_wf : forall w e, In e (snd (fired_events w)) -> good_event e;
  (** time passes, on the clock of [time] and on the monotonic one *)
  seconds_pass : forall w ms, ms <= 2147483000 ->
    exists k, expires time_s (fun now => ms <=? elapsed_ms (snd (time_s w)) now) 100 k (fst (time_s w));
  monotonic_passes : forall w d, exists k, expires nowMonotonic (fun now => d <=? now) 50 k w
}.

(** * Lemmas *)

Section Lemmas.
Context {stack : UaStack} {laws : UaStackLaws stack}.

(** The entry of event number [i], counted from 0. *)
Definition ev_entry (i : nat) (e : event_fields) : EvEntry :=
  {| sequenceNumber := Z.of_nat i + 1; fields := map (ev_field kFieldNames e) (seq 0 6) |}.

(** The callbacks in sequence keep the first 64 events, numbered from 1. *)
Lemma ev_store_append l : forall store, fieldNames store = kFieldNames ->
  (length (ev_entries store) <= MAX_EVENTS)%nat ->
  let n := length (ev_entries store) in
  ev_entries (fold_left event_notif_cb l store)
    = ev_entries store ++ map (fun p => ev_entry (n + fst p) (snd p)) (combine (seq 0 (MAX_EVENTS - n)) l).
Proof.
  induction l as [|e l IH]; intros store Hn Hs n; cbn [fold_left].
  { destruct (MAX_EVENTS - n)%nat; cbn; now rewrite app_nil_r. }
  unfold event_notif_cb at 2. destruct (Nat.leb_spec MAX_EVENTS (length (ev_entries store))) as [Hf|Hf].
  - rewrite (IH store Hn Hs). fold n. replace (MAX_EVENTS - n)%nat with O by (unfold n; lia). reflexivity.
  - rewrite Hn. set (store' := {| ev_entries := _; fieldNames := _ |}).
    assert (store' = {| ev_entries := ev_entries store ++ [ev_entry n e]; fieldNames := kFieldNames |}) as -> by reflexivity.
    rewrite IH; [|reflexivity|cbn; rewrite length_app; cbn; lia]. cbn [ev_entries]. rewrite length_app. cbn [length]. fold n.
    replace (MAX_EVENTS - n)%nat with (S (MAX_EVENTS - (n + 1))) by lia.
    cbn [seq combine map fst snd]. rewrite <- app_assoc, Nat.add_0_r. cbn [app]. do 2 f_equal.
    rewrite <- seq_shift. apply combine_shift.
Qed.

Lemma ev_store_from_empty l :
  ev_entries (fold_left event_notif_cb l {| ev_entries := []; fieldNames := kFieldNames |})
  = map (fun p => ev_entry (fst p) (snd p)) (combine (seq 0 MAX_EVENTS) l).
Proof. apply (ev_store_append l {| ev_entries := []; fieldNames := kFieldNames |}); [reflexivity|cbn; lia]. Qed.

Lemma field_variant_good want e i v : good_event e -> field_variant want e i = Some v ->
  wf_variant v = true /\ shown_in 1024 v.
Proof.
  intros He. unfold good_event in He. rewrite Forall_forall in He.
  assert (option_map snd (nth_error e i) = Some v -> wf_variant v = true /\ shown_in 1024 v) as Hp.
  { destruct (nth_error e i) as [p|] eqn:E; [|discriminate]. intros H. injection H as <-. apply He. eapply nth_error_In; eauto. }
  unfold field_variant. destruct want as [n|]; [|exact Hp]. destruct (find _ e) as [p|] eqn:E; [|exact Hp].
  intros H. injection H as <-. apply He. now apply find_some in E as [E _].
Qed.

Lemma JValue_ev_field e i : good_event e -> (i < 6)%nat ->
  exists t, ev_field_item (ev_field kFieldNames e i) = Some t /\ JValue t.
Proof.
  intros He Hi. unfold ev_field. set (want := match kFieldNames with [] => None | _ => nth_error kFieldNames i end).
  assert (JBody (field_name want e i)) as Hn.
  { unfold want. do 6 (destruct i as [|i]; [cbn -[B]; jbody|]). lia. }
  assert (exists t, ev_field_item {| ef_name := field_name want e i; ef_dataType := B "Null"; ef_builtInType := 0;
    ef_valueJson := Some (B "null") |} = Some t /\ JValue t) as Hnull.
  { eexists. split; [reflexivity|]. cbn [ef_name ef_dataType ef_builtInType]. pose proof (JValue_d 0). jvalue. }
  destruct (field_variant want e i) as [v|] eqn:Ev; [|exact Hnull].
  destruct (field_variant_good _ _ _ _ He Ev) as [Hw Hs]. destruct (shown_json 1024 v ltac:(lia) Hw Hs) as (t & Et & Ht).
  assert (JBody (firstn 63 (type_name (variant_type v)))) by apply JBody_firstn_plain, type_name_plain.
  pose proof (JValue_d (ua_type_to_builtin_id (variant_type v))).
  destruct v as [|v|ty l d]; [exact Hnull|..]; unfold ev_field_item;
    cbn [ef_valueJson ef_name ef_dataType ef_builtInType]; rewrite Et; eexists; (split; [reflexivity|]); jvalue.
Qed.

Lemma JValue_ev_entry i e : good_event e -> exists t, ev_entry_item (ev_entry i e) = Some t /\ JValue t.
Proof.
  intros He. destruct (mapM_total ev_field_item JValue (fields (ev_entry i e))) as (fs & E & Hf & _).
  - apply Forall_map, Forall_forall. intros j Hj. apply in_seq in Hj. apply JValue_ev_field; [exact He|lia].
  - unfold ev_entry_item. rewrite E. eexists. split; [reflexivity|].
    pose proof (JValue_array _ Hf). pose proof (JValue_d (sequenceNumber (ev_entry i e))). jvalue.
Qed.

Lemma ev_items l : Forall good_event l -> exists items,
  mapM ev_entry_item (ev_entries (fold_left event_notif_cb l {| ev_entries := []; fieldNames := kFieldNames |}))
    = Some items /\ Forall JValue items.
Proof.
  intros Hl. destruct (mapM_total ev_entry_item JValue
    (ev_entries (fold_left event_notif_cb l {| ev_entries := []; fieldNames := kFieldNames |}))) as (items & E & Hj & _).
  - rewrite ev_store_from_empty. apply Forall_map, Forall_forall. intros [i e] Hp.
    apply in_combine_r in Hp. rewrite Forall_forall in Hl. now apply JValue_ev_entry, Hl.
  - eauto.
Qed.

(** With both flags the first element, which Part 4 makes the root of the filter, is
    the type test: the And that would also test the severity is never reached. *)
Lemma event_where_drops_severity t m e :
  filter_accepts (event_where (Some t) (Some m)) e = Some (of_type e t) /\
  (exists v, filter_accepts (hev_build_where (Some t) (Some m)) v <> filter_accepts (event_where (Some t) (Some m)) v).
Proof.
  split; [reflexivity|]. exists {| of_type := fun _ => true; field_value := fun _ => None |}. discriminate.
Qed.
End Lemmas.

Section Reports.
Context {stack : UaStack} {laws : UaStackLaws stack} {cj : CJson} {W : Type} {L : ClientLib W}
  {libLaws : ClientLibLaws L} {clk : Clock L} {srv : Services W} {sub : Subscriptions W}
  {subLaws : SubscriptionLaws L sub} {evs : EventSubscriptions W} {evLaws : EventSubscriptionLaws L sub evs}.

Lemma fired_good w : Forall good_event (snd (fired_events w)).
Proof. apply Forall_forall. intros e. apply fired_events_wf. Qed.

Lemma event_rounds_good clock iter w w' l : EventRounds clock iter w w' l -> Forall good_event l.
Proof. induction 1 as [|w w' l _ IH]; [constructor|]. apply Forall_app; split; [apply fired_good|exact IH]. Qed.

Lemma JRest_item item err : JValue item -> JValue err ->
  JRest (J ",'results':" ++ jarray [item] ++ J ",'error':" ++ err).
Proof.
  intros Hi He. split; [reflexivity|].
  assert (JValue (jarray [item])) by (apply JValue_array; repeat constructor; assumption).
  change output_end with [125; 10]. jwalk.
Qed.

Lemma run_event_subscription_reports w argv n : wf_nodeid n = true -> subscribe_timeout argv <= 2147483000 ->
  exists p, forall rounds, (p <= rounds)%nat ->
    ends_reporting (B "event-subscribe") (run_event_subscription rounds w argv n).
Proof.
  intros Hn Ht. unfold run_event_subscription.
  set (r0 := {| sr_interval := _; sr_counts := _ |}). destruct (create_wf w r0) as (H1 & H2 & H3 & _).
  destruct (Subscriptions_create w r0) as [w1 sb]. cbn [snd] in *.
  destruct (StatusCode_isGood (sb_serviceResult sb)) eqn:Eg; cbn [negb].
  2:{ exists O. intros _ _. apply ends_failed; [apply Bytes_B..|lia|cbn; tauto]. }
  destruct (event_where_of w1 argv) as [w2 wh]. set (req := {| er_node := n; er_queueSize := _; er_select := _; er_where := _ |}).
  pose proof (createEvent_status w2 (sb_id sb) req) as Hm.
  destruct (MonitoredItems_createEvent w2 (sb_id sb) req) as [w3 mon]. cbn [snd] in Hm.
  unfold deliver_events. pose proof (fired_good w3) as Hl0. destruct (fired_events w3) as [w4 l0]. cbn [snd] in Hl0.
  set (empty := {| ev_entries := []; fieldNames := kFieldNames |}).
  assert (exists p w5 l b, forall rounds, (p <= rounds)%nat ->
    (if StatusCode_isGood mon
     then let '(w, start) := time_s w4 in
          wait_events rounds (events_wanted argv) (subscribe_timeout argv) start w (fold_left event_notif_cb l0 empty)
     else Some (w4, fold_left event_notif_cb l0 empty, false))
    = Some (w5, fold_left event_notif_cb (l0 ++ l) empty, b) /\ Forall good_event l) as (p & w5 & l & b & Hp).
  { destruct (StatusCode_isGood mon).
    2:{ exists O, w4, [], false. intros. rewrite app_nil_r. split; [reflexivity|constructor]. }
    destruct (seconds_pass w4 (subscribe_timeout argv) Ht) as [k Hk].
    destruct (time_s w4) as [w5 start]. cbn [fst snd] in Hk. unfold wait_events.
    set (ready := fun st : EvStore => _).
    destruct (event_loop_ends _ _ _ event_notif_cb ready k w5 Hk (fold_left event_notif_cb l0 empty)) as [[[w6 st] b] Hr].
    pose proof (Hr (S k) ltac:(lia)) as E. apply event_loop_rounds in E as (w7 & l & Hrd & -> & _).
    exists (S k), w6, l, b. intros rounds Hge. rewrite Hr by lia. rewrite fold_left_app. split; [reflexivity|].
    eapply event_rounds_good; eauto. }
  exists p. intros rounds Hge. destruct (Hp rounds Hge) as [-> Hl].
  destruct (ev_items (l0 ++ l)) as (items & Ei & Hj); [now apply Forall_app|]. fold empty in Ei. rewrite Ei.
  eexists _, _, _. split; [reflexivity|]. apply reports_envelope; [apply Bytes_B| | | |].
  - destruct (StatusCode_isGood mon); lia.
  - apply JRest_item; [|destruct b; [jvalue|apply JValue_null]]. unfold event_subscribe_item.
    pose proof (JValue_nodeid n Hn) as J1. change (print_ua_nodeid n) with (output_nodeid n) in J1.
    pose proof (JValue_g 17 (sb_interval sb) ltac:(lia) H3). pose proof (JValue_status mon ltac:(lia)).
    pose proof (JValue_u (sb_id sb) ltac:(lia)). pose proof (JValue_array _ Hj).
    assert (JValue (jarray (map (fun f => J "'" ++ f ++ J "'") kFieldNames))).
    { apply JValue_array, Forall_map. repeat apply Forall_cons; try apply Forall_nil; jvalue. }
    jvalue.
  - destruct b, (StatusCode_isGood mon); cbn; tauto.
  - destruct b, (StatusCode_isGood mon); reflexivity.
Qed.

(** event-subscribe always ends, by its events or by its timeout, with one JSON
    envelope that agrees with the exit code. *)
Lemma event_subscribe_reports w g argv : text_argv argv -> text_args g (B "event-subscribe") ->
  (forall s, find_arg argv (B "--node") = Some s -> printable s) ->
  (forall w u i, snd (NamespaceGetIndex w u) = Some i -> 0 <= i) -> subscribe_timeout argv <= 2147483000 ->
  exists n, forall fuel, (n <= fuel)%nat -> exists p, forall rounds, (p <= rounds)%nat ->
    ends_reporting (B "event-subscribe") (cmd_event_subscribe fuel rounds w g argv).
Proof.
  intros Ht Hg Hp Hns Hms. unfold cmd_event_subscribe.
  assert (forall msg, Bytes msg -> exists n, forall fuel, (n <= fuel)%nat -> exists p, forall rounds, (p <= rounds)%nat ->
    ends_reporting (B "event-subscribe") (usage_error w (B "event-subscribe") msg)) as Hu
    by (intros msg Hm; exists O; intros; exists O; intros; apply ends_usage; [apply Bytes_B|exact Hm]).
  destruct (find_arg argv (B "--endpoint")) as [url|]; [|apply Hu, Bytes_B].
  destruct (find_arg argv (B "--node")) as [s|] eqn:Es; [|apply Hu, Bytes_B].
  pose proof (find_arg_Bytes _ _ _ Ht Es) as Hb. specialize (Hp s eq_refl).
  destruct (negb _); [now apply Hu, Bytes_malformed|].
  apply with_client_rounds; [exact Hg|]. intros w1.
  destruct (resolve_one w1 s) as [w2 [i| |]] eqn:Er.
  2, 3: exists O; intros; apply ends_unresolved; [apply Bytes_B|now apply Bytes_unknown_namespace].
  apply resolve_one_wf in Er; [|exact Hns|exact Hp]. now apply run_event_subscription_reports.
Qed.
End Reports.

(** * Theorem *)

(** What --events asks for; 1 without the flag. *)
Definition events_asked (argv : list bytes) : Z :=
  match find_arg argv (B "--events") with Some s => atoi s | None => 1 end.

Lemma events_wanted_asked argv : 1 <= events_asked argv <= Z.of_nat MAX_EVENTS -> events_wanted argv = events_asked argv.
Proof.
  unfold events_asked, events_wanted, MAX_EVENTS. intros H. destruct (find_arg argv (B "--events")) as [s|]; [|reflexivity].
  destruct (Z.leb_spec (atoi s) 0); [lia|]. destruct (Z.ltb_spec 64 (atoi s)); [lia|reflexivity].
Qed.

(** C29: exit code 0 of event-subscribe, for a --events of 1 to 64: subscription and
    monitored item are Good, and what is printed are the events the server delivered
    while the command waited (at most the first 64), in order and numbered from 1,
    each with the six BaseEvent fields, at least as many as asked for; before the last
    round of the network loop there were fewer, and there are exactly as many when no
    round delivers more than one. *)
Theorem event_subscribe_exit_zero {stack : UaStack} {cj : CJson} {W} {L : ClientLib W} {srv : Services W}
    {sub : Subscriptions W} {evs : EventSubscriptions W} fuel rounds w g argv w' out :
  1 <= events_asked argv <= Z.of_nat MAX_EVENTS ->
  cmd_event_subscribe fuel rounds w g argv = Exits w' 0 out ->
  exists n sb mon_sc w2 w3 first later items,
    let delivered := concat (first :: later) in
    let shown := combine (seq 0 MAX_EVENTS) delivered in
    StatusCode_isGood (sb_serviceResult sb) = true /\ StatusCode_isGood mon_sc = true /\
    first = snd (fired_events w2) /\ EventDeliveries time_s 100 (fst (time_s (fst (fired_events w2)))) w3 later /\
    events_asked argv <= Z.of_nat (length delivered) /\
    (forall before last, later = before ++ [last] -> Z.of_nat (length (concat (first :: before))) < events_asked argv) /\
    (Forall (fun l => (length l <= 1)%nat) (first :: later) -> Z.of_nat (length items) = events_asked argv) /\
    mapM (fun p => ev_entry_item (ev_entry (fst p) (snd p))) shown = Some items /\
    out = envelope (B "event-subscribe") true (sb_serviceResult sb)
            (J ",'results':" ++ jarray [event_subscribe_item n sb mon_sc items] ++ J ",'error':null").
Proof.
  intros Ha. unfold cmd_event_subscribe. destruct (find_arg argv (B "--endpoint")) as [url|]; [|discriminate].
  destruct (find_arg argv (B "--node")) as [s|]; [|discriminate]. destruct (negb _); [discriminate|]. unfold with_client.
  destruct (make_client _ _ _ _ _ _) as [[w0 [cfg|f]]|] eqn:Em; [| |discriminate].
  2:{ unfold failed. intros H. injection H as _ H _. apply make_client_exit in Em. rewrite H in Em. cbn in Em. lia. }
  destruct (resolve_one w0 s) as [w1 [n| |]]; [|discriminate..]. unfold run_event_subscription. rewrite (events_wanted_asked argv Ha).
  destruct (Subscriptions_create _ _) as [wa sb]. destruct (StatusCode_isGood (sb_serviceResult sb)) eqn:Es; [cbn [negb]|discriminate].
  destruct (event_where_of wa argv) as [wq wh].
  destruct (MonitoredItems_createEvent _ _ _) as [w2 mon]. unfold deliver_events.
  destruct (fired_events w2) as [wb l0] eqn:Ef. destruct (StatusCode_isGood mon) eqn:Eg.
  2:{ destruct (mapM _ _); discriminate. }
  destruct (time_s wb) as [wc start] eqn:Et. destruct (wait_events _ _ _ _ _ _) as [[[w4 st] b]|] eqn:Ew; [|discriminate].
  destruct (mapM ev_entry_item (ev_entries st)) as [items|] eqn:Ei; [|discriminate]. destruct b; [discriminate|].
  intros H. injection H as <- <-. apply event_loop_stops in Ew as (ls & Hr & -> & Hready & Hs).
  cbn beta in Hready. apply Z.leb_le in Hready. rewrite <- fold_left_app in Hready, Ei. rewrite ev_store_from_empty in Hready, Ei.
  assert (forall before last, ls = before ++ [last] -> Z.of_nat (length (l0 ++ concat before)) < events_asked argv) as Hstop.
  { intros before last E. specialize (Hs before last E). cbn beta in Hs. apply Z.leb_gt in Hs.
    rewrite <- fold_left_app, ev_store_from_empty, length_map, length_combine, length_seq in Hs. unfold MAX_EVENTS in *. lia. }
  rewrite length_map, length_combine, length_seq in Hready.
  exists n, sb, mon, w2, w4, l0, ls, items. rewrite Ef. cbn [fst snd concat]. cbv zeta. rewrite Et. cbn [fst].
  assert (mapM (fun p => ev_entry_item (ev_entry (fst p) (snd p))) (combine (seq 0 MAX_EVENTS) (l0 ++ concat ls)) = Some items)
    as Hm by (rewrite <- Ei; symmetry; apply mapM_map).
  repeat (split; [assumption || reflexivity|]). split; [lia|]. split; [exact Hstop|]. split; [|split; [exact Hm|reflexivity]].
  intros Ho. apply mapM_length in Hm. rewrite Hm, length_combine, length_seq.
  assert (length (concat (l0 :: ls)) = Z.to_nat (events_asked argv)) as Hc.
  { apply stop_exact; [lia|exact Ho|cbn [concat]; lia|].
    intros [|x before] last [= -> E] Hne; [contradiction|]. specialize (Hstop before last E). cbn [concat]. lia. }
  cbn [concat] in Hc. rewrite Hc. unfold MAX_EVENTS in *. lia.
Qed.

(** A server that delivers two events per call: one with all the fields, one empty. *)
#[export] Instance ref_event_subscriptions : EventSubscriptions Z := {
  MonitoredItems_createEvent w _ _ := (w, UA_STATUSCODE_GOOD);
  fired_events w := (w, [[(Some (B "Severity"), VtScalar (VBoolean true))]; []]);
  nowMonotonic w := (w, w * 10000) }.

Lemma ref_expires clock expired iter k : forall w, (forall w, fst (clock w) = w) ->
  expired (snd (clock (w + 20 * Z.of_nat k))) = true ->
  expires (L := ref_client) (evs := ref_event_subscriptions) clock expired iter k w.
Proof.
  induction k as [|k IH]; intros w Hc H.
  - constructor. now rewrite Z.mul_0_r, Z.add_0_r in H.
  - constructor. rewrite Hc. cbn [Client_run_iterate ref_client fired_events ref_event_subscriptions fst].
    apply IH; [exact Hc|]. replace (w + 20 + 20 * Z.of_nat k) with (w + 20 * Z.of_nat (S k)) by lia. exact H.
Qed.

#[export] Instance ref_event_subscription_laws :
  EventSubscriptionLaws ref_client ref_subscriptions ref_event_subscriptions.
Proof.
  split.
  - intros. cbn. unfold UA_STATUSCODE_GOOD. lia.
  - intros w e [<-|[<-|[]]]; [|constructor]. constructor; [|constructor]. split; [reflexivity|]. left.
    split; [reflexivity|]. split; [vm_compute; lia|exact I].
  - intros w ms Hms. set (c := Z.max 0 ((ms + 999) / 1000)). exists (Z.to_nat (50 * c)).
    cbn [time_s ref_subscriptions fst snd]. apply ref_expires; [reflexivity|].
    assert (0 <= c) by lia. rewrite Z2Nat.id by lia. cbn [time_s ref_subscriptions snd].
    replace (w + 20 * (50 * c)) with (w + c * 1000) by lia. rewrite Z.div_add by lia.
    pose proof (Z.div_mod (ms + 999) 1000 ltac:(lia)). pose proof (Z.mod_pos_bound (ms + 999) 1000 ltac:(lia)).
    unfold elapsed_ms. replace ((w / 1000 + c - w / 1000) * 1000) with (c * 1000) by lia.
    destruct (Z.leb_spec (- 2 ^ 31) (c * 1000)); [|lia]. destruct (Z.ltb_spec (c * 1000) (2 ^ 31)); [|lia].
    cbn [andb]. apply Z.leb_le. lia.
  - intros w d. exists (Z.to_nat (Z.abs d + Z.abs w)). apply ref_expires; [reflexivity|].
    cbn [nowMonotonic ref_event_subscriptions snd]. apply Z.leb_le. rewrite Z2Nat.id by lia. lia.
Qed.

Definition event_argv : list bytes :=
  [B "event-subscribe"; B "--endpoint"; B "opc.tcp://s"; B "--node"; B "i=2253"; B "--events"; B "3"].

Lemma event_subscribe_exit_zero_witness : exists w' out items,
  cmd_event_subscribe 5 9 0 g_sec_default event_argv = Exits w' 0 out /\ (3 <= length items)%nat /\
  exists n sb sc, out = envelope (B "event-subscribe") true (sb_serviceResult sb)
    (J ",'results':" ++ jarray [event_subscribe_item n sb sc items] ++ J ",'error':null").
Proof.
  destruct (cmd_event_subscribe 5 9 0 g_sec_default event_argv) as [w' code out| |] eqn:E;
    [|vm_compute in E; discriminate..].
  assert (code = 0) as -> by (vm_compute in E; congruence).
  destruct (event_subscribe_exit_zero 5 9 0 g_sec_default event_argv w' out ltac:(vm_compute; split; discriminate) E)
    as (n & sb & sc & w2 & w3 & first & later & items & _ & _ & _ & _ & Hn & _ & _ & Hi & Ho).
  exists w', out, items. split; [reflexivity|]. split.
  - apply mapM_length in Hi. rewrite Hi, length_combine, length_seq. change (events_asked event_argv) with 3 in Hn.
    unfold MAX_EVENTS. lia.
  - now exists n, sb, sc.
Defined.

(** A request above 64 is capped in silence: exit 0 with fewer events than asked for. *)
Lemma events_capped argv n : events_asked argv = n -> 64 < n -> events_wanted argv = 64.
Proof.
  unfold events_asked, events_wanted. intros H Hn. destruct (find_arg argv (B "--events")) as [s|]; [|lia].
  rewrite H. destruct (Z.leb_spec n 0); [lia|]. destruct (Z.ltb_spec 64 n); [reflexivity|lia].
Qed.
