(* ===== verification/Alarms.v ===== *)
(** client.c: the [alarms] command.  It monitors a node's events, asks for a
    ConditionRefresh, keeps the refreshed conditions, and acknowledges, confirms
    or comments one of them, waiting for the event that shows the effect. *)

From Stdlib Require Import String Ascii ZArith Bool List Lia SpecFloat.
Import ListNotations.
From S2P Require Import Prelude CLib Json Float UaTypes RefStack Base64 Output OutputBuf.
From S2P Require Import CJson Values Args NodeIds Connect Session ReadWrite BrowseCall.
From S2P Require Import Historian HistoryRead HistoryEvents Subscribe EventSubscribe.

Definition AL_NF : nat := 16.
Definition AL_MAX_EVS : nat := 1024.
Definition AL_MAX_CONDS : nat := 64.

(** ** Standard NodeIds *)

Definition UA_NS0ID_CONDITIONTYPE : Z := 2782.
Definition UA_NS0ID_REFRESHSTARTEVENTTYPE : Z := 2787.
Definition UA_NS0ID_REFRESHENDEVENTTYPE : Z := 2788.
Definition UA_NS0ID_ACKNOWLEDGEABLECONDITIONTYPE : Z := 2881.
Definition UA_NS0ID_ALARMCONDITIONTYPE : Z := 2915.
Definition UA_NS0ID_CONDITIONTYPE_CONDITIONREFRESH : Z := 3875.
Definition UA_NS0ID_CONDITIONTYPE_ADDCOMMENT : Z := 9029.
Definition UA_NS0ID_ACKNOWLEDGEABLECONDITIONTYPE_ACKNOWLEDGE : Z := 9111.
Definition UA_NS0ID_ACKNOWLEDGEABLECONDITIONTYPE_CONFIRM : Z := 9113.
Definition UA_ATTRIBUTEID_NODEID : Z := 1.

Definition kAlSelect : list (Z * option bytes * option bytes) :=
  [(UA_NS0ID_BASEEVENTTYPE, Some (B "EventId"), None);
   (UA_NS0ID_BASEEVENTTYPE, Some (B "EventType"), None);
   (UA_NS0ID_BASEEVENTTYPE, Some (B "SourceNode"), None);
   (UA_NS0ID_BASEEVENTTYPE, Some (B "SourceName"), None);
   (UA_NS0ID_BASEEVENTTYPE, Some (B "Time"), None);
   (UA_NS0ID_BASEEVENTTYPE, Some (B "Message"), None);
   (UA_NS0ID_BASEEVENTTYPE, Some (B "Severity"), None);
   (UA_NS0ID_CONDITIONTYPE, Some (B "ConditionName"), None);
   (UA_NS0ID_CONDITIONTYPE, Some (B "BranchId"), None);
   (UA_NS0ID_CONDITIONTYPE, Some (B "Retain"), None);
   (UA_NS0ID_CONDITIONTYPE, Some (B "EnabledState"), Some (B "Id"));
   (UA_NS0ID_CONDITIONTYPE, Some (B "Comment"), None);
   (UA_NS0ID_ACKNOWLEDGEABLECONDITIONTYPE, Some (B "AckedState"), Some (B "Id"));
   (UA_NS0ID_ACKNOWLEDGEABLECONDITIONTYPE, Some (B "ConfirmedState"), Some (B "Id"));
   (UA_NS0ID_ALARMCONDITIONTYPE, Some (B "ActiveState"), Some (B "Id"));
   (UA_NS0ID_CONDITIONTYPE, None, None)].

Definition al_select (s : Z * option bytes * option bytes) : simple_attribute_operand :=
  let '(type, p0, p1) := s in
  {| typeDefinitionId := UA_NODEID_NUMERIC 0 type;
     browsePath := match p0 with
                   | Some p => (0, p) :: match p1 with Some q => [(0, q)] | None => [] end
                   | None => []
                   end;
     attributeId := match p0 with Some _ => UA_ATTRIBUTEID_VALUE | None => UA_ATTRIBUTEID_NODEID end |}.

Definition AL_EVENTID : nat := 0.
Definition AL_EVENTTYPE : nat := 1.
Definition AL_SOURCENODE : nat := 2.
Definition AL_SOURCENAME : nat := 3.
Definition AL_TIME : nat := 4.
Definition AL_MESSAGE : nat := 5.
Definition AL_SEVERITY : nat := 6.
Definition AL_CONDNAME : nat := 7.
Definition AL_RETAIN : nat := 9.
Definition AL_ENABLED : nat := 10.
Definition AL_COMMENT : nat := 11.
Definition AL_ACKED : nat := 12.
Definition AL_CONFIRMED : nat := 13.
Definition AL_ACTIVE : nat := 14.
Definition AL_CONDID : nat := 15.

(** * The store *)

(** The [AL_NF] fields in SelectClause order. *)
Definition AlEvent : Type := list ua_variant.

(** [n] and [nConds] are the lengths. *)
Record AlStore := {
  evs : list AlEvent; phase : Z; startSeen : bool; endSeen : bool; conds : list nat }.

Definition al_v (e : AlEvent) (i : nat) : ua_variant := nth i e VtEmpty.

Definition al_nodeid (v : ua_variant) : option ua_nodeid :=
  match v with VtScalar (VNodeId n) => Some n | _ => None end.

Definition al_bool (v : ua_variant) : option bool :=
  match v with VtScalar (VBoolean b) => Some b | _ => None end.

Definition al_text (v : ua_variant) : option ua_string :=
  match v with
  | VtScalar (VLocalizedText _ text) => Some text
  | VtScalar (VString s) => Some s
  | _ => None
  end.

Definition al_text_eq (t : option ua_string) (s : bytes) : bool :=
  match t with Some t => streq (default [] t) s | None => false end.

(** The ConditionId of an event of the store. *)
Definition event_cid (e : AlEvent) : option ua_nodeid := al_nodeid (al_v e AL_CONDID).

Section Store.
Context {nid : NodeIdOps}.

Definition same_condition (e : option AlEvent) (cid : ua_nodeid) : bool :=
  match e with
  | Some e => match event_cid e with Some o => NodeId_equal o cid | None => false end
  | None => false
  end.

(** The first index of the condition replaced; [None] when it is not there. *)
Fixpoint put_cond (evs : list AlEvent) (cid : ua_nodeid) (idx : nat) (conds : list nat) : option (list nat) :=
  match conds with
  | [] => None
  | i :: r => if same_condition (nth_error evs i) cid then Some (idx :: r)
              else option_map (cons i) (put_cond evs cid idx r)
  end.

(** Replaced, or appended while there is room. *)
Definition push_cond (l : list AlEvent) (cid : ua_nodeid) (idx : nat) (cs : list nat) : list nat :=
  match put_cond l cid idx cs with
  | Some c => c
  | None => if Nat.ltb (length cs) AL_MAX_CONDS then cs ++ [idx] else cs
  end.

Definition refresh_event (e : event_fields) (type : Z) : bool :=
  match al_nodeid (default VtEmpty (option_map snd (nth_error e AL_EVENTTYPE))) with
  | Some n => (namespaceIndex n =? 0) && match identifier n with IdNumeric k => k =? type | _ => false end
  | None => false
  end.

Definition set_refresh (st : AlStore) (ph : Z) (s e : bool) : AlStore :=
  {| evs := evs st; phase := ph; startSeen := s; endSeen := e; conds := conds st |}.

Definition alarm_notif_cb (st : AlStore) (eventFields : event_fields) : AlStore :=
  if Nat.ltb (length eventFields) AL_NF then st
  else if refresh_event eventFields UA_NS0ID_REFRESHSTARTEVENTTYPE then
    (if phase st =? 1 then set_refresh st (phase st) true (endSeen st) else st)
  else if refresh_event eventFields UA_NS0ID_REFRESHENDEVENTTYPE then
    (if phase st =? 1 then set_refresh st 2 (startSeen st) true else st)
  else
    let e := map snd (firstn AL_NF eventFields) in
    match event_cid e with
    | None => st
    | Some cid =>
        if NodeId_isNull cid || Nat.leb AL_MAX_EVS (length (evs st)) then st
        else
          let idx := length (evs st) in
          let evs' := evs st ++ [e] in
          {| evs := evs'; phase := phase st; startSeen := startSeen st; endSeen := endSeen st;
             conds := if phase st =? 1 then push_cond evs' cid idx (conds st) else conds st |}
    end.

(** The last index below [i] with the condition. *)
Fixpoint al_latest_below (evs : list AlEvent) (cid : ua_nodeid) (i : nat) : option nat :=
  match i with
  | O => None
  | S k => if same_condition (nth_error evs k) cid then Some k else al_latest_below evs cid k
  end.
Definition al_latest (st : AlStore) (cid : ua_nodeid) : option nat := al_latest_below (evs st) cid (length (evs st)).

Inductive AlWant := AL_WANT_ACKED | AL_WANT_CONFIRMED | AL_WANT_COMMENT.

Definition shows_effect (e : AlEvent) (want : AlWant) (comment : bytes) : bool :=
  match want with
  | AL_WANT_ACKED => match al_bool (al_v e AL_ACKED) with Some b => b | None => false end
  | AL_WANT_CONFIRMED => match al_bool (al_v e AL_CONFIRMED) with Some b => b | None => false end
  | AL_WANT_COMMENT => al_text_eq (al_text (al_v e AL_COMMENT)) comment
  end.

(** The first index from [from] on whose event is of the condition and shows the effect. *)
Fixpoint find_from (p : AlEvent -> bool) (from : nat) (l : list AlEvent) : option nat :=
  match l with
  | [] => None
  | e :: r => match from with
              | O => if p e then Some O else option_map S (find_from p O r)
              | S k => option_map S (find_from p k r)
              end
  end.

Definition al_find_followup (st : AlStore) (cid : ua_nodeid) (from : nat) (want : AlWant) (comment : bytes) : option nat :=
  find_from (fun e => same_condition (Some e) cid && shows_effect e want comment) from (evs st).
End Store.

(** * Printing *)

Section Printing.
Context {stack : UaStack}.

Definition al_print_nodeid (v : ua_variant) : bytes :=
  match al_nodeid v with Some n => output_nodeid n | None => B "null" end.

Definition al_print_bool (v : ua_variant) : bytes :=
  match al_bool v with Some b => bool_text b | None => B "null" end.

Definition al_print_text (v : ua_variant) (type : ua_type) : bytes :=
  match scalar_of type v with
  | Some _ => match al_text v with Some t => output_json_string_len t | None => B "null" end
  | None => B "null"
  end.

Definition al_print_scalar (v : ua_variant) (type : ua_type) : bytes :=
  match scalar_of type v with Some x => output_ua_scalar x | None => B "null" end.

Definition al_print_entry (e : option AlEvent) : bytes :=
  match e with
  | None => B "null"
  | Some e =>
      J "{'conditionId':" ++ al_print_nodeid (al_v e AL_CONDID)
      ++ J ",'eventId':" ++ al_print_scalar (al_v e AL_EVENTID) TByteString
      ++ J ",'eventType':" ++ al_print_nodeid (al_v e AL_EVENTTYPE)
      ++ J ",'sourceNode':" ++ al_print_nodeid (al_v e AL_SOURCENODE)
      ++ J ",'sourceName':" ++ al_print_text (al_v e AL_SOURCENAME) TString
      ++ J ",'conditionName':" ++ al_print_text (al_v e AL_CONDNAME) TString
      ++ J ",'time':" ++ al_print_scalar (al_v e AL_TIME) TDateTime
      ++ J ",'message':" ++ al_print_text (al_v e AL_MESSAGE) TLocalizedText
      ++ J ",'severity':" ++ match al_v e AL_SEVERITY with VtScalar (VUInt16 z) => fmt_u z | _ => B "null" end
      ++ J ",'retain':" ++ al_print_bool (al_v e AL_RETAIN)
      ++ J ",'enabled':" ++ al_print_bool (al_v e AL_ENABLED)
      ++ J ",'acked':" ++ al_print_bool (al_v e AL_ACKED)
      ++ J ",'confirmed':" ++ al_print_bool (al_v e AL_CONFIRMED)
      ++ J ",'active':" ++ al_print_bool (al_v e AL_ACTIVE)
      ++ J ",'comment':" ++ al_print_text (al_v e AL_COMMENT) TLocalizedText ++ J "}"
  end.

(** An action that was called: its status, the follow-up event, the repeated call. *)
Record AlAction := { ac_sc : Z; ac_event : option nat; ac_repeat : option Z }.

(** [None]: an index past the events. *)
Definition entry_at (st : AlStore) (i : nat) : option bytes :=
  option_map (fun e => al_print_entry (Some e)) (nth_error (evs st) i).

Definition entry_opt (st : AlStore) (i : option nat) : option bytes :=
  match i with Some i => entry_at st i | None => Some (al_print_entry None) end.

Definition al_print_action (key : string) (a : option AlAction) (st : AlStore) (withRepeat : bool) : option bytes :=
  match a with
  | None => Some (J ",'" ++ B key ++ J "':null")
  | Some a =>
      do e <- entry_opt st (ac_event a);
      Some (J ",'" ++ B key ++ J "':{'statusCode':" ++ print_status_obj (ac_sc a) ++ J ",'event':" ++ e
        ++ (if withRepeat then
              J ",'repeatStatusCode':" ++ match ac_repeat a with Some sc => print_status_obj sc | None => B "null" end
            else []) ++ J "}")
  end.
End Printing.

(** The last occurrence decides; [false] after it turns the flag off. *)
Fixpoint al_flag_from (on : bool) (argv : list bytes) (flag : bytes) : bool :=
  match argv with
  | [] => on
  | a :: r =>
      al_flag_from (if streq a flag then negb (match r with v :: _ => streq v (B "false") | [] => false end) else on)
        r flag
  end.
Definition al_flag (argv : list bytes) (flag : bytes) : bool := al_flag_from false argv flag.

(** * cmd_alarms *)

Definition alarms_usage : bytes :=
  B "usage: alarms --endpoint <url> [--node <nodeId>] [--condition-name <name>] [--acknowledge] [--confirm] [--add-comment] [--comment <text>] [--timeout-ms <ms>] [--publishing-interval-ms <ms>]".

Definition al_timeout (argv : list bytes) : Z :=
  let n := match find_arg argv (B "--timeout-ms") with Some s => atoi s | None => 15000 end in
  if n <=? 0 then 15000 else n.

Definition al_comment (argv : list bytes) : bytes := default (B "interop-comment") (find_arg argv (B "--comment")).

(** How far the command got when it reaches [done]. *)
Record al_result := {
  ar_final : Z; ar_error : option (bytes * bytes); ar_refresh : Z; ar_target : option nat;
  ar_ack : option AlAction; ar_conf : option AlAction; ar_cmt : option AlAction }.

Section Command.
Context {stack : UaStack} {cj : CJson} {nid : NodeIdOps} {W : Type} {L : ClientLib W} {srv : Services W}
  {sub : Subscriptions W} {es : EventSubscriptions W}.

(** A call of a condition's method; events may arrive while it waits. *)
Definition al_call_condition_method (w : W) (st : AlStore) (cid : ua_nodeid) (method : Z) (eventId : ua_string)
    (comment : bytes) : W * AlStore * Z :=
  let '(w, (sc, _)) := Client_call w cid (UA_NODEID_NUMERIC 0 method)
    [VtScalar (VByteString eventId); VtScalar (VLocalizedText (Some (B "en")) (Some comment))] in
  let '(w, st) := deliver_events alarm_notif_cb w st in (w, st, sc).

(** ConditionRefresh of the subscription. *)
Definition al_refresh (w : W) (st : AlStore) (subId : Z) : W * AlStore * Z :=
  let st := set_refresh st 1 (startSeen st) (endSeen st) in
  let '(w, (sc, _)) := Client_call w (UA_NODEID_NUMERIC 0 UA_NS0ID_CONDITIONTYPE)
    (UA_NODEID_NUMERIC 0 UA_NS0ID_CONDITIONTYPE_CONDITIONREFRESH) [VtScalar (VUInt32 subId)] in
  let '(w, st) := deliver_events alarm_notif_cb w st in (w, st, sc).

Definition al_wait (rounds : nat) (deadline : Z) (ready : AlStore -> bool) (w : W) (st : AlStore)
    : option (W * AlStore) :=
  do r <- event_loop rounds alarm_notif_cb ready nowMonotonic (fun now => deadline <=? now) 50 w st;
  Some (fst r).

(** The first refreshed condition with the name, or retained. *)
Definition al_matches (condName : option bytes) (e : AlEvent) : bool :=
  match condName with
  | Some n => al_text_eq (al_text (al_v e AL_CONDNAME)) n
  | None => match al_bool (al_v e AL_RETAIN) with Some b => b | None => false end
  end.

Definition al_target (condName : option bytes) (st : AlStore) : option nat :=
  find (fun i => match nth_error (evs st) i with Some e => al_matches condName e | None => false end) (conds st).

Definition latest_event_id (st : AlStore) (cid : ua_nodeid) : ua_string :=
  match al_latest st cid with
  | Some i => match nth_error (evs st) i with
              | Some e => match al_v e AL_EVENTID with VtScalar (VByteString s) => s | _ => None end
              | None => None
              end
  | None => None
  end.

(** One requested action: the action, and the error that ends the command. *)
Definition al_act (rounds : nat) (deadline : Z) (w : W) (st : AlStore) (cid : ua_nodeid) (comment : bytes)
    (name : string) (method : Z) (want : AlWant) (again : bool)
    : option (W * AlStore * AlAction * option (Z * bytes * bytes)) :=
  let eventId := latest_event_id st cid in
  let mark := length (evs st) in
  let '(w, st, sc) := al_call_condition_method w st cid method eventId comment in
  if negb (StatusCode_isGood sc) then
    Some (w, st, {| ac_sc := sc; ac_event := None; ac_repeat := None |},
          Some (sc, B "service", snprintf 256 (B name ++ B " failed")))
  else
    do r <- al_wait rounds deadline (fun st => is_some (al_find_followup st cid mark want comment)) w st;
    let '(w, st) := r in
    let event := al_find_followup st cid mark want comment in
    let '(w, st, rep) := if again
                         then let '(w, st, sc) := al_call_condition_method w st cid method eventId comment in
                              (w, st, Some sc)
                         else (w, st, None) in
    Some (w, st, {| ac_sc := sc; ac_event := event; ac_repeat := rep |},
          match event with
          | Some _ => None
          | None => Some (UA_STATUSCODE_BADTIMEOUT, B "timeout",
                          snprintf 256 (B "timeout waiting for the " ++ B name ++ B " event"))
          end).

(** The three actions in order; the first error stops them. *)
Fixpoint al_acts (rounds : nat) (deadline : Z) (w : W) (st : AlStore) (cid : ua_nodeid) (comment : bytes)
    (acts : list (bool * (string * Z * AlWant * bool)))
    : option (W * AlStore * list (option AlAction) * option (Z * bytes * bytes)) :=
  match acts with
  | [] => Some (w, st, [], None)
  | (false, _) :: r =>
      do x <- al_acts rounds deadline w st cid comment r;
      let '(w, st, l, err) := x in Some (w, st, None :: l, err)
  | (true, (name, method, want, again)) :: r =>
      do x <- al_act rounds deadline w st cid comment name method want again;
      match x with
      | (w, st, a, Some err) => Some (w, st, [Some a], Some err)
      | (w, st, a, None) =>
          do y <- al_acts rounds deadline w st cid comment r;
          let '(w, st, l, err) := y in Some (w, st, Some a :: l, err)
      end
  end.

Definition al_actions (argv : list bytes) : list (bool * (string * Z * AlWant * bool)) :=
  [(al_flag argv (B "--acknowledge"),
    ("Acknowledge"%string, UA_NS0ID_ACKNOWLEDGEABLECONDITIONTYPE_ACKNOWLEDGE, AL_WANT_ACKED, true));
   (al_flag argv (B "--confirm"),
    ("Confirm"%string, UA_NS0ID_ACKNOWLEDGEABLECONDITIONTYPE_CONFIRM, AL_WANT_CONFIRMED, false));
   (al_flag argv (B "--add-comment"),
    ("AddComment"%string, UA_NS0ID_CONDITIONTYPE_ADDCOMMENT, AL_WANT_COMMENT, false))].

Definition al_stop (final : Z) (category msg : bytes) (refresh : Z) : al_result :=
  {| ar_final := final; ar_error := Some (category, msg); ar_refresh := refresh; ar_target := None;
     ar_ack := None; ar_conf := None; ar_cmt := None |}.

(** From the monitored item to [done].  [None]: out of fuel; [Some None]: an
    index of a condition past the events. *)
Definition al_run (rounds : nat) (deadline : Z) (w : W) (argv : list bytes) (subId : Z) (mon_sc : Z) (st : AlStore)
    : option (option (W * AlStore * al_result)) :=
  if negb (StatusCode_isGood mon_sc) then
    Some (Some (w, st, al_stop mon_sc (B "service")
      (B "CreateMonitoredItems rejected the event monitored item") mon_sc))
  else
    let '(w, st, refresh_sc) := al_refresh w st subId in
    if negb (StatusCode_isGood refresh_sc) then
      Some (Some (w, st, al_stop refresh_sc (B "service") (B "ConditionRefresh failed") refresh_sc))
    else
      do r <- al_wait rounds deadline endSeen w st;
      let '(w, st) := r in
      if negb (endSeen st) then
        Some (Some (w, st, al_stop UA_STATUSCODE_BADTIMEOUT (B "timeout")
          (B "timeout waiting for the RefreshEndEvent") refresh_sc))
      else
        let actions := al_actions argv in
        match al_target (find_arg argv (B "--condition-name")) st with
        | None =>
            Some (Some (w, st,
              if existsb fst actions then
                al_stop UA_STATUSCODE_BADNODEIDUNKNOWN (B "service") (B "no matching condition in the ConditionRefresh")
                  refresh_sc
              else {| ar_final := UA_STATUSCODE_GOOD; ar_error := None; ar_refresh := refresh_sc; ar_target := None;
                      ar_ack := None; ar_conf := None; ar_cmt := None |}))
        | Some target =>
            match match nth_error (evs st) target with Some e => event_cid e | None => None end with
            | None => Some None
            | Some cid =>
                do x <- al_acts rounds deadline w st cid (al_comment argv) actions;
                let '(w, st, l, err) := x in
                Some (Some (w, st,
                  {| ar_final := match err with Some (sc, _, _) => sc | None => UA_STATUSCODE_GOOD end;
                     ar_error := match err with Some (_, cat, msg) => Some (cat, msg) | None => None end;
                     ar_refresh := refresh_sc; ar_target := Some target;
                     ar_ack := nth 0 l None; ar_conf := nth 1 l None; ar_cmt := nth 2 l None |}))
            end
        end.

Definition alarms_item (n : ua_nodeid) (subId mon_sc : Z) (st : AlStore) (r : al_result) : option bytes :=
  do cs <- mapM (entry_at st) (conds st);
  do target <- entry_opt st (ar_target r);
  do ack <- al_print_action "acknowledge" (ar_ack r) st true;
  do conf <- al_print_action "confirm" (ar_conf r) st false;
  do cmt <- al_print_action "addComment" (ar_cmt r) st false;
  Some (J "{'nodeId':" ++ output_nodeid n
    ++ J ",'subscriptionId':" ++ fmt_u subId
    ++ J ",'monitoredItemStatusCode':" ++ print_status_obj mon_sc
    ++ J ",'refresh':{'statusCode':" ++ print_status_obj (ar_refresh r)
    ++ J ",'startSeen':" ++ bool_text (startSeen st) ++ J ",'endSeen':" ++ bool_text (endSeen st)
    ++ J "},'conditions':" ++ jarray cs ++ J ",'target':" ++ target ++ ack ++ conf ++ cmt ++ J "}").

Definition alarms_error (e : option (bytes * bytes)) : bytes :=
  match e with
  | None => B "null"
  | Some (cat, msg) => J "{'category':'" ++ cat ++ J "','message':" ++ output_json_string (Some msg) ++ J "}"
  end.

Definition run_alarms (rounds : nat) (deadline : Z) (w : W) (argv : list bytes) (n : ua_nodeid) : outcome W :=
  let '(w, sb) := Subscriptions_create w
    {| sr_interval := interval_flag argv (B "--publishing-interval-ms") 200; sr_counts := None |} in
  let svc := sb_serviceResult sb in
  if negb (StatusCode_isGood svc) then
    failed (Client_disconnect w) (fail (B "alarms") 4 svc (B "service") (B "CreateSubscription failed"))
  else
    let subId := sb_id sb in
    let '(w, mon_sc) := MonitoredItems_createEvent w subId
      {| er_node := n; er_queueSize := 1000; er_select := map al_select kAlSelect; er_where := [] |} in
    let '(w, st) := deliver_events alarm_notif_cb w
      {| evs := []; phase := 0; startSeen := false; endSeen := false; conds := [] |} in
    match al_run rounds deadline w argv subId mon_sc st with
    | None => NoFuel
    | Some None => OutOfBounds
    | Some (Some (w, st, r)) =>
        match alarms_item n subId mon_sc st r with
        | None => OutOfBounds
        | Some item =>
            Exits (Client_disconnect (Subscriptions_deleteSingle w subId))
              (match ar_error r with
               | None => 0
               | Some (cat, _) => if streq cat (B "timeout") then 7 else 4
               end)
              (envelope (B "alarms") (negb (is_some (ar_error r))) (ar_final r)
                 (J ",'results':" ++ jarray [item] ++ J ",'error':" ++ alarms_error (ar_error r)))
        end
    end.

Definition cmd_alarms (fuel rounds : nat) (w : W) (g : ClientSecurity) (argv : list bytes) : outcome W :=
  let nodeStr := default (B "i=2253") (find_arg argv (B "--node")) in
  match find_arg argv (B "--endpoint") with
  | None => usage_error w (B "alarms") alarms_usage
  | Some endpoint =>
      if negb (validate_nodeid_structure nodeStr) then usage_error w (B "alarms") (malformed nodeStr)
      else
        with_client fuel w g endpoint 5000 (B "alarms") (fun w =>
        let '(w, now) := nowMonotonic w in
        let deadline := now + al_timeout argv * 10000 in
        match resolve_one w nodeStr with
        | (w, NsuOk n) => run_alarms rounds deadline w argv n
        | (w, _) => unresolved_exit w (B "alarms") (unknown_namespace nodeStr)
        end)
  end.
End Command.

(** * The store invariant *)

Section Invariant.
Context {nid : NodeIdOps} {nl : NodeIdLaws nid}.

Definition cid_at (l : list AlEvent) (i : nat) : option ua_nodeid :=
  match nth_error l i with Some e => event_cid e | None => None end.

(** Events [i] and [j] are of one condition. *)
Definition same (l : list AlEvent) (i j : nat) : bool :=
  match cid_at l i, cid_at l j with Some a, Some b => NodeId_equal a b | _, _ => false end.

(** [lo] and [hi]: the events that arrived between the request and the RefreshEnd.
    The conditions are one event each, the last of its condition among those,
    and every condition is there unless the table is full. *)
Record al_inv (lo hi : nat) (st : AlStore) : Prop := {
  inv_events : (length (evs st) <= AL_MAX_EVS)%nat;
  inv_window : (lo <= hi <= length (evs st))%nat;
  inv_cid : forall i, (i < length (evs st))%nat -> cid_at (evs st) i <> None;
  inv_conds : (length (conds st) <= AL_MAX_CONDS)%nat;
  inv_last : forall i, In i (conds st) ->
    (lo <= i < hi)%nat /\ forall j, (i < j < hi)%nat -> same (evs st) i j = false;
  inv_distinct : ForallOrdPairs (fun i j => same (evs st) i j = false) (conds st);
  inv_complete : forall j, (lo <= j < hi)%nat ->
    (exists i, In i (conds st) /\ same (evs st) i j = true) \/ length (conds st) = AL_MAX_CONDS;
  inv_phase : phase st = 0 \/ phase st = 1 \/ phase st = 2;
  inv_open : phase st = 1 -> hi = length (evs st);
  inv_before : phase st = 0 -> lo = hi;
  inv_end : endSeen st = (phase st =? 2)
}.

Lemma same_trans l i j k : same l i j = true -> same l j k = true -> same l i k = true.
Proof.
  unfold same. destruct (cid_at l i), (cid_at l j), (cid_at l k); try discriminate. apply NodeId_equal_trans.
Qed.

Lemma same_sym l i j : same l i j = true -> same l j i = true.
Proof. unfold same. destruct (cid_at l i), (cid_at l j); try discriminate. apply NodeId_equal_sym. Qed.

(** Two events of a condition agree about every other event. *)
Lemma same_left l i j k : same l i j = true -> same l i k = same l j k.
Proof.
  intros H. destruct (same l i k) eqn:E1, (same l j k) eqn:E2; try reflexivity.
  - rewrite <- E2. symmetry. eapply same_trans; [apply same_sym|]; eauto.
  - rewrite <- E1. eapply same_trans; eauto.
Qed.

Lemma cid_at_app l e i : (i < length l)%nat -> cid_at (l ++ [e]) i = cid_at l i.
Proof. intros H. unfold cid_at. now rewrite nth_error_app1. Qed.

Lemma same_app l e i j : (i < length l)%nat -> (j < length l)%nat -> same (l ++ [e]) i j = same l i j.
Proof. intros Hi Hj. unfold same. now rewrite !cid_at_app. Qed.

Lemma same_new l e c i : event_cid e = Some c ->
  same_condition (nth_error (l ++ [e]) i) c = same (l ++ [e]) i (length l).
Proof.
  intros He. unfold same, same_condition, cid_at. rewrite (nth_error_app2 l [e] (Nat.le_refl _)), Nat.sub_diag. cbn.
  rewrite He. destruct (nth_error (l ++ [e]) i) as [x|]; [|reflexivity]. now destruct (event_cid x).
Qed.

Lemma put_cond_spec l c idx cs :
  match put_cond l c idx cs with
  | Some cs' => exists a i b, cs = a ++ i :: b /\ cs' = a ++ idx :: b /\ same_condition (nth_error l i) c = true /\
                  Forall (fun x => same_condition (nth_error l x) c = false) a
  | None => Forall (fun x => same_condition (nth_error l x) c = false) cs
  end.
Proof.
  induction cs as [|i cs IH]; [constructor|]. cbn [put_cond].
  destruct (same_condition (nth_error l i) c) eqn:E; [now exists [], i, cs; repeat split|].
  destruct (put_cond l c idx cs) as [cs'|]; cbn [option_map].
  - destruct IH as (a & x & b & -> & -> & Hx & Ha). exists (i :: a), x, b. repeat split; auto.
  - now constructor.
Qed.

Lemma pairs_app {A} (R : A -> A -> Prop) a b : ForallOrdPairs R (a ++ b) <->
  ForallOrdPairs R a /\ ForallOrdPairs R b /\ (forall x y, In x a -> In y b -> R x y).
Proof.
  induction a as [|x a IH]; cbn.
  - split; [intros H; repeat split; [constructor|exact H|tauto]|tauto].
  - split.
    + intros H. inversion H as [|? ? Hx Ha]; subst. apply IH in Ha as (Ha & Hb & Hab). apply Forall_app in Hx as [Hxa Hxb].
      repeat split; [now constructor|exact Hb|]. intros y z [<-|Hy] Hz; [rewrite Forall_forall in Hxb; auto|auto].
    + intros (Ha & Hb & Hab). inversion Ha as [|? ? Hx Ha']; subst. constructor.
      * apply Forall_app. split; [exact Hx|]. apply Forall_forall. intros y Hy. apply Hab; [now left|exact Hy].
      * apply IH. repeat split; auto.
Qed.

Lemma pairs_impl {A} (R S : A -> A -> Prop) l : (forall x y, In x l -> In y l -> R x y -> S x y) ->
  ForallOrdPairs R l -> ForallOrdPairs S l.
Proof.
  intros H Hl. induction Hl as [|x l Hx _ IH]; constructor.
  - rewrite Forall_forall in *. intros y Hy. apply H; [now left|now right|auto].
  - apply IH. intros y z Hy Hz. apply H; now right.
Qed.

(** What the invariant says of the condition table. *)
Definition table_ok (lo hi : nat) (l : list AlEvent) (cs : list nat) : Prop :=
  (forall i, In i cs -> (lo <= i < hi)%nat /\ forall j, (i < j < hi)%nat -> same l i j = false) /\
  ForallOrdPairs (fun i j => same l i j = false) cs /\
  (forall j, (lo <= j < hi)%nat -> (exists i, In i cs /\ same l i j = true) \/ length cs = AL_MAX_CONDS).

(** Events that are not of the new one's condition keep their place. *)
Lemma table_keep lo l e c cs : event_cid e = Some c -> table_ok lo (length l) l cs ->
  forall i, In i cs -> same (l ++ [e]) i (length l) = false ->
  (lo <= i < S (length l))%nat /\ forall j, (i < j < S (length l))%nat -> same (l ++ [e]) i j = false.
Proof.
  intros He (Hl & _) i Hi Hs. destruct (Hl i Hi) as [Hb Hlast]. split; [lia|]. intros j Hj.
  destruct (Nat.eq_dec j (length l)) as [->|Hj']; [exact Hs|]. rewrite same_app by lia. apply Hlast. lia.
Qed.

Lemma same_self l e c : event_cid e = Some c -> same (l ++ [e]) (length l) (length l) = true.
Proof.
  intros He. unfold same, cid_at. rewrite (nth_error_app2 l [e] (Nat.le_refl _)), Nat.sub_diag. cbn. rewrite He.
  apply NodeId_equal_refl.
Qed.

(** The table stays complete when its members still cover the old ones. *)
Lemma table_complete lo l e cs cs' : table_ok lo (length l) l cs ->
  (forall i, In i cs -> exists i', In i' cs' /\ same (l ++ [e]) i' i = true) ->
  (length cs = AL_MAX_CONDS -> length cs' = AL_MAX_CONDS) ->
  ((exists i, In i cs' /\ same (l ++ [e]) i (length l) = true) \/ length cs' = AL_MAX_CONDS) ->
  forall j, (lo <= j < S (length l))%nat ->
  (exists i, In i cs' /\ same (l ++ [e]) i j = true) \/ length cs' = AL_MAX_CONDS.
Proof.
  intros (Hl & _ & Hc) Hcov Hfull Hnew j Hj. destruct (Nat.eq_dec j (length l)) as [->|Hj']; [exact Hnew|].
  destruct (Hc j ltac:(lia)) as [(i & Hi & Hs)|Hf]; [left|right; auto].
  destruct (Hl i Hi) as [Hb _]. destruct (Hcov i Hi) as (i' & Hi' & Hs'). exists i'. split; [exact Hi'|].
  eapply same_trans; [exact Hs'|]. rewrite same_app by lia. exact Hs.
Qed.

Lemma same_refl l i : cid_at l i <> None -> same l i i = true.
Proof. unfold same. destruct (cid_at l i); [intros _; apply NodeId_equal_refl|congruence]. Qed.

Lemma table_push lo l e c cs : event_cid e = Some c -> (lo <= length l)%nat ->
  (forall i, (i < length l)%nat -> cid_at l i <> None) ->
  (length cs <= AL_MAX_CONDS)%nat -> table_ok lo (length l) l cs ->
  let cs' := push_cond (l ++ [e]) c (length l) cs in
  table_ok lo (S (length l)) (l ++ [e]) cs' /\ (length cs' <= AL_MAX_CONDS)%nat.
Proof.
  intros He Hlo Hcid Hlen Hok cs'. pose proof Hok as (Hl & Hd & Hc).
  assert (forall i, In i cs -> (i < length l)%nat) as Hlt by (intros i Hi; destruct (Hl i Hi); lia).
  assert (ForallOrdPairs (fun i j => same (l ++ [e]) i j = false) cs) as Hd'
    by (eapply pairs_impl; [|exact Hd]; intros x y Hx Hy; rewrite same_app; auto).
  assert (forall i, In i cs -> same (l ++ [e]) i i = true) as Hself.
  { intros i Hi. rewrite same_app by auto. apply same_refl; auto. }
  pose proof (put_cond_spec (l ++ [e]) c (length l) cs) as Hp. unfold cs', push_cond.
  destruct (put_cond (l ++ [e]) c (length l) cs) as [out|].
  - destruct Hp as (a & i & b & -> & -> & Hi & Ha). rewrite (same_new _ _ _ _ He) in Hi.
    assert (forall x, In x a -> same (l ++ [e]) x (length l) = false) as Ha'
      by (intros x Hx; rewrite <- (same_new _ _ _ _ He); rewrite Forall_forall in Ha; auto).
    apply pairs_app in Hd' as (Da & Dib & Dx). inversion Dib as [|? ? Dib1 Dib2]; subst.
    assert (forall x, In x b -> same (l ++ [e]) (length l) x = false) as Hb'
      by (intros x Hx; rewrite <- (same_left _ _ _ x Hi); rewrite Forall_forall in Dib1; auto).
    split; [split; [|split]|rewrite !length_app in *; cbn in *; lia].
    + intros x Hx. apply in_app_or in Hx as [Hx|[<-|Hx]].
      * apply (table_keep lo l e c (a ++ i :: b) He Hok); [apply in_or_app; now left|auto].
      * split; [lia|]. intros j Hj. lia.
      * apply (table_keep lo l e c (a ++ i :: b) He Hok); [apply in_or_app; right; now right|].
        destruct (same (l ++ [e]) x (length l)) eqn:E; [|reflexivity]. apply same_sym in E. now rewrite Hb' in E.
    + apply pairs_app. split; [exact Da|]. split.
      * constructor; [apply Forall_forall; exact Hb'|exact Dib2].
      * intros x y Hx [<-|Hy]; [auto|]. apply Dx; [exact Hx|now right].
    + apply (table_complete lo l e (a ++ i :: b)); [exact Hok| |rewrite !length_app; cbn; lia|].
      * intros x Hx. apply in_app_or in Hx as [Hx|[<-|Hx]].
        -- exists x. split; [apply in_or_app; now left|]. apply Hself, in_or_app. now left.
        -- exists (length l). split; [apply in_or_app; right; now left|now apply same_sym].
        -- exists x. split; [apply in_or_app; right; now right|]. apply Hself, in_or_app. right. now right.
      * left. exists (length l). split; [apply in_or_app; right; now left|now apply (same_self l e c)].
  - assert (forall x, In x cs -> same (l ++ [e]) x (length l) = false) as Hn
      by (intros x Hx; rewrite <- (same_new _ _ _ _ He); rewrite Forall_forall in Hp; auto).
    destruct (Nat.ltb_spec (length cs) AL_MAX_CONDS) as [Hroom|Hroom].
    + split; [split; [|split]|rewrite length_app; cbn; lia].
      * intros x Hx. apply in_app_or in Hx as [Hx|[<-|[]]]; [now apply (table_keep lo l e c cs He Hok); auto|].
        split; [lia|]. intros j Hj. lia.
      * apply pairs_app. split; [exact Hd'|]. split; [repeat constructor|]. intros x y Hx [<-|[]]. auto.
      * apply (table_complete lo l e cs); [exact Hok| |intros; lia|].
        -- intros x Hx. exists x. split; [apply in_or_app; now left|auto].
        -- left. exists (length l). split; [apply in_or_app; right; now left|now apply (same_self l e c)].
    + split; [split; [|split]|exact Hlen].
      * intros x Hx. now apply (table_keep lo l e c cs He Hok); auto.
      * exact Hd'.
      * intros j Hj. right. lia.
Qed.

Lemma cb_cases st e :
  alarm_notif_cb st e = st \/
  (phase st = 1 /\ (alarm_notif_cb st e = set_refresh st 1 true (endSeen st) \/
                    alarm_notif_cb st e = set_refresh st 2 (startSeen st) true)) \/
  (exists x c, event_cid x = Some c /\ (length (evs st) < AL_MAX_EVS)%nat /\
     alarm_notif_cb st e = {| evs := evs st ++ [x]; phase := phase st; startSeen := startSeen st; endSeen := endSeen st;
       conds := if phase st =? 1 then push_cond (evs st ++ [x]) c (length (evs st)) (conds st) else conds st |}).
Proof.
  unfold alarm_notif_cb. destruct (Nat.ltb _ _); [now left|].
  destruct (refresh_event e UA_NS0ID_REFRESHSTARTEVENTTYPE).
  { destruct (Z.eqb_spec (phase st) 1) as [E|]; [right; left; rewrite E; auto|now left]. }
  destruct (refresh_event e UA_NS0ID_REFRESHENDEVENTTYPE).
  { destruct (Z.eqb_spec (phase st) 1) as [E|]; [right; left; auto|now left]. }
  set (x := map snd (firstn AL_NF e)). destruct (event_cid x) as [c|] eqn:Ec; [|now left].
  destruct (NodeId_isNull c); [now left|]. destruct (Nat.leb_spec AL_MAX_EVS (length (evs st))); [now left|].
  right. right. exists x, c. auto.
Qed.

Lemma same_prefix l x i j : (i < length l)%nat -> (j < length l)%nat -> same (l ++ [x]) i j = same l i j.
Proof. apply same_app. Qed.

(** An event outside the refresh leaves the table as it was. *)
Lemma table_frozen lo hi l x cs : (hi <= length l)%nat -> table_ok lo hi l cs -> table_ok lo hi (l ++ [x]) cs.
Proof.
  intros Hhi (H1 & H2 & H3). assert (forall i, In i cs -> (i < hi)%nat) as Hb by (intros i Hi; destruct (H1 i Hi); lia).
  split; [|split].
  - intros i Hi. destruct (H1 i Hi) as [Hw Hl]. split; [exact Hw|]. intros j Hj. rewrite same_app by lia. auto.
  - eapply pairs_impl; [|exact H2]. intros i j Hi Hj Hs. specialize (Hb i Hi) as Hbi. specialize (Hb j Hj).
    now rewrite same_app by lia.
  - intros j Hj. destruct (H3 j Hj) as [(i & Hi & Hs)|Hf]; [left|now right]. specialize (Hb i Hi).
    exists i. split; [exact Hi|]. now rewrite same_app by lia.
Qed.

Lemma inv_table lo hi st : al_inv lo hi st -> table_ok lo hi (evs st) (conds st).
Proof. intros []. split; [assumption|split; assumption]. Qed.

Lemma al_inv_event lo hi st e : al_inv lo hi st -> 
  exists hi', (phase (alarm_notif_cb st e) = 2 -> hi' = hi) /\
    al_inv (if phase st =? 0 then hi' else lo) hi' (alarm_notif_cb st e).
Proof.
  intros I. destruct (cb_cases st e) as [->|[(Hp & [->| ->])|(x & c & Ex & Hroom & ->)]].
  - exists hi. split; [reflexivity|]. destruct (Z.eqb_spec (phase st) 0) as [E|]; [|exact I].
    pose proof (inv_before _ _ _ I E). now subst lo.
  - exists hi. split; [reflexivity|]. rewrite Hp. cbn [Z.eqb]. destruct I.
    constructor; cbn; auto; try discriminate. now rewrite inv_end0, Hp.
  - exists hi. split; [reflexivity|]. rewrite Hp. cbn [Z.eqb]. destruct I. constructor; cbn; auto; discriminate.
  - assert (forall i, (i < S (length (evs st)))%nat -> cid_at (evs st ++ [x]) i <> None) as Hcid.
    { intros i Hi. destruct (Nat.eq_dec i (length (evs st))) as [->|].
      - unfold cid_at. rewrite (nth_error_app2 _ [x] (Nat.le_refl _)), Nat.sub_diag. cbn. congruence.
      - rewrite cid_at_app by lia. apply (inv_cid _ _ _ I). lia. }
    assert (table_ok lo hi (evs st) (conds st)) as Hok by exact (inv_table _ _ _ I).
    assert (length (evs st ++ [x]) = S (length (evs st))) as Hlen by (rewrite length_app; cbn; lia).
    destruct (Z.eqb_spec (phase st) 1) as [Hp|Hp].
    + rewrite Hp. cbn [Z.eqb]. pose proof (inv_open _ _ _ I Hp) as ->.
      destruct (table_push lo (evs st) x c (conds st) Ex) as [(T1 & T2 & T3) T4];
        [apply I|apply I|apply I|exact Hok|].
      exists (S (length (evs st))). split; [cbn; congruence|]. destruct I. constructor; cbn [evs phase startSeen endSeen conds];
        rewrite ?Hlen; auto; try lia; try (intros E; discriminate). now rewrite inv_end0, Hp.
    + destruct (Z.eqb_spec (phase st) 0) as [H0|H0].
      * destruct I. exists (length (evs st)). split; [cbn; congruence|].
        assert (conds st = []) as Ec.
        { destruct (conds st) as [|i l] eqn:E; [reflexivity|]. exfalso.
          destruct (inv_last0 i) as [Hb _]; [now left|]. rewrite inv_before0 in Hb by exact H0. lia. }
        constructor; cbn [evs phase startSeen endSeen conds]; rewrite ?Hlen, ?Ec; auto;
          first [lia|intros i []|apply FOP_nil|intros j Hj; lia|cbn; lia].
      * destruct (table_frozen lo hi (evs st) x (conds st)) as (T1 & T2 & T3); [apply I|exact Hok|].
        exists hi. split; [reflexivity|]. destruct I. constructor; cbn [evs phase startSeen endSeen conds]; rewrite ?Hlen; auto; lia.
Qed.

Lemma al_inv_request lo hi st : al_inv lo hi st -> phase st = 0 ->
  al_inv (length (evs st)) (length (evs st)) (set_refresh st 1 (startSeen st) (endSeen st)).
Proof.
  intros I Hp. pose proof (inv_before _ _ _ I Hp) as E. destruct I. subst hi.
  assert (conds st = []) as Ec.
  { destruct (conds st) as [|i l]; [reflexivity|]. exfalso. destruct (inv_last0 i) as [Hb _]; [now left|]. lia. }
  constructor; cbn [set_refresh evs phase startSeen endSeen conds]; rewrite ?Ec; auto;
    first [lia|intros i []|apply FOP_nil|intros j Hj; lia|cbn; lia|now rewrite inv_end0, Hp|discriminate].
Qed.

Definition al_empty : AlStore :=
  {| evs := []; phase := 0; startSeen := false; endSeen := false; conds := [] |}.

Lemma al_inv_empty : al_inv 0 0 al_empty.
Proof. constructor; cbn; auto; try lia; try (intros i Hi; lia); try (intros i []); try constructor. Qed.

Lemma phase_before l : forall st lo hi, al_inv lo hi st -> phase st = 0 ->
  phase (fold_left alarm_notif_cb l st) = 0 /\ exists lo hi, al_inv lo hi (fold_left alarm_notif_cb l st).
Proof.
  induction l as [|e l IH]; intros st lo hi I Hp; [split; [exact Hp|eauto]|]. cbn [fold_left].
  destruct (al_inv_event lo hi st e I) as (hi' & _ & I'). eapply IH; [exact I'|].
  destruct (cb_cases st e) as [->|[(E & _)|(x & c & _ & _ & ->)]]; [exact Hp|lia|exact Hp].
Qed.

(** A RefreshEndEvent that the callback looks at. *)
Definition ends_refresh (e : event_fields) : bool :=
  negb (Nat.ltb (length e) AL_NF) && negb (refresh_event e UA_NS0ID_REFRESHSTARTEVENTTYPE)
  && refresh_event e UA_NS0ID_REFRESHENDEVENTTYPE.

Lemma cb_phase st e : phase (alarm_notif_cb st e) = if (phase st =? 1) && ends_refresh e then 2 else phase st.
Proof.
  unfold alarm_notif_cb, ends_refresh. destruct (Nat.ltb (length e) AL_NF); [now rewrite andb_false_r|]. cbn [negb andb].
  destruct (refresh_event e UA_NS0ID_REFRESHSTARTEVENTTYPE).
  { rewrite andb_false_r. now destruct (phase st =? 1). }
  destruct (refresh_event e UA_NS0ID_REFRESHENDEVENTTYPE).
  { cbn. destruct (phase st =? 1); reflexivity. }
  rewrite andb_false_r. destruct (event_cid _) as [c|]; [|reflexivity]. now destruct (_ || _).
Qed.

Lemma during_inv l : forall st lo, al_inv lo (length (evs st)) st -> phase st = 1 ->
  forallb (fun e => negb (ends_refresh e)) l = true ->
  let st' := fold_left alarm_notif_cb l st in phase st' = 1 /\ al_inv lo (length (evs st')) st'.
Proof.
  induction l as [|e l IH]; intros st lo I Hp Hl; [now split|]. cbn [fold_left forallb] in *.
  apply andb_prop in Hl as [He Hl]. apply negb_true_iff in He.
  assert (phase (alarm_notif_cb st e) = 1) as Hp' by (rewrite cb_phase, Hp, He; reflexivity).
  destruct (al_inv_event lo _ st e I) as (hi' & _ & I'). rewrite Hp in I'. cbn [Z.eqb] in I'.
  pose proof (inv_open _ _ _ I' Hp') as ->. now apply IH.
Qed.

Lemma after_inv l : forall st lo hi, al_inv lo hi st -> phase st = 2 ->
  al_inv lo hi (fold_left alarm_notif_cb l st).
Proof.
  induction l as [|e l IH]; intros st lo hi I Hp; [exact I|]. cbn [fold_left].
  assert (phase (alarm_notif_cb st e) = 2) as Hp' by (rewrite cb_phase, Hp; reflexivity).
  destruct (al_inv_event lo hi st e I) as (hi' & E & I'). rewrite Hp in I'. cbn [Z.eqb] in I'.
  rewrite (E Hp') in I'. now apply IH.
Qed.

(** What the server delivered, as events of conditions. *)
Definition condition_event (e : event_fields) : list AlEvent :=
  if Nat.ltb (length e) AL_NF || refresh_event e UA_NS0ID_REFRESHSTARTEVENTTYPE
     || refresh_event e UA_NS0ID_REFRESHENDEVENTTYPE then []
  else match event_cid (map snd (firstn AL_NF e)) with
       | Some c => if NodeId_isNull c then [] else [map snd (firstn AL_NF e)]
       | None => []
       end.

Lemma cb_events st e : (length (evs st) <= AL_MAX_EVS)%nat ->
  evs (alarm_notif_cb st e) = firstn AL_MAX_EVS (evs st ++ condition_event e).
Proof.
  intros Hl. assert (forall l, l = [] -> evs st = firstn AL_MAX_EVS (evs st ++ l)) as Hnil
    by (intros l ->; rewrite app_nil_r, firstn_all2; [reflexivity|exact Hl]).
  unfold alarm_notif_cb, condition_event. destruct (Nat.ltb (length e) AL_NF); [now apply Hnil|]. cbn [orb].
  destruct (refresh_event e UA_NS0ID_REFRESHSTARTEVENTTYPE); [destruct (phase st =? 1); now apply Hnil|]. cbn [orb].
  destruct (refresh_event e UA_NS0ID_REFRESHENDEVENTTYPE); [destruct (phase st =? 1); now apply Hnil|].
  destruct (event_cid _) as [c|]; [|now apply Hnil]. destruct (NodeId_isNull c); [now apply Hnil|]. cbn [orb].
  destruct (Nat.leb_spec AL_MAX_EVS (length (evs st))) as [Hf|Hf]; cbn [evs].
  - rewrite firstn_app, firstn_all2 by lia. replace (AL_MAX_EVS - length (evs st))%nat with O by lia.
    cbn [firstn]. now rewrite app_nil_r.
  - symmetry. apply firstn_all2. rewrite length_app. cbn [length]. lia.
Qed.

Lemma in_firstn {A} n (l : list A) x : In x (firstn n l) -> In x l.
Proof. intros H. rewrite <- (firstn_skipn n l). apply in_or_app. now left. Qed.

Lemma firstn_app_firstn {A} n (x y : list A) : firstn n (firstn n x ++ y) = firstn n (x ++ y).
Proof.
  rewrite !firstn_app, firstn_firstn, Nat.min_id, length_firstn. f_equal.
  destruct (Nat.le_gt_cases (length x) n); [now rewrite Nat.min_r by lia|].
  rewrite Nat.min_l by lia. rewrite Nat.sub_diag. now replace (n - length x)%nat with O by lia.
Qed.

Lemma fold_events l : forall st, (length (evs st) <= AL_MAX_EVS)%nat ->
  evs (fold_left alarm_notif_cb l st) = firstn AL_MAX_EVS (evs st ++ flat_map condition_event l).
Proof.
  induction l as [|e l IH]; intros st Hl; cbn [fold_left flat_map].
  - rewrite app_nil_r, firstn_all2; [reflexivity|exact Hl].
  - rewrite IH; rewrite cb_events by exact Hl.
    + now rewrite firstn_app_firstn, <- app_assoc.
    + rewrite length_firstn. lia.
Qed.
End Invariant.

(** C14: the conditions of a refresh.  Whatever events the server delivers before the
    ConditionRefresh, during it, and from its RefreshEndEvent on: the store holds
    the first 1024 condition events in order, and the condition table has one
    index per condition, that of its last event between the request and the
    RefreshEnd, all conditions of the refresh being there unless the table of 64
    is full; indices never leave the store. *)
Theorem alarm_refresh_table {nid : NodeIdOps} {nl : NodeIdLaws nid} before during after :
  forallb (fun e => negb (ends_refresh e)) during = true ->
  (after = [] \/ exists e r, after = e :: r /\ ends_refresh e = true) ->
  let s0 := fold_left alarm_notif_cb before al_empty in
  let s1 := fold_left alarm_notif_cb during (set_refresh s0 1 (startSeen s0) (endSeen s0)) in
  let s2 := fold_left alarm_notif_cb after s1 in
  al_inv (length (evs s0)) (length (evs s1)) s2 /\
  evs s2 = firstn AL_MAX_EVS (flat_map condition_event (before ++ during ++ after)) /\
  endSeen s2 = negb (Nat.eqb (length after) 0).
Proof.
  intros Hd Ha s0 s1 s2. destruct (phase_before before al_empty 0 0 al_inv_empty eq_refl) as [Hp (lo & hi & I)].
  pose proof (al_inv_request lo hi s0 I Hp) as I0. set (r0 := set_refresh s0 1 _ _) in I0.
  destruct (during_inv during r0 (length (evs s0)) I0 eq_refl Hd) as [Hp1 I1].
  change (fold_left alarm_notif_cb during r0) with s1 in Hp1, I1.
  assert (evs s2 = firstn AL_MAX_EVS (flat_map condition_event (before ++ during ++ after))) as He.
  { unfold s2. rewrite fold_events by apply I1. unfold s1. rewrite fold_events by apply I0. cbn [set_refresh evs].
    unfold s0. rewrite fold_events by (cbn; lia). cbn [al_empty evs app].
    rewrite !flat_map_app. set (a := flat_map condition_event before). set (b := flat_map condition_event during).
    set (c := flat_map condition_event after).
    now rewrite firstn_app_firstn, <- app_assoc, firstn_app_firstn. }
  split; [|split; [exact He|]].
  - destruct Ha as [->|(e & r & -> & Ee)]; [exact I1|]. unfold s2. cbn [fold_left].
    assert (phase (alarm_notif_cb s1 e) = 2) as Hp2 by (rewrite cb_phase, Hp1, Ee; reflexivity).
    destruct (al_inv_event _ _ s1 e I1) as (hi' & E & I2). rewrite Hp1 in I2. cbn [Z.eqb] in I2.
    rewrite (E Hp2) in I2. now apply after_inv.
  - destruct Ha as [->|(e & r & -> & Ee)]; unfold s2; cbn [fold_left]; [now rewrite (inv_end _ _ _ I1), Hp1|].
    assert (phase (alarm_notif_cb s1 e) = 2) as Hp2 by (rewrite cb_phase, Hp1, Ee; reflexivity).
    destruct (al_inv_event _ _ s1 e I1) as (hi' & E & I2). rewrite Hp1 in I2. cbn [Z.eqb] in I2.
    assert (forall l st, phase st = 2 -> phase (fold_left alarm_notif_cb l st) = 2) as Hkeep.
    { induction l as [|x l IH]; intros st Hst; [exact Hst|]. cbn [fold_left]. apply IH. rewrite cb_phase, Hst. reflexivity. }
    rewrite (inv_end _ _ _ (after_inv r _ _ _ I2 Hp2)), Hkeep by exact Hp2. reflexivity.
Qed.

(** * What the command reports *)

Section Reports.
Context {stack : UaStack} {laws : UaStackLaws stack} {cj : CJson} {nid : NodeIdOps} {nl : NodeIdLaws nid} {W : Type}
  {L : ClientLib W} {libLaws : ClientLibLaws L} {clk : Clock L} {srv : Services W} {srvLaws : ServicesLaws srv}
  {sub : Subscriptions W} {subLaws : SubscriptionLaws L sub} {es : EventSubscriptions W}
  {evLaws : EventSubscriptionLaws L sub es}.

Definition wf_event (e : AlEvent) : Prop := Forall (fun v => wf_variant v = true) e.

(** A store of well-formed events whose condition table stays inside. *)
Definition store_ok (st : AlStore) : Prop :=
  Forall wf_event (evs st) /\ exists lo hi, al_inv lo hi st.

(** A later store: more events have been delivered. *)
Definition later (st st' : AlStore) : Prop :=
  exists l, Forall good_event l /\ st' = fold_left alarm_notif_cb l st.

Lemma later_refl st : later st st.
Proof. exists []. now split. Qed.

Lemma later_trans a b c : later a b -> later b c -> later a c.
Proof. intros (l & H1 & ->) (m & H2 & ->). exists (l ++ m). split; [now apply Forall_app|symmetry; apply fold_left_app]. Qed.

Lemma later_ok st st' : store_ok st -> later st st' -> store_ok st'.
Proof.
  intros Hs (l & Hl & ->). revert st Hs. induction Hl as [|e l He _ IH]; intros st Hs; [exact Hs|]. cbn [fold_left].
  apply IH. destruct Hs as [Hw (lo & hi & I)]. destruct (al_inv_event lo hi st e I) as (hi' & _ & I').
  split; [|eauto]. rewrite cb_events by apply I. apply Forall_forall. intros x Hx. apply in_firstn, in_app_or in Hx.
  rewrite Forall_forall in Hw. destruct Hx as [Hx|Hx]; [auto|]. unfold condition_event in Hx.
  destruct (_ || _); [destruct Hx|]. destruct (event_cid _); [|destruct Hx]. destruct (NodeId_isNull _); [destruct Hx|].
  destruct Hx as [<-|[]]. apply Forall_map, Forall_forall. intros p Hp. apply in_firstn in Hp.
  unfold good_event in He. rewrite Forall_forall in He. now apply He.
Qed.

(** Stored events stay. *)
Lemma later_event st st' i e : store_ok st -> later st st' -> nth_error (evs st) i = Some e -> nth_error (evs st') i = Some e.
Proof.
  intros [_ (lo & hi & I)] (l & _ & ->) Hi. rewrite fold_events by apply I.
  assert (i < length (evs st))%nat by (apply nth_error_Some; congruence). pose proof (inv_events _ _ _ I).
  rewrite nth_error_firstn. destruct (Nat.ltb_spec i AL_MAX_EVS); [|lia]. now rewrite nth_error_app1.
Qed.

Lemma deliver_later w st : later st (snd (deliver_events alarm_notif_cb w st)).
Proof.
  unfold deliver_events. pose proof (fired_good w) as H. destruct (fired_events w) as [w' l]. now exists l.
Qed.

Lemma entry_json st i : store_ok st -> (i < length (evs st))%nat -> exists t, entry_at st i = Some t /\ JValue t.
Proof.
  intros [Hw _] Hi. unfold entry_at. destruct (nth_error (evs st) i) as [e|] eqn:E; [|apply nth_error_None in E; lia].
  eexists. split; [reflexivity|]. assert (wf_event e) as He by (rewrite Forall_forall in Hw; eapply Hw, nth_error_In, E).
  assert (forall k, wf_variant (al_v e k) = true) as Hv.
  { intros k. unfold al_v. destruct (nth_in_or_default k e VtEmpty) as [Hin| ->]; [|reflexivity].
    unfold wf_event in He. rewrite Forall_forall in He. auto. }
  assert (forall v, wf_variant v = true -> JValue (al_print_nodeid v)) as J1.
  { intros v H. unfold al_print_nodeid, al_nodeid. destruct v as [|[]|]; try apply JValue_null.
    now apply (JValue_nodeid n). }
  assert (forall v, JValue (al_print_bool v)) as J2.
  { intros v. unfold al_print_bool. destruct (al_bool v); [apply JValue_bool|apply JValue_null]. }
  assert (forall v t, wf_variant v = true -> JValue (al_print_text v t)) as J3.
  { intros v t H. unfold al_print_text. destruct (scalar_of t v); [|apply JValue_null]. unfold al_text.
    destruct v as [|[]|]; try apply JValue_null; 
      (apply JValue_output_len; cbn in H; try apply andb_prop in H; tauto). }
  assert (forall v t, wf_variant v = true -> JValue (al_print_scalar v t)) as J4.
  { intros v t H. unfold al_print_scalar, scalar_of. destruct v as [|x|]; try apply JValue_null.
    destruct (type_eqb _ _); [|apply JValue_null]. now apply JValue_scalar. }
  assert (JValue match al_v e AL_SEVERITY with VtScalar (VUInt16 z) => fmt_u z | _ => B "null" end) as J5.
  { pose proof (Hv AL_SEVERITY) as H. destruct (al_v e AL_SEVERITY) as [|[]|]; try apply JValue_null.
    cbn in H. apply JValue_u. lia. }
  unfold al_print_entry. generalize dependent (al_v e). intros f Hv J5.
  pose proof (J1 _ (Hv AL_CONDID)). pose proof (J1 _ (Hv AL_EVENTTYPE)). pose proof (J1 _ (Hv AL_SOURCENODE)).
  jvalue.
Qed.

(** With enough rounds a computation has one result, which satisfies [P]. *)
Definition steadily {A} (f : nat -> option A) (P : A -> Prop) : Prop :=
  exists p r, P r /\ forall rounds, (p <= rounds)%nat -> f rounds = Some r.

Lemma steadily_some {A} (r : A) (P : A -> Prop) : P r -> steadily (fun _ => Some r) P.
Proof. intros H. exists O, r. now split. Qed.

Lemma steadily_bind {A B'} (f : nat -> option A) (g : A -> nat -> option B') P Q :
  steadily f P -> (forall r, P r -> steadily (g r) Q) -> steadily (fun n => do x <- f n; g x n) Q.
Proof.
  intros (p & r & Hr & Hf) Hg. destruct (Hg r Hr) as (q & y & Hy & Hq). exists (p + q)%nat, y. split; [exact Hy|].
  intros rounds Hge. rewrite Hf by lia. apply Hq. lia.
Qed.

Lemma al_wait_ends deadline ready w st :
  steadily (fun rounds => al_wait rounds deadline ready w st) (fun r => later st (snd r)).
Proof.
  destruct (monotonic_passes w deadline) as [k Hk].
  destruct (event_loop_ends _ _ _ alarm_notif_cb ready k w Hk st) as [[[w2 st2] b] Hr].
  pose proof (Hr (S k) ltac:(lia)) as E. apply event_loop_rounds in E as (w3 & l & Hrd & -> & _).
  exists (S k), (w2, fold_left alarm_notif_cb l st). split.
  - exists l. split; [eapply event_rounds_good, Hrd|reflexivity].
  - intros rounds Hge. unfold al_wait. now rewrite Hr by lia.
Qed.

Lemma later_length st st' : store_ok st -> later st st' -> (length (evs st) <= length (evs st'))%nat.
Proof.
  intros [_ (lo & hi & I)] (l & _ & ->). rewrite fold_events by apply I. rewrite length_firstn, length_app.
  pose proof (inv_events _ _ _ I). lia.
Qed.

Definition action_ok (st : AlStore) (a : AlAction) : Prop :=
  0 <= ac_sc a /\ (forall i, ac_event a = Some i -> (i < length (evs st))%nat) /\ (forall sc, ac_repeat a = Some sc -> 0 <= sc).

Definition err_ok (e : Z * bytes * bytes) : Prop :=
  let '(sc, cat, msg) := e in 0 <= sc /\ (cat = B "service" \/ cat = B "timeout") /\ Bytes msg.

Lemma action_later st st' a : store_ok st -> later st st' -> action_ok st a -> action_ok st' a.
Proof.
  intros Hs Hl (H1 & H2 & H3). pose proof (later_length _ _ Hs Hl). repeat split; auto.
  intros i Hi. specialize (H2 i Hi). lia.
Qed.

Lemma find_from_spec p l : forall from i, find_from p from l = Some i ->
  (from <= i)%nat /\ exists e, nth_error l i = Some e /\ p e = true.
Proof.
  induction l as [|e l IH]; intros from i; cbn [find_from]; [discriminate|]. destruct from as [|k].
  - destruct (p e) eqn:E; [intros H; injection H as <-; split; [lia|now exists e]|].
    destruct (find_from p 0 l) as [j|] eqn:F; [|discriminate]. intros H. injection H as <-.
    destruct (IH _ _ F) as [_ Hx]. split; [lia|exact Hx].
  - destruct (find_from p k l) as [j|] eqn:F; [|discriminate]. intros H. injection H as <-.
    destruct (IH _ _ F) as [Hx Hy]. split; [lia|exact Hy].
Qed.

Lemma call_later w st cid m ev c : let r := al_call_condition_method w st cid m ev c in
  later st (snd (fst r)) /\ 0 <= snd r.
Proof.
  unfold al_call_condition_method.
  pose proof (call_status w cid (UA_NODEID_NUMERIC 0 m)
    [VtScalar (VByteString ev); VtScalar (VLocalizedText (Some (B "en")) (Some c))]) as Hc.
  destruct (Client_call _ _ _ _) as [w1 [sc o]]. cbn [fst snd] in Hc. pose proof (deliver_later w1 st) as Hl.
  destruct (deliver_events alarm_notif_cb w1 st) as [w2 st2]. cbn [fst snd] in *. split; [exact Hl|lia].
Qed.

Definition act_result (st : AlStore) (r : W * AlStore * AlAction * option (Z * bytes * bytes)) : Prop :=
  let '(_, st', a, err) := r in later st st' /\ action_ok st' a /\ match err with Some e => err_ok e | None => True end.

Lemma al_act_ends deadline w st cid comment name method want again : store_ok st ->
  steadily (fun rounds => al_act rounds deadline w st cid comment name method want again) (act_result st).
Proof.
  intros Hs. unfold al_act. set (ev := latest_event_id st cid). set (mark := length (evs st)).
  pose proof (call_later w st cid method ev comment) as Hc.
  destruct (al_call_condition_method w st cid method ev comment) as [[w1 st1] sc]. cbn [fst snd] in Hc.
  destruct Hc as [Hl Hsc]. destruct (negb _).
  { apply steadily_some. split; [exact Hl|]. split; [repeat split; auto; discriminate|].
    split; [exact Hsc|]. split; [now left|]. apply Bytes_snprintf, Bytes_cat; apply Bytes_B. }
  eapply steadily_bind; [apply al_wait_ends|]. intros [w2 st2] Hl2. cbn [snd] in Hl2.
  assert (forall i, al_find_followup st2 cid mark want comment = Some i -> (i < length (evs st2))%nat) as Hi.
  { intros i Hi. apply find_from_spec in Hi as (_ & e & He & _). apply nth_error_Some. congruence. }
  assert (exists w3 st3 rep,
    (if again then let '(w, st, sc) := al_call_condition_method w2 st2 cid method ev comment in (w, st, Some sc)
     else (w2, st2, None)) = (w3, st3, rep) /\ later st2 st3 /\ (forall sc, rep = Some sc -> 0 <= sc))
    as (w3 & st3 & rep & -> & Hl3 & Hrep).
  { destruct again; [|exists w2, st2, None; repeat split; [apply later_refl|discriminate]].
    pose proof (call_later w2 st2 cid method ev comment) as Hc.
    destruct (al_call_condition_method w2 st2 cid method ev comment) as [[w3 st3] sc3]. cbn [fst snd] in Hc.
    exists w3, st3, (Some sc3). split; [reflexivity|]. split; [apply Hc|]. intros x E. injection E as <-. apply Hc. }
  apply steadily_some. split; [eauto using later_trans|]. split.
  - repeat split; cbn [ac_sc ac_event ac_repeat]; auto. intros i E. specialize (Hi i E).
    assert (store_ok st2) as H2 by (eapply later_ok; [exact Hs|eauto using later_trans]).
    pose proof (later_length _ _ H2 Hl3). lia.
  - destruct (al_find_followup _ _ _ _ _); [exact I|]. split; [unfold UA_STATUSCODE_BADTIMEOUT; lia|].
    split; [now right|]. apply Bytes_snprintf, Bytes_cat; [apply Bytes_B|apply Bytes_cat; apply Bytes_B].
Qed.

Definition acts_result (st : AlStore) (r : W * AlStore * list (option AlAction) * option (Z * bytes * bytes)) : Prop :=
  let '(_, st', l, err) := r in
  later st st' /\ (forall a, In (Some a) l -> action_ok st' a) /\ match err with Some e => err_ok e | None => True end.

Lemma al_acts_end deadline cid comment acts : forall w st, store_ok st ->
  steadily (fun rounds => al_acts rounds deadline w st cid comment acts) (acts_result st).
Proof.
  induction acts as [|[b [[[name method] want] again]] acts IH]; intros w st Hs; cbn [al_acts].
  { apply steadily_some. split; [apply later_refl|]. split; [intros a []|exact I]. }
  destruct b.
  - eapply steadily_bind; [now apply al_act_ends|]. intros [[[w1 st1] a] [err|]] (Hl & Ha & He).
    { apply steadily_some. split; [exact Hl|]. split; [|exact He]. intros x [E|[]]. now injection E as <-. }
    assert (store_ok st1) as Hs1 by eauto using later_ok.
    eapply steadily_bind; [apply IH; exact Hs1|]. intros [[[w2 st2] l] err] (Hl2 & Hx & He2). apply steadily_some.
    split; [eauto using later_trans|]. split; [|exact He2]. intros x [E|E]; [|auto]. injection E as <-.
    eauto using action_later.
  - eapply steadily_bind; [apply IH; exact Hs|]. intros [[[w2 st2] l] err] (Hl2 & Hx & He2). apply steadily_some.
    split; [exact Hl2|]. split; [|exact He2]. intros x [E|E]; [discriminate|auto].
Qed.

Definition result_ok (st : AlStore) (r : al_result) : Prop :=
  store_ok st /\ 0 <= ar_final r /\ 0 <= ar_refresh r /\
  (forall cat msg, ar_error r = Some (cat, msg) -> (cat = B "service" \/ cat = B "timeout") /\ Bytes msg) /\
  (forall i, ar_target r = Some i -> (i < length (evs st))%nat) /\
  (forall a, In (Some a) [ar_ack r; ar_conf r; ar_cmt r] -> action_ok st a).

Lemma stop_ok st sc cat msg refresh : store_ok st -> 0 <= sc -> 0 <= refresh ->
  cat = B "service" \/ cat = B "timeout" -> Bytes msg -> result_ok st (al_stop sc cat msg refresh).
Proof.
  intros Hs H1 H2 Hc Hm. split; [exact Hs|]. cbn [al_stop ar_final ar_refresh ar_error ar_target ar_ack ar_conf ar_cmt].
  split; [exact H1|]. split; [exact H2|]. split; [intros c m E; injection E as <- <-; now split|]. split; [discriminate|].
  intros a [E|[E|[E|[]]]]; discriminate.
Qed.

Lemma nth_action (l : list (option AlAction)) k a : nth k l None = Some a -> In (Some a) l.
Proof. intros H. destruct (nth_in_or_default k l None) as [Hi|Hd]; [now rewrite H in Hi|congruence]. Qed.

Lemma al_refresh_later w st i : store_ok st -> phase st = 0 -> let r := al_refresh w st i in
  store_ok (snd (fst r)) /\ 0 <= snd r.
Proof.
  intros [Hw (lo & hi & I)] Hp. unfold al_refresh.
  pose proof (call_status w (UA_NODEID_NUMERIC 0 UA_NS0ID_CONDITIONTYPE)
    (UA_NODEID_NUMERIC 0 UA_NS0ID_CONDITIONTYPE_CONDITIONREFRESH) [VtScalar (VUInt32 i)]) as Hc.
  destruct (Client_call _ _ _ _) as [w1 [sc o]]. cbn [fst snd] in Hc.
  assert (store_ok (set_refresh st 1 (startSeen st) (endSeen st))) as Hs
    by (split; [exact Hw|eexists _, _; eapply al_inv_request; eassumption]).
  pose proof (deliver_later w1 (set_refresh st 1 (startSeen st) (endSeen st))) as Hl.
  destruct (deliver_events alarm_notif_cb w1 _) as [w2 st2]. cbn [fst snd] in *. split; [eauto using later_ok|lia].
Qed.

Lemma target_in name st i : al_target name st = Some i -> In i (conds st).
Proof. unfold al_target. intros H. now apply find_some in H. Qed.

Lemma cond_in st i : store_ok st -> In i (conds st) -> (i < length (evs st))%nat.
Proof.
  intros [_ (lo & hi & I)] Hi. destruct (inv_last _ _ _ I i Hi) as [Hb _]. pose proof (inv_window _ _ _ I). lia.
Qed.

Lemma al_run_ends deadline w argv subId mon_sc st : store_ok st -> phase st = 0 -> 0 <= mon_sc ->
  steadily (fun rounds => al_run rounds deadline w argv subId mon_sc st)
    (fun r => exists w' st' res, r = Some (w', st', res) /\ result_ok st' res).
Proof.
  intros Hs Hp Hm. unfold al_run. destruct (negb (StatusCode_isGood mon_sc)).
  { apply steadily_some. eexists _, _, _. split; [reflexivity|]. apply stop_ok; auto using Bytes_B. }
  pose proof (al_refresh_later w st subId Hs Hp) as Hr. destruct (al_refresh w st subId) as [[w1 st1] sc].
  cbn [fst snd] in Hr. destruct Hr as [Hs1 Hsc]. destruct (negb (StatusCode_isGood sc)).
  { apply steadily_some. eexists _, _, _. split; [reflexivity|]. apply stop_ok; auto using Bytes_B. }
  eapply steadily_bind; [apply al_wait_ends|]. intros [w2 st2] Hl. cbn [snd] in Hl.
  assert (store_ok st2) as Hs2 by eauto using later_ok. destruct (negb (endSeen st2)).
  { apply steadily_some. eexists _, _, _. split; [reflexivity|].
    apply stop_ok; auto using Bytes_B. unfold UA_STATUSCODE_BADTIMEOUT. lia. }
  destruct (al_target _ st2) as [t|] eqn:Et.
  - pose proof (cond_in st2 t Hs2 (target_in _ _ _ Et)) as Hlt. pose proof Hs2 as [_ (lo & hi & I)].
    pose proof (inv_cid _ _ _ I t Hlt) as Hcid. unfold cid_at in Hcid.
    destruct (match nth_error (evs st2) t with Some e => event_cid e | None => None end) as [cid|]; [|congruence].
    eapply steadily_bind; [now apply al_acts_end|]. intros [[[w3 st3] l] err] (Hl3 & Ha & He). apply steadily_some.
    eexists _, _, _. split; [reflexivity|]. split; [eauto using later_ok|].
    cbn [ar_final ar_refresh ar_error ar_target ar_ack ar_conf ar_cmt].
    split; [destruct err as [[[e c] m]|]; [apply He|unfold UA_STATUSCODE_GOOD; lia]|]. split; [exact Hsc|].
    split; [destruct err as [[[e c] m]|]; [intros ? ? E; injection E as <- <-; apply He|discriminate]|].
    split; [intros i E; injection E as <-; pose proof (later_length _ _ Hs2 Hl3); lia|].
    intros a [E|[E|[E|[]]]]; apply Ha; eapply nth_action, E.
  - apply steadily_some. eexists _, _, _. split; [reflexivity|]. destruct (existsb _ _).
    { apply stop_ok; auto using Bytes_B. unfold UA_STATUSCODE_BADNODEIDUNKNOWN. lia. }
    split; [exact Hs2|]. cbn [ar_final ar_refresh ar_error ar_target ar_ack ar_conf ar_cmt].
    unfold UA_STATUSCODE_GOOD. split; [lia|]. split; [exact Hsc|]. split; [discriminate|]. split; [discriminate|].
    intros a [E|[E|[E|[]]]]; discriminate.
Qed.

Lemma entry_opt_json st i : store_ok st -> (forall k, i = Some k -> (k < length (evs st))%nat) ->
  exists t, entry_opt st i = Some t /\ JValue t.
Proof.
  intros Hs Hi. destruct i as [k|]; [now apply entry_json; auto|]. exists (B "null"). split; [reflexivity|apply JValue_null].
Qed.

Lemma action_json key a st rep : store_ok st -> (forall x, a = Some x -> action_ok st x) ->
  exists v, al_print_action key a st rep = Some (J ",'" ++ B key ++ J "':" ++ v) /\ JValue v.
Proof.
  intros Hs Ha. destruct a as [x|]; [|exists (B "null"); split; [reflexivity|apply JValue_null]].
  destruct (Ha x eq_refl) as (H1 & H2 & H3). unfold al_print_action.
  destruct (entry_opt_json st (ac_event x) Hs H2) as (e & -> & He). eexists. split; [reflexivity|].
  pose proof (JValue_status (ac_sc x) H1).
  assert (JValue match ac_repeat x with Some sc => print_status_obj sc | None => B "null" end).
  { destruct (ac_repeat x) as [sc|]; [apply JValue_status; auto|apply JValue_null]. }
  change (JValue (J "{'statusCode':" ++ print_status_obj (ac_sc x) ++ J ",'event':" ++ e ++
    (if rep then J ",'repeatStatusCode':" ++ match ac_repeat x with Some sc => print_status_obj sc | None => B "null" end
     else []) ++ J "}")).
  destruct rep; jvalue.
Qed.

Lemma alarms_item_json n subId mon_sc st r : wf_nodeid n = true -> 0 <= subId -> 0 <= mon_sc -> result_ok st r ->
  exists t, alarms_item n subId mon_sc st r = Some t /\ JValue t.
Proof.
  intros Hn Hi Hm (Hs & Hf & Hr & _ & Ht & Ha). unfold alarms_item.
  destruct (mapM_total (entry_at st) JValue (conds st)) as (cs & -> & Hcs & _).
  { apply Forall_forall. intros i Hin. apply entry_json; [exact Hs|now apply cond_in]. }
  destruct (entry_opt_json st (ar_target r) Hs Ht) as (t & -> & Hjt).
  destruct (action_json "acknowledge" (ar_ack r) st true Hs) as (a & -> & Hja); [intros x E; apply Ha; rewrite E; cbn; auto|].
  destruct (action_json "confirm" (ar_conf r) st false Hs) as (b & -> & Hjb); [intros x E; apply Ha; rewrite E; cbn; auto|].
  destruct (action_json "addComment" (ar_cmt r) st false Hs) as (c & -> & Hjc); [intros x E; apply Ha; rewrite E; cbn; auto|].
  eexists. split; [reflexivity|]. pose proof (JValue_nodeid n Hn) as J1. change (print_ua_nodeid n) with (output_nodeid n) in J1.
  pose proof (JValue_u subId Hi). pose proof (JValue_status mon_sc Hm). pose proof (JValue_status (ar_refresh r) Hr).
  pose proof (JValue_bool (startSeen st)). pose proof (JValue_bool (endSeen st)). pose proof (JValue_array cs Hcs).
  jvalue.
Qed.

Lemma run_alarms_reports deadline w argv n : wf_nodeid n = true ->
  exists p, forall rounds, (p <= rounds)%nat -> ends_reporting (B "alarms") (run_alarms rounds deadline w argv n).
Proof.
  intros Hn. unfold run_alarms. set (r0 := {| sr_interval := _; sr_counts := _ |}).
  destruct (create_wf w r0) as (H1 & H2 & _). destruct (Subscriptions_create w r0) as [w1 sb]. cbn [snd] in *.
  destruct (StatusCode_isGood (sb_serviceResult sb)); cbn [negb].
  2:{ exists O. intros _ _. apply ends_failed; [apply Bytes_B..|lia|cbn; tauto]. }
  set (req := {| er_node := n; er_queueSize := _; er_select := _; er_where := _ |}).
  pose proof (createEvent_status w1 (sb_id sb) req) as Hm.
  destruct (MonitoredItems_createEvent w1 (sb_id sb) req) as [w2 mon]. cbn [snd] in Hm. fold al_empty.
  assert (store_ok al_empty) as He by (split; [constructor|eexists _, _; apply al_inv_empty]).
  pose proof (deliver_later w2 al_empty) as Hl.
  destruct (deliver_events alarm_notif_cb w2 al_empty) as [w3 st] eqn:Ed. cbn [snd] in Hl.
  assert (phase st = 0) as Hp by (destruct Hl as (l & _ & ->); eapply phase_before; [apply al_inv_empty|reflexivity]).
  destruct (al_run_ends deadline w3 argv (sb_id sb) mon st (later_ok _ _ He Hl) Hp ltac:(lia))
    as (p & r & (w4 & st4 & res & -> & Hok) & Hr).
  exists p. intros rounds Hge. rewrite (Hr rounds Hge).
  destruct (alarms_item_json n (sb_id sb) mon st4 res Hn ltac:(lia) ltac:(lia) Hok) as (t & -> & Ht).
  destruct Hok as (_ & Hf & _ & Herr & _). eexists _, _, _. split; [reflexivity|].
  apply reports_envelope; [apply Bytes_B|exact Hf| | |].
  - apply JRest_item; [exact Ht|]. unfold alarms_error. destruct (ar_error res) as [[c m]|]; [|apply JValue_null].
    destruct (Herr c m eq_refl) as [[->| ->] Hm']; pose proof (JValue_text m Hm'); jvalue.
  - destruct (ar_error res) as [[c m]|]; [|cbn; tauto]. destruct (streq _ _); cbn; tauto.
  - destruct (ar_error res) as [[c m]|]; [|reflexivity]. now destruct (streq _ _).
Qed.

(** alarms always ends, after at most its deadline's rounds, with one JSON envelope
    that agrees with the exit code; the indices it prints are inside the store. *)
Lemma alarms_reports w g argv : text_argv argv -> text_args g (B "alarms") ->
  (forall s, find_arg argv (B "--node") = Some s -> printable s) ->
  (forall w u i, snd (NamespaceGetIndex w u) = Some i -> 0 <= i) ->
  exists n, forall fuel, (n <= fuel)%nat -> exists p, forall rounds, (p <= rounds)%nat ->
    ends_reporting (B "alarms") (cmd_alarms fuel rounds w g argv).
Proof.
  intros Ht Hg Hp Hns. unfold cmd_alarms.
  assert (forall msg, Bytes msg -> exists n, forall fuel, (n <= fuel)%nat -> exists p, forall rounds, (p <= rounds)%nat ->
    ends_reporting (B "alarms") (usage_error w (B "alarms") msg)) as Hu
    by (intros msg Hm; exists O; intros; exists O; intros; apply ends_usage; [apply Bytes_B|exact Hm]).
  destruct (find_arg argv (B "--endpoint")) as [url|]; [|apply Hu, Bytes_B].
  set (s := default _ _). assert (Bytes s /\ printable s) as [Hb Hps].
  { unfold s. destruct (find_arg argv (B "--node")) as [x|] eqn:E; cbn [default]; [|split; [apply Bytes_B|]].
    - split; [exact (find_arg_Bytes _ _ _ Ht E)|now apply Hp].
    - vm_compute. repeat constructor. }
  destruct (negb _); [now apply Hu, Bytes_malformed|].
  apply with_client_rounds; [exact Hg|]. intros w1. destruct (nowMonotonic w1) as [w2 now].
  destruct (resolve_one w2 s) as [w3 [i| |]] eqn:Er.
  2, 3: exists O; intros; apply ends_unresolved; [apply Bytes_B|now apply Bytes_unknown_namespace].
  apply resolve_one_wf in Er; [|exact Hns|exact Hps]. now apply run_alarms_reports.
Qed.
End Reports.

(** * What exit code 0 means *)

Section ExitZero.
Context {stack : UaStack} {cj : CJson} {nid : NodeIdOps} {W : Type} {L : ClientLib W} {srv : Services W}
  {sub : Subscriptions W} {es : EventSubscriptions W}.

Definition grown (st st' : AlStore) : Prop := exists l, st' = fold_left alarm_notif_cb l st.

Definition sound (st : AlStore) : Prop :=
  (length (evs st) <= AL_MAX_EVS)%nat /\ (endSeen st = true -> phase st = 2).

Lemma grown_trans a b c : grown a b -> grown b c -> grown a c.
Proof. intros (l & ->) (m & ->). exists (l ++ m). symmetry. apply fold_left_app. Qed.

(** After the RefreshEnd only events are added. *)
Lemma cb_sound st e : sound st -> sound (alarm_notif_cb st e) /\
  (endSeen st = true -> endSeen (alarm_notif_cb st e) = true /\ conds (alarm_notif_cb st e) = conds st).
Proof.
  intros [Hl He]. destruct (cb_cases st e) as [->|[(Hp & [->| ->])|(x & c & _ & Hroom & ->)]].
  - now repeat split.
  - split; [split; [exact Hl|]|]; cbn; intros E; specialize (He E); lia.
  - split; [split; [exact Hl|reflexivity]|]. cbn. intros E. specialize (He E). lia.
  - split; [split; [cbn [evs]; rewrite length_app; cbn; lia|exact He]|]. cbn. intros E. now rewrite (He E).
Qed.

Lemma grown_sound st st' : grown st st' -> sound st -> sound st' /\
  (endSeen st = true -> endSeen st' = true /\ conds st' = conds st) /\
  (forall i e, nth_error (evs st) i = Some e -> nth_error (evs st') i = Some e).
Proof.
  intros (l & ->) Hs. split; [|split].
  - revert st Hs. induction l as [|e l IH]; intros st Hs; [exact Hs|]. now apply IH, cb_sound.
  - revert st Hs. induction l as [|e l IH]; intros st Hs E; [now split|]. cbn [fold_left].
    destruct (cb_sound st e Hs) as [Hs' Hk]. destruct (Hk E) as [E' <-]. now apply IH.
  - intros i e Hi. destruct Hs as [Hl _]. rewrite fold_events by exact Hl.
    assert (i < length (evs st))%nat by (apply nth_error_Some; congruence).
    rewrite nth_error_firstn. destruct (Nat.ltb_spec i AL_MAX_EVS); [|lia]. now rewrite nth_error_app1.
Qed.

Lemma grown_length st st' : grown st st' -> sound st -> (length (evs st) <= length (evs st'))%nat.
Proof.
  intros (l & ->) [Hl _]. rewrite fold_events by exact Hl. rewrite length_firstn, length_app. lia.
Qed.

Lemma al_wait_grown rounds deadline ready w st r : al_wait rounds deadline ready w st = Some r -> grown st (snd r).
Proof.
  unfold al_wait. destruct (event_loop _ _ _ _ _ _ _ _) as [[[w' st'] b]|] eqn:E; [|discriminate].
  intros H. injection H as <-. apply event_loop_rounds in E as (w2 & l & _ & -> & _). now exists l.
Qed.

Lemma call_grown w st cid m ev c : grown st (snd (fst (al_call_condition_method w st cid m ev c))).
Proof.
  unfold al_call_condition_method, deliver_events. destruct (Client_call _ _ _ _) as [w1 [sc o]].
  destruct (fired_events w1) as [w2 l]. now exists l.
Qed.

(** The action succeeded and an event of the condition, at [from] or later, shows its effect. *)
Definition done_action (st : AlStore) (from : nat) (cid : ua_nodeid) (comment : bytes) (want : AlWant) (again : bool)
    (a : AlAction) : Prop :=
  StatusCode_isGood (ac_sc a) = true /\ is_some (ac_repeat a) = again /\
  exists i e, ac_event a = Some i /\ (from <= i)%nat /\ nth_error (evs st) i = Some e /\
    same_condition (Some e) cid = true /\ shows_effect e want comment = true.

Lemma al_act_done rounds deadline w st cid comment name method want again w' st' a :
  al_act rounds deadline w st cid comment name method want again = Some (w', st', a, None) -> sound st ->
  grown st st' /\ done_action st' (length (evs st)) cid comment want again a.
Proof.
  unfold al_act. cbv zeta. pose proof (call_grown w st cid method (latest_event_id st cid) comment) as H1.
  set (ev := latest_event_id st cid) in *.
  destruct (al_call_condition_method w st cid method ev comment) as [[w1 st1] sc]. cbn [fst snd] in H1.
  destruct (StatusCode_isGood sc) eqn:Eg; cbn [negb]; [|discriminate].
  destruct (al_wait _ _ _ _ _) as [[w2 st2]|] eqn:Ew; [|discriminate]. apply al_wait_grown in Ew.
  cbn [snd obind] in *. pose proof (call_grown w2 st2 cid method ev comment) as H3.
  destruct (al_find_followup st2 cid (length (evs st)) want comment) as [i|] eqn:Ef; [|destruct again;
    [destruct (al_call_condition_method w2 st2 cid method ev comment) as [[? ?] ?]|]; intros H;
    cbv beta iota zeta in H; discriminate H].
  intros H Hs. destruct (grown_sound _ _ (grown_trans _ _ _ H1 Ew) Hs) as (Hs2 & _).
  apply find_from_spec in Ef as (Hfrom & e & Hi & Hp). apply andb_prop in Hp as [Hc He].
  destruct again.
  - destruct (al_call_condition_method w2 st2 cid method ev comment) as [[w3 st3] sc3]. cbn [fst snd] in H3.
    injection H as <- <- <-. split; [eauto using grown_trans|]. split; [exact Eg|]. split; [reflexivity|].
    exists i, e. split; [reflexivity|]. split; [exact Hfrom|]. split; [now apply (grown_sound _ _ H3 Hs2)|now split].
  - injection H as <- <- <-. split; [eauto using grown_trans|]. split; [exact Eg|]. split; [reflexivity|]. now exists i, e.
Qed.

(** What a list of requested actions left: nothing where not requested. *)
Definition acted (st : AlStore) (from : nat) (cid : ua_nodeid) (comment : bytes) (act : bool * (string * Z * AlWant * bool))
    (a : option AlAction) : Prop :=
  let '(on, (_, _, want, again)) := act in
  if on then exists x, a = Some x /\ done_action st from cid comment want again x else a = None.

Lemma acted_grown st st' from from' cid comment act a : grown st st' -> sound st -> (from' <= from)%nat ->
  acted st from cid comment act a -> acted st' from' cid comment act a.
Proof.
  destruct act as [[] [[[name method] want] again]]; [|auto]. intros Hg Hs Hle (x & -> & H1 & H2 & i & e & H3 & Hi & H4 & H5).
  exists x. split; [reflexivity|]. split; [exact H1|]. split; [exact H2|]. exists i, e. split; [exact H3|].
  split; [lia|]. split; [now apply (grown_sound _ _ Hg Hs)|exact H5].
Qed.

Lemma al_acts_done rounds deadline cid comment from acts : forall w st w' st' l,
  al_acts rounds deadline w st cid comment acts = Some (w', st', l, None) -> sound st ->
  (from <= length (evs st))%nat -> grown st st' /\ Forall2 (acted st' from cid comment) acts l.
Proof.
  induction acts as [|[on [[[name method] want] again]] acts IH]; intros w st w' st' l; cbn [al_acts].
  { intros H _ _. injection H as <- <- <-. split; [now exists []|constructor]. }
  destruct on.
  - destruct (al_act _ _ _ _ _ _ _ _ _ _) as [[[[w1 st1] a] [err|]]|] eqn:Ea; [discriminate| |discriminate].
    cbn [obind]. destruct (al_acts rounds deadline w1 st1 cid comment acts) as [[[[w2 st2] l2] err]|] eqn:Er; [|discriminate].
    intros H Hs Hfrom. injection H as <- <- <- ->. destruct (al_act_done _ _ _ _ _ _ _ _ _ _ _ _ _ Ea Hs) as [Hg Hd].
    destruct (grown_sound _ _ Hg Hs) as (Hs1 & _). pose proof (grown_length _ _ Hg Hs).
    destruct (IH _ _ _ _ _ Er Hs1 ltac:(lia)) as [Hg2 Hf].
    split; [eauto using grown_trans|]. constructor; [|exact Hf].
    apply (acted_grown _ _ (length (evs st)) from _ _ (true, (name, method, want, again)) (Some a) Hg2 Hs1 Hfrom). now exists a.
  - destruct (al_acts rounds deadline w st cid comment acts) as [[[[w2 st2] l2] err]|] eqn:Er; [|discriminate].
    intros H Hs Hfrom. injection H as <- <- <- ->. destruct (IH _ _ _ _ _ Er Hs Hfrom) as [Hg Hf].
    split; [exact Hg|]. now constructor.
Qed.

Lemma refresh_sound w st i : sound st -> phase st = 0 -> sound (snd (fst (al_refresh w st i))).
Proof.
  intros [Hl Hd] He. unfold al_refresh, deliver_events. destruct (Client_call _ _ _ _) as [w1 [sc o]].
  destruct (fired_events w1) as [w2 l]. cbn [fst snd].
  eapply grown_sound; [now exists l|]. split; [exact Hl|]. cbn. intros E. specialize (Hd E). lia.
Qed.

Lemma phase_zero l : forall st, phase st = 0 -> phase (fold_left alarm_notif_cb l st) = 0.
Proof. induction l as [|e l IH]; intros st Hp; [exact Hp|]. cbn [fold_left]. apply IH. now rewrite cb_phase, Hp. Qed.

Lemma al_run_done rounds deadline w argv subId mon_sc st w' st' r :
  al_run rounds deadline w argv subId mon_sc st = Some (Some (w', st', r)) -> sound st -> phase st = 0 ->
  ar_error r = None ->
  StatusCode_isGood mon_sc = true /\ StatusCode_isGood (ar_refresh r) = true /\ endSeen st' = true /\
  (ar_target r = None /\ Forall (fun a => fst a = false) (al_actions argv) /\ ar_ack r = None /\ ar_conf r = None /\
     ar_cmt r = None
   \/ exists t e cid, ar_target r = Some t /\ In t (conds st') /\ nth_error (evs st') t = Some e /\
     event_cid e = Some cid /\ al_matches (find_arg argv (B "--condition-name")) e = true /\
     Forall2 (acted st' (S t) cid (al_comment argv)) (al_actions argv) [ar_ack r; ar_conf r; ar_cmt r]) /\
  ar_final r = UA_STATUSCODE_GOOD.
Proof.
  unfold al_run. destruct (StatusCode_isGood mon_sc); cbn [negb]; [|intros H _ _ He; injection H as <- <- <-; discriminate He].
  intros H Hs Hp He. pose proof (refresh_sound w st subId Hs Hp) as Hs1.
  destruct (al_refresh w st subId) as [[w1 st1] sc]. cbn [fst snd] in Hs1.
  destruct (StatusCode_isGood sc) eqn:Eg; cbn [negb] in H; [|injection H as <- <- <-; discriminate He].
  destruct (al_wait _ _ _ _ _) as [[w2 st2]|] eqn:Ew; [|discriminate]. apply al_wait_grown in Ew. cbn [snd obind] in *.
  destruct (grown_sound _ _ Ew Hs1) as (Hs2 & _).
  destruct (endSeen st2) eqn:Ee; cbn [negb] in H; [|injection H as <- <- <-; discriminate He].
  destruct (al_target _ st2) as [t|] eqn:Et.
  - apply find_some in Et as [Hin Hm]. destruct (nth_error (evs st2) t) as [e|] eqn:En; [|discriminate].
    destruct (event_cid e) as [cid|] eqn:Ec; [|discriminate].
    destruct (al_acts _ _ _ _ _ _ _) as [[[[w3 st3] l] err]|] eqn:Ea; [|discriminate].
    cbn [obind] in H. injection H as <- <- <-. cbn [ar_error] in He. destruct err as [[[? ?] ?]|]; [discriminate|].
    assert (t < length (evs st2))%nat as Hlt by (apply nth_error_Some; congruence).
    destruct (al_acts_done _ _ _ _ (S t) _ _ _ _ _ _ Ea Hs2 Hlt) as [Hg Hf]. destruct (grown_sound _ _ Hg Hs2) as (_ & Hk & Hev).
    destruct (Hk Ee) as [Ee' Ek]. split; [reflexivity|]. split; [exact Eg|]. split; [exact Ee'|]. split; [|reflexivity].
    right. exists t, e, cid. rewrite Ek. split; [reflexivity|]. split; [exact Hin|]. split; [auto|].
    split; [exact Ec|]. split; [exact Hm|]. cbn [ar_ack ar_conf ar_cmt].
    inversion Hf as [|? a1 ? l1 A1 F1]; subst. inversion F1 as [|? a2 ? l2 A2 F2]; subst.
    inversion F2 as [|? a3 ? l3 A3 F3]; subst. repeat constructor; assumption.
  - cbv zeta in H. destruct (existsb fst (al_actions argv)) eqn:Ex; injection H as <- <- <-; [discriminate He|].
    split; [reflexivity|]. split; [exact Eg|]. split; [exact Ee|]. split; [left|reflexivity]. repeat split.
    apply Forall_forall. intros a Ha. destruct (fst a) eqn:Ef; [|reflexivity].
    assert (existsb fst (al_actions argv) = true) by (apply existsb_exists; eauto). congruence.
Qed.
End ExitZero.

(** C15: exit code 0 of alarms: the event item and the ConditionRefresh are Good and the
    RefreshEnd was seen; of the actions asked for, each was applied to one
    condition of the refresh, the first that has --condition-name (or is
    retained), was Good, and has a later stored event of that condition which shows
    it acknowledged, confirmed or commented; what was not asked for was not done.
    The output shows the final store. *)
Theorem alarms_exit_zero {stack : UaStack} {cj : CJson} {nid : NodeIdOps} {W} {L : ClientLib W} {srv : Services W}
    {sub : Subscriptions W} {es : EventSubscriptions W} fuel rounds w g argv w' out :
  cmd_alarms fuel rounds w g argv = Exits w' 0 out ->
  exists n subId mon_sc st r item,
    StatusCode_isGood mon_sc = true /\ StatusCode_isGood (ar_refresh r) = true /\ endSeen st = true /\
    (ar_target r = None /\ Forall (fun a => fst a = false) (al_actions argv) /\ ar_ack r = None /\ ar_conf r = None /\
       ar_cmt r = None
     \/ exists t e cid, ar_target r = Some t /\ In t (conds st) /\ nth_error (evs st) t = Some e /\
       event_cid e = Some cid /\ al_matches (find_arg argv (B "--condition-name")) e = true /\
       Forall2 (acted st (S t) cid (al_comment argv)) (al_actions argv) [ar_ack r; ar_conf r; ar_cmt r]) /\
    alarms_item n subId mon_sc st r = Some item /\
    out = envelope (B "alarms") true UA_STATUSCODE_GOOD
            (J ",'results':" ++ jarray [item] ++ J ",'error':" ++ B "null").
Proof.
  unfold cmd_alarms. destruct (find_arg argv (B "--endpoint")) as [url|]; [|discriminate].
  set (s := default _ _). destruct (negb _); [discriminate|]. unfold with_client.
  destruct (make_client _ _ _ _ _ _) as [[w0 [cfg|f]]|] eqn:Em; [| |discriminate].
  2:{ unfold failed. intros H. injection H as _ H _. apply make_client_exit in Em. rewrite H in Em. cbn in Em. lia. }
  destruct (nowMonotonic w0) as [w1 now]. destruct (resolve_one w1 s) as [w2 [n| |]]; [|discriminate..].
  unfold run_alarms. destruct (Subscriptions_create _ _) as [w3 sb]. destruct (negb _); [discriminate|].
  destruct (MonitoredItems_createEvent _ _ _) as [w4 mon]. unfold deliver_events. destruct (fired_events w4) as [w5 l0].
  set (st0 := fold_left _ _ _). set (dl := now + _).
  destruct (al_run rounds dl w5 argv (sb_id sb) mon st0) as [[[[w6 st] r]|]|] eqn:Er; [|discriminate..].
  destruct (alarms_item n (sb_id sb) mon st r) as [item|] eqn:Ei; [|discriminate].
  destruct (ar_error r) as [[cat msg]|] eqn:Ee; [destruct (streq _ _); discriminate|]. intros H. injection H as <- <-.
  assert (sound st0) as Hs0.
  { apply (grown_sound {| evs := []; phase := 0; startSeen := false; endSeen := false; conds := [] |}); [now exists l0|].
    split; cbn; [lia|discriminate]. }
  destruct (al_run_done rounds dl w5 argv (sb_id sb) mon st0 w6 st r Er Hs0 (phase_zero l0 al_empty eq_refl) Ee) as (H1 & H2 & H3 & H4 & H5).
  exists n, (sb_id sb), mon, st, r, item. rewrite H5. now repeat split.
Qed.

(** * A server with one alarm *)

Definition alarm_event (cid : ua_nodeid) : event_fields :=
  map (fun v => (None, v))
    [VtScalar (VByteString (Some [1])); VtScalar (VNodeId (UA_NODEID_NUMERIC 0 UA_NS0ID_ALARMCONDITIONTYPE));
     VtEmpty; VtEmpty; VtEmpty; VtEmpty; VtEmpty; VtScalar (VString (Some (B "high"))); VtEmpty;
     VtScalar (VBoolean true); VtEmpty; VtScalar (VLocalizedText None (Some (B "interop-comment")));
     VtScalar (VBoolean true); VtScalar (VBoolean true); VtEmpty; VtScalar (VNodeId cid)].

Definition refresh_end : event_fields :=
  map (fun i => (None, if Nat.eqb i AL_EVENTTYPE
                       then VtScalar (VNodeId (UA_NODEID_NUMERIC 0 UA_NS0ID_REFRESHENDEVENTTYPE)) else VtEmpty))
    (seq 0 AL_NF).

Definition ref_alarm_server : EventSubscriptions Z := {|
  MonitoredItems_createEvent w _ _ := (w, UA_STATUSCODE_GOOD);
  fired_events w := (w, [alarm_event (UA_NODEID_NUMERIC 1 7); refresh_end]);
  nowMonotonic w := (w, w * 10000) |}.

Definition alarms_argv : list bytes :=
  [B "alarms"; B "--endpoint"; B "opc.tcp://s"; B "--condition-name"; B "high"; B "--acknowledge"; B "--add-comment"].

Lemma alarm_refresh_table_witness :
  let before := [alarm_event (UA_NODEID_NUMERIC 1 7)] in
  let during := [alarm_event (UA_NODEID_NUMERIC 1 8); alarm_event (UA_NODEID_NUMERIC 1 7); alarm_event (UA_NODEID_NUMERIC 1 8)] in
  let s0 := fold_left alarm_notif_cb before al_empty in
  let s1 := fold_left alarm_notif_cb during (set_refresh s0 1 (startSeen s0) (endSeen s0)) in
  let s2 := fold_left alarm_notif_cb [refresh_end; alarm_event (UA_NODEID_NUMERIC 1 7)] s1 in
  al_inv 1 4 s2 /\ conds s2 = [3%nat; 2%nat] /\ length (evs s2) = 5%nat.
Proof.
  intros before during s0 s1 s2.
  destruct (alarm_refresh_table before during [refresh_end; alarm_event (UA_NODEID_NUMERIC 1 7)]) as (H & _ & _);
    [reflexivity|right; eexists _, _; split; reflexivity|].
  split; [exact H|]. split; reflexivity.
Defined.

Lemma alarms_exit_zero_witness : exists w' out st r,
  cmd_alarms (es := ref_alarm_server) 5 9 0 g_sec_default alarms_argv = Exits w' 0 out /\ endSeen st = true /\
  exists a, ar_ack r = Some a /\ StatusCode_isGood (ac_sc a) = true.
Proof.
  destruct (cmd_alarms (es := ref_alarm_server) 5 9 0 g_sec_default alarms_argv) as [w' code out| |] eqn:E;
    [|vm_compute in E; discriminate..].
  assert (code = 0) as -> by (vm_compute in E; congruence).
  destruct (alarms_exit_zero (es := ref_alarm_server) 5 9 0 g_sec_default alarms_argv w' out E)
    as (n & sid & msc & st & r & item & _ & _ & He & Hr & _ & _).
  exists w', out, st, r. split; [reflexivity|]. split; [exact He|].
  destruct Hr as [(_ & Hf & _)|(t & e & cid & _ & _ & _ & _ & _ & Hf)].
  - inversion Hf as [|? ? H _]. vm_compute in H. discriminate H.
  - inversion Hf as [|? ? ? ? H _]. cbn [acted al_actions] in H. destruct H as (a & Ha & Hg & _).
    exists a. split; [exact Ha|exact Hg].
Defined.
