(* ===== verification/Codec.v ===== *)
(** codec.c: the [codec] command, OPC UA JSON and XML DataEncoding of built-in
    values: encode a literal or a node's value, decode a document, and the short
    form that shows nodes in both encodings. *)

From Stdlib Require Import String Ascii ZArith Bool List Lia SpecFloat.
Import ListNotations.
From S2P Require Import Prelude CLib Json Float UaTypes RefStack Base64 Output CJson Values Args.
From S2P Require Import NodeIds Connect Session ReadWrite BrowseCall HistoryRead Subscribe HistoryEvents.

(** * The encoders of the stack and the input files *)

(** A status and, when it is Good, the document or the value. *)
Class UaCodec := {
  UA_encodeJson : ua_value -> Z * ua_string;
  UA_encodeXml : ua_value -> Z * ua_string;
  UA_encodeBinary : ua_value -> Z * ua_string;
  UA_decodeJson : bytes -> ua_type -> Z * ua_value;
  UA_decodeXml : bytes -> ua_type -> Z * ua_value
}.

(** What [fopen] of a path, or standard input ([None]), has to read; [None] when
    the file cannot be opened. *)
Class InputFiles (W : Type) := { input_bytes : W -> option bytes -> W * option bytes }.


Inductive Format := FMT_JSON | FMT_XML.

Definition codec_op : bytes := B "codec".

Section Codec.
Context {stack : UaStack} {cj : CJson} {enc : UaCodec}.

(** * Encoding and decoding a document *)

Definition xml_unsupported_type (type : ua_type) (decoding : bool) : bool :=
  type_eqb type TDataValue || type_eqb type TDiagnosticInfo || (decoding && type_eqb type TXmlElement).

Definition xml_encode_unsupported (src : ua_value) : bool :=
  xml_unsupported_type (type_of src) false
  || match src with
     | VVariant v => Nat.ltb 1 (length (variant_dims v))
                     || match variant_type v with Some t => xml_unsupported_type t false | None => false end
     | _ => false
     end.

Definition encode_doc (fmt : Format) (src : ua_value) : Z * ua_string :=
  match fmt with
  | FMT_XML => if xml_encode_unsupported src then (UA_STATUSCODE_BADNOTIMPLEMENTED, None) else UA_encodeXml src
  | FMT_JSON => UA_encodeJson src
  end.

Definition decode_doc (fmt : Format) (doc : bytes) (type : ua_type) : Z * ua_value :=
  match fmt with
  | FMT_XML => if xml_unsupported_type type true then (UA_STATUSCODE_BADNOTIMPLEMENTED, VBoolean false)
               else UA_decodeXml doc type
  | FMT_JSON => UA_decodeJson doc type
  end.

(** * Printing *)

(** A member without its comma. *)
Definition print_doc_field (key : string) (fmt : Format) (src : ua_value) : bytes :=
  let '(sc, doc) := encode_doc fmt src in
  J "'" ++ B key ++ J "':" ++ if sc =? UA_STATUSCODE_GOOD then output_json_string_len doc else B "null".

Definition print_binary_field (key : string) (src : ua_value) : bytes :=
  let '(sc, bin) := UA_encodeBinary src in
  J "'" ++ B key ++ J "':"
  ++ if sc =? UA_STATUSCODE_GOOD then J "'" ++ value_b64_encode (default [] bin) ++ J "'" else B "null".

Definition print_variant_fields (v : ua_variant) : bytes :=
  match v with
  | VtEmpty => J ",'dataType':'Null','builtInType':0,'valueRank':-1,'value':null"
  | _ =>
      J ",'dataType':" ++ output_json_string (Some (value_type_name (variant_type v)))
      ++ J ",'builtInType':" ++ fmt_d (ua_type_to_builtin_id (variant_type v))
      ++ match v with
         | VtArray _ _ dims =>
             if Nat.ltb 1 (length dims)
             then J ",'valueRank':" ++ fmt_u (Z.of_nat (length dims)) ++ J ",'arrayDimensions':" ++ jarray (map fmt_u dims)
             else J ",'valueRank':1"
         | _ => J ",'valueRank':-1"
         end
      ++ output_ua_variant_field (B "value") v
  end.

Definition dv_value (d : ua_datavalue) : ua_variant := let '(DataValue v _ _ _ _ _) := d in default VtEmpty v.

(** * Arguments *)

Definition parse_format (argv : list bytes) : option (Format * bytes) :=
  match match find_arg argv (B "--format") with Some f => Some f | None => find_arg argv (B "--decode") end with
  | None => None
  | Some f => if streq f (B "json") then Some (FMT_JSON, B "json")
              else if streq f (B "xml") then Some (FMT_XML, B "xml") else None
  end.

Definition check_json_mode (argv : list bytes) : bool :=
  match find_arg argv (B "--json-mode") with Some m => streq m (B "compact") | None => true end.

Definition json_mode_error : bytes :=
  B "--json-mode: open62541 only implements the OPC UA 1.05 " ++ J "'compact' JSON encoding".

Definition option_flag (argv : list bytes) (f : string) (g : bytes -> Z) : option Z := option_map g (find_arg argv (B f)).

Definition stamp_flag (argv : list bytes) (f msg : string) : result (option Z) :=
  match find_arg argv (B f) with
  | None => Ok None
  | Some s => match value_parse_datetime s with Some t => Ok (Some t) | None => Err (B msg) end
  end.

(** The DataValue of [--type]/[--value] and its optional members; [None]: out of fuel. *)
Definition literal_value (argv : list bytes) : option (result ua_datavalue) :=
  match find_arg argv (B "--type"), find_arg argv (B "--value") with
  | Some typeStr, Some valStr =>
      fbind (value_parse (S (length valStr)) 256 (Some typeStr) (Some valStr) (find_arg argv (B "--dimensions")))
        (fun v => Some (
          try src <- stamp_flag argv "--source-timestamp" "invalid --source-timestamp (want RFC 3339 UTC)";
          try srv <- stamp_flag argv "--server-timestamp" "invalid --server-timestamp (want RFC 3339 UTC)";
          Ok (DataValue (Some v) (option_flag argv "--status" (fun s => u32 (sval (strtoul 0 s)))) src
                (option_flag argv "--source-picoseconds" (fun s => u16 (atoi s))) srv
                (option_flag argv "--server-picoseconds" (fun s => u16 (atoi s))))))
  | _, _ => Some (Err (B "codec encode: --type and --value (or --node) are required"))
  end.

(** * encode *)

Definition format_members (action : string) (fmt : Format) (name : bytes) : bytes :=
  J "{'action':'" ++ B action ++ J "','format':'" ++ name ++ J "'"
  ++ match fmt with FMT_JSON => J ",'jsonMode':'compact'" | FMT_XML => [] end.

(** The scalar whose bare encoding is shown as well. *)
Definition bare_value (v : ua_variant) : list ua_value := match v with VtScalar x => [x] | _ => [] end.

Definition encode_item (fmt : Format) (name : bytes) (node : option ua_nodeid) (dv : ua_datavalue) : bytes :=
  let v := dv_value dv in
  format_members "encode" fmt name
  ++ J ",'source':'" ++ match node with Some _ => B "node" | None => B "literal" end ++ J "'"
  ++ match node with Some n => J ",'nodeId':" ++ output_nodeid n | None => [] end
  ++ print_variant_fields v ++ J ",'dataValue':" ++ output_ua_datavalue dv
  ++ J ",'encoded':"
  ++ jobject (map (print_doc_field "value" fmt) (bare_value v)
             ++ [print_doc_field "variant" fmt (VVariant v); print_doc_field "dataValue" fmt (VDataValue dv)])
  ++ J ",'statusCodes':"
  ++ jobject (map (fun x => hev_print_status "value" (fst (encode_doc fmt x))) (bare_value v)
             ++ [hev_print_status "variant" (fst (encode_doc fmt (VVariant v)));
                 hev_print_status "dataValue" (fst (encode_doc fmt (VDataValue dv)))])
  ++ J ",'binary':"
  ++ jobject (map (print_binary_field "value") (bare_value v)
             ++ [print_binary_field "variant" (VVariant v); print_binary_field "dataValue" (VDataValue dv)])
  ++ J "}".

Definition codec_error (ok : bool) (msg : string) : bytes :=
  if ok then output_null_error else J ",'error':{'category':'service','message':'" ++ B msg ++ J "'}".

Definition codec_results (items : list bytes) (ok : bool) (msg : string) : bytes :=
  output_open_results ++ commas items ++ output_close_results ++ codec_error ok msg.

Definition emit_encoded {W} (w : W) (fmt : Format) (name : bytes) (node : option ua_nodeid) (dv : ua_datavalue) : outcome W :=
  let sc := fst (encode_doc fmt (VVariant (dv_value dv))) in
  let ok := sc =? UA_STATUSCODE_GOOD in
  Exits w (if ok then 0 else 4)
    (envelope codec_op ok sc (codec_results [encode_item fmt name node dv] ok "encoding failed")).

(** * decode *)

Definition is_trailing (c : Z) : bool := (c =? 10) || (c =? 13) || (c =? 32) || (c =? 9).

(** [while (len > 0 && ...) len--] *)
Fixpoint strip_trailing (rev_buf : bytes) : bytes :=
  match rev_buf with
  | c :: r => if is_trailing c then strip_trailing r else rev_buf
  | [] => []
  end.

(** The reading loop: [buf] holds [len] bytes of a buffer of [cap], [rest] is what
    the file still has.  [None]: out of fuel. *)
Fixpoint read_loop (fuel cap : nat) (buf rest : bytes) : option bytes :=
  match fuel with
  | O => None
  | S f =>
      let cap := if Nat.eqb (length buf) cap then (2 * cap)%nat else cap in
      let n := Nat.min (cap - length buf) (length rest) in
      if Nat.eqb n 0 then Some buf else read_loop f cap (buf ++ firstn n rest) (skipn n rest)
  end.

Definition read_all (content : bytes) : option bytes :=
  option_map (fun buf => rev (strip_trailing (rev buf))) (read_loop (S (length content)) 4096 [] content).

Definition decoded_members (type : ua_type) (v : ua_value) : bytes :=
  match v with
  | VVariant w => print_variant_fields w
  | VDataValue d => print_variant_fields (dv_value d) ++ J ",'dataValue':" ++ output_ua_datavalue d
  | _ => J ",'dataType':" ++ output_json_string (Some (value_type_name (Some type)))
         ++ J ",'builtInType':" ++ fmt_d (ua_type_to_builtin_id (Some type))
         ++ J ",'valueRank':-1,'value':" ++ output_ua_scalar v
  end.

Definition decode_item (fmt : Format) (name typeStr : bytes) (type : ua_type) (sc : Z) (v : ua_value) : bytes :=
  format_members "decode" fmt name ++ J ",'type':" ++ output_json_string (Some typeStr) ++ J ","
  ++ hev_print_status "statusCode" sc
  ++ (if sc =? UA_STATUSCODE_GOOD
      then decoded_members type v ++ J "," ++ print_binary_field "binary" v ++ J "," ++ print_doc_field "reencoded" fmt v
      else []) ++ J "}".

Definition emit_decoded {W} (w : W) (fmt : Format) (name typeStr : bytes) (type : ua_type) (doc : bytes) : outcome W :=
  let '(sc, v) := decode_doc fmt doc type in
  let ok := sc =? UA_STATUSCODE_GOOD in
  Exits w (if ok then 0 else 4)
    (envelope codec_op ok sc (codec_results [decode_item fmt name typeStr type sc v] ok "decoding failed")).
End Codec.

Section Commands.
Context {stack : UaStack} {cj : CJson} {enc : UaCodec} {W : Type} {L : ClientLib W} {srv : Services W}
  {files : InputFiles W}.

(** [sc != GOOD] after a read *)
Definition read_exit (sc : Z) : Z := if sc =? UA_STATUSCODE_BADTIMEOUT then 7 else 4.

(** [resultsSize] checked against the request. *)
Definition read_values (w : W) (ids : list ua_nodeid) : W * (Z * list ua_datavalue) :=
  let '(w, (sc, results)) := Service_read w TS_BOTH
    (map (fun n => {| rv_nodeId := n; rv_indexRange := None |}) ids) in
  (Client_disconnect w,
   (if (sc =? UA_STATUSCODE_GOOD) && negb (Nat.eqb (length results) (length ids))
    then UA_STATUSCODE_BADUNEXPECTEDERROR else sc, results)).

(** The value of [--node], from the connected client on. *)
Definition encode_node (w : W) (fmt : Format) (name nodeStr : bytes) : outcome W :=
  match resolve_one w nodeStr with
  | (w, NsuOk n) =>
      let '(w, (sc, results)) := read_values w [n] in
      match (if sc =? UA_STATUSCODE_GOOD then results else []) with
      | dv :: _ =>
          if StatusCode_isBad (dv_status dv)
          then failed w (fail codec_op (read_exit (dv_status dv)) (dv_status dv) (B "service") (B "Read of --node failed"))
          else emit_encoded w fmt name (Some n) dv
      | [] => failed w (fail codec_op (read_exit sc) sc (B "service") (B "Read of --node failed"))
      end
  | (w, _) => unresolved_exit w codec_op (B "unknown namespace URI in --node")
  end.

Definition codec_encode (fuel : nat) (w : W) (g : ClientSecurity) (argv : list bytes) : outcome W :=
  match parse_format argv with
  | None => usage_error w codec_op (B "codec encode: --format json|xml is required")
  | Some (fmt, name) =>
      if negb (check_json_mode argv) then usage_error w codec_op json_mode_error
      else
        match find_arg argv (B "--node") with
        | Some nodeStr =>
            if is_some (find_arg argv (B "--type")) || is_some (find_arg argv (B "--value"))
            then usage_error w codec_op (B "codec encode: use either --node or --type/--value")
            else
              match find_arg argv (B "--endpoint") with
              | None => usage_error w codec_op (B "codec encode --node requires --endpoint")
              | Some endpoint =>
                  if negb (validate_nodeid_structure nodeStr) then usage_error w codec_op (malformed nodeStr)
                  else with_client fuel w g endpoint 5000 codec_op (fun w => encode_node w fmt name nodeStr)
              end
        | None =>
            match literal_value argv with
            | None => NoFuel
            | Some (Err msg) => usage_error w codec_op msg
            | Some (Ok dv) => emit_encoded w fmt name None dv
            end
        end
  end.

Definition codec_decode (w : W) (argv : list bytes) : outcome W :=
  match parse_format argv with
  | None => usage_error w codec_op (B "codec decode: --format json|xml is required")
  | Some (fmt, name) =>
      if negb (check_json_mode argv) then usage_error w codec_op json_mode_error
      else
        match find_arg argv (B "--type") with
        | None => usage_error w codec_op (B "codec decode: --type <BuiltInType|Variant|DataValue> is required")
        | Some typeStr =>
            match value_builtin_type typeStr with
            | None => usage_error w codec_op
                (snprintf 256 (B "unknown --type '" ++ typeStr ++ B "' (arrays are decoded as Variant)"))
            | Some type =>
                match find_arg argv (B "--document") with
                | Some [] => usage_error w codec_op (B "empty input document (stdin, --input or --document)")
                | Some doc => emit_decoded w fmt name typeStr type doc
                | None =>
                    match input_bytes w (find_arg argv (B "--input")) with
                    | (w, None) => usage_error w codec_op (B "cannot open --input file")
                    | (w, Some content) =>
                        match read_all content with
                        | None => NoFuel
                        | Some [] => usage_error w codec_op (B "empty input document (stdin, --input or --document)")
                        | Some doc => emit_decoded w fmt name typeStr type doc
                        end
                    end
                end
            end
        end
  end.

(** * The short form *)

Definition CODEC_MAX_NODES : nat := 64.

Definition node_item (n : ua_nodeid) (dv : ua_datavalue) : bytes :=
  let v := VVariant (dv_value dv) in
  J "{'nodeId':" ++ output_nodeid n ++ J "," ++ hev_print_status "statusCode" (dv_status dv)
  ++ (if StatusCode_isBad (dv_status dv) then J ",'json':null,'xml':null"
      else print_variant_fields (dv_value dv)
           ++ J "," ++ print_doc_field "json" FMT_JSON v ++ J "," ++ print_doc_field "xml" FMT_XML v
           ++ J "," ++ print_doc_field "dataValueJson" FMT_JSON (VDataValue dv)
           ++ J "," ++ print_doc_field "dataValueXml" FMT_XML (VDataValue dv)
           ++ J "," ++ print_binary_field "binary" v ++ J "," ++ print_binary_field "dataValueBinary" (VDataValue dv))
  ++ J "}".

(** The status of an item: of the read, else of its JSON encoding. *)
Definition node_status (dv : ua_datavalue) : Z :=
  if StatusCode_isBad (dv_status dv) then dv_status dv else fst (encode_doc FMT_JSON (VVariant (dv_value dv))).

Definition send_nodes (w : W) (ids : list ua_nodeid) : outcome W :=
  let '(w, (sc, results)) := read_values w ids in
  if negb (sc =? UA_STATUSCODE_GOOD)
  then failed w (fail codec_op (read_exit sc) sc (B "service") (B "Read failed"))
  else
    let bad := find (fun s => negb (s =? UA_STATUSCODE_GOOD)) (map node_status results) in
    let ok := negb (is_some bad) in
    Exits w (if ok then 0 else 4)
      (envelope codec_op ok (default UA_STATUSCODE_GOOD bad)
         (codec_results (map (fun p => node_item (fst p) (snd p)) (combine ids results)) ok "read or encoding failed")).

Definition codec_nodes (fuel : nat) (w : W) (g : ClientSecurity) (argv : list bytes) : outcome W :=
  match find_arg argv (B "--endpoint"), firstn CODEC_MAX_NODES (flag_values argv (B "--node")) with
  | Some endpoint, ((_ :: _) as nodes) =>
      match find (fun s => negb (validate_nodeid_structure s)) nodes with
      | Some bad => usage_error w codec_op (malformed bad)
      | None =>
          with_client fuel w g endpoint 5000 codec_op (fun w =>
          match resolve_nodes w nodes with
          | (w, inl ids) => send_nodes w ids
          | (w, inr _) => unresolved_exit w codec_op (B "unknown namespace URI in --node")
          end)
      end
  | _, _ => usage_error w codec_op (B "usage: codec --endpoint <url> --node <nodeId> [--node ...]")
  end.

(** * Dispatch *)

Definition codec_usage : bytes :=
  B "usage: codec encode --format json|xml (--type <T> --value <v> | --endpoint <url> --node <id>) | codec decode --format json|xml --type <T> | codec --endpoint <url> --node <id> [--node ...] | codec --decode json|xml --type <T> | codec pubsub-uadp-encode|pubsub-uadp-decode|pubsub-json-encode|pubsub-json-decode [--document <text>|--input <file>] [--metadata <json>|--metadata-file <file>]".

(** [None]: the [pubsub-] subcommands of pubsub_codec.c. *)
Definition cmd_codec (fuel : nat) (w : W) (g : ClientSecurity) (argv : list bytes) : option (outcome W) :=
  match argv with
  | _ :: ((a :: _) as rest) =>
      if is_some (strip (B "pubsub-") a) then None
      else Some (
        if streq a (B "encode") then codec_encode fuel w g rest
        else if streq a (B "decode") then codec_decode w rest
        else if is_some (find_arg argv (B "--decode")) then codec_decode w argv
        else if is_some (find_arg argv (B "--node")) then codec_nodes fuel w g argv
        else usage_error w codec_op codec_usage)
  | _ => Some (usage_error w codec_op codec_usage)
  end.
End Commands.

(** * Laws *)

(** Status codes are 32-bit, documents are bytes, and a decoded value is well
    formed and of the type asked for. *)
Class UaCodecLaws {stack : UaStack} (enc : UaCodec) := {
  encodeJson_wf : forall v, 0 <= fst (UA_encodeJson v) < 2 ^ 32 /\ wf_str (snd (UA_encodeJson v)) = true;
  encodeXml_wf : forall v, 0 <= fst (UA_encodeXml v) < 2 ^ 32 /\ wf_str (snd (UA_encodeXml v)) = true;
  encodeBinary_wf : forall v, 0 <= fst (UA_encodeBinary v) < 2 ^ 32 /\ wf_str (snd (UA_encodeBinary v)) = true;
  decodeJson_status : forall d t, 0 <= fst (UA_decodeJson d t) < 2 ^ 32;
  decodeXml_status : forall d t, 0 <= fst (UA_decodeXml d t) < 2 ^ 32;
  decodeJson_wf : forall d t v, UA_decodeJson d t = (UA_STATUSCODE_GOOD, v) -> wf_value v = true /\ type_of v = t;
  decodeXml_wf : forall d t v, UA_decodeXml d t = (UA_STATUSCODE_GOOD, v) -> wf_value v = true /\ type_of v = t
}.

(** * Well-formed output *)

(** Further members of an object, each with its comma. *)
Definition JMore (t : bytes) : Prop :=
  forall st c r, is_delim c = true ->
  jrun (MAfter, FObj :: st) (t ++ c :: r) = jrun (MAfter, FObj :: st) (c :: r).

Lemma JMore_nil : JMore [].
Proof. intros st c r _. reflexivity. Qed.

Lemma JMore_app a b : match b with c :: _ => c =? 44 | [] => true end = true -> JMore a -> JMore b -> JMore (a ++ b).
Proof.
  intros Hb Ha Hm st c r Hc. destruct b as [|x b]; [rewrite app_nil_r; now apply Ha|]. apply Z.eqb_eq in Hb. subst x.
  rewrite <- app_assoc. cbn [app]. rewrite Ha by reflexivity. exact (Hm st c r Hc).
Qed.

(** An object that goes on with more members. *)
Lemma JValue_more k v t : (forall st, jrun (MVal, st) k = Some (MAfter, FObj :: st)) -> 
  match k with c :: _ => c =? 123 | [] => false end = true -> v = k ++ t ++ J "}" -> JMore t -> JValue v.
Proof.
  intros Hk Hc -> Ht m st c r Hm Hd. rewrite <- !app_assoc, jrun_app.
  replace (jrun (m, st) k) with (jrun (MVal, st) k).
  - rewrite Hk. change (J "}" ++ c :: r) with (125 :: c :: r). rewrite Ht by reflexivity. reflexivity.
  - destruct Hm; subst; [reflexivity|]. destruct k as [|x k]; [discriminate|]. zbool. now subst.
Qed.

Section Printing.
Context {stack : UaStack} {laws : UaStackLaws stack} {enc : UaCodec} {el : UaCodecLaws enc}.

Lemma encode_doc_wf fmt v : 0 <= fst (encode_doc fmt v) < 2 ^ 32 /\ wf_str (snd (encode_doc fmt v)) = true.
Proof.
  destruct fmt; cbn [encode_doc]; [apply encodeJson_wf|]. destruct (xml_encode_unsupported v); [|apply encodeXml_wf].
  unfold UA_STATUSCODE_BADNOTIMPLEMENTED. cbn. split; [lia|reflexivity].
Qed.

Lemma decode_doc_status fmt d t : 0 <= fst (decode_doc fmt d t) < 2 ^ 32.
Proof.
  destruct fmt; cbn [decode_doc]; [apply decodeJson_status|]. destruct (xml_unsupported_type t true); [|apply decodeXml_status].
  unfold UA_STATUSCODE_BADNOTIMPLEMENTED. cbn. lia.
Qed.

Lemma decode_doc_wf fmt d t v : decode_doc fmt d t = (UA_STATUSCODE_GOOD, v) -> wf_value v = true /\ type_of v = t.
Proof.
  destruct fmt; cbn [decode_doc]; [apply decodeJson_wf|]. destruct (xml_unsupported_type t true); [discriminate|apply decodeXml_wf].
Qed.

Lemma JValue_doc sc doc : wf_str doc = true ->
  JValue (if sc =? UA_STATUSCODE_GOOD then output_json_string_len doc else B "null").
Proof.
  intros H. destruct (sc =? UA_STATUSCODE_GOOD); [|apply JValue_null].
  now apply JValue_output_len.
Qed.

Lemma doc_field key fmt v : exists t, print_doc_field key fmt v = J "'" ++ B key ++ J "':" ++ t /\ JValue t.
Proof.
  unfold print_doc_field. destruct (encode_doc_wf fmt v) as [_ H]. destruct (encode_doc fmt v) as [sc doc].
  eexists. split; [reflexivity|]. now apply JValue_doc.
Qed.

Lemma binary_field key v : exists t, print_binary_field key v = J "'" ++ B key ++ J "':" ++ t /\ JValue t.
Proof.
  unfold print_binary_field. destruct (encodeBinary_wf v) as [_ H]. destruct (UA_encodeBinary v) as [sc bin].
  eexists. split; [reflexivity|]. destruct (sc =? UA_STATUSCODE_GOOD); [|apply JValue_null].
  apply JValue_quoted, JBody_b64. destruct bin as [b|]; [now apply forallb_Bytes|constructor].
Qed.

Lemma Bytes_value_type_name t : Bytes (value_type_name t).
Proof.
  unfold value_type_name. destruct t as [t|]; [|apply Bytes_B]. destruct (find _ g_builtin) as [p|] eqn:E.
  - apply find_some in E as [E _]. repeat (destruct E as [<-|E]; [apply Bytes_B|]). destruct E.
  - destruct (type_typeName t) as [n|] eqn:En; [exact (Bytes_typeName _ _ En)|apply Bytes_B].
Qed.

Lemma JValue_type_text t : JValue (output_json_string (Some (value_type_name t))).
Proof. apply JValue_text, Bytes_value_type_name. Qed.

Lemma variant_fields v : wf_variant v = true -> JMore (print_variant_fields v) /\
  exists r, print_variant_fields v = 44 :: r.
Proof.
  intros Hv. pose proof (JValue_variant v Hv). pose proof (JValue_type_text (variant_type v)).
  pose proof (JValue_d (ua_type_to_builtin_id (variant_type v))).
  split; [|destruct v; eexists; reflexivity].
  intros st c r Hc. destruct v as [|x|t l dims]; cbn [print_variant_fields].
  - jwalk.
  - unfold output_ua_variant_field. jwalk.
  - unfold output_ua_variant_field. cbn [wf_variant] in Hv. apply andb_prop in Hv as [_ Hd].
    pose proof (JValue_u (Z.of_nat (length dims)) ltac:(lia)).
    assert (JValue (jarray (map fmt_u dims))).
    { apply JValue_array, Forall_map, Forall_forall. intros z Hz. rewrite forallb_forall in Hd. specialize (Hd z Hz).
      apply JValue_u. lia. }
    destruct (Nat.ltb 1 (length dims)); jwalk.
Qed.

Lemma wf_dv_value d : wf_datavalue d = true -> wf_variant (dv_value d) = true.
Proof. destruct d as [v st a b c e]. cbn. intros H. zbool. now destruct v. Qed.

Lemma dv_status_u32 d : wf_datavalue d = true -> 0 <= dv_status d.
Proof. destruct d as [v st a b c e]. cbn. intros H. zbool. destruct st as [z|]; cbn in *; lia. Qed.

Lemma JMore_member key t : (forall st, jrun (MAfter, FObj :: st) (J ",'" ++ B key ++ J "':") = Some (MVal, FObj :: st)) ->
  JValue t -> JMore (J ",'" ++ B key ++ J "':" ++ t).
Proof.
  intros Hk Ht st c r Hc. replace ((J ",'" ++ B key ++ J "':" ++ t) ++ c :: r)
    with ((J ",'" ++ B key ++ J "':") ++ t ++ c :: r) by now rewrite <- !app_assoc.
  rewrite jrun_app, Hk. now apply Ht; [left|].
Qed.

(** One more member at the end of an item. *)
Lemma JMore_doc key fmt v : (forall st, jrun (MAfter, FObj :: st) (J ",'" ++ B key ++ J "':") = Some (MVal, FObj :: st)) ->
  JMore (J "," ++ print_doc_field key fmt v).
Proof. intros Hk. destruct (doc_field key fmt v) as (t & -> & Ht). exact (JMore_member key t Hk Ht). Qed.

Lemma JMore_binary key v : (forall st, jrun (MAfter, FObj :: st) (J ",'" ++ B key ++ J "':") = Some (MVal, FObj :: st)) ->
  JMore (J "," ++ print_binary_field key v).
Proof. intros Hk. destruct (binary_field key v) as (t & -> & Ht). exact (JMore_member key t Hk Ht). Qed.

Lemma decoded_more type v : wf_value v = true -> type_of v = type -> JMore (decoded_members type v).
Proof.
  intros Hv <-. pose proof (JValue_type_text (Some (type_of v))) as H1.
  pose proof (JValue_d (ua_type_to_builtin_id (Some (type_of v)))) as H2. pose proof (JValue_scalar v Hv) as H3.
  destruct v as [| | | | | | | | | | | | | | | | | | |? ?|? ?| |d|w| |]; try (intros ? ? ? ?; unfold decoded_members;
    change output_ua_scalar with print_scalar; jwalk; fail).
  - destruct (variant_fields (dv_value d) (wf_dv_value d Hv)) as [Hm _]. apply JMore_app; [reflexivity|exact Hm|].
    exact (JMore_member "dataValue" _ (fun _ => eq_refl) (JValue_datavalue d Hv)).
  - exact (proj1 (variant_fields w Hv)).
Qed.

Lemma decoded_comma type v : exists t, decoded_members type v = 44 :: t.
Proof.
  destruct v as [| | | | | | | | | | | | | | | | | | |? ?|? ?| |d|w| |]; try (eexists; reflexivity).
  - unfold decoded_members. destruct (dv_value d); eexists; reflexivity.
  - destruct w; eexists; reflexivity.
Qed.

Lemma JMember_status key sc : (forall st, jrun (MKey, FObj :: st) (J "'" ++ B key ++ J "':") = Some (MVal, FObj :: st)) ->
  0 <= sc -> JMember (hev_print_status key sc).
Proof.
  intros Hk Hs. unfold hev_print_status. rewrite !app_assoc, <- (app_assoc (J "'")).
  apply JMember_lit; [exact Hk|reflexivity|now apply JValue_status].
Qed.

Lemma JMember_text key t v : (forall st, jrun (MKey, FObj :: st) (J "'" ++ B key ++ J "':") = Some (MVal, FObj :: st)) ->
  t = J "'" ++ B key ++ J "':" ++ v -> JValue v -> JMember t.
Proof.
  intros Hk -> Hv. rewrite !app_assoc, <- (app_assoc (J "'")). apply JMember_lit; [exact Hk|reflexivity|exact Hv].
Qed.

Lemma JMember_doc key fmt v : (forall st, jrun (MKey, FObj :: st) (J "'" ++ B key ++ J "':") = Some (MVal, FObj :: st)) ->
  JMember (print_doc_field key fmt v).
Proof. intros Hk. destruct (doc_field key fmt v) as (t & E & Ht). exact (JMember_text key _ t Hk E Ht). Qed.

Lemma JMember_binary key v : (forall st, jrun (MKey, FObj :: st) (J "'" ++ B key ++ J "':") = Some (MVal, FObj :: st)) ->
  JMember (print_binary_field key v).
Proof. intros Hk. destruct (binary_field key v) as (t & E & Ht). exact (JMember_text key _ t Hk E Ht). Qed.

Lemma encode_status fmt v : 0 <= fst (encode_doc fmt v).
Proof. destruct (encode_doc_wf fmt v). lia. Qed.

(** The three objects with one member per encoded form. *)
Lemma JValue_forms (f : string -> ua_value -> bytes) v dv :
  (forall x, JMember (f "value"%string x)) -> (forall x, JMember (f "variant"%string x)) ->
  (forall x, JMember (f "dataValue"%string x)) ->
  JValue (jobject (map (f "value"%string) (bare_value v)
                   ++ [f "variant"%string (VVariant v); f "dataValue"%string (VDataValue dv)])).
Proof.
  intros H1 H2 H3. apply JValue_object, Forall_app. split; [|repeat constructor; auto].
  destruct v; repeat constructor; auto.
Qed.

Definition format_name (fmt : Format) : bytes := match fmt with FMT_JSON => B "json" | FMT_XML => B "xml" end.

Lemma more_then st t l r : JMore t -> match l with c :: _ => is_delim c | [] => false end = true ->
  jrun (MAfter, FObj :: st) (t ++ l ++ r) = jrun (MAfter, FObj :: st) (l ++ r).
Proof. intros Ht Hl. destruct l as [|c l]; [discriminate|]. now apply Ht. Qed.

Lemma JValue_encode_item fmt node dv : wf_datavalue dv = true -> match node with Some n => wf_nodeid n = true | None => True end ->
  JValue (encode_item fmt (format_name fmt) node dv).
Proof.
  intros Hd Hn. destruct (variant_fields (dv_value dv) (wf_dv_value dv Hd)) as [Hm [t0 Et]].
  unfold encode_item. cbv zeta. set (v := dv_value dv) in *. pose proof (JValue_datavalue dv Hd) as H1.
  set (docs := jobject (map (print_doc_field "value" fmt) _ ++ _)).
  set (scs := jobject (map (fun x => hev_print_status "value" (fst (encode_doc fmt x))) _ ++ _)).
  set (bins := jobject (map (print_binary_field "value") _ ++ _)).
  assert (JValue docs).
  { apply (JValue_forms (fun k => print_doc_field k fmt)); intros; apply JMember_doc; reflexivity. }
  assert (JValue scs).
  { apply (JValue_forms (fun k x => hev_print_status k (fst (encode_doc fmt x)))); intros; apply JMember_status;
      first [reflexivity|apply encode_status]. }
  assert (JValue bins).
  { apply (JValue_forms print_binary_field); intros; apply JMember_binary; reflexivity. }
  assert (JMore (J ",'dataValue':" ++ output_ua_datavalue dv)) as M1 by exact (JMore_member "dataValue" _ (fun _ => eq_refl) H1).
  clearbody docs scs bins. rewrite Et in *.
  destruct fmt, node as [n|]; unfold format_members, format_name;
    try (pose proof (JValue_nodeid n Hn) as Hj; change (print_ua_nodeid n) with (output_nodeid n) in Hj);
    intros m st c r Hmm Hc; destruct Hmm; subst m; jwalk;
    match goal with |- context [44 :: t0 ++ ?x] => change (44 :: t0 ++ x) with ((44 :: t0) ++ x) end;
    rewrite (more_then _ _ (J _) _ Hm) by reflexivity; jwalk.
Qed.

Lemma JValue_decode_item fmt typeStr type sc v : Bytes typeStr -> 0 <= sc ->
  (sc = UA_STATUSCODE_GOOD -> wf_value v = true /\ type_of v = type) ->
  JValue (decode_item fmt (format_name fmt) typeStr type sc v).
Proof.
  intros Ht Hs Hv. unfold decode_item. pose proof (JValue_text typeStr Ht) as H1.
  change (print_json_string (Some typeStr)) with (output_json_string (Some typeStr)) in H1.
  pose proof (JValue_status sc Hs) as H2. rewrite print_status_member. destruct (Z.eqb_spec sc UA_STATUSCODE_GOOD) as [E|_].
  - destruct (Hv E) as [Hw Hty]. pose proof (decoded_more type v Hw Hty) as Hm.
    destruct (binary_field "binary" v) as (b & -> & Hb). destruct (doc_field "reencoded" fmt v) as (d & -> & Hd).
    destruct (decoded_comma type v) as [t0 Et]. rewrite Et in *.
    destruct fmt; unfold format_members, format_name; intros m st c r Hmm Hc; destruct Hmm; subst m; jwalk;
      match goal with |- context [44 :: t0 ++ ?x] => change (44 :: t0 ++ x) with ((44 :: t0) ++ x) end;
      rewrite (more_then _ _ (J _) _ Hm) by reflexivity; jwalk.
  - destruct fmt; unfold format_members, format_name; jvalue.
Qed.

Lemma JValue_node_item n dv : wf_nodeid n = true -> wf_datavalue dv = true -> JValue (node_item n dv).
Proof.
  intros Hn Hd. unfold node_item. cbv zeta. pose proof (JValue_nodeid n Hn) as H1.
  change (print_ua_nodeid n) with (output_nodeid n) in H1. pose proof (JValue_status _ (dv_status_u32 dv Hd)) as H2.
  rewrite print_status_member. destruct (StatusCode_isBad (dv_status dv)); [jvalue|].
  destruct (variant_fields (dv_value dv) (wf_dv_value dv Hd)) as [Hm [t0 Et]]. rewrite Et in *.
  destruct (doc_field "json" FMT_JSON (VVariant (dv_value dv))) as (t1 & -> & J1).
  destruct (doc_field "xml" FMT_XML (VVariant (dv_value dv))) as (t2 & -> & J2).
  destruct (doc_field "dataValueJson" FMT_JSON (VDataValue dv)) as (t3 & -> & J3).
  destruct (doc_field "dataValueXml" FMT_XML (VDataValue dv)) as (t4 & -> & J4).
  destruct (binary_field "binary" (VVariant (dv_value dv))) as (t5 & -> & J5).
  destruct (binary_field "dataValueBinary" (VDataValue dv)) as (t6 & -> & J6).
  intros m st c r Hmm Hc; destruct Hmm; subst m; jwalk;
    match goal with |- context [44 :: t0 ++ ?x] => change (44 :: t0 ++ x) with ((44 :: t0) ++ x) end;
    rewrite (more_then _ _ (J _) _ Hm) by reflexivity; jwalk.
Qed.
End Printing.

(** * What the command reports *)

(** The literal of [--type]/[--value] holds no NodeId with a control character,
    which output.c would print raw. *)
Definition clean_literal {stack : UaStack} {cj : CJson} (argv : list bytes) : Prop :=
  forall t s v, find_arg argv (B "--type") = Some t -> find_arg argv (B "--value") = Some s ->
  value_parse (S (length s)) 256 (Some t) (Some s) (find_arg argv (B "--dimensions")) = Some (Ok v) -> wf_variant v = true.

(** ** Reading a document *)

Lemma read_loop_spec fuel : forall cap buf rest, (length rest < fuel)%nat -> (0 < cap)%nat -> (length buf <= cap)%nat ->
  read_loop fuel cap buf rest = Some (buf ++ rest).
Proof.
  induction fuel as [|f IH]; intros cap buf rest Hf Hc Hb; [lia|]. cbn [read_loop].
  set (cap' := if Nat.eqb (length buf) cap then (2 * cap)%nat else cap).
  assert (length buf < cap')%nat by (unfold cap'; destruct (Nat.eqb_spec (length buf) cap); lia).
  destruct (Nat.eqb_spec (Nat.min (cap' - length buf) (length rest)) 0) as [E|E].
  - destruct rest; [now rewrite app_nil_r|cbn in E; lia].
  - set (n := Nat.min (cap' - length buf) (length rest)) in *. rewrite IH.
    + now rewrite <- app_assoc, firstn_skipn.
    + rewrite length_skipn. lia.
    + lia.
    + rewrite length_app, length_firstn. lia.
Qed.

Lemma strip_trailing_app l s : forallb is_trailing l = true -> strip_trailing (l ++ s) = strip_trailing s.
Proof. induction l as [|c l IH]; [reflexivity|]. cbn. intros H. apply andb_prop in H as [-> H]. auto. Qed.

(** The document is the content without the white space at its end. *)
Lemma read_all_spec doc blanks : forallb is_trailing blanks = true ->
  (forall c, last doc 0 = c -> is_trailing c = false) -> read_all (doc ++ blanks) = Some doc.
Proof.
  intros Hb Hd. unfold read_all. rewrite read_loop_spec by (cbn [length]; lia). cbn [app option_map].
  f_equal. rewrite rev_app_distr, strip_trailing_app.
  - destruct (rev doc) as [|c r] eqn:E; [apply (f_equal (@rev Z)) in E; rewrite rev_involutive in E; now subst|].
    cbn [strip_trailing]. rewrite Hd.
    + rewrite <- E. apply rev_involutive.
    + apply (f_equal (@rev Z)) in E. rewrite rev_involutive in E. subst. cbn [rev]. apply last_last.
  - apply forallb_forall. intros x Hx. rewrite forallb_forall in Hb. apply Hb. now apply in_rev.
Qed.

Lemma read_all_total content : exists doc, read_all content = Some doc.
Proof. unfold read_all. rewrite read_loop_spec by (cbn [length]; lia). eexists. reflexivity. Qed.

Section Reports.
Context {stack : UaStack} {laws : UaStackLaws stack} {cj : CJson} {cjl : CJsonLaws cj} {ct : CJsonText cj} {enc : UaCodec}
  {el : UaCodecLaws enc} {W : Type} {L : ClientLib W} {libLaws : ClientLibLaws L} {clk : Clock L} {srv : Services W}
  {srvLaws : ServicesLaws srv} {files : InputFiles W}.

Lemma Bytes_codec_op : Bytes codec_op.
Proof. apply Bytes_B. Qed.

Lemma JRest_codec items ok msg : JBody (B msg) -> Forall JValue items -> JRest (codec_results items ok msg).
Proof.
  intros Hm Hi. destruct ok; [now apply JRest_results|]. unfold codec_results, codec_error. generalize dependent (B msg).
  intros m Hm. split; [reflexivity|]. pose proof (JValue_array items Hi) as Ha.
  change (output_open_results ++ ?x) with (J ",'results':[" ++ x). change output_close_results with (J "]").
  replace ((J ",'results':[" ++ commas items ++ J "]" ++ J ",'error':{'category':'service','message':'" ++ m ++ J "'}") ++ output_end)
    with (J ",'results':" ++ jarray items ++ J ",'error':{'category':'service','message':'" ++ m ++ J "'}" ++ output_end).
  - change output_end with [125; 10]. jwalk.
  - unfold jarray. rewrite <- !app_assoc. reflexivity.
Qed.

Lemma emit_encoded_reports (w : W) fmt node dv : wf_datavalue dv = true ->
  match node with Some n => wf_nodeid n = true | None => True end ->
  ends_reporting codec_op (emit_encoded w fmt (format_name fmt) node dv).
Proof.
  intros Hd Hn. eexists _, _, _. split; [reflexivity|].
  pose proof (encode_status fmt (VVariant (dv_value dv))) as Hs.
  apply reports_envelope; [apply Bytes_B|exact Hs| | |].
  - apply JRest_codec; [jbody|]. repeat constructor. now apply JValue_encode_item.
  - destruct (_ =? _); cbn; tauto.
  - now destruct (_ =? _).
Qed.

Lemma emit_decoded_reports (w : W) fmt typeStr type doc : Bytes typeStr ->
  ends_reporting codec_op (emit_decoded w fmt (format_name fmt) typeStr type doc).
Proof.
  intros Ht. unfold emit_decoded. pose proof (decode_doc_status fmt doc type) as Hs.
  pose proof (decode_doc_wf fmt doc type) as Hw. destruct (decode_doc fmt doc type) as [sc v]. cbn [fst] in Hs.
  eexists _, _, _. split; [reflexivity|]. apply reports_envelope; [apply Bytes_B|lia| | |].
  - apply JRest_codec; [jbody|]. repeat constructor. apply JValue_decode_item; [exact Ht|lia|].
    intros ->. now apply Hw.
  - destruct (sc =? _); cbn; tauto.
  - now destruct (sc =? _).
Qed.

Lemma parse_format_name argv fmt name : parse_format argv = Some (fmt, name) -> name = format_name fmt.
Proof.
  unfold parse_format. destruct (match find_arg argv (B "--format") with Some f => Some f | None => _ end) as [f|]; [|discriminate].
  destruct (streq f (B "json")); [intros H; now injection H as <- <-|].
  destruct (streq f (B "xml")); [intros H; now injection H as <- <-|discriminate].
Qed.

Lemma read_values_wf w ids : let r := read_values w ids in
  0 <= fst (snd r) < 2 ^ 32 /\ forallb wf_datavalue (snd (snd r)) = true /\
  (fst (snd r) = UA_STATUSCODE_GOOD -> length (snd (snd r)) = length ids).
Proof.
  unfold read_values. set (q := map _ ids). pose proof (read_status w TS_BOTH q) as H1. pose proof (read_wf w TS_BOTH q) as H2.
  destruct (Service_read w TS_BOTH q) as [w1 [sc rs]]. cbn [fst snd] in *. cbn [fst snd].
  destruct (Z.eqb_spec sc UA_STATUSCODE_GOOD) as [->|Hne]; cbn [andb].
  - destruct (Nat.eqb_spec (length rs) (length ids)); cbn [negb]; [now repeat split|].
    unfold UA_STATUSCODE_BADUNEXPECTEDERROR, UA_STATUSCODE_GOOD. split; [lia|]. split; [exact H2|discriminate].
  - split; [exact H1|]. split; [exact H2|congruence].
Qed.

Lemma read_exit_code sc : In (read_exit sc) [2; 3; 4; 6; 7].
Proof. unfold read_exit. destruct (_ =? _); cbn; tauto. Qed.

Context (Hns : forall w u i, snd (NamespaceGetIndex w u) = Some i -> 0 <= i).

Lemma encode_node_reports w fmt s : printable s -> ends_reporting codec_op (encode_node w fmt (format_name fmt) s).
Proof.
  intros Hp. unfold encode_node. destruct (resolve_one w s) as [w1 [n| |]] eqn:Er.
  2, 3: apply ends_unresolved; apply Bytes_B.
  apply resolve_one_wf in Er; [|exact Hns|exact Hp]. pose proof (read_values_wf w1 [n]) as (H1 & H2 & _).
  destruct (read_values w1 [n]) as [w2 [sc rs]]. cbn [fst snd] in *.
  destruct (sc =? UA_STATUSCODE_GOOD); [|apply ends_failed; auto using Bytes_B, Bytes_codec_op, read_exit_code; lia].
  destruct rs as [|dv rs]; [apply ends_failed; auto using Bytes_B, Bytes_codec_op, read_exit_code; lia|].
  cbn [forallb] in H2. apply andb_prop in H2 as [Hd _]. destruct (StatusCode_isBad _).
  - apply ends_failed; [apply Bytes_B..|now apply dv_status_u32|apply read_exit_code].
  - now apply emit_encoded_reports.
Qed.

Lemma literal_value_wf argv : text_argv argv -> clean_literal argv -> exists r, literal_value argv = Some r /\
  match r with Ok dv => wf_datavalue dv = true | Err m => Bytes m end.
Proof.
  intros Ht Hc. unfold literal_value. destruct (find_arg argv (B "--type")) as [t|] eqn:Et;
    [|eexists; split; [reflexivity|apply Bytes_B]].
  destruct (find_arg argv (B "--value")) as [s|] eqn:Es; [|eexists; split; [reflexivity|apply Bytes_B]].
  set (dims := find_arg argv (B "--dimensions")).
  pose proof (value_parse_answers 256 (S (length s)) (Some t) (Some s) dims ltac:(cbn [default]; lia)) as Ha.
  pose proof (value_parse_text 256 (S (length s)) (Some t) (Some s) dims (find_arg_Bytes _ _ _ Ht Et) (find_arg_Bytes _ _ _ Ht Es)) as Hm.
  pose proof (Hc t s) as Hw. destruct (value_parse _ 256 (Some t) (Some s) dims) as [[v|m]|] eqn:Ev; [| |congruence].
  2:{ exists (Err m). split; [reflexivity|exact Hm]. }
  cbn [fbind]. eexists. split; [reflexivity|].
  assert (forall f m, match stamp_flag argv f m with Ok _ => True | Err e => Bytes e end) as Hst.
  { intros f m. unfold stamp_flag. destruct (find_arg argv (B f)); [|exact I].
    destruct (value_parse_datetime _); [exact I|apply Bytes_B]. }
  pose proof (Hst "--source-timestamp"%string "invalid --source-timestamp (want RFC 3339 UTC)"%string) as H1.
  pose proof (Hst "--server-timestamp"%string "invalid --server-timestamp (want RFC 3339 UTC)"%string) as H2.
  destruct (stamp_flag argv "--source-timestamp" _) as [a|e]; [|exact H1]. cbn [rbind].
  destruct (stamp_flag argv "--server-timestamp" _) as [b|e]; [|exact H2]. cbn [rbind wf_datavalue].
  rewrite (Hw v Et Es Ev). cbn [andb]. unfold option_flag, wf_opt.
  assert (forall x, (0 <=? u32 x) = true /\ (0 <=? u16 x) = true) as Hu.
  { intros x. pose proof (uwrap_range 32 x ltac:(lia)). pose proof (uwrap_range 16 x ltac:(lia)). unfold u32, u16. lia. }
  destruct (find_arg argv (B "--status")), (find_arg argv (B "--source-picoseconds")),
    (find_arg argv (B "--server-picoseconds")); cbn [option_map]; rewrite ?(proj1 (Hu _)), ?(proj2 (Hu _)); reflexivity.
Qed.

Lemma codec_encode_reports w g argv : text_argv argv -> text_args g codec_op -> clean_literal argv ->
  (forall s, find_arg argv (B "--node") = Some s -> printable s) ->
  exists n, forall fuel, (n <= fuel)%nat -> ends_reporting codec_op (codec_encode fuel w g argv).
Proof.
  intros Ht Hg Hc Hp. unfold codec_encode.
  assert (forall msg, Bytes msg -> exists n, forall fuel, (n <= fuel)%nat ->
    ends_reporting codec_op (usage_error w codec_op msg)) as Hu
    by (intros msg Hm; exists O; intros; apply ends_usage; [apply Bytes_B|exact Hm]).
  destruct (parse_format argv) as [[fmt name]|] eqn:Ef; [|apply Hu, Bytes_B]. apply parse_format_name in Ef as ->.
  destruct (negb (check_json_mode argv)); [apply Hu, Bytes_cat; [apply Bytes_B|apply Bytes_J]|].
  destruct (find_arg argv (B "--node")) as [s|] eqn:En.
  - destruct (_ || _); [apply Hu, Bytes_B|]. destruct (find_arg argv (B "--endpoint")) as [url|]; [|apply Hu, Bytes_B].
    destruct (negb _); [apply Hu, Bytes_malformed, (find_arg_Bytes _ _ _ Ht En)|].
    apply with_client_reports; [exact Hg|]. intros w1. apply encode_node_reports. auto.
  - destruct (literal_value_wf argv Ht Hc) as (r & -> & Hr). destruct r as [dv|m]; [|now apply Hu].
    exists O. intros _ _. now apply emit_encoded_reports.
Qed.

Lemma codec_decode_reports w argv : text_argv argv -> ends_reporting codec_op (codec_decode w argv).
Proof.
  intros Ht. unfold codec_decode.
  assert (forall (w : W) msg, Bytes msg -> ends_reporting codec_op (usage_error w codec_op msg)) as Hu
    by (intros w0 msg Hm; apply ends_usage; [apply Bytes_B|exact Hm]).
  destruct (parse_format argv) as [[fmt name]|] eqn:Ef; [|apply Hu, Bytes_B]. apply parse_format_name in Ef as ->.
  destruct (negb (check_json_mode argv)); [apply Hu, Bytes_cat; [apply Bytes_B|apply Bytes_J]|].
  destruct (find_arg argv (B "--type")) as [t|] eqn:Et; [|apply Hu, Bytes_B]. apply (find_arg_Bytes _ _ _ Ht) in Et.
  destruct (value_builtin_type t) as [type|]; [|apply Hu, Bytes_snprintf; auto using Bytes_cat, Bytes_B].
  destruct (find_arg argv (B "--document")) as [[|c d]|]; [apply Hu, Bytes_B|now apply emit_decoded_reports|].
  destruct (input_bytes w _) as [w1 [content|]]; [|apply Hu, Bytes_B].
  destruct (read_all_total content) as [[|c d] ->]; [apply Hu, Bytes_B|now apply emit_decoded_reports].
Qed.

Lemma send_nodes_reports w ids : Forall (fun n => wf_nodeid n = true) ids -> ends_reporting codec_op (send_nodes w ids).
Proof.
  intros Hi. unfold send_nodes. pose proof (read_values_wf w ids) as (H1 & H2 & _).
  destruct (read_values w ids) as [w2 [sc rs]]. cbn [fst snd] in *.
  destruct (negb _); [apply ends_failed; auto using Bytes_B, Bytes_codec_op, read_exit_code; lia|].
  assert (forall z, find (fun s => negb (s =? UA_STATUSCODE_GOOD)) (map node_status rs) = Some z -> 0 <= z) as Hz.
  { intros z Hz. apply find_some in Hz as [Hin _]. apply in_map_iff in Hin as (dv & <- & Hin).
    rewrite forallb_forall in H2. specialize (H2 dv Hin). unfold node_status.
    destruct (StatusCode_isBad _); [now apply dv_status_u32|apply encode_status]. }
  destruct (find _ _) as [z|]; eexists _, _, _; (split; [reflexivity|]); apply reports_envelope; cbn [is_some negb default];
    try apply Bytes_B; try (cbn; tauto); try reflexivity; auto; try (unfold UA_STATUSCODE_GOOD; lia).
  all: apply JRest_codec; [jbody|]; apply Forall_map, Forall_forall; intros [n dv] Hin; cbn [fst snd];
    rewrite Forall_forall in Hi; rewrite forallb_forall in H2;
    apply JValue_node_item; [apply Hi; eapply in_combine_l, Hin|apply H2; eapply in_combine_r, Hin].
Qed.

Lemma codec_nodes_reports w g argv : text_argv argv -> text_args g codec_op ->
  Forall printable (flag_values argv (B "--node")) ->
  exists n, forall fuel, (n <= fuel)%nat -> ends_reporting codec_op (codec_nodes fuel w g argv).
Proof.
  intros Ht Hg Hp. unfold codec_nodes.
  assert (forall msg, Bytes msg -> exists n, forall fuel, (n <= fuel)%nat ->
    ends_reporting codec_op (usage_error w codec_op msg)) as Hu
    by (intros msg Hm; exists O; intros; apply ends_usage; [apply Bytes_B|exact Hm]).
  destruct (find_arg argv (B "--endpoint")) as [url|]; [|apply Hu, Bytes_B].
  pose proof (flag_values_Bytes argv (B "--node") CODEC_MAX_NODES Ht) as Hb.
  assert (Forall printable (firstn CODEC_MAX_NODES (flag_values argv (B "--node")))) as Hpf by now apply Forall_firstn.
  destruct (firstn CODEC_MAX_NODES (flag_values argv (B "--node"))) as [|s l]; [apply Hu, Bytes_B|].
  destruct (find _ (s :: l)) as [bad|] eqn:Ef.
  { apply find_some in Ef as [Hin _]. apply Hu, Bytes_malformed. rewrite Forall_forall in Hb. auto. }
  apply with_client_reports; [exact Hg|]. intros w1. pose proof (resolve_nodes_wf Hns (s :: l) w1 Hpf) as Hr.
  destruct (resolve_nodes w1 (s :: l)) as [w2 [ids|bad]]; cbn [snd] in Hr; [now apply send_nodes_reports|].
  apply ends_unresolved; apply Bytes_B.
Qed.

(** codec always ends with one JSON envelope that agrees with the exit code. *)
Lemma codec_reports w g a argv : text_argv (a :: argv) -> text_args g codec_op -> clean_literal argv ->
  Forall printable (a :: argv) -> (exists o, cmd_codec 0 w g (a :: argv) = Some o) ->
  exists n, forall fuel, (n <= fuel)%nat -> exists o, cmd_codec fuel w g (a :: argv) = Some o /\ ends_reporting codec_op o.
Proof.
  intros Ht Hg Hc Hp [o Ho]. assert (text_argv argv) as Ht' by now inversion Ht.
  assert (Forall printable argv) as Hp' by now inversion Hp.
  assert (forall (f : nat -> outcome W), (exists n, forall fuel, (n <= fuel)%nat -> ends_reporting codec_op (f fuel)) ->
    exists n, forall fuel, (n <= fuel)%nat -> exists o, Some (f fuel) = Some o /\ ends_reporting codec_op o) as Hlift
    by (intros f (n & Hn); exists n; eauto).
  unfold cmd_codec in *. destruct argv as [|sub argv'].
  { apply (Hlift (fun _ => _)). exists O. intros. apply ends_usage; apply Bytes_B. }
  destruct (is_some (strip (B "pubsub-") sub)); [discriminate|]. apply (Hlift (fun fuel => _)).
  destruct (streq sub (B "encode")).
  { apply codec_encode_reports; auto. intros s. now apply find_arg_printable. }
  destruct (streq sub (B "decode")); [exists O; intros; now apply codec_decode_reports|].
  destruct (is_some (find_arg _ (B "--decode"))); [exists O; intros; now apply codec_decode_reports|].
  destruct (is_some (find_arg _ (B "--node"))).
  - apply codec_nodes_reports; auto. now apply printable_values.
  - exists O. intros. apply ends_usage; apply Bytes_B.
Qed.
End Reports.

(** * Documents read back *)

Definition encode_argv (fmt : Format) (typ lit : bytes) : list bytes :=
  [B "codec"; B "encode"; B "--format"; format_name fmt; B "--type"; typ; B "--value"; lit].
Definition decode_argv (fmt : Format) (typ : bytes) (doc : list bytes) : list bytes :=
  [B "codec"; B "decode"; B "--format"; format_name fmt; B "--type"; typ] ++ doc.

(** Replace the lookup of a flag by its value. *)
Ltac look Hl f :=
  rewrite (Hl (B f)) by (cbn; tauto);
  repeat match goal with
         | |- context [streq (B ?a) (B f)] =>
             let v := eval vm_compute in (streq (B a) (B f)) in change (streq (B a) (B f)) with v
         end; cbv beta iota.

Section Roundtrip.
Context {stack : UaStack} {cj : CJson} {enc : UaCodec} {W : Type} {L : ClientLib W}
  {srv : Services W} {files : InputFiles W}.

Lemma builtin_entry typ type : value_builtin_type typ = Some type -> In (typ, type) g_builtin.
Proof.
  unfold value_builtin_type. destruct (find _ g_builtin) as [[n t]|] eqn:E; [|discriminate].
  apply find_some in E as [Hin Hs]. cbn [fst] in Hs. apply streq_eq in Hs as ->. intros H. now injection H as <-.
Qed.

(** The decoder of the stack for the format. *)
Definition stack_decode (fmt : Format) : bytes -> ua_type -> Z * ua_value :=
  match fmt with FMT_JSON => UA_decodeJson | FMT_XML => UA_decodeXml end.

Lemma decode_reaches_stack fmt x doc : encode_doc fmt x = (UA_STATUSCODE_GOOD, Some doc) ->
  (fmt = FMT_XML -> type_of x <> TXmlElement) -> decode_doc fmt doc (type_of x) = stack_decode fmt doc (type_of x).
Proof.
  destruct fmt; cbn [encode_doc decode_doc stack_decode]; [reflexivity|].
  destruct (xml_encode_unsupported x) eqn:E; [discriminate|]. intros H Hx.
  apply orb_false_elim in E as [E _]. unfold xml_unsupported_type in *. rewrite andb_false_l, orb_false_r in E. rewrite E.
  destruct (type_eqb (type_of x) TXmlElement) eqn:Ex; [now apply type_eqb_eq in Ex; specialize (Hx eq_refl)|reflexivity].
Qed.

(** The document of the bare value is printed as the first member of [encoded]. *)
Lemma encode_prints_doc fmt x doc : type_of x <> TVariant -> type_of x <> TDataValue ->
  encode_doc fmt x = (UA_STATUSCODE_GOOD, Some doc) ->
  let dv := DataValue (Some (VtScalar x)) None None None None None in
  exists before after, encode_item fmt (format_name fmt) None dv
    = before ++ J ",'encoded':{'value':" ++ output_json_string_len (Some doc) ++ after.
Proof.
  intros Hv Hd Hdoc dv. unfold encode_item. change (dv_value dv) with (VtScalar x). cbn [bare_value map app].
  assert (print_doc_field "value" fmt x = (J "'" ++ B "value" ++ J "':") ++ output_json_string_len (Some doc)) as ->.
  { unfold print_doc_field. rewrite Hdoc. change (UA_STATUSCODE_GOOD =? UA_STATUSCODE_GOOD) with true. now rewrite <- !app_assoc. }
  change (J ",'encoded':{'value':") with (J ",'encoded':" ++ [123] ++ (J "'" ++ B "value" ++ J "':")).
  unfold jobject at 1, commas. cbn [commas_from app].
  match goal with |- exists _ _, ?a ++ ?b ++ ?c ++ ?d ++ ?e ++ ?f ++ ?h ++ _ = _ => exists (a ++ b ++ c ++ d ++ e ++ f ++ h) end.
  eexists. rewrite <- !app_assoc. cbn [app]. rewrite <- !app_assoc. reflexivity.
Qed.

(** A scalar shows the same members whether it was parsed or decoded. *)
Lemma decoded_scalar x : type_of x <> TVariant -> type_of x <> TDataValue ->
  decoded_members (type_of x) x = print_variant_fields (VtScalar x).
Proof. intros Hv Hd. destruct x; try reflexivity; [now contradiction Hd|now contradiction Hv]. Qed.

Definition codec_flags : list bytes :=
  [B "--format"; B "--decode"; B "--json-mode"; B "--node"; B "--type"; B "--value"; B "--dimensions"; B "--document"; B "--input";
   B "--status"; B "--source-timestamp"; B "--server-timestamp"; B "--source-picoseconds"; B "--server-picoseconds"].

Lemma typ_no_flag typ type f : In (typ, type) g_builtin -> In f codec_flags -> streq typ f = false.
Proof.
  intros Ht Hf. assert (forallb (fun p => forallb (fun f => negb (streq (fst p) f)) codec_flags) g_builtin = true) as H by reflexivity.
  rewrite forallb_forall in H. specialize (H _ Ht). rewrite forallb_forall in H. specialize (H _ Hf). cbn [fst] in H.
  now apply negb_true_iff in H.
Qed.

(** The flags of the two command lines. *)
Lemma encode_lookups fmt typ lit : (forall f, In f codec_flags -> streq typ f = false) -> forall f, In f codec_flags ->
  find_arg (tl (encode_argv fmt typ lit)) f =
    if streq (B "--format") f then Some (format_name fmt) else if streq (B "--type") f then Some typ
    else if streq (B "--value") f then Some lit else None.
Proof.
  intros Ht f Hf. specialize (Ht f Hf). unfold encode_argv. cbn [tl find_arg]. rewrite Ht.
  unfold codec_flags in Hf.
  repeat (destruct Hf as [<-|Hf]; [destruct fmt; reflexivity|]). destruct Hf.
Qed.

Lemma document_lookups fmt typ doc : (forall f, In f codec_flags -> streq typ f = false) -> forall f, In f codec_flags ->
  find_arg (tl (decode_argv fmt typ [B "--document"; doc])) f =
    if streq (B "--format") f then Some (format_name fmt) else if streq (B "--type") f then Some typ
    else if streq (B "--document") f then Some doc else None.
Proof.
  intros Ht f Hf. specialize (Ht f Hf). unfold decode_argv. cbn [tl find_arg app]. rewrite Ht.
  unfold codec_flags in Hf. repeat (destruct Hf as [<-|Hf]; [destruct fmt; reflexivity|]). destruct Hf.
Qed.

Lemma stdin_lookups fmt typ : (forall f, In f codec_flags -> streq typ f = false) -> forall f, In f codec_flags ->
  find_arg (tl (decode_argv fmt typ [])) f =
    if streq (B "--format") f then Some (format_name fmt) else if streq (B "--type") f then Some typ else None.
Proof.
  intros Ht f Hf. specialize (Ht f Hf). unfold decode_argv. cbn [tl find_arg app].
  unfold codec_flags in Hf. repeat (destruct Hf as [<-|Hf]; [destruct fmt; reflexivity|]). destruct Hf.
Qed.

Lemma parse_format_of argv fmt : find_arg argv (B "--format") = Some (format_name fmt) ->
  parse_format argv = Some (fmt, format_name fmt).
Proof. intros H. unfold parse_format. rewrite H. destruct fmt; reflexivity. Qed.

(** C18: codec decode reads what codec encode prints.  For a scalar literal of a
    built-in type that is no Variant and no DataValue (nor, in XML, an XmlElement) and
    that the stack encodes, encode exits with 0 and prints the document as the member
    [encoded.value]; given back to decode with the same format and type, inline or on
    standard input with white space after it, the stack is handed exactly that document
    and type: when it decodes it to a value of the type, decode exits with 0 and shows
    the members, the binary encoding and the document of that value (so of the literal,
    when the stack's decoder inverts its encoder); a status that is not Good is reported
    with exit code 4. *)
Theorem codec_roundtrip fuel w g fmt typ lit x doc blanks :
  value_builtin_type typ = Some (type_of x) -> ~ In (type_of x) [TVariant; TDataValue] ->
  (fmt = FMT_XML -> type_of x <> TXmlElement) ->
  value_parse (S (length lit)) 256 (Some typ) (Some lit) None = Some (Ok (VtScalar x)) ->
  fst (encode_doc fmt (VVariant (VtScalar x))) = UA_STATUSCODE_GOOD ->
  encode_doc fmt x = (UA_STATUSCODE_GOOD, Some doc) -> doc <> [] ->
  is_trailing (last doc 0) = false -> forallb is_trailing blanks = true ->
  input_bytes w None = (w, Some (doc ++ blanks)) ->
  let head sc := format_members "decode" fmt (format_name fmt) ++ J ",'type':" ++ output_json_string (Some typ) ++ J ","
       ++ hev_print_status "statusCode" sc in
  let decode_prints code ok sc item := forall argv, In argv [[B "--document"; doc]; []] ->
    cmd_codec fuel w g (decode_argv fmt typ argv)
      = Some (Exits w code (envelope codec_op ok sc (codec_results [item] ok "decoding failed"))) in
  (exists before after, cmd_codec fuel w g (encode_argv fmt typ lit)
    = Some (Exits w 0 (envelope codec_op true UA_STATUSCODE_GOOD
        (codec_results [before ++ J ",'encoded':{'value':" ++ output_json_string_len (Some doc) ++ after] true "encoding failed")))) /\
  (forall y doc', stack_decode fmt doc (type_of x) = (UA_STATUSCODE_GOOD, y) -> type_of y = type_of x ->
     encode_doc fmt y = (UA_STATUSCODE_GOOD, Some doc') ->
     decode_prints 0 true UA_STATUSCODE_GOOD (head UA_STATUSCODE_GOOD ++ print_variant_fields (VtScalar y) ++ J ","
       ++ print_binary_field "binary" y ++ J ",'reencoded':" ++ output_json_string_len (Some doc') ++ J "}")) /\
  (forall sc y, stack_decode fmt doc (type_of x) = (sc, y) -> sc <> UA_STATUSCODE_GOOD ->
     decode_prints 4 false sc (head sc ++ J "}")).
Proof.
  intros Ht Hnot Hxml Hp Hv Hdoc Hne Hlast Hbl Hin head decode_prints. pose proof (builtin_entry _ _ Ht) as Hname.
  pose proof (fun f => typ_no_flag typ (type_of x) f Hname) as Hno.
  assert (forall argv, In argv [[B "--document"; doc]; []] -> cmd_codec fuel w g (decode_argv fmt typ argv)
    = Some (emit_decoded w fmt (format_name fmt) typ (type_of x) doc)) as Hcmd.
  { intros argv [<-|[<-|[]]].
    - change (cmd_codec fuel w g (decode_argv fmt typ [B "--document"; doc]))
        with (Some (codec_decode w (tl (decode_argv fmt typ [B "--document"; doc])))).
      pose proof (document_lookups fmt typ doc Hno) as Hl. set (av := tl _) in *. unfold codec_decode.
      rewrite (parse_format_of av fmt) by (apply Hl; cbn; tauto). unfold check_json_mode.
      look Hl "--json-mode"%string; look Hl "--type"%string; look Hl "--document"%string. cbn [negb]. rewrite Ht.
      destruct doc as [|c d]; [congruence|reflexivity].
    - change (cmd_codec fuel w g (decode_argv fmt typ [])) with (Some (codec_decode w (tl (decode_argv fmt typ [])))).
      pose proof (stdin_lookups fmt typ Hno) as Hl. set (av := tl _) in *. unfold codec_decode.
      rewrite (parse_format_of av fmt) by (apply Hl; cbn; tauto). unfold check_json_mode.
      look Hl "--json-mode"%string; look Hl "--type"%string; look Hl "--document"%string; look Hl "--input"%string. cbn [negb]. rewrite Ht, Hin.
      rewrite read_all_spec; [|exact Hbl|now intros c <-]. destruct doc as [|c d]; [congruence|reflexivity]. }
  split; [|split].
  - set (dv := DataValue (Some (VtScalar x)) None None None None None).
    destruct (encode_prints_doc fmt x doc) as (before & after & Hi);
      [intros E; apply Hnot; rewrite E; cbn; auto..|exact Hdoc|]. exists before, after. rewrite <- Hi. fold dv.
    change (cmd_codec fuel w g (encode_argv fmt typ lit)) with (Some (codec_encode fuel w g (tl (encode_argv fmt typ lit)))).
    pose proof (encode_lookups fmt typ lit Hno) as Hl. set (av := tl _) in *. unfold codec_encode.
    rewrite (parse_format_of av fmt) by (apply Hl; cbn; tauto). unfold check_json_mode, literal_value, stamp_flag, option_flag.
    look Hl "--json-mode"%string; look Hl "--node"%string; look Hl "--type"%string; look Hl "--value"%string; look Hl "--dimensions"%string.
    look Hl "--source-timestamp"%string; look Hl "--server-timestamp"%string; look Hl "--status"%string.
    look Hl "--source-picoseconds"%string; look Hl "--server-picoseconds"%string.
    cbn [negb]. rewrite Hp. cbn [fbind rbind option_map]. unfold emit_encoded. fold dv.
    change (dv_value dv) with (VtScalar x). rewrite Hv. reflexivity.
  - intros y doc' Hy Hty Hd' argv Ha. rewrite (Hcmd argv Ha). unfold emit_decoded.
    rewrite (decode_reaches_stack fmt x doc Hdoc Hxml), Hy. cbn beta iota. unfold decode_item. rewrite <- Hty.
    rewrite decoded_scalar by (rewrite Hty; intros E; apply Hnot; rewrite E; cbn; auto). unfold print_doc_field. rewrite Hd'.
    change (UA_STATUSCODE_GOOD =? UA_STATUSCODE_GOOD) with true. cbn beta iota. unfold head. now rewrite <- !app_assoc.
  - intros sc y Hy Hsc argv Ha. rewrite (Hcmd argv Ha). unfold emit_decoded.
    rewrite (decode_reaches_stack fmt x doc Hdoc Hxml), Hy. unfold decode_item.
    destruct (Z.eqb_spec sc UA_STATUSCODE_GOOD); [contradiction|]. unfold head. cbn [app]. now rewrite <- !app_assoc.
Qed.
End Roundtrip.

(** * A codec of Booleans *)

Definition bool_encode (v : ua_value) : Z * ua_string :=
  match v with
  | VBoolean b | VVariant (VtScalar (VBoolean b)) => (UA_STATUSCODE_GOOD, Some (bool_text b))
  | _ => (UA_STATUSCODE_BADNOTIMPLEMENTED, None)
  end.

Definition bool_decode (d : bytes) (t : ua_type) : Z * ua_value :=
  let b := streq d (B "true") in
  if b || streq d (B "false")
  then match t with
       | TBoolean => (UA_STATUSCODE_GOOD, VBoolean b)
       | TVariant => (UA_STATUSCODE_GOOD, VVariant (VtScalar (VBoolean b)))
       | _ => (UA_STATUSCODE_BADNOTIMPLEMENTED, VBoolean false)
       end
  else (UA_STATUSCODE_BADNOTIMPLEMENTED, VBoolean false).

#[export] Instance ref_codec : UaCodec := {
  UA_encodeJson := bool_encode; UA_encodeXml := bool_encode; UA_encodeBinary := bool_encode;
  UA_decodeJson := bool_decode; UA_decodeXml := bool_decode }.

Lemma bool_encode_wf v : 0 <= fst (bool_encode v) < 2 ^ 32 /\ wf_str (snd (bool_encode v)) = true.
Proof.
  unfold UA_STATUSCODE_BADNOTIMPLEMENTED, UA_STATUSCODE_GOOD in *.
  destruct v as [b| | | | | | | | | | | | | | | | | | |? ?|? ?| |d|[|[b| | | | | | | | | | | | | | | | | | |? ?|? ?| | |d| |]|? ? ?]| |];
    try (cbn; split; [unfold UA_STATUSCODE_BADNOTIMPLEMENTED; lia|reflexivity]); destruct b; split; (reflexivity || now vm_compute).
Qed.

Lemma bool_decode_cases d t : let '(sc, v) := bool_decode d t in
  sc = UA_STATUSCODE_GOOD /\ wf_value v = true /\ type_of v = t \/ sc = UA_STATUSCODE_BADNOTIMPLEMENTED.
Proof.
  unfold bool_decode. destruct (_ || _); [|now right]. destruct t; try (now right); left; repeat split.
Qed.

#[export] Instance ref_codec_laws : UaCodecLaws ref_codec.
Proof.
  assert (forall d t, 0 <= fst (bool_decode d t) < 2 ^ 32) as Hs.
  { intros d t. pose proof (bool_decode_cases d t) as H. destruct (bool_decode d t) as [sc v]. cbn [fst].
    unfold UA_STATUSCODE_GOOD, UA_STATUSCODE_BADNOTIMPLEMENTED in H. lia. }
  assert (forall d t v, bool_decode d t = (UA_STATUSCODE_GOOD, v) -> wf_value v = true /\ type_of v = t) as Hw.
  { intros d t v E. pose proof (bool_decode_cases d t) as H. rewrite E in H. destruct H as [H|H]; [now destruct H|discriminate]. }
  split; auto using bool_encode_wf.
Qed.

#[export] Instance ref_files : InputFiles Z := { input_bytes w _ := (w, Some (B "true" ++ [10])) }.

Lemma codec_roundtrip_witness :
  (exists out, cmd_codec 0 0 g_sec_default (encode_argv FMT_JSON (B "Boolean") (B "true")) = Some (Exits 0 0 out)) /\
  (exists out, cmd_codec 0 0 g_sec_default (decode_argv FMT_JSON (B "Boolean") []) = Some (Exits 0 0 out)).
Proof.
  destruct (codec_roundtrip 0 0 g_sec_default FMT_JSON (B "Boolean") (B "true") (VBoolean true) (B "true") [10])
    as ((before & after & H1) & H2 & _); try reflexivity; try discriminate.
  - cbn. intros [E|[E|[]]]; discriminate.
  - split; eexists; [exact H1|]. apply (H2 (VBoolean true) (B "true")); [reflexivity..|right; now left].
Defined.
