(* ===== verification/PubSubJson.v ===== *)
(** pubsub_server.c, JSON normalisation: OPC UA 1.05 documents with ExtensionObject
    fields in place are rewritten to the UaBody form, and encoding NodeIds to
    DataType NodeIds, before the stack decodes them. *)

From Stdlib Require Import String Ascii ZArith Bool List Lia SpecFloat.
Import ListNotations.
From S2P Require Import Prelude CLib UaTypes RefStack CJson.

(** * The libraries *)

(** The NodeIds of one entry of [UA_TYPES]. *)
Record type_ids := { ti_typeId : ua_nodeid; ti_binaryEncodingId : ua_nodeid; ti_xmlEncodingId : ua_nodeid }.

Class TypeTable := {
  UA_TYPES : list type_ids;
  UA_NodeId_parse : bytes -> option ua_nodeid;
  UA_NodeId_print : ua_nodeid -> option bytes
}.

(** [cJSON_ParseWithLength] *)
Class CJsonLength := { cJSON_ParseWithLength : bytes -> option cjson }.

Definition UaTypeId : bytes := B "UaTypeId".
Definition UaBody : bytes := B "UaBody".
Definition UaEncoding : bytes := B "UaEncoding".

(** The item with the name that [cJSON_GetObjectItemCaseSensitive] points to is
    the first of them; it is changed in place. *)
Fixpoint change_member (k : bytes) (f : cjson -> cjson) (l : list (bytes * cjson)) : list (bytes * cjson) :=
  match l with
  | [] => []
  | (n, v) :: r => if streq n k then (n, f v) :: r else (n, v) :: change_member k f r
  end.

Section Normalize.
Context {cj : CJson} {nid : NodeIdOps} {tt_ : TypeTable}.

Definition normalize_typeid (typeIdItem : cjson) : cjson :=
  match typeIdItem with
  | CString s =>
      match UA_NodeId_parse s with
      | None => typeIdItem
      | Some id =>
          match find (fun t => NodeId_equal (ti_binaryEncodingId t) id || NodeId_equal (ti_xmlEncodingId t) id) UA_TYPES with
          | None => typeIdItem
          | Some t => match UA_NodeId_print (ti_typeId t) with Some s => CString (cstr s) | None => typeIdItem end
          end
      end
  | _ => typeIdItem
  end.

Definition has_member (obj : cjson) (k : bytes) : bool := is_some (cJSON_GetObjectItemCaseSensitive obj k).

(** The part of [normalize_object] before the loop over the children: the members. *)
Definition rewrite_members (members : list (bytes * cjson)) : list (bytes * cjson) :=
  if has_member (CObject members) UaTypeId then
    let members := change_member UaTypeId normalize_typeid members in
    if negb (has_member (CObject members) UaBody) && negb (has_member (CObject members) UaEncoding) then
      filter (fun m => streq (fst m) UaTypeId) members
      ++ [(UaBody, CObject (filter (fun m => negb (streq (fst m) UaTypeId)) members))]
    else members
  else members.

(** [normalize_node] and [normalize_object]; [None]: out of fuel. *)
Fixpoint normalize_node (fuel : nat) (node : cjson) : option cjson :=
  match node with
  | CObject members =>
      match fuel with
      | O => None
      | S f => do l <- mapM (fun m => do v <- normalize_node f (snd m); Some (fst m, v)) (rewrite_members members);
               Some (CObject l)
      end
  | CArray items =>
      match fuel with
      | O => None
      | S f => do l <- mapM (normalize_node f) items; Some (CArray l)
      end
  | _ => Some node
  end.

(** The nesting depth; a rewritten object is one level deeper. *)
Fixpoint depth (j : cjson) : nat :=
  match j with
  | CObject l => S (S (fold_right (fun m d => Nat.max (depth (snd m)) d) O l))
  | CArray l => S (fold_right (fun v d => Nat.max (depth v) d) O l)
  | _ => O
  end.

Context {len : CJsonLength}.

Definition pubsub_normalize_json (json : bytes) : option (option bytes) :=
  match cJSON_ParseWithLength json with
  | None => Some None
  | Some root => do j <- normalize_node (depth root) root; Some (cJSON_PrintUnformatted j)
  end.
End Normalize.

(** [cJSON_GetObjectItemCaseSensitive] finds the first member of that name. *)
Class CJsonLookup (C : CJson) := {
  get_first : forall l k, cJSON_GetObjectItemCaseSensitive (CObject l) k
    = option_map snd (find (fun m => streq (fst m) k) l)
}.

(** The printed NodeIds of the DataTypes in the table (numeric ones) parse back, and
    none of them is the NodeId of an encoding. *)
Class TypeTableLaws {nid : NodeIdOps} (tt_ : TypeTable) := {
  print_parse : forall t s, In t UA_TYPES -> UA_NodeId_print (ti_typeId t) = Some s -> UA_NodeId_parse (cstr s) = Some (ti_typeId t);
  types_disjoint : forall t t', In t UA_TYPES -> In t' UA_TYPES ->
    NodeId_equal (ti_binaryEncodingId t') (ti_typeId t) = false /\ NodeId_equal (ti_xmlEncodingId t') (ti_typeId t) = false
}.

(** * What normalisation computes *)

(** The members [C] asks for are those of the specification below: an object with
    a UaTypeId and its fields in place becomes the UaTypeId and a UaBody. *)
Definition in_place (l : list (bytes * cjson)) : bool :=
  existsb (fun m => streq (fst m) UaTypeId) l
  && negb (existsb (fun m => streq (fst m) UaBody) l) && negb (existsb (fun m => streq (fst m) UaEncoding) l).

Section Spec.
Context {nid : NodeIdOps} {tt_ : TypeTable}.

(** The members of an object whose values are normal already. *)
Definition normal_members (l : list (bytes * cjson)) : list (bytes * cjson) :=
  let l' := change_member UaTypeId normalize_typeid l in
  if in_place l then
    filter (fun m => streq (fst m) UaTypeId) l' ++ [(UaBody, CObject (filter (fun m => negb (streq (fst m) UaTypeId)) l'))]
  else l'.

Fixpoint normal (j : cjson) : cjson :=
  match j with
  | CObject l => CObject (normal_members (map (fun m => (fst m, normal (snd m))) l))
  | CArray l => CArray (map normal l)
  | _ => j
  end.
End Spec.

(** No ExtensionObject has its fields in place, at any depth. *)
Fixpoint body_form (j : cjson) : bool :=
  match j with
  | CObject l => negb (in_place l) && forallb (fun m => body_form (snd m)) l
  | CArray l => forallb body_form l
  | _ => true
  end.

(** Induction over a document. *)
Lemma cjson_tree_ind (P : cjson -> Prop) :
  P CNull -> (forall b, P (CBool b)) -> (forall d i, P (CNumber d i)) -> (forall s, P (CString s)) ->
  (forall l, Forall P l -> P (CArray l)) -> (forall l, Forall (fun m => P (snd m)) l -> P (CObject l)) -> forall j, P j.
Proof.
  intros H1 H2 H3 H4 H5 H6. fix IH 1. intros [| | | |l|l]; [exact H1|apply H2|apply H3|apply H4|apply H5|apply H6].
  - induction l as [|v l IHl]; constructor; [apply IH|exact IHl].
  - induction l as [|[k v] l IHl]; constructor; [apply IH|exact IHl].
Qed.

(** * Lemmas *)

Lemma typeid_names : streq UaTypeId UaBody = false /\ streq UaTypeId UaEncoding = false.
Proof. now split. Qed.

Local Opaque UaTypeId UaBody UaEncoding.

Abbreviation keyed k := (fun m : bytes * cjson => streq (fst m) k).

Lemma change_keys k f l : map fst (change_member k f l) = map fst l.
Proof. induction l as [|[n v] l IH]; cbn; [reflexivity|]. destruct (streq n k); cbn; congruence. Qed.

Lemma existsb_keys k l l' : map fst l = map fst l' -> existsb (keyed k) l = existsb (keyed k) l'.
Proof.
  revert l'. induction l as [|[n v] l IH]; intros [|[n' v'] l'] H; try discriminate; [reflexivity|]. cbn in *.
  injection H as -> H. now rewrite (IH l' H).
Qed.

Lemma in_place_keys l l' : map fst l = map fst l' -> in_place l = in_place l'.
Proof. intros H. unfold in_place. now rewrite !(existsb_keys _ l l' H). Qed.

Lemma change_absent k f l : existsb (keyed k) l = false -> change_member k f l = l.
Proof. induction l as [|[n v] l IH]; cbn; [reflexivity|]. destruct (streq n k); [discriminate|]. intros H. now rewrite IH. Qed.

Lemma fields_no_typeid l : existsb (keyed UaTypeId) (filter (fun m => negb (streq (fst m) UaTypeId)) l) = false.
Proof. induction l as [|[n v] l IH]; cbn; [reflexivity|]. destruct (streq n UaTypeId) eqn:E; cbn; [exact IH|now rewrite E]. Qed.

Lemma change_Forall (P : cjson -> Prop) k f l : (forall v, P v -> P (f v)) ->
  Forall (fun m => P (snd m)) l -> Forall (fun m => P (snd m)) (change_member k f l).
Proof. intros Hf. induction 1 as [|[n v] l Hv Hl IH]; cbn; [constructor|]. destruct (streq n k); constructor; cbn; auto. Qed.

Section Lemmas.
Context {cj : CJson} {look : CJsonLookup cj} {nid : NodeIdOps} {tt_ : TypeTable} {laws : TypeTableLaws tt_}.

Lemma typeid_nonstring v : cJSON_IsString v = false -> normalize_typeid v = v.
Proof. now destruct v. Qed.

Lemma typeid_string s : exists s', normalize_typeid (CString s) = CString s'.
Proof.
  cbn. destruct (UA_NodeId_parse s); [|eauto]. destruct (find _ UA_TYPES) as [t|]; [|eauto].
  destruct (UA_NodeId_print (ti_typeId t)); eauto.
Qed.

Lemma normal_string v : cJSON_IsString (normal v) = cJSON_IsString v.
Proof. now destruct v. Qed.

(** Rewriting a UaTypeId and normalising its value commute. *)
Lemma normal_typeid v : normal (normalize_typeid v) = normalize_typeid (normal v).
Proof.
  destruct (cJSON_IsString v) eqn:E.
  - destruct v as [| | |s| |]; try discriminate. change (normal (CString s)) with (CString s).
    now destruct (typeid_string s) as [s' ->].
  - now rewrite !typeid_nonstring by (rewrite ?normal_string; exact E).
Qed.

Lemma typeid_idempotent v : normalize_typeid (normalize_typeid v) = normalize_typeid v.
Proof.
  destruct v as [| | |s| |]; try reflexivity. cbn [normalize_typeid].
  destruct (UA_NodeId_parse s) as [id|] eqn:Ep; [|cbn [normalize_typeid]; now rewrite Ep].
  destruct (find _ UA_TYPES) as [t|] eqn:Ef; [|cbn [normalize_typeid]; now rewrite Ep, Ef].
  apply find_some in Ef as Ht. destruct Ht as [Ht _].
  destruct (UA_NodeId_print (ti_typeId t)) as [s'|] eqn:Es; [|cbn [normalize_typeid]; now rewrite Ep, Ef, Es].
  cbn [normalize_typeid]. rewrite (print_parse _ _ Ht Es). clear Ef.
  destruct (find _ UA_TYPES) as [t'|] eqn:Ef'; [|reflexivity]. apply find_some in Ef' as [Ht' H].
  destruct (types_disjoint t t' Ht Ht') as [H1 H2]. now rewrite H1, H2 in H.
Qed.

Lemma change_idempotent l : change_member UaTypeId normalize_typeid (change_member UaTypeId normalize_typeid l)
  = change_member UaTypeId normalize_typeid l.
Proof.
  induction l as [|[n v] l IH]; cbn; [reflexivity|]. destruct (streq n UaTypeId) eqn:E; cbn; rewrite E; [|now rewrite IH].
  now rewrite typeid_idempotent.
Qed.

Lemma has_member_keys l k : has_member (CObject l) k = existsb (keyed k) l.
Proof.
  unfold has_member. rewrite get_first. induction l as [|[n v] l IH]; cbn; [reflexivity|]. now destruct (streq n k).
Qed.

(** The code's members are the specification's. *)
Lemma rewrite_members_spec l : rewrite_members l = normal_members l.
Proof.
  unfold rewrite_members, normal_members, in_place. rewrite !has_member_keys.
  rewrite !(existsb_keys _ (change_member _ _ l) l (change_keys _ _ l)).
  destruct (existsb (keyed UaTypeId) l) eqn:E; cbn [andb]; [reflexivity|]. now rewrite change_absent.
Qed.

Lemma normal_members_plain l : existsb (keyed UaTypeId) l = false -> normal_members l = l.
Proof. intros H. unfold normal_members, in_place. rewrite H. cbn [andb]. now apply change_absent. Qed.

Definition nmap (l : list (bytes * cjson)) : list (bytes * cjson) := map (fun m => (fst m, normal (snd m))) l.

Local Arguments nmap : simpl never.
Lemma nmap_cons n v l : nmap ((n, v) :: l) = (n, normal v) :: nmap l.
Proof. reflexivity. Qed.

Lemma nmap_keys l : map fst (nmap l) = map fst l.
Proof. unfold nmap. rewrite map_map. now apply map_ext. Qed.

Lemma nmap_filter (p : bytes -> bool) l : nmap (filter (fun m => p (fst m)) l) = filter (fun m => p (fst m)) (nmap l).
Proof.
  induction l as [|[n v] l IH]; [reflexivity|]. rewrite nmap_cons. cbn [filter fst].
  destruct (p n); [now rewrite nmap_cons, IH|exact IH].
Qed.

Lemma nmap_change l : nmap (change_member UaTypeId normalize_typeid l) = change_member UaTypeId normalize_typeid (nmap l).
Proof.
  induction l as [|[n v] l IH]; [reflexivity|]. rewrite nmap_cons. cbn [change_member].
  destruct (streq n UaTypeId); rewrite nmap_cons; [now rewrite normal_typeid|now rewrite IH].
Qed.

Lemma normal_fields l : normal (CObject (filter (fun m => negb (streq (fst m) UaTypeId)) l))
  = CObject (filter (fun m => negb (streq (fst m) UaTypeId)) (nmap l)).
Proof.
  cbn [normal]. fold (nmap (filter (fun m => negb (streq (fst m) UaTypeId)) l)).
  rewrite (nmap_filter (fun n => negb (streq n UaTypeId))). f_equal. apply normal_members_plain, fields_no_typeid.
Qed.

Lemma nmap_members l : nmap (normal_members l) = normal_members (nmap l).
Proof.
  unfold normal_members. rewrite (in_place_keys (nmap l) l (nmap_keys l)), <- nmap_change.
  destruct (in_place l); [|reflexivity]. set (l' := change_member _ _ l).
  unfold nmap at 1. rewrite map_app. cbn [map fst snd]. rewrite normal_fields. f_equal.
  exact (nmap_filter (fun n => streq n UaTypeId) l').
Qed.

(** ** Enough fuel *)

Definition done (f : nat) (v : cjson) : Prop := normalize_node f v = Some (normal v).

Lemma mapM_done f l : Forall (fun m => done f (snd m)) l ->
  mapM (fun m => do v <- normalize_node f (snd m); Some (fst m, v)) l = Some (nmap l).
Proof.
  induction 1 as [|[n v] l Hv Hl IH]; [reflexivity|]. cbn [mapM snd fst] in *. unfold done in Hv. rewrite Hv, IH. reflexivity.
Qed.

Lemma normalize_object_eq f l : normalize_node (S f) (CObject l)
  = do l' <- mapM (fun m => do v <- normalize_node f (snd m); Some (fst m, v)) (normal_members l); Some (CObject l').
Proof. rewrite <- rewrite_members_spec. reflexivity. Qed.

Lemma done_typeid f v : done f v -> done f (normalize_typeid v).
Proof.
  intros H. destruct (cJSON_IsString v) eqn:E; [|now rewrite typeid_nonstring].
  destruct v as [| | |s| |]; try discriminate. destruct (typeid_string s) as [s' ->]. now destruct f.
Qed.

Lemma done_members f l : Forall (fun m => done f (snd m)) l -> (forall v, done f v -> done (S f) v) ->
  Forall (fun m => done (S f) (snd m)) (normal_members l).
Proof.
  intros H Hup. unfold normal_members. pose proof (change_Forall (done f) UaTypeId normalize_typeid l (done_typeid f) H) as H'.
  set (l' := change_member _ _ l) in *. assert (Forall (fun m => done (S f) (snd m)) l') as H1 by
    (revert H'; apply Forall_impl; auto).
  destruct (in_place l); [|exact H1]. apply Forall_app. split.
  - rewrite Forall_forall in *. intros m Hm. apply filter_In in Hm as [Hm _]. auto.
  - constructor; [|constructor]. cbn [snd]. unfold done. rewrite normal_fields, normalize_object_eq.
    rewrite normal_members_plain by apply fields_no_typeid.
    rewrite mapM_done; [cbn [obind]; now rewrite (nmap_filter (fun n => negb (streq n UaTypeId)))|].
    rewrite Forall_forall in *. intros m Hm. apply filter_In in Hm as [Hm _]. auto.
Qed.

Lemma done_object f l : (forall v, done f v -> done (S f) v) -> Forall (fun m => done f (snd m)) l -> done (S (S f)) (CObject l).
Proof.
  intros Hup H. unfold done. rewrite normalize_object_eq, mapM_done by now apply done_members. cbn [obind normal]. now rewrite nmap_members.
Qed.

Lemma mapM_array f l : Forall (done f) l -> mapM (normalize_node f) l = Some (map normal l).
Proof. induction 1 as [|v l Hv Hl IH]; cbn; [reflexivity|]. unfold done in Hv. rewrite Hv. cbn. now rewrite IH. Qed.

Lemma mapM_ext_some {A C} (f g : A -> option C) l r : (forall a c, In a l -> f a = Some c -> g a = Some c) ->
  mapM f l = Some r -> mapM g l = Some r.
Proof.
  revert r. induction l as [|a l IH]; cbn; intros r H E; [exact E|]. destruct (f a) as [c|] eqn:Ea; [|discriminate].
  rewrite (H a c) by auto. cbn in *. destruct (mapM f l) as [r'|]; [|discriminate]. rewrite (IH r'); auto.
Qed.

(** More fuel changes nothing. *)
Lemma normalize_mono f : forall v v', normalize_node f v = Some v' -> normalize_node (S f) v = Some v'.
Proof.
  induction f as [|f IH]; intros v v' H.
  { destruct v; try discriminate; exact H. }
  destruct v as [| | | |l|l]; try exact H.
  - change (normalize_node (S (S f)) (CArray l)) with (do r <- mapM (normalize_node (S f)) l; Some (CArray r)).
    change (normalize_node (S f) (CArray l)) with (do r <- mapM (normalize_node f) l; Some (CArray r)) in H.
    destruct (mapM (normalize_node f) l) as [r|] eqn:E; [|discriminate].
    now rewrite (mapM_ext_some _ (normalize_node (S f)) l r (fun a c _ => IH a c) E).
  - rewrite normalize_object_eq in *. destruct (mapM _ (normal_members l)) as [r|] eqn:E in H; [|discriminate].
    erewrite mapM_ext_some; [exact H| |exact E].
    intros m c _ Hm. cbn beta in *. destruct (normalize_node f (snd m)) as [x|] eqn:Ex; [|discriminate].
    now rewrite (IH _ _ Ex).
Qed.

Lemma normalize_done j : forall fuel, (depth j <= fuel)%nat -> done fuel j.
Proof.
  assert (forall f v, done f v -> done (S f) v) as Hup by (intros f v; apply normalize_mono).
  induction j as [| | | |l IH|l IH] using cjson_tree_ind; intros fuel Hf; try (now destruct fuel).
  - destruct fuel as [|f]; [cbn in Hf; lia|]. unfold done. cbn [normalize_node]. rewrite mapM_array; [reflexivity|].
    cbn in Hf. apply le_S_n in Hf. revert Hf. induction IH as [|v l Hv Hl IHl]; cbn; intros Hf; constructor; [apply Hv; lia|apply IHl; lia].
  - destruct fuel as [|[|f]]; [cbn in Hf; lia|cbn in Hf; lia|]. apply done_object; [auto|].
    cbn in Hf. do 2 apply le_S_n in Hf. revert Hf. induction IH as [|m l Hv Hl IHl]; cbn; intros Hf; constructor; [apply Hv; lia|apply IHl; lia].
Qed.
(** ** Normal documents *)

Lemma in_place_members l : in_place (normal_members l) = false.
Proof.
  unfold normal_members. destruct (in_place l) eqn:E.
  - unfold in_place. rewrite !existsb_app. cbn [existsb fst]. rewrite streq_refl, orb_true_l, !orb_true_r. cbn [negb].
    now rewrite andb_false_r.
  - now rewrite (in_place_keys _ l (change_keys _ _ l)).
Qed.

Lemma change_filter f l x : existsb (keyed UaTypeId) l = true ->
  change_member UaTypeId f (filter (keyed UaTypeId) l ++ x) = filter (keyed UaTypeId) (change_member UaTypeId f l) ++ x.
Proof.
  induction l as [|[n v] r IH]; [discriminate|]. cbn [existsb fst filter change_member].
  destruct (streq n UaTypeId) eqn:E; cbn [filter fst app change_member]; rewrite ?E; [reflexivity|exact IH].
Qed.

Lemma normal_members_fixed l : normal_members (normal_members l) = normal_members l.
Proof.
  unfold normal_members at 1. rewrite in_place_members. unfold normal_members. destruct (in_place l) eqn:E; [|apply change_idempotent].
  cbv zeta. rewrite change_filter, change_idempotent; [reflexivity|]. rewrite (existsb_keys _ _ l (change_keys _ _ l)).
  unfold in_place in E. now destruct (existsb (keyed UaTypeId) l).
Qed.

Lemma normal_fixed j : normal (normal j) = normal j.
Proof.
  induction j as [| | | |l IH|l IH] using cjson_tree_ind; try reflexivity; cbn [normal].
  - f_equal. rewrite map_map. apply map_ext_in. rewrite Forall_forall in IH. exact IH.
  - fold (nmap l). fold (nmap (normal_members (nmap l))). rewrite nmap_members.
    replace (nmap (nmap l)) with (nmap l).
    + now rewrite normal_members_fixed.
    + unfold nmap. rewrite map_map. apply map_ext_in. intros m Hm. rewrite Forall_forall in IH. cbn [fst snd]. now rewrite (IH m Hm).
Qed.

Lemma body_form_members l : Forall (fun m => body_form (snd m) = true) l -> body_form (CObject (normal_members l)) = true.
Proof.
  intros H. cbn [body_form]. rewrite in_place_members. cbn [negb andb].
  assert (Forall (fun m => body_form (snd m) = true) (change_member UaTypeId normalize_typeid l)) as H'.
  { apply (change_Forall (fun v => body_form v = true)); [|exact H]. intros v Hv. destruct (cJSON_IsString v) eqn:E.
    - destruct v as [| | |s| |]; try discriminate. now destruct (typeid_string s) as [s' ->].
    - now rewrite typeid_nonstring. }
  rewrite Forall_forall in H'. apply forallb_forall. unfold normal_members.
  destruct (in_place l); [|exact H']. intros m Hm. apply in_app_or in Hm as [Hm|[<-|[]]].
  - apply filter_In in Hm as [Hm _]. auto.
  - cbn [snd body_form]. unfold in_place. rewrite fields_no_typeid. cbn [negb andb]. apply forallb_forall. intros x Hx.
    apply filter_In in Hx as [Hx _]. auto.
Qed.

Lemma body_form_normal j : body_form (normal j) = true.
Proof.
  induction j as [| | | |l IH|l IH] using cjson_tree_ind; try reflexivity; cbn [normal].
  - cbn [body_form]. apply forallb_forall. intros v Hv. apply in_map_iff in Hv as (u & <- & Hu). rewrite Forall_forall in IH. auto.
  - apply body_form_members, Forall_map. exact IH.
Qed.

Definition plain_field (m : bytes * cjson) : bool :=
  negb (streq (fst m) UaTypeId || streq (fst m) UaBody || streq (fst m) UaEncoding).

Lemma plain_fields l : forallb plain_field l = true ->
  existsb (keyed UaTypeId) l = false /\ existsb (keyed UaBody) l = false /\ existsb (keyed UaEncoding) l = false /\
  filter (keyed UaTypeId) l = [] /\ filter (fun m => negb (streq (fst m) UaTypeId)) l = l.
Proof.
  induction l as [|[n x] l IH]; [now repeat split|]. intros H. cbn [forallb] in H. unfold plain_field at 1 in H.
  cbn [fst existsb filter] in *. destruct (streq n UaTypeId), (streq n UaBody), (streq n UaEncoding); try discriminate H.
  cbn [negb orb andb] in *. destruct (IH H) as (-> & -> & -> & -> & ->). now repeat split.
Qed.

Lemma change_skip k f before l : existsb (keyed k) before = false -> change_member k f (before ++ l) = before ++ change_member k f l.
Proof.
  induction before as [|[n v] r IH]; cbn [existsb app change_member fst]; [reflexivity|].
  destruct (streq n k); [discriminate|]. intros H. now rewrite IH.
Qed.

(** The object form of an ExtensionObject with its fields in place. *)
Lemma normal_in_place v before after : forallb plain_field (before ++ after) = true ->
  normal_members (before ++ (UaTypeId, v) :: after) = [(UaTypeId, normalize_typeid v); (UaBody, CObject (before ++ after))].
Proof.
  intros H. destruct typeid_names as [N1 N2]. rewrite forallb_app in H. apply andb_prop in H as [H1 H2].
  destruct (plain_fields _ H1) as (A1 & A2 & A3 & A4 & A5). destruct (plain_fields _ H2) as (C1 & C2 & C3 & C4 & C5).
  unfold normal_members, in_place. rewrite change_skip, !existsb_app by exact A1. cbn [change_member existsb fst].
  rewrite streq_refl, N1, N2, A1, A2, A3, C2, C3. cbn [orb andb negb]. rewrite !filter_app. cbn [filter fst].
  rewrite streq_refl. cbn [negb]. now rewrite A4, A5, C4, C5.
Qed.

(** A UaTypeId is left alone, or it was the NodeId of an encoding of a type in the
    table and names the DataType now. *)
Definition typeid_meaning (v v' : cjson) : Prop :=
  v' = v \/ exists s s' id t, v = CString s /\ v' = CString s' /\ UA_NodeId_parse s = Some id /\ In t UA_TYPES /\
    (NodeId_equal (ti_binaryEncodingId t) id = true \/ NodeId_equal (ti_xmlEncodingId t) id = true) /\
    UA_NodeId_parse s' = Some (ti_typeId t).

Lemma typeid_means v : typeid_meaning v (normalize_typeid v).
Proof.
  destruct v as [| | |s| |]; try now left. cbn [normalize_typeid]. destruct (UA_NodeId_parse s) as [id|] eqn:Ep; [|now left].
  destruct (find _ UA_TYPES) as [t|] eqn:Ef; [|now left]. apply find_some in Ef as [Ht He].
  destruct (UA_NodeId_print (ti_typeId t)) as [s'|] eqn:Es; [|now left]. right. exists s, (cstr s'), id, t.
  apply orb_prop in He. repeat split; auto. exact (print_parse t s' Ht Es).
Qed.

(** The NodeId of an encoding is not left in place when its DataType can be printed. *)
Lemma typeid_rewritten s id t : UA_NodeId_parse s = Some id ->
  find (fun t => NodeId_equal (ti_binaryEncodingId t) id || NodeId_equal (ti_xmlEncodingId t) id) UA_TYPES = Some t ->
  UA_NodeId_print (ti_typeId t) <> None -> exists s', normalize_typeid (CString s) = CString s' /\ UA_NodeId_parse s' = Some (ti_typeId t).
Proof.
  intros Ep Ef Hp. cbn [normalize_typeid]. rewrite Ep, Ef. apply find_some in Ef as [Ht _].
  destruct (UA_NodeId_print (ti_typeId t)) as [s'|] eqn:Es; [|now destruct Hp]. exists (cstr s'). split; [reflexivity|]. exact (print_parse t s' Ht Es).
Qed.

Definition same_member (m m' : bytes * cjson) : Prop :=
  fst m' = fst m /\ normalize_node (depth (snd m)) (snd m) = Some (snd m').

Lemma nmap_same l : Forall2 same_member l (nmap l).
Proof. induction l as [|[n v] l IH]; constructor; [split; [reflexivity|now apply normalize_done]|exact IH]. Qed.
End Lemmas.

(** C22: normalisation ends on every document (its fuel is the depth), leaves no
    ExtensionObject with its fields in place, and leaves a normalised document alone.
    An object with one UaTypeId, wherever it stands among the members, and without
    UaBody and UaEncoding becomes that UaTypeId and a UaBody with all the other
    members, normalised, in their order; any other object keeps its members, and an
    array its elements, in their order and normalised.  In both, the first UaTypeId
    is kept or, when it is the NodeId of an encoding, names the DataType instead. *)
Theorem normalize_correct {cj : CJson} {look : CJsonLookup cj} {nid : NodeIdOps} {tt_ : TypeTable} {laws : TypeTableLaws tt_} j :
  exists j', (forall fuel, (depth j <= fuel)%nat -> normalize_node fuel j = Some j') /\ body_form j' = true /\
    (forall fuel, (depth j' <= fuel)%nat -> normalize_node fuel j' = Some j') /\
    (forall before t after, j = CObject (before ++ (UaTypeId, t) :: after) -> forallb plain_field (before ++ after) = true ->
       exists t0 t' fields, j' = CObject [(UaTypeId, t'); (UaBody, CObject fields)] /\ Forall2 same_member (before ++ after) fields /\
         normalize_node (depth t) t = Some t0 /\ typeid_meaning t0 t') /\
    (forall l, j = CObject l -> in_place l = false -> exists l1 l', j' = CObject l' /\ Forall2 same_member l l1 /\
       (l' = l1 \/ exists before t0 t' after, l1 = before ++ (UaTypeId, t0) :: after /\ existsb (fun m => streq (fst m) UaTypeId) before = false /\
          l' = before ++ (UaTypeId, t') :: after /\ typeid_meaning t0 t')) /\
    (forall l, j = CArray l -> exists l', j' = CArray l' /\ Forall2 (fun v v' => normalize_node (depth v) v = Some v') l l').
Proof.
  exists (normal j). split; [intros fuel; apply normalize_done|]. split; [apply body_form_normal|]. split.
  { intros fuel Hf. rewrite <- (normal_fixed j) at 2. now apply normalize_done. }
  split; [|split].
  - intros before t after -> Hk. exists (normal t), (normalize_typeid (normal t)), (nmap (before ++ after)).
    split; [|split; [apply nmap_same|split; [now apply normalize_done|apply typeid_means]]].
    cbn [normal]. rewrite map_app. cbn [map fst snd]. fold (nmap before) (nmap after). f_equal.
    rewrite normal_in_place; [unfold nmap; now rewrite map_app|].
    unfold nmap. rewrite <- map_app. rewrite forallb_forall in *. intros m Hm. apply in_map_iff in Hm as (m0 & <- & H0). now apply (Hk m0).
  - intros l -> Hl. exists (nmap l), (normal_members (nmap l)). split; [reflexivity|]. split; [apply nmap_same|].
    unfold normal_members. rewrite (in_place_keys _ l (nmap_keys l)), Hl. clear Hl. induction (nmap l) as [|[n v] r IH]; [now left|].
    cbn [change_member]. destruct (streq n UaTypeId) eqn:E.
    + right. apply streq_eq in E as ->. exists [], v, (normalize_typeid v), r. repeat split. apply typeid_means.
    + destruct IH as [->|(b & t0 & t' & a & -> & Hb & -> & Ht)]; [now left|right]. exists ((n, v) :: b), t0, t', a.
      cbn [existsb fst app]. now rewrite E.
  - intros l ->. exists (map normal l). split; [reflexivity|]. induction l; constructor; auto. now apply normalize_done.
Qed.

(** * A type table *)

#[export] Instance ref_lookup : CJsonLookup ref_cjson.
Proof. split. reflexivity. Qed.

(** NetworkAddressUrlDataType, i=15510, and its encodings. *)
#[export] Instance ref_types : TypeTable := {
  UA_TYPES := [{| ti_typeId := UA_NODEID_NUMERIC 0 15510; ti_binaryEncodingId := UA_NODEID_NUMERIC 0 21152;
                  ti_xmlEncodingId := UA_NODEID_NUMERIC 0 21176 |}];
  UA_NodeId_parse s := if streq s (B "i=15510") then Some (UA_NODEID_NUMERIC 0 15510)
                       else if streq s (B "i=21152") then Some (UA_NODEID_NUMERIC 0 21152) else None;
  UA_NodeId_print n := if nodeid_eq_dec n (UA_NODEID_NUMERIC 0 15510) then Some (B "i=15510") else None }.

#[export] Instance ref_types_laws : TypeTableLaws ref_types.
Proof.
  split.
  - intros t s [<-|[]] H. now injection H as <-.
  - intros t t' [<-|[]] [<-|[]]. now split.
Qed.

Definition address_json : cjson :=
  CArray [CObject [(B "Url", CString (B "opc.udp://239.0.0.1:4840")); (UaTypeId, CString (B "i=21152"))]].

Lemma normalize_correct_witness : exists j', normalize_node 3 address_json = Some j' /\ body_form j' = true /\
  j' = CArray [CObject [(UaTypeId, CString (B "i=15510")); (UaBody, CObject [(B "Url", CString (B "opc.udp://239.0.0.1:4840"))])]].
Proof.
  destruct (normalize_correct address_json) as (j' & H & Hb & _ & _). specialize (H 3%nat (le_n 3)). exists j'.
  split; [exact H|]. split; [exact Hb|]. vm_compute in H. injection H as <-. reflexivity.
Defined.
