(* ===== verification/JsonTree.v ===== *)
(** JSON documents as trees, the text the adapter's printers give them and the
    value cJSON reads from that text.  The class [CJsonReads] is what the commands
    that read such documents back rely on; [tree_cjson] is a reader that has it. *)

From Stdlib Require Import String Ascii ZArith Bool List Lia SpecFloat.
Import ListNotations.
From S2P Require Import Prelude CLib Json Float UaTypes RefStack Output CJson PubSubJson.

(** * Trees *)

Inductive jtree :=
| TNull
| TBool (b : bool)
| TInt (z : Z)
| TText (s : bytes)
| TList (l : list jtree)
| TObject (l : list (bytes * jtree)).

Section Induction.
Variable P : jtree -> Prop.
Hypothesis HNull : P TNull.
Hypothesis HBool : forall b, P (TBool b).
Hypothesis HInt : forall z, P (TInt z).
Hypothesis HText : forall s, P (TText s).
Hypothesis HList : forall l, Forall P l -> P (TList l).
Hypothesis HObject : forall l, Forall (fun m => P (snd m)) l -> P (TObject l).
Fixpoint jtree_rect' (t : jtree) : P t :=
  match t with
  | TNull => HNull
  | TBool b => HBool b
  | TInt z => HInt z
  | TText s => HText s
  | TList l => HList l ((fix go l := match l return Forall P l with
                                     | [] => Forall_nil _
                                     | x :: r => Forall_cons _ (jtree_rect' x) (go r)
                                     end) l)
  | TObject l => HObject l ((fix go l := match l return Forall (fun m => P (snd m)) l with
                                         | [] => Forall_nil _
                                         | x :: r => Forall_cons _ (jtree_rect' (snd x)) (go r)
                                         end) l)
  end.
End Induction.

Definition key_text (k : bytes) : bytes := print_json_string (Some k) ++ [58].

Fixpoint jtext (t : jtree) : bytes :=
  match t with
  | TNull => B "null"
  | TBool b => bool_text b
  | TInt z => fmt_d z
  | TText s => print_json_string (Some s)
  | TList l => jarray (map jtext l)
  | TObject l => jobject (map (fun m => key_text (fst m) ++ jtext (snd m)) l)
  end.

(** [valuedouble] of an integer, and [valueint], which saturates. *)
Definition double_of_int (z : Z) : spec_float := double_of false z 0.
Definition clamp_int (z : Z) : Z := Z.max (- 2 ^ 31) (Z.min (2 ^ 31 - 1) z).
Definition number (z : Z) : cjson := CNumber (double_of_int z) (clamp_int z).

Fixpoint jmodel (t : jtree) : cjson :=
  match t with
  | TNull => CNull
  | TBool b => CBool b
  | TInt z => number z
  | TText s => CString s
  | TList l => CArray (map jmodel l)
  | TObject l => CObject (map (fun m => (fst m, jmodel (snd m))) l)
  end.

(** Strings are C strings, integers are exact as doubles. *)
Definition text_char (c : Z) : bool := (0 <? c) && (c <? 256).
Definition is_text (s : bytes) : bool := forallb text_char s.

Fixpoint tree_ok (t : jtree) : bool :=
  match t with
  | TInt z => (- 2 ^ 53 <? z) && (z <? 2 ^ 53)
  | TText s => is_text s
  | TList l => forallb tree_ok l
  | TObject l => forallb (fun m => is_text (fst m) && tree_ok (snd m)) l
  | _ => true
  end.

Fixpoint nesting (t : jtree) : nat :=
  match t with
  | TList l => S (fold_right (fun v d => Nat.max (nesting v) d) O l)
  | TObject l => S (fold_right (fun m d => Nat.max (nesting (snd m)) d) O l)
  | _ => O
  end.

(** cJSON's nesting limit is 1000; it prints integers of up to 15 digits in
    full, and arrays of strings as JSON. *)
Class CJsonReads (C : CJson) := {
  reads_tree : forall t, tree_ok t = true -> (nesting t < 1000)%nat -> cJSON_Parse (jtext t) = Some (jmodel t);
  prints_int : forall z, - 10 ^ 15 < z < 10 ^ 15 -> cJSON_PrintUnformatted (number z) = Some (fmt_d z);
  prints_strings : forall l, Forall (fun s => is_text s = true) l ->
    cJSON_PrintUnformatted (CArray (map CString l)) = Some (jtext (TList (map TText l)))
}.

(** * Integers as doubles *)

Lemma digits2_iter_xO p m : digits2_pos (Pos.iter xO m p) = (digits2_pos m + p)%positive.
Proof.
  revert m. induction p as [|p IH] using Pos.peano_ind; intros m; [cbn; lia|].
  rewrite Pos.iter_succ. cbn [digits2_pos]. rewrite IH. lia.
Qed.

Lemma digits2_log2 m : Zpos (digits2_pos m) = Z.log2 (Zpos m) + 1.
Proof.
  assert (forall m, digits2_pos m = Pos.size m) as E by (induction m0; cbn; congruence).
  rewrite E. destruct m; cbn [Pos.size Z.log2]; lia.
Qed.

Lemma iter_xO_value p m : Zpos (Pos.iter xO m p) = Zpos m * 2 ^ Zpos p.
Proof.
  revert m. induction p as [|p IH] using Pos.peano_ind; intros m; [cbn; lia|].
  rewrite Pos.iter_succ. rewrite Pos2Z.inj_succ, Z.pow_succ_r by lia. specialize (IH m). lia.
Qed.

Lemma fexp_small d : d <= 53 -> -1000 <= d -> fexp 53 1024 d = d - 53.
Proof. intros. unfold fexp, emin. lia. Qed.

(** A mantissa of exactly 53 bits is not rounded. *)
Lemma round_exact s mx ex : digits2_pos mx = 53%positive -> -900 <= ex <= 0 ->
  binary_round_aux 53 1024 s (Zpos mx) ex loc_Exact = S754_finite s mx ex.
Proof.
  intros Hd He. unfold binary_round_aux, shr_fexp. cbn [Zdigits2 shr_record_of_loc].
  rewrite Hd, fexp_small by lia. replace (53 + ex - 53 - ex) with 0 by lia. cbn [shr shr_m loc_of_shr_record].
  cbn [round_nearest_even Zdigits2]. rewrite Hd, fexp_small by lia. replace (53 + ex - 53 - ex) with 0 by lia.
  cbn [shr shr_m shr_record_of_loc]. destruct (Z.leb_spec ex (1024 - 53)); [reflexivity|lia].
Qed.

Lemma round_int s m : Zpos m < 2 ^ 53 -> exists mx ex, binary_round 53 1024 s m 0 = S754_finite s mx ex
  /\ -53 <= ex <= 0 /\ Zpos mx = Zpos m * 2 ^ (- ex).
Proof.
  intros Hm. unfold binary_round. pose proof (digits2_log2 m) as Hd.
  assert (Z.log2 (Zpos m) < 53) as Hl by (apply Z.log2_lt_pow2; lia). pose proof (Z.log2_nonneg (Zpos m)).
  rewrite Z.add_0_r, fexp_small by lia. unfold shl_align. rewrite Z.sub_0_r.
  destruct (Zpos (digits2_pos m) - 53) as [|p|p] eqn:E; [|lia|].
  - exists m, 0. rewrite round_exact by lia. split; [reflexivity|]. split; [lia|]. cbn. lia.
  - exists (Pos.iter xO m p), (Zneg p). rewrite round_exact; [|rewrite digits2_iter_xO; lia|lia].
    split; [reflexivity|]. split; [lia|]. apply iter_xO_value.
Qed.

Lemma trunc_int z : - 2 ^ 53 < z < 2 ^ 53 -> trunc (double_of_int z) = Some z.
Proof.
  intros Hz. unfold double_of_int, double_of. destruct z as [|m|m]; [reflexivity| |]; cbn [binary_normalize].
  all: match goal with |- trunc (binary_round _ _ ?s _ _) = _ =>
         destruct (round_int s m) as (mx & ex & -> & He & Hx); [lia|] end.
  all: cbn [trunc]; destruct (Z.leb_spec 0 ex) as [H0|H0]; rewrite Hx;
    [replace ex with 0 by lia; cbn; f_equal; lia|rewrite Z.div_mul by (apply Z.pow_nonzero; lia); reflexivity].
Qed.

Lemma cast_int_exact {cpu : Cpu} lo hi oob z : lo <= z <= hi -> - 2 ^ 53 < z < 2 ^ 53 ->
  cast_int lo hi oob (double_of_int z) = z.
Proof.
  intros Hz Hb. unfold cast_int. rewrite trunc_int by exact Hb.
  destruct (Z.leb_spec lo z), (Z.leb_spec z hi); try lia. reflexivity.
Qed.

(** * A reader *)

(** It reads what [jtext] writes: no white space, integers only. *)
Definition read_int (s : bytes) : option (Z * bytes) :=
  let '(neg, r) := match s with 45 :: r => (true, r) | _ => (false, s) end in
  if starts_digit 10 r then let '(v, r') := scan 10 0 r in Some (if neg then - v else v, r') else None.

Definition read_leaf (s : bytes) : option (cjson * bytes) :=
  match strip (B "null") s, strip (B "true") s, strip (B "false") s with
  | Some r, _, _ => Some (CNull, r)
  | _, Some r, _ => Some (CBool true, r)
  | _, _, Some r => Some (CBool false, r)
  | _, _, _ => option_map (fun p => (number (fst p), snd p)) (read_int s)
  end.

(** [read_items] and [read_members] start at an item and end at the bracket. *)
Fixpoint read_value (fuel : nat) (s : bytes) : option (cjson * bytes) :=
  match fuel with
  | O => None
  | S f =>
      match s with
      | 34 :: r => option_map (fun p => (CString (fst p), snd p)) (junescape r)
      | 91 :: 93 :: r => Some (CArray [], r)
      | 91 :: r => option_map (fun p => (CArray (fst p), snd p)) (read_items f r)
      | 123 :: 125 :: r => Some (CObject [], r)
      | 123 :: r => option_map (fun p => (CObject (fst p), snd p)) (read_members f r)
      | _ => read_leaf s
      end
  end
with read_items (fuel : nat) (s : bytes) : option (list cjson * bytes) :=
  match fuel with
  | O => None
  | S f =>
      do p <- read_value f s;
      match snd p with
      | 93 :: r => Some ([fst p], r)
      | 44 :: r => do q <- read_items f r; Some (fst p :: fst q, snd q)
      | _ => None
      end
  end
with read_members (fuel : nat) (s : bytes) : option (list (bytes * cjson) * bytes) :=
  match fuel with
  | O => None
  | S f =>
      match s with
      | 34 :: r =>
          do k <- junescape r;
          match snd k with
          | 58 :: r =>
              do p <- read_value f r;
              match snd p with
              | 125 :: r => Some ([(fst k, fst p)], r)
              | 44 :: r => do q <- read_members f r; Some ((fst k, fst p) :: fst q, snd q)
              | _ => None
              end
          | _ => None
          end
      | _ => None
      end
  end.

Definition read_document (s : bytes) : option cjson :=
  match read_value (S (length s)) s with Some (j, []) => Some j | _ => None end.

Definition as_strings (l : list cjson) : option (list bytes) :=
  mapM (fun j => match j with CString s => Some s | _ => None end) l.

Definition tree_cjson : CJson := {|
  cJSON_Parse := read_document;
  cJSON_ParseError p := Some p;
  cJSON_GetObjectItemCaseSensitive v k :=
    match v with CObject l => option_map snd (find (fun m => streq (fst m) k) l) | _ => None end;
  cJSON_PrintUnformatted v :=
    match v with
    | CNumber d _ => option_map fmt_d (trunc d)
    | CArray l => option_map (fun l => jtext (TList (map TText l))) (as_strings l)
    | _ => None
    end;
  cJSON_GetObjectItem v k :=
    match v with CObject l => option_map snd (find (fun m => strcaseeq (fst m) k) l) | _ => None end |}.

(** ** It reads every tree *)

Lemma is_text_Bytes s : is_text s = true -> Bytes s /\ NoNul s.
Proof.
  intros H. unfold is_text in H. rewrite forallb_forall in H.
  split; apply Forall_forall; intros c Hc; specialize (H c Hc); unfold text_char, is_byte in *; zbool; [|lia].
  apply andb_true_intro; split; [apply Z.leb_le|apply Z.ltb_lt]; lia.
Qed.

Lemma is_text_cstr s : is_text s = true -> cstr s = s.
Proof. intros H. apply cstr_id. now apply is_text_Bytes. Qed.

(** A string and what follows it. *)
Lemma print_string_read s r : is_text s = true ->
  exists b, print_json_string (Some s) ++ r = 34 :: b /\ junescape b = Some (s, r).
Proof.
  intros H. destruct (is_text_Bytes s H) as [Hb _]. cbn [print_json_string]. rewrite is_text_cstr by exact H.
  eexists. rewrite <- !app_assoc. split; [reflexivity|]. now apply junescape_escapes.
Qed.

Lemma read_int_fmt z r : match r with c :: _ => is_delim c = true | [] => True end ->
  read_int (fmt_d z ++ r) = Some (z, r).
Proof.
  intros Hr. assert (starts_digit 10 r = false) as Hs
    by (destruct r as [|c r]; [reflexivity|]; jdelim Hr; reflexivity).
  assert (forall n, 0 <= n -> starts_digit 10 (fmt_u n ++ r) = true /\ scan 10 0 (fmt_u n ++ r) = (n, r)) as Hn.
  { intros n Hn. pose proof (strto_scan_fmt n r Hn Hs) as E. pose proof (fmt_u_digits n Hn) as Hd.
    unfold strto_scan in E. destruct (fmt_u n) as [|c d] eqn:Eu; [now apply fmt_u_nonnil in Eu|].
    inversion Hd; subst. cbn [app] in *. rewrite skip_space_digit, scan_sign_digit, scan_base_10 in E by assumption.
    destruct (starts_digit 10 (c :: d ++ r)); [|discriminate].
    destruct (scan 10 0 (c :: d ++ r)). injection E as -> ->. now split. }
  unfold read_int, fmt_d. destruct (Z.ltb_spec z 0) as [Hz|Hz].
  - cbn [app]. destruct (Hn (- z)) as [-> ->]; [lia|]. now rewrite Z.opp_involutive.
  - destruct (Hn z Hz) as [H1 H2]. destruct (fmt_u z ++ r) as [|c s] eqn:E;
      [apply app_eq_nil in E as [E _]; now apply fmt_u_nonnil in E|].
    assert (c <> 45) as Hc.
    { pose proof (fmt_u_digits z Hz) as Hd. destruct (fmt_u z) as [|c' d] eqn:Eu; [now apply fmt_u_nonnil in Eu|].
      injection E as -> _. inversion Hd as [|x l Hx]; subst. unfold isdigit in Hx. zbool. lia. }
    replace (match c with 45 => _ | _ => _ end) with (false, c :: s).
    + now rewrite H1, H2.
    + destruct c as [|p|p]; try reflexivity. do 6 (destruct p; try reflexivity). congruence.
Qed.

Definition ends_item (r : bytes) : Prop := match r with c :: _ => is_delim c = true | [] => True end.

Definition reads_back (t : jtree) : Prop :=
  forall fuel r, tree_ok t = true -> (length (jtext t) <= fuel)%nat -> ends_item r ->
  read_value fuel (jtext t ++ r) = Some (jmodel t, r).

(** The first character decides; none of these texts starts with a closing bracket. *)
Definition opens (t : bytes) : Prop := match t with c :: _ => c <> 93 /\ c <> 125 | [] => False end.

Lemma int_head z : exists c s, fmt_d z = c :: s /\ In c [45; 48; 49; 50; 51; 52; 53; 54; 55; 56; 57].
Proof.
  unfold fmt_d. destruct (Z.ltb_spec z 0) as [H|H]; [eexists _, _; split; [reflexivity|now left]|].
  pose proof (fmt_u_digits z H) as Hd. destruct (fmt_u z) as [|c s] eqn:E; [now apply fmt_u_nonnil in E|].
  exists c, s. split; [reflexivity|]. inversion Hd as [|x l Hx]; subst. unfold isdigit in Hx. zbool.
  assert (c = 48 \/ c = 49 \/ c = 50 \/ c = 51 \/ c = 52 \/ c = 53 \/ c = 54 \/ c = 55 \/ c = 56 \/ c = 57) by lia.
  cbn [In]. intuition congruence.
Qed.

Lemma jtext_opens t : opens (jtext t).
Proof.
  destruct t; try (cbn; split; discriminate); [destruct b; cbn; split; discriminate|].
  cbn [jtext]. destruct (int_head z) as (c & s & -> & Hc). cbn in Hc |- *.
  repeat (destruct Hc as [<-|Hc]; [split; discriminate|]). destruct Hc.
Qed.

Lemma reads_int z : reads_back (TInt z).
Proof.
  intros fuel r Hz Hf Hr. pose proof (read_int_fmt z r Hr) as E. cbn [jtext jmodel] in *.
  destruct (int_head z) as (c & s & Hs & Hc). rewrite Hs in *.
  destruct fuel as [|f]; [cbn in Hf; lia|]. cbn [app] in *. cbn in Hc.
  transitivity (option_map (fun p => (number (fst p), snd p)) (read_int (c :: s ++ r))); [|now rewrite E].
  repeat (destruct Hc as [<-|Hc]; [reflexivity|]). destruct Hc.
Qed.

Lemma reads_text s : reads_back (TText s).
Proof.
  intros fuel r Hs Hf Hr. cbn [jtext jmodel] in *. destruct (print_string_read s r Hs) as (b & -> & Hb).
  destruct fuel as [|f]; [cbn in Hf; lia|]. cbn [read_value]. now rewrite Hb.
Qed.

Lemma reads_items l : Forall reads_back l -> forall fuel r, l <> [] -> forallb tree_ok l = true ->
  (length (commas_from true (map jtext l)) < fuel)%nat ->
  read_items fuel (commas_from true (map jtext l) ++ 93 :: r) = Some (map jmodel l, r).
Proof.
  intros Hl. induction Hl as [|t l Ht Hl IH]; intros fuel r Hn Hok Hf; [congruence|].
  cbn [forallb] in Hok. apply andb_prop in Hok as [Hok Hoks]. cbn [map commas_from app] in *.
  rewrite length_app in Hf. destruct fuel as [|f]; [lia|]. cbn [read_items]. rewrite <- app_assoc.
  destruct l as [|t' l].
  - cbn [map commas_from app] in *. rewrite Ht by (reflexivity || assumption || lia). reflexivity.
  - cbn [map commas_from app length] in *. rewrite Ht by (reflexivity || assumption || lia). cbn [obind snd fst].
    specialize (IH f r). cbn [map commas_from app length] in IH. rewrite IH by (discriminate || assumption || lia).
    reflexivity.
Qed.

Lemma reads_list l : Forall reads_back l -> reads_back (TList l).
Proof.
  intros Hl fuel r Hok Hf _. cbn [jtext jmodel tree_ok] in *. unfold jarray, commas in *.
  destruct l as [|t l]; [destruct fuel; [cbn in Hf; lia|reflexivity]|].
  rewrite !length_app in Hf. cbn [length] in Hf. destruct fuel as [|f]; [lia|].
  pose proof (reads_items (t :: l) Hl f r) as E. rewrite <- !app_assoc. cbn [app].
  destruct (commas_from true (map jtext (t :: l))) as [|c s] eqn:Ec.
  { cbn in Ec. pose proof (jtext_opens t) as Ho. destruct (jtext t); [destruct Ho|discriminate]. }
  assert (c <> 93) as Hc.
  { cbn in Ec. pose proof (jtext_opens t) as Ho. destruct (jtext t) as [|x xs]; [destruct Ho|].
    injection Ec as -> _. apply Ho. }
  cbn [app read_value] in *.
  replace (match c with 93 => _ | _ => _ end)
    with (option_map (fun p : list cjson * bytes => (CArray (fst p), snd p)) (read_items f (c :: s ++ 93 :: r))).
  - rewrite E by (discriminate || assumption || lia). reflexivity.
  - destruct c as [|p|p]; try reflexivity. do 7 (destruct p; try reflexivity). congruence.
Qed.

Lemma reads_members l : Forall (fun m => reads_back (snd m)) l -> forall fuel r, l <> [] ->
  forallb (fun m => is_text (fst m) && tree_ok (snd m)) l = true ->
  let text := commas_from true (map (fun m => key_text (fst m) ++ jtext (snd m)) l) in
  (length text < fuel)%nat ->
  read_members fuel (text ++ 125 :: r) = Some (map (fun m => (fst m, jmodel (snd m))) l, r).
Proof.
  intros Hl. induction Hl as [|[k t] l Ht Hl IH]; intros fuel r Hn Hok text Hf; [congruence|]. subst text.
  cbn [forallb fst snd] in Hok, Ht. apply andb_prop in Hok as [Hok Hoks]. apply andb_prop in Hok as [Hk Hok].
  cbn [map commas_from app fst snd] in *. unfold key_text at 1 in Hf. rewrite !length_app in Hf. cbn [length] in Hf.
  destruct fuel as [|f]; [lia|]. unfold key_text at 1. rewrite <- !app_assoc. cbn [app].
  destruct (print_string_read k (58 :: jtext t ++ commas_from false (map (fun m => key_text (fst m) ++ jtext (snd m)) l) ++ 125 :: r) Hk)
    as (b & -> & Hb). cbn [read_members]. rewrite Hb. cbn [obind snd fst].
  destruct l as [|m' l].
  - cbn [map commas_from app] in *. rewrite Ht by (reflexivity || assumption || lia). reflexivity.
  - cbn [map commas_from app length] in *. rewrite Ht by (reflexivity || assumption || lia). cbn [obind snd fst].
    specialize (IH f r). cbn [map commas_from app length] in IH. rewrite IH by (discriminate || assumption || lia).
    reflexivity.
Qed.

Lemma reads_object l : Forall (fun m => reads_back (snd m)) l -> reads_back (TObject l).
Proof.
  intros Hl fuel r Hok Hf _. cbn [jtext jmodel tree_ok] in *. unfold jobject, commas in *.
  destruct l as [|m l]; [destruct fuel; [cbn in Hf; lia|reflexivity]|].
  rewrite !length_app in Hf. cbn [length] in Hf. destruct fuel as [|f]; [lia|].
  pose proof (reads_members (m :: l) Hl f r) as E. cbv zeta in E. rewrite <- !app_assoc. cbn [app].
  remember (commas_from true (map (fun m => key_text (fst m) ++ jtext (snd m)) (m :: l))) as text eqn:Et.
  assert (exists s, text = 34 :: s) as [s ->] by (subst text; eexists; reflexivity). clear Et.
  cbn [app read_value] in *. rewrite E by (discriminate || assumption || lia). reflexivity.
Qed.

Lemma reads_every t : reads_back t.
Proof.
  induction t using jtree_rect'; auto using reads_int, reads_text, reads_list, reads_object.
  - intros [|f] r _ Hf _; [cbn in Hf; lia|reflexivity].
  - intros [|f] r _ Hf _; destruct b; (cbn in Hf; lia) || reflexivity.
Qed.

#[export] Instance tree_cjson_reads : CJsonReads tree_cjson.
Proof.
  split.
  - intros t Ht _. cbn. unfold read_document. pose proof (reads_every t (S (length (jtext t))) [] Ht) as E.
    rewrite app_nil_r in E. rewrite E by (lia || exact I). reflexivity.
  - intros z Hz. cbn. rewrite trunc_int by lia. reflexivity.
  - intros l _. cbn. assert (as_strings (map CString l) = Some l) as ->; [|reflexivity].
    induction l as [|s l IH]; [reflexivity|]. cbn. unfold as_strings in IH. now rewrite IH.
Qed.

#[export] Instance tree_cjson_lookup : CJsonLookup tree_cjson.
Proof. split. reflexivity. Qed.

(** ** The text of a tree is a C string *)

Lemma is_text_cat a b : is_text a = true -> is_text b = true -> is_text (a ++ b) = true.
Proof. unfold is_text. rewrite forallb_app. now intros -> ->. Qed.

Lemma escape_text c : text_char c = true -> is_text (json_escape c) = true.
Proof.
  unfold text_char. intros H. zbool. unfold json_escape. destruct (c =? 34), (c =? 92); try reflexivity.
  destruct (c =? 10), (c =? 13), (c =? 9); try reflexivity. destruct (Z.ltb_spec c 32) as [Hc|Hc].
  - apply is_text_cat; [reflexivity|]. apply forallb_forall. intros x Hx.
    assert (Forall (fun y => ishex y = true) (fmt_x0 4 c)) as Hh by (apply pad0_Forall; [reflexivity|apply fmt_x_hex; lia]).
    rewrite Forall_forall in Hh. specialize (Hh x Hx). unfold ishex, isdigit, text_char in *.
    destruct (Z.leb_spec 48 x), (Z.leb_spec x 57), (Z.leb_spec 97 x), (Z.leb_spec x 102); cbn in Hh; try discriminate;
      apply andb_true_intro; split; apply Z.ltb_lt; lia.
  - unfold is_text, text_char. cbn. rewrite andb_true_r. apply andb_true_intro; split; apply Z.ltb_lt; lia.
Qed.

Lemma string_text s : is_text s = true -> is_text (print_json_string (Some s)) = true.
Proof.
  intros H. cbn [print_json_string]. rewrite is_text_cstr by exact H. apply is_text_cat; [reflexivity|].
  apply is_text_cat; [|reflexivity]. unfold is_text in H. rewrite forallb_forall in H.
  apply forallb_forall. intros c Hc. apply in_flat_map in Hc as (x & Hx & Hc).
  pose proof (escape_text x (H x Hx)) as E. unfold is_text in E. rewrite forallb_forall in E. now apply E.
Qed.

Lemma commas_text l : Forall (fun s => is_text s = true) l -> forall first, is_text (commas_from first l) = true.
Proof.
  induction 1 as [|s l Hs _ IH]; intros first; [reflexivity|]. cbn [commas_from]. apply is_text_cat; [now destruct first|].
  now apply is_text_cat.
Qed.

Lemma jtext_text t : tree_ok t = true -> is_text (jtext t) = true.
Proof.
  induction t as [|b|z|s|l IH|l IH] using jtree_rect'; intros H; cbn [jtext tree_ok] in *.
  - reflexivity.
  - now destruct b.
  - apply forallb_forall. intros c Hc. assert (c = 45 \/ isdigit c = true) as Hd.
    { unfold fmt_d in Hc. destruct (Z.ltb_spec z 0); [destruct Hc as [<-|Hc]; [now left|]|]; right;
        pose proof (fmt_u_digits (Z.abs z) (Z.abs_nonneg z)) as Hd; rewrite Forall_forall in Hd; apply Hd;
        [rewrite Z.abs_neq by lia|rewrite Z.abs_eq by lia]; exact Hc. }
    unfold text_char, isdigit in *. destruct Hd as [->|Hd]; [reflexivity|]. zbool. apply andb_true_intro; split; apply Z.ltb_lt; lia.
  - now apply string_text.
  - unfold jarray. apply is_text_cat; [reflexivity|]. apply is_text_cat; [|reflexivity]. apply commas_text.
    apply Forall_map. rewrite Forall_forall in *. intros t Ht. apply IH; [exact Ht|]. rewrite forallb_forall in H. now apply H.
  - unfold jobject. apply is_text_cat; [reflexivity|]. apply is_text_cat; [|reflexivity]. apply commas_text.
    apply Forall_map. rewrite Forall_forall in *. intros m Hm. rewrite forallb_forall in H. specialize (H m Hm). zbool.
    unfold key_text. apply is_text_cat; [apply is_text_cat; [now apply string_text|reflexivity]|auto].
Qed.

(** ** Nesting *)

Definition shallow (n : nat) (l : list (bytes * jtree)) : Prop := Forall (fun m => (nesting (snd m) <= n)%nat) l.

Lemma nesting_object n l : shallow n l -> (nesting (TObject l) <= S n)%nat.
Proof. intros H. cbn [nesting]. apply le_n_S. induction H as [|m l Hm _ IH]; cbn [fold_right]; lia. Qed.

Lemma nesting_list n l : Forall (fun t => (nesting t <= n)%nat) l -> (nesting (TList l) <= S n)%nat.
Proof. intros H. cbn [nesting]. apply le_n_S. induction H as [|m l Hm _ IH]; cbn [fold_right]; lia. Qed.

Lemma shallow_app n a b : shallow n a -> shallow n b -> shallow n (a ++ b).
Proof. intros. now apply Forall_app. Qed.
