(* ===== verification/PubSubCodec.v ===== *)
(** pubsub_codec.c: the [codec pubsub-*] subcommands.  A JSON description of a
    NetworkMessage is built into the stack's message and encoded (UADP or JSON),
    or an encoded message is decoded and described.  The encoders are the stack's;
    the description, in both directions, is the adapter's. *)

From Stdlib Require Import String Ascii ZArith Bool List Lia SpecFloat.
Import ListNotations.
From S2P Require Import Prelude CLib Json Float UaTypes RefStack Base64 Output CJson Values Args Connect Session.
From S2P Require Import HistoryEvents Codec PubSubJson.

(** * The data *)

Inductive Mapping := MAP_UADP | MAP_JSON.

Inductive publisher_id_value :=
| PidByte (n : Z) | PidUInt16 (n : Z) | PidUInt32 (n : Z) | PidUInt64 (n : Z) | PidString (s : ua_string) | PidOther.

Inductive message_type := KeyFrame | DeltaFrame | EventMessage | KeepAlive | MessageOther.
Inductive field_encoding := FieldVariant | FieldRawData | FieldDataValue | FieldOther.

(** A member with an [...Enabled] flag is an option. *)
Record group_header := { gh_writerGroupId : option Z; gh_groupVersion : option Z; gh_networkMessageNumber : option Z;
  gh_sequenceNumber : option Z }.

Record security_header := { sh_signed : bool; sh_encrypted : bool; sh_forceKeyReset : bool; sh_securityTokenId : Z;
  sh_nonce : bytes; sh_footerSize : option Z }.

Record dsm_header := { dh_type : message_type; dh_encoding : field_encoding; dh_valid : bool; dh_sequenceNr : option Z;
  dh_timestamp : option Z; dh_picoSeconds : option Z; dh_status : option Z; dh_major : option Z; dh_minor : option Z }.

(** [fieldCount] and the two arrays of the union, of which the message type selects one. *)
Record dataset_message := { dm_header : dsm_header; dm_fieldCount : Z; dm_keyFrame : list ua_datavalue;
  dm_deltaFrame : list (Z * ua_datavalue) }.

(** [nm_writerIds] holds the first [messageCount] of [dataSetWriterIds]; the array
    of DataSetMessages is [None] when its pointer is NULL. *)
Record network_message := { nm_version : Z; nm_messageId : option ua_string; nm_publisherId : option publisher_id_value;
  nm_dataSetClassId : option ua_guid; nm_groupHeader : option group_header; nm_payloadHeader : bool;
  nm_timestamp : option Z; nm_picoseconds : option Z; nm_promoted : option (Z * list ua_variant);
  nm_security : option security_header; nm_securityFooter : ua_string; nm_chunk : bool;
  nm_writerIds : list Z; nm_messages : option (list dataset_message) }.

(** A FieldMetaData; what the code only copies is [fmd_rest]. *)
Record field_meta := { fmd_name : ua_string; fmd_builtInType : Z; fmd_dataType : ua_nodeid; fmd_valueRank : Z;
  fmd_rest : bytes }.
Definition zero_field : field_meta :=
  {| fmd_name := None; fmd_builtInType := 0; fmd_dataType := UA_NODEID_NULL; fmd_valueRank := 0; fmd_rest := [] |}.

(** UA_DataSetMessage_EncodingMetaData *)
Record encoding_meta := { em_writerId : Z; em_fields : list field_meta }.

(** The fields of a DataSetMetaDataType, and the writer id when one is given. *)
Record MetaEntry := { me_writerId : option Z; me_fields : list field_meta }.

(** * The stack *)

(** A status and, when it is Good, the result; [None] is a NULL options pointer. *)
Class NetworkMessages := {
  UA_NETWORKMESSAGE_MAXMESSAGECOUNT : nat;
  UA_NETWORKMESSAGE_MAX_NONCE_LENGTH : nat;
  encodeBinary : network_message -> option (list encoding_meta) -> Z * ua_string;
  encodeJson : network_message -> option (list encoding_meta) -> Z * ua_string;
  decodeBinaryHeaders : bytes -> Z * network_message;
  decodeBinary : bytes -> option (list encoding_meta) -> Z * network_message;
  decodeJson : bytes -> option (list encoding_meta) -> Z * network_message;
  (** [UA_decodeJson] of a DataSetMetaDataType *)
  decode_metadata : bytes -> Z * list field_meta;
  (** [type->typeId] *)
  type_typeId : ua_type -> ua_nodeid
}.

(** * Fallible code *)

(** [PUndefined]: undefined behaviour of the C code; [PFuel]: out of fuel. *)
Inductive parsed (A : Type) := PFine (a : A) | PErr (msg : bytes) | PUndefined | PFuel.
Arguments PFine {A} a.
Arguments PErr {A} msg.
Arguments PUndefined {A}.
Arguments PFuel {A}.

Definition pbind {A C} (p : parsed A) (k : A -> parsed C) : parsed C :=
  match p with PFine a => k a | PErr m => PErr m | PUndefined => PUndefined | PFuel => PFuel end.
Notation "'get' x <- c ; k" := (pbind c (fun x => k))
  (at level 10, x name, c at level 100, k at level 200) : interop_scope.

Definition of_fuel {A} (o : option (result A)) : parsed A :=
  match o with Some (Ok a) => PFine a | Some (Err m) => PErr m | None => PFuel end.

(** A loop over an array that gives each item its index. *)
Fixpoint mapP {A C} (f : nat -> A -> parsed C) (i : nat) (l : list A) : parsed (list C) :=
  match l with
  | [] => PFine []
  | x :: r => get y <- f i x; get ys <- mapP f (S i) r; PFine (y :: ys)
  end.

(** ** cJSON items, NULL as [None] *)

Section Items.
Context {cj : CJson}.
Definition member (obj : cjson) (key : string) : option cjson := cJSON_GetObjectItemCaseSensitive obj (B key).
Definition text_of (v : option cjson) : option bytes := match v with Some (CString s) => Some (cstr s) | _ => None end.
Definition is_true (v : option cjson) : bool := match v with Some j => cJSON_IsTrue j | None => false end.
Definition items_of (v : option cjson) : option (list cjson) := match v with Some (CArray l) => Some l | _ => None end.
End Items.

(** The casts of a double to the narrow types. *)
Definition to_uint16 {cpu : Cpu} := cast_int 0 (2 ^ 16 - 1) (cast_oob 0 (2 ^ 16 - 1)).
Definition to_uint8 {cpu : Cpu} := cast_int 0 (2 ^ 8 - 1) (cast_oob 0 (2 ^ 8 - 1)).

(** * Input *)

Definition read_stream : bytes -> option bytes := read_all.

Section Input.
Context {W : Type} {files : InputFiles W}.

(** The text, NULL as [None]; the outer [option] is fuel. *)
Definition read_input (w : W) (argv : list bytes) : W * option (option bytes) :=
  match find_arg argv (B "--document") with
  | Some doc => (w, Some (Some doc))
  | None =>
      match input_bytes w (find_arg argv (B "--input")) with
      | (w, None) => (w, Some None)
      | (w, Some content) => (w, option_map Some (read_stream content))
      end
  end.
End Input.

(** * Metadata *)

Section Metadata.
Context {stack : UaStack} {cj : CJson} {nid : NodeIdOps} {tt_ : TypeTable} {len : CJsonLength} {cpu : Cpu}
  {net : NetworkMessages}.

(** [pubsub_decode_json] of a DataSetMetaDataType; [None]: out of fuel. *)
Definition decode_meta (json : bytes) : option (Z * list field_meta) :=
  do norm <- pubsub_normalize_json json;
  Some match norm with
       | None => (UA_STATUSCODE_BADDECODINGERROR, [])
       | Some text => decode_metadata (cstr text)
       end.

Definition not_metadata (sc : Z) : bytes :=
  snprintf 512 (B "--metadata: not a DataSetMetaDataType (" ++ default [] (StatusCode_name sc) ++ B ")").

Definition metadata_of (writerId : option Z) (json : bytes) : parsed MetaEntry :=
  match decode_meta json with
  | None => PFuel
  | Some (sc, fields) =>
      if sc =? UA_STATUSCODE_GOOD then PFine {| me_writerId := writerId; me_fields := fields |} else PErr (not_metadata sc)
  end.

Definition metadata_entry (_ : nat) (e : cjson) : parsed MetaEntry :=
  match member e "dataSetWriterId", member e "metaData" with
  | Some (CNumber d _), Some (CObject _ as md) =>
      match cJSON_PrintUnformatted md with
      | None => PUndefined
      | Some mt => metadata_of (Some (to_uint16 d)) mt
      end
  | _, _ => PErr (snprintf 512 (B "--metadata array entries are " ++ J "{'dataSetWriterId':n,'metaData':{...}}"))
  end.

(** From the text of the metadata, NULL as [None]. *)
Definition parse_metadata (txt : option bytes) : parsed (list MetaEntry) :=
  match txt with
  | None => PFine []
  | Some txt =>
      match cJSON_Parse txt with
      | None => PErr (snprintf 512 (B "--metadata is not JSON"))
      | Some (CArray l) => mapP metadata_entry 0 l
      | Some _ => get e <- metadata_of None txt; PFine [e]
      end
  end.

Context {W : Type} {files : InputFiles W}.

Definition meta_parse (w : W) (argv : list bytes) : W * parsed (list MetaEntry) :=
  match find_arg argv (B "--metadata"), find_arg argv (B "--metadata-file") with
  | None, Some path =>
      match input_bytes w (Some path) with
      | (w, None) => (w, PErr (snprintf 512 (B "cannot open --metadata-file")))
      | (w, Some content) =>
          (w, match read_stream content with None => PFuel | Some t => parse_metadata (Some (cstr t)) end)
      end
  | txt, _ => (w, parse_metadata txt)
  end.
End Metadata.

Definition meta_for (m : list MetaEntry) (writerId : Z) : option (list field_meta) :=
  match find (fun e => match me_writerId e with Some id => id =? writerId | None => false end) m with
  | Some e => Some (me_fields e)
  | None => option_map me_fields (find (fun e => negb (is_some (me_writerId e))) m)
  end.

(** * Printing a description *)

Section Printing.
Context {stack : UaStack}.

Definition print_datetime_full (dt : Z) : bytes :=
  let t := DateTime_toStruct dt in
  let frac := Z.rem (Z.rem dt UA_DATETIME_SEC + UA_DATETIME_SEC) UA_DATETIME_SEC in
  J "'" ++ fmt_u0 4 (u32 (dts_year t)) ++ [45] ++ fmt_u0 2 (u32 (dts_month t)) ++ [45]
  ++ fmt_u0 2 (u32 (dts_day t)) ++ [84] ++ fmt_u0 2 (u32 (dts_hour t)) ++ [58]
  ++ fmt_u0 2 (u32 (dts_min t)) ++ [58] ++ fmt_u0 2 (u32 (dts_sec t)) ++ [46]
  ++ fmt_u0 7 frac ++ [90] ++ J "'".

Definition publisher_id_type (p : publisher_id_value) : bytes :=
  match p with
  | PidByte _ => B "Byte" | PidUInt16 _ => B "UInt16" | PidUInt32 _ => B "UInt32" | PidUInt64 _ => B "UInt64"
  | PidString _ => B "String" | PidOther => B "Unknown"
  end.

Definition publisher_id_text (p : publisher_id_value) : bytes :=
  match p with
  | PidByte n | PidUInt16 n | PidUInt32 n => fmt_u n
  | PidUInt64 n => J "'" ++ fmt_u n ++ J "'"
  | PidString s => output_json_string_len s
  | PidOther => B "null"
  end.

Definition print_publisher_id (p : publisher_id_value) : bytes :=
  jobject [J "'type':'" ++ publisher_id_type p ++ J "'"; J "'value':" ++ publisher_id_text p].

Definition print_b64 (data : bytes) : bytes := J "'" ++ value_b64_encode data ++ J "'".

(** The members of [print_variant_members], each without its comma. *)
Definition variant_members (v : ua_variant) : list bytes :=
  match v with
  | VtEmpty => [J "'dataType':'Null'"; J "'builtInType':0"; J "'value':null"]
  | _ =>
      [J "'dataType':" ++ output_json_string (Some (value_type_name (variant_type v)));
       J "'builtInType':" ++ fmt_d (ua_type_to_builtin_id (variant_type v))]
      ++ (if Nat.ltb 1 (length (variant_dims v))
          then [J "'arrayDimensions':" ++ jarray (map fmt_u (variant_dims v))] else [])
      ++ [J "'value':" ++ output_ua_variant_value v]
  end.
Definition print_variant_members (v : ua_variant) : bytes := commas (variant_members v).

(** A member that is printed only when it is enabled. *)
Definition opt_member {A} (key : string) (f : A -> bytes) (o : option A) : list bytes :=
  match o with Some a => [J "'" ++ B key ++ J "':" ++ f a] | None => [] end.

Definition datavalue_members (dv : ua_datavalue) : list bytes :=
  let '(DataValue _ status sts sps rts rps) := dv in
  opt_member "statusCode" print_status_obj status ++ opt_member "sourceTimestamp" print_datetime_full sts
  ++ opt_member "sourcePicoseconds" fmt_u sps ++ opt_member "serverTimestamp" print_datetime_full rts
  ++ opt_member "serverPicoseconds" fmt_u rps.

(** [name]: [None] for NULL; [index]: [None] for -1. *)
Definition print_field (dv : ua_datavalue) (enc : field_encoding) (name : ua_string) (index : option Z) : bytes :=
  jobject (match name with Some ((_ :: _) as n) => [J "'name':" ++ output_json_string_len (Some n)] | _ => [] end
    ++ opt_member "index" fmt_d index ++ variant_members (dv_value dv)
    ++ match enc with FieldDataValue => datavalue_members dv | _ => [] end).

Definition message_type_name (t : message_type) : bytes :=
  match t with
  | KeyFrame => B "KeyFrame" | DeltaFrame => B "DeltaFrame" | EventMessage => B "Event" | KeepAlive => B "KeepAlive"
  | MessageOther => B "Unknown"
  end.

Definition field_encoding_name (e : field_encoding) : bytes :=
  match e with
  | FieldVariant => B "Variant" | FieldRawData => B "RawData" | FieldDataValue => B "DataValue" | FieldOther => B "Unknown"
  end.

(** The name of field [i]: from the metadata, else from the keys. *)
Definition field_name (md : option (list field_meta)) (names : option (list bytes)) (i : nat) : ua_string :=
  match match md with Some fields => nth_error fields i | None => None end with
  | Some f => fmd_name f
  | None => match names with Some l => nth_error l i | None => None end
  end.

Definition meta_name (md : option (list field_meta)) (i : Z) : ua_string :=
  match md with
  | Some fields => match nth_error fields (Z.to_nat i) with Some f => fmd_name f | None => None end
  | None => None
  end.

Definition fields_member (l : list bytes) : list bytes := [J "'fields':" ++ jarray l].

Definition print_fields (dsm : dataset_message) (md : option (list field_meta)) (names : option (list bytes)) : list bytes :=
  let h := dm_header dsm in
  let n := Z.to_nat (dm_fieldCount dsm) in
  match dh_type h with
  | KeyFrame => fields_member (map (fun p => print_field (snd p) (dh_encoding h) (field_name md names (fst p)) None)
                   (combine (seq 0 n) (firstn n (dm_keyFrame dsm))))
  | DeltaFrame => fields_member (map (fun f => print_field (snd f) (dh_encoding h) (meta_name md (fst f)) (Some (fst f)))
                   (firstn n (dm_deltaFrame dsm)))
  | _ => []
  end.

Definition config_version (major minor : option Z) : list bytes :=
  match major, minor with
  | None, None => []
  | _, _ => [J "'configVersion':" ++ jobject (opt_member "majorVersion" fmt_u major ++ opt_member "minorVersion" fmt_u minor)]
  end.

Definition print_dsm (dsm : dataset_message) (writerId : option Z) (md : option (list field_meta))
    (names : option (list bytes)) : bytes :=
  let h := dm_header dsm in
  jobject (opt_member "dataSetWriterId" fmt_u writerId
    ++ [J "'messageType':'" ++ message_type_name (dh_type h) ++ J "'";
        J "'fieldEncoding':'" ++ field_encoding_name (dh_encoding h) ++ J "'";
        J "'valid':" ++ bool_text (dh_valid h)]
    ++ opt_member "sequenceNumber" fmt_u (dh_sequenceNr h) ++ opt_member "timestamp" print_datetime_full (dh_timestamp h)
    ++ opt_member "picoseconds" fmt_u (dh_picoSeconds h) ++ opt_member "status" fmt_u (dh_status h)
    ++ config_version (dh_major h) (dh_minor h) ++ print_fields dsm md names).

Definition print_group_header (g : group_header) : bytes :=
  jobject (opt_member "writerGroupId" fmt_u (gh_writerGroupId g) ++ opt_member "groupVersion" fmt_u (gh_groupVersion g)
    ++ opt_member "networkMessageNumber" fmt_u (gh_networkMessageNumber g)
    ++ opt_member "sequenceNumber" fmt_u (gh_sequenceNumber g)).

Definition print_security (s : security_header) : bytes :=
  jobject ([J "'signed':" ++ bool_text (sh_signed s); J "'encrypted':" ++ bool_text (sh_encrypted s);
            J "'forceKeyReset':" ++ bool_text (sh_forceKeyReset s); J "'securityTokenId':" ++ fmt_u (sh_securityTokenId s);
            J "'nonce':" ++ print_b64 (sh_nonce s)]
    ++ opt_member "securityFooterSize" fmt_u (sh_footerSize s)).

Definition security_members (nm : network_message) : list bytes :=
  match nm_security nm with
  | None => []
  | Some s =>
      [J "'security':" ++ print_security s]
      ++ match sh_footerSize s, nm_securityFooter nm with
         | Some _, Some ((_ :: _) as f) => [J "'securityFooter':" ++ print_b64 f]
         | _, _ => []
         end
  end.

Definition promoted_member (p : option (Z * list ua_variant)) : list bytes :=
  opt_member "promotedFields" (fun p : Z * list ua_variant =>
    jarray (map (fun v => jobject (variant_members v)) (firstn (Z.to_nat (fst p)) (snd p)))) p.

Definition uadp (map : Mapping) (l : list bytes) : list bytes := match map with MAP_UADP => l | MAP_JSON => [] end.
Definition mapping_name (map : Mapping) : bytes := match map with MAP_UADP => B "uadp" | MAP_JSON => B "json" end.

Definition writer_ids_known (map : Mapping) (nm : network_message) : bool :=
  match map with MAP_JSON => true | MAP_UADP => nm_payloadHeader nm end.

(** The messages with their index; [jsonNames i] is [None] for a NULL array. *)
Definition print_messages (nm : network_message) (map_ : Mapping) (meta : list MetaEntry)
    (jsonNames : nat -> option (list bytes)) : list bytes :=
  map (fun p : nat * (Z * dataset_message) =>
         let '(i, (wid, dsm)) := p in
         print_dsm dsm (if writer_ids_known map_ nm then Some wid else None) (meta_for meta wid) (jsonNames i))
    (combine (seq 0 (length (nm_writerIds nm))) (combine (nm_writerIds nm) (default [] (nm_messages nm)))).

Definition print_description (nm : network_message) (map : Mapping) (meta : list MetaEntry)
    (jsonNames : nat -> option (list bytes)) : bytes :=
  jobject ([J "'mapping':'" ++ mapping_name map ++ J "'"]
    ++ uadp map [J "'version':" ++ fmt_u (nm_version nm)]
    ++ opt_member "messageId" output_json_string_len (nm_messageId nm)
    ++ opt_member "publisherId" print_publisher_id (nm_publisherId nm)
    ++ opt_member "dataSetClassId" (fun g => output_ua_scalar (VGuid g)) (nm_dataSetClassId nm)
    ++ opt_member "groupHeader" print_group_header (nm_groupHeader nm)
    ++ uadp map [J "'payloadHeader':" ++ bool_text (nm_payloadHeader nm)]
    ++ opt_member "timestamp" print_datetime_full (nm_timestamp nm)
    ++ opt_member "picoseconds" fmt_u (nm_picoseconds nm)
    ++ promoted_member (nm_promoted nm) ++ security_members nm
    ++ uadp map [J "'chunk':" ++ bool_text (nm_chunk nm)]
    ++ [J "'messages':" ++ jarray (print_messages nm map meta jsonNames)]).
End Printing.

(** * Parsing a description *)

Section Parsing.
Context {stack : UaStack} {cj : CJson} {cpu : Cpu}.

(** A canonical value as a value literal; [Some None] is NULL, [None] is out of fuel. *)
Fixpoint canon_to_literal (fuel : nat) (v : option cjson) (typeName : bytes) : option (option bytes) :=
  match v with
  | Some (CString s) => Some (Some (cstr s))
  | Some (CBool b) => Some (Some (bool_text b))
  | Some CNull =>
      Some (Some (if streq typeName (B "Float") || streq typeName (B "Double") then B "NaN" else []))
  | Some (CNumber _ _ as n) => Some (cJSON_PrintUnformatted n)
  | Some (CObject _ as o) =>
      let text k := default [] (text_of (member o k)) in
      if streq typeName (B "QualifiedName") then
        Some (Some (snprintf 1024 (fmt_d match member o "ns" with Some (CNumber _ i) => i | _ => 0 end ++ [58] ++ text "name"%string)))
      else if streq typeName (B "LocalizedText") then
        Some (Some (snprintf 1024 (text "locale"%string ++ [58] ++ text "text"%string)))
      else if streq typeName (B "StatusCode") then
        Some (Some (snprintf 1024 (fmt_f0 match member o "code" with Some (CNumber d _) => d | _ => S754_zero false end)))
      else if streq typeName (B "ExtensionObject") then
        Some (Some (snprintf 1024 (text "typeId"%string ++ [124] ++ text "body"%string)))
      else if streq typeName (B "Variant") then
        match text_of (member o "dataType") with
        | None => Some None
        | Some a =>
            match fuel with
            | O => None
            | S f =>
                match canon_to_literal f (member o "value") a with
                | None => None
                | Some None => Some None
                | Some (Some inner) => Some (Some (snprintf 1024 (a ++ [58] ++ inner)))
                end
            end
        end
      else Some None
  | Some (CArray _) | None => Some None
  end.

(** [dims] after the loop over [arrayDimensions]; [acc] is what the calls of
    snprintf have produced so far, of which the buffer holds 255 bytes.  A call at
    an offset past the buffer is given a size that wrapped around. *)
Fixpoint dims_text (acc : bytes) (l : list cjson) : option bytes :=
  match l with
  | [] => Some (snprintf 256 acc)
  | e :: r =>
      if Nat.ltb 256 (length acc) then None
      else dims_text (acc ++ (match acc with [] => [] | _ => [44] end) ++ fmt_d (valueint_of e)) r
  end.

Definition canon (v : option cjson) (typeName : bytes) : option (option bytes) :=
  canon_to_literal (match v with Some j => depth j | None => O end) v typeName.

Definition array_literal (errLen : nat) (dt : bytes) (_ : nat) (e : cjson) : parsed bytes :=
  match canon (Some e) dt with
  | None => PFuel
  | Some None => PErr (snprintf errLen (B "cannot convert a " ++ dt ++ B " array element"))
  | Some (Some l) => PFine l
  end.

Definition parse_literal (errLen : nat) (typeStr : bytes) (literal dims : option bytes) : parsed ua_variant :=
  of_fuel (value_parse (S (length (default [] literal))) errLen (Some typeStr) literal dims).

Definition parse_typed_value (errLen : nat) (obj : cjson) : parsed ua_variant :=
  match text_of (member obj "dataType") with
  | None => PErr (snprintf errLen (B "field without " ++ J "'dataType'"))
  | Some dt =>
      if streq dt (B "Null") then PFine VtEmpty
      else
        match member obj "value" with
        | Some (CArray l) =>
            get lits <- mapP (array_literal errLen dt) 0 l;
            match match items_of (member obj "arrayDimensions") with Some ad => dims_text [] ad | None => Some [] end with
            | None => PUndefined
            | Some dims =>
                parse_literal errLen (snprintf 80 (dt ++ B "[]")) (cJSON_PrintUnformatted (CArray (map CString lits)))
                  (match dims with [] => None | _ => Some dims end)
            end
        | val =>
            match canon val dt with
            | None => PFuel
            | Some None => PErr (snprintf errLen (B "cannot convert the " ++ dt ++ B " value"))
            | Some (Some literal) => parse_literal errLen (snprintf 80 dt) (Some literal) None
            end
        end
  end.

(** [None]: the error return. *)
Definition parse_datetime_member (obj : cjson) (key : string) : option (option Z) :=
  match member obj key with
  | None => Some None
  | Some (CString s) => option_map Some (value_parse_datetime (cstr s))
  | Some _ => None
  end.

Definition get_u32 (obj : cjson) (key : string) : option Z :=
  match member obj key with Some (CNumber d _) => Some (to_uint32 d) | _ => None end.

Definition get_u16 (obj : cjson) (key : string) : option Z := option_map u16 (get_u32 obj key).

(** The [statusCode] of a field; [None]: the error return. *)
Definition field_status (fo : cjson) : option (option Z) :=
  match member fo "statusCode" with
  | None => Some None
  | Some sc =>
      match (if cJSON_IsObject sc then member sc "code" else Some sc) with
      | Some (CNumber d _) => Some (Some (to_uint32 d))
      | _ => None
      end
  end.

Definition parse_field (fo : cjson) (enc : field_encoding) (errLen : nat) : parsed ua_datavalue :=
  get v <- parse_typed_value errLen fo;
  let value := match v with VtEmpty => None | _ => Some v end in
  match enc with
  | FieldDataValue =>
      match field_status fo with
      | None => PErr (snprintf errLen (B "invalid statusCode"))
      | Some status =>
          match parse_datetime_member fo "sourceTimestamp", parse_datetime_member fo "serverTimestamp" with
          | Some src, Some srv =>
              PFine (DataValue value status src (get_u16 fo "sourcePicoseconds") srv (get_u16 fo "serverPicoseconds"))
          | _, _ => PErr (snprintf errLen (B "invalid field timestamp (RFC 3339 UTC)"))
          end
      end
  | _ => PFine (DataValue value None None None None None)
  end.

Definition parse_publisher_id (p : cjson) : parsed publisher_id_value :=
  match text_of (member p "type"), member p "value" with
  | Some ty, Some v =>
      let num := match v with
                 | CNumber d _ => d
                 | CString s => match strtod (cstr s) with Some (d, _) => d | None => S754_zero false end
                 | _ => S754_zero false
                 end in
      if streq ty (B "Byte") then PFine (PidByte (to_uint8 num))
      else if streq ty (B "UInt16") then PFine (PidUInt16 (to_uint16 num))
      else if streq ty (B "UInt32") then PFine (PidUInt32 (to_uint32 num))
      else if streq ty (B "UInt64") then
        PFine (PidUInt64 match v with CString s => sval (strtoul 10 (cstr s)) | _ => to_uint64 num end)
      else if streq ty (B "String") then
        match v with
        | CString s => PFine (PidString (Some (cstr s)))
        | _ => PErr (snprintf 512 (B "String publisherId needs a string value"))
        end
      else PErr (snprintf 512 (B "unknown publisherId type '" ++ ty ++ B "'"))
  | _, _ => PErr (snprintf 512 (B "publisherId is " ++ J "{'type':'Byte|UInt16|UInt32|UInt64|String','value':...}"))
  end.

(** The position of the name; 0 when the member is absent. *)
Fixpoint name_index {A} (s : bytes) (names : list (bytes * A)) : option A :=
  match names with
  | [] => None
  | (n, a) :: r => if streq s n then Some a else name_index s r
  end.
Definition parse_enum {A} (v : option cjson) (names : list (bytes * A)) (first : A) : option A :=
  match v with
  | None => Some first
  | Some (CString s) => name_index (cstr s) names
  | Some _ => None
  end.

Definition mtNames : list (bytes * message_type) :=
  [(B "KeyFrame", KeyFrame); (B "DeltaFrame", DeltaFrame); (B "Event", EventMessage); (B "KeepAlive", KeepAlive)].
Definition feNames : list (bytes * field_encoding) :=
  [(B "Variant", FieldVariant); (B "RawData", FieldRawData); (B "DataValue", FieldDataValue)].

(** ** The members of the message *)

Context {net : NetworkMessages}.

Definition parse_group_header (v : option cjson) : option group_header :=
  match v with
  | Some (CObject _ as v) =>
      Some {| gh_writerGroupId := get_u16 v "writerGroupId"; gh_groupVersion := get_u32 v "groupVersion";
              gh_networkMessageNumber := get_u16 v "networkMessageNumber"; gh_sequenceNumber := get_u16 v "sequenceNumber" |}
  | _ => None
  end.

Definition parse_class_id (v : option cjson) : parsed (option ua_guid) :=
  match text_of v with
  | None => PFine None
  | Some s =>
      get g <- parse_literal 512 (B "Guid") (Some s) None;
      match g with VtScalar (VGuid g) => PFine (Some g) | _ => PUndefined end
  end.

Definition parse_promoted (v : option cjson) : parsed (option (Z * list ua_variant)) :=
  match items_of v with
  | Some ((_ :: _) as l) =>
      get vs <- mapP (fun _ => parse_typed_value 512) 0 l; PFine (Some (u16 (Z.of_nat (length l)), vs))
  | _ => PFine None
  end.

(** The security header and the footer. *)
Definition parse_security_member (d : cjson) : parsed (option security_header * ua_string) :=
  match member d "security" with
  | Some (CObject _ as v) =>
      let footSize := get_u16 v "securityFooterSize" in
      let header nonce size := Some
        {| sh_signed := is_true (member v "signed"); sh_encrypted := is_true (member v "encrypted");
           sh_forceKeyReset := is_true (member v "forceKeyReset");
           sh_securityTokenId := default 0 (get_u32 v "securityTokenId"); sh_nonce := nonce; sh_footerSize := size |} in
      get nonce <- match text_of (member v "nonce") with
                   | None => PFine []
                   | Some s =>
                       match value_b64_decode s with
                       | Some b => if Nat.leb (length b) UA_NETWORKMESSAGE_MAX_NONCE_LENGTH then PFine b else PErr
                           (snprintf 512 (B "security.nonce: Base64, at most "
                             ++ fmt_d (Z.of_nat UA_NETWORKMESSAGE_MAX_NONCE_LENGTH) ++ B " bytes"))
                       | None => PErr (snprintf 512 (B "security.nonce: Base64, at most "
                             ++ fmt_d (Z.of_nat UA_NETWORKMESSAGE_MAX_NONCE_LENGTH) ++ B " bytes"))
                       end
                   end;
      PFine match match text_of (member d "securityFooter") with Some s => value_b64_decode s | None => None end with
            | Some b => (header nonce (Some (default (u16 (Z.of_nat (length b))) footSize)), Some b)
            | None => (header nonce footSize, None)
            end
  | _ => PFine (None, None)
  end.

Definition in_message (mi : nat) (rest : bytes) : bytes :=
  snprintf 512 (B "messages[" ++ fmt_u (Z.of_nat mi) ++ B "]" ++ rest).
Definition in_field (mi fi : nat) (rest : bytes) : bytes :=
  in_message mi (B ".fields[" ++ fmt_u (Z.of_nat fi) ++ B "]: " ++ rest).

(** An error of a field, with its place in front. *)
Definition at_field {A} (mi fi : nat) (p : parsed A) : parsed A :=
  match p with PErr m => PErr (in_field mi fi m) | _ => p end.

Definition parse_key_field (mi : nat) (enc : field_encoding) (fi : nat) (fo : cjson) : parsed ua_datavalue :=
  at_field mi fi (parse_field fo enc 200).

Definition parse_delta_field (mi : nat) (enc : field_encoding) (fi : nat) (fo : cjson) : parsed (Z * ua_datavalue) :=
  match get_u32 fo "index" with
  | None => PErr (in_field mi fi (B "DeltaFrame fields need " ++ J "'index'"))
  | Some u => get dv <- at_field mi fi (parse_field fo enc 200); PFine (u16 u, dv)
  end.

(** [fmd[fi]] built from the name and the value of a field. *)
Definition field_meta_named (name : ua_string) (v : ua_variant) : field_meta :=
  {| fmd_name := name;
     fmd_builtInType := match variant_type v with Some t => u8 (ua_type_to_builtin_id (Some t)) | None => 0 end;
     fmd_dataType := match variant_type v with Some t => type_typeId t | None => UA_NODEID_NULL end;
     fmd_valueRank := match v with
                      | VtArray _ _ dims => if Nat.ltb 1 (length dims) then Z.of_nat (length dims) else 1
                      | _ => -1
                      end;
     fmd_rest := [] |}.
Definition field_meta_of (fo : cjson) (dv : ua_datavalue) : field_meta :=
  field_meta_named (text_of (member fo "name")) (dv_value dv).

Definition parse_dsm_header (mi : nat) (m : cjson) : parsed dsm_header :=
  match parse_enum (member m "messageType") mtNames KeyFrame, parse_enum (member m "fieldEncoding") feNames FieldVariant with
  | Some mt, Some fe =>
      match parse_datetime_member m "timestamp" with
      | None => PErr (in_message mi (B ".timestamp: RFC 3339 UTC"))
      | Some ts =>
          let cv key := match member m "configVersion" with Some (CObject _ as cv) => get_u32 cv key | _ => None end in
          PFine {| dh_type := mt; dh_encoding := fe;
                   dh_valid := match member m "valid" with Some v => cJSON_IsTrue v | None => true end;
                   dh_sequenceNr := get_u16 m "sequenceNumber"; dh_timestamp := ts;
                   dh_picoSeconds := get_u16 m "picoseconds"; dh_status := get_u16 m "status";
                   dh_major := cv "majorVersion"%string; dh_minor := cv "minorVersion"%string |}
      end
  | _, _ => PErr (in_message mi (B ": messageType KeyFrame|DeltaFrame|Event|KeepAlive, "
                    ++ B "fieldEncoding Variant|RawData|DataValue"))
  end.

(** One DataSetMessage with its writer id and its encoding metadata. *)
Definition parse_dsm (meta : list MetaEntry) (mi : nat) (m : cjson) : parsed (Z * dataset_message * encoding_meta) :=
  let wid := default 0 (get_u16 m "dataSetWriterId") in
  get h <- parse_dsm_header mi m;
  let fields := default [] (items_of (member m "fields")) in
  let count := u16 (Z.of_nat (length fields)) in
  let built key delta fmd := PFine (wid,
    {| dm_header := h; dm_fieldCount := count; dm_keyFrame := key; dm_deltaFrame := delta |},
    {| em_writerId := wid; em_fields := default fmd (meta_for meta wid) |}) in
  let zeros := map (fun _ => zero_field) fields in
  match dh_type h with
  | KeyFrame =>
      get dvs <- mapP (parse_key_field mi (dh_encoding h)) 0 fields;
      built dvs [] (map (fun p => field_meta_of (fst p) (snd p)) (combine fields dvs))
  | DeltaFrame => get dfs <- mapP (parse_delta_field mi (dh_encoding h)) 0 fields; built [] dfs zeros
  | _ => built [] [] zeros
  end.

(** The message and the metadata of the encoder, from a JSON object. *)
Definition parse_description (d : cjson) (map_ : Mapping) (meta : list MetaEntry)
    : parsed (network_message * list encoding_meta) :=
  get pid <- match member d "publisherId" with
             | Some v => get p <- parse_publisher_id v; PFine (Some p)
             | None => PFine None
             end;
  get classId <- parse_class_id (member d "dataSetClassId");
  get ts <- match parse_datetime_member d "timestamp" with
            | Some ts => PFine ts
            | None => PErr (snprintf 512 (B "invalid timestamp (RFC 3339 UTC)"))
            end;
  get promoted <- parse_promoted (member d "promotedFields");
  get sec <- parse_security_member d;
  match items_of (member d "messages") with
  | None => PErr (snprintf 512 (J "'messages' (array of DataSetMessages) is required"))
  | Some msgs =>
      if Nat.ltb UA_NETWORKMESSAGE_MAXMESSAGECOUNT (length msgs)
      then PErr (snprintf 512 (B "at most " ++ fmt_d (Z.of_nat UA_NETWORKMESSAGE_MAXMESSAGECOUNT) ++ B " DataSetMessages"))
      else
        get l <- mapP (parse_dsm meta) 0 msgs;
        PFine ({| nm_version := match member d "version" with Some (CNumber _ i) => u8 i | _ => 1 end;
                  nm_messageId := option_map Some (text_of (member d "messageId"));
                  nm_publisherId := pid; nm_dataSetClassId := classId;
                  nm_groupHeader := parse_group_header (member d "groupHeader");
                  nm_payloadHeader := match map_, member d "payloadHeader" with
                                      | MAP_UADP, Some v => cJSON_IsTrue v
                                      | _, _ => true
                                      end;
                  nm_timestamp := ts; nm_picoseconds := get_u16 d "picoseconds"; nm_promoted := promoted;
                  nm_security := fst sec; nm_securityFooter := snd sec; nm_chunk := is_true (member d "chunk");
                  nm_writerIds := map (fun r => fst (fst r)) l; nm_messages := Some (map (fun r => snd (fst r)) l) |},
               map snd l)
  end.
End Parsing.

(** * The names of JSON payload members *)

Section Names.
Context {cj : CJson} {len : CJsonLength} {net : NetworkMessages}.

Definition payload_names (m : cjson) : option (list bytes) :=
  match member m "Payload" with
  | Some (CObject l) => Some (map (fun p => cstr (fst p)) l)
  | _ => None
  end.

(** One entry per message: [None] is a NULL array. *)
Definition json_names_collect (doc : bytes) : list (option (list bytes)) :=
  match cJSON_ParseWithLength doc with
  | None => []
  | Some root =>
      match member root "Messages" with
      | Some (CObject _ as single) => firstn UA_NETWORKMESSAGE_MAXMESSAGECOUNT [payload_names single]
      | Some (CArray msgs) => map payload_names (firstn UA_NETWORKMESSAGE_MAXMESSAGECOUNT msgs)
      | _ => []
      end
  end.
End Names.

(** * The commands *)

Section Commands.
Context {stack : UaStack} {cj : CJson} {nid : NodeIdOps} {tt_ : TypeTable} {len : CJsonLength} {cpu : Cpu}
  {net : NetworkMessages} {W : Type} {files : InputFiles W}.

Definition emit (w : W) (action : bytes) (map : Mapping) (sc : Z) (members : list bytes) (what : string) : outcome W :=
  let ok := sc =? UA_STATUSCODE_GOOD in
  Exits w (if ok then 0 else 4) (envelope codec_op ok sc
    (output_open_results
     ++ jobject ([J "'action':'" ++ action ++ J "'"; J "'mapping':'" ++ mapping_name map ++ J "'";
                  cli_print_status (B "statusCode") sc] ++ members)
     ++ output_close_results
     ++ if ok then output_null_error
        else J ",'error':{'category':'service','message':" ++ output_json_string (Some (B what)) ++ J "}")).

Definition encode_nm (map : Mapping) (nm : network_message) (eo : option (list encoding_meta)) : Z * ua_string :=
  match map with MAP_UADP => encodeBinary nm eo | MAP_JSON => encodeJson nm eo end.

Definition print_encoded (map : Mapping) (out : ua_string) : bytes :=
  match map with MAP_UADP => print_b64 (default [] out) | MAP_JSON => output_json_string_len out end.

(** [usage_error(err)], and what ends without a result. *)
Definition unparsed {A} (w : W) (p : parsed A) (k : A -> outcome W) : outcome W :=
  match p with
  | PFine a => k a
  | PErr msg => usage_error w codec_op msg
  | PUndefined => OutOfBounds
  | PFuel => NoFuel
  end.

Definition encode_description (w : W) (map : Mapping) (action : bytes) (meta : list MetaEntry) (doc : bytes) : outcome W :=
  match cJSON_Parse (cstr doc) with
  | Some (CObject _ as d) =>
      unparsed w (parse_description d map meta) (fun r =>
      let '(sc, out) := encode_nm map (fst r) (Some (snd r)) in
      emit w action map sc
        (if sc =? UA_STATUSCODE_GOOD
         then [J "'encoded':" ++ print_encoded map out; J "'length':" ++ fmt_u (Z.of_nat (str_len out))] else [])
        "encoding failed")
  | _ => usage_error w codec_op (B "the description is not a JSON object")
  end.

Definition pubsub_encode (w : W) (argv : list bytes) (map : Mapping) (action : bytes) : outcome W :=
  match read_input w argv with
  | (w, None) => NoFuel
  | (w, Some ((None | Some []))) => usage_error w codec_op (B "empty description (--document, --input or stdin)")
  | (w, Some (Some doc)) =>
      let '(w, meta) := meta_parse w argv in
      unparsed w meta (fun meta => encode_description w map action meta doc)
  end.

Definition meta_to_emd (meta : list MetaEntry) (writerIds : list Z) : list encoding_meta :=
  firstn UA_NETWORKMESSAGE_MAXMESSAGECOUNT
    (flat_map (fun id => match meta_for meta id with
                         | Some fields => [{| em_writerId := id; em_fields := fields |}]
                         | None => []
                         end) writerIds).

(** The metadata the decoder is given. *)
Definition uadp_options (meta : list MetaEntry) (wire : bytes) : list encoding_meta :=
  match meta with
  | [] => []
  | first :: _ =>
      let '(sc, hdr) := decodeBinaryHeaders wire in
      meta_to_emd meta
        (if (sc =? UA_STATUSCODE_GOOD) && nm_payloadHeader hdr then nm_writerIds hdr
         else match me_writerId first with
              | Some _ => map (fun e => default 0 (me_writerId e)) (firstn UA_NETWORKMESSAGE_MAXMESSAGECOUNT meta)
              | None => [0]
              end)
  end.

Definition json_options (meta : list MetaEntry) (wire : bytes) : list encoding_meta :=
  match meta with
  | [] => []
  | _ =>
      let '(sc, first) := decodeJson wire None in
      if sc =? UA_STATUSCODE_GOOD then meta_to_emd meta (nm_writerIds first) else []
  end.

Definition options_of (emd : list encoding_meta) : option (list encoding_meta) :=
  match emd with [] => None | _ => Some emd end.

Definition nth_names (jn : list (option (list bytes))) (i : nat) : option (list bytes) :=
  match nth_error jn i with Some n => n | None => None end.

(** The metadata of the JSON re-encoding: one entry per message. *)
Definition reencode_meta (meta : list MetaEntry) (jn : list (option (list bytes))) (nm : network_message)
    : list encoding_meta :=
  map (fun p => {| em_writerId := snd p;
                   em_fields := match meta_for meta (snd p) with
                                | Some fields => fields
                                | None => map (fun n => {| fmd_name := Some n; fmd_builtInType := 0;
                                              fmd_dataType := UA_NODEID_NULL; fmd_valueRank := 0; fmd_rest := [] |})
                                            (default [] (nth_names jn (fst p)))
                                end |})
    (combine (seq 0 (length (nm_writerIds nm))) (nm_writerIds nm)).

Definition describe (w : W) (map : Mapping) (action : bytes) (meta : list MetaEntry) (wire : bytes) : outcome W :=
  let '(emd, jn) := match map with
                    | MAP_UADP => (uadp_options meta wire, [])
                    | MAP_JSON => (json_options meta wire, json_names_collect wire)
                    end in
  let '(sc, nm) := match map with
                   | MAP_UADP => decodeBinary wire (options_of emd)
                   | MAP_JSON => decodeJson wire (options_of emd)
                   end in
  let reo := match map with MAP_UADP => options_of emd | MAP_JSON => Some (reencode_meta meta jn nm) end in
  let '(rsc, re) := encode_nm map nm reo in
  emit w action map sc
    (if sc =? UA_STATUSCODE_GOOD
     then [J "'networkMessage':" ++ print_description nm map meta (nth_names jn);
           J "'reencoded':" ++ (if rsc =? UA_STATUSCODE_GOOD then print_encoded map re else B "null");
           cli_print_status (B "reencodeStatusCode") rsc]
     else []) "decoding failed".

Definition pubsub_decode (w : W) (argv : list bytes) (map : Mapping) (action : bytes) : outcome W :=
  match read_input w argv with
  | (w, None) => NoFuel
  | (w, Some ((None | Some []))) => usage_error w codec_op (B "empty input (--document, --input or stdin)")
  | (w, Some (Some doc)) =>
      let '(w, meta) := meta_parse w argv in
      unparsed w meta (fun meta =>
      match map with
      | MAP_UADP =>
          match value_b64_decode (cstr doc) with
          | None => usage_error w codec_op (B "the UADP input is not Base64")
          | Some wire => describe w map action meta wire
          end
      | MAP_JSON => describe w map action meta doc
      end)
  end.

Definition cmd_codec_pubsub (w : W) (argv : list bytes) : outcome W :=
  let op := hd [] argv in
  if streq op (B "pubsub-uadp-encode") then pubsub_encode w argv MAP_UADP op
  else if streq op (B "pubsub-uadp-decode") then pubsub_decode w argv MAP_UADP op
  else if streq op (B "pubsub-json-encode") then pubsub_encode w argv MAP_JSON op
  else if streq op (B "pubsub-json-decode") then pubsub_decode w argv MAP_JSON op
  else usage_error w codec_op (B "codec pubsub-uadp-encode|pubsub-uadp-decode|pubsub-json-encode|pubsub-json-decode [--document <text>|--input <file>] [--metadata <json>|--metadata-file <file>]").
End Commands.
