(* ===== verification/PubSubDescription.v ===== *)
(** The two directions of pubsub_codec.c against each other: the description that
    a decode prints, given to an encode, is parsed to the same NetworkMessage. *)

From Stdlib Require Import String Ascii ZArith Bool List Lia SpecFloat.
Import ListNotations.
From S2P Require Import Prelude CLib Json Float UaTypes RefStack Base64 Output CJson Values RoundTrip Args Connect Session.
From S2P Require Import HistoryEvents Codec PubSubJson JsonTree PubSubCodec.

(** * Texts *)

(** ASCII characters that stand for themselves in a JSON string. *)
Definition ascii_plain (c : Z) : bool := plain c && (c <? 128).
Definition Ascii (s : bytes) : Prop := Forall (fun c => ascii_plain c = true) s.

Lemma Ascii_text s : Ascii s -> is_text s = true.
Proof.
  intros H. apply forallb_forall. intros c Hc. unfold Ascii in H. rewrite Forall_forall in H. specialize (H c Hc).
  unfold ascii_plain, plain, text_char in *. zbool. apply andb_true_intro. split; apply Z.ltb_lt; lia.
Qed.

Lemma Ascii_escape s : Ascii s -> flat_map json_escape s = s.
Proof. intros H. apply escape_plain. eapply Forall_impl; [|exact H]. intros c Hc. now apply andb_prop in Hc. Qed.

Lemma Ascii_app a b : Ascii a -> Ascii b -> Ascii (a ++ b).
Proof. intros. now apply Forall_app. Qed.

Ltac ascii_apps := repeat match goal with |- Ascii (_ ++ _) => apply Ascii_app end.

Lemma Ascii_of_hex l : Forall (fun c => ishex c = true) l -> Ascii l.
Proof.
  apply Forall_impl. intros c Hc. unfold ascii_plain. rewrite ishex_plain by exact Hc.
  unfold ishex, isdigit in Hc. apply Z.ltb_lt. destruct (Z.leb_spec 48 c), (Z.leb_spec c 57), (Z.leb_spec 97 c), (Z.leb_spec c 102);
    cbn in Hc; try discriminate; lia.
Qed.

Lemma Ascii_u n : 0 <= n -> Ascii (fmt_u n).
Proof.
  intros H. apply Ascii_of_hex. eapply Forall_impl; [|now apply fmt_u_digits]. intros c Hc. unfold ishex. now rewrite Hc.
Qed.

Lemma Ascii_d z : Ascii (fmt_d z).
Proof. unfold fmt_d. destruct (Z.ltb_spec z 0); [constructor; [reflexivity|]|]; apply Ascii_u; lia. Qed.

Lemma Ascii_u0 w n : 0 <= n -> Ascii (fmt_u0 w n).
Proof. intros H. apply pad0_Forall; [reflexivity|now apply Ascii_u]. Qed.

Lemma Ascii_x0 w n : 0 <= n -> Ascii (fmt_x0 w n).
Proof. intros H. apply pad0_Forall; [reflexivity|]. now apply Ascii_of_hex, fmt_x_hex. Qed.

Lemma Ascii_guid g : wf_guid g = true -> Ascii (guid_text g).
Proof.
  intros H. destruct (guid_fields g H) as (H1 & H2 & H3). unfold guid_text. cbv zeta.
  assert (forall i, Ascii (fmt_x0 2 (nth i (data4 g) 0))) as Hi by (intros i; apply Ascii_x0, guid_nth, H).
  ascii_apps; auto using Ascii_x0; repeat constructor.
Qed.

Lemma Ascii_b64 l : Bytes l -> Ascii (value_b64_encode l).
Proof. apply encode_Forall; [exact b64_char_ascii|reflexivity]. Qed.

(** A string without characters to escape, between quotes. *)
Lemma quoted_ascii s : Ascii s -> print_json_string (Some s) = J "'" ++ s ++ J "'".
Proof. intros H. cbn [print_json_string]. now rewrite is_text_cstr, Ascii_escape by auto using Ascii_text. Qed.

Create HintDb ascii.
#[local] Hint Resolve Ascii_u Ascii_d Ascii_u0 Ascii_x0 Ascii_guid Ascii_b64 Ascii_app Ascii_text : ascii.

(** * Timestamps *)

Section WithStack.
Context {stack : UaStack} {laws : UaStackLaws stack}.

(** The text between the quotes of [print_datetime_full]. *)
Definition full_text (t : Z) : bytes :=
  let s := DateTime_toStruct t in
  fmt_u0 4 (dts_year s) ++ [45] ++ fmt_u0 2 (dts_month s) ++ [45] ++ fmt_u0 2 (dts_day s) ++ [84]
  ++ fmt_u0 2 (dts_hour s) ++ [58] ++ fmt_u0 2 (dts_min s) ++ [58] ++ fmt_u0 2 (dts_sec s) ++ [46]
  ++ fmt_u0 7 (t mod UA_DATETIME_SEC) ++ [90].

Lemma Ascii_full t : 0 <= t < DATETIME_END -> Ascii (full_text t).
Proof.
  intros Ht. destruct (toStruct_range t Ht) as (H1 & H2 & H3 & H4 & H5 & H6). unfold full_text. cbv zeta.
  pose proof (Z.mod_pos_bound t UA_DATETIME_SEC eq_refl).
  ascii_apps; try (apply Ascii_u0; lia); repeat constructor.
Qed.

Lemma print_full t : 0 <= t < DATETIME_END -> print_datetime_full t = print_json_string (Some (full_text t)).
Proof.
  intros Ht. rewrite quoted_ascii by now apply Ascii_full.
  destruct (toStruct_range t Ht) as (H1 & H2 & H3 & H4 & H5 & H6). unfold print_datetime_full, full_text. cbv zeta.
  replace (Z.rem (Z.rem t UA_DATETIME_SEC + UA_DATETIME_SEC) UA_DATETIME_SEC) with (t mod UA_DATETIME_SEC).
  - unfold u32. rewrite !uwrap_small by lia. rewrite <- !app_assoc. reflexivity.
  - rewrite (Z.rem_mod_nonneg t) by (unfold UA_DATETIME_SEC; lia). pose proof (Z.mod_pos_bound t UA_DATETIME_SEC eq_refl).
    rewrite Z.rem_mod_nonneg by (unfold UA_DATETIME_SEC in *; lia).
    rewrite <- Z.add_mod_idemp_r, Z.mod_same, Z.add_0_r, Z.mod_mod by (unfold UA_DATETIME_SEC; lia). reflexivity.
Qed.

Lemma seven_digits n : 0 <= n < UA_DATETIME_SEC -> fraction_digits 0 0 (fmt_u0 7 n ++ [90]) = (7%nat, n, [90]).
Proof.
  intros Hn. unfold UA_DATETIME_SEC in Hn. rewrite fraction_digits_scan.
  - rewrite (fmt_u0_length 7 n) by (cbn; lia). unfold fmt_u0, pad0. rewrite scan_zeros by lia.
    unfold fmt_u. rewrite scan_digits; [reflexivity|lia| |discriminate]. split; [lia|apply num_fuel_ok; lia].
  - rewrite fmt_u0_length by (cbn; lia). lia.
  - apply pad0_Forall; [reflexivity|apply fmt_u_digits; lia].
  - reflexivity.
  - rewrite fmt_u0_length by (cbn; lia). lia.
Qed.

(** A description keeps the 100 ns of a DateTime. *)
Lemma parse_full t : 0 <= t < DATETIME_END -> value_parse_datetime (full_text t) = Some t.
Proof.
  intros Ht. destruct (toStruct_range t Ht) as (HY & HM & HD & Hh & Hm & Hs). destruct (toStruct_instant t Ht) as [Hi _].
  unfold full_text. cbv zeta in *. set (s := DateTime_toStruct t) in *.
  pose proof (scan_civil_fmt _ _ _ _ _ _ (fmt_u0 7 (t mod UA_DATETIME_SEC) ++ [90]) HY HM HD Hh Hm Hs) as Hc.
  pose proof (Z.mod_pos_bound t UA_DATETIME_SEC eq_refl) as Hf.
  cbn [app] in *. unfold value_parse_datetime.
  destruct (fmt_u0 4 (dts_year s)) as [|c y] eqn:E; [apply (f_equal (@length Z)) in E;
    rewrite fmt_u0_length in E by (cbn; lia); discriminate|].
  cbn [app] in *. rewrite Hc. cbn [obind]. rewrite seven_digits by exact Hf. cbv iota beta.
  unfold s32. rewrite !swrap_small by lia. replace (dts_year s - 1900 + 1900) with (dts_year s) by lia.
  replace (dts_month s - 1 + 1) with (dts_month s) by lia. rewrite Hi. f_equal. change (7 - Z.of_nat 7) with 0.
  unfold UNIX_EPOCH_SEC, DATETIME_END, UA_DATETIME_SEC in *.
  assert ((t / 10000000 - 11644473600 + 11644473600) * 10000000 + t mod 10000000 * 10 ^ 0 = t) as ->
    by (clear; Z.div_mod_to_equations; lia).
  apply swrap_small; lia.
Qed.
End WithStack.

(** * Values *)

(** The literal of a scalar, and its tree in a description. *)
Definition scalar_literal {stack : UaStack} (v : ua_value) : bytes :=
  match v with
  | VBoolean b => bool_text b
  | VSByte z | VInt16 z | VInt32 z | VInt64 z | VByte z | VUInt16 z | VUInt32 z | VUInt64 z => fmt_d z
  | VString s => default [] s
  | VDateTime t => output_timestamp t
  | VGuid g => guid_text g
  | VByteString s => value_b64_encode (default [] s)
  | VNodeId n => nodeid_text n
  | _ => []
  end.

Definition scalar_tree {stack : UaStack} (v : ua_value) : jtree :=
  match v with
  | VBoolean b => TBool b
  | VSByte z | VInt16 z | VInt32 z | VByte z | VUInt16 z | VUInt32 z => TInt z
  | _ => TText (scalar_literal v)
  end.

(** The scalars a description carries without loss: Booleans, integers, strings
    (not null), DateTimes of whole milliseconds, Guids, ByteStrings and NodeIds. *)
Definition lossless (v : ua_value) : bool :=
  match v with
  | VBoolean _ => true
  | VSByte _ | VInt16 _ | VInt32 _ | VInt64 _ | VByte _ | VUInt16 _ | VUInt32 _ | VUInt64 _ => typed_value v
  | VString (Some s) => is_text s
  | VDateTime t => (0 <? t) && (t <? DATETIME_END) && (t mod 10000 =? 0)
  | VGuid g => range_guid_b g
  | VByteString (Some d) => forallb is_byte d
  | VNodeId n => literal_nodeid n
  | _ => false
  end.

Section Values.
Context {stack : UaStack} {laws : UaStackLaws stack} {cj : CJson} {reads : CJsonReads cj} {cpu : Cpu}.

Lemma Ascii_timestamp t : 0 < t < DATETIME_END -> Ascii (output_timestamp t).
Proof.
  intros Ht. rewrite timestamp_text by exact Ht. destruct (toStruct_range t) as (H1 & H2 & H3 & H4 & H5 & H6); [lia|].
  destruct (toStruct_instant t) as [_ Hm]; [lia|]. cbv zeta in *.
  assert (0 <= dts_milliSec (DateTime_toStruct t)) by (rewrite Hm; apply Z.div_pos; [apply Z.mod_pos_bound; reflexivity|lia]).
  ascii_apps; try (apply Ascii_u0; lia); repeat constructor.
Qed.

Lemma printable_text s : wf_printable s = true -> is_text (default [] s) = true.
Proof.
  intros H. apply forallb_forall. intros c Hc. unfold wf_printable in H. rewrite forallb_forall in H.
  specialize (H c Hc). unfold text_char. zbool. apply andb_true_intro. split; apply Z.ltb_lt; lia.
Qed.

(** The identifier after its namespace. *)
Lemma ident_escape n : literal_nodeid n = true ->
  flat_map json_escape (ident_text n) = print_nodeid_ident_raw n /\ is_text (ident_text n) = true.
Proof.
  unfold literal_nodeid, range_nodeid, ident_text, print_nodeid_ident_raw. intros H.
  destruct (identifier n) as [i|s|g|s|]; zbool.
  - assert (Ascii (B "i=" ++ fmt_u i)) by (apply Ascii_app; [repeat constructor|apply Ascii_u; unfold in_range in *; zbool; lia]).
    auto using Ascii_escape, Ascii_text.
  - rewrite flat_map_app, (escape_printable (default [] s)), Ascii_escape by (assumption || (repeat constructor)).
    split; [reflexivity|]. apply is_text_cat; [reflexivity|now apply printable_text].
  - assert (Ascii (B "g=" ++ guid_text g)).
    { apply Ascii_app; [repeat constructor|]. apply Ascii_guid, range_guid_wf. unfold range_guid_b, range_nodeid.
      cbn [namespaceIndex identifier].
      repeat match goal with |- (_ && _) = true => apply andb_true_intro; split end; assumption || reflexivity. }
    auto using Ascii_escape, Ascii_text.
  - assert (Ascii (B "b=" ++ value_b64_encode (default [] s)))
      by (apply Ascii_app; [repeat constructor|now apply Ascii_b64, forallb_Bytes]).
    split; [|auto using Ascii_text]. rewrite Ascii_escape by assumption.
    destruct s as [[|c s]|]; [reflexivity| |reflexivity]. cbn [default]. now rewrite print_base64_eq.
  - discriminate.
Qed.

Lemma nodeid_print n : literal_nodeid n = true ->
  print_ua_nodeid n = print_json_string (Some (nodeid_text n)) /\ is_text (nodeid_text n) = true.
Proof.
  intros H. destruct (ident_escape n H) as [He Ht]. pose proof (literal_ns n H) as Hns.
  assert (forall p, Ascii p -> is_text (p ++ ident_text n) = true /\
    print_json_string (Some (p ++ ident_text n)) = J "'" ++ p ++ print_nodeid_ident_raw n ++ J "'") as Hp.
  { intros p Hp. assert (is_text (p ++ ident_text n) = true) as E by (apply is_text_cat; auto using Ascii_text).
    split; [exact E|]. cbn [print_json_string]. rewrite is_text_cstr by exact E.
    rewrite flat_map_app, He, Ascii_escape by exact Hp. rewrite <- app_assoc. reflexivity. }
  assert (Ascii (B "ns=" ++ fmt_u (namespaceIndex n) ++ B ";")) as Ha
    by (ascii_apps; [repeat constructor|apply Ascii_u; lia|repeat constructor]).
  destruct (Hp _ Ha) as [Ht1 Hp1]. destruct (Hp [] (Forall_nil _)) as [Ht2 Hp2]. rewrite <- !app_assoc in Hp1, Ht1.
  unfold print_ua_nodeid, nodeid_text. unfold print_nodeid_ident_raw in Hp1, Hp2.
  destruct (identifier n) eqn:E; [destruct (namespaceIndex n =? 0)| | | |]; (split; [|assumption]);
    [change (ident_text n) with ([] ++ ident_text n); rewrite Hp2|rewrite Hp1..]; rewrite <- ?app_assoc; try reflexivity.
  unfold literal_nodeid, range_nodeid in H. rewrite E in H. zbool. discriminate.
Qed.

(** ** Printed as a tree *)

Lemma text_quoted s : is_text s = true -> print_json_string_len (Some s) = print_json_string (Some s).
Proof. intros H. cbn [print_json_string_len]. now rewrite !is_text_cstr. Qed.

Lemma scalar_print v : lossless v = true -> print_scalar v = jtext (scalar_tree v) /\ tree_ok (scalar_tree v) = true.
Proof.
  intros H. destruct v; try discriminate H; cbn [lossless typed_value] in H; unfold in_range in *; zbool;
    cbn [print_scalar scalar_tree jtext tree_ok scalar_literal];
    try (split; [reflexivity||(symmetry; apply fmt_d_u; lia)|apply andb_true_intro; split; apply Z.ltb_lt; lia]).
  - now split.
  - split; [symmetry; apply quoted_ascii|]; auto with ascii.
  - rewrite (fmt_d_u z) by assumption. split; [symmetry; apply quoted_ascii|]; auto with ascii.
  - destruct s as [s|]; [|discriminate]. cbn [default]. split; [|exact H].
    destruct s as [|c s]; [reflexivity|]. now apply text_quoted.
  - pose proof (Ascii_timestamp t ltac:(lia)) as Ha. split; [|auto using Ascii_text]. rewrite quoted_ascii by exact Ha.
    rewrite timestamp_text in * by lia. destruct (fmt_u0 4 _) eqn:E; [|reflexivity].
    unfold fmt_u0, pad0 in E. apply app_eq_nil in E as [_ E]. now apply fmt_u_nonnil in E.
  - pose proof (Ascii_guid g (range_guid_wf g H)) as Ha. split; [symmetry; now apply quoted_ascii|auto using Ascii_text].
  - destruct s as [s|]; [|discriminate]. cbn [default]. pose proof (Ascii_b64 s (forallb_Bytes s H)) as Ha.
    rewrite print_base64_eq. split; [symmetry; now apply quoted_ascii|auto using Ascii_text].
  - now apply nodeid_print.
Qed.
(** ** Read back *)

Lemma canon_number n z dt : - 10 ^ 15 < z < 10 ^ 15 -> canon_to_literal n (Some (number z)) dt = Some (Some (fmt_d z)).
Proof. intros Hz. rewrite <- (prints_int z Hz). now destruct n. Qed.

Lemma scalar_canon v dt : lossless v = true ->
  canon (Some (jmodel (scalar_tree v))) dt = Some (Some (scalar_literal v)) /\ is_text (scalar_literal v) = true.
Proof.
  intros H. destruct (scalar_print v H) as [_ Ht]. unfold canon.
  destruct v; try discriminate H; cbn [lossless typed_value scalar_tree scalar_literal jmodel tree_ok] in *;
    unfold in_range in *; zbool; cbn [depth canon_to_literal];
    try (rewrite canon_number by lia; split; [reflexivity|auto with ascii]);
    try (rewrite is_text_cstr by assumption; now split).
  destruct b; now split.
Qed.

Lemma scalar_parse rec errLen v : lossless v = true ->
  parse_scalar rec errLen (type_of v) (scalar_literal v) = Some (Ok v).
Proof.
  intros H. destruct v; try discriminate H; cbn [lossless typed_value] in H; unfold in_range in *; zbool;
    cbn [type_of scalar_literal parse_scalar].
  all: try (unfold s8, s16, u8, u16; rewrite atoi_d by lia; rewrite ?swrap_small, ?uwrap_small by lia; reflexivity).
  - destruct b; reflexivity.
  - rewrite fmt_d_u, strtoul_u by (unfold ULONG_MAX; lia). unfold u32. rewrite uwrap_small by lia. reflexivity.
  - now rewrite strtol_d by lia.
  - now rewrite fmt_d_u, strtoul_u by lia.
  - destruct s; [reflexivity|discriminate].
  - rewrite datetime_text by lia. match goal with E : _ mod _ = 0 |- _ => rewrite E end. now rewrite Z.sub_0_r.
  - now rewrite parse_guid_text.
  - destruct s as [s|]; [|discriminate]. cbn [default]. now rewrite decode_encode by now apply forallb_Bytes.
  - now rewrite parse_nodeid_text.
Qed.

Definition label (t : ua_type) : bytes := value_type_name (Some t).

Definition lossless_type (t : ua_type) : bool :=
  match t with
  | TBoolean | TSByte | TByte | TInt16 | TUInt16 | TInt32 | TUInt32 | TInt64 | TUInt64 | TString | TDateTime | TGuid
  | TByteString | TNodeId => true
  | _ => false
  end.

Lemma lossless_typed v : lossless v = true -> lossless_type (type_of v) = true.
Proof. now destruct v. Qed.

(** The names of these types. *)
Lemma label_facts t : lossless_type t = true ->
  let l := label t in
  is_text l = true /\ streq l (B "Null") = false /\ snprintf 80 l = l /\ snprintf 80 (l ++ B "[]") = l ++ B "[]"
  /\ array_suffix l = (l, false) /\ array_suffix (l ++ B "[]") = (l, true)
  /\ Nat.leb 64 (length l) = false /\ value_builtin_type l = Some t /\ l <> [].
Proof. intros H. destruct t; try discriminate H; repeat split; try reflexivity; discriminate. Qed.

Lemma scalar_literal_parse errLen v : lossless v = true ->
  parse_literal errLen (label (type_of v)) (Some (scalar_literal v)) None = PFine (VtScalar v).
Proof.
  intros H. destruct (label_facts _ (lossless_typed v H)) as (_ & _ & _ & _ & Hs & _ & Hl & Hb & Hn). unfold parse_literal. cbn [value_parse].
  destruct (label (type_of v)) as [|c l]; [congruence|]. rewrite Hs, Hl, Hb. rewrite scalar_parse by exact H.
  cbn [fbind of_fuel]. destruct v; try discriminate H; reflexivity.
Qed.

(** ** Variants *)

Definition variant_label (v : ua_variant) : bytes := value_type_name (variant_type v).

Definition value_tree (v : ua_variant) : jtree :=
  match v with
  | VtEmpty => TNull
  | VtScalar x => scalar_tree x
  | VtArray _ l _ => TList (map scalar_tree l)
  end.

(** The ArrayDimensions are described from two on, and have room in a buffer of 256. *)
Definition lossless_dims (n : nat) (d : list Z) : bool :=
  match d with
  | [] => true
  | _ => Nat.ltb 1 (length d) && forallb (in_range 0 (2 ^ 31 - 1)) d && (product d mod 2 ^ 64 =? Z.of_nat n)
         && Nat.leb (length (commas (map fmt_u d))) 255
  end.

Definition lossless_variant (v : ua_variant) : bool :=
  match v with
  | VtEmpty => true
  | VtScalar x => lossless x
  | VtArray t l d => lossless_type t && forallb (fun x => lossless x && type_eqb (type_of x) t) l && lossless_dims (length l) d
  end.

Definition dims_tree (v : ua_variant) : list (bytes * jtree) :=
  if Nat.ltb 1 (length (variant_dims v)) then [(B "arrayDimensions", TList (map TInt (variant_dims v)))] else [].

Definition variant_tree (v : ua_variant) : list (bytes * jtree) :=
  match v with
  | VtEmpty => [(B "dataType", TText (B "Null")); (B "builtInType", TInt 0); (B "value", TNull)]
  | _ => [(B "dataType", TText (variant_label v)); (B "builtInType", TInt (ua_type_to_builtin_id (variant_type v)))]
         ++ dims_tree v ++ [(B "value", value_tree v)]
  end.

Definition member_text (m : bytes * jtree) : bytes := key_text (fst m) ++ jtext (snd m).
Definition members_ok (l : list (bytes * jtree)) : bool := forallb (fun m => is_text (fst m) && tree_ok (snd m)) l.

Lemma array_trees t l : forallb (fun x => lossless x && type_eqb (type_of x) t) l = true ->
  map print_scalar l = map jtext (map scalar_tree l) /\ forallb tree_ok (map scalar_tree l) = true.
Proof.
  induction l as [|x l IH]; [now split|]. cbn [forallb map]. intros H. zbool. destruct (scalar_print x) as [-> ->]; [assumption|].
  destruct IH as [-> ->]; [assumption|]. now split.
Qed.

Lemma value_tree_print v : lossless_variant v = true ->
  output_ua_variant_value v = jtext (value_tree v) /\ tree_ok (value_tree v) = true.
Proof.
  intros H. destruct v as [|x|t l d]; [now split|now apply scalar_print|]. cbn [lossless_variant] in H. zbool.
  cbn [output_ua_variant_value value_tree jtext tree_ok]. destruct (array_trees t l) as [-> ->]; [assumption|]. now split.
Qed.

Lemma lossless_dims_range n d : lossless_dims n d = true -> Forall (fun x => 0 <= x < 2 ^ 31) d.
Proof.
  intros H. apply Forall_forall. intros x Hx. destruct d as [|y d]; [destruct Hx|]. cbn [lossless_dims] in H. zbool.
  match goal with E : forallb _ _ = true |- _ => rewrite forallb_forall in E; specialize (E x Hx) end.
  unfold in_range in *. zbool. lia.
Qed.

Lemma dims_trees d : Forall (fun x => 0 <= x < 2 ^ 31) d ->
  map fmt_u d = map jtext (map TInt d) /\ forallb tree_ok (map TInt d) = true.
Proof.
  induction 1 as [|x d Hx _ [IH1 IH2]]; [now split|]. cbn [map forallb jtext tree_ok]. rewrite IH1, IH2, fmt_d_u by lia.
  split; [reflexivity|]. rewrite andb_true_r. apply andb_true_intro; split; apply Z.ltb_lt; lia.
Qed.

Lemma variant_dims_range v : lossless_variant v = true -> Forall (fun x => 0 <= x < 2 ^ 31) (variant_dims v).
Proof.
  destruct v as [| |t l d]; intros H; try constructor. cbn [lossless_variant] in H. zbool. now apply lossless_dims_range in H0.
Qed.

Lemma builtin_id_small t : 0 <= ua_type_to_builtin_id t < 100.
Proof. destruct t as [[]|]; cbn; lia. Qed.

Lemma variant_label_text v : lossless_variant v = true -> v <> VtEmpty -> is_text (variant_label v) = true.
Proof.
  intros H Hv. unfold variant_label. destruct v as [|x|t l d]; [congruence| |]; cbn [variant_type lossless_variant] in *.
  - now apply (label_facts (type_of x)), lossless_typed.
  - zbool. now apply (label_facts t).
Qed.

Lemma variant_members_print v : lossless_variant v = true ->
  variant_members v = map member_text (variant_tree v) /\ members_ok (variant_tree v) = true.
Proof.
  intros H. destruct (value_tree_print v H) as [Hv1 Hv2].
  destruct (dims_trees _ (variant_dims_range v H)) as [Hd1 Hd2].
  assert (tree_ok (TInt (ua_type_to_builtin_id (variant_type v))) = true) as Hb.
  { pose proof (builtin_id_small (variant_type v)). cbn [tree_ok]. apply andb_true_intro; split; apply Z.ltb_lt; lia. }
  assert (v <> VtEmpty -> is_text (variant_label v) = true) as Hl by (intros; now apply variant_label_text).
  assert (v = VtEmpty \/ v <> VtEmpty) as [->|Hne] by (destruct v; [now left|right; discriminate..]); [now split|].
  specialize (Hl Hne). unfold variant_members, variant_tree, dims_tree. rewrite Hd1, Hv1.
  assert (tree_ok (TText (variant_label v)) = true) as Ht by exact Hl.
  destruct v as [|x|t l d]; [congruence| |]; (split;
    [rewrite !map_app; destruct (Nat.ltb 1 _); reflexivity|unfold members_ok; rewrite !forallb_app; cbn [forallb fst snd];
     rewrite Ht, Hb, Hv2; destruct (Nat.ltb 1 _); [cbn [forallb fst snd tree_ok]; rewrite Hd2|]; reflexivity]).
Qed.

End Values.

(** * Members of a tree *)

Definition lookup (k : bytes) (l : list (bytes * jtree)) : option jtree :=
  option_map snd (find (fun m => streq (fst m) k) l).

Lemma lookup_app k a b : lookup k (a ++ b) = match lookup k a with Some t => Some t | None => lookup k b end.
Proof. unfold lookup. induction a as [|[n t] a IH]; [reflexivity|]. cbn [app find fst]. now destruct (streq n k). Qed.

Lemma lookup_cons k n t r : lookup k ((n, t) :: r) = if streq n k then Some t else lookup k r.
Proof. unfold lookup. cbn [find fst]. now destruct (streq n k). Qed.

(** A member that is present when the option is. *)
Definition topt {A} (key : string) (f : A -> jtree) (o : option A) : list (bytes * jtree) :=
  match o with Some a => [(B key, f a)] | None => [] end.

Lemma lookup_topt {A} k key (f : A -> jtree) o : lookup k (topt key f o) = if streq (B key) k then option_map f o else None.
Proof. destruct o; cbn [topt option_map]; [rewrite lookup_cons|]; now destruct (streq (B key) k). Qed.

Lemma shallow_topt {A} n key (f : A -> jtree) o : (forall a, o = Some a -> (nesting (f a) <= n)%nat) -> shallow n (topt key f o).
Proof. intros H. destruct o as [a|]; repeat constructor. now apply H. Qed.

(** Evaluate a lookup in a list of known keys. *)
Ltac look :=
  repeat first [rewrite lookup_app | rewrite lookup_topt | rewrite lookup_cons];
  repeat match goal with
         | |- context [streq (B ?a) (B ?b)] =>
             let v := eval vm_compute in (streq (B a) (B b)) in change (streq (B a) (B b)) with v; cbv iota
         end.

Section Reading.
Context {stack : UaStack} {laws : UaStackLaws stack} {cj : CJson} {reads : CJsonReads cj} {lk : CJsonLookup cj} {cpu : Cpu}.

Lemma member_model l k : member (jmodel (TObject l)) k = option_map jmodel (lookup (B k) l).
Proof.
  unfold member, lookup. cbn [jmodel]. rewrite get_first. induction l as [|[n t] l IH]; [reflexivity|].
  cbn [map find fst]. destruct (streq n (B k)); [reflexivity|exact IH].
Qed.

Lemma text_model t : tree_ok t = true -> text_of (Some (jmodel t)) = match t with TText s => Some s | _ => None end.
Proof. destruct t; try reflexivity. intros H. cbn [jmodel text_of]. now rewrite is_text_cstr. Qed.

(** ** A typed value *)

Lemma lookup_ok k l t : members_ok l = true -> lookup k l = Some t -> tree_ok t = true.
Proof.
  unfold lookup, members_ok. intros H E. destruct (find _ l) as [m|] eqn:Ef; [|discriminate]. injection E as <-.
  apply find_some in Ef as [Hin _]. rewrite forallb_forall in H. specialize (H m Hin). now zbool.
Qed.

Lemma fold_commas acc l : acc <> [] -> fold_left (fun a x => a ++ [44] ++ x) l acc = acc ++ commas_from false l.
Proof.
  revert acc. induction l as [|x l IH]; intros acc Ha; cbn [fold_left commas_from]; [now rewrite app_nil_r|].
  rewrite IH by (destruct acc; discriminate). now rewrite <- !app_assoc.
Qed.

Lemma dims_text_from d : forall acc, acc <> [] -> Forall (fun x => 0 <= x < 2 ^ 31) d ->
  (length (acc ++ commas_from false (map fmt_u d)) <= 255)%nat ->
  dims_text acc (map number d) = Some (acc ++ commas_from false (map fmt_u d)).
Proof.
  induction d as [|x d IH]; intros acc Ha Hd Hl; cbn [map dims_text commas_from] in *.
  - rewrite app_nil_r in *. unfold snprintf. rewrite firstn_all2 by lia. reflexivity.
  - inversion Hd as [|y d' Hx Hd']; subst. assert (length acc <= 255)%nat by (rewrite length_app in Hl; lia).
    destruct (Nat.ltb_spec 256 (length acc)); [lia|].
    replace (valueint_of (number x)) with x by (cbn [number valueint_of]; unfold clamp_int; lia).
    rewrite fmt_d_u by lia. destruct acc as [|c acc]; [congruence|].
    rewrite IH; [now rewrite <- !app_assoc|discriminate|assumption|].
    rewrite <- !app_assoc in *. exact Hl.
Qed.

Lemma dims_text_commas d : Forall (fun x => 0 <= x < 2 ^ 31) d -> (length (commas (map fmt_u d)) <= 255)%nat ->
  dims_text [] (map number d) = Some (commas (map fmt_u d)).
Proof.
  intros Hd Hl. destruct d as [|x d]; [reflexivity|]. inversion Hd as [|y d' Hx Hd']; subst.
  cbn [map dims_text length Nat.ltb Nat.leb app] in *.
  replace (valueint_of (number x)) with x by (cbn [number valueint_of]; unfold clamp_int; lia).
  rewrite fmt_d_u by lia. unfold commas in *. cbn [commas_from app] in *.
  apply dims_text_from; [apply fmt_u_nonnil|assumption|assumption].
Qed.

Lemma array_literals errLen dt t l : forallb (fun x => lossless x && type_eqb (type_of x) t) l = true ->
  forall i, mapP (array_literal errLen dt) i (map jmodel (map scalar_tree l)) = PFine (map scalar_literal l).
Proof.
  induction l as [|x l IH]; [reflexivity|]. cbn [forallb map mapP]. intros H i. zbool.
  unfold array_literal at 1. destruct (scalar_canon x dt) as [-> _]; [assumption|]. cbn [pbind].
  rewrite IH by assumption. reflexivity.
Qed.

Lemma array_scalars rec errLen t l : forallb (fun x => lossless x && type_eqb (type_of x) t) l = true ->
  mapF (parse_scalar rec errLen t) (map scalar_literal l) = Some (Ok l).
Proof.
  induction l as [|x l IH]; [reflexivity|]. cbn [forallb map mapF]. intros H. zbool.
  match goal with E : type_eqb _ _ = true |- _ => apply type_eqb_eq in E; rewrite <- E at 1 end.
  rewrite scalar_parse by assumption. cbn [fbind]. now rewrite IH.
Qed.

(** The literal of an array of lossless values. *)
Definition array_text (l : list ua_value) : bytes := jtext (TList (map TText (map scalar_literal l))).

Lemma literals_text t l : forallb (fun x => lossless x && type_eqb (type_of x) t) l = true ->
  Forall (fun s => is_text s = true) (map scalar_literal l).
Proof.
  induction l as [|x l IH]; [constructor|]. cbn [forallb map]. intros H. zbool. constructor; [|auto].
  now apply (scalar_canon x []).
Qed.

Lemma split_array_text l : Forall (fun s => is_text s = true) l ->
  split_array_literal (Some (jtext (TList (map TText l)))) = Some l.
Proof.
  intros H. assert (tree_ok (TList (map TText l)) = true) as Ht.
  { cbn [tree_ok]. induction H as [|s l Hs _ IH]; [reflexivity|]. cbn [map forallb tree_ok]. now rewrite Hs. }
  assert (nesting (TList (map TText l)) < 1000)%nat as Hn.
  { cbn [nesting]. clear. induction l as [|s l IH]; cbn [map fold_right nesting]; [lia|]. lia. }
  pose proof (reads_tree _ Ht Hn) as E. unfold split_array_literal.
  change (jtext (TList (map TText l))) with (91 :: commas (map jtext (map TText l)) ++ [93]) in *.
  cbn [skip_blanks]. rewrite E. cbn [jmodel]. clear - H.
  induction H as [|s l Hs _ IH]; [reflexivity|]. cbn [map mapM array_item jmodel obind]. rewrite is_text_cstr by exact Hs.
  cbn [obind]. now rewrite IH.
Qed.

(** The dimensions as [value_parse] is given them. *)
Definition dims_arg (d : list Z) : option bytes := match d with [] => None | _ => Some (commas (map fmt_u d)) end.

Lemma array_literal_parse errLen t l d : lossless_variant (VtArray t l d) = true ->
  parse_literal errLen (label t ++ B "[]") (Some (array_text l)) (dims_arg d) = PFine (VtArray t l d).
Proof.
  intros H. cbn [lossless_variant] in H. zbool. rename H into Ht, H1 into Hl, H0 into Hd.
  destruct (label_facts t Ht) as (_ & _ & _ & _ & _ & Hs & Hlen & Hb & Hn). unfold parse_literal. cbn [value_parse].
  destruct (label t ++ B "[]") as [|c ty] eqn:E; [destruct (label t); discriminate|]. rewrite Hs, Hlen, Hb.
  unfold array_text. rewrite split_array_text by now apply (literals_text t). rewrite array_scalars by exact Hl. cbn [fbind].
  rewrite length_map. pose proof (lossless_dims_range _ _ Hd) as Hr. destruct d as [|x d]; [reflexivity|].
  cbn [dims_arg]. rewrite parse_dims_commas, dims_product_spec; [|discriminate|eapply Forall_impl; [|exact Hr]; cbn; lia].
  cbn [lossless_dims] in Hd. zbool. match goal with E : _ mod _ = _ |- _ => rewrite E end. rewrite Z.eqb_refl. reflexivity.
Qed.

(** Members in which a lookup finds those of a described Variant. *)
Definition holds_variant (l : list (bytes * jtree)) (v : ua_variant) : Prop :=
  members_ok l = true /\ forall k, In k [B "dataType"; B "value"; B "arrayDimensions"] -> lookup k l = lookup k (variant_tree v).

Lemma lookup_dims v : lookup (B "arrayDimensions") (variant_tree v) =
  if Nat.ltb 1 (length (variant_dims v)) then Some (TList (map TInt (variant_dims v))) else None.
Proof. destruct v; [reflexivity|reflexivity|]. unfold variant_tree, dims_tree. destruct (Nat.ltb 1 _); look; reflexivity. Qed.

Lemma lookup_value v : lookup (B "value") (variant_tree v) = Some (value_tree v).
Proof. destruct v; [reflexivity|reflexivity|]. unfold variant_tree, dims_tree. destruct (Nat.ltb 1 _); look; reflexivity. Qed.

Lemma lookup_type v : lookup (B "dataType") (variant_tree v) =
  Some (TText match v with VtEmpty => B "Null" | _ => variant_label v end).
Proof. now destruct v. Qed.

Lemma parse_variant errLen l v : lossless_variant v = true -> holds_variant l v ->
  parse_typed_value errLen (jmodel (TObject l)) = PFine v.
Proof.
  intros Hv [Hok Hl]. unfold parse_typed_value. rewrite !member_model.
  rewrite (Hl (B "dataType")), (Hl (B "value")), (Hl (B "arrayDimensions")) by (cbn [In]; tauto).
  rewrite lookup_type, lookup_value, lookup_dims. cbn [option_map]. destruct v as [|x|t items d].
  - reflexivity.
  - destruct (label_facts _ (lossless_typed x Hv)) as (Htext & Hnull & Hs & _).
    rewrite text_model by exact Htext. change (variant_label (VtScalar x)) with (label (type_of x)). rewrite Hnull.
    cbn [value_tree variant_dims length Nat.ltb Nat.leb option_map]. destruct (scalar_canon x (label (type_of x)) Hv) as [Hc _].
    rewrite Hs. rewrite <- (scalar_literal_parse errLen x Hv). revert Hc. unfold canon.
    destruct (jmodel (scalar_tree x)) eqn:E; intros Hc; try (rewrite Hc; reflexivity).
    destruct x; try discriminate Hv; discriminate E.
  - pose proof Hv as Ha. cbn [lossless_variant] in Hv. zbool. rename H into Ht, H1 into Hi, H0 into Hd.
    destruct (label_facts t Ht) as (Htext & Hnull & _ & Hs & _).
    rewrite text_model by exact Htext. change (variant_label (VtArray t items d)) with (label t). rewrite Hnull.
    cbn [value_tree jmodel]. rewrite (array_literals errLen (label t) t) by exact Hi. cbn [pbind variant_dims].
    rewrite Hs, prints_strings by now apply (literals_text t). fold (array_text items).
    rewrite <- (array_literal_parse errLen t items d Ha). pose proof (lossless_dims_range _ _ Hd) as Hr.
    destruct d as [|a [|b d]]; [reflexivity|cbn [lossless_dims length] in Hd; discriminate|].
    cbn [length Nat.ltb Nat.leb option_map jmodel items_of]. rewrite map_map. change (map (fun x => jmodel (TInt x))) with (map number).
    rewrite dims_text_commas; [|exact Hr|cbn [lossless_dims] in Hd; zbool; now apply Nat.leb_le].
    cbn [dims_arg]. destruct (commas (map fmt_u (a :: b :: d))) as [|c r] eqn:E; [|reflexivity].
    apply (f_equal (@length Z)) in E. unfold commas in E. cbn [map commas_from app] in E. rewrite length_app in E.
    pose proof (fmt_u_nonnil a). destruct (fmt_u a); [congruence|discriminate].
Qed.
End Reading.

(** * The tree of a description *)

(** [texts] are the printed members of the object [TObject l]. *)
Definition prints (texts : list bytes) (l : list (bytes * jtree)) : Prop :=
  texts = map member_text l /\ members_ok l = true.

Lemma prints_app a b l m : prints a l -> prints b m -> prints (a ++ b) (l ++ m).
Proof. intros [-> Hl] [-> Hm]. split; [now rewrite map_app|]. unfold members_ok in *. now rewrite forallb_app, Hl. Qed.

Lemma prints_nil : prints [] [].
Proof. now split. Qed.

Lemma prints_one key text t : forallb ascii_plain (B key) = true -> text = jtext t -> tree_ok t = true ->
  prints [J "'" ++ B key ++ J "':" ++ text] [(B key, t)].
Proof.
  intros Hk -> Ht. assert (Ascii (B key)) as Ha by (apply Forall_forall; now rewrite forallb_forall in Hk).
  split.
  - cbn [map]. unfold member_text, key_text. cbn [fst snd]. rewrite quoted_ascii by exact Ha. now rewrite <- !app_assoc.
  - unfold members_ok. cbn [forallb fst snd]. now rewrite (Ascii_text _ Ha), Ht.
Qed.

Lemma prints_tree key text t : forallb ascii_plain (B key) = true -> text = jtext t /\ tree_ok t = true ->
  prints [J "'" ++ B key ++ J "':" ++ text] [(B key, t)].
Proof. intros Hk [E Ht]. now apply prints_one. Qed.

Lemma prints_opt {A} key (f : A -> bytes) (g : A -> jtree) o : forallb ascii_plain (B key) = true ->
  (forall a, o = Some a -> f a = jtext (g a) /\ tree_ok (g a) = true) -> prints (opt_member key f o) (topt key g o).
Proof.
  intros Hk H. destruct o as [a|]; [|apply prints_nil]. destruct (H a eq_refl) as [E Ht]. cbn [opt_member topt].
  now apply prints_one.
Qed.

Lemma prints_object texts l : prints texts l -> jobject texts = jtext (TObject l) /\ tree_ok (TObject l) = true.
Proof. intros [-> Hl]. split; [reflexivity|exact Hl]. Qed.

Definition u16b : Z -> bool := in_range 0 65535.
Definition u32b : Z -> bool := in_range 0 4294967295.
Definition timeb (t : Z) : bool := (0 <=? t) && (t <? DATETIME_END).

Lemma u16_u32 n : u16b n = true -> u32b n = true.
Proof. unfold u16b, u32b, in_range. intros H. zbool. apply andb_true_intro; split; apply Z.leb_le; lia. Qed.

Lemma print_u32 n : u32b n = true -> fmt_u n = jtext (TInt n) /\ tree_ok (TInt n) = true.
Proof.
  unfold u32b, in_range. intros H. zbool. cbn [jtext tree_ok]. rewrite fmt_d_u by lia. split; [reflexivity|].
  apply andb_true_intro; split; apply Z.ltb_lt; lia.
Qed.

Lemma prints_u32 key o : forallb ascii_plain (B key) = true -> wf_opt u32b o = true ->
  prints (opt_member key fmt_u o) (topt key TInt o).
Proof. intros Hk Ho. apply prints_opt; [exact Hk|]. intros a ->. now apply print_u32. Qed.

Lemma wf_opt_impl {A} (f g : A -> bool) o : (forall x, f x = true -> g x = true) -> wf_opt f o = true -> wf_opt g o = true.
Proof. intros H. destruct o; cbn; auto. Qed.

Lemma prints_u16 key o : forallb ascii_plain (B key) = true -> wf_opt u16b o = true ->
  prints (opt_member key fmt_u o) (topt key TInt o).
Proof. intros Hk Ho. apply prints_u32; [exact Hk|]. exact (wf_opt_impl u16b u32b o u16_u32 Ho). Qed.

Lemma prints_bool key b : forallb ascii_plain (B key) = true ->
  prints [J "'" ++ B key ++ J "':" ++ bool_text b] [(B key, TBool b)].
Proof. intros Hk. now apply prints_one. Qed.

Lemma prints_name key s : forallb ascii_plain (B key) = true -> Ascii s ->
  prints [J "'" ++ B key ++ J "':" ++ J "'" ++ s ++ J "'"] [(B key, TText s)].
Proof. intros Hk Hs. apply prints_one; [exact Hk|symmetry; now apply quoted_ascii|now apply Ascii_text]. Qed.
