(* ===== verification/PubSubRoundTrip.v ===== *)
(** pubsub_codec.c, print_description and parse_description: a description is the
    text of a tree, and the parser reads the message back from that tree. *)

From Stdlib Require Import String Ascii ZArith Bool List Lia SpecFloat.
Import ListNotations.
From S2P Require Import Prelude CLib Json Float UaTypes RefStack Base64 Output CJson Values RoundTrip Args Connect Session.
From S2P Require Import HistoryEvents Codec PubSubJson JsonTree PubSubCodec PubSubDescription.

(** * Messages a description carries without loss *)

Definition described_pid (p : publisher_id_value) : bool :=
  match p with
  | PidByte n => in_range 0 255 n
  | PidUInt16 n => u16b n
  | PidUInt32 n => u32b n
  | PidUInt64 n => in_range 0 ULONG_MAX n
  | PidString (Some s) => is_text s
  | _ => false
  end.

Definition described_group (g : group_header) : bool :=
  wf_opt u16b (gh_writerGroupId g) && wf_opt u32b (gh_groupVersion g) && wf_opt u16b (gh_networkMessageNumber g)
  && wf_opt u16b (gh_sequenceNumber g).

(** Only the DataValue encoding carries status and timestamps. *)
Definition described_field (enc : field_encoding) (dv : ua_datavalue) : bool :=
  let '(DataValue v st sts sps rts rps) := dv in
  match v with None => true | Some VtEmpty => false | Some w => lossless_variant w end
  && match enc with
     | FieldDataValue => wf_opt u32b st && wf_opt timeb sts && wf_opt u16b sps && wf_opt timeb rts && wf_opt u16b rps
     | _ => negb (is_some st) && negb (is_some sts) && negb (is_some sps) && negb (is_some rts) && negb (is_some rps)
     end.

Definition described_header (h : dsm_header) : bool :=
  match dh_type h with MessageOther => false | _ => true end
  && match dh_encoding h with FieldOther => false | _ => true end
  && wf_opt u16b (dh_sequenceNr h) && wf_opt timeb (dh_timestamp h) && wf_opt u16b (dh_picoSeconds h)
  && wf_opt u16b (dh_status h) && wf_opt u32b (dh_major h) && wf_opt u32b (dh_minor h).

Definition described_dsm (m : dataset_message) : bool :=
  let enc := dh_encoding (dm_header m) in
  described_header (dm_header m) && (dm_fieldCount m <? 65536)
  && match dh_type (dm_header m), dm_keyFrame m, dm_deltaFrame m with
     | KeyFrame, l, [] => (dm_fieldCount m =? Z.of_nat (length l)) && forallb (described_field enc) l
     | DeltaFrame, [], l =>
         (dm_fieldCount m =? Z.of_nat (length l)) && forallb (fun f => u16b (fst f) && described_field enc (snd f)) l
     | (EventMessage | KeepAlive), [], [] => dm_fieldCount m =? 0
     | _, _, _ => false
     end.

Section Described.
Context {net : NetworkMessages}.

Definition described_security (s : security_header) : bool :=
  u32b (sh_securityTokenId s) && forallb is_byte (sh_nonce s)
  && Nat.leb (length (sh_nonce s)) UA_NETWORKMESSAGE_MAX_NONCE_LENGTH && wf_opt u16b (sh_footerSize s).

(** The JSON mapping has no version, payload header flag or chunk flag, and UADP
    without a payload header no writer ids. *)
Definition described (map_ : Mapping) (nm : network_message) : bool :=
  match map_ with
  | MAP_UADP => in_range 0 255 (nm_version nm) && (nm_payloadHeader nm || forallb (Z.eqb 0) (nm_writerIds nm))
  | MAP_JSON => (nm_version nm =? 1) && nm_payloadHeader nm && negb (nm_chunk nm)
  end
  && wf_opt (fun s => match s with Some t => is_text t | None => false end) (nm_messageId nm)
  && wf_opt described_pid (nm_publisherId nm) && wf_opt range_guid_b (nm_dataSetClassId nm)
  && wf_opt described_group (nm_groupHeader nm) && wf_opt timeb (nm_timestamp nm) && wf_opt u16b (nm_picoseconds nm)
  && match nm_promoted nm with
     | None => true
     | Some (n, l) => (n =? Z.of_nat (length l)) && (n <? 65536) && (0 <? n) && forallb lossless_variant l
     end
  && match nm_security nm, nm_securityFooter nm with
     | None, None => true
     | Some s, None => described_security s
     | Some s, Some ((_ :: _) as f) => described_security s && is_some (sh_footerSize s) && forallb is_byte f
     | _, _ => false
     end
  && forallb u16b (nm_writerIds nm)
  && match nm_messages nm with
     | Some l => Nat.eqb (length l) (length (nm_writerIds nm)) && Nat.leb (length l) UA_NETWORKMESSAGE_MAXMESSAGECOUNT
                 && forallb described_dsm l
     | None => false
     end.
End Described.

(** * Trees *)

Section Trees.
Context {stack : UaStack}.

Definition stamp_tree (t : Z) : jtree := TText (full_text t).

Definition status_tree (c : Z) : jtree :=
  TObject [(B "name", TText (output_status_code_name c)); (B "code", TInt c); (B "severity", TText (output_severity c))].

Definition datavalue_tree (dv : ua_datavalue) : list (bytes * jtree) :=
  let '(DataValue _ status sts sps rts rps) := dv in
  topt "statusCode" status_tree status ++ topt "sourceTimestamp" stamp_tree sts ++ topt "sourcePicoseconds" TInt sps
  ++ topt "serverTimestamp" stamp_tree rts ++ topt "serverPicoseconds" TInt rps.

(** A name that is printed: not empty. *)
Definition shown (name : ua_string) : ua_string := match name with Some ((_ :: _) as n) => Some n | _ => None end.

Definition field_tree (dv : ua_datavalue) (enc : field_encoding) (name : ua_string) (index : option Z) : list (bytes * jtree) :=
  topt "name" TText (shown name) ++ topt "index" TInt index ++ variant_tree (dv_value dv)
  ++ match enc with FieldDataValue => datavalue_tree dv | _ => [] end.

Definition fields_tree (dsm : dataset_message) (md : option (list field_meta)) (names : option (list bytes))
    : list (bytes * jtree) :=
  let h := dm_header dsm in
  match dh_type h with
  | KeyFrame => [(B "fields", TList (map (fun p => TObject (field_tree (snd p) (dh_encoding h) (field_name md names (fst p)) None))
                   (combine (seq 0 (length (dm_keyFrame dsm))) (dm_keyFrame dsm))))]
  | DeltaFrame => [(B "fields", TList (map (fun f => TObject (field_tree (snd f) (dh_encoding h) (meta_name md (fst f)) (Some (fst f))))
                   (dm_deltaFrame dsm)))]
  | _ => []
  end.

Definition version_tree (major minor : option Z) : list (bytes * jtree) :=
  match major, minor with
  | None, None => []
  | _, _ => [(B "configVersion", TObject (topt "majorVersion" TInt major ++ topt "minorVersion" TInt minor))]
  end.

Definition dsm_tree (dsm : dataset_message) (writerId : option Z) (md : option (list field_meta))
    (names : option (list bytes)) : jtree :=
  let h := dm_header dsm in
  TObject (topt "dataSetWriterId" TInt writerId
    ++ [(B "messageType", TText (message_type_name (dh_type h))); (B "fieldEncoding", TText (field_encoding_name (dh_encoding h)));
        (B "valid", TBool (dh_valid h))]
    ++ topt "sequenceNumber" TInt (dh_sequenceNr h) ++ topt "timestamp" stamp_tree (dh_timestamp h)
    ++ topt "picoseconds" TInt (dh_picoSeconds h) ++ topt "status" TInt (dh_status h)
    ++ version_tree (dh_major h) (dh_minor h) ++ fields_tree dsm md names).

Definition pid_tree (p : publisher_id_value) : jtree :=
  TObject [(B "type", TText (publisher_id_type p));
           (B "value", match p with
                       | PidByte n | PidUInt16 n | PidUInt32 n => TInt n
                       | PidUInt64 n => TText (fmt_u n)
                       | PidString s => TText (default [] s)
                       | PidOther => TNull
                       end)].

Definition group_tree (g : group_header) : jtree :=
  TObject (topt "writerGroupId" TInt (gh_writerGroupId g) ++ topt "groupVersion" TInt (gh_groupVersion g)
    ++ topt "networkMessageNumber" TInt (gh_networkMessageNumber g) ++ topt "sequenceNumber" TInt (gh_sequenceNumber g)).

Definition security_tree (s : security_header) : jtree :=
  TObject ([(B "signed", TBool (sh_signed s)); (B "encrypted", TBool (sh_encrypted s));
            (B "forceKeyReset", TBool (sh_forceKeyReset s)); (B "securityTokenId", TInt (sh_securityTokenId s));
            (B "nonce", TText (value_b64_encode (sh_nonce s)))]
    ++ topt "securityFooterSize" TInt (sh_footerSize s)).

(** The footer is part of a message with a security header. *)
Definition footer_of (nm : network_message) : ua_string :=
  match nm_security nm with Some _ => nm_securityFooter nm | None => None end.

Definition security_trees (nm : network_message) : list (bytes * jtree) :=
  topt "security" security_tree (nm_security nm) ++ topt "securityFooter" (fun f => TText (value_b64_encode f)) (footer_of nm).

Definition uadp_tree (map_ : Mapping) (l : list (bytes * jtree)) : list (bytes * jtree) :=
  match map_ with MAP_UADP => l | MAP_JSON => [] end.

Definition messages_tree (nm : network_message) (map_ : Mapping) (meta : list MetaEntry)
    (jsonNames : nat -> option (list bytes)) : list jtree :=
  map (fun p : nat * (Z * dataset_message) =>
         let '(i, (wid, dsm)) := p in
         dsm_tree dsm (if writer_ids_known map_ nm then Some wid else None) (meta_for meta wid) (jsonNames i))
    (combine (seq 0 (length (nm_writerIds nm))) (combine (nm_writerIds nm) (default [] (nm_messages nm)))).

Definition description_tree (nm : network_message) (map_ : Mapping) (meta : list MetaEntry)
    (jsonNames : nat -> option (list bytes)) : list (bytes * jtree) :=
  [(B "mapping", TText (mapping_name map_))]
  ++ uadp_tree map_ [(B "version", TInt (nm_version nm))]
  ++ topt "messageId" (fun s => TText (default [] s)) (nm_messageId nm)
  ++ topt "publisherId" pid_tree (nm_publisherId nm)
  ++ topt "dataSetClassId" (fun g => TText (guid_text g)) (nm_dataSetClassId nm)
  ++ topt "groupHeader" group_tree (nm_groupHeader nm)
  ++ uadp_tree map_ [(B "payloadHeader", TBool (nm_payloadHeader nm))]
  ++ topt "timestamp" stamp_tree (nm_timestamp nm) ++ topt "picoseconds" TInt (nm_picoseconds nm)
  ++ topt "promotedFields" (fun p : Z * list ua_variant => TList (map (fun v => TObject (variant_tree v)) (snd p))) (nm_promoted nm)
  ++ security_trees nm
  ++ uadp_tree map_ [(B "chunk", TBool (nm_chunk nm))]
  ++ [(B "messages", TList (messages_tree nm map_ meta jsonNames))].
End Trees.

(** * A description is the text of its tree *)

(** The names of the fields are C strings. *)
Definition text_name (s : ua_string) : bool := match s with Some t => is_text t | None => true end.
Definition text_fields (fields : list field_meta) : bool := forallb (fun f => text_name (fmd_name f)) fields.
Definition text_meta (meta : list MetaEntry) : bool := forallb (fun e => text_fields (me_fields e)) meta.
Definition text_names (names : option (list bytes)) : bool := wf_opt (forallb is_text) names.

Section PrintTrees.
Context {stack : UaStack} {laws : UaStackLaws stack}.

Lemma print_stamp t : timeb t = true -> print_datetime_full t = jtext (stamp_tree t) /\ tree_ok (stamp_tree t) = true.
Proof.
  unfold timeb. intros H. zbool. split; [apply print_full; lia|]. apply Ascii_text, Ascii_full. lia.
Qed.

Lemma prints_stamp key o : forallb ascii_plain (B key) = true -> wf_opt timeb o = true ->
  prints (opt_member key print_datetime_full o) (topt key stamp_tree o).
Proof. intros Hk Ho. apply prints_opt; [exact Hk|]. intros a ->. now apply print_stamp. Qed.

Lemma Ascii_status_name c : Ascii (output_status_code_name c).
Proof.
  unfold output_status_code_name. destruct (StatusCode_name c) as [[|x n]|] eqn:E; try (repeat constructor).
  - apply StatusCode_name_plain in E. inversion E; subst. unfold ascii_plain, plain.
    repeat (apply andb_true_intro; split); try apply negb_true_iff; try apply Z.leb_le; try apply Z.ltb_lt; try apply Z.eqb_neq; lia.
  - apply StatusCode_name_plain in E. inversion E as [|y l _ Hl]; subst. eapply Forall_impl; [|exact Hl].
    intros y Hy. unfold ascii_plain, plain. cbv beta in Hy.
    repeat (apply andb_true_intro; split); try apply negb_true_iff; try apply Z.leb_le; try apply Z.ltb_lt; try apply Z.eqb_neq; lia.
Qed.

Lemma Ascii_severity c : Ascii (output_severity c).
Proof. unfold output_severity. destruct (StatusCode_isGood c), (StatusCode_isUncertain c); repeat constructor. Qed.

Lemma print_status_tree c : u32b c = true -> print_status_obj c = jtext (status_tree c) /\ tree_ok (status_tree c) = true.
Proof.
  intros H. destruct (print_u32 c H) as [E1 E2]. pose proof (Ascii_status_name c) as Hn. pose proof (Ascii_severity c) as Hs.
  unfold status_tree. split.
  - unfold print_status_obj. cbn [jtext map fst snd]. rewrite !quoted_ascii by assumption. rewrite E1.
    unfold jobject, commas. cbn [commas_from app map]. repeat (rewrite <- !app_assoc; cbn [app]). reflexivity.
  - cbn [tree_ok forallb fst snd] in *. rewrite (Ascii_text _ Hn), (Ascii_text _ Hs), E2. reflexivity.
Qed.

Lemma prints_datavalue v st sts sps rts rps : wf_opt u32b st = true -> wf_opt timeb sts = true -> wf_opt u16b sps = true ->
  wf_opt timeb rts = true -> wf_opt u16b rps = true ->
  prints (datavalue_members (DataValue v st sts sps rts rps)) (datavalue_tree (DataValue v st sts sps rts rps)).
Proof.
  intros. unfold datavalue_members, datavalue_tree. repeat apply prints_app;
    [apply prints_opt; [reflexivity|intros a ->; now apply print_status_tree]|now apply prints_stamp|now apply prints_u16
    |now apply prints_stamp|now apply prints_u16].
Qed.

Lemma prints_field enc dv name index : described_field enc dv = true -> text_name name = true -> wf_opt u16b index = true ->
  prints (match name with Some ((_ :: _) as n) => [J "'name':" ++ output_json_string_len (Some n)] | _ => [] end
    ++ opt_member "index" fmt_d index ++ variant_members (dv_value dv)
    ++ match enc with FieldDataValue => datavalue_members dv | _ => [] end) (field_tree dv enc name index).
Proof.
  intros H Hn Hi. destruct dv as [v st sts sps rts rps]. cbn [described_field] in H. zbool. unfold field_tree.
  repeat apply prints_app.
  - destruct name as [[|c n]|]; try apply prints_nil. cbn [text_name shown topt] in *.
    apply (prints_one "name"); [reflexivity|now apply text_quoted|exact Hn].
  - destruct index as [i|]; [|apply prints_nil]. cbn [wf_opt] in Hi. apply (prints_one "index"); [reflexivity|reflexivity|].
    now apply print_u32, u16_u32.
  - apply variant_members_print. destruct v as [[]|]; assumption || reflexivity || discriminate.
  - destruct enc; try apply prints_nil. zbool. now apply prints_datavalue.
Qed.

Lemma print_field_tree enc dv name index : described_field enc dv = true -> text_name name = true -> wf_opt u16b index = true ->
  print_field dv enc name index = jtext (TObject (field_tree dv enc name index))
  /\ tree_ok (TObject (field_tree dv enc name index)) = true.
Proof. intros. now apply prints_object, prints_field. Qed.

(** A list of texts that are trees. *)
Lemma print_trees {A} (f : A -> bytes) (g : A -> jtree) l : (forall x, In x l -> f x = jtext (g x) /\ tree_ok (g x) = true) ->
  jarray (map f l) = jtext (TList (map g l)) /\ tree_ok (TList (map g l)) = true.
Proof.
  intros H. assert (map f l = map jtext (map g l)) as E
    by (rewrite map_map; apply map_ext_in; intros x Hx; now apply H).
  cbn [jtext tree_ok]. rewrite E. split; [reflexivity|]. apply forallb_forall. intros t Ht. apply in_map_iff in Ht as (x & <- & Hx).
  now apply H.
Qed.

Lemma field_name_text md names i : wf_opt text_fields md = true -> text_names names = true ->
  text_name (field_name md names i) = true.
Proof.
  intros Hm Hn. unfold field_name. destruct md as [fields|]; cbn [wf_opt] in Hm.
  - unfold text_fields in Hm. rewrite forallb_forall in Hm. destruct (nth_error fields i) as [f|] eqn:E.
    + apply Hm. now apply nth_error_In in E.
    + destruct names as [l|]; [|reflexivity]. cbn in Hn. rewrite forallb_forall in Hn.
      destruct (nth_error l i) as [n|] eqn:En; [|reflexivity]. apply Hn. now apply nth_error_In in En.
  - destruct names as [l|]; [|reflexivity]. cbn in Hn. rewrite forallb_forall in Hn.
    destruct (nth_error l i) as [n|] eqn:En; [|reflexivity]. apply Hn. now apply nth_error_In in En.
Qed.

Lemma meta_name_text md i : wf_opt text_fields md = true -> text_name (meta_name md i) = true.
Proof.
  intros Hm. unfold meta_name. destruct md as [fields|]; [|reflexivity]. cbn in Hm. unfold text_fields in Hm.
  rewrite forallb_forall in Hm. destruct (nth_error fields _) as [f|] eqn:E; [|reflexivity]. apply Hm. now apply nth_error_In in E.
Qed.

Lemma prints_fields dsm md names : described_dsm dsm = true -> wf_opt text_fields md = true -> text_names names = true ->
  prints (print_fields dsm md names) (fields_tree dsm md names).
Proof.
  intros H Hm Hn. unfold described_dsm in H. zbool. unfold print_fields, fields_tree, fields_member.
  destruct (dh_type (dm_header dsm)); try apply prints_nil.
  - destruct (dm_deltaFrame dsm); [|discriminate]. zbool.
    match goal with E : dm_fieldCount _ = _ |- _ => rewrite E end. rewrite Nat2Z.id, firstn_all.
    apply (prints_tree "fields"); [reflexivity|]. apply print_trees. intros [i dv] Hin. apply in_combine_r in Hin.
    apply print_field_tree; [|now apply field_name_text|reflexivity].
    match goal with E : forallb _ _ = true |- _ => rewrite forallb_forall in E; now apply E end.
  - destruct (dm_keyFrame dsm); [|discriminate]. zbool.
    match goal with E : dm_fieldCount _ = _ |- _ => rewrite E end. rewrite Nat2Z.id, firstn_all.
    apply (prints_tree "fields"); [reflexivity|]. apply print_trees. intros [i dv] Hin.
    match goal with E : forallb _ _ = true |- _ => rewrite forallb_forall in E; specialize (E _ Hin); cbn [fst snd] in E end.
    zbool. apply print_field_tree; [assumption|now apply meta_name_text|assumption].
Qed.

Lemma prints_version major minor : wf_opt u32b major = true -> wf_opt u32b minor = true ->
  prints (config_version major minor) (version_tree major minor).
Proof.
  intros H1 H2. assert (prints (opt_member "majorVersion" fmt_u major ++ opt_member "minorVersion" fmt_u minor)
    (topt "majorVersion" TInt major ++ topt "minorVersion" TInt minor)) as Hp
    by (apply prints_app; now apply prints_u32).
  apply prints_object in Hp. unfold config_version, version_tree.
  destruct major, minor; try apply prints_nil; now apply (prints_tree "configVersion").
Qed.

Lemma print_dsm_tree dsm wid md names : described_dsm dsm = true -> wf_opt u16b wid = true ->
  wf_opt text_fields md = true -> text_names names = true ->
  print_dsm dsm wid md names = jtext (dsm_tree dsm wid md names) /\ tree_ok (dsm_tree dsm wid md names) = true.
Proof.
  intros H Hw Hm Hn. pose proof (prints_fields dsm md names H Hm Hn) as Hf. unfold described_dsm, described_header in H. zbool.
  apply prints_object. repeat apply prints_app; try (now apply prints_u16); try (now apply prints_stamp);
    [|now apply prints_version|exact Hf].
  apply (prints_app [_] [_; _] [_] [_; _]); [|apply (prints_app [_] [_] [_] [_])].
  - apply (prints_name "messageType"); [reflexivity|]. destruct (dh_type _); repeat constructor.
  - apply (prints_name "fieldEncoding"); [reflexivity|]. destruct (dh_encoding _); repeat constructor.
  - now apply (prints_bool "valid").
Qed.

Lemma print_pid_tree p : described_pid p = true -> print_publisher_id p = jtext (pid_tree p) /\ tree_ok (pid_tree p) = true.
Proof.
  intros H. assert (Ascii (publisher_id_type p)) as Ha by (destruct p; repeat constructor).
  apply prints_object. apply (prints_app [_] [_] [_] [_]); [now apply (prints_name "type")|].
  apply (prints_tree "value"); [reflexivity|].
  destruct p as [n|n|n|n|s|]; cbn [described_pid publisher_id_text] in *;
    try (apply print_u32; unfold u32b, u16b, in_range in *; zbool; apply andb_true_intro; split; apply Z.leb_le; lia).
  - unfold in_range in H. zbool. assert (Ascii (fmt_u n)) as Hd by now apply Ascii_u.
    split; [symmetry; now apply quoted_ascii|now apply Ascii_text].
  - destruct s as [s|]; [|discriminate]. split; [now apply text_quoted|exact H].
  - discriminate.
Qed.

Lemma print_group_tree g : described_group g = true -> print_group_header g = jtext (group_tree g) /\ tree_ok (group_tree g) = true.
Proof.
  intros H. unfold described_group in H. zbool. apply prints_object.
  repeat apply prints_app; first [now apply prints_u16|now apply prints_u32].
Qed.

Lemma print_b64_tree l : forallb is_byte l = true ->
  print_b64 l = jtext (TText (value_b64_encode l)) /\ tree_ok (TText (value_b64_encode l)) = true.
Proof.
  intros H. assert (Ascii (value_b64_encode l)) as Ha by now apply Ascii_b64, forallb_Bytes.
  split; [symmetry; now apply quoted_ascii|now apply Ascii_text].
Qed.

Context {net : NetworkMessages}.

Lemma print_security_tree s : described_security s = true ->
  print_security s = jtext (security_tree s) /\ tree_ok (security_tree s) = true.
Proof.
  intros H. unfold described_security in H. zbool. apply prints_object. apply prints_app; [|now apply prints_u16].
  apply (prints_app [_] [_; _; _; _] [_] [_; _; _; _]); [now apply (prints_bool "signed")|].
  apply (prints_app [_] [_; _; _] [_] [_; _; _]); [now apply (prints_bool "encrypted")|].
  apply (prints_app [_] [_; _] [_] [_; _]); [now apply (prints_bool "forceKeyReset")|].
  apply (prints_app [_] [_] [_] [_]); [apply (prints_tree "securityTokenId")|apply (prints_tree "nonce")];
    [reflexivity|now apply print_u32|reflexivity|now apply print_b64_tree].
Qed.

(** The conditions of [described] by member. *)
Record described_parts (map_ : Mapping) (nm : network_message) : Prop := {
  dp_mapping : match map_ with
               | MAP_UADP => in_range 0 255 (nm_version nm) = true
                   /\ (nm_payloadHeader nm = false -> Forall (eq 0) (nm_writerIds nm))
               | MAP_JSON => nm_version nm = 1 /\ nm_payloadHeader nm = true /\ nm_chunk nm = false
               end;
  dp_messageId : forall s, nm_messageId nm = Some s -> exists t, s = Some t /\ is_text t = true;
  dp_publisherId : wf_opt described_pid (nm_publisherId nm) = true;
  dp_classId : wf_opt range_guid_b (nm_dataSetClassId nm) = true;
  dp_group : wf_opt described_group (nm_groupHeader nm) = true;
  dp_timestamp : wf_opt timeb (nm_timestamp nm) = true;
  dp_picoseconds : wf_opt u16b (nm_picoseconds nm) = true;
  dp_promoted : forall n l, nm_promoted nm = Some (n, l) ->
    n = Z.of_nat (length l) /\ 0 < n < 65536 /\ forallb lossless_variant l = true;
  dp_security : wf_opt described_security (nm_security nm) = true;
  dp_footer : forall f, nm_securityFooter nm = Some f ->
    f <> [] /\ forallb is_byte f = true /\ exists s, nm_security nm = Some s /\ sh_footerSize s <> None;
  dp_writerIds : forallb u16b (nm_writerIds nm) = true;
  dp_messages : exists l, nm_messages nm = Some l /\ length l = length (nm_writerIds nm)
    /\ (length l <= UA_NETWORKMESSAGE_MAXMESSAGECOUNT)%nat /\ forallb described_dsm l = true
}.

Lemma described_spec map_ nm : described map_ nm = true -> described_parts map_ nm.
Proof.
  unfold described. intros H. repeat (apply andb_prop in H as [H ?]).
  assert (wf_opt described_security (nm_security nm) = true /\ forall f, nm_securityFooter nm = Some f ->
    f <> [] /\ forallb is_byte f = true /\ exists s, nm_security nm = Some s /\ sh_footerSize s <> None) as [Hs Hf].
  { destruct (nm_security nm) as [s|], (nm_securityFooter nm) as [[|c f]|]; try discriminate; zbool; (split; [assumption|]);
      intros g Hg; try discriminate Hg. injection Hg as <-. repeat split; [discriminate|assumption|].
    exists s. split; [reflexivity|]. destruct (sh_footerSize s); discriminate. }
  split; try assumption.
  - destruct map_; zbool; [split; [assumption|]|auto]. intros E.
    match goal with E' : _ || _ = true |- _ => rewrite E in E'; cbn in E'; rename E' into Ha end.
    apply Forall_forall. intros x Hx. rewrite forallb_forall in Ha. now apply Z.eqb_eq, Ha.
  - intros s E. match goal with E' : wf_opt _ (nm_messageId nm) = true |- _ => rewrite E in E'; cbn in E' end.
    destruct s as [t|]; [eauto|discriminate].
  - intros n l E. match goal with E' : match nm_promoted nm with _ => _ end = true |- _ => rewrite E in E' end. zbool.
    repeat split; assumption || lia.
  - destruct (nm_messages nm) as [l|]; [|discriminate]. zbool. exists l. repeat split; try assumption;
      [now apply Nat.eqb_eq|now apply Nat.leb_le].
Qed.

Lemma meta_for_text meta wid : text_meta meta = true -> wf_opt text_fields (meta_for meta wid) = true.
Proof.
  intros H. unfold text_meta in H. rewrite forallb_forall in H. unfold meta_for.
  destruct (find _ meta) as [e|] eqn:E; [apply find_some in E as [Hin _]; now apply (H e)|].
  destruct (find (fun e => negb _) meta) as [e|] eqn:E'; [apply find_some in E' as [Hin _]; now apply (H e)|reflexivity].
Qed.

Lemma print_messages_tree map_ nm meta names : described_parts map_ nm -> text_meta meta = true ->
  (forall i, text_names (names i) = true) ->
  jarray (print_messages nm map_ meta names) = jtext (TList (messages_tree nm map_ meta names))
  /\ tree_ok (TList (messages_tree nm map_ meta names)) = true.
Proof.
  intros H Hm Hn. destruct (dp_messages _ _ H) as (l & E & _ & _ & Hl). unfold print_messages, messages_tree.
  apply print_trees. intros [i [wid dsm]] Hin. rewrite E in Hin. cbn [default] in Hin. apply in_combine_r in Hin.
  pose proof (in_combine_l _ _ _ _ Hin) as H1. apply in_combine_r in Hin.
  pose proof (dp_writerIds _ _ H) as Hw. rewrite forallb_forall in Hw, Hl.
  apply print_dsm_tree; [now apply Hl| |now apply meta_for_text|apply Hn].
  destruct (writer_ids_known map_ nm); [now apply Hw|reflexivity].
Qed.

Lemma prints_mapped map_ t l : prints t l -> prints (uadp map_ t) (uadp_tree map_ l).
Proof. intros H. destruct map_; [exact H|apply prints_nil]. Qed.

Lemma print_description_tree map_ nm meta names : described_parts map_ nm -> text_meta meta = true ->
  (forall i, text_names (names i) = true) ->
  print_description nm map_ meta names = jtext (TObject (description_tree nm map_ meta names))
  /\ tree_ok (TObject (description_tree nm map_ meta names)) = true.
Proof.
  intros H Hm Hn. apply prints_object. unfold description_tree, promoted_member.
  repeat match goal with |- prints (_ ++ _) _ => apply prints_app end.
  - apply (prints_name "mapping"); [reflexivity|]. destruct map_; repeat constructor.
  - pose proof (dp_mapping _ _ H) as Hv. destruct map_; [|apply prints_nil]. apply (prints_tree "version"); [reflexivity|].
    apply print_u32. destruct Hv as [Hv _]. unfold u32b, in_range in *. zbool. apply andb_true_intro; split; apply Z.leb_le; lia.
  - apply prints_opt; [reflexivity|]. intros s E. destruct (dp_messageId _ _ H s E) as (t & -> & Ht).
    split; [now apply text_quoted|exact Ht].
  - apply prints_opt; [reflexivity|]. intros p E. apply print_pid_tree. pose proof (dp_publisherId _ _ H) as Hp. now rewrite E in Hp.
  - apply prints_opt; [reflexivity|]. intros g E. pose proof (dp_classId _ _ H) as Hg. rewrite E in Hg.
    exact (scalar_print (VGuid g) Hg).
  - apply prints_opt; [reflexivity|]. intros g E. apply print_group_tree. pose proof (dp_group _ _ H) as Hg. now rewrite E in Hg.
  - apply prints_mapped. now apply (prints_bool "payloadHeader").
  - apply prints_stamp; [reflexivity|exact (dp_timestamp _ _ H)].
  - apply prints_u16; [reflexivity|exact (dp_picoseconds _ _ H)].
  - apply prints_opt; [reflexivity|]. intros [n l] E. destruct (dp_promoted _ _ H n l E) as (-> & _ & Hl). cbn [fst snd].
    rewrite Nat2Z.id, firstn_all. apply print_trees. intros v Hv. apply prints_object, variant_members_print.
    rewrite forallb_forall in Hl. now apply Hl.
  - unfold security_members, security_trees, footer_of. pose proof (dp_security _ _ H) as Hs. pose proof (dp_footer _ _ H) as Hf.
    destruct (nm_security nm) as [s|]; [|apply prints_nil]. cbn [wf_opt topt] in *.
    apply prints_app; [apply (prints_tree "security"); [reflexivity|now apply print_security_tree]|].
    destruct (nm_securityFooter nm) as [f|]; [|now destruct (sh_footerSize s)].
    destruct (Hf f eq_refl) as (Hne & Hb & s' & E & Hz). injection E as <-.
    destruct (sh_footerSize s) as [z|]; [|congruence]. destruct f as [|c f]; [congruence|].
    apply (prints_tree "securityFooter"); [reflexivity|now apply print_b64_tree].
  - apply prints_mapped. now apply (prints_bool "chunk").
  - apply (prints_tree "messages"); [reflexivity|]. now apply print_messages_tree.
Qed.
End PrintTrees.

(** * The parser reads the tree back *)

Section ReadTrees.
Context {stack : UaStack} {laws : UaStackLaws stack} {cj : CJson} {reads : CJsonReads cj} {lk : CJsonLookup cj} {cpu : Cpu}.

Lemma get_u32_model l key o : lookup (B key) l = option_map TInt o -> wf_opt u32b o = true ->
  get_u32 (jmodel (TObject l)) key = o.
Proof.
  intros E Ho. unfold get_u32. rewrite member_model, E. destruct o as [n|]; [|reflexivity]. cbn [option_map jmodel]. unfold number.
  f_equal. unfold wf_opt, u32b, in_range in Ho. zbool. apply cast_int_exact; lia.
Qed.

Lemma get_u16_model l key o : lookup (B key) l = option_map TInt o -> wf_opt u16b o = true ->
  get_u16 (jmodel (TObject l)) key = o.
Proof.
  intros E Ho. unfold get_u16. rewrite (get_u32_model l key o E) by exact (wf_opt_impl u16b u32b o u16_u32 Ho).
  destruct o as [n|]; [|reflexivity]. cbn. unfold wf_opt, u16b, in_range in Ho. zbool. f_equal. apply uwrap_small. lia.
Qed.

Lemma stamp_model l key o : lookup (B key) l = option_map stamp_tree o -> wf_opt timeb o = true ->
  parse_datetime_member (jmodel (TObject l)) key = Some o.
Proof.
  intros E Ho. unfold parse_datetime_member. rewrite member_model, E. destruct o as [t|]; [|reflexivity].
  cbn [option_map jmodel stamp_tree]. unfold wf_opt, timeb in Ho. zbool.
  rewrite is_text_cstr by (apply Ascii_text, Ascii_full; lia). now rewrite parse_full by lia.
Qed.

Lemma bool_model l key b : lookup (B key) l = Some (TBool b) -> is_true (member (jmodel (TObject l)) key) = b.
Proof. intros E. now rewrite member_model, E. Qed.

Lemma lookup_variant_other k v :
  streq (B "dataType") k || streq (B "builtInType") k || streq (B "arrayDimensions") k || streq (B "value") k = false ->
  lookup k (variant_tree v) = None.
Proof.
  intros H. repeat (apply orb_false_elim in H as [H ?]). unfold variant_tree, dims_tree.
  destruct v; try destruct (Nat.ltb 1 _); repeat first [rewrite lookup_app|rewrite lookup_cons];
    repeat match goal with E : streq ?a k = false |- _ => rewrite E; clear E end; reflexivity.
Qed.

Ltac look_options := repeat match goal with |- context [option_map _ ?o] => is_var o; destruct o end; try reflexivity.
Ltac look_field := unfold field_tree, datavalue_tree; look; rewrite ?lookup_variant_other by reflexivity; look_options.

Lemma field_holds dv enc name index : described_field enc dv = true -> text_name name = true -> wf_opt u16b index = true ->
  holds_variant (field_tree dv enc name index) (dv_value dv).
Proof.
  intros H Hn Hi. split; [now apply (prints_field enc dv name index)|].
  intros k Hk. destruct dv as [v st sts sps rts rps]. unfold field_tree, datavalue_tree.
  destruct Hk as [<-|[<-|[<-|[]]]]; destruct enc; look; destruct (lookup _ (variant_tree _)); reflexivity.
Qed.

Lemma described_variant enc dv : described_field enc dv = true -> lossless_variant (dv_value dv) = true.
Proof. destruct dv as [[[]|]]; cbn [described_field dv_value default]; intros H; zbool; assumption || reflexivity || discriminate. Qed.

Lemma status_model fo st : lookup (B "statusCode") fo = option_map status_tree st -> wf_opt u32b st = true ->
  field_status (jmodel (TObject fo)) = Some st.
Proof.
  intros E Hs. unfold field_status. rewrite member_model, E. destruct st as [c|]; [|reflexivity]. cbn [option_map].
  change (cJSON_IsObject (jmodel (status_tree c))) with true. cbv iota. unfold status_tree. rewrite member_model. change (lookup (B "code") _) with (Some (TInt c)). cbn [option_map jmodel]. unfold number.
  do 2 f_equal. cbn [wf_opt] in Hs. unfold u32b, in_range in Hs. zbool. apply cast_int_exact; lia.
Qed.

Lemma parse_field_tree enc dv name index errLen : described_field enc dv = true -> text_name name = true ->
  wf_opt u16b index = true -> enc <> FieldOther ->
  parse_field (jmodel (TObject (field_tree dv enc name index))) enc errLen = PFine dv.
Proof.
  intros H Hn Hi He. unfold parse_field.
  rewrite (parse_variant errLen _ _ (described_variant _ _ H) (field_holds _ _ _ _ H Hn Hi)). cbn [pbind].
  destruct dv as [v st sts sps rts rps]. cbn [described_field] in H. zbool.
  assert (match dv_value (DataValue v st sts sps rts rps) with
          | VtEmpty => None | _ => Some (dv_value (DataValue v st sts sps rts rps)) end = v) as ->
    by (destruct v as [[]|]; reflexivity || discriminate).
  destruct enc; [| | |congruence].
  - now destruct st, sts, sps, rts, rps.
  - now destruct st, sts, sps, rts, rps.
  - zbool. rewrite (status_model _ st), (stamp_model _ "sourceTimestamp" sts), (stamp_model _ "serverTimestamp" rts),
      (get_u16_model _ "sourcePicoseconds" sps), (get_u16_model _ "serverPicoseconds" rps);
      try assumption; try reflexivity; look_field.
Qed.

Lemma mapP_map {A C D} (f : nat -> C -> parsed D) (g : A -> C) (h : A -> D) l :
  (forall i x, In x l -> f i (g x) = PFine (h x)) -> forall i, mapP f i (map g l) = PFine (map h l).
Proof.
  induction l as [|x l IH]; intros H i; [reflexivity|]. cbn [map mapP]. rewrite H by now left. cbn [pbind].
  rewrite IH; [reflexivity|]. intros j y Hy. apply H. now right.
Qed.

(** ** DataSetMessages *)

Lemma version_model l major minor : lookup (B "configVersion") l = lookup (B "configVersion") (version_tree major minor) ->
  wf_opt u32b major = true -> wf_opt u32b minor = true ->
  match member (jmodel (TObject l)) "configVersion" with Some (CObject _ as cv) => get_u32 cv "majorVersion" | _ => None end = major
  /\ match member (jmodel (TObject l)) "configVersion" with Some (CObject _ as cv) => get_u32 cv "minorVersion" | _ => None end = minor.
Proof.
  intros E H1 H2. rewrite member_model, E.
  assert (forall o p, major = o -> minor = p -> o <> None \/ p <> None ->
    get_u32 (jmodel (TObject (topt "majorVersion" TInt major ++ topt "minorVersion" TInt minor))) "majorVersion" = major
    /\ get_u32 (jmodel (TObject (topt "majorVersion" TInt major ++ topt "minorVersion" TInt minor))) "minorVersion" = minor) as Hg.
  { intros o p _ _ _. split; apply get_u32_model; try assumption; look; now destruct major, minor. }
  unfold version_tree. destruct major as [a|], minor as [b|]; try (now split); rewrite lookup_cons;
    change (streq (B "configVersion") (B "configVersion")) with true; cbv iota; cbn [option_map];
    cbn [jmodel]; apply (Hg _ _ eq_refl eq_refl); [left|left|right]; discriminate.
Qed.

Lemma type_model l t : t <> MessageOther -> lookup (B "messageType") l = Some (TText (message_type_name t)) ->
  parse_enum (member (jmodel (TObject l)) "messageType") mtNames KeyFrame = Some t.
Proof. intros Ht E. rewrite member_model, E. destruct t; reflexivity || congruence. Qed.

Lemma encoding_model l e : e <> FieldOther -> lookup (B "fieldEncoding") l = Some (TText (field_encoding_name e)) ->
  parse_enum (member (jmodel (TObject l)) "fieldEncoding") feNames FieldVariant = Some e.
Proof. intros He E. rewrite member_model, E. destruct e; reflexivity || congruence. Qed.

Definition dsm_members (dsm : dataset_message) (wid : option Z) (md : option (list field_meta)) (names : option (list bytes))
  : list (bytes * jtree) := match dsm_tree dsm wid md names with TObject l => l | _ => [] end.

Lemma lookup_fields_other k dsm md names : streq (B "fields") k = false -> lookup k (fields_tree dsm md names) = None.
Proof. intros H. unfold fields_tree. destruct (dh_type _); try reflexivity; rewrite lookup_cons, H; reflexivity. Qed.

Lemma lookup_version_other k major minor : streq (B "configVersion") k = false -> lookup k (version_tree major minor) = None.
Proof. intros H. unfold version_tree. destruct major, minor; try reflexivity; rewrite lookup_cons, H; reflexivity. Qed.

Ltac look_dsm := unfold dsm_members, dsm_tree; look;
  rewrite ?lookup_fields_other by reflexivity; rewrite ?lookup_version_other by reflexivity;
  repeat match goal with |- context [option_map _ ?o] => destruct o; cbn [option_map] end; try reflexivity.

Lemma parse_header_tree dsm wid md names mi : described_dsm dsm = true ->
  parse_dsm_header mi (jmodel (dsm_tree dsm wid md names)) = PFine (dm_header dsm).
Proof.
  intros H. unfold described_dsm, described_header in H. zbool.
  change (dsm_tree dsm wid md names) with (TObject (dsm_members dsm wid md names)). unfold parse_dsm_header.
  rewrite (type_model _ (dh_type (dm_header dsm))), (encoding_model _ (dh_encoding (dm_header dsm)));
    [|destruct (dh_encoding _); discriminate|look_dsm|destruct (dh_type _); discriminate|look_dsm].
  rewrite (stamp_model _ "timestamp" (dh_timestamp (dm_header dsm))); [|look_dsm|assumption].
  destruct (version_model (dsm_members dsm wid md names) (dh_major (dm_header dsm)) (dh_minor (dm_header dsm))) as [-> ->];
    [look_dsm; destruct (lookup _ (version_tree _ _)); reflexivity|assumption|assumption|].
  rewrite (get_u16_model _ "sequenceNumber" (dh_sequenceNr (dm_header dsm))); [|look_dsm|assumption].
  rewrite (get_u16_model _ "picoseconds" (dh_picoSeconds (dm_header dsm))); [|look_dsm|assumption].
  rewrite (get_u16_model _ "status" (dh_status (dm_header dsm))); [|look_dsm|assumption].
  rewrite member_model. replace (lookup (B "valid") (dsm_members dsm wid md names)) with (Some (TBool (dh_valid (dm_header dsm)))).
  - cbn [option_map jmodel cJSON_IsTrue]. now destruct (dm_header dsm).
  - look_dsm.
Qed.

Context {net : NetworkMessages}.

(** The metadata the encoder is given for a described message. *)
Definition described_meta (wid : Z) (dsm : dataset_message) (md : option (list field_meta)) (names : option (list bytes))
    : encoding_meta :=
  {| em_writerId := wid;
     em_fields := default
       match dh_type (dm_header dsm) with
       | KeyFrame => map (fun p => field_meta_named (shown (field_name md names (fst p))) (dv_value (snd p)))
                       (combine (seq 0 (length (dm_keyFrame dsm))) (dm_keyFrame dsm))
       | _ => map (fun _ => zero_field) (dm_deltaFrame dsm)
       end md |}.

Lemma combine_maps {A C D E} (g : A -> C) (h : A -> D) (f : C * D -> E) l :
  map f (combine (map g l) (map h l)) = map (fun x => f (g x, h x)) l.
Proof. induction l as [|x l IH]; [reflexivity|]. cbn [map combine]. now rewrite IH. Qed.

Lemma combine_snd {A C} (l : list A) (m : list C) : length l = length m -> map snd (combine l m) = m.
Proof.
  revert m. induction l as [|x l IH]; intros [|y m] H; try discriminate; [reflexivity|]. cbn [combine map snd]. f_equal.
  apply IH. now injection H.
Qed.

Lemma field_meta_model dv enc name index : text_name name = true ->
  field_meta_of (jmodel (TObject (field_tree dv enc name index))) dv = field_meta_named (shown name) (dv_value dv).
Proof.
  intros Hn. unfold field_meta_of. rewrite member_model. f_equal.
  replace (lookup (B "name") (field_tree dv enc name index)) with (option_map TText (shown name)).
  - destruct name as [[|c n]|]; try reflexivity. cbn [shown option_map]. now rewrite text_model.
  - destruct dv as [v st sts sps rts rps]. unfold field_tree, datavalue_tree. look. rewrite lookup_variant_other by reflexivity.
    destruct (shown name); [reflexivity|]. cbn [option_map]. destruct index; (destruct enc; look; reflexivity || idtac);
    repeat match goal with |- context [option_map _ ?o] => destruct o; cbn [option_map] end; reflexivity.
Qed.

(** The fields of a DataSetMessage, and the metadata built from them. *)
Lemma key_fields_model mi enc md names l : forallb (described_field enc) l = true -> enc <> FieldOther ->
  wf_opt text_fields md = true -> text_names names = true ->
  let trees := map (fun p => TObject (field_tree (snd p) enc (field_name md names (fst p)) None)) (combine (seq 0 (length l)) l) in
  mapP (parse_key_field mi enc) 0 (map jmodel trees) = PFine l
  /\ map (fun p => field_meta_of (fst p) (snd p)) (combine (map jmodel trees) l)
     = map (fun p => field_meta_named (shown (field_name md names (fst p))) (dv_value (snd p))) (combine (seq 0 (length l)) l).
Proof.
  intros Hl He Hm Hn trees. assert (map snd (combine (seq 0 (length l)) l) = l) as Hs by (apply combine_snd, length_seq).
  subst trees. rewrite map_map. split.
  - rewrite (mapP_map (parse_key_field mi enc) _ snd); [now rewrite Hs|]. intros i [j dv] Hin. apply in_combine_r in Hin.
    unfold parse_key_field. rewrite parse_field_tree; [reflexivity| |now apply field_name_text|reflexivity|exact He].
    rewrite forallb_forall in Hl. now apply Hl.
  - rewrite <- Hs at 3. rewrite combine_maps. apply map_ext. intros [j dv]. cbn [fst snd].
    apply field_meta_model. now apply field_name_text.
Qed.

Lemma delta_fields_model mi enc md l : forallb (fun f => u16b (fst f) && described_field enc (snd f)) l = true ->
  enc <> FieldOther -> wf_opt text_fields md = true ->
  mapP (parse_delta_field mi enc) 0
    (map jmodel (map (fun f => TObject (field_tree (snd f) enc (meta_name md (fst f)) (Some (fst f)))) l)) = PFine l.
Proof.
  intros Hl He Hm. rewrite map_map, (mapP_map (parse_delta_field mi enc) _ (fun f => f)); [now rewrite map_id|].
  intros i [j dv] Hin. rewrite forallb_forall in Hl. specialize (Hl _ Hin). cbn [fst snd] in *. zbool. unfold parse_delta_field.
  rewrite (get_u32_model _ "index" (Some j)); [|destruct dv; look_field; destruct (shown _); reflexivity|now apply u16_u32].
  rewrite parse_field_tree; [|assumption|now apply meta_name_text|assumption|exact He]. cbn [at_field pbind].
  unfold u16b, in_range in *. zbool. unfold u16. now rewrite uwrap_small by lia.
Qed.

Lemma lookup_fields dsm wid md names : lookup (B "fields") (dsm_members dsm wid md names) = lookup (B "fields") (fields_tree dsm md names).
Proof.
  unfold dsm_members, dsm_tree. look. rewrite lookup_version_other by reflexivity.
  repeat match goal with |- context [option_map _ ?o] => destruct o; cbn [option_map] end; reflexivity.
Qed.

Lemma parse_dsm_tree meta mi dsm wid known names : described_dsm dsm = true -> u16b wid = true -> known = true \/ wid = 0 ->
  text_meta meta = true -> text_names names = true ->
  parse_dsm meta mi (jmodel (dsm_tree dsm (if known then Some wid else None) (meta_for meta wid) names))
  = PFine (wid, dsm, described_meta wid dsm (meta_for meta wid) names).
Proof.
  intros H Hw Hk Hm Hn. pose proof (meta_for_text meta wid Hm) as Hmd. set (md := meta_for meta wid) in *.
  set (id := if known then Some wid else None). unfold parse_dsm. rewrite parse_header_tree by exact H. cbn [pbind].
  change (dsm_tree dsm id md names) with (TObject (dsm_members dsm id md names)).
  assert (default 0 (get_u16 (jmodel (TObject (dsm_members dsm id md names))) "dataSetWriterId") = wid) as ->.
  { rewrite (get_u16_model _ "dataSetWriterId" id); [|look_dsm|subst id; destruct known; [exact Hw|reflexivity]].
    subst id. destruct known; [reflexivity|]. destruct Hk; [discriminate|]. now subst. }
  rewrite member_model, lookup_fields. fold md. unfold described_dsm, described_header, described_meta in *. zbool.
  assert (dh_encoding (dm_header dsm) <> FieldOther) as He by (destruct (dh_encoding _); discriminate).
  destruct dsm as [h count key delta]. cbn [dm_header dm_fieldCount dm_keyFrame dm_deltaFrame] in *. unfold fields_tree.
  cbn [dm_header dm_keyFrame dm_deltaFrame]. destruct (dh_type h); try discriminate.
  - destruct delta; [|discriminate]. zbool. rewrite lookup_cons. change (streq (B "fields") (B "fields")) with true. cbv iota.
    cbn [option_map jmodel items_of default].
    match goal with E : forallb _ key = true |- _ => destruct (key_fields_model mi _ md names key E He Hmd Hn) as [E1 E2] end.
    rewrite E1. cbn [pbind]. rewrite E2.
    rewrite !length_map, length_combine, length_seq, Nat.min_id. subst count. unfold u16. now rewrite uwrap_small by lia.
  - destruct key; [|discriminate]. zbool. rewrite lookup_cons. change (streq (B "fields") (B "fields")) with true. cbv iota.
    cbn [option_map jmodel items_of default].
    match goal with E : forallb _ delta = true |- _ => rewrite (delta_fields_model mi _ md delta E He Hmd) end.
    cbn [pbind]. rewrite !length_map, !map_map. subst count. unfold u16. now rewrite uwrap_small by lia.
  - destruct key, delta; try discriminate. zbool. subst count. reflexivity.
  - destruct key, delta; try discriminate. zbool. subst count. reflexivity.
Qed.

(** ** The members of the message *)

Lemma parse_pid_tree p : described_pid p = true -> parse_publisher_id (jmodel (pid_tree p)) = PFine p.
Proof.
  intros H. unfold parse_publisher_id, pid_tree. rewrite !member_model.
  change (lookup (B "type") _) with (Some (TText (publisher_id_type p))). rewrite lookup_cons.
  change (streq (B "type") (B "value")) with false. cbv iota. rewrite lookup_cons. change (streq (B "value") (B "value")) with true.
  cbv iota. cbn [option_map]. rewrite text_model by (destruct p; reflexivity).
  destruct p as [n|n|n|n|s|]; cbn [described_pid publisher_id_type] in *; try discriminate;
    repeat match goal with |- context [streq (B ?a) (B ?b)] =>
             let v := eval vm_compute in (streq (B a) (B b)) in change (streq (B a) (B b)) with v; cbv iota end;
    unfold u16b, u32b, in_range, ULONG_MAX in *; cbn [jmodel]; unfold number.
  - zbool. unfold to_uint8. rewrite cast_int_exact by lia. reflexivity.
  - zbool. unfold to_uint16. rewrite cast_int_exact by lia. reflexivity.
  - zbool. unfold to_uint32. rewrite cast_int_exact by lia. reflexivity.
  - zbool. rewrite is_text_cstr by now apply Ascii_text, Ascii_u. rewrite strtoul_u by (unfold ULONG_MAX; lia). reflexivity.
  - destruct s as [s|]; [|discriminate]. cbn [default]. now rewrite is_text_cstr.
Qed.

Lemma parse_group_tree g : described_group g = true -> parse_group_header (Some (jmodel (group_tree g))) = Some g.
Proof.
  intros H. unfold described_group in H. zbool. destruct g as [a b c d]. unfold group_tree. cbn [gh_writerGroupId gh_groupVersion gh_networkMessageNumber gh_sequenceNumber] in *.
  set (l := topt "writerGroupId" TInt a ++ topt "groupVersion" TInt b ++ topt "networkMessageNumber" TInt c ++ topt "sequenceNumber" TInt d).
  change (parse_group_header (Some (jmodel (TObject l)))) with
    (Some {| gh_writerGroupId := get_u16 (jmodel (TObject l)) "writerGroupId"; gh_groupVersion := get_u32 (jmodel (TObject l)) "groupVersion";
             gh_networkMessageNumber := get_u16 (jmodel (TObject l)) "networkMessageNumber";
             gh_sequenceNumber := get_u16 (jmodel (TObject l)) "sequenceNumber" |}).
  rewrite (get_u16_model l "writerGroupId" a), (get_u32_model l "groupVersion" b), (get_u16_model l "networkMessageNumber" c),
    (get_u16_model l "sequenceNumber" d); try assumption; try reflexivity; subst l; look; look_options.
Qed.

Lemma parse_class_tree o : wf_opt range_guid_b o = true ->
  parse_class_id (option_map jmodel (option_map (fun g => TText (guid_text g)) o)) = PFine o.
Proof.
  intros H. destruct o as [g|]; [|reflexivity]. cbn [wf_opt option_map] in *. unfold parse_class_id.
  rewrite text_model by now apply Ascii_text, Ascii_guid, range_guid_wf.
  change (B "Guid") with (label (type_of (VGuid g))). change (guid_text g) with (scalar_literal (VGuid g)).
  now rewrite (scalar_literal_parse 512 (VGuid g) H).
Qed.

Lemma parse_promoted_tree o : (forall n l, o = Some (n, l) -> n = Z.of_nat (length l) /\ 0 < n < 65536 /\ forallb lossless_variant l = true) ->
  parse_promoted (option_map jmodel (option_map (fun p : Z * list ua_variant =>
    TList (map (fun v => TObject (variant_tree v)) (snd p))) o)) = PFine o.
Proof.
  intros H. destruct o as [[n l]|]; [|reflexivity]. destruct (H n l eq_refl) as (-> & Hn & Hl). cbn [option_map snd jmodel].
  unfold parse_promoted. cbn [items_of]. rewrite map_map.
  destruct l as [|v l]; [cbn in Hn; lia|]. cbn [map].
  change (jmodel (TObject (variant_tree v)) :: map (fun v => jmodel (TObject (variant_tree v))) l)
    with (map (fun v => jmodel (TObject (variant_tree v))) (v :: l)).
  rewrite (mapP_map (fun _ => parse_typed_value 512) _ (fun v => v)).
  - cbn [pbind]. rewrite map_id, length_map. unfold u16. now rewrite uwrap_small by lia.
  - intros i x Hx. rewrite forallb_forall in Hl. specialize (Hl x Hx). apply parse_variant; [exact Hl|].
    split; [now apply variant_members_print|reflexivity].
Qed.

Lemma parse_nonce_tree s : described_security s = true ->
  value_b64_decode (value_b64_encode (sh_nonce s)) = Some (sh_nonce s)
  /\ Nat.leb (length (sh_nonce s)) UA_NETWORKMESSAGE_MAX_NONCE_LENGTH = true.
Proof. intros H. unfold described_security in H. zbool. split; [now apply decode_encode, forallb_Bytes|assumption]. Qed.

(** The security header and the footer, from the members of the description. *)
Lemma parse_security_tree l sec footer :
  lookup (B "security") l = option_map security_tree sec ->
  lookup (B "securityFooter") l = option_map (fun f => TText (value_b64_encode f)) (match sec with Some _ => footer | None => None end) ->
  wf_opt described_security sec = true ->
  (forall f, footer = Some f -> f <> [] /\ forallb is_byte f = true /\ exists s, sec = Some s /\ sh_footerSize s <> None) ->
  parse_security_member (jmodel (TObject l)) = PFine (sec, footer).
Proof.
  intros Hs Hf Hd Hfoot. unfold parse_security_member. rewrite !member_model, Hs, Hf. destruct sec as [s|]; cbn [option_map wf_opt] in *.
  - pose proof (parse_nonce_tree s Hd) as [Hn Hlen]. unfold described_security in Hd. zbool.
    unfold security_tree. set (m := _ ++ topt "securityFooterSize" TInt (sh_footerSize s)).
    change (jmodel (TObject m)) with (CObject (map (fun p => (fst p, jmodel (snd p))) m)). cbv iota.
    change (CObject (map (fun p => (fst p, jmodel (snd p))) m)) with (jmodel (TObject m)).
    rewrite (get_u16_model m "securityFooterSize" (sh_footerSize s)); [|subst m; look; look_options; now destruct (sh_footerSize s)|assumption].
    rewrite (get_u32_model m "securityTokenId" (Some (sh_securityTokenId s))); [|reflexivity|assumption].
    rewrite (bool_model m "signed" (sh_signed s)), (bool_model m "encrypted" (sh_encrypted s)), (bool_model m "forceKeyReset" (sh_forceKeyReset s))
      by reflexivity.
    rewrite (member_model m). change (lookup (B "nonce") m) with (Some (TText (value_b64_encode (sh_nonce s)))). cbn [option_map].
    rewrite text_model by (apply Ascii_text, Ascii_b64, forallb_Bytes; assumption). rewrite Hn, Hlen. cbn [pbind default].
    destruct footer as [f|]; cbn [option_map]; [|now destruct s].
    destruct (Hfoot f eq_refl) as (_ & Hb & s' & E & Hz). injection E as <-.
    rewrite text_model by now apply Ascii_text, Ascii_b64, forallb_Bytes. rewrite decode_encode by now apply forallb_Bytes.
    destruct s as [? ? ? ? ? [z|]]; cbn in *; [reflexivity|congruence].
  - destruct footer as [f|]; [|reflexivity]. destruct (Hfoot f eq_refl) as (_ & _ & s' & E & _). discriminate.
Qed.

(** ** The description *)

Definition described_metas (nm : network_message) (meta : list MetaEntry) (names : nat -> option (list bytes)) : list encoding_meta :=
  map (fun p : nat * (Z * dataset_message) =>
         let '(i, (wid, dsm)) := p in described_meta wid dsm (meta_for meta wid) (names i))
    (combine (seq 0 (length (nm_writerIds nm))) (combine (nm_writerIds nm) (default [] (nm_messages nm)))).

Lemma messages_model map_ nm meta names : described_parts map_ nm -> text_meta meta = true ->
  (forall i, text_names (names i) = true) ->
  exists l, nm_messages nm = Some l /\ (length (messages_tree nm map_ meta names) <= UA_NETWORKMESSAGE_MAXMESSAGECOUNT)%nat
  /\ exists rows, mapP (parse_dsm meta) 0 (map jmodel (messages_tree nm map_ meta names)) = PFine rows
     /\ map (fun r => fst (fst r)) rows = nm_writerIds nm /\ map (fun r => snd (fst r)) rows = l
     /\ map snd rows = described_metas nm meta names.
Proof.
  intros H Hm Hn. destruct (dp_messages _ _ H) as (l & El & Hlen & Hmax & Hl). exists l. split; [exact El|].
  unfold messages_tree, described_metas. rewrite El. cbn [default]. set (L := combine _ _).
  assert (map snd L = combine (nm_writerIds nm) l) as HL.
  { subst L. apply combine_snd. rewrite length_seq, length_combine. lia. }
  split; [subst L; rewrite length_map, !length_combine, length_seq; lia|].
  exists (map (fun p : nat * (Z * dataset_message) => let '(i, (wid, dsm)) := p in
            (wid, dsm, described_meta wid dsm (meta_for meta wid) (names i))) L). repeat split.
  - rewrite map_map. apply mapP_map. intros i [j [wid dsm]] Hin.
    assert (In (wid, dsm) (combine (nm_writerIds nm) l)) as Hp by (rewrite <- HL; apply (in_map snd L (j, (wid, dsm)) Hin)).
    pose proof (dp_writerIds _ _ H) as Hw. rewrite forallb_forall in Hw, Hl.
    apply parse_dsm_tree; [apply Hl; now apply in_combine_r in Hp|apply Hw; now apply in_combine_l in Hp| |exact Hm|apply Hn].
    pose proof (dp_mapping _ _ H) as Hmap. destruct map_; [|now left]. destruct Hmap as [_ Hz]. cbn [writer_ids_known].
    destruct (nm_payloadHeader nm); [now left|right]. specialize (Hz eq_refl). rewrite Forall_forall in Hz. symmetry. apply Hz.
    now apply in_combine_l in Hp.
  - rewrite map_map. transitivity (map fst (map snd L)).
    + rewrite map_map. apply map_ext. now intros [i [wid dsm]].
    + rewrite HL. clear - Hlen. revert l Hlen. induction (nm_writerIds nm) as [|x ids IH]; intros [|y l] E; try discriminate;
        [reflexivity|]. cbn [combine map fst]. f_equal. apply IH. now injection E.
  - rewrite map_map. transitivity (map snd (map snd L)).
    + rewrite map_map. apply map_ext. now intros [i [wid dsm]].
    + rewrite HL. now apply combine_snd.
  - rewrite map_map. apply map_ext. now intros [i [wid dsm]].
Qed.

Ltac look_desc := unfold description_tree, security_trees, uadp_tree; look;
  repeat match goal with |- context [option_map _ ?o] => destruct o; cbn [option_map] end; try reflexivity.

(** What the lookups of the parser find. *)
Record finds (map_ : Mapping) (nm : network_message) (messages : list jtree) (d : list (bytes * jtree)) : Prop := {
  fd_publisherId : lookup (B "publisherId") d = option_map pid_tree (nm_publisherId nm);
  fd_classId : lookup (B "dataSetClassId") d = option_map (fun g => TText (guid_text g)) (nm_dataSetClassId nm);
  fd_promoted : lookup (B "promotedFields") d = option_map (fun p : Z * list ua_variant =>
    TList (map (fun v => TObject (variant_tree v)) (snd p))) (nm_promoted nm);
  fd_messages : lookup (B "messages") d = Some (TList messages);
  fd_messageId : lookup (B "messageId") d = option_map (fun s => TText (default [] s)) (nm_messageId nm);
  fd_group : lookup (B "groupHeader") d = option_map group_tree (nm_groupHeader nm);
  fd_security : lookup (B "security") d = option_map security_tree (nm_security nm);
  fd_footer : lookup (B "securityFooter") d = option_map (fun f => TText (value_b64_encode f)) (footer_of nm);
  fd_timestamp : lookup (B "timestamp") d = option_map stamp_tree (nm_timestamp nm);
  fd_picoseconds : lookup (B "picoseconds") d = option_map TInt (nm_picoseconds nm);
  fd_version : lookup (B "version") d = match map_ with MAP_UADP => Some (TInt (nm_version nm)) | MAP_JSON => None end;
  fd_payload : lookup (B "payloadHeader") d = match map_ with MAP_UADP => Some (TBool (nm_payloadHeader nm)) | MAP_JSON => None end;
  fd_chunk : lookup (B "chunk") d = match map_ with MAP_UADP => Some (TBool (nm_chunk nm)) | MAP_JSON => None end
}.

Lemma description_finds map_ nm meta names : finds map_ nm (messages_tree nm map_ meta names) (description_tree nm map_ meta names).
Proof. split; destruct map_; look_desc. Qed.

Lemma parse_description_tree map_ nm meta names : described_parts map_ nm -> text_meta meta = true ->
  (forall i, text_names (names i) = true) ->
  parse_description (jmodel (TObject (description_tree nm map_ meta names))) map_ meta
  = PFine (nm, described_metas nm meta names).
Proof.
  intros H Hm Hn. unfold parse_description. destruct (description_finds map_ nm meta names) as [E1 E2 E3 E4 E5 E6 E7 E7' Et Ep E8 E9 E10].
  set (d := description_tree nm map_ meta names) in *.
  rewrite (stamp_model d "timestamp" _ Et (dp_timestamp _ _ H)), (get_u16_model d "picoseconds" _ Ep (dp_picoseconds _ _ H)).
  rewrite (parse_security_tree d _ _ E7 E7' (dp_security _ _ H) (dp_footer _ _ H)).
  rewrite !member_model, E1, E2, E3, E4, E5, E6, E8, E9, E10, parse_class_tree, parse_promoted_tree
    by (exact (dp_classId _ _ H) || exact (dp_promoted _ _ H)).
  assert ((match option_map jmodel (option_map pid_tree (nm_publisherId nm)) with
           | Some v => get p <- parse_publisher_id v; PFine (Some p)
           | None => PFine None
           end) = PFine (nm_publisherId nm)) as ->.
  { pose proof (dp_publisherId _ _ H) as Hp. destruct (nm_publisherId nm) as [p|]; [|reflexivity]. cbn [option_map wf_opt] in *.
    now rewrite parse_pid_tree. }
  assert (parse_group_header (option_map jmodel (option_map group_tree (nm_groupHeader nm))) = nm_groupHeader nm) as ->.
  { pose proof (dp_group _ _ H) as Hg. destruct (nm_groupHeader nm) as [g|]; [|reflexivity]. now apply parse_group_tree. }
  assert (option_map Some (text_of (option_map jmodel (option_map (fun s => TText (default [] s)) (nm_messageId nm)))) = nm_messageId nm) as ->.
  { destruct (nm_messageId nm) as [s|] eqn:E; [|reflexivity]. destruct (dp_messageId _ _ H s E) as (t & -> & Ht).
    cbn [option_map default]. now rewrite text_model. }
  cbn [pbind]. destruct (messages_model map_ nm meta names H Hm Hn) as (l & El & Hmax & rows & Er & R1 & R2 & R3).
  cbn [option_map jmodel items_of fst snd]. rewrite length_map. apply Nat.ltb_ge in Hmax. rewrite Hmax, Er. cbn [pbind].
  rewrite R1, R2, R3, <- El. do 2 f_equal. pose proof (dp_mapping _ _ H) as Hmap. clear - Hmap. destruct map_.
  - destruct Hmap as [Hv _]. cbn [option_map jmodel cJSON_IsTrue is_true]. unfold number, in_range in *. zbool.
    unfold clamp_int, u8. rewrite uwrap_small by lia. replace (Z.max _ _) with (nm_version nm) by lia. now destruct nm.
  - destruct Hmap as (Hv & Hp & Hc). cbn [option_map is_true]. destruct nm; cbn in *. now subst.
Qed.
End ReadTrees.

(** * Reading the printed text *)

Section Nesting.
Context {stack : UaStack}.

Lemma shallow_one n k t : (nesting t <= n)%nat -> shallow n [(k, t)].
Proof. intros H. constructor; [exact H|constructor]. Qed.

Lemma shallow_variant v : lossless_variant v = true -> shallow 1 (variant_tree v).
Proof.
  intros H. assert (nesting (value_tree v) <= 1)%nat as Hv.
  { destruct v as [|x|t l d]; [cbn; lia|now destruct x; cbn; try lia|]. apply nesting_list. apply Forall_map, Forall_forall.
    intros x _. destruct x; cbn; lia. }
  assert (shallow 1 (dims_tree v)) as Hd.
  { unfold dims_tree. destruct (Nat.ltb 1 _); [|constructor]. apply shallow_one, nesting_list. apply Forall_map, Forall_forall.
    intros x _. cbn. lia. }
  assert (forall k t (b : bytes), shallow 1 [(B "dataType", TText b); (k, TInt t)]) as Hh
    by (intros; apply (shallow_app 1 [_] [_]); apply shallow_one; cbn; lia).
  unfold variant_tree. destruct v; [|apply shallow_app; [apply Hh|]; apply shallow_app; [exact Hd|now apply shallow_one]..].
  apply (shallow_app 1 [_; _] [_]); [apply Hh|now apply shallow_one].
Qed.

Lemma shallow_field dv enc name index : described_field enc dv = true -> shallow 1 (field_tree dv enc name index).
Proof.
  intros H. pose proof (shallow_variant _ (described_variant enc dv H)) as Hv. unfold field_tree.
  repeat apply shallow_app; try exact Hv; try (apply shallow_topt; intros; cbn; lia).
  destruct dv as [v st sts sps rts rps], enc; try constructor. repeat apply shallow_app; apply shallow_topt; intros; cbn; lia.
Qed.

Lemma shallow_dsm dsm wid md names : described_dsm dsm = true -> (nesting (dsm_tree dsm wid md names) <= 4)%nat.
Proof.
  intros H. apply nesting_object. repeat apply shallow_app; try (apply shallow_topt; intros; cbn; lia).
  - apply (shallow_app 3 [_] [_; _]); [|apply (shallow_app 3 [_] [_])]; apply shallow_one; cbn; lia.
  - unfold version_tree. assert (nesting (TObject (topt "majorVersion" TInt (dh_major (dm_header dsm))
      ++ topt "minorVersion" TInt (dh_minor (dm_header dsm)))) <= 1)%nat.
    { apply nesting_object, shallow_app; apply shallow_topt; intros; cbn; lia. }
    destruct (dh_major _), (dh_minor _); try apply Forall_nil; apply shallow_one; lia.
  - unfold described_dsm in H. zbool. unfold fields_tree. destruct (dh_type _); try apply Forall_nil; apply shallow_one;
      apply nesting_list, Forall_map, Forall_forall; intros [i f] Hin; apply nesting_object, shallow_field; cbn [snd].
    + destruct (dm_deltaFrame dsm); [|discriminate]. zbool. apply in_combine_r in Hin.
      match goal with E : forallb _ _ = true |- _ => rewrite forallb_forall in E; now apply E end.
    + destruct (dm_keyFrame dsm); [|discriminate]. zbool.
      match goal with E : forallb _ _ = true |- _ => rewrite forallb_forall in E; specialize (E _ Hin) end. now zbool.
Qed.

Context {net : NetworkMessages}.

Lemma shallow_description map_ nm meta names : described_parts map_ nm ->
  (nesting (TObject (description_tree nm map_ meta names)) < 1000)%nat.
Proof.
  intros H. enough (nesting (TObject (description_tree nm map_ meta names)) <= 6)%nat by lia. apply nesting_object.
  unfold description_tree, security_trees. repeat apply shallow_app; try (apply shallow_topt; intros; cbn; lia);
    try (destruct map_; try apply Forall_nil; apply shallow_one; cbn; lia).
  - apply shallow_topt. intros p _. etransitivity; [apply (nesting_object 0)|lia].
    apply (shallow_app 0 [_] [_]); apply shallow_one; [cbn; lia|destruct p; cbn; lia].
  - apply shallow_topt. intros g _. etransitivity; [apply (nesting_object 0)|lia].
    repeat apply shallow_app; apply shallow_topt; intros; cbn; lia.
  - apply shallow_topt. intros [n l] E. destruct (dp_promoted _ _ H n l E) as (_ & _ & Hl). rewrite forallb_forall in Hl.
    etransitivity; [apply (nesting_list 2)|lia]. apply Forall_map, Forall_forall. intros v Hv.
    now apply nesting_object, shallow_variant, Hl.
  - apply shallow_topt. intros s _. etransitivity; [apply (nesting_object 0)|lia].
    apply shallow_app; [|apply shallow_topt; intros; cbn; lia].
    repeat (apply (shallow_app 0 [_] (_ :: _)); [apply shallow_one; cbn; lia|]). apply shallow_one. cbn. lia.
  - apply shallow_one, nesting_list. apply Forall_map, Forall_forall. intros [i [wid dsm]] Hin.
    destruct (dp_messages _ _ H) as (l & E & _ & _ & Hl). rewrite E in Hin. apply in_combine_r, in_combine_r in Hin.
    rewrite forallb_forall in Hl. now apply shallow_dsm, Hl.
Qed.
End Nesting.

(** * Theorem *)

Section Commands.
Context {stack : UaStack} {laws : UaStackLaws stack} {cj : CJson} {reads : CJsonReads cj} {lk : CJsonLookup cj}
  {nid : NodeIdOps} {tt_ : TypeTable} {len : CJsonLength} {cpu : Cpu} {net : NetworkMessages} {W : Type} {files : InputFiles W}.

Definition encode_op (map_ : Mapping) : bytes :=
  match map_ with MAP_UADP => B "pubsub-uadp-encode" | MAP_JSON => B "pubsub-json-encode" end.
Definition decode_op (map_ : Mapping) : bytes :=
  match map_ with MAP_UADP => B "pubsub-uadp-decode" | MAP_JSON => B "pubsub-json-decode" end.

(** The message of a document on the command line, without metadata. *)
Definition wire_document (map_ : Mapping) (wire : bytes) : bytes :=
  match map_ with MAP_UADP => value_b64_encode wire | MAP_JSON => wire end.
Definition decode_nm (map_ : Mapping) (wire : bytes) : Z * network_message :=
  match map_ with MAP_UADP => decodeBinary wire None | MAP_JSON => decodeJson wire None end.
Definition wire_names (map_ : Mapping) (wire : bytes) : nat -> option (list bytes) :=
  nth_names match map_ with MAP_UADP => [] | MAP_JSON => json_names_collect wire end.

(** What an encode prints for the encoder's answer. *)
Definition encode_report (w : W) (map_ : Mapping) (answer : Z * ua_string) : outcome W :=
  let '(sc, out) := answer in
  emit w (encode_op map_) map_ sc
    (if sc =? UA_STATUSCODE_GOOD
     then [J "'encoded':" ++ print_encoded map_ out; J "'length':" ++ fmt_u (Z.of_nat (str_len out))] else [])
    "encoding failed".

Lemma encode_document (w : W) map_ nm names : described map_ nm = true -> (forall i, text_names (names i) = true) ->
  cmd_codec_pubsub w [encode_op map_; B "--document"; print_description nm map_ [] names]
  = encode_report w map_ (encode_nm map_ nm (Some (described_metas nm [] names))).
Proof.
  intros H Hn. apply described_spec in H. destruct (print_description_tree map_ nm [] names H eq_refl Hn) as [Hp Ht].
  assert (cmd_codec_pubsub w [encode_op map_; B "--document"; print_description nm map_ [] names]
    = encode_description w map_ (encode_op map_) [] (print_description nm map_ [] names)) as ->.
  { destruct map_; reflexivity. }
  unfold encode_description. rewrite Hp, is_text_cstr by now apply jtext_text.
  rewrite reads_tree by (exact Ht || now apply shallow_description).
  change (jmodel (TObject ?l)) with (CObject (map (fun m => (fst m, jmodel (snd m))) l)). cbv iota.
  change (CObject (map (fun m => (fst m, jmodel (snd m))) (description_tree nm map_ [] names)))
    with (jmodel (TObject (description_tree nm map_ [] names))).
  rewrite parse_description_tree by (assumption || reflexivity). cbn [unparsed fst snd]. reflexivity.
Qed.

(** The decode prints the description of what the decoder returns. *)
Lemma decode_document (w : W) map_ wire nm : Bytes wire -> wire <> [] -> decode_nm map_ wire = (UA_STATUSCODE_GOOD, nm) ->
  exists rest, cmd_codec_pubsub w [decode_op map_; B "--document"; wire_document map_ wire]
  = emit w (decode_op map_) map_ UA_STATUSCODE_GOOD
      ((J "'networkMessage':" ++ print_description nm map_ [] (wire_names map_ wire)) :: rest) "decoding failed".
Proof.
  intros Hb Hne Hd. assert (wire_document map_ wire <> []) as Hw.
  { destruct map_; [|exact Hne]. cbn [wire_document]. intros E. apply (f_equal value_b64_decode) in E.
    rewrite decode_encode in E by exact Hb. injection E. exact Hne. }
  assert (describe w map_ (decode_op map_) [] wire = let '(rsc, re) := encode_nm map_ nm
      match map_ with MAP_UADP => None | MAP_JSON => Some (reencode_meta [] (json_names_collect wire) nm) end in
    emit w (decode_op map_) map_ UA_STATUSCODE_GOOD
      [J "'networkMessage':" ++ print_description nm map_ [] (wire_names map_ wire);
       J "'reencoded':" ++ (if rsc =? UA_STATUSCODE_GOOD then print_encoded map_ re else B "null");
       cli_print_status (B "reencodeStatusCode") rsc] "decoding failed") as Hs.
  { unfold describe, wire_names. destruct map_; cbn [decode_nm uadp_options json_options options_of] in *; rewrite Hd; reflexivity. }
  destruct (wire_document map_ wire) as [|c doc] eqn:E; [congruence|].
  assert (cmd_codec_pubsub w [decode_op map_; B "--document"; c :: doc] = describe w map_ (decode_op map_) [] wire) as ->.
  { destruct map_; cbn [wire_document] in E.
    - change (cmd_codec_pubsub w [decode_op MAP_UADP; B "--document"; c :: doc]) with
        (match value_b64_decode (cstr (c :: doc)) with
         | None => usage_error w codec_op (B "the UADP input is not Base64")
         | Some wire => describe w MAP_UADP (decode_op MAP_UADP) [] wire
         end). rewrite <- E. rewrite is_text_cstr by now apply Ascii_text, Ascii_b64. now rewrite decode_encode.
    - subst wire. reflexivity. }
  rewrite Hs. destruct (encode_nm _ _ _) as [rsc re]. eexists. reflexivity.
Qed.
End Commands.

(** C19: decoding and encoding PubSub messages are inverse on the described
    messages.  When the stack decodes a UADP or JSON NetworkMessage to [nm] (of
    scalar and array fields that are Booleans, integers, Strings, DateTimes of whole
    milliseconds, Guids, ByteStrings and NodeIds, not null; not of Float, Double,
    LocalizedText, QualifiedName, StatusCode, XmlElement, ExpandedNodeId,
    ExtensionObject or Variant; with any headers, security header, key and delta
    frames), the decode command prints a description of it, and that
    text, given to the encode command, makes it encode exactly [nm], with the
    metadata of its field names and types. *)
Theorem description_roundtrip {stack : UaStack} {laws : UaStackLaws stack} {cj : CJson} {reads : CJsonReads cj}
    {lk : CJsonLookup cj} {nid : NodeIdOps} {tt_ : TypeTable} {len : CJsonLength} {cpu : Cpu} {net : NetworkMessages}
    {W : Type} {files : InputFiles W} (w : W) map_ wire nm :
  Bytes wire -> wire <> [] -> decode_nm map_ wire = (UA_STATUSCODE_GOOD, nm) -> described map_ nm = true ->
  (forall i, text_names (wire_names map_ wire i) = true) ->
  exists text rest,
    cmd_codec_pubsub w [decode_op map_; B "--document"; wire_document map_ wire]
      = emit w (decode_op map_) map_ UA_STATUSCODE_GOOD ((J "'networkMessage':" ++ text) :: rest) "decoding failed"
    /\ cmd_codec_pubsub w [encode_op map_; B "--document"; text]
       = encode_report w map_ (encode_nm map_ nm (Some (described_metas nm [] (wire_names map_ wire)))).
Proof.
  intros Hb Hne Hd H Hn. destruct (decode_document w map_ wire nm Hb Hne Hd) as [rest Hr].
  exists (print_description nm map_ [] (wire_names map_ wire)), rest. split; [exact Hr|now apply encode_document].
Qed.

(** ** A concrete stack *)

(** The version is the first byte; the rest of the message is fixed. *)
Definition sample_message (version : Z) : network_message :=
  {| nm_version := version; nm_messageId := None; nm_publisherId := Some (PidUInt64 18446744073709551615);
     nm_dataSetClassId := Some {| data1 := 1; data2 := 2; data3 := 3; data4 := [4; 5; 6; 7; 8; 9; 10; 11] |};
     nm_groupHeader := Some {| gh_writerGroupId := Some 7; gh_groupVersion := None; gh_networkMessageNumber := None;
                               gh_sequenceNumber := Some 65535 |};
     nm_payloadHeader := true; nm_timestamp := Some 133485408001234567; nm_picoseconds := None;
     nm_promoted := Some (1, [VtScalar (VInt64 (-9))]);
     nm_security := Some {| sh_signed := true; sh_encrypted := false; sh_forceKeyReset := false; sh_securityTokenId := 4294967295;
                            sh_nonce := [1; 2; 3]; sh_footerSize := Some 2 |};
     nm_securityFooter := Some [9; 9]; nm_chunk := false; nm_writerIds := [11; 12];
     nm_messages := Some
       [{| dm_header := {| dh_type := KeyFrame; dh_encoding := FieldDataValue; dh_valid := true; dh_sequenceNr := Some 1;
                           dh_timestamp := Some 5; dh_picoSeconds := None; dh_status := None; dh_major := Some 1; dh_minor := None |};
           dm_fieldCount := 2;
           dm_keyFrame := [DataValue (Some (VtArray TInt32 [VInt32 1; VInt32 (-2); VInt32 3; VInt32 4] [2; 2])) (Some 2147483648)
                             (Some 1) None None None;
                           DataValue (Some (VtScalar (VString (Some (J "a'b"))))) None None None None (Some 3)];
           dm_deltaFrame := [] |};
        {| dm_header := {| dh_type := DeltaFrame; dh_encoding := FieldVariant; dh_valid := false; dh_sequenceNr := None;
                           dh_timestamp := None; dh_picoSeconds := None; dh_status := Some 1; dh_major := None; dh_minor := None |};
           dm_fieldCount := 1; dm_keyFrame := [];
           dm_deltaFrame := [(5, DataValue (Some (VtScalar (VBoolean true))) None None None None None)] |}] |}.

#[export] Instance ref_messages : NetworkMessages := {
  UA_NETWORKMESSAGE_MAXMESSAGECOUNT := 32;
  UA_NETWORKMESSAGE_MAX_NONCE_LENGTH := 16;
  encodeBinary nm _ := (UA_STATUSCODE_GOOD, Some [nm_version nm]);
  encodeJson nm _ := (UA_STATUSCODE_BADNOTIMPLEMENTED, None);
  decodeBinaryHeaders wire := (UA_STATUSCODE_GOOD, sample_message (hd 0 wire));
  decodeBinary wire _ := (UA_STATUSCODE_GOOD, sample_message (hd 0 wire));
  decodeJson wire _ := (UA_STATUSCODE_BADDECODINGERROR, sample_message 1);
  decode_metadata _ := (UA_STATUSCODE_BADDECODINGERROR, []);
  type_typeId _ := UA_NODEID_NULL }.

Definition tree_length : CJsonLength := {| cJSON_ParseWithLength := read_document |}.

Lemma description_roundtrip_witness :
  exists text rest,
    cmd_codec_pubsub (cj := tree_cjson) (len := tree_length) 5 [B "pubsub-uadp-decode"; B "--document"; B "AQ=="]
      = emit 5 (B "pubsub-uadp-decode") MAP_UADP UA_STATUSCODE_GOOD ((J "'networkMessage':" ++ text) :: rest) "decoding failed"
    /\ cmd_codec_pubsub (cj := tree_cjson) (len := tree_length) 5 [B "pubsub-uadp-encode"; B "--document"; text]
       = encode_report 5 MAP_UADP (UA_STATUSCODE_GOOD, Some [1]).
Proof.
  refine (description_roundtrip (cj := tree_cjson) (len := tree_length) 5 MAP_UADP [1] (sample_message 1) _ _ _ _ _).
  - repeat constructor.
  - discriminate.
  - reflexivity.
  - vm_compute. reflexivity.
  - intros i. destruct i; reflexivity.
Defined.

(** * Where the parser loses data *)

(** [arrayDimensions] that do not fit [dims] make snprintf write past it. *)
Lemma dims_overrun : parse_typed_value (cj := tree_cjson) 200
  (jmodel (TObject [(B "dataType", TText (B "Int32")); (B "value", TList []);
                    (B "arrayDimensions", TList (repeat (TInt 1000000000) 30))])) = PUndefined.
Proof. vm_compute. reflexivity. Qed.

(** A LocalizedText is cut to the 1023 bytes of the buffer, without an error. *)
Lemma localized_text_cut : parse_typed_value (cj := tree_cjson) 200
  (jmodel (TObject [(B "dataType", TText (B "LocalizedText"));
                    (B "value", TObject [(B "locale", TText (B "en")); (B "text", TText (repeat 65 1100))])]))
  = PFine (VtScalar (VLocalizedText (Some (B "en")) (Some (repeat 65 1020)))).
Proof. vm_compute. reflexivity. Qed.
