(* ===== verification/LocalDiscovery.v ===== *)
(** discovery.c: the commands [find-servers-on-network] and [register-server],
    which speak to a Local Discovery Server on a SecureChannel without a Session. *)

From Stdlib Require Import String Ascii ZArith Bool List Lia.
Import ListNotations.
From S2P Require Import Prelude CLib Certificates Json UaTypes RefStack Base64 Output CJson Values Args.
From S2P Require Import NodeIds Connect Session ReadWrite BrowseCall Historian HistoryRead Subscribe NodeServices HistoryEvents Codec.

(** * The services *)

Record server_on_network := { sn_recordId : Z; sn_serverName : ua_string; sn_discoveryUrl : ua_string;
  sn_capabilities : list ua_string }.
Record network_request := { nr_startingRecordId : Z; nr_maxRecords : Z; nr_capabilityFilter : list ua_string }.
Record network_response := { ns_status : Z; ns_lastCounterResetTime : Z; ns_servers : list server_on_network }.

Inductive ApplicationType := AppServer | AppClient | AppClientAndServer | AppDiscoveryServer.

Record registered_server := { rs_serverUri : ua_string; rs_productUri : ua_string;
  rs_serverName : ua_string * ua_string; rs_serverType : ApplicationType; rs_gatewayServerUri : ua_string;
  rs_discoveryUrls : list ua_string; rs_semaphoreFilePath : ua_string; rs_isOnline : bool }.
Record mdns_configuration := { md_serverName : ua_string; md_capabilities : list ua_string }.

Class DiscoveryServices (W : Type) := {
  Client_connectSecureChannel : W -> client_config -> bytes -> W * Z;
  Service_findServersOnNetwork : W -> network_request -> W * network_response;
  (** the service result and the configurationResults *)
  Service_registerServer2 : W -> registered_server -> mdns_configuration -> W * (Z * list Z);
  Service_registerServer : W -> registered_server -> W * Z
}.

Definition UA_STATUSCODE_BADSERVICEUNSUPPORTED : Z := 0x800B0000.

Definition MAX_REPEAT : nat := 32.

Section LocalDiscovery.
Context {stack : UaStack} {W : Type} {L : ClientLib W} {ds : DiscoveryServices W}.

(** * Arguments and the channel *)

Definition collect (argv : list bytes) (flag : bytes) (max : nat) : list bytes := firstn max (flag_values argv flag).

Definition request_ms (argv : list bytes) : Z :=
  let s := match find_arg argv (B "--request-timeout") with Some v => atoi v | None => 5 end in
  s32 ((if 0 <? s then s else 5) * 1000).

Definition cli_make_channel_client (w : W) (g : ClientSecurity) (url : bytes) (ms : Z) (op : bytes)
    : W * (client_config + failure) :=
  match make_client_unconnected w g url ms op with
  | (w, inr f) => (w, inr f)
  | (w, inl cfg) =>
      let '(w, sc) := Client_connectSecureChannel w cfg url in
      if sc =? UA_STATUSCODE_GOOD then (w, inl cfg)
      else
        let timeout := sc =? UA_STATUSCODE_BADTIMEOUT in
        (w, inr (fail op (if timeout then 7 else 3) sc (if timeout then B "timeout" else B "transport")
                   (if timeout then B "connection timed out" else B "failed to connect")))
  end.

(** The client and what the command does with it. *)
Definition with_channel (w : W) (g : ClientSecurity) (url : bytes) (ms : Z) (op : bytes) (k : W -> outcome W) : outcome W :=
  match cli_make_channel_client w g url ms op with
  | (w, inr f) => failed w f
  | (w, inl _) => k w
  end.

(** * find-servers-on-network *)

Definition network_op : bytes := B "find-servers-on-network".

Definition network_request_of (argv : list bytes) : network_request :=
  let number f := match find_arg argv f with Some s => uint32_text s | None => 0 end in
  {| nr_startingRecordId := number (B "--starting-record-id"); nr_maxRecords := number (B "--max-records");
     nr_capabilityFilter := map Some (collect argv (B "--capability") MAX_REPEAT) |}.

Definition server_item (reset : bytes) (s : server_on_network) : bytes :=
  J "{'recordId':" ++ fmt_u (sn_recordId s) ++ J ",'serverName':" ++ output_json_string_len (sn_serverName s)
  ++ J ",'discoveryUrl':" ++ output_json_string_len (sn_discoveryUrl s)
  ++ J ",'serverCapabilities':" ++ jarray (map output_json_string_len (sn_capabilities s))
  ++ match reset with [] => [] | ts => J ",'lastCounterResetTime':'" ++ ts ++ J "'" end ++ J "}".

Definition cmd_find_servers_on_network (w : W) (g : ClientSecurity) (argv : list bytes) : outcome W :=
  match find_arg argv (B "--endpoint") with
  | None => usage_error w network_op (B "missing --endpoint")
  | Some endpoint =>
      with_channel w g endpoint (request_ms argv) network_op (fun w =>
      let '(w, resp) := Service_findServersOnNetwork w (network_request_of argv) in
      let sc := ns_status resp in
      let ok := StatusCode_isGood sc in
      Exits (Client_disconnect w) (service_exit sc ok)
        (envelope network_op ok sc
          (if ok then results_of (map (server_item (output_timestamp (ns_lastCounterResetTime resp))) (ns_servers resp))
           else output_error (B "service") (B "FindServersOnNetwork failed"))))
  end.

(** * register-server *)

Definition register_op : bytes := B "register-server".

Definition register_server_usage : bytes :=
  B "usage: register-server --endpoint <lds-url> --server-uri <uri>"
  ++ B " --discovery-url <url> [--discovery-url ...] [--server-name <text>]"
  ++ B " [--product-uri <uri>] [--server-type Server|Client|ClientAndServer|DiscoveryServer]"
  ++ B " [--online true|false] [--service auto|RegisterServer2|RegisterServer]"
  ++ B " [--mdns-name <name>] [--capability <cap> ...]".

Definition parse_app_type (s : option bytes) : option ApplicationType :=
  match s with
  | None => Some AppServer
  | Some s =>
      if streq s (B "Server") then Some AppServer
      else if streq s (B "Client") then Some AppClient
      else if streq s (B "ClientAndServer") then Some AppClientAndServer
      else if streq s (B "DiscoveryServer") then Some AppDiscoveryServer
      else None
  end.

(** [want2] and [want1] of [--service] *)
Definition wanted_services (argv : list bytes) : bool * bool :=
  let service := default (B "auto") (find_arg argv (B "--service")) in
  let auto := streq service (B "auto") in
  (auto || streq service (B "RegisterServer2"), auto || streq service (B "RegisterServer")).

Definition is_online (argv : list bytes) : bool :=
  negb (match find_arg argv (B "--online") with Some s => streq s (B "false") | None => false end).

Definition server_name (argv : list bytes) (serverUri : bytes) : bytes := default serverUri (find_arg argv (B "--server-name")).

Definition registered_server_of (argv : list bytes) (serverUri : bytes) (urls : list bytes) (t : ApplicationType)
    : registered_server :=
  {| rs_serverUri := Some serverUri; rs_productUri := Some (default [] (find_arg argv (B "--product-uri")));
     rs_serverName := (Some (default (B "en") (find_arg argv (B "--server-name-locale"))), Some (server_name argv serverUri));
     rs_serverType := t; rs_gatewayServerUri := find_arg argv (B "--gateway-server-uri");
     rs_discoveryUrls := map Some urls; rs_semaphoreFilePath := find_arg argv (B "--semaphore-file");
     rs_isOnline := is_online argv |}.

Definition mdns_of (argv : list bytes) (serverUri : bytes) : mdns_configuration :=
  {| md_serverName := Some (default (server_name argv serverUri) (find_arg argv (B "--mdns-name")));
     md_capabilities := map Some (collect argv (B "--capability") MAX_REPEAT) |}.

(** The answers of RegisterServer2 after which RegisterServer is tried. *)
Definition unsupported (sc : Z) : bool :=
  (sc =? UA_STATUSCODE_BADSERVICEUNSUPPORTED) || (sc =? UA_STATUSCODE_BADNOTIMPLEMENTED)
  || (sc =? UA_STATUSCODE_BADNOTSUPPORTED).

(** What the two calls left: the service that counts ([true]: RegisterServer2), its
    status, the fallback flag, the status of RegisterServer2 and its results. *)
Record registration := { rg_second : bool; rg_status : Z; rg_fallback : bool; rg_status2 : Z; rg_results : list Z }.

Definition register_services (w : W) (want2 want1 : bool) (rs : registered_server) (mdns : mdns_configuration)
    : W * registration :=
  let '(w, (sc2, results)) := if want2 then Service_registerServer2 w rs mdns else (w, (UA_STATUSCODE_GOOD, [])) in
  if want1 && (negb want2 || unsupported sc2) then
    let '(w, sc) := Service_registerServer w rs in
    (w, {| rg_second := false; rg_status := sc; rg_fallback := want2; rg_status2 := sc2; rg_results := results |})
  else (w, {| rg_second := want2; rg_status := sc2; rg_fallback := false; rg_status2 := sc2; rg_results := results |}).

Definition service_name (second : bool) : bytes := if second then B "RegisterServer2" else B "RegisterServer".

Definition config_result (c : Z) : bytes :=
  J "{'name':'" ++ output_status_code_name c ++ J "','code':" ++ fmt_u c ++ J ",'severity':'" ++ output_severity c ++ J "'}".

Definition registration_ok (r : registration) : bool :=
  StatusCode_isGood (rg_status r) && (negb (rg_second r) || forallb StatusCode_isGood (rg_results r)).

Definition registration_item (serverUri : bytes) (online want2 : bool) (r : registration) : bytes :=
  J "{'service':'" ++ service_name (rg_second r) ++ J "','serverUri':" ++ output_json_string (Some serverUri)
  ++ J ",'isOnline':" ++ (if online then B "true" else B "false") ++ J ","
  ++ hev_print_status "statusCode" (rg_status r)
  ++ J ",'fallback':" ++ (if rg_fallback r then B "true" else B "false")
  ++ (if want2 then J "," ++ hev_print_status "registerServer2StatusCode" (rg_status2 r) else [])
  ++ J ",'configurationResults':" ++ jarray (if rg_second r then map config_result (rg_results r) else []) ++ J "}".

Definition registration_error (ok second : bool) : bytes :=
  if ok then output_null_error
  else J ",'error':{'category':'service','message':'" ++ service_name second ++ J " failed'}".

Definition cmd_register_server (w : W) (g : ClientSecurity) (argv : list bytes) : outcome W :=
  match find_arg argv (B "--endpoint"), find_arg argv (B "--server-uri"), collect argv (B "--discovery-url") MAX_REPEAT with
  | Some endpoint, Some serverUri, ((_ :: _) as urls) =>
      let '(want2, want1) := wanted_services argv in
      match (if want1 || want2 then parse_app_type (find_arg argv (B "--server-type")) else None) with
      | None => usage_error w register_op (B "invalid --service or --server-type")
      | Some appType =>
          with_channel w g endpoint (request_ms argv) register_op (fun w =>
          let '(w, r) := register_services w want2 want1 (registered_server_of argv serverUri urls appType)
                           (mdns_of argv serverUri) in
          let ok := registration_ok r in
          Exits (Client_disconnect w) (service_exit (rg_status r) ok)
            (envelope register_op ok (rg_status r)
               (output_open_results ++ registration_item serverUri (is_online argv) want2 r ++ output_close_results
                ++ registration_error ok (rg_second r))))
      end
  | _, _, _ => usage_error w register_op register_server_usage
  end.
End LocalDiscovery.

(** * Laws *)

Definition wf_server (s : server_on_network) : bool :=
  (0 <=? sn_recordId s) && wf_str (sn_serverName s) && wf_str (sn_discoveryUrl s) && forallb wf_str (sn_capabilities s).

Class DiscoveryServicesLaws {W : Type} (ds : DiscoveryServices W) := {
  channel_status : forall w c u, 0 <= snd (Client_connectSecureChannel w c u) < 2 ^ 32;
  network_wf : forall w r, let resp := snd (Service_findServersOnNetwork w r) in
    0 <= ns_status resp < 2 ^ 32 /\ forallb wf_server (ns_servers resp) = true;
  register2_wf : forall w s m, let r := snd (Service_registerServer2 w s m) in
    0 <= fst r < 2 ^ 32 /\ Forall (Z.le 0) (snd r);
  register1_wf : forall w s, 0 <= snd (Service_registerServer w s) < 2 ^ 32
}.

Section Lemmas.
Context {stack : UaStack} {laws : UaStackLaws stack} {W : Type} {L : ClientLib W} {libLaws : ClientLibLaws L}
  {ds : DiscoveryServices W} {dsLaws : DiscoveryServicesLaws ds}.

Lemma channel_failure w g url ms op w' f : text_args g op ->
  cli_make_channel_client w g url ms op = (w', inr f) -> good_failure op f.
Proof.
  intros Ht. unfold cli_make_channel_client. destruct (make_client_unconnected w g url ms op) as [w1 [cfg|f1]] eqn:E.
  2:{ intros H. injection H as <- <-. eapply unconnected_failure; eauto. }
  pose proof (channel_status w1 cfg url) as Hs. destruct (Client_connectSecureChannel w1 cfg url) as [w2 sc]. cbn [snd] in Hs.
  destruct (sc =? UA_STATUSCODE_GOOD); [discriminate|]. intros H. apply (fail_eq _ _ _ _ _ H). destruct Ht as (Ho & _ & _).
  destruct (sc =? UA_STATUSCODE_BADTIMEOUT); apply good_fail; auto using Bytes_B; try lia; cbn; tauto.
Qed.

Lemma with_channel_reports w g url ms op k : text_args g op -> (forall w1, ends_reporting op (k w1)) ->
  ends_reporting op (with_channel w g url ms op k).
Proof.
  intros Ht Hk. unfold with_channel. destruct (cli_make_channel_client w g url ms op) as [w1 [cfg|f]] eqn:E; [apply Hk|].
  eexists _, _, _. split; [reflexivity|]. eapply reports_failure, channel_failure; eauto.
Qed.

Lemma JValue_server reset s : wf_server s = true -> JBody reset -> JValue (server_item reset s).
Proof.
  unfold wf_server. rewrite !andb_true_iff, Z.leb_le. intros [[[Hi Hn] Hu] Hc] Hr. unfold server_item.
  assert (JValue (fmt_u (sn_recordId s))) by auto using JValue_u.
  assert (JValue (output_json_string_len (sn_serverName s))) by now apply JValue_output_len.
  assert (JValue (output_json_string_len (sn_discoveryUrl s))) by now apply JValue_output_len.
  assert (JValue (jarray (map output_json_string_len (sn_capabilities s)))) as Ha.
  { apply JValue_array, Forall_map, Forall_forall. intros x Hx. rewrite forallb_forall in Hc. apply JValue_output_len. auto. }
  destruct reset as [|c r] eqn:E; [|rewrite <- E in *]; jvalue.
Qed.

Lemma network_reports w g argv : text_args g network_op ->
  ends_reporting network_op (cmd_find_servers_on_network w g argv).
Proof.
  intros Hg. unfold cmd_find_servers_on_network.
  destruct (find_arg argv (B "--endpoint")) as [url|]; [|apply ends_usage; apply Bytes_B].
  apply with_channel_reports; [exact Hg|]. intros w1. destruct (network_wf w1 (network_request_of argv)) as [Hs Hw].
  destruct (Service_findServersOnNetwork w1 (network_request_of argv)) as [w2 resp]. cbn [fst snd] in *.
  eexists _, _, _. split; [reflexivity|]. apply reports_service; [apply Bytes_B|lia| |lia].
  destruct (StatusCode_isGood (ns_status resp)); [|apply JRest_error; apply Bytes_B].
  apply JRest_results, Forall_map, Forall_forall. intros s Hin. rewrite forallb_forall in Hw.
  apply JValue_server; [auto|apply JBody_timestamp].
Qed.

Lemma JValue_config c : 0 <= c -> JValue (config_result c).
Proof.
  intros H. unfold config_result. assert (JValue (fmt_u c)) by auto using JValue_u.
  pose proof (JBody_status_name c). pose proof (JBody_severity c). jvalue.
Qed.

Lemma JBody_service_name b : JBody (service_name b).
Proof. destruct b; unfold service_name; jbody. Qed.

Lemma JValue_registration uri online want2 r : Bytes uri -> 0 <= rg_status r -> 0 <= rg_status2 r ->
  Forall (Z.le 0) (rg_results r) -> JValue (registration_item uri online want2 r).
Proof.
  intros Hu H1 H2 Hr. unfold registration_item, hev_print_status.
  pose proof (JBody_service_name (rg_second r)) as Hn.
  assert (JValue (output_json_string (Some uri))) by now apply (JValue_json_string (Some uri)).
  pose proof (JValue_status _ H1). pose proof (JValue_status _ H2).
  assert (forall b : bool, JValue (if b then B "true" else B "false")) as Hb by exact JValue_bool.
  pose proof (Hb online). pose proof (Hb (rg_fallback r)). clear Hb.
  assert (JValue (jarray (if rg_second r then map config_result (rg_results r) else []))) as Ha.
  { apply JValue_array. destruct (rg_second r); [|constructor]. apply Forall_map. revert Hr. apply Forall_impl. apply JValue_config. }
  destruct want2; jvalue.
Qed.

Lemma JRest_registration item ok second : JValue item ->
  JRest (output_open_results ++ item ++ output_close_results ++ registration_error ok second).
Proof.
  intros Hi. pose proof (JBody_service_name second). split; [reflexivity|].
  unfold registration_error, output_open_results, output_close_results. destruct ok; jwalk.
Qed.

Lemma register_services_wf w want2 want1 rs mdns : let r := snd (register_services w want2 want1 rs mdns) in
  0 <= rg_status r < 2 ^ 32 /\ 0 <= rg_status2 r /\ Forall (Z.le 0) (rg_results r).
Proof.
  unfold register_services. set (c := if want2 then _ else _).
  assert (0 <= fst (snd c) < 2 ^ 32 /\ Forall (Z.le 0) (snd (snd c))) as [H2 Hr].
  { unfold c. destruct want2; [apply register2_wf|]. cbn. unfold UA_STATUSCODE_GOOD. split; [lia|constructor]. }
  destruct c as [w1 [sc2 results]]. cbn [fst snd] in *. destruct (want1 && _); [|cbn; repeat split; auto; lia].
  pose proof (register1_wf w1 rs) as H1. destruct (Service_registerServer w1 rs) as [w2 sc]. cbn in *. repeat split; auto; lia.
Qed.

Lemma register_server_reports w g argv : text_argv argv -> text_args g register_op ->
  ends_reporting register_op (cmd_register_server w g argv).
Proof.
  intros Ht Hg. unfold cmd_register_server.
  assert (Bytes register_server_usage) by (unfold register_server_usage; auto 7 using Bytes_cat, Bytes_B).
  destruct (find_arg argv (B "--endpoint")) as [url|]; [|apply ends_usage; [apply Bytes_B|auto using Bytes_B]].
  destruct (find_arg argv (B "--server-uri")) as [uri|] eqn:Eu; [|apply ends_usage; [apply Bytes_B|auto using Bytes_B]].
  destruct (collect _ _ _) as [|u urls]; [apply ends_usage; [apply Bytes_B|auto using Bytes_B]|].
  destruct (wanted_services argv) as [want2 want1].
  destruct (if want1 || want2 then _ else _) as [t|]; [|apply ends_usage; [apply Bytes_B|auto using Bytes_B]].
  apply with_channel_reports; [exact Hg|]. intros w1. set (rs := registered_server_of _ _ _ _). set (md := mdns_of _ _).
  destruct (register_services_wf w1 want2 want1 rs md) as (H1 & H2 & H3).
  destruct (register_services w1 want2 want1 rs md) as [w2 r]. cbn [fst snd] in *.
  eexists _, _, _. split; [reflexivity|]. apply reports_status; [apply Bytes_B|lia| |].
  - apply JRest_registration, JValue_registration; try assumption; [exact (find_arg_Bytes _ _ _ Ht Eu)|lia].
  - unfold registration_ok. intros Hk. now apply andb_prop in Hk.
Qed.
End Lemmas.

(** * Registration with a Local Discovery Server *)

(** What an LDS promises: its registry by server URI, in which a Good answer of
    either service puts an online server and from which it takes an offline one;
    closing the channel leaves the registry alone. *)
Class Lds {stack : UaStack} {W : Type} (L : ClientLib W) (ds : DiscoveryServices W) := {
  lds_registry : W -> ua_string -> option registered_server;
  lds_disconnect : forall w u, lds_registry (Client_disconnect w) u = lds_registry w u;
  lds_register2 : forall w s m, StatusCode_isGood (fst (snd (Service_registerServer2 w s m))) = true ->
    lds_registry (fst (Service_registerServer2 w s m)) (rs_serverUri s) = if rs_isOnline s then Some s else None;
  lds_register1 : forall w s, StatusCode_isGood (snd (Service_registerServer w s)) = true ->
    lds_registry (fst (Service_registerServer w s)) (rs_serverUri s) = if rs_isOnline s then Some s else None
}.

Section Registration.
Context {stack : UaStack} {laws : UaStackLaws stack} {W : Type} {L : ClientLib W} {ds : DiscoveryServices W} {lds : Lds L ds}.

(** The registry after [register-server] with these flags. *)
Definition registered (w : W) (argv : list bytes) : Prop :=
  exists uri urls t, find_arg argv (B "--server-uri") = Some uri /\ collect argv (B "--discovery-url") MAX_REPEAT = urls /\
    urls <> [] /\ parse_app_type (find_arg argv (B "--server-type")) = Some t /\
    lds_registry w (Some uri) = if is_online argv then Some (registered_server_of argv uri urls t) else None.

Lemma register_services_registered w want2 want1 rs mdns : want1 || want2 = true ->
  let r := register_services w want2 want1 rs mdns in StatusCode_isGood (rg_status (snd r)) = true ->
  lds_registry (fst r) (rs_serverUri rs) = if rs_isOnline rs then Some rs else None.
Proof.
  intros Hw. unfold register_services. pose proof (lds_register2 w rs mdns) as H2.
  destruct want2; cbn [negb orb].
  - destruct (Service_registerServer2 w rs mdns) as [w1 [sc2 results]]. cbn [fst snd] in H2.
    destruct (want1 && unsupported sc2); [|exact H2]. pose proof (lds_register1 w1 rs) as H1.
    now destruct (Service_registerServer w1 rs) as [w2 sc].
  - rewrite orb_false_r in Hw. subst want1. cbn [andb orb]. pose proof (lds_register1 w rs) as H1.
    now destruct (Service_registerServer w rs) as [w2 sc].
Qed.

Lemma failure_exit_nonzero w g url ms op w1 f : make_client_unconnected w g url ms op = (w1, inr f) -> f_exit f <> 0.
Proof.
  unfold make_client_unconnected. destruct (negb _); [intros H; now injection H as _ <-|].
  destruct (if _ <=? 0 then _ else _) as [w2 [found sc]]. destruct (negb found).
  { destruct (negb _); intros H; now injection H as _ <-. }
  destruct (Client_new w2) as [w3 ok]. destruct (negb ok); [intros H; now injection H as _ <-|].
  destruct (security_is_none g); [discriminate|]. destruct (security_config w3 g op) as [[[p a]|m] s]; [discriminate|].
  intros H. now injection H as _ <-.
Qed.

Lemma with_channel_zero w g url ms op k w' out : with_channel w g url ms op k = Exits w' 0 out ->
  exists w1, k w1 = Exits w' 0 out.
Proof.
  unfold with_channel. destruct (cli_make_channel_client w g url ms op) as [w1 [cfg|f]] eqn:E; [eauto|].
  intros H. exfalso. assert (f_exit f = 0) as Hz by now injection H. revert E. unfold cli_make_channel_client.
  destruct (make_client_unconnected w g url ms op) as [w2 [cfg|f1]] eqn:Eu.
  - destruct (Client_connectSecureChannel w2 cfg url) as [w3 sc]. destruct (sc =? _); [discriminate|].
    intros Hf. injection Hf as _ <-. revert Hz. cbn [f_exit fail]. destruct (sc =? _); discriminate.
  - intros Hf. injection Hf as _ ->. now apply failure_exit_nonzero in Eu.
Qed.

End Registration.

(** * A discovery server that only implements RegisterServer *)

(** The world is the registry, newest first. *)
#[export] Instance lds_client : ClientLib (list registered_server) := {
  Client_new w := (w, true);
  Client_getEndpoints w _ := (w, (UA_STATUSCODE_GOOD,
    [{| ep_url := None; ep_policyUri := Some (policy_prefix ++ B "None"); ep_mode := ModeNone |}]));
  Client_connect w _ _ := (w, UA_STATUSCODE_GOOD);
  Client_disconnect w := w;
  Client_readServerArray w := (w, (UA_STATUSCODE_GOOD, []));
  Client_run_iterate w _ := w;
  Client_getState _ := (ChClosed, SsOther, UA_STATUSCODE_GOOD);
  Client_startListening w _ _ _ := (w, UA_STATUSCODE_GOOD);
  mono_ms w := (w, 0);
  file_bytes _ _ := None;
  x509_names := no_certificates;
  setDefaultEncryption _ _ _ := (UA_STATUSCODE_GOOD, [], []);
  decryptPrivateKey k := (UA_STATUSCODE_GOOD, k);
  ecc_ctor _ _ _ := UA_STATUSCODE_GOOD }.

Definition same_uri (u : ua_string) (s : registered_server) : bool :=
  match u, rs_serverUri s with
  | Some a, Some b => streq a b
  | None, None => true
  | _, _ => false
  end.

#[export] Instance lds_services : DiscoveryServices (list registered_server) := {
  Client_connectSecureChannel w _ _ := (w, UA_STATUSCODE_GOOD);
  Service_findServersOnNetwork w _ := (w, {| ns_status := UA_STATUSCODE_GOOD; ns_lastCounterResetTime := 0; ns_servers := [] |});
  Service_registerServer2 w _ _ := (w, (UA_STATUSCODE_BADSERVICEUNSUPPORTED, []));
  Service_registerServer w s :=
    (if rs_isOnline s then s :: w else filter (fun x => negb (same_uri (rs_serverUri s) x)) w, UA_STATUSCODE_GOOD) }.

Lemma same_uri_refl s : same_uri (rs_serverUri s) s = true.
Proof. unfold same_uri. destruct (rs_serverUri s) as [u|]; [now apply streq_eq|reflexivity]. Qed.

#[export] Instance lds_contract : Lds lds_client lds_services.
Proof.
  refine {| lds_registry := fun w u => find (same_uri u) w |}; [reflexivity| |].
  - intros w s m. discriminate.
  - intros w s _. cbn [Service_registerServer lds_services fst]. destruct (rs_isOnline s).
    + cbn [find]. now rewrite same_uri_refl.
    + destruct (find (same_uri (rs_serverUri s)) (filter _ w)) as [x|] eqn:E; [|reflexivity].
      apply find_some in E as [Hin Hs]. apply filter_In in Hin as [_ Hn]. now rewrite Hs in Hn.
Defined.

Definition register_argv : list bytes :=
  [B "register-server"; B "--endpoint"; B "opc.tcp://lds:4840"; B "--server-uri"; B "urn:s"; B "--discovery-url"; B "opc.tcp://s"].

