(* ===== verification/P12Json.v ===== *)
(** part12.c: the JSON builder [P12Json] that push and gds-pull write their result
    into, with its growing buffer and its out-of-memory flag.  What each operation
    appends is stated with the relation [Writes]; NodeIds come out as output.c
    prints them. *)

From Stdlib Require Import String Ascii ZArith Bool List Lia.
Import ListNotations.
From S2P Require Import Prelude CLib Json UaTypes RefStack Base64 Output CJson Values RoundTrip.

(** * The buffer *)

(** Whether [malloc] or [realloc] of so many bytes succeeds. *)
Class Heap := { alloc_ok : Z -> bool }.

(** [j_buf] is [buf] up to [len], without the terminating NUL; [None] is NULL. *)
Record P12Json := { j_buf : option bytes; j_cap : Z; j_first : bool; j_oom : bool }.

Definition j_text (j : P12Json) : bytes := default [] (j_buf j).
Definition j_len (j : P12Json) : Z := Z.of_nat (length (j_text j)).

Definition p12j_init : P12Json := {| j_buf := None; j_cap := 0; j_first := true; j_oom := false |}.

Definition set_first (b : bool) (j : P12Json) : P12Json :=
  {| j_buf := j_buf j; j_cap := j_cap j; j_first := b; j_oom := j_oom j |}.
Definition set_oom (j : P12Json) : P12Json :=
  {| j_buf := j_buf j; j_cap := j_cap j; j_first := j_first j; j_oom := true |}.
Definition set_buf (t : bytes) (cap : Z) (j : P12Json) : P12Json :=
  {| j_buf := Some t; j_cap := cap; j_first := j_first j; j_oom := j_oom j |}.

(** [while (cap < need) cap *= 2]; [Z.log2_up need] rounds are enough. *)
Fixpoint double_until (fuel : nat) (cap need : Z) : Z :=
  match fuel with
  | O => cap
  | S f => if cap <? need then double_until f (cap * 2) need else cap
  end.

Section Builder.
Context {stack : UaStack} {heap : Heap}.

Definition p12j_append (j : P12Json) (s : bytes) : P12Json :=
  if j_oom j then j
  else
    let need := j_len j + Z.of_nat (length s) + 1 in
    if j_cap j <? need then
      let cap := double_until (Z.to_nat (Z.log2_up need)) (if j_cap j =? 0 then 1024 else j_cap j) need in
      if alloc_ok cap then set_buf (j_text j ++ s) cap j else set_oom j
    else set_buf (j_text j ++ s) (j_cap j) j.

(** The argument is a C string. *)
Definition p12j_raw (j : P12Json) (s : bytes) : P12Json := p12j_append j s.

(** [s] is what the format prints; longer texts than [tmp] take a buffer of their own. *)
Definition p12j_printf (j : P12Json) (s : bytes) : P12Json :=
  if Nat.ltb (length s) 256 then p12j_append j s
  else if alloc_ok (Z.of_nat (length s) + 1) then p12j_append j s else set_oom j.

Definition p12j_str (j : P12Json) (data : bytes) : P12Json :=
  p12j_raw (fold_left (fun j c => p12j_append j (json_escape c)) data (p12j_raw j (J "'"))) (J "'").

Definition p12j_cstr (j : P12Json) (s : option bytes) : P12Json :=
  match s with None => p12j_raw j (B "null") | Some s => p12j_str j (cstr s) end.

Definition p12j_uastr (j : P12Json) (s : ua_string) : P12Json :=
  match s with None => p12j_raw j (B "null") | Some d => p12j_str j d end.

Definition p12j_sep (j : P12Json) : P12Json :=
  set_first false (if j_first j then j else p12j_raw j (B ",")).

Definition p12j_key (j : P12Json) (key : string) : P12Json :=
  p12j_raw (p12j_cstr (p12j_sep j) (Some (B key))) (B ":").

Definition p12j_open (j : P12Json) (c : Z) : P12Json := set_first true (p12j_raw j [c]).
Definition p12j_close (j : P12Json) (c : Z) : P12Json := set_first false (p12j_raw j [c]).

Fixpoint b64_groups (j : P12Json) (data : bytes) : P12Json :=
  match data with
  | [] => j
  | [a] => p12j_append j (b64_quad a None None)
  | [a; b] => p12j_append j (b64_quad a (Some b) None)
  | a :: b :: c :: r => b64_groups (p12j_append j (b64_quad a (Some b) (Some c))) r
  end.

(** The loop does not run for a NULL [data]. *)
Definition p12j_b64 (j : P12Json) (data : ua_string) : P12Json :=
  p12j_raw (b64_groups (p12j_raw j (J "'")) (default [] data)) (J "'").

Definition p12j_nodeid (j : P12Json) (id : ua_nodeid) : P12Json :=
  let ns := fmt_u (namespaceIndex id) in
  match identifier id with
  | IdNumeric n =>
      p12j_cstr j (Some (snprintf 128 (if namespaceIndex id =? 0 then B "i=" ++ fmt_u n
                                       else B "ns=" ++ ns ++ B ";i=" ++ fmt_u n)))
  | IdString s =>
      let full := B "ns=" ++ ns ++ B ";s=" ++ default [] s in
      if alloc_ok (Z.of_nat (length full) + 1) then p12j_str j full else set_oom j
  | IdGuid g => p12j_cstr j (Some (snprintf 128 (B "ns=" ++ ns ++ B ";g=" ++ guid_text g)))
  | IdByteString s =>
      let b := p12j_b64 p12j_init s in
      let j := p12j_raw j (snprintf 128 (J "'ns=" ++ ns ++ B ";b=")) in
      let j := match j_buf b with
               | Some ((_ :: ((_ :: _) as r))) => p12j_append j r
               | _ => p12j_raw j (J "'")
               end in
      if j_oom b then set_oom j else j
  | IdOther => p12j_cstr j (Some (B "i=0"))
  end.

Definition p12j_status (j : P12Json) (sc : Z) : P12Json :=
  set_first false (p12j_printf j
    (J "{'name':'" ++ output_status_code_name sc ++ J "','code':" ++ fmt_u sc
     ++ J ",'severity':'" ++ output_severity sc ++ J "'}")).

Definition p12j_datetime (j : P12Json) (dt : Z) : P12Json :=
  if dt =? 0 then p12j_raw j (B "null") else p12j_cstr j (Some (output_timestamp dt)).

Definition p12j_status_field (j : P12Json) (key : string) (sc : Z) : P12Json := p12j_status (p12j_key j key) sc.

(** [bs] NULL is [None]. *)
Definition p12j_b64_field (j : P12Json) (key : string) (bs : option ua_string) : P12Json :=
  let j := p12j_key j key in
  match bs with Some d => p12j_b64 j d | None => p12j_raw j (J "''") end.

Definition p12j_b64_list (j : P12Json) (l : list ua_string) : P12Json :=
  p12j_close (fold_left (fun j d => p12j_b64 (p12j_sep j) d) l (p12j_open j 91)) 93.

Definition value_bytes (v : ua_value) : ua_string := match v with VByteString d => d | _ => None end.

(** [v] NULL is [None]. *)
Definition p12j_b64_array_field (j : P12Json) (key : string) (v : option ua_variant) : P12Json :=
  let j := p12j_key j key in
  set_first false
    match v with
    | Some (VtArray t items _) =>
        if type_eqb t TByteString then p12j_b64_list j (map value_bytes items) else p12j_raw j (J "[]")
    | Some (VtScalar (VByteString d)) => p12j_b64_list j [d]
    | _ => p12j_raw j (J "[]")
    end.

Definition value_nodeid (v : ua_value) : ua_nodeid := match v with VNodeId n => n | _ => UA_NODEID_NULL end.

(** The NodeIds a Variant of that type holds, as a scalar or as an array. *)
Definition variant_nodeids (v : option ua_variant) : list ua_nodeid :=
  match v with
  | Some (VtScalar (VNodeId n)) => [n]
  | Some (VtArray t items _) => if type_eqb t TNodeId then map value_nodeid items else []
  | _ => []
  end.

Definition p12j_nodeid_array_field (j : P12Json) (key : string) (v : option ua_variant) : P12Json :=
  p12j_close (fold_left (fun j n => p12j_nodeid (p12j_sep j) n) (variant_nodeids v) (p12j_open (p12j_key j key) 91)) 93.

(** UA_TrustListDataType *)
Record trust_list := { specifiedLists : Z; trustedCertificates : list ua_string; trustedCrls : list ua_string;
  issuerCertificates : list ua_string; issuerCrls : list ua_string }.

(** The members between the braces. *)
Definition trust_list_fields (j : P12Json) (tl : trust_list) : P12Json :=
  let j := p12j_printf (p12j_key j "specifiedLists") (fmt_u (specifiedLists tl)) in
  let j := p12j_b64_list (p12j_key j "trustedCertificates") (trustedCertificates tl) in
  let j := p12j_b64_list (p12j_key j "trustedCrls") (trustedCrls tl) in
  let j := p12j_b64_list (p12j_key j "issuerCertificates") (issuerCertificates tl) in
  p12j_b64_list (p12j_key j "issuerCrls") (issuerCrls tl).

Definition p12j_trust_list (j : P12Json) (tl : trust_list) : P12Json :=
  p12j_close (trust_list_fields (p12j_open j 123) tl) 125.
End Builder.

(** * What the operations append *)

(** Blocks of up to a page are always available. *)
Class HeapLaws (heap : Heap) := { small_alloc : forall n, n <= 4096 -> alloc_ok n = true }.

(** The text and its NUL are inside the allocated block. *)
Definition fits (j : P12Json) : Prop := j_buf j = None /\ j_cap j = 0 \/ j_len j < j_cap j.

(** From [j] to [j']: unless memory ran out the text [t] has been appended, within
    the block; [first] is [f]; memory does not run out for small texts, nor when
    every allocation succeeds. *)
Record Writes {heap : Heap} (j j' : P12Json) (t : bytes) (f : bool) : Prop := {
  w_first : j_first j' = f;
  w_text : j_oom j' = false -> j_oom j = false /\ j_text j' = j_text j ++ t;
  w_fits : fits j -> fits j';
  w_small : j_oom j = false -> j_len j + Z.of_nat (length t) < 2048 -> j_oom j' = false;
  w_plenty : (forall n, alloc_ok n = true) -> j_oom j = false -> j_oom j' = false }.

Lemma double_until_spec fuel : forall cap need, 1 <= cap -> need <= cap * 2 ^ Z.of_nat fuel ->
  let r := double_until fuel cap need in need <= r /\ cap <= r /\ (r = cap \/ r < 2 * need).
Proof.
  induction fuel as [|f IH]; intros cap need Hc Hn; cbn [double_until].
  - change (Z.of_nat 0) with 0 in Hn. lia.
  - destruct (Z.ltb_spec cap need) as [Hlt|]; [|lia].
    rewrite Nat2Z.inj_succ, Z.pow_succ_r in Hn by lia. 
    specialize (IH (cap * 2) need ltac:(lia) ltac:(nia)). cbv zeta in *. lia.
Qed.

Lemma double_until_enough cap need : 1 <= cap -> 1 <= need ->
  let r := double_until (Z.to_nat (Z.log2_up need)) cap need in need <= r /\ cap <= r /\ (r = cap \/ r < 2 * need).
Proof.
  intros Hc Hn. apply double_until_spec; [exact Hc|]. pose proof (Z.log2_up_nonneg need).
  rewrite Z2Nat.id by assumption. pose proof (Z.pow_pos_nonneg 2 (Z.log2_up need) ltac:(lia) ltac:(lia)).
  destruct (Z.eq_dec need 1) as [->|]; [nia|]. pose proof (Z.log2_up_spec need ltac:(lia)). nia.
Qed.

Section Lemmas.
Context {stack : UaStack} {heap : Heap} {hl : HeapLaws heap}.

Lemma j_len_nonneg j : 0 <= j_len j.
Proof. unfold j_len. lia. Qed.

Lemma writes_append j s : Writes j (p12j_append j s) s (j_first j).
Proof.
  unfold p12j_append. pose proof (j_len_nonneg j) as Hl. destruct (j_oom j) eqn:Eo.
  - split; [reflexivity|intros H; congruence|auto|congruence|congruence].
  - set (need := _ + 1). set (cap0 := if j_cap j =? 0 then 1024 else j_cap j).
    assert (1 <= need) as Hn by (unfold need; lia). destruct (Z.ltb_spec (j_cap j) need) as [Hlt|Hge].
    + set (cap := double_until _ _ _). assert (fits j -> 1 <= cap0) as Hc.
      { intros [[_ E]|E]; unfold cap0; [rewrite E; cbn; lia|]. destruct (_ =? 0); lia. }
      destruct (alloc_ok cap) eqn:Ea.
      * split; [reflexivity|auto| |auto|auto]. intros Hf. right. unfold j_len, j_text. cbn [j_buf set_buf default j_cap].
        rewrite length_app. pose proof (double_until_enough cap0 need (Hc Hf) Hn) as [H1 _]. fold cap in H1.
        unfold need, j_len in H1. fold (j_text j). lia.
      * split; [reflexivity|discriminate|auto| |intros Hp _; rewrite Hp in Ea; discriminate]. intros _ Hs. exfalso. enough (alloc_ok cap = true) by congruence.
        apply small_alloc. assert (need <= 2048) as Hm by (unfold need; lia). unfold cap, cap0. destruct (Z.eqb_spec (j_cap j) 0) as [E|E].
        -- destruct (double_until_enough 1024 need ltac:(lia) Hn) as (_ & _ & Hr). lia.
        -- destruct (Z.le_gt_cases 1 (j_cap j)) as [H1|H1]; [destruct (double_until_enough (j_cap j) need H1 Hn) as (_ & _ & Hr); lia|].
           assert (forall f c n, c < 0 -> double_until f c n <= 4096) as Hneg.
           { clear. induction f as [|f IH]; intros c n H; cbn [double_until]; [lia|]. destruct (_ <? _); [apply IH|]; lia. }
           apply Hneg. lia.
    + split; [reflexivity|auto| |auto|auto]. intros _. right. unfold j_len, j_text. cbn [j_buf set_buf default j_cap].
      rewrite length_app. unfold need, j_len in Hge. fold (j_text j). lia.
Qed.

Lemma writes_trans j j1 j2 t1 t2 f1 f2 : Writes j j1 t1 f1 -> Writes j1 j2 t2 f2 -> Writes j j2 (t1 ++ t2) f2.
Proof.
  intros [A1 A2 A3 A4 A5] [B1 B2 B3 B4 B5]. split; [exact B1| |auto| |auto].
  - intros H. destruct (B2 H) as [H1 E1]. destruct (A2 H1) as [H0 E0]. split; [exact H0|]. now rewrite E1, E0, app_assoc.
  - intros H0 Hs. rewrite length_app in Hs. assert (j_oom j1 = false) as H1 by (apply A4; [exact H0|lia]).
    apply B4; [exact H1|]. destruct (A2 H1) as [_ E0]. unfold j_len in *. rewrite E0, length_app. lia.
Qed.

Lemma writes_first j j' t f b : Writes j j' t f -> Writes j (set_first b j') t b.
Proof. intros [A1 A2 A3 A4 A5]. split; [reflexivity|exact A2|exact A3|exact A4|exact A5]. Qed.

Lemma writes_nil j : Writes j j [] (j_first j).
Proof. split; [reflexivity|rewrite app_nil_r; auto|auto|auto|auto]. Qed.

(** A failed allocation that only large texts ask for. *)
Lemma writes_oom j t n : alloc_ok n = false -> n <= Z.of_nat (length t) + 1 -> Writes j (set_oom j) t (j_first j).
Proof.
  intros Ha Hn. split; [reflexivity|discriminate|auto| |intros Hp _; rewrite Hp in Ha; discriminate]. intros _ Hs. exfalso.
  enough (alloc_ok n = true) by congruence. apply small_alloc. pose proof (j_len_nonneg j). lia.
Qed.

Lemma writes_same j j1 j2 t1 t2 f1 : Writes j j1 t1 f1 -> Writes j1 j2 t2 (j_first j1) -> Writes j j2 (t1 ++ t2) f1.
Proof. intros H1 H2. rewrite (w_first _ _ _ _ H1) in H2. exact (writes_trans _ _ _ _ _ _ _ H1 H2). Qed.

(** A value keeps [first]. *)
Definition writes_value (f : P12Json -> P12Json) (t : bytes) : Prop := forall j, Writes j (f j) t (j_first j).

Lemma writes_fold {A} (g : P12Json -> A -> P12Json) (t : A -> bytes) l :
  (forall a, writes_value (fun j => g j a) (t a)) -> writes_value (fun j => fold_left g l j) (flat_map t l).
Proof.
  intros Hg. induction l as [|a l IH]; intros j; cbn [fold_left flat_map]; [apply writes_nil|].
  eapply writes_same; [apply Hg|apply IH].
Qed.

Lemma writes_str data : writes_value (fun j => p12j_str j data) (J "'" ++ flat_map json_escape data ++ J "'").
Proof.
  intros j. unfold p12j_str, p12j_raw. eapply writes_same; [apply writes_append|].
  eapply writes_same; [apply (writes_fold (fun j c => p12j_append j (json_escape c)) json_escape)|apply writes_append].
  intros c j'. apply writes_append.
Qed.

Lemma writes_cstr s : writes_value (fun j => p12j_cstr j s) (print_json_string s).
Proof. intros j. destruct s as [s|]; [apply writes_str|apply writes_append]. Qed.

Definition json_bytes (s : ua_string) : bytes :=
  match s with None => B "null" | Some d => J "'" ++ flat_map json_escape d ++ J "'" end.

Lemma writes_uastr s : writes_value (fun j => p12j_uastr j s) (json_bytes s).
Proof. intros j. destruct s as [s|]; [apply writes_str|apply writes_append]. Qed.

Lemma writes_groups data : writes_value (fun j => b64_groups j data) (value_b64_encode data).
Proof.
  induction data as [|a|a b|a b c r IH] using triple_ind; intros j; cbn [b64_groups value_b64_encode];
    [apply writes_nil|apply writes_append|apply writes_append|]. eapply writes_same; [apply writes_append|apply IH].
Qed.

(** A quoted Base64 text, as print_b64 writes it. *)
Definition b64_json (d : ua_string) : bytes := J "'" ++ value_b64_encode (default [] d) ++ J "'".

Lemma writes_b64 d : writes_value (fun j => p12j_b64 j d) (b64_json d).
Proof.
  intros j. unfold p12j_b64, p12j_raw. eapply writes_same; [apply writes_append|].
  eapply writes_same; [apply writes_groups|apply writes_append].
Qed.

Lemma writes_printf s : writes_value (fun j => p12j_printf j s) s.
Proof.
  intros j. unfold p12j_printf. destruct (Nat.ltb _ _); [apply writes_append|].
  destruct (alloc_ok _) eqn:E; [apply writes_append|]. apply (writes_oom _ _ _ E). lia.
Qed.

(** What [p12j_nodeid] appends. *)
Definition nodeid_json (id : ua_nodeid) : bytes :=
  let ns := fmt_u (namespaceIndex id) in
  match identifier id with
  | IdNumeric n => print_json_string (Some (snprintf 128 (if namespaceIndex id =? 0 then B "i=" ++ fmt_u n
                                                          else B "ns=" ++ ns ++ B ";i=" ++ fmt_u n)))
  | IdString s => J "'" ++ flat_map json_escape (B "ns=" ++ ns ++ B ";s=" ++ default [] s) ++ J "'"
  | IdGuid g => print_json_string (Some (snprintf 128 (B "ns=" ++ ns ++ B ";g=" ++ guid_text g)))
  | IdByteString s => snprintf 128 (J "'ns=" ++ ns ++ B ";b=") ++ value_b64_encode (default [] s) ++ J "'"
  | IdOther => J "'i=0'"
  end.

Lemma length_escapes s : (length s <= length (flat_map json_escape s))%nat.
Proof.
  induction s as [|c s IH]; cbn [flat_map length]; [lia|]. rewrite length_app. enough (1 <= length (json_escape c))%nat by lia.
  unfold json_escape. repeat (destruct (_ =? _); [cbn; lia|]). destruct (_ <? _); [|cbn; lia]. rewrite length_app. cbn. lia.
Qed.

Lemma writes_nodeid id : writes_value (fun j => p12j_nodeid j id) (nodeid_json id).
Proof.
  intros j. unfold p12j_nodeid, nodeid_json. destruct (identifier id) as [n|s|g|s|]; try apply writes_cstr.
  - destruct (alloc_ok _) eqn:E; [apply writes_str|]. apply (writes_oom _ _ _ E). rewrite !length_app.
    pose proof (length_escapes (B "ns=" ++ fmt_u (namespaceIndex id) ++ B ";s=" ++ default [] s)) as H.
    rewrite !length_app in H. lia.
  - set (pre := snprintf _ _). set (b := p12j_b64 p12j_init s). pose proof (writes_b64 s p12j_init) as Hb. cbv beta in Hb. fold b in Hb.
    destruct (j_oom b) eqn:Eb.
    + set (j1 := match j_buf b with Some _ => _ | None => _ end).
      assert (Writes j j1 (match j_buf b with Some (_ :: ((_ :: _) as r)) => pre ++ r | _ => pre ++ J "'" end) (j_first j)) as H1.
      { unfold j1. destruct (j_buf b) as [[|x [|y r]]|]; (eapply writes_same; [apply writes_append|apply writes_append]). }
      destruct H1 as [A1 A2 A3 A4 A5]. split; [exact A1|discriminate|exact A3| |].
      2:{ intros Hp _. rewrite (w_plenty _ _ _ _ Hb Hp eq_refl) in Eb. discriminate. }
      intros _ Hs. exfalso.
      enough (j_oom b = false) by congruence. apply (w_small _ _ _ _ Hb); [reflexivity|].
      unfold b64_json. rewrite !length_app in *. cbn [j_len j_text p12j_init j_buf default length] in *.
      change (j_len p12j_init) with 0. change (length (J "'")) with 1%nat in *. pose proof (j_len_nonneg j).
      enough (1 <= length pre)%nat by lia. unfold pre, snprintf. rewrite length_firstn, !length_app. cbn. lia.
    + destruct (w_text _ _ _ _ Hb Eb) as [_ Et]. unfold j_text in Et. cbn [j_buf p12j_init default app] in Et.
      destruct (j_buf b) as [t|] eqn:Ebuf; [|discriminate Et]. cbn [default] in Et.
      assert (exists y r, t = 34 :: y :: r /\ y :: r = value_b64_encode (default [] s) ++ J "'") as (y & r & -> & Er).
      { rewrite Et. change (b64_json s) with (34 :: (value_b64_encode (default [] s) ++ J "'")).
        destruct (value_b64_encode (default [] s) ++ J "'") as [|y r] eqn:E; [|eauto]. now apply app_eq_nil in E. }
      rewrite <- Er. eapply writes_same; apply writes_append.
Qed.

Lemma writes_status sc j : Writes j (p12j_status j sc) (print_status_obj sc) false.
Proof. eapply writes_first. apply writes_printf. Qed.

Definition datetime_json (dt : Z) : bytes := if dt =? 0 then B "null" else print_json_string (Some (output_timestamp dt)).

Lemma writes_datetime dt : writes_value (fun j => p12j_datetime j dt) (datetime_json dt).
Proof. intros j. unfold p12j_datetime, datetime_json. destruct (dt =? 0); [apply writes_append|apply writes_cstr]. Qed.

(** ** Members and elements *)

(** ["key":value] *)
Definition field (key : string) (t : bytes) : bytes := J "'" ++ B key ++ J "':" ++ t.

Definition key_plain (key : string) : bool := forallb plain (B key).

Lemma cstr_escape_plain s : forallb plain s = true -> flat_map json_escape (cstr s) = s.
Proof.
  intros H. rewrite forallb_forall, <- Forall_forall in H. rewrite cstr_id; [now apply escape_plain|].
  eapply Forall_impl; [|exact H]. intros c Hc ->. discriminate Hc.
Qed.

Lemma writes_sep j : Writes j (p12j_sep j) (if j_first j then [] else B ",") false.
Proof.
  unfold p12j_sep. eapply writes_first. destruct (j_first j); [apply writes_nil|apply writes_append].
Qed.

Lemma writes_key j key : key_plain key = true ->
  Writes j (p12j_key j key) ((if j_first j then [] else B ",") ++ J "'" ++ B key ++ J "':") false.
Proof.
  intros Hk. unfold p12j_key, p12j_raw. eapply writes_same; [apply writes_sep|].
  replace (J "'" ++ B key ++ J "':") with (print_json_string (Some (B key)) ++ B ":").
  - eapply writes_same; [apply (writes_cstr (Some (B key)))|apply writes_append].
  - cbn [print_json_string]. rewrite (cstr_escape_plain (B key) Hk), <- !app_assoc. reflexivity.
Qed.

(** The members [l] have been added to the innermost object (or the elements to the
    innermost array). *)
Definition Adds (j j' : P12Json) (l : list bytes) : Prop :=
  Writes j j' (commas_from (j_first j) l) (match l with [] => j_first j | _ => false end).

Lemma commas_from_app f l1 l2 :
  commas_from f (l1 ++ l2) = commas_from f l1 ++ commas_from (match l1 with [] => f | _ => false end) l2.
Proof.
  revert f. induction l1 as [|x l1 IH]; intros f; [reflexivity|]. cbn [app commas_from]. rewrite IH, <- !app_assoc.
  now destruct l1.
Qed.

Lemma adds_trans j j1 j2 l1 l2 : Adds j j1 l1 -> Adds j1 j2 l2 -> Adds j j2 (l1 ++ l2).
Proof.
  unfold Adds. intros H1 H2. rewrite (w_first _ _ _ _ H1) in H2. rewrite commas_from_app.
  replace (match l1 ++ l2 with [] => j_first j | _ => false end)
    with (match l2 with [] => match l1 with [] => j_first j | _ => false end | _ => false end) by now destruct l1, l2.
  eapply writes_trans; eassumption.
Qed.

Lemma adds_nothing j : Adds j j [].
Proof. apply writes_nil. Qed.

(** What may follow a key. *)
Definition value_after (v : P12Json -> P12Json) (t : bytes) : Prop :=
  forall j, j_first j = false -> Writes j (v j) t false.

Lemma after_value v t : writes_value v t -> value_after v t.
Proof. intros H j E. rewrite <- E. apply H. Qed.

Lemma adds_one j j1 v pre t : Writes j j1 ((if j_first j then [] else B ",") ++ pre) false -> value_after v t ->
  Adds j (v j1) [pre ++ t].
Proof.
  intros H1 Hv. unfold Adds. cbn [commas_from]. rewrite app_nil_r, app_assoc.
  replace (if j_first j then [] else [44]) with (if j_first j then [] else B ",") by now destruct (j_first j).
  eapply writes_trans; [exact H1|]. apply Hv. exact (w_first _ _ _ _ H1).
Qed.

Lemma adds_field j key v t : key_plain key = true -> value_after v t -> Adds j (v (p12j_key j key)) [field key t].
Proof.
  intros Hk Hv. unfold field. replace (J "'" ++ B key ++ J "':" ++ t) with ((J "'" ++ B key ++ J "':") ++ t) by now rewrite <- !app_assoc.
  apply adds_one; [now apply writes_key|exact Hv].
Qed.

Lemma adds_elements {A} (v : P12Json -> A -> P12Json) (t : A -> bytes) l :
  (forall a, value_after (fun j => v j a) (t a)) -> forall j, Adds j (fold_left (fun j a => v (p12j_sep j) a) l j) (map t l).
Proof.
  intros Hv. induction l as [|a l IH]; intros j; cbn [fold_left map]; [apply adds_nothing|].
  change (t a :: map t l) with ([[] ++ t a] ++ map t l). eapply adds_trans; [|apply IH].
  apply (adds_one j (p12j_sep j) (fun j => v j a)); [|apply Hv]. rewrite app_nil_r. apply writes_sep.
Qed.

(** An opened and closed object or array. *)
Lemma writes_nested j f l o c : (forall j, j_first j = true -> Adds j (f j) l) ->
  Writes j (p12j_close (f (p12j_open j o)) c) ([o] ++ commas l ++ [c]) false.
Proof.
  intros Hf. unfold p12j_close. eapply writes_first. eapply writes_trans; [eapply writes_first, writes_append|].
  eapply writes_trans; [|apply writes_append]. exact (Hf (p12j_open j o) eq_refl).
Qed.

Lemma writes_b64_list l j : Writes j (p12j_b64_list j l) (jarray (map b64_json l)) false.
Proof.
  unfold p12j_b64_list, jarray. apply (writes_nested j (fun j => fold_left (fun j d => p12j_b64 (p12j_sep j) d) l j)).
  intros j' _. apply adds_elements. intros d. apply after_value, writes_b64.
Qed.

Lemma writes_object j f l : (forall j, j_first j = true -> Adds j (f j) l) ->
  Writes j (p12j_close (f (p12j_open j 123)) 125) (jobject l) false.
Proof. apply writes_nested. Qed.

(** An object under a key. *)
Lemma adds_object j key f l : key_plain key = true -> Adds (p12j_open (p12j_key j key) 123) (f (p12j_open (p12j_key j key) 123)) l ->
  Adds j (p12j_close (f (p12j_open (p12j_key j key) 123)) 125) [field key (jobject l)].
Proof.
  intros Hk Hl. set (jk := p12j_key j key) in *. unfold field.
  replace (J "'" ++ B key ++ J "':" ++ jobject l) with ((J "'" ++ B key ++ J "':") ++ jobject l) by now rewrite <- !app_assoc.
  assert (Writes jk (p12j_close (f (p12j_open jk 123)) 125) (jobject l) false) as Hw.
  { unfold p12j_close. eapply writes_first. eapply writes_trans; [eapply writes_first, writes_append|].
    eapply writes_trans; [exact Hl|apply writes_append]. }
  unfold Adds. cbn [commas_from]. rewrite app_nil_r, app_assoc.
  replace (if j_first j then [] else [44]) with (if j_first j then [] else B ",") by now destruct (j_first j).
  eapply writes_trans; [apply (writes_key j key Hk)|exact Hw].
Qed.

(** ** Fields *)

Lemma adds_status_field j key sc : key_plain key = true -> Adds j (p12j_status_field j key sc) [field key (print_status_obj sc)].
Proof. intros Hk. apply (adds_field j key (fun j => p12j_status j sc)); [exact Hk|]. intros j' _. apply writes_status. Qed.

Definition opt_b64_json (bs : option ua_string) : bytes := match bs with Some d => b64_json d | None => J "''" end.

Lemma adds_b64_field j key bs : key_plain key = true -> Adds j (p12j_b64_field j key bs) [field key (opt_b64_json bs)].
Proof.
  intros Hk. unfold p12j_b64_field. apply (adds_field j key (fun j => match bs with Some d => p12j_b64 j d | None => p12j_raw j (J "''") end)); [exact Hk|].
  apply after_value. destruct bs as [d|]; [apply writes_b64|intros j'; apply writes_append].
Qed.

(** The ByteStrings a Variant of that type holds. *)
Definition variant_bytestrings (v : option ua_variant) : list ua_string :=
  match v with
  | Some (VtArray t items _) => if type_eqb t TByteString then map value_bytes items else []
  | Some (VtScalar (VByteString d)) => [d]
  | _ => []
  end.

Lemma adds_b64_array_field j key v : key_plain key = true ->
  Adds j (p12j_b64_array_field j key v) [field key (jarray (map b64_json (variant_bytestrings v)))].
Proof.
  intros Hk. unfold p12j_b64_array_field.
  apply (adds_field j key (fun j => set_first false (match v with
    | Some (VtArray t items _) => if type_eqb t TByteString then p12j_b64_list j (map value_bytes items) else p12j_raw j (J "[]")
    | Some (VtScalar (VByteString d)) => p12j_b64_list j [d]
    | _ => p12j_raw j (J "[]") end))); [exact Hk|].
  intros j' _. unfold variant_bytestrings.
  destruct v as [[|x|t items d]|]; [|destruct x| |]; try destruct (type_eqb t TByteString);
    (eapply writes_first; first [apply writes_b64_list|apply (writes_append j' (J "[]"))]).
Qed.

Lemma adds_nodeid_array_field j key v : key_plain key = true ->
  Adds j (p12j_nodeid_array_field j key v) [field key (jarray (map nodeid_json (variant_nodeids v)))].
Proof.
  intros Hk. unfold p12j_nodeid_array_field.
  apply (adds_field j key (fun j => p12j_close (fold_left (fun j n => p12j_nodeid (p12j_sep j) n) (variant_nodeids v) (p12j_open j 91)) 93)); [exact Hk|].
  intros j' _. apply (writes_nested j' (fun j => fold_left (fun j n => p12j_nodeid (p12j_sep j) n) (variant_nodeids v) j)).
  intros j1 _. apply adds_elements. intros n. apply after_value, writes_nodeid.
Qed.

Lemma adds_nodeid j key n : key_plain key = true -> Adds j (p12j_nodeid (p12j_key j key) n) [field key (nodeid_json n)].
Proof. intros Hk. apply (adds_field j key (fun j => p12j_nodeid j n)); [exact Hk|]. apply after_value, writes_nodeid. Qed.

Lemma adds_raw j key t : key_plain key = true -> Adds j (p12j_raw (p12j_key j key) t) [field key t].
Proof. intros Hk. apply (adds_field j key (fun j => p12j_raw j t)); [exact Hk|]. intros j' E. rewrite <- E. apply writes_append. Qed.

Definition trust_list_members (tl : trust_list) : list bytes :=
  [field "specifiedLists" (fmt_u (specifiedLists tl));
   field "trustedCertificates" (jarray (map b64_json (trustedCertificates tl)));
   field "trustedCrls" (jarray (map b64_json (trustedCrls tl)));
   field "issuerCertificates" (jarray (map b64_json (issuerCertificates tl)));
   field "issuerCrls" (jarray (map b64_json (issuerCrls tl)))].

Lemma adds_b64_list j key l : key_plain key = true -> Adds j (p12j_b64_list (p12j_key j key) l) [field key (jarray (map b64_json l))].
Proof. intros Hk. apply (adds_field j key (fun j => p12j_b64_list j l)); [exact Hk|]. intros j' _. apply writes_b64_list. Qed.

Lemma adds_eq j j' l l' : Adds j j' l -> l = l' -> Adds j j' l'.
Proof. now intros H <-. Qed.

Lemma adds_trust_list_fields j tl : Adds j (trust_list_fields j tl) (trust_list_members tl).
Proof.
  unfold trust_list_fields. eapply adds_eq.
  - eapply adds_trans; [|apply adds_b64_list; reflexivity]. eapply adds_trans; [|apply adds_b64_list; reflexivity].
    eapply adds_trans; [|apply adds_b64_list; reflexivity]. eapply adds_trans; [|apply adds_b64_list; reflexivity].
    apply (adds_field j _ (fun j => p12j_printf j (fmt_u (specifiedLists tl)))); [reflexivity|apply after_value, writes_printf].
  - reflexivity.
Qed.

Lemma writes_trust_list tl j : Writes j (p12j_trust_list j tl) (jobject (trust_list_members tl)) false.
Proof. unfold p12j_trust_list. apply (writes_object j (fun j => trust_list_fields j tl)). intros j' _. apply adds_trust_list_fields. Qed.
End Lemmas.

(** * The texts are JSON *)

Definition plain_text (s : bytes) : Prop := Forall (fun c => plain c = true) s.

Lemma plain_escape s : plain_text s -> flat_map json_escape (cstr s) = s.
Proof. intros H. apply cstr_escape_plain, forallb_forall. unfold plain_text in H. now rewrite Forall_forall in H. Qed.

Lemma plain_cat a b : plain_text a -> plain_text b -> plain_text (a ++ b).
Proof. intros. now apply Forall_app. Qed.

Lemma plain_fmt_u n : 0 <= n -> plain_text (fmt_u n).
Proof.
  intros H. eapply Forall_impl; [|now apply fmt_u_digits]. intros c Hc. apply ishex_plain. unfold ishex. now rewrite Hc.
Qed.

Lemma plain_fmt_x0 w n : 0 <= n -> plain_text (fmt_x0 w n).
Proof. intros H. apply pad0_Forall; [reflexivity|]. eapply Forall_impl; [apply ishex_plain|now apply fmt_x_hex]. Qed.

Lemma plain_B s : key_plain s = true -> plain_text (B s).
Proof. unfold key_plain. intros H. apply Forall_forall. now rewrite forallb_forall in H. Qed.

Lemma plain_guid g : wf_guid g = true -> plain_text (guid_text g).
Proof.
  intros H. destruct (guid_fields g H) as (H1 & H2 & H3). unfold guid_text.
  repeat first [apply plain_fmt_x0; first [assumption|now apply guid_nth]|apply plain_cat|repeat constructor].
Qed.

Lemma plain_snprintf n s : plain_text s -> plain_text (snprintf n s).
Proof. apply Forall_firstn. Qed.

Lemma JValue_plain s : plain_text s -> JValue (print_json_string (Some s)).
Proof.
  intros H. cbn [print_json_string]. rewrite (plain_escape s H). apply (JValue_quoted s). now apply JBody_Forall.
Qed.

Ltac plain_parts := repeat first [assumption|now apply plain_B|now apply plain_fmt_u|now apply plain_guid|apply plain_cat].

(** The builder escapes control characters: the strings only have to be bytes. *)
Definition bytes_nodeid (n : ua_nodeid) : bool :=
  (0 <=? namespaceIndex n) &&
  match identifier n with
  | IdNumeric i => 0 <=? i
  | IdString s | IdByteString s => wf_str s
  | IdGuid g => wf_guid g
  | IdOther => true
  end.

Lemma wf_bytes_nodeid n : wf_nodeid n = true -> bytes_nodeid n = true.
Proof.
  unfold wf_nodeid, bytes_nodeid. rewrite !andb_true_iff. intros [H1 H2]. split; [exact H1|].
  destruct (identifier n); try exact H2. unfold wf_printable in H2. unfold wf_str. rewrite forallb_forall in *.
  intros c Hc. specialize (H2 c Hc). unfold is_byte. zbool. lia.
Qed.

Lemma JValue_nodeid_json n : bytes_nodeid n = true -> JValue (nodeid_json n).
Proof.
  unfold bytes_nodeid, nodeid_json. rewrite andb_true_iff, Z.leb_le. intros [Hns Hid].
  destruct (identifier n) as [i|s|g|s|].
  - apply Z.leb_le in Hid. apply JValue_plain, plain_snprintf. destruct (_ =? 0); plain_parts.
  - apply (JValue_quoted (flat_map json_escape _)). apply JBody_escapes. apply Bytes_cat; [apply Bytes_B|].
    apply Bytes_cat; [|apply Bytes_cat; [apply Bytes_B|now apply forallb_Bytes]].
    eapply Forall_impl; [|now apply fmt_u_digits]. intros c Hc. unfold isdigit in Hc. unfold is_byte. zbool. lia.
  - apply JValue_plain, plain_snprintf. plain_parts.
  - unfold wf_str in Hid. apply forallb_Bytes in Hid. change (J "'ns=") with (34 :: B "ns=").
    assert (snprintf 128 ((34 :: B "ns=") ++ fmt_u (namespaceIndex n) ++ B ";b=")
            = 34 :: snprintf 127 (B "ns=" ++ fmt_u (namespaceIndex n) ++ B ";b=")) as -> by reflexivity.
    cbn [app]. rewrite app_assoc. apply (JValue_quoted (_ ++ _)). apply JBody_app; [|now apply JBody_b64].
    apply JBody_Forall. apply plain_snprintf. plain_parts.
  - apply (JValue_plain (B "i=0")). now apply plain_B.
Qed.

Lemma JValue_b64_json d : wf_str d = true -> JValue (b64_json d).
Proof. intros H. apply (JValue_quoted (value_b64_encode _)). apply JBody_b64. now apply forallb_Bytes. Qed.

Lemma JValue_b64_array l : forallb wf_str l = true -> JValue (jarray (map b64_json l)).
Proof.
  intros H. apply JValue_array, Forall_map, Forall_forall. intros d Hd. apply JValue_b64_json. rewrite forallb_forall in H. auto.
Qed.

Lemma JValue_nodeid_array l : forallb bytes_nodeid l = true -> JValue (jarray (map nodeid_json l)).
Proof.
  intros H. apply JValue_array, Forall_map, Forall_forall. intros d Hd. apply JValue_nodeid_json. rewrite forallb_forall in H. auto.
Qed.

Lemma JValue_json_bytes s : wf_str s = true -> JValue (json_bytes s).
Proof.
  intros H. destruct s as [s|]; [|apply JValue_null]. apply (JValue_quoted (flat_map json_escape s)), JBody_escapes. now apply forallb_Bytes.
Qed.

Lemma JMember_field key t : key_plain key = true -> JValue t -> JMember (field key t).
Proof.
  intros Hk Ht. unfold field. replace (J "'" ++ B key ++ J "':" ++ t) with ((J "'" ++ B key ++ J "':") ++ t) by now rewrite <- !app_assoc.
  apply JMember_lit; [|reflexivity|exact Ht]. intros st. change (J "'" ++ B key ++ J "':") with (34 :: (B key ++ J "':")).
  change (jrun (MKey, FObj :: st) (34 :: B key ++ J "':")) with (jrun (MStr true, FObj :: st) (B key ++ J "':")).
  rewrite (JBody_Forall (B key) (plain_B key Hk)). reflexivity.
Qed.

Definition wf_trust_list (tl : trust_list) : bool :=
  (0 <=? specifiedLists tl) && forallb wf_str (trustedCertificates tl) && forallb wf_str (trustedCrls tl)
  && forallb wf_str (issuerCertificates tl) && forallb wf_str (issuerCrls tl).

Lemma JValue_trust_list tl : wf_trust_list tl = true -> JValue (jobject (trust_list_members tl)).
Proof.
  unfold wf_trust_list. rewrite !andb_true_iff, Z.leb_le. intros [[[[H1 H2] H3] H4] H5].
  apply JValue_object. repeat (constructor; [apply JMember_field; [reflexivity|]; first [now apply JValue_b64_array|now apply JValue_u]|]).
  constructor.
Qed.

(** * The builder against output.c *)

Lemma fmt_u_short n : 0 <= n < 2 ^ 32 -> (length (fmt_u n) <= 10)%nat.
Proof. intros H. apply digits_length; [lia|split; [lia|]|lia]. eapply Z.lt_trans; [apply H|reflexivity]. Qed.

Lemma snprintf_id n s : (length s < n)%nat -> snprintf n s = s.
Proof. intros H. apply firstn_all2. lia. Qed.

(** Lengths of texts with literal parts. *)
Ltac len_parts :=
  rewrite !length_app;
  repeat match goal with
         | |- context [length (B ?x)] => let v := eval vm_compute in (length (B x)) in change (length (B x)) with v
         | |- context [length (J ?x)] => let v := eval vm_compute in (length (J x)) in change (length (J x)) with v
         end; lia.

Lemma nodeid_json_eq n : literal_nodeid n = true -> nodeid_json n = print_ua_nodeid n.
Proof.
  unfold literal_nodeid. rewrite andb_true_iff. intros [Hr Hid].
  assert (range_guid_b match identifier n with IdGuid g => g | _ => {| data1 := 0; data2 := 0; data3 := 0; data4 := repeat 0 8 |} end = true) as Hg.
  { unfold range_nodeid in Hr. destruct (identifier n); try reflexivity. unfold range_guid_b, range_nodeid. cbn [identifier namespaceIndex].
    now apply andb_prop in Hr as [_ ->]. }
  unfold range_nodeid in Hr. apply andb_prop in Hr as [Hns Hr]. unfold in_range in *.
  assert (0 <= namespaceIndex n < 2 ^ 16) as Hn by (zbool; lia). clear Hns.
  pose proof (fmt_u_short (namespaceIndex n) ltac:(lia)) as Hl. pose proof (plain_fmt_u (namespaceIndex n) ltac:(lia)) as Hp.
  unfold nodeid_json, print_ua_nodeid. destruct (identifier n) as [i|s|g|s|].
  - assert (0 <= i < 2 ^ 32) as Hi by (zbool; lia). pose proof (fmt_u_short i Hi). pose proof (plain_fmt_u i ltac:(lia)).
    rewrite snprintf_id by (destruct (_ =? 0); len_parts). cbn [print_json_string].
    rewrite plain_escape by (destruct (_ =? 0); plain_parts).
    destruct (_ =? 0); rewrite <- !app_assoc; reflexivity.
  - rewrite !flat_map_app, (escape_plain (B "ns=")), (escape_plain (fmt_u _)), (escape_plain (B ";s=")) by (assumption || now apply plain_B).
    rewrite escape_printable by exact Hid. rewrite <- !app_assoc. reflexivity.
  - pose proof (guid_text_length g Hg). pose proof (plain_guid g (range_guid_wf g Hg)). rewrite snprintf_id by len_parts. cbn [print_json_string].
    rewrite plain_escape by plain_parts.
    rewrite <- !app_assoc. reflexivity.
  - rewrite snprintf_id by len_parts. rewrite <- !app_assoc. do 3 f_equal.
    destruct s as [[|x s]|]; cbn [default]; [reflexivity| |reflexivity]. now rewrite print_base64_eq.
  - discriminate.
Qed.

(** The JSON builder of the certificate commands prints what the printers of
    output.c print: NodeIds (for every NodeId the literal syntax can write), C
    strings, status codes and Base64 are appended byte for byte as output.c writes
    them, unless an allocation fails; the flag for the next comma is kept (or
    cleared by a status), and neither the text nor its NUL leaves the block that
    was allocated. *)
Lemma builder_prints_output {stack : UaStack} {heap : Heap} {hl : HeapLaws heap} j n s sc d :
  literal_nodeid n = true ->
  Writes j (p12j_nodeid j n) (output_nodeid n) (j_first j) /\
  Writes j (p12j_cstr j s) (output_json_string s) (j_first j) /\
  Writes j (p12j_status j sc) (print_status_obj sc) false /\
  Writes j (p12j_b64 j (Some d)) (J "'" ++ print_base64 d ++ J "'") (j_first j).
Proof.
  intros Hn. unfold output_nodeid. rewrite <- (nodeid_json_eq n Hn), print_base64_eq.
  split; [apply writes_nodeid|split; [apply writes_cstr|split; [apply writes_status|apply (writes_b64 (Some d))]]].
Qed.

Definition plentiful : Heap := {| alloc_ok := fun _ => true |}.
#[export] Instance plentiful_laws : HeapLaws plentiful.
Proof. split. reflexivity. Qed.
