(* ===== verification/Part12.v ===== *)
(** part12.c: what push and gds-pull share besides the JSON builder.  Flags and
    files, Variants for method arguments, the transport statuses, browse paths, the
    TrustList read (open, read in chunks, close, decode), TransactionErrorType and
    NodeId encodings, and the envelope.  The last part is the monad both commands
    are written in, with its rules for total correctness. *)

From Stdlib Require Import String Ascii ZArith Bool List Lia.
Import ListNotations.
From S2P Require Import Prelude CLib Json UaTypes RefStack Base64 Output OutputBuf CJson Values RoundTrip Args.
From S2P Require Import NodeIds Connect Session ReadWrite BrowseCall Codec P12Json.

(** * The libraries *)

Class Part12Services (W : Type) := {
  (** one TranslateBrowsePathsToNodeIds request with a path of namespace 0 names
      over HierarchicalReferences (subtypes included) per result *)
  Service_translatePaths : W -> ua_nodeid -> list (list bytes) -> W * (Z * list path_result);
  Client_readValue : W -> ua_nodeid -> W * (Z * ua_variant);
  sleep_ms : W -> Z -> W
}.

(** [UA_decodeBinary] of the types the code decodes, from the start of the bytes. *)
Class BinaryDecoders := {
  decode_nodeid : bytes -> option ua_nodeid;
  decode_localized_text : bytes -> option (ua_string * ua_string);
  decode_trust_list : bytes -> option trust_list
}.

(** The X.509 functions of OpenSSL: PEM_read_bio_X509, d2i_X509, i2d_X509. *)
Class X509Lib := {
  x509 : Type;
  pem_read_x509 : bytes -> option x509;
  d2i_x509 : bytes -> option x509;
  i2d_x509 : x509 -> bytes
}.

(** * Arguments *)

Definition p12_has_flag (argv : list bytes) (flag : bytes) : bool := existsb (fun a => streq a flag) argv.

(** The argument after a match is not looked at again. *)
Fixpoint p12_all_values (argv : list bytes) (flag : bytes) : list bytes :=
  match argv with
  | a :: ((v :: r') as r) => if streq a flag then v :: p12_all_values r' flag else p12_all_values r flag
  | _ => []
  end.

Definition p12_parse_uint (s : bytes) (max : Z) : option Z :=
  match s with
  | [] => None
  | _ => if negb (forallb isdigit s) then None
         else let r := strtoul 10 s in
              if serange r || negb (match send r with [] => true | _ => false end) || (max <? sval r) then None
              else Some (sval r)
  end.

(** ["memmem(data, n, pattern, m)"] *)
Fixpoint contains (pattern data : bytes) : bool :=
  is_some (strip pattern data) || match data with [] => false | _ :: r => contains pattern r end.

Section Part12.
Context {stack : UaStack} {heap : Heap} {nid : NodeIdOps} {xl : X509Lib} {dec : BinaryDecoders}
  {W : Type} {L : ClientLib W} {srv : Services W} {p12 : Part12Services W}.

(** An empty file is an error too. *)
Definition p12_read_file (w : W) (path : bytes) : option bytes :=
  match file_bytes w path with Some ((_ :: _) as d) => Some d | _ => None end.

Definition p12_read_certificate (w : W) (path : bytes) : option bytes :=
  do raw <- p12_read_file w path;
  do x <- (if Nat.leb 10 (length raw) && contains (B "-----BEGIN") raw then pem_read_x509 raw else d2i_x509 raw);
  match i2d_x509 x with [] => None | der => Some der end.

Definition p12_resolve_nodeid (w : W) (s : bytes) : W * option ua_nodeid :=
  if is_nsu s then
    let '(w, r) := resolve_nsu w s in (w, match r with NsuOk n => Some n | _ => None end)
  else
    let n := parse_nodeid_local s in
    (w, if NodeId_isNull n && negb (streq s (B "i=0")) then None else Some n).

(** * Variants *)

Definition p12v_nodeid (n : ua_nodeid) : ua_variant := VtScalar (VNodeId n).
Definition p12v_string (s : option bytes) : ua_variant := VtScalar (VString s).
Definition p12v_bool (b : bool) : ua_variant := VtScalar (VBoolean b).
Definition p12v_byte (z : Z) : ua_variant := VtScalar (VByte z).
Definition p12v_uint16 (z : Z) : ua_variant := VtScalar (VUInt16 z).
Definition p12v_uint32 (z : Z) : ua_variant := VtScalar (VUInt32 z).
Definition p12v_int32 (z : Z) : ua_variant := VtScalar (VInt32 z).
(** NULL is the null ByteString. *)
Definition p12v_bytestring (bs : option ua_string) : ua_variant := VtScalar (VByteString (default None bs)).
Definition p12v_string_array (l : list bytes) : ua_variant := VtArray TString (map (fun s => VString (Some s)) l) [].
Definition p12v_bytestring_array (l : list ua_string) : ua_variant := VtArray TByteString (map VByteString l) [].

Definition p12_out_nodeid (out : list ua_variant) (i : nat) : option ua_nodeid :=
  match nth_error out i with Some (VtScalar (VNodeId n)) => Some n | _ => None end.
Definition p12_out_bytestring (out : list ua_variant) (i : nat) : option ua_string :=
  match nth_error out i with Some (VtScalar (VByteString d)) => Some d | _ => None end.
Definition p12_out_bool (out : list ua_variant) (i : nat) : bool :=
  match nth_error out i with Some (VtScalar (VBoolean b)) => b | _ => false end.

Definition nth_out (out : list ua_variant) (i : nat) : option ua_variant := nth_error out i.

(** * Services *)

Definition transport_codes : list Z :=
  [UA_STATUSCODE_BADTIMEOUT; UA_STATUSCODE_BADCONNECTIONCLOSED; UA_STATUSCODE_BADSECURECHANNELCLOSED;
   UA_STATUSCODE_BADSECURECHANNELIDINVALID; UA_STATUSCODE_BADCOMMUNICATIONERROR; UA_STATUSCODE_BADCONNECTIONREJECTED;
   UA_STATUSCODE_BADDISCONNECT; UA_STATUSCODE_BADNOTCONNECTED; UA_STATUSCODE_BADSERVERNOTCONNECTED;
   UA_STATUSCODE_BADSESSIONCLOSED; UA_STATUSCODE_BADSESSIONIDINVALID].

Definition p12_is_transport (sc : Z) : bool := existsb (Z.eqb sc) transport_codes.

Definition p12_call (w : W) (object method : ua_nodeid) (inputs : list ua_variant) : W * (Z * list ua_variant) :=
  Client_call w object method inputs.

(** The loop over the results: the first target of each, or the first failure. *)
Fixpoint first_targets (results : list path_result) : list ua_nodeid + Z :=
  match results with
  | [] => inl []
  | r :: rest =>
      if negb (pr_statusCode r =? UA_STATUSCODE_GOOD) then inr (pr_statusCode r)
      else match pr_targets r with
           | [] => inr UA_STATUSCODE_BADNOMATCH
           | t :: _ => match first_targets rest with inl l => inl (t :: l) | inr sc => inr sc end
           end
  end.

Definition p12_translate (w : W) (start : ua_nodeid) (paths : list (list bytes)) : W * (list ua_nodeid + Z) :=
  let '(w, (sc, results)) := Service_translatePaths w start paths in
  (w, if negb (sc =? UA_STATUSCODE_GOOD) then inr sc
      else if negb (Nat.eqb (length results) (length paths)) then inr UA_STATUSCODE_BADUNEXPECTEDERROR
      else first_targets results).

Definition P12_READ_CHUNK : Z := 4096.

(** The [for (;;)] loop of Read calls: its status and the bytes so far; [None]: out
    of rounds. *)
Fixpoint read_chunks (rounds : nat) (w : W) (obj read : ua_nodeid) (handle : Z) (data : bytes) : option (W * (Z * bytes)) :=
  match rounds with
  | O => None
  | S n =>
      let '(w, (sc, out)) := p12_call w obj read [p12v_uint32 handle; p12v_int32 P12_READ_CHUNK] in
      if negb (sc =? UA_STATUSCODE_GOOD) then Some (w, (sc, data))
      else
        let chunk := default [] (default None (p12_out_bytestring out 0)) in
        let clen := Z.of_nat (length chunk) in
        if (0 <? clen) && negb (alloc_ok (Z.of_nat (length data) + clen)) then Some (w, (UA_STATUSCODE_BADOUTOFMEMORY, data))
        else
          let data := data ++ chunk in
          if clen <? P12_READ_CHUNK then Some (w, (UA_STATUSCODE_GOOD, data))
          else read_chunks n w obj read handle data
  end.

Definition open_handle (sc : Z) (out : list ua_variant) : Z + Z :=
  if negb (sc =? UA_STATUSCODE_GOOD) then inr sc
  else match out with VtScalar (VUInt32 h) :: _ => inl h | _ => inr UA_STATUSCODE_BADUNEXPECTEDERROR end.

(** Read and close; a failed Read is closed too, and its status wins. *)
Definition read_and_close (rounds : nat) (w : W) (obj read close : ua_nodeid) (handle : Z) : option (W * (trust_list + Z)) :=
  do r <- read_chunks rounds w obj read handle [];
  let '(w, (readSc, data)) := r in
  let '(w, (closeSc, _)) := p12_call w obj close [p12v_uint32 handle] in
  Some (w, if negb (readSc =? UA_STATUSCODE_GOOD) then inr readSc
           else if negb (closeSc =? UA_STATUSCODE_GOOD) then inr closeSc
           else match decode_trust_list data with Some tl => inl tl | None => inr UA_STATUSCODE_BADDECODINGERROR end).

(** [masks]: [Some] for OpenWithMasks, [None] for Open with mode Read. *)
Definition p12_read_trust_list (rounds : nat) (w : W) (obj : ua_nodeid) (masks : option Z) : option (W * (trust_list + Z)) :=
  let opens := match masks with Some _ => B "OpenWithMasks" | None => B "Open" end in
  match p12_translate w obj [[opens]; [B "Read"]; [B "Close"]] with
  | (w, inr sc) => Some (w, inr sc)
  | (w, inl [openId; readId; closeId]) =>
      let '(w, (sc, out)) := p12_call w obj openId [match masks with Some m => p12v_uint32 m | None => p12v_byte 1 end] in
      match open_handle sc out with
      | inr sc => Some (w, inr sc)
      | inl handle => read_and_close rounds w obj readId closeId handle
      end
  | (w, inl _) => Some (w, inr UA_STATUSCODE_BADUNEXPECTEDERROR)
  end.

(** * Binary bodies *)

Definition p12_extension_body (e : ua_extension) : option bytes :=
  match e with
  | ExtByteString _ body => Some (default [] body)
  | ExtDecoded t h => encode_structure t h
  | _ => None
  end.

(** Four bytes, little endian. *)
Definition le_u32 (p : bytes) : Z :=
  Z.lor (Z.lor (Z.lor (nth 0 p 0) (Z.shiftl (nth 1 p 0) 8)) (Z.shiftl (nth 2 p 0) 16)) (Z.shiftl (nth 3 p 0) 24).

Definition p12_le_i32 (p : bytes) (off : nat) : option Z :=
  if Nat.ltb (length p) (off + 4) then None else Some (s32 (le_u32 (skipn off p))).

(** 0 when the bytes do not start with a NodeId. *)
Definition p12_nodeid_encoded_length (buf : bytes) : Z :=
  match buf with
  | [] => 0
  | b0 :: _ =>
      let n := match Z.land b0 63 with
               | 0 => 2
               | 1 => 4
               | 2 => 7
               | 3 | 5 => match p12_le_i32 buf 3 with None => 0 | Some slen => 7 + (if 0 <? slen then slen else 0) end
               | 4 => 19
               | _ => 0
               end in
      if n <=? Z.of_nat (length buf) then n else 0
  end.

(** * Envelope *)

Definition p12_error (category message : bytes) : P12Json :=
  let e := p12j_raw p12j_init (J ",'error':{'category':") in
  let e := p12j_raw (p12j_cstr e (Some category)) (J ",'message':") in
  p12j_raw (p12j_cstr e (Some message)) (B "}").

Definition p12_item (item : option P12Json) : bytes :=
  match item with Some j => if j_oom j then [] else j_text j | None => [] end.

(** [error]: the category and the message, [None] for a NULL category. *)
Definition p12_emit (op : bytes) (ok : bool) (sc : Z) (error : option (bytes * bytes)) (item : option P12Json) : bytes :=
  output_begin (B "open62541") op ++ output_success ok ++ output_service_result sc
  ++ J ",'results':[" ++ p12_item item ++ J "]"
  ++ match error with Some (c, m) => j_text (p12_error c m) | None => output_null_error end ++ output_end.

Definition p12_exit_code (sc : Z) : Z :=
  if sc =? UA_STATUSCODE_BADTIMEOUT then 7 else if p12_is_transport sc then 3 else 4.
End Part12.

(** The binary body of an element: of its ExtensionObject, or encoded again. *)
Definition element_body {stack : UaStack} {enc : UaCodec} (v : ua_value) : option bytes :=
  match v with
  | VExtensionObject e => p12_extension_body e
  | _ => let '(sc, d) := UA_encodeBinary v in if sc =? UA_STATUSCODE_GOOD then Some (default [] d) else None
  end.

Definition array_items (v : option ua_variant) : list ua_value :=
  match v with Some (VtArray _ items _) => items | _ => [] end.

(** What a flag is refused with: [msg] has 512 bytes. *)
Definition errorf {A} (msg : bytes) : result A := Err (snprintf 512 msg).

(** * Steps *)

(** Both commands are sequences of steps over a state (the client and the result
    under construction) with [goto done]: [Goto] carries what the command returns,
    [NoRounds] is the bound on a loop being too small. *)
Inductive ended (R A : Type) := Next (a : A) | Goto (r : R) | NoRounds.
Arguments Next {R A}.
Arguments Goto {R A}.
Arguments NoRounds {R A}.

Definition steps (S R A : Type) : Type := S -> S * ended R A.

Definition ret {S R A} (a : A) : steps S R A := fun s => (s, Next a).
Definition bind {S R A C} (m : steps S R A) (k : A -> steps S R C) : steps S R C := fun s =>
  match m s with
  | (s, Next a) => k a s
  | (s, Goto r) => (s, Goto r)
  | (s, NoRounds) => (s, NoRounds)
  end.
Definition gets {S R A} (f : S -> A) : steps S R A := fun s => (s, Next (f s)).
Definition modify {S R} (f : S -> S) : steps S R unit := fun s => (f s, Next tt).

Declare Scope part12_scope.
Notation "'run' x <- m ; k" := (bind m (fun x => k))
  (at level 10, x name, m at level 100, k at level 200) : part12_scope.
Notation "'also' m ; k" := (bind m (fun _ => k)) (at level 10, m at level 100, k at level 200) : part12_scope.
Open Scope part12_scope.

(** ** What steps keep *)

Section Post.
Context {S R : Type} (inv : S -> Prop) (E : R -> Prop).

(** The steps keep [inv]; their value satisfies [Q], what a [goto] carries [E]. *)
Definition post {A} (m : steps S R A) (Q : A -> Prop) : Prop := forall s, inv s ->
  inv (fst (m s)) /\ match snd (m s) with Next a => Q a | Goto r => E r | NoRounds => True end.

Lemma post_bind {A C} (m : steps S R A) (k : A -> steps S R C) Q Q' :
  post m Q -> (forall a, Q a -> post (k a) Q') -> post (bind m k) Q'.
Proof.
  intros Hm Hk s Hs. unfold bind. destruct (Hm s Hs) as [H1 H2]. destruct (m s) as [s1 [a|r|]]; cbn [fst snd] in *;
    [now apply Hk|now split|now split].
Qed.

(** When the value does not matter. *)
Lemma post_also {A C} (m : steps S R A) (k : A -> steps S R C) Q' :
  post m (fun _ => True) -> (forall a, post (k a) Q') -> post (bind m k) Q'.
Proof. intros Hm Hk. eapply post_bind; [exact Hm|auto]. Qed.

Lemma post_ret {A} (a : A) (Q : A -> Prop) : Q a -> post (ret a) Q.
Proof. intros H s Hs. now split. Qed.

Lemma post_gets {A} (f : S -> A) : post (gets f) (fun _ => True).
Proof. intros s Hs. now split. Qed.

Lemma post_modify f (Q : unit -> Prop) : Q tt -> (forall s, inv s -> inv (f s)) -> post (modify f) Q.
Proof. intros H Hf s Hs. split; [now apply Hf|exact H]. Qed.
End Post.

(** * Laws *)

Class Part12Laws {stack : UaStack} {W : Type} (p12 : Part12Services W) (dec : BinaryDecoders) := {
  paths_status : forall w n l, 0 <= fst (snd (Service_translatePaths w n l)) < 2 ^ 32;
  paths_wf : forall w n l r, In r (snd (snd (Service_translatePaths w n l))) -> 0 <= pr_statusCode r < 2 ^ 32;
  readValue_status : forall w n, 0 <= fst (snd (Client_readValue w n)) < 2 ^ 32;
  decode_nodeid_wf : forall b n, Bytes b -> decode_nodeid b = Some n -> bytes_nodeid n = true;
  decode_text_wf : forall b l t, Bytes b -> decode_localized_text b = Some (l, t) -> wf_str t = true;
  decode_trust_list_wf : forall b tl, Bytes b -> decode_trust_list b = Some tl -> wf_trust_list tl = true
}.

(** When the steps of a command stop: the contract says at the first Bad status, the
    code stops at the first that is not Good.  They agree on answers that are Good or Bad. *)
Class StopRule := { stops : Z -> bool }.
Definition stop_bad {stack : UaStack} : StopRule := {| stops := StatusCode_isBad |}.
Definition stop_not_good : StopRule := {| stops := fun sc => negb (sc =? UA_STATUSCODE_GOOD) |}.

Definition good_or_bad {stack : UaStack} {W} (srv : Services W) : Prop :=
  forall w o m l, let sc := fst (snd (Client_call w o m l)) in
  StatusCode_isBad sc = negb (sc =? UA_STATUSCODE_GOOD).

(** The chunks of a file that are at least [P12_READ_CHUNK] long come to an end. *)
Inductive ReadsEnd {W : Type} {srv : Services W} (obj read : ua_nodeid) (h : Z) : W -> Prop :=
| reads_end w : (forall w1 out, Client_call w obj read [p12v_uint32 h; p12v_int32 P12_READ_CHUNK] = (w1, (UA_STATUSCODE_GOOD, out)) ->
    P12_READ_CHUNK <= Z.of_nat (length (default [] (default None (p12_out_bytestring out 0)))) ->
    ReadsEnd obj read h w1) -> ReadsEnd obj read h w.

Section Lemmas.
Context {stack : UaStack} {laws : UaStackLaws stack} {heap : Heap} {hl : HeapLaws heap} {dec : BinaryDecoders}
  {W : Type} {L : ClientLib W} {srv : Services W} {srvLaws : ServicesLaws srv} {p12 : Part12Services W} {pl : Part12Laws p12 dec}.

(** ** Envelopes *)

Lemma escapes_length s : Bytes s -> (length (flat_map json_escape s) <= 6 * length s)%nat.
Proof.
  induction 1 as [|c s Hc _ IH]; cbn [flat_map length]; [lia|]. rewrite length_app. pose proof (escape_length c Hc). lia.
Qed.

Lemma json_string_length s : Bytes s -> (length (print_json_string (Some s)) <= 6 * length s + 2)%nat.
Proof.
  intros H. cbn [print_json_string app length]. rewrite length_app. cbn [length].
  pose proof (escapes_length (cstr s) (Bytes_cstr s H)). pose proof (cstr_length s). lia.
Qed.

(** A message of at most 255 bytes is printed whole. *)
Lemma p12_error_text c m : Bytes c -> Bytes m -> (length c <= 20)%nat -> (length m <= 255)%nat ->
  j_text (p12_error c m) = J ",'error':{'category':" ++ print_json_string (Some c) ++ J ",'message':" ++ print_json_string (Some m) ++ J "}".
Proof.
  intros Hc Hm Lc Lm. unfold p12_error, p12j_raw. cbv zeta.
  match goal with |- j_text ?e = ?t => assert (Writes p12j_init e t true) as H end.
  { change true with (j_first p12j_init). eapply writes_same; [apply writes_append|]. eapply writes_same; [apply (writes_cstr (Some c))|].
    eapply writes_same; [apply writes_append|]. eapply writes_same; [apply (writes_cstr (Some m))|apply writes_append]. }
  destruct H as [_ Ht _ Hs _]. apply Ht, Hs; [reflexivity|]. change (j_len p12j_init) with 0.
  pose proof (json_string_length c Hc). pose proof (json_string_length m Hm). len_parts.
Qed.

(** What [p12_emit] prints is an envelope. *)
Definition p12_rest (error : option (bytes * bytes)) (item : option P12Json) : bytes :=
  J ",'results':[" ++ p12_item item ++ J "]"
  ++ match error with Some (c, m) => j_text (p12_error c m) | None => output_null_error end.

Lemma p12_emit_envelope op ok sc error item : p12_emit op ok sc error item = envelope op ok sc (p12_rest error item).
Proof. unfold p12_emit, envelope, p12_rest. now rewrite <- !app_assoc. Qed.

Definition small_error (e : option (bytes * bytes)) : Prop :=
  match e with
  | Some (c, m) => Bytes c /\ Bytes m /\ (length c <= 20)%nat /\ (length m <= 255)%nat
  | None => True
  end.

Definition good_item (item : option P12Json) : Prop := p12_item item = [] \/ JValue (p12_item item).

Lemma JRest_p12 error item : small_error error -> good_item item -> JRest (p12_rest error item).
Proof.
  intros He Hi. set (tail := match error with Some (c, m) => j_text (p12_error c m) | None => output_null_error end).
  assert (jrun (MAfter, [FObj]) (tail ++ output_end) = Some (MAfter, [])) as Ht.
  { unfold tail, output_end. destruct error as [[c m]|]; [|reflexivity]. destruct He as (H1 & H2 & H3 & H4).
    rewrite (p12_error_text c m) by assumption.
    pose proof (JValue_json_string (Some c) H1). pose proof (JValue_json_string (Some m) H2). jwalk. }
  assert (exists items, Forall JValue items /\ p12_item item = commas items) as (items & Hv & Ec).
  { destruct Hi as [->|H]; [exists []; split; [constructor|reflexivity]|].
    exists [p12_item item]. split; [now constructor|]. cbn. now rewrite app_nil_r. }
  split; [reflexivity|]. unfold p12_rest. fold tail. rewrite Ec.
  assert (exists c r, tail ++ output_end = c :: r /\ is_delim c = true) as (c & r & Er & Hd).
  { unfold tail. destruct error as [[c m]|]; [|eexists _, _; split; reflexivity]. destruct He as (H1 & H2 & H3 & H4).
    rewrite (p12_error_text c m) by assumption. eexists _, _; split; reflexivity. }
  transitivity (jrun (MVal, [FObj]) (jarray items ++ tail ++ output_end)).
  - transitivity (jrun (MAfter, [FObj]) (J ",'results':" ++ jarray items ++ tail ++ output_end)); [|reflexivity].
    f_equal. unfold jarray. rewrite <- !app_assoc. reflexivity.
  - rewrite Er in *. now rewrite (JValue_array items Hv MVal [FObj] c r (or_introl eq_refl) Hd).
Qed.

Lemma p12_emit_reports op code sc error item : Bytes op -> 0 <= sc -> small_error error -> good_item item ->
  In code [0; 2; 3; 4; 6; 7] -> reports op code (p12_emit op (code =? 0) sc error item).
Proof. intros. rewrite p12_emit_envelope. apply reports_envelope; auto. now apply JRest_p12. Qed.

Lemma p12_exit_codes sc : In (p12_exit_code sc) [3; 4; 7].
Proof. unfold p12_exit_code. destruct (_ =? _); [cbn; tauto|]. destruct (p12_is_transport sc); cbn; tauto. Qed.

(** ** Services *)

Definition failure_code (sc : Z) : Prop := 0 <= sc < 2 ^ 32 /\ sc <> UA_STATUSCODE_GOOD.

Lemma first_targets_failure l sc : (forall r, In r l -> 0 <= pr_statusCode r < 2 ^ 32) -> first_targets l = inr sc -> failure_code sc.
Proof.
  induction l as [|r l IH]; [discriminate|]. intros Hl. cbn [first_targets].
  destruct (Z.eqb_spec (pr_statusCode r) UA_STATUSCODE_GOOD) as [E|E]; cbn [negb].
  - destruct (pr_targets r) as [|t ts]; [intros H; injection H as <-; split; [unfold UA_STATUSCODE_BADNOMATCH; lia|discriminate]|].
    destruct (first_targets l) as [ids|sc']; [discriminate|]. intros H. injection H as <-. apply IH; [|reflexivity].
    intros r' Hr'. apply Hl. now right.
  - intros H. injection H as <-. split; [|exact E]. apply Hl. now left.
Qed.

Lemma first_targets_length l ids : first_targets l = inl ids -> length ids = length l.
Proof.
  revert ids. induction l as [|r l IH]; intros ids; cbn [first_targets]; [intros H; now injection H as <-|].
  destruct (negb _); [discriminate|]. destruct (pr_targets r); [discriminate|].
  destruct (first_targets l) as [l'|]; [|discriminate]. intros H. injection H as <-. cbn. now rewrite (IH l').
Qed.

Lemma translate_result w n paths : match snd (p12_translate w n paths) with
  | inl ids => length ids = length paths | inr sc => failure_code sc end.
Proof.
  unfold p12_translate. pose proof (paths_status w n paths) as Hs. pose proof (paths_wf w n paths) as Hw.
  destruct (Service_translatePaths w n paths) as [w1 [sc results]]. cbn [fst snd] in *.
  destruct (Z.eqb_spec sc UA_STATUSCODE_GOOD) as [E|E]; cbn [negb]; [|now split].
  destruct (Nat.eqb_spec (length results) (length paths)) as [El|El]; cbn [negb];
    [|split; [unfold UA_STATUSCODE_BADUNEXPECTEDERROR; lia|discriminate]].
  destruct (first_targets results) as [ids|sc'] eqn:Ef; [|now apply (first_targets_failure results)].
  rewrite <- El. now apply first_targets_length.
Qed.

Lemma call_result w o m i : 0 <= fst (snd (p12_call w o m i)) < 2 ^ 32 /\ forallb wf_variant (snd (snd (p12_call w o m i))) = true.
Proof. split; [apply call_status|apply call_wf]. Qed.

Lemma wf_nth out i v : forallb wf_variant out = true -> nth_error out i = Some v -> wf_variant v = true.
Proof. intros H E. rewrite forallb_forall in H. apply H. now apply nth_error_In in E. Qed.

Lemma out_bytestring_wf out i d : forallb wf_variant out = true -> p12_out_bytestring out i = Some d -> wf_str d = true.
Proof.
  unfold p12_out_bytestring. intros H. destruct (nth_error out i) as [[|[]|]|] eqn:E; try discriminate.
  intros E'. injection E' as <-. exact (wf_nth out i _ H E).
Qed.

Lemma out_nodeid_wf out i n : forallb wf_variant out = true -> p12_out_nodeid out i = Some n -> bytes_nodeid n = true.
Proof.
  unfold p12_out_nodeid. intros H. destruct (nth_error out i) as [[|[]|]|] eqn:E; try discriminate.
  intros E'. injection E' as <-. apply wf_bytes_nodeid. exact (wf_nth out i _ H E).
Qed.

Lemma chunk_Bytes out : forallb wf_variant out = true -> Bytes (default [] (default None (p12_out_bytestring out 0))).
Proof.
  intros H. destruct (p12_out_bytestring out 0) as [d|] eqn:E; [|constructor].
  apply forallb_Bytes. exact (out_bytestring_wf out 0 d H E).
Qed.

(** ** Members *)

(** An operation of the builder that adds well-formed members. *)
Definition adds_members (f : P12Json -> P12Json) : Prop := forall j, exists l, Adds j (f j) l /\ Forall JMember l.

Lemma adds_members_one f key t : (forall j, Adds j (f j) [field key t]) -> key_plain key = true -> JValue t -> adds_members f.
Proof. intros H Hk Ht j. exists [field key t]. split; [apply H|]. constructor; [now apply JMember_field|constructor]. Qed.

Lemma adds_members_comp f g : adds_members f -> adds_members g -> adds_members (fun j => g (f j)).
Proof.
  intros Hf Hg j. destruct (Hf j) as (l1 & H1 & F1). destruct (Hg (f j)) as (l2 & H2 & F2).
  exists (l1 ++ l2). split; [now apply (adds_trans j (f j))|]. now apply Forall_app.
Qed.

Lemma members_b64_field key bs : key_plain key = true -> match bs with Some d => wf_str d | None => true end = true ->
  adds_members (fun j => p12j_b64_field j key bs).
Proof.
  intros Hk Hw. eapply adds_members_one; [intros j; now apply adds_b64_field|exact Hk|].
  destruct bs as [d|]; [now apply JValue_b64_json|apply JValue_empty_string].
Qed.

Lemma members_out_bytes key out i : key_plain key = true -> forallb wf_variant out = true ->
  adds_members (fun j => p12j_b64_field j key (p12_out_bytestring out i)).
Proof.
  intros Hk Hw. apply members_b64_field; [exact Hk|]. destruct (p12_out_bytestring out i) eqn:E; [|reflexivity]. now apply (out_bytestring_wf out i).
Qed.

Lemma variant_bytestrings_wf v : match v with Some x => wf_variant x | None => true end = true -> forallb wf_str (variant_bytestrings v) = true.
Proof.
  destruct v as [[|x|t items d]|]; try reflexivity.
  - destruct x; try reflexivity. cbn. intros ->. reflexivity.
  - cbn [wf_variant variant_bytestrings]. rewrite andb_true_iff. intros [H _]. destruct (type_eqb t TByteString); [|reflexivity].
    rewrite forallb_forall in *. intros d' Hd. apply in_map_iff in Hd as (x & <- & Hx). specialize (H x Hx). destruct x; try reflexivity. exact H.
Qed.

Lemma variant_nodeids_wf v : match v with Some x => wf_variant x | None => true end = true -> forallb bytes_nodeid (variant_nodeids v) = true.
Proof.
  destruct v as [[|x|t items d]|]; try reflexivity.
  - destruct x; try reflexivity. cbn [wf_variant wf_value variant_nodeids forallb]. intros H. now rewrite (wf_bytes_nodeid _ H).
  - cbn [wf_variant variant_nodeids]. rewrite andb_true_iff. intros [H _]. destruct (type_eqb t TNodeId); [|reflexivity].
    rewrite forallb_forall in *. intros n Hn. apply in_map_iff in Hn as (x & <- & Hx). specialize (H x Hx).
    destruct x; try reflexivity. now apply wf_bytes_nodeid.
Qed.

Lemma nth_out_wf out i : forallb wf_variant out = true -> match nth_out out i with Some x => wf_variant x | None => true end = true.
Proof. intros H. unfold nth_out. destruct (nth_error out i) eqn:E; [exact (wf_nth out i _ H E)|reflexivity]. Qed.

Lemma members_b64_array key v : key_plain key = true -> match v with Some x => wf_variant x | None => true end = true ->
  adds_members (fun j => p12j_b64_array_field j key v).
Proof.
  intros Hk Hw. eapply adds_members_one; [intros j; now apply adds_b64_array_field|exact Hk|]. now apply JValue_b64_array, variant_bytestrings_wf.
Qed.

Lemma members_nodeid_array key v : key_plain key = true -> match v with Some x => wf_variant x | None => true end = true ->
  adds_members (fun j => p12j_nodeid_array_field j key v).
Proof.
  intros Hk Hw. eapply adds_members_one; [intros j; now apply adds_nodeid_array_field|exact Hk|]. now apply JValue_nodeid_array, variant_nodeids_wf.
Qed.

Lemma members_status key sc : key_plain key = true -> 0 <= sc -> adds_members (fun j => p12j_status_field j key sc).
Proof. intros Hk Hs. eapply adds_members_one; [intros j; now apply adds_status_field|exact Hk|now apply JValue_status]. Qed.

(** An object of well-formed members under a key. *)
Lemma members_object key f : key_plain key = true -> adds_members f -> adds_members (fun j => p12j_close (f (p12j_open (p12j_key j key) 123)) 125).
Proof.
  intros Hk Hf j. destruct (Hf (p12j_open (p12j_key j key) 123)) as (l & Hl & Fl). exists [field key (jobject l)].
  split; [now apply adds_object|]. constructor; [apply JMember_field; [exact Hk|now apply JValue_object]|constructor].
Qed.

Lemma members_trust_list key tl : key_plain key = true -> wf_trust_list tl = true -> adds_members (fun j => p12j_trust_list (p12j_key j key) tl).
Proof.
  intros Hk Hw. eapply adds_members_one; [|exact Hk|apply (JValue_trust_list tl Hw)]. intros j.
  apply (adds_field j key (fun j => p12j_trust_list j tl)); [exact Hk|]. intros j' _. apply writes_trust_list.
Qed.

Lemma members_nodeid key n : key_plain key = true -> bytes_nodeid n = true -> adds_members (fun j => p12j_nodeid (p12j_key j key) n).
Proof. intros Hk Hn. eapply adds_members_one; [intros j; now apply adds_nodeid|exact Hk|now apply JValue_nodeid_json]. Qed.

Lemma members_raw key t : key_plain key = true -> JValue t -> adds_members (fun j => p12j_raw (p12j_key j key) t).
Proof. intros Hk Ht. eapply adds_members_one; [intros j; now apply adds_raw|exact Hk|exact Ht]. Qed.

(** The item under construction: an open object with well-formed members. *)
Definition open_item (j : P12Json) : Prop := exists l, Adds (p12j_open p12j_init 123) j l /\ Forall JMember l.

Lemma open_item_start : open_item (p12j_open p12j_init 123).
Proof. exists []. split; [apply adds_nothing|constructor]. Qed.

Lemma open_item_adds f j : adds_members f -> open_item j -> open_item (f j).
Proof.
  intros Hf (l & Hl & Fl). destruct (Hf j) as (l2 & H2 & F2). exists (l ++ l2).
  split; [now apply (adds_trans _ j)|now apply Forall_app].
Qed.

Lemma open_item_good j : open_item j -> good_item (Some (p12j_close j 125)).
Proof.
  intros (l & Hl & Fl). unfold good_item, p12_item. destruct (j_oom (p12j_close j 125)) eqn:E; [now left|]. right.
  assert (Writes p12j_init (p12j_close j 125) (jobject l) false) as H.
  { unfold p12j_close. eapply writes_first. eapply writes_trans; [eapply writes_first, writes_append|].
    eapply writes_trans; [exact Hl|apply writes_append]. }
  destruct (w_text _ _ _ _ H E) as [_ ->]. cbn [j_text p12j_init j_buf default app]. now apply JValue_object.
Qed.

Lemma open_item_plenty j : open_item j -> (forall n, alloc_ok n = true) -> j_oom (p12j_close j 125) = false.
Proof.
  intros (l & Hl & _) Hn. unfold p12j_close. cbn [j_oom set_first].
  apply (w_plenty _ _ _ _ (writes_append _ _) Hn). apply (w_plenty _ _ _ _ Hl Hn).
  apply (w_plenty _ _ _ _ (writes_append p12j_init [123]) Hn). reflexivity.
Qed.

Lemma element_body_Bytes {enc : UaCodec} {el : UaCodecLaws enc} v : wf_value v = true -> Bytes (default [] (element_body v)).
Proof.
  intros H. unfold element_body. assert (Bytes (default [] (let '(sc, d) := UA_encodeBinary v in
    if sc =? UA_STATUSCODE_GOOD then Some (default [] d) else None))) as He.
  { pose proof (encodeBinary_wf v) as [_ Hw]. destruct (UA_encodeBinary v) as [sc d]. cbn [snd] in Hw.
    destruct (_ =? _); [now apply forallb_Bytes|constructor]. }
  destruct v; try exact He. cbn [wf_value] in H. destruct e as [|t b|t b|t h]; cbn [wf_extension p12_extension_body] in *; try constructor.
  - apply andb_prop in H as [_ H]. now apply forallb_Bytes.
  - apply andb_prop in H as [_ H]. now apply forallb_Bytes.
Qed.

(** ** The TrustList read *)

Definition read_result (r : trust_list + Z) : Prop :=
  match r with inl tl => wf_trust_list tl = true | inr sc => failure_code sc end.

Lemma read_chunks_wf n obj read h : forall w data w' sc data', Bytes data ->
  read_chunks n w obj read h data = Some (w', (sc, data')) -> 0 <= sc < 2 ^ 32 /\ Bytes data'.
Proof.
  induction n as [|n IH]; intros w data w' sc data' Hd; cbn [read_chunks]; [discriminate|].
  set (inputs := [p12v_uint32 h; p12v_int32 P12_READ_CHUNK]). pose proof (call_result w obj read inputs) as [Hs Hw].
  destruct (p12_call w obj read inputs) as [w1 [sc1 out]]. cbn [fst snd] in *. pose proof (chunk_Bytes out Hw) as Hb.
  destruct (negb (sc1 =? _)); [intros H; injection H as _ <- <-; now split|].
  destruct (_ && _); [intros H; injection H as _ <- <-; split; [unfold UA_STATUSCODE_BADOUTOFMEMORY; lia|exact Hd]|].
  destruct (_ <? P12_READ_CHUNK); [|apply IH; now apply Bytes_cat].
  intros H. injection H as _ <- <-. split; [unfold UA_STATUSCODE_GOOD; lia|now apply Bytes_cat].
Qed.

Lemma read_trust_list_wf n w obj masks w' r : p12_read_trust_list n w obj masks = Some (w', r) -> read_result r.
Proof.
  assert (failure_code UA_STATUSCODE_BADUNEXPECTEDERROR) as Hun by (split; [unfold UA_STATUSCODE_BADUNEXPECTEDERROR; lia|discriminate]).
  unfold p12_read_trust_list. set (paths := [[_]; [B "Read"]; [B "Close"]]). pose proof (translate_result w obj paths) as Ht.
  destruct (p12_translate w obj paths) as [w1 [ids|sc]]; cbn [snd] in Ht; [|intros H; injection H as _ <-; exact Ht].
  destruct ids as [|openId [|readId [|closeId [|]]]]; try discriminate Ht. clear Ht.
  set (inputs := [match masks with Some m => _ | None => _ end]). pose proof (call_result w1 obj openId inputs) as [Hs _].
  destruct (p12_call w1 obj openId inputs) as [w2 [sc out]]. cbn [fst snd] in Hs. unfold open_handle.
  destruct (Z.eqb_spec sc UA_STATUSCODE_GOOD) as [E|E]; cbn [negb]; [|intros H; injection H as _ <-; now split].
  destruct out as [|[|[]|] out]; try (intros H; injection H as _ <-; exact Hun). rename z into h. unfold read_and_close.
  destruct (read_chunks n w2 obj readId h []) as [[w3 [readSc data]]|] eqn:Er; [|discriminate]. cbn [obind].
  apply read_chunks_wf in Er as [Hr Hd]; [|constructor]. pose proof (call_result w3 obj closeId [p12v_uint32 h]) as [Hc _].
  destruct (p12_call w3 obj closeId [p12v_uint32 h]) as [w4 [closeSc out4]]. cbn [fst snd] in Hc. intros H. injection H as _ <-.
  destruct (Z.eqb_spec readSc UA_STATUSCODE_GOOD) as [E1|E1]; cbn [negb]; [|now split].
  destruct (Z.eqb_spec closeSc UA_STATUSCODE_GOOD) as [E2|E2]; cbn [negb]; [|now split].
  destruct (decode_trust_list data) as [tl|] eqn:Ed; [exact (decode_trust_list_wf data tl Hd Ed)|].
  split; [unfold UA_STATUSCODE_BADDECODINGERROR; lia|discriminate].
Qed.

(** When the full chunks end, so does the loop, in one way. *)
Lemma read_chunks_ends obj read h w : ReadsEnd obj read h w -> forall data,
  exists p r, forall n, (p <= n)%nat -> read_chunks n w obj read h data = Some r.
Proof.
  induction 1 as [w _ IH]. intros data. set (inputs := [p12v_uint32 h; p12v_int32 P12_READ_CHUNK]) in *.
  destruct (Client_call w obj read inputs) as [w1 [sc out]] eqn:Ec.
  set (chunk := default [] (default None (p12_out_bytestring out 0))).
  assert (forall n, read_chunks (S n) w obj read h data =
    if negb (sc =? UA_STATUSCODE_GOOD) then Some (w1, (sc, data))
    else if (0 <? Z.of_nat (length chunk)) && negb (alloc_ok (Z.of_nat (length data) + Z.of_nat (length chunk)))
         then Some (w1, (UA_STATUSCODE_BADOUTOFMEMORY, data))
    else if Z.of_nat (length chunk) <? P12_READ_CHUNK then Some (w1, (UA_STATUSCODE_GOOD, data ++ chunk))
         else read_chunks n w1 obj read h (data ++ chunk)) as Heq.
  { intros n. cbn [read_chunks]. unfold p12_call. fold inputs. now rewrite Ec. }
  destruct (Z.eqb_spec sc UA_STATUSCODE_GOOD) as [->|E]; cbn [negb] in Heq;
    [|exists 1%nat; eexists; intros [|n] Hn; [lia|apply Heq]].
  destruct (_ && _) in Heq; [exists 1%nat; eexists; intros [|n] Hn; [lia|apply Heq]|].
  destruct (Z.ltb_spec (Z.of_nat (length chunk)) P12_READ_CHUNK) as [Hlt|Hge]; [exists 1%nat; eexists; intros [|n] Hn; [lia|apply Heq]|].
  destruct (IH w1 out eq_refl Hge (data ++ chunk)) as (p & r & Hp). exists (S p), r. intros [|n] Hn; [lia|]. rewrite Heq. apply Hp. lia.
Qed.

Lemma read_trust_list_ends w obj masks : (forall obj read h w, ReadsEnd obj read h w) ->
  exists p r, forall n, (p <= n)%nat -> p12_read_trust_list n w obj masks = Some r.
Proof.
  intros Hends. unfold p12_read_trust_list. destruct (p12_translate w obj _) as [w1 [ids|sc]]; [|exists O; eauto].
  destruct ids as [|openId [|readId [|closeId [|]]]]; try (exists O; eauto; fail).
  destruct (p12_call w1 obj openId _) as [w2 [sc out]]. destruct (open_handle sc out) as [h|sc']; [|exists O; eauto].
  destruct (read_chunks_ends obj readId h w2 (Hends _ _ _ _) []) as (p & [w3 [readSc data]] & Hp). unfold read_and_close.
  destruct (p12_call w3 obj closeId [p12v_uint32 h]) as [w4 [closeSc out4]] eqn:Ec. exists p. eexists. intros n Hn.
  rewrite (Hp n Hn). cbn [obind]. rewrite Ec. reflexivity.
Qed.
End Lemmas.

(** * Flags *)

Ltac text_bytes := repeat first [assumption|apply Bytes_B|apply Bytes_snprintf|apply Bytes_cat].

Lemma Err_inj {A} (m m' : bytes) : @Err A m = Err m' -> m = m'.
Proof. intros H. now injection H. Qed.

Lemma rbind_Err {A C} (r : result A) (k : A -> result C) (P : bytes -> Prop) m :
  rbind r k = Err m -> (r = Err m -> P m) -> (forall a, k a = Err m -> P m) -> P m.
Proof. destruct r as [a|m']; cbn; intros H H1 H2; [eauto|]. injection H as ->. auto. Qed.

Lemma Bytes_find argv f : text_argv argv -> Bytes (default [] (find_arg argv f)).
Proof. intros Ht. destruct (find_arg argv f) eqn:E; [exact (find_arg_Bytes _ _ _ Ht E)|constructor]. Qed.

Lemma all_values_incl flag : forall n argv, (length argv <= n)%nat ->
  incl (p12_all_values argv flag) argv /\ (length (p12_all_values argv flag) <= length argv)%nat.
Proof.
  induction n as [|n IH]; intros argv Hl; (destruct argv as [|a [|b r]]; cbn [length] in Hl;
    [split; [intros x []|cbn; lia]|split; [intros x []|cbn; lia]|]); [exfalso; lia|].
  cbn [p12_all_values]. destruct (streq a flag).
  - destruct (IH r ltac:(lia)) as [H1 H2]. split; [|cbn [length]; lia]. intros x [->|Hx]; [right; now left|]. right. right. now apply H1.
  - destruct (IH (b :: r) ltac:(cbn [length]; lia)) as [H1 H2]. split; [|cbn [length] in H2 |- *; apply le_S, H2]. intros x Hx. right. now apply H1.
Qed.

Lemma Bytes_values argv flag v : text_argv argv -> In v (p12_all_values argv flag) -> Bytes v.
Proof.
  intros Ht H. unfold text_argv in Ht. rewrite Forall_forall in Ht. apply Ht. now apply (all_values_incl flag (length argv) argv (le_n _)).
Qed.

(** * NodeIds in the binary encoding *)

(** [k] bytes, least significant first. *)
Fixpoint le (k : nat) (n : Z) : bytes :=
  match k with O => [] | S k => n mod 256 :: le k (n / 256) end.

Definition guid_bytes (g : ua_guid) : bytes := le 4 (data1 g) ++ le 2 (data2 g) ++ le 2 (data3 g) ++ data4 g.

(** A String or ByteString: its length (-1 for null) and its bytes. *)
Definition string_bytes (s : ua_string) : bytes :=
  le 4 (match s with Some d => Z.of_nat (length d) | None => -1 end) ++ default [] s.

(** The encodings of Part 6, 5.2.2.9; a numeric NodeId may have several. *)
Inductive nodeid_bytes : ua_nodeid -> bytes -> Prop :=
| nb_two_byte i : 0 <= i < 256 -> nodeid_bytes (UA_NODEID_NUMERIC 0 i) [0; i]
| nb_four_byte ns i : 0 <= ns < 256 -> 0 <= i < 2 ^ 16 -> nodeid_bytes (UA_NODEID_NUMERIC ns i) (1 :: ns :: le 2 i)
| nb_numeric ns i : 0 <= ns < 2 ^ 16 -> 0 <= i < 2 ^ 32 -> nodeid_bytes (UA_NODEID_NUMERIC ns i) (2 :: le 2 ns ++ le 4 i)
| nb_string ns s : 0 <= ns < 2 ^ 16 -> Z.of_nat (str_len s) < 2 ^ 31 ->
    nodeid_bytes {| namespaceIndex := ns; identifier := IdString s |} (3 :: le 2 ns ++ string_bytes s)
| nb_guid ns g : 0 <= ns < 2 ^ 16 -> wf_guid g = true -> length (data4 g) = 8%nat ->
    nodeid_bytes {| namespaceIndex := ns; identifier := IdGuid g |} (4 :: le 2 ns ++ guid_bytes g)
| nb_byte_string ns s : 0 <= ns < 2 ^ 16 -> Z.of_nat (str_len s) < 2 ^ 31 ->
    nodeid_bytes {| namespaceIndex := ns; identifier := IdByteString s |} (5 :: le 2 ns ++ string_bytes s).

Lemma le_length k n : length (le k n) = k.
Proof. revert n. induction k as [|k IH]; intros n; cbn [le length]; [reflexivity|]. now rewrite IH. Qed.

Lemma le_u32_le n r : le_u32 (le 4 n ++ r) = u32 n.
Proof.
  unfold le_u32. cbn [le app nth]. set (a := n mod 256). set (b := n / 256 mod 256). set (c := n / 256 / 256 mod 256).
  set (d := n / 256 / 256 / 256 mod 256).
  assert (0 <= a < 256 /\ 0 <= b < 256 /\ 0 <= c < 256 /\ 0 <= d < 256) as (Ha & Hb & Hc & Hd)
    by (repeat split; apply Z.mod_pos_bound; lia).
  rewrite (Z.lor_comm a), lor_disjoint by (change (2 ^ 8) with 256; lia).
  rewrite (Z.lor_comm (b * 2 ^ 8 + a)), lor_disjoint by (change (2 ^ 8) with 256; change (2 ^ 16) with 65536; lia).
  rewrite (Z.lor_comm (c * 2 ^ 16 + (b * 2 ^ 8 + a))), lor_disjoint
    by (change (2 ^ 8) with 256; change (2 ^ 16) with 65536; change (2 ^ 24) with 16777216; lia).
  unfold u32, uwrap. change (2 ^ 8) with 256. change (2 ^ 16) with 65536. change (2 ^ 24) with 16777216. change (2 ^ 32) with 4294967296.
  pose proof (Z.div_mod n 256 ltac:(lia)) as E1. pose proof (Z.div_mod (n / 256) 256 ltac:(lia)) as E2.
  pose proof (Z.div_mod (n / 256 / 256) 256 ltac:(lia)) as E3. pose proof (Z.div_mod (n / 256 / 256 / 256) 256 ltac:(lia)) as E4.
  fold a in E1. fold b in E2. fold c in E3. fold d in E4.
  apply (Z.mod_unique n 4294967296 (n / 256 / 256 / 256 / 256)); lia.
Qed.

Lemma string_bytes_length s : length (string_bytes s) = (4 + str_len s)%nat.
Proof. unfold string_bytes, str_len. rewrite length_app, le_length. now destruct s. Qed.

Lemma string_bytes_len s tag ns rest : Z.of_nat (str_len s) < 2 ^ 31 ->
  p12_le_i32 (tag :: le 2 ns ++ string_bytes s ++ rest) 3 = Some (match s with Some d => Z.of_nat (length d) | None => -1 end).
Proof.
  intros H. unfold p12_le_i32. cbn [le app length skipn]. rewrite length_app, string_bytes_length.
  destruct (Nat.ltb_spec (S (S (S (4 + str_len s + length rest)))) (3 + 4)); [lia|].
  f_equal. unfold string_bytes. rewrite skipn_O, <- app_assoc, le_u32_le. unfold str_len in H.
  destruct s as [d|]; cbn [default] in *; [|reflexivity]. unfold u32, s32. rewrite (uwrap_small 32) by lia.
  apply swrap_small; lia.
Qed.

(** A NodeId at the start of the bytes takes as many of them as it is encoded in. *)
Lemma encoded_length n b rest : nodeid_bytes n b -> p12_nodeid_encoded_length (b ++ rest) = Z.of_nat (length b).
Proof.
  intros Hb. set (l := b ++ rest). assert (Z.of_nat (length b) <= Z.of_nat (length l)) as Hl by (unfold l; rewrite length_app; lia).
  assert (forall k, k = Z.of_nat (length b) -> (if k <=? Z.of_nat (length l) then k else 0) = Z.of_nat (length b)) as Hk.
  { intros k ->. now destruct (Z.leb_spec (Z.of_nat (length b)) (Z.of_nat (length l))); [|lia]. }
  assert (forall ns s tag, Z.of_nat (str_len s) < 2 ^ 31 -> b = tag :: le 2 ns ++ string_bytes s ->
    match p12_le_i32 l 3 with None => 0 | Some slen => 7 + (if 0 <? slen then slen else 0) end = Z.of_nat (length b)) as Hs.
  { intros ns s tag Hlt E. unfold l. rewrite E. cbn [app]. rewrite <- app_assoc, (string_bytes_len s tag ns rest Hlt).
    cbn [length]. rewrite length_app, le_length, string_bytes_length. unfold str_len. destruct s as [d|]; cbn [default length]; [|reflexivity].
    destruct (Z.ltb_spec 0 (Z.of_nat (length d))); lia. }
  unfold p12_nodeid_encoded_length. fold l. inversion Hb; subst; unfold l in *; cbn [app] in *;
    [change (Z.land 0 63) with 0|change (Z.land 1 63) with 1|change (Z.land 2 63) with 2|change (Z.land 3 63) with 3
    |change (Z.land 4 63) with 4|change (Z.land 5 63) with 5]; cbv iota; apply Hk.
  - reflexivity.
  - reflexivity.
  - cbn [length]. now rewrite length_app, !le_length.
  - now apply (Hs ns s 3).
  - cbn [length]. unfold guid_bytes. rewrite !length_app, !le_length. lia.
  - now apply (Hs ns s 5).
Qed.

(** * Reading from a FileType object *)

(** What a server promises for the TrustList object [obj] (Part 5, FileType):
    opening takes a snapshot of the encoded list under a fresh handle; Read gives
    the next bytes, at most as many as asked for (the server may give fewer:
    [tl_take]), and moves along; Close releases the handle; handles do not disturb
    each other. *)
Class TrustListServer {W : Type} (srv : Services W) (p12 : Part12Services W) (obj : ua_nodeid) := {
  tl_image : W -> option Z -> bytes;
  tl_file : W -> Z -> option (bytes * nat);
  tl_method : bytes -> ua_nodeid;
  tl_paths : forall w names,
    snd (Service_translatePaths w obj (map (fun n => [n]) names)) =
      (UA_STATUSCODE_GOOD, map (fun n => {| pr_statusCode := UA_STATUSCODE_GOOD; pr_targets := [tl_method n] |}) names) /\
    let w' := fst (Service_translatePaths w obj (map (fun n => [n]) names)) in
    (forall m, tl_image w' m = tl_image w m) /\ (forall h, tl_file w' h = tl_file w h);
  tl_open : forall w masks,
    let r := Client_call w obj (tl_method match masks with Some _ => B "OpenWithMasks" | None => B "Open" end)
               [match masks with Some m => p12v_uint32 m | None => p12v_byte 1 end] in
    exists h, snd r = (UA_STATUSCODE_GOOD, [VtScalar (VUInt32 h)]) /\ tl_file w h = None /\
      tl_file (fst r) h = Some (tl_image w masks, O) /\ (forall h', h' <> h -> tl_file (fst r) h' = tl_file w h');
  tl_take : W -> Z -> Z -> nat;
  tl_read : forall w h f p n, tl_file w h = Some (f, p) -> 0 < n ->
    let chunk := firstn (Nat.min (tl_take w h n) (Z.to_nat n)) (skipn p f) in
    let r := Client_call w obj (tl_method (B "Read")) [p12v_uint32 h; p12v_int32 n] in
    snd r = (UA_STATUSCODE_GOOD, [VtScalar (VByteString (Some chunk))]) /\
    tl_file (fst r) h = Some (f, (p + length chunk)%nat) /\ (forall h', h' <> h -> tl_file (fst r) h' = tl_file w h');
  tl_close : forall w h f p, tl_file w h = Some (f, p) ->
    let r := Client_call w obj (tl_method (B "Close")) [p12v_uint32 h] in
    fst (snd r) = UA_STATUSCODE_GOOD /\ tl_file (fst r) h = None /\ (forall h', h' <> h -> tl_file (fst r) h' = tl_file w h')
}.

Section File.
Context {heap : Heap} (plenty : forall n, alloc_ok n = true).
Context {dec : BinaryDecoders} {W : Type} {srv : Services W} {p12 : Part12Services W} {obj : ua_nodeid} {tls : TrustListServer srv p12 obj}.

(** The server after [k] Reads of a chunk. *)
Fixpoint after_reads (k : nat) (w : W) (h : Z) : W :=
  match k with
  | O => w
  | S k => after_reads k (fst (Client_call w obj (tl_method (B "Read")) [p12v_uint32 h; p12v_int32 P12_READ_CHUNK])) h
  end.

(** After [k] full chunks from position [p] on, the server answers a Read with
    fewer bytes than asked for although the file goes on: [q] bytes are read. *)
Definition short_read (w : W) (h : Z) (f : bytes) (p q : nat) : Prop :=
  exists k, let n := tl_take (after_reads k w h) h P12_READ_CHUNK in
    tl_file (after_reads k w h) h = Some (f, p + k * 4096)%nat /\ (n < 4096)%nat /\ q = (p + k * 4096 + n)%nat /\ (q < length f)%nat.

Lemma firstn_add {A} (a b : nat) (l : list A) : firstn (a + b) l = firstn a l ++ firstn b (skipn a l).
Proof. revert l. induction a as [|a IH]; intros [|x l]; cbn [Nat.add firstn skipn app]; rewrite ?firstn_nil; try reflexivity. now rewrite IH. Qed.

(** From position [p] on, full chunks and a short one are read, up to [q]. *)
Lemma read_chunks_file k : forall rounds w h f p data, tl_file w h = Some (f, p) -> (p <= length f)%nat ->
  Z.of_nat (length f - p) < P12_READ_CHUNK * (Z.of_nat k + 1) -> (k < rounds)%nat ->
  exists w' q, read_chunks rounds w obj (tl_method (B "Read")) h data = Some (w', (UA_STATUSCODE_GOOD, data ++ firstn (q - p) (skipn p f))) /\
    (p <= q <= length f)%nat /\ (q = length f \/ short_read w h f p q) /\
    tl_file w' h = Some (f, q) /\ (forall h', h' <> h -> tl_file w' h' = tl_file w h').
Proof.
  induction k as [|k IH]; intros [|n] w h f p data Hf Hp Hlen Hn; try lia; cbn [read_chunks]; unfold p12_call;
    destruct (tl_read w h f p P12_READ_CHUNK Hf eq_refl) as (E & Hf' & Ho); cbv zeta in *;
    destruct (Client_call w obj _ _) as [w1 r] eqn:Ew; cbn [fst snd] in *; subst r;
    change (UA_STATUSCODE_GOOD =? UA_STATUSCODE_GOOD) with true; cbn [negb p12_out_bytestring nth_error default]; rewrite plenty, andb_false_r;
    set (take := Nat.min _ _) in *; assert (length (firstn take (skipn p f)) = Nat.min take (length f - p)) as Hc
      by now rewrite length_firstn, length_skipn.
  all: assert (take = Nat.min (tl_take w h P12_READ_CHUNK) 4096) as Ht by reflexivity; unfold P12_READ_CHUNK in Hlen;
    rewrite Hc in *; set (c := Nat.min take (length f - p)) in *;
    assert (firstn take (skipn p f) = firstn c (skipn p f)) as Hfc
      by (unfold c; rewrite <- length_skipn, <- firstn_firstn, firstn_all; reflexivity).
  all: assert ((c < 4096)%nat -> exists w' q, Some (w1, (UA_STATUSCODE_GOOD, data ++ firstn take (skipn p f)))
         = Some (w', (UA_STATUSCODE_GOOD, data ++ firstn (q - p) (skipn p f))) /\ (p <= q <= length f)%nat /\
           (q = length f \/ short_read w h f p q) /\ tl_file w' h = Some (f, q) /\ (forall h', h' <> h -> tl_file w' h' = tl_file w h')) as Hlast.
  1,3: intros Hs; exists w1, (p + c)%nat; replace (p + c - p)%nat with c by lia; rewrite Hfc; (split; [reflexivity|]); (split; [lia|]);
    (split; [|split; [exact Hf'|exact Ho]]); destruct (Nat.eq_dec (p + c) (length f)) as [Hq|Hq]; [now left|right];
    exists O; cbn [after_reads]; cbv zeta; rewrite Nat.mul_0_l, Nat.add_0_r; (split; [exact Hf|]); lia.
  - destruct (Z.ltb_spec (Z.of_nat c) P12_READ_CHUNK) as [Hs|Hs]; unfold P12_READ_CHUNK in Hs; [|lia]. apply Hlast. lia.
  - destruct (Z.ltb_spec (Z.of_nat c) P12_READ_CHUNK) as [Hs|Hs]; unfold P12_READ_CHUNK in Hs; [apply Hlast; lia|].
    destruct (IH n w1 h f (p + c)%nat (data ++ firstn take (skipn p f)) Hf') as (w' & q & Er & Hq & Hw & Hf2 & Ho2); [unfold P12_READ_CHUNK; lia..|].
    exists w', q. split; [|split; [lia|split; [|split; [exact Hf2|intros h' Hh; rewrite (Ho2 h' Hh); now apply Ho]]]].
    2:{ destruct Hw as [Hw|(i & Hi & Hw)]; [now left|right]. exists (S i). cbn [after_reads]. rewrite Ew. cbn [fst]. cbv zeta in *.
        replace (p + S i * 4096)%nat with (p + c + i * 4096)%nat by lia. split; [exact Hi|lia]. }
    rewrite Er. do 3 f_equal.
    rewrite <- app_assoc. f_equal. replace (q - p)%nat with (c + (q - (p + c)))%nat by lia.
    now rewrite Hfc, firstn_add, skipn_skipn, (Nat.add_comm c p).
Qed.
End File.

(** The server after Open. *)
Definition opened {W} (srv : Services W) (p12 : Part12Services W) obj {tls : TrustListServer srv p12 obj} (w : W) (masks : option Z) : W :=
  let name := match masks with Some _ => B "OpenWithMasks" | None => B "Open" end in
  let w1 := fst (Service_translatePaths w obj [[name]; [B "Read"]; [B "Close"]]) in
  fst (Client_call w1 obj (tl_method name) [match masks with Some m => p12v_uint32 m | None => p12v_byte 1 end]).

(** C40: reading a TrustList from a server with the FileType behaviour, as long as
    there is memory: the bytes up to the end of the file are collected (also when
    their number is an exact multiple of the 4096 of a chunk), or up to the first
    Read that the server answers with fewer bytes than asked for, which the code
    takes for the end; they are decoded, or BadDecodingError is returned when they
    do not decode; it takes at most one Read more than the file has full chunks, and
    afterwards the handle is closed again: the open files of the server are those
    from before. *)
Theorem read_trust_list_complete {heap : Heap} {dec : BinaryDecoders} {W} {srv : Services W} {p12 : Part12Services W} {obj}
    {tls : TrustListServer srv p12 obj} rounds w masks :
  let f := tl_image w masks in
  (forall n, alloc_ok n = true) -> Z.of_nat (length f) / P12_READ_CHUNK < Z.of_nat rounds ->
  exists w' h q, p12_read_trust_list rounds w obj masks =
    Some (w', match decode_trust_list (firstn q f) with Some tl => inl tl | None => inr UA_STATUSCODE_BADDECODINGERROR end) /\
    tl_file (opened srv p12 obj w masks) h = Some (f, O) /\
    (q = length f \/ short_read (opened srv p12 obj w masks) h f 0 q) /\
    forall h, tl_file w' h = tl_file w h.
Proof.
  intros f Ha Hr. unfold opened, f in *. clear f. unfold p12_read_trust_list, p12_translate. set (name := match masks with Some _ => B "OpenWithMasks" | None => B "Open" end).
  destruct (tl_paths w [name; B "Read"; B "Close"]) as (Et & Hi & Hk). cbn [map] in Et, Hi, Hk. cbv zeta in Hi, Hk.
  destruct (Service_translatePaths w obj _) as [w1 r]. cbn [fst snd] in *. subst r.
  change (UA_STATUSCODE_GOOD =? UA_STATUSCODE_GOOD) with true.
  cbn [negb length Nat.eqb first_targets pr_statusCode pr_targets]. change (UA_STATUSCODE_GOOD =? UA_STATUSCODE_GOOD) with true.
  cbn [negb]. fold name. unfold p12_call at 1. destruct (tl_open w1 masks) as (h & Eo & Hn & Hf & Ho). fold name in Eo, Hn, Hf, Ho.
  destruct (Client_call w1 obj (tl_method name) _) as [w2 r]. cbn [fst snd] in *. subst r. unfold open_handle.
  change (UA_STATUSCODE_GOOD =? UA_STATUSCODE_GOOD) with true. cbn [negb]. unfold read_and_close. rewrite Hi in Hf.
  set (f := tl_image w masks) in *. pose proof (Z.div_pos (Z.of_nat (length f)) P12_READ_CHUNK ltac:(lia) eq_refl) as Hd.
  destruct (read_chunks_file Ha (Z.to_nat (Z.of_nat (length f) / P12_READ_CHUNK)) rounds w2 h f 0 [] Hf) as (w3 & q & -> & Hq & Hw & Hf3 & Ho3);
    [lia| |lia|].
  { rewrite Z2Nat.id, Nat.sub_0_r by exact Hd. pose proof (Z.mod_pos_bound (Z.of_nat (length f)) P12_READ_CHUNK eq_refl).
    pose proof (Z.div_mod (Z.of_nat (length f)) P12_READ_CHUNK ltac:(discriminate)). lia. }
  cbn [obind app skipn]. rewrite Nat.sub_0_r. unfold p12_call. destruct (tl_close w3 h f q Hf3) as (Ec & Hc & Ho4).
  destruct (Client_call w3 obj (tl_method (B "Close")) _) as [w4 [closeSc out]]. cbn [fst snd] in *. subst closeSc.
  change (UA_STATUSCODE_GOOD =? UA_STATUSCODE_GOOD) with true. cbn [negb]. exists w4, h, q. split; [reflexivity|]. split; [exact Hf|]. split; [exact Hw|]. intros h'.
  destruct (Z.eq_dec h' h) as [->|E]; [rewrite Hc, <- Hk; now symmetry|]. now rewrite (Ho4 h' E), (Ho3 h' E), (Ho h' E).
Qed.

(** * A file server *)

(** [fs_most]: the most bytes the server gives in one Read. *)
Record fserver := { fs_image : bytes; fs_most : nat; fs_files : list (Z * (bytes * nat)) }.

Definition fs_find (w : fserver) (h : Z) : option (bytes * nat) := option_map snd (find (fun p => fst p =? h) (fs_files w)).
Definition fs_drop (h : Z) (w : fserver) : fserver :=
  {| fs_image := fs_image w; fs_most := fs_most w; fs_files := filter (fun p => negb (fst p =? h)) (fs_files w) |}.
Definition fs_set (h : Z) (x : bytes * nat) (w : fserver) : fserver :=
  {| fs_image := fs_image w; fs_most := fs_most w; fs_files := (h, x) :: fs_files (fs_drop h w) |}.
Definition fs_fresh (w : fserver) : Z := fold_right (fun p m => Z.max (fst p + 1) m) 0 (fs_files w).

Definition fs_object : ua_nodeid := UA_NODEID_NUMERIC 0 12642.
Definition fs_method (name : bytes) : ua_nodeid := {| namespaceIndex := 1; identifier := IdString (Some name) |}.

Definition fs_call (w : fserver) (method : ua_nodeid) (inputs : list ua_variant) : fserver * (Z * list ua_variant) :=
  match identifier method, inputs with
  | IdString (Some name), [VtScalar (VUInt32 h); VtScalar (VInt32 n)] =>
      if streq name (B "Read") then
        match fs_find w h with
        | Some (f, p) => let chunk := firstn (Nat.min (fs_most w) (Z.to_nat n)) (skipn p f) in
            (fs_set h (f, p + length chunk)%nat w, (UA_STATUSCODE_GOOD, [VtScalar (VByteString (Some chunk))]))
        | None => (w, (UA_STATUSCODE_BADINVALIDARGUMENT, []))
        end
      else (w, (UA_STATUSCODE_BADNODEIDUNKNOWN, []))
  | IdString (Some name), [_] =>
      if streq name (B "Close") then
        match inputs with
        | [VtScalar (VUInt32 h)] => (fs_drop h w, (UA_STATUSCODE_GOOD, []))
        | _ => (w, (UA_STATUSCODE_BADINVALIDARGUMENT, []))
        end
      else let h := fs_fresh w in (fs_set h (fs_image w, O) w, (UA_STATUSCODE_GOOD, [VtScalar (VUInt32 h)]))
  | _, _ => (w, (UA_STATUSCODE_BADNODEIDUNKNOWN, []))
  end.

Definition fs_services : Services fserver := {|
  NamespaceGetIndex w _ := (w, None);
  Service_read w _ _ := (w, (UA_STATUSCODE_GOOD, []));
  Service_write w _ := (w, (UA_STATUSCODE_GOOD, []));
  Service_browse w _ := (w, (UA_STATUSCODE_GOOD, []));
  Service_browseNext w _ := (w, (UA_STATUSCODE_GOOD, []));
  Service_translate w _ _ := (w, (UA_STATUSCODE_GOOD, []));
  Client_call w _ m i := fs_call w m i;
  Client_findServers w _ := (w, (UA_STATUSCODE_GOOD, []));
  Channel_getEndpoints w _ := (w, (UA_STATUSCODE_GOOD, []));
  Channel_findServers w := (w, (UA_STATUSCODE_GOOD, [])) |}.

Definition fs_part12 : Part12Services fserver := {|
  Service_translatePaths w _ l := (w, (UA_STATUSCODE_GOOD,
    map (fun p => {| pr_statusCode := UA_STATUSCODE_GOOD; pr_targets := [fs_method (last p [])] |}) l));
  Client_readValue w _ := (w, (UA_STATUSCODE_GOOD, VtEmpty));
  sleep_ms w _ := w |}.

Lemma fs_find_drop w h h' : fs_find (fs_drop h w) h' = if h' =? h then None else fs_find w h'.
Proof.
  unfold fs_find, fs_drop. cbn [fs_files]. induction (fs_files w) as [|[k x] l IH]; cbn [filter find fst]; [now destruct (h' =? h)|].
  destruct (Z.eqb_spec k h) as [->|E]; cbn [negb find fst].
  - rewrite IH. destruct (Z.eqb_spec h' h) as [->|E']; [reflexivity|]. now destruct (Z.eqb_spec h h'); [subst|].
  - destruct (Z.eqb_spec k h') as [->|E']; [|exact IH]. now destruct (Z.eqb_spec h' h).
Qed.

Lemma fs_find_set w h x h' : fs_find (fs_set h x w) h' = if h' =? h then Some x else fs_find w h'.
Proof.
  unfold fs_set at 1. unfold fs_find at 1. cbn [fs_files find fst]. rewrite Z.eqb_sym. destruct (Z.eqb_spec h' h) as [->|E]; [reflexivity|].
  change (option_map snd (find (fun p => fst p =? h') (fs_files (fs_drop h w)))) with (fs_find (fs_drop h w) h').
  rewrite fs_find_drop. now destruct (Z.eqb_spec h' h).
Qed.

Lemma fs_fresh_free w : fs_find w (fs_fresh w) = None.
Proof.
  unfold fs_find, fs_fresh. assert (forall n l, fold_right (fun (p : Z * (bytes * nat)) m => Z.max (fst p + 1) m) 0 l <= n ->
    option_map snd (find (fun p => fst p =? n) l) = None) as H; [|apply H; lia].
  intros n l. induction l as [|[k x] l IH]; cbn [fold_right find fst]; [reflexivity|]. intros Hn.
  destruct (Z.eqb_spec k n) as [->|]; [lia|]. apply IH. lia.
Qed.

Lemma fs_call_open w masks :
  fs_call w (fs_method match masks with Some _ => B "OpenWithMasks" | None => B "Open" end)
    [match masks with Some m => p12v_uint32 m | None => p12v_byte 1 end] =
  (fs_set (fs_fresh w) (fs_image w, O) w, (UA_STATUSCODE_GOOD, [VtScalar (VUInt32 (fs_fresh w))])).
Proof. now destruct masks. Qed.

Lemma fs_call_read w h n f p : fs_find w h = Some (f, p) -> let chunk := firstn (Nat.min (fs_most w) (Z.to_nat n)) (skipn p f) in
  fs_call w (fs_method (B "Read")) [p12v_uint32 h; p12v_int32 n] =
  (fs_set h (f, p + length chunk)%nat w, (UA_STATUSCODE_GOOD, [VtScalar (VByteString (Some chunk))])).
Proof.
  intros H. unfold fs_call, fs_method, p12v_uint32, p12v_int32. cbn [identifier].
  change (streq (B "Read") (B "Read")) with true. cbv iota. now rewrite H.
Qed.

#[export] Instance fs_trust_list : TrustListServer fs_services fs_part12 fs_object.
Proof.
  refine {| tl_image := fun w _ => fs_image w; tl_file := fs_find; tl_method := fs_method; tl_take := fun w _ _ => fs_most w |}.
  - intros w names. cbn [Service_translatePaths fs_part12 fst snd]. rewrite map_map. cbn [last]. auto.
  - intros w masks. exists (fs_fresh w). cbn [Client_call fs_services]. rewrite fs_call_open. cbn [fst snd].
    rewrite fs_find_set, Z.eqb_refl. repeat split; [apply fs_fresh_free|]. intros h' E. rewrite fs_find_set.
    now destruct (Z.eqb_spec h' (fs_fresh w)).
  - intros w h f p n Hf Hn. cbn [Client_call fs_services]. rewrite (fs_call_read w h n f p Hf). cbn [fst snd].
    rewrite fs_find_set, Z.eqb_refl. repeat split. intros h' E. rewrite fs_find_set. now destruct (Z.eqb_spec h' h).
  - intros w h f p Hf. cbn [Client_call fs_services].
    change (fs_call w (fs_method (B "Close")) [p12v_uint32 h]) with (fs_drop h w, (UA_STATUSCODE_GOOD, @nil ua_variant)). cbn [fst snd].
    rewrite fs_find_drop, Z.eqb_refl. repeat split. intros h' E. rewrite fs_find_drop. now destruct (Z.eqb_spec h' h).
Defined.

(** A decoder that takes the first byte as the mask and the rest as one certificate. *)
Definition toy_decoders : BinaryDecoders := {|
  decode_nodeid _ := None; decode_localized_text _ := None;
  decode_trust_list b := match b with
    | [] => None
    | m :: r => Some {| specifiedLists := m; trustedCertificates := [Some r]; trustedCrls := []; issuerCertificates := []; issuerCrls := [] |}
    end |}.

Lemma toy_trust_list_wf b tl : Bytes b -> decode_trust_list (BinaryDecoders := toy_decoders) b = Some tl -> wf_trust_list tl = true.
Proof.
  destruct b as [|m b]; intros Hb H; [discriminate|]. injection H as <-. inversion Hb as [|? ? Hm Hr]; subst. unfold is_byte in Hm. zbool.
  unfold wf_trust_list. cbn [specifiedLists trustedCertificates trustedCrls issuerCertificates issuerCrls forallb].
  rewrite !andb_true_r. apply andb_true_intro. split; [now apply Z.leb_le|]. apply forallb_forall. now rewrite Forall_forall in Hr.
Qed.

Definition toy_file (most : nat) : fserver := {| fs_image := 15 :: repeat 7 4095; fs_most := most; fs_files := [] |}.

Lemma read_trust_list_complete_witness : exists w' h q,
  @p12_read_trust_list plentiful toy_decoders fserver fs_services fs_part12 2 (toy_file 5000) fs_object (Some 15) = Some (w',
    match decode_trust_list (BinaryDecoders := toy_decoders) (firstn q (fs_image (toy_file 5000))) with Some tl => inl tl | None => inr UA_STATUSCODE_BADDECODINGERROR end) /\
  (q = length (fs_image (toy_file 5000)) \/ short_read (tls := fs_trust_list) (opened fs_services fs_part12 fs_object (toy_file 5000) (Some 15)) h (fs_image (toy_file 5000)) 0 q) /\
  fs_find w' 0 = None.
Proof.
  destruct (read_trust_list_complete (heap := plentiful) (dec := toy_decoders) (srv := fs_services) (p12 := fs_part12) (obj := fs_object) 2 (toy_file 5000)
    (Some 15) (fun _ => eq_refl)) as (w' & h & q & E & Ho & Hq & Hf); [vm_compute; reflexivity|].
  exists w', h, q. split; [exact E|]. split; [exact Hq|exact (Hf 0)].
Defined.

(** A server that gives at most 100 bytes per Read, as FileType allows: the list of
    4096 bytes is cut, and the read succeeds. *)
Lemma short_read_truncates : exists w' tl,
  @p12_read_trust_list plentiful toy_decoders fserver fs_services fs_part12 2 (toy_file 100) fs_object (Some 15) = Some (w', inl tl) /\
  trustedCertificates tl = [Some (repeat 7 99)].
Proof. eexists _, _. split; [vm_compute; reflexivity|reflexivity]. Qed.
