(* ===== verification/Push.v ===== *)
(** push.c: the [push] command, push certificate management of a server (Part 12).
    Its arguments, its steps on one session, and the command itself.  The sequence
    of method calls refines a plan computed from the flags. *)

From Stdlib Require Import String Ascii ZArith Bool List Lia.
Import ListNotations.
From S2P Require Import Prelude CLib Certificates Json UaTypes RefStack Base64 Output CJson Values RoundTrip Args.
From S2P Require Import NodeIds Connect Session ReadWrite BrowseCall Historian HistoryRead Subscribe NodeServices HistoryEvents Codec.
From S2P Require Import LocalDiscovery P12Json Part12.

(** * Constants *)

Definition PUSH_SERVER_CONFIGURATION : Z := 12637.
Definition PUSH_UPDATE_CERTIFICATE : Z := 13737.
Definition PUSH_CREATE_SIGNING_REQUEST : Z := 12737.
Definition PUSH_GET_REJECTED_LIST : Z := 12777.
Definition PUSH_APPLY_CHANGES : Z := 12740.
Definition PUSH_GET_CERTIFICATES : Z := 32333.
Definition PUSH_CREATE_SELF_SIGNED : Z := 19342.
Definition PUSH_DELETE_CERTIFICATE : Z := 19345.
Definition PUSH_CANCEL_CHANGES : Z := 25708.
Definition PUSH_RESET_TO_SERVER_DEFAULTS : Z := 25709.
Definition PUSH_TRUST_LIST_MASKS_ALL : Z := 15.

Definition kTxDiagnostics : list Z := [32337; 32338; 32339; 32340; 32341; 32342].

Definition push_op : bytes := B "push".

(** * Arguments *)

Record PushArgs := {
  pa_group : Z; pa_defaultType : Z; pa_certTypeStr : option bytes; pa_add : bytes; pa_remove : option bytes;
  pa_issuer : bool; pa_csr : bool; pa_apply : bool; pa_cancel : bool; pa_getCerts : bool; pa_selfSigned : bool;
  pa_reset : bool; pa_diagnostics : bool; pa_subject : option bytes; pa_dns : list bytes; pa_ip : list bytes;
  pa_lifetimeDays : Z; pa_keySize : Z; pa_deleteType : option bytes; pa_update : option bytes;
  (** the key format and the key of [--update-private-key] *)
  pa_key : option (bytes * bytes); pa_issuers : list bytes }.

Definition ends_with_ci (s suffix : bytes) : bool :=
  Nat.leb (length suffix) (length s) && strcaseeq (skipn (length s - length suffix) s) suffix.

(** The CertificateGroup and its default CertificateType. *)
Definition push_group (group : option bytes) : option (Z * Z) :=
  match group with
  | None => Some (14156, 12560)
  | Some g => if streq g (B "Application") then Some (14156, 12560)
              else if streq g (B "Https") then Some (14088, 12558)
              else if streq g (B "UserToken") then Some (14122, 15181)
              else None
  end.

(** A NodeId flag is only checked for its structure. *)
Definition nodeid_flag (s : option bytes) : result unit :=
  match s with
  | Some n => if validate_nodeid_structure n then Ok tt else errorf (B "malformed NodeId: '" ++ n ++ B "'")
  | None => Ok tt
  end.

Definition uint16_flag (argv : list bytes) (flag : string) (def : Z) : result Z :=
  match find_arg argv (B flag) with
  | None => Ok def
  | Some s => match p12_parse_uint s 65535 with
              | Some v => Ok (u16 v)
              | None => errorf (B flag ++ B " must be a UInt16, got " ++ s)
              end
  end.

Section PushParse.
Context {stack : UaStack} {xl : X509Lib} {W : Type} {L : ClientLib W}.

Definition certificate_flag (w : W) (flag : string) (path : bytes) : result bytes :=
  of_option (snprintf 512 (B flag ++ B " " ++ path ++ B ": cannot read a PEM or DER certificate")) (p12_read_certificate w path).

Definition opt_certificate (w : W) (flag : string) (path : option bytes) : result (option bytes) :=
  match path with None => Ok None | Some p => try c <- certificate_flag w flag p; Ok (Some c) end.

(** The private key: its format (by the file name without a flag) and the file's bytes. *)
Definition key_flag (w : W) (argv : list bytes) (path : option bytes) : result (option (bytes * bytes)) :=
  match path with
  | None => Ok None
  | Some f =>
      try fmt <- match find_arg argv (B "--private-key-format") with
                 | Some fmt => if streq fmt (B "PEM") || streq fmt (B "PFX") then Ok fmt
                               else errorf (B "--private-key-format must be PEM or PFX, got " ++ fmt)
                 | None => Ok (if ends_with_ci f (B ".pfx") || ends_with_ci f (B ".p12") then B "PFX" else B "PEM")
                 end;
      try key <- of_option (snprintf 512 (B "--update-private-key " ++ f ++ B ": cannot read the file")) (p12_read_file w f);
      Ok (Some (fmt, key))
  end.

Definition push_parse (w : W) (argv : list bytes) : result PushArgs :=
  try _ <- of_option (B "--endpoint is required") (find_arg argv (B "--endpoint"));
  let group := find_arg argv (B "--group") in
  try g <- of_option (snprintf 512 (B "--group must be Application, Https or UserToken, got " ++ default [] group)) (push_group group);
  let certType := find_arg argv (B "--certificate-type-id") in
  try _ <- nodeid_flag certType;
  let deleteType := find_arg argv (B "--delete-certificate") in
  try _ <- nodeid_flag deleteType;
  try add <- opt_certificate w "--add-certificate" (find_arg argv (B "--add-certificate"));
  let has f := p12_has_flag argv (B f) in
  let apply := has "--apply"%string in
  let selfSigned := has "--create-self-signed"%string in
  try lifetime <- uint16_flag argv "--lifetime-days" 365;
  try keySize <- uint16_flag argv "--key-size" 0;
  let upd := find_arg argv (B "--update-certificate") in
  let keyFile := find_arg argv (B "--update-private-key") in
  try _ <- (if is_some keyFile && negb (is_some upd) then Err (B "--update-private-key needs --update-certificate") else Ok tt);
  try update <- opt_certificate w "--update-certificate" upd;
  try key <- key_flag w argv keyFile;
  try issuers <- mapR (certificate_flag w "--issuer-certificate") (p12_all_values argv (B "--issuer-certificate"));
  Ok {| pa_group := fst g; pa_defaultType := snd g; pa_certTypeStr := certType; pa_add := default [] add;
        pa_remove := find_arg argv (B "--remove-certificate"); pa_issuer := has "--issuer"%string; pa_csr := has "--csr"%string;
        pa_apply := apply; pa_cancel := negb apply && (has "--cancel"%string || selfSigned || is_some deleteType);
        pa_getCerts := has "--get-certificates"%string; pa_selfSigned := selfSigned; pa_reset := has "--reset-to-defaults"%string;
        pa_diagnostics := has "--transaction-diagnostics"%string; pa_subject := find_arg argv (B "--subject");
        pa_dns := p12_all_values argv (B "--dns"); pa_ip := p12_all_values argv (B "--ip");
        pa_lifetimeDays := lifetime; pa_keySize := keySize; pa_deleteType := deleteType; pa_update := update;
        pa_key := key; pa_issuers := issuers |}.
End PushParse.

(** * The result under construction *)

Record PushOut := { po_j : P12Json; po_failed : bool; po_inputErr : bool; po_failSc : Z; po_failMsg : bytes }.

Definition set_j (j : P12Json) (o : PushOut) : PushOut :=
  {| po_j := j; po_failed := po_failed o; po_inputErr := po_inputErr o; po_failSc := po_failSc o; po_failMsg := po_failMsg o |}.
Definition set_failMsg (m : bytes) (o : PushOut) : PushOut :=
  {| po_j := po_j o; po_failed := po_failed o; po_inputErr := po_inputErr o; po_failSc := po_failSc o; po_failMsg := snprintf 256 m |}.
Definition set_inputErr (o : PushOut) : PushOut :=
  {| po_j := po_j o; po_failed := po_failed o; po_inputErr := true; po_failSc := po_failSc o; po_failMsg := po_failMsg o |}.
Definition set_failed (sc : Z) (o : PushOut) : PushOut :=
  {| po_j := po_j o; po_failed := true; po_inputErr := po_inputErr o; po_failSc := sc; po_failMsg := po_failMsg o |}.

Definition push_fail (o : PushOut) (sc : Z) (what : string) : PushOut :=
  if po_failed o then o else set_failMsg (B what ++ B " returned a non-Good status") (set_failed sc o).

Section Push.
Context {stack : UaStack} {heap : Heap} {nid : NodeIdOps} {xl : X509Lib} {dec : BinaryDecoders} {enc : UaCodec}
  {W : Type} {L : ClientLib W} {srv : Services W} {p12 : Part12Services W}.

(** The client and the result; [Goto] carries the status that ends the command. *)
Abbreviation push A := (steps (W * PushOut) Z A).

Definition out_j (f : P12Json -> P12Json) : push unit := modify (fun s => (fst s, set_j (f (po_j (snd s))) (snd s))).

(** The status of a step; true when it is Good. *)
Definition push_step (name : string) (sc : Z) : push bool :=
  also out_j (fun j => p12j_status_field j (name ++ "Status")%string sc);
  if sc =? UA_STATUSCODE_GOOD then ret true
  else also modify (fun s => (fst s, push_fail (snd s) sc name)); ret false.

(** ** TransactionDiagnostics *)

(** TargetId, Error and Message of one TransactionErrorType; [None]: no body. *)
Definition tx_error_parts (body : option bytes) : ua_nodeid * Z * ua_string :=
  let off := match body with Some b => p12_nodeid_encoded_length b | None => 0 end in
  let b := default [] body in
  match (if (0 <? off) && (off + 4 <=? Z.of_nat (length b)) then decode_nodeid b else None) with
  | Some n => let p := skipn (Z.to_nat off) b in
              (n, le_u32 p, match decode_localized_text (skipn 4 p) with Some (_, t) => t | None => None end)
  | None => (UA_NODEID_NULL, UA_STATUSCODE_BADDECODINGERROR, None)
  end.

Definition tx_error_fields (target : ua_nodeid) (err : Z) (text : ua_string) (j : P12Json) : P12Json :=
  let j := p12j_nodeid (p12j_key j "targetId") target in
  let j := p12j_status (p12j_key j "error") err in
  p12j_uastr (p12j_key j "message") text.

Definition push_tx_error (j : P12Json) (body : option bytes) : P12Json :=
  let '(target, err, text) := tx_error_parts body in
  p12j_close (tx_error_fields target err text (p12j_open j 123)) 125.

Definition push_tx_errors (j : P12Json) (v : option ua_variant) : P12Json :=
  p12j_close (fold_left (fun j x => push_tx_error (p12j_sep j) (element_body x)) (array_items v)
                (p12j_open (p12j_key j "errors") 91)) 93.

Definition result_value (d : ua_datavalue) : option ua_variant := let '(DataValue v _ _ _ _ _) := d in v.

(** The first status of a result that is not Good. *)
Fixpoint first_bad_status (l : list ua_datavalue) : Z :=
  match l with
  | [] => UA_STATUSCODE_GOOD
  | DataValue _ (Some sc) _ _ _ _ :: r => if sc =? UA_STATUSCODE_GOOD then first_bad_status r else sc
  | _ :: r => first_bad_status r
  end.

Definition tx_datetime (v : option ua_variant) : Z := match v with Some (VtScalar (VDateTime t)) => t | _ => 0 end.
Definition tx_result (v : option ua_variant) : Z := match v with Some (VtScalar (VStatusCode c)) => c | _ => UA_STATUSCODE_GOOD end.

(** The members of "transactionDiagnostics". *)
Definition tx_fields (v : nat -> option ua_variant) (j : P12Json) : P12Json :=
  let j := p12j_datetime (p12j_key j "startTime") (tx_datetime (v 0%nat)) in
  let j := p12j_datetime (p12j_key j "endTime") (tx_datetime (v 1%nat)) in
  let j := p12j_status_field j "result" (tx_result (v 2%nat)) in
  let j := p12j_nodeid_array_field j "affectedTrustLists" (v 3%nat) in
  let j := p12j_nodeid_array_field j "affectedCertificateGroups" (v 4%nat) in
  push_tx_errors j (v 5%nat).

Definition tx_ids : list read_value_id :=
  map (fun i => {| rv_nodeId := UA_NODEID_NUMERIC 0 i; rv_indexRange := None |}) kTxDiagnostics.

(** Goes to the end with the status on a transport failure. *)
Definition push_tx_diagnostics : push Z := fun s =>
  let '(w, o) := s in
  let '(w, (sc, results)) := Service_read w TS_NEITHER tx_ids in
  if p12_is_transport sc then ((w, o), Goto sc)
  else
    let sc := if negb (sc =? UA_STATUSCODE_GOOD) then sc
              else if negb (Nat.eqb (length results) 6) then UA_STATUSCODE_BADUNEXPECTEDERROR
              else first_bad_status results in
    let j := p12j_status_field (po_j o) "transactionDiagnosticsStatus" sc in
    let v i := result_value (nth i results (DataValue None None None None None None)) in
    let j := if sc =? UA_STATUSCODE_GOOD
             then p12j_close (tx_fields v (p12j_open (p12j_key j "transactionDiagnostics") 123)) 125 else j in
    ((w, set_j j o), Next sc).

(** ** Steps *)

(** [push_call] and PUSH_TRANSPORT_CHECK. *)
Definition push_call (object method : ua_nodeid) (inputs : list ua_variant) : push (Z * list ua_variant) := fun s =>
  let '(w, (sc, out)) := p12_call (fst s) object method inputs in
  ((w, snd s), if p12_is_transport sc then Goto sc else Next (sc, out)).

(** [if (!o->failed && cond)] *)
Definition when (cond : bool) (body : push unit) : push unit := fun s =>
  if negb (po_failed (snd s)) && cond then body s else (s, Next tt).

(** A method call whose outputs are printed when it is Good. *)
Definition method_step (name : string) (object method : ua_nodeid) (inputs : list ua_variant)
    (print : list ua_variant -> P12Json -> P12Json) : push unit :=
  run r <- push_call object method inputs;
  run ok <- push_step name (fst r);
  if ok then out_j (print (snd r)) else ret tt.

Definition no_output (_ : list ua_variant) (j : P12Json) : P12Json := j.

Definition sc_obj : ua_nodeid := UA_NODEID_NUMERIC 0 PUSH_SERVER_CONFIGURATION.
Definition config_method (m : Z) : ua_nodeid := UA_NODEID_NUMERIC 0 m.

Definition resolve_flag (what : string) (s : bytes) : push ua_nodeid := fun st =>
  let '(w, r) := p12_resolve_nodeid (fst st) s in
  match r with
  | Some n => ((w, snd st), Next n)
  | None => ((w, set_inputErr (set_failMsg (B "unknown namespace URI in " ++ B what ++ B " '" ++ s ++ B "'") (snd st))),
             Goto UA_STATUSCODE_BADNAMESPACEURIINVALID)
  end.

Definition translate_step (start : ua_nodeid) (paths : list (list bytes)) (msg : string) : push (list ua_nodeid) := fun s =>
  match p12_translate (fst s) start paths with
  | (w, inl ids) => ((w, snd s), Next ids)
  | (w, inr sc) => ((w, set_failMsg (B msg) (snd s)), Goto sc)
  end.

Definition read_list_step (rounds : nat) (obj : ua_nodeid) (key msg : string) : push unit := fun s =>
  match p12_read_trust_list rounds (fst s) obj (Some PUSH_TRUST_LIST_MASKS_ALL) with
  | None => (s, NoRounds)
  | Some (w, inl tl) => out_j (fun j => p12j_trust_list (p12j_key j key) tl) (w, snd s)
  | Some (w, inr sc) => ((w, set_failMsg (B msg) (snd s)), Goto sc)
  end.

(** From AddCertificate to GetRejectedList: [tl] are the TrustList and its methods
    AddCertificate and RemoveCertificate. *)
Definition change_steps (a : PushArgs) (group certType trustList addId removeId : ua_nodeid) : push unit :=
  also when (Nat.ltb 0 (length (pa_add a)))
    (method_step "addCertificate" trustList addId [p12v_bytestring (Some (Some (pa_add a))); p12v_bool (negb (pa_issuer a))] no_output);
  also when (is_some (pa_remove a))
    (method_step "removeCertificate" trustList removeId [p12v_string (pa_remove a); p12v_bool (negb (pa_issuer a))] no_output);
  also when (pa_getCerts a)
    (method_step "getCertificates" sc_obj (config_method PUSH_GET_CERTIFICATES) [p12v_nodeid group]
       (fun out j => p12j_b64_array_field (p12j_nodeid_array_field j "certificateTypeIds" (nth_out out 0)) "certificates" (nth_out out 1)));
  also when (pa_selfSigned a)
    (method_step "createSelfSignedCertificate" sc_obj (config_method PUSH_CREATE_SELF_SIGNED)
       [p12v_nodeid group; p12v_nodeid certType; p12v_string (Some (default [] (pa_subject a))); p12v_string_array (pa_dns a);
        p12v_string_array (pa_ip a); p12v_uint16 (pa_lifetimeDays a); p12v_uint16 (pa_keySize a)]
       (fun out j => p12j_b64_field j "selfSignedCertificate" (p12_out_bytestring out 0)));
  also when (is_some (pa_deleteType a))
    (run typeId <- resolve_flag "--delete-certificate" (default [] (pa_deleteType a));
     method_step "deleteCertificate" sc_obj (config_method PUSH_DELETE_CERTIFICATE) [p12v_nodeid group; p12v_nodeid typeId] no_output);
  also when (is_some (pa_update a))
    (method_step "updateCertificate" sc_obj (config_method PUSH_UPDATE_CERTIFICATE)
       [p12v_nodeid group; p12v_nodeid certType; p12v_bytestring (Some (pa_update a)); p12v_bytestring_array (map Some (pa_issuers a));
        p12v_string (Some (match pa_key a with Some (fmt, _) => fmt | None => [] end));
        p12v_bytestring (option_map (fun k => Some (snd k)) (pa_key a))]
       (fun out j => p12j_raw (p12j_key j "applyChangesRequired") (bool_text (p12_out_bool out 0))));
  also when (pa_csr a)
    (method_step "createSigningRequest" sc_obj (config_method PUSH_CREATE_SIGNING_REQUEST)
       [p12v_nodeid group; p12v_nodeid certType; p12v_string None; p12v_bool false; p12v_bytestring None]
       (fun out j => p12j_b64_field j "certificateSigningRequest" (p12_out_bytestring out 0)));
  when true
    (method_step "getRejectedList" sc_obj (config_method PUSH_GET_REJECTED_LIST) []
       (fun out j => p12j_b64_array_field j "rejectedCertificates" (nth_out out 0))).

(** ResetToServerDefaults, ApplyChanges or CancelChanges; [applied]. *)
Definition final_steps (a : PushArgs) : push bool :=
  also when (pa_reset a) (method_step "resetToServerDefaults" sc_obj (config_method PUSH_RESET_TO_SERVER_DEFAULTS) [] no_output);
  run failed <- gets (fun s => po_failed (snd s));
  also when (pa_apply a) (method_step "applyChanges" sc_obj (config_method PUSH_APPLY_CHANGES) [] no_output);
  also when (pa_cancel a) (method_step "cancelChanges" sc_obj (config_method PUSH_CANCEL_CHANGES) [] no_output);
  ret (negb failed && pa_apply a).

Definition diagnostics_step : push unit :=
  run sc <- push_tx_diagnostics;
  modify (fun s => (fst s, if negb (po_failed (snd s)) && negb (sc =? UA_STATUSCODE_GOOD)
    then set_failMsg (B "reading TransactionDiagnostics returned a non-Good status") (set_failed sc (snd s)) else snd s)).

(** The diagnostics, which explain a failed ApplyChanges too, and the list as it is now. *)
Definition closing_steps (rounds : nat) (a : PushArgs) (trustList : ua_nodeid) (applied : bool) : push unit :=
  run failed <- gets (fun s => po_failed (snd s));
  also (if pa_diagnostics a && (negb failed || applied) then diagnostics_step else ret tt);
  when true (read_list_step rounds trustList "trustListAfter" "reading the TrustList again returned a non-Good status").

Definition push_paths : list (list bytes) :=
  [[B "TrustList"]; [B "TrustList"; B "AddCertificate"]; [B "TrustList"; B "RemoveCertificate"]].

Definition push_steps (rounds : nat) (a : PushArgs) : push unit :=
  let group := UA_NODEID_NUMERIC 0 (pa_group a) in
  also out_j (fun j => p12j_nodeid (p12j_key j "certificateGroupId") group);
  run certType <- match pa_certTypeStr a with
                  | Some s => resolve_flag "--certificate-type-id" s
                  | None => ret (UA_NODEID_NUMERIC 0 (pa_defaultType a))
                  end;
  run tl <- translate_step group push_paths "the TrustList of the certificate group not found";
  let trustList := nth 0 tl UA_NODEID_NULL in
  also read_list_step rounds trustList "trustList" "reading the TrustList returned a non-Good status";
  also change_steps a group certType trustList (nth 1 tl UA_NODEID_NULL) (nth 2 tl UA_NODEID_NULL);
  run applied <- final_steps a;
  closing_steps rounds a trustList applied.

(** * The command *)

Definition push_start : PushOut :=
  {| po_j := p12j_open p12j_init 123; po_failed := false; po_inputErr := false; po_failSc := UA_STATUSCODE_GOOD; po_failMsg := [] |}.

(** The exit code and the envelope for what the steps left: [ret] is their status. *)
Definition push_report (ret : Z) (o : PushOut) : Z * bytes :=
  let j := p12j_close (po_j o) 125 in
  if j_oom j then (6, p12_emit push_op false UA_STATUSCODE_BADOUTOFMEMORY (Some (B "internal", B "out of memory")) None)
  else if po_inputErr o then (2, p12_emit push_op false ret (Some (B "input", po_failMsg o)) None)
  else if negb (ret =? UA_STATUSCODE_GOOD) then
    let ec := p12_exit_code ret in
    let cat := if ec =? 7 then B "timeout" else if ec =? 3 then B "transport" else B "service" in
    (ec, p12_emit push_op false ret
           (Some (cat, match po_failMsg o with [] => B "the connection failed" | m => m end)) (Some j))
  else if po_failed o then (4, p12_emit push_op false (po_failSc o) (Some (B "service", po_failMsg o)) (Some j))
  else (0, p12_emit push_op true UA_STATUSCODE_GOOD None (Some j)).

Definition push_run (rounds : nat) (w : W) (a : PushArgs) : outcome W :=
  match push_steps rounds a (w, push_start) with
  | (_, NoRounds) => NoFuel
  | ((w, o), e) =>
      let '(code, out) := push_report (match e with Goto sc => sc | _ => UA_STATUSCODE_GOOD end) o in
      Exits (Client_disconnect w) code out
  end.

Definition cmd_push (fuel rounds : nat) (w : W) (g : ClientSecurity) (argv : list bytes) : outcome W :=
  match push_parse w argv with
  | Err msg => usage_error w push_op msg
  | Ok a =>
      with_client fuel w g (default [] (find_arg argv (B "--endpoint"))) (request_ms argv) push_op
        (fun w => push_run rounds w a)
  end.
End Push.

(** * The session as the contract describes it *)

Record request := { rq_name : string; rq_object : ua_nodeid; rq_method : ua_nodeid; rq_inputs : list ua_variant }.

(** A method call, or one whose argument is a NodeId to resolve first. *)
Inductive planned := Call (r : request) | CallWith (s : bytes) (k : ua_nodeid -> request).

(** How a session goes: all Good; a method refused with a status; the session cannot
    go on (transport, or the TrustList cannot be read); a NodeId that does not resolve. *)
Inductive verdict := AllGood | Refused (name : string) (sc : Z) | Broken (sc : Z) | BadNodeId.

Definition verdict_exit (v : verdict) : Z :=
  match v with AllGood => 0 | Refused _ _ => 4 | Broken sc => p12_exit_code sc | BadNodeId => 2 end.

Section Contract.
Context {stack : UaStack} {heap : Heap} {nid : NodeIdOps} {dec : BinaryDecoders} {W : Type} {L : ClientLib W} {srv : Services W} {p12 : Part12Services W}.

Definition config_call (name : string) (method : Z) (inputs : list ua_variant) : request :=
  {| rq_name := name; rq_object := sc_obj; rq_method := config_method method; rq_inputs := inputs |}.
Definition list_call (name : string) (trustList method : ua_nodeid) (inputs : list ua_variant) : request :=
  {| rq_name := name; rq_object := trustList; rq_method := method; rq_inputs := inputs |}.

(** The requested steps in the order of the contract: up to GetRejectedList, and the end. *)
Definition changes_plan (a : PushArgs) (group certType trustList addId removeId : ua_nodeid) : list planned :=
  let only c l := if c : bool then l else [] in
  let trusted := p12v_bool (negb (pa_issuer a)) in
  let ids := [p12v_nodeid group; p12v_nodeid certType] in
  only (Nat.ltb 0 (length (pa_add a)))
    [Call (list_call "addCertificate" trustList addId [p12v_bytestring (Some (Some (pa_add a))); trusted])]
  ++ only (is_some (pa_remove a)) [Call (list_call "removeCertificate" trustList removeId [p12v_string (pa_remove a); trusted])]
  ++ only (pa_getCerts a) [Call (config_call "getCertificates" PUSH_GET_CERTIFICATES [p12v_nodeid group])]
  ++ only (pa_selfSigned a)
    [Call (config_call "createSelfSignedCertificate" PUSH_CREATE_SELF_SIGNED
       (ids ++ [p12v_string (Some (default [] (pa_subject a))); p12v_string_array (pa_dns a); p12v_string_array (pa_ip a);
                p12v_uint16 (pa_lifetimeDays a); p12v_uint16 (pa_keySize a)]))]
  ++ only (is_some (pa_deleteType a))
    [CallWith (default [] (pa_deleteType a)) (fun t =>
       config_call "deleteCertificate" PUSH_DELETE_CERTIFICATE [p12v_nodeid group; p12v_nodeid t])]
  ++ only (is_some (pa_update a))
    [Call (config_call "updateCertificate" PUSH_UPDATE_CERTIFICATE
       (ids ++ [p12v_bytestring (Some (pa_update a)); p12v_bytestring_array (map Some (pa_issuers a));
                p12v_string (Some (match pa_key a with Some (fmt, _) => fmt | None => [] end));
                p12v_bytestring (option_map (fun k => Some (snd k)) (pa_key a))]))]
  ++ only (pa_csr a)
    [Call (config_call "createSigningRequest" PUSH_CREATE_SIGNING_REQUEST
       (ids ++ [p12v_string None; p12v_bool false; p12v_bytestring None]))]
  ++ [Call (config_call "getRejectedList" PUSH_GET_REJECTED_LIST [])].

Definition final_plan (a : PushArgs) : list planned :=
  let only c l := if c : bool then l else [] in
  only (pa_reset a) [Call (config_call "resetToServerDefaults" PUSH_RESET_TO_SERVER_DEFAULTS [])]
  ++ only (pa_apply a) [Call (config_call "applyChanges" PUSH_APPLY_CHANGES [])]
  ++ only (pa_cancel a) [Call (config_call "cancelChanges" PUSH_CANCEL_CHANGES [])].

Definition push_plan (a : PushArgs) (group certType trustList addId removeId : ua_nodeid) : list planned :=
  changes_plan a group certType trustList addId removeId ++ final_plan a.

Definition send {rule : StopRule} (w : W) (r : request) : W * verdict :=
  let '(w, (sc, _)) := p12_call w (rq_object r) (rq_method r) (rq_inputs r) in
  (w, if p12_is_transport sc then Broken sc else if stops sc then Refused (rq_name r) sc else AllGood).

Definition perform {rule : StopRule} (w : W) (p : planned) : W * verdict :=
  match p with
  | Call r => send w r
  | CallWith s k => match p12_resolve_nodeid w s with (w, Some n) => send w (k n) | (w, None) => (w, BadNodeId) end
  end.

(** The calls in order, up to the first that stops the session. *)
Fixpoint run_plan {rule : StopRule} (w : W) (l : list planned) : W * verdict :=
  match l with
  | [] => (w, AllGood)
  | p :: r => match perform w p with (w, AllGood) => run_plan w r | stopped => stopped end
  end.

(** The TransactionDiagnostics read. *)
Definition read_diagnostics (w : W) : W * verdict :=
  let '(w, (sc, results)) := Service_read w TS_NEITHER tx_ids in
  let sc' := if negb (sc =? UA_STATUSCODE_GOOD) then sc
             else if negb (Nat.eqb (length results) 6) then UA_STATUSCODE_BADUNEXPECTEDERROR else first_bad_status results in
  (w, if p12_is_transport sc then Broken sc
      else if sc' =? UA_STATUSCODE_GOOD then AllGood else Refused "transactionDiagnostics" sc').

(** Whether ApplyChanges has been called. *)
Definition applied (a : PushArgs) (v : verdict) : bool :=
  pa_apply a && match v with Refused name _ => String.eqb name "applyChanges" | _ => true end.

(** Diagnostics when asked for: after the plan, or after an ApplyChanges that was refused. *)
Definition with_diagnostics (a : PushArgs) (r : W * verdict) : W * verdict :=
  let '(w, v) := r in
  if negb (pa_diagnostics a) then r
  else match v with
       | AllGood => read_diagnostics w
       | Refused _ _ => if applied a v
                        then match read_diagnostics w with (w, Broken sc) => (w, Broken sc) | (w, _) => (w, v) end
                        else r
       | _ => r
       end.

Definition read_list (rounds : nat) (w : W) (obj : ua_nodeid) (k : W -> option (W * verdict)) : option (W * verdict) :=
  do r <- p12_read_trust_list rounds w obj (Some PUSH_TRUST_LIST_MASKS_ALL);
  match r with (w, inl _) => k w | (w, inr sc) => Some (w, Broken sc) end.

(** The diagnostics and, when all was Good, the list again. *)
Definition closing (rounds : nat) (a : PushArgs) (trustList : ua_nodeid) (r : W * verdict) : option (W * verdict) :=
  match with_diagnostics a r with
  | (w, AllGood) => read_list rounds w trustList (fun w => Some (w, AllGood))
  | stopped => Some stopped
  end.

Definition push_session {rule : StopRule} (rounds : nat) (w : W) (a : PushArgs) : option (W * verdict) :=
  let group := UA_NODEID_NUMERIC 0 (pa_group a) in
  match match pa_certTypeStr a with
        | Some s => p12_resolve_nodeid w s
        | None => (w, Some (UA_NODEID_NUMERIC 0 (pa_defaultType a)))
        end with
  | (w, None) => Some (w, BadNodeId)
  | (w, Some certType) =>
      match p12_translate w group push_paths with
      | (w, inr sc) => Some (w, Broken sc)
      | (w, inl ids) =>
          let trustList := nth 0 ids UA_NODEID_NULL in
          read_list rounds w trustList (fun w =>
          closing rounds a trustList
            (run_plan w (push_plan a group certType trustList (nth 1 ids UA_NODEID_NULL) (nth 2 ids UA_NODEID_NULL))))
      end
  end.
End Contract.

(** * The command follows the contract *)

(** The rule of the code. *)
#[local] Existing Instance stop_not_good.

Section Follows.
Context {stack : UaStack} {heap : Heap} {nid : NodeIdOps} {dec : BinaryDecoders} {enc : UaCodec}
  {W : Type} {L : ClientLib W} {srv : Services W} {p12 : Part12Services W}.

Definition ready (o : PushOut) : Prop := po_failed o = false /\ po_inputErr o = false.

(** What a verdict leaves in the result, and how the steps end. *)
Definition leaves (v : verdict) (o : PushOut) (e : ended Z unit) : Prop :=
  match v with
  | AllGood => e = Next tt /\ ready o
  | Refused _ sc => e = Next tt /\ po_failed o = true /\ po_failSc o = sc /\ po_inputErr o = false
  | Broken sc => e = Goto sc /\ po_inputErr o = false
  | BadNodeId => e = Goto UA_STATUSCODE_BADNAMESPACEURIINVALID /\ po_inputErr o = true
  end.

(** The steps [m] make the calls of the plan [l]. *)
Definition sim (m : steps (W * PushOut) Z unit) (l : list planned) : Prop := forall w o, ready o ->
  exists o' e, m (w, o) = ((fst (run_plan w l), o'), e) /\ leaves (snd (run_plan w l)) o' e.

Definition skips (m : steps (W * PushOut) Z unit) : Prop := forall s, po_failed (snd s) = true -> m s = (s, Next tt).

Lemma run_plan_app w l1 l2 : run_plan w (l1 ++ l2) =
  match run_plan w l1 with (w, AllGood) => run_plan w l2 | stopped => stopped end.
Proof.
  revert w. induction l1 as [|p l1 IH]; intros w; [reflexivity|]. cbn [app run_plan].
  destruct (perform w p) as [w1 [| | |]]; auto.
Qed.

Lemma sim_seq m1 m2 l1 l2 : sim m1 l1 -> sim m2 l2 -> skips m2 -> sim (bind m1 (fun _ => m2)) (l1 ++ l2).
Proof.
  intros H1 H2 Hs w o Ho. destruct (H1 w o Ho) as (o1 & e1 & E1 & L1). rewrite run_plan_app.
  unfold bind. rewrite E1. destruct (run_plan w l1) as [w1 v]. cbn [fst snd] in *.
  destruct v; cbn [leaves] in L1.
  - destruct L1 as [-> Ho1]. exact (H2 w1 o1 Ho1).
  - destruct L1 as (-> & Hf & Hx). rewrite (Hs (w1, o1) Hf). exists o1, (Next tt). cbn [fst snd leaves]. auto.
  - destruct L1 as (-> & Hx). exists o1, (Goto sc). cbn [fst snd leaves]. auto.
  - destruct L1 as (-> & Hx). exists o1, (Goto UA_STATUSCODE_BADNAMESPACEURIINVALID). cbn [fst snd leaves]. auto.
Qed.

Lemma sim_when c m l : sim m l -> sim (when c m) (if c then l else []).
Proof.
  intros H w o Ho. unfold when. cbn [snd]. rewrite (proj1 Ho). cbn [negb andb]. destruct c; [now apply H|].
  exists o, (Next tt). cbn. auto.
Qed.

Lemma when_false m (s : W * PushOut) : when false m s = (s, Next tt).
Proof. unfold when. now rewrite andb_false_r. Qed.

Lemma skips_when c m : skips (when c m).
Proof. intros s H. unfold when. now rewrite H. Qed.

Lemma skips_seq m1 m2 : skips m1 -> skips m2 -> skips (bind m1 (fun _ => m2)).
Proof. intros H1 H2 s H. unfold bind. rewrite (H1 s H). now apply H2. Qed.

Lemma sim_method name object method inputs print :
  sim (method_step name object method inputs print)
      [Call {| rq_name := name; rq_object := object; rq_method := method; rq_inputs := inputs |}].
Proof.
  intros w o [Hf Hi]. cbn [run_plan perform]. unfold send, method_step, push_call, bind. cbn [rq_object rq_method rq_inputs rq_name fst snd].
  destruct (p12_call w object method inputs) as [w1 [sc out]]. destruct (p12_is_transport sc) eqn:Et.
  { exists o, (Goto sc). cbn [fst snd leaves]. auto. }
  unfold push_step, bind, out_j, modify, ret. cbn [fst snd stops stop_not_good]. destruct (sc =? UA_STATUSCODE_GOOD); cbn [negb].
  - eexists _, (Next tt). cbn [fst snd leaves]. split; [reflexivity|]. split; [reflexivity|]. split; [exact Hf|exact Hi].
  - eexists _, (Next tt). cbn [fst snd leaves]. split; [reflexivity|]. unfold push_fail, set_j. cbn [po_failed]. rewrite Hf.
    cbn. auto.
Qed.

Lemma sim_method_with what s name object method inputs print :
  sim (bind (resolve_flag what s) (fun n => method_step name object method (inputs n) print))
      [CallWith s (fun n => {| rq_name := name; rq_object := object; rq_method := method; rq_inputs := inputs n |})].
Proof.
  intros w o Ho. cbn [run_plan perform]. unfold bind, resolve_flag. cbn [fst snd].
  destruct (p12_resolve_nodeid w s) as [w1 [n|]].
  - destruct (sim_method name object method (inputs n) print w1 o Ho) as (o' & e & E & Hl). cbn [run_plan perform] in E, Hl.
    exists o', e. auto.
  - eexists _, (Goto _). cbn [fst snd leaves]. split; [reflexivity|]. cbn. auto.
Qed.

Lemma sim_changes a group certType trustList addId removeId :
  sim (change_steps a group certType trustList addId removeId) (changes_plan a group certType trustList addId removeId).
Proof.
  unfold change_steps, changes_plan, config_call, list_call.
  repeat (apply sim_seq; [apply sim_when; first [apply sim_method|apply sim_method_with]| |repeat apply skips_seq; apply skips_when]).
  apply (sim_when true). apply sim_method.
Qed.

Lemma change_steps_skips a group certType trustList addId removeId : skips (change_steps a group certType trustList addId removeId).
Proof. unfold change_steps. repeat apply skips_seq; apply skips_when. Qed.

(** The step is one that can be refused under that name. *)
Definition named (name : string) (p : planned) : Prop :=
  match p with Call r => rq_name r = name | CallWith _ k => exists n, rq_name (k n) = name end.

Lemma send_refused w r w' name sc : send w r = (w', Refused name sc) -> rq_name r = name.
Proof.
  unfold send. destruct (p12_call _ _ _ _) as [w1 [sc1 out]]. destruct (p12_is_transport sc1); [discriminate|].
  destruct (stops sc1); [|discriminate]. intros H. now injection H.
Qed.

Lemma refused_named w l w' name sc : run_plan w l = (w', Refused name sc) -> Exists (named name) l.
Proof.
  revert w. induction l as [|p l IH]; intros w; cbn [run_plan]; [discriminate|].
  destruct (perform w p) as [w1 v] eqn:E. destruct v; try discriminate; intros H; [right; eauto|left].
  injection H as _ -> _. destruct p as [r|s k]; cbn [perform named] in *; [eauto using send_refused|].
  destruct (p12_resolve_nodeid w s) as [w2 [n|]]; [|discriminate]. eauto using send_refused.
Qed.

Lemma refused_name w r w' name sc : run_plan w [Call r] = (w', Refused name sc) -> name = rq_name r.
Proof. intros H. apply refused_named in H. inversion H as [? ? E|? ? E]; subst; [now symmetry|inversion E]. Qed.

Lemma changes_not_applied a group certType trustList addId removeId w w' name sc :
  run_plan w (changes_plan a group certType trustList addId removeId) = (w', Refused name sc) -> applied a (Refused name sc) = false.
Proof.
  intros H. apply refused_named in H. unfold applied. destruct (String.eqb_spec name "applyChanges") as [->|]; [exfalso|apply andb_false_r].
  revert H. unfold changes_plan. repeat (rewrite Exists_app).
  assert (forall c p, ~ named "applyChanges" p -> ~ Exists (named "applyChanges") (if c : bool then [p] else [])) as Hn.
  { intros [] p Hp H; [|inversion H]. inversion H as [? ? E|? ? E]; [contradiction|inversion E]. }
  intros H. repeat (destruct H as [H|H]; [revert H; apply Hn; cbn; first [discriminate|intros [n E]; discriminate E]|]).
  revert H. apply (Hn true). discriminate.
Qed.

Lemma final_follows a w o : ready o -> pa_apply a && pa_cancel a = false -> let '(w', v) := run_plan w (final_plan a) in
  exists o' e, leaves v o' e /\
    final_steps a (w, o) = ((w', o'), match e with Next _ => Next (applied a v) | Goto sc => Goto sc | NoRounds => NoRounds end).
Proof.
  intros Ho Hx. unfold final_plan, final_steps, config_call. rewrite run_plan_app.
  set (reset := when (pa_reset a) _). assert (sim reset (if pa_reset a then [Call {| rq_name := "resetToServerDefaults"; rq_object := sc_obj;
    rq_method := config_method PUSH_RESET_TO_SERVER_DEFAULTS; rq_inputs := [] |}] else [])) as Hr by apply sim_when, sim_method.
  destruct (Hr w o Ho) as (o1 & e1 & E1 & L1). destruct (run_plan w (if pa_reset a then _ else _)) as [w1 v1] eqn:Ev1.
  unfold bind at 1. rewrite E1. cbn [fst snd] in *. unfold bind at 1, gets. cbn [fst snd].
  destruct v1; cbn [leaves] in L1.
  - destruct L1 as [-> Ho1]. rewrite (proj1 Ho1). cbn [negb andb].
    destruct (pa_apply a) eqn:Ea; cbn [andb] in Hx.
    + rewrite Hx, app_nil_r. destruct (sim_method "applyChanges" sc_obj (config_method PUSH_APPLY_CHANGES) [] no_output w1 o1 Ho1) as (o2 & e2 & E2 & L2).
      destruct (run_plan w1 [_]) as [w2 v2] eqn:Ev2. cbn [fst snd] in *. exists o2, e2. split; [exact L2|].
      unfold bind, when at 1. cbn [snd]. rewrite (proj1 Ho1). cbn [negb andb]. rewrite E2. unfold applied. rewrite Ea.
      destruct v2; cbn [leaves] in L2.
      * destruct L2 as [-> Ho2]. unfold when. cbn [snd]. rewrite (proj1 Ho2). reflexivity.
      * destruct L2 as (-> & Hf & _). unfold when. cbn [snd]. rewrite Hf. unfold ret. cbn [negb andb].
        now apply refused_name in Ev2 as ->.
      * now destruct L2 as (-> & _).
      * now destruct L2 as (-> & _).
    + cbn [app]. unfold bind at 1. rewrite when_false.
      destruct (sim_when (pa_cancel a) _ _ (sim_method "cancelChanges" sc_obj (config_method PUSH_CANCEL_CHANGES) [] no_output) w1 o1 Ho1) as (o2 & e2 & E2 & L2).
      destruct (run_plan w1 (if pa_cancel a then _ else _)) as [w2 v2]. cbn [fst snd] in *. exists o2, e2. split; [exact L2|].
      unfold bind. rewrite E2. unfold ret, applied. rewrite Ea. cbn [andb]. destruct e2 as [[]| |]; reflexivity.
  - destruct L1 as (-> & Hf & Hx2 & Hi). exists o1, (Next tt). split; [cbn [leaves]; auto|]. rewrite Hf.
    unfold bind. rewrite !(skips_when _ _ (w1, o1) Hf). unfold ret, applied. destruct (pa_reset a); [|discriminate Ev1].
    apply refused_name in Ev1 as ->. now rewrite andb_false_r.
  - destruct L1 as (-> & Hi). exists o1, (Goto sc). split; [cbn [leaves]; auto|reflexivity].
  - destruct L1 as (-> & Hi). eexists o1, (Goto _). split; [cbn [leaves]; split; [reflexivity|exact Hi]|reflexivity].
Qed.

Lemma diagnostics_follow w o : po_inputErr o = false -> let '(w', v) := read_diagnostics w in
  exists o' e, diagnostics_step (w, o) = ((w', o'), e) /\
    if po_failed o then po_inputErr o' = false /\ match v with Broken sc => e = Goto sc | _ => e = Next tt /\ po_failed o' = true /\ po_failSc o' = po_failSc o end
    else leaves v o' e.
Proof.
  intros Hi. unfold read_diagnostics, diagnostics_step, push_tx_diagnostics, bind, modify.
  destruct (Service_read w TS_NEITHER tx_ids) as [w1 [sc results]]. destruct (p12_is_transport sc).
  { exists o, (Goto sc). split; [reflexivity|]. destruct (po_failed o); cbn [leaves]; auto. }
  set (sc' := if negb _ then _ else _). cbn [fst snd po_failed set_j].
  eexists _, (Next tt). split; [reflexivity|]. cbn [fst snd]. destruct (po_failed o) eqn:Ef; cbn [negb andb].
  - split; [exact Hi|]. destruct (sc' =? UA_STATUSCODE_GOOD); auto.
  - destruct (sc' =? UA_STATUSCODE_GOOD); cbn [negb leaves]; [split; [reflexivity|split; assumption]|]. cbn. auto.
Qed.

Lemma read_list_follow rounds w o obj key msg : po_inputErr o = false ->
  match p12_read_trust_list rounds w obj (Some PUSH_TRUST_LIST_MASKS_ALL) with
  | None => read_list_step rounds obj key msg (w, o) = ((w, o), NoRounds)
  | Some (w', inl tl) => read_list_step rounds obj key msg (w, o) = ((w', set_j (p12j_trust_list (p12j_key (po_j o) key) tl) o), Next tt)
  | Some (w', inr sc) => read_list_step rounds obj key msg (w, o) = ((w', set_failMsg (B msg) o), Goto sc)
  end.
Proof.
  intros _. unfold read_list_step. cbn [fst snd]. now destruct (p12_read_trust_list _ _ _ _) as [[w' [tl|sc]]|].
Qed.

(** The steps end as the contract's session does. *)
Definition agrees (x : option (W * verdict)) (r : (W * PushOut) * ended Z unit) : Prop :=
  match x with
  | None => snd r = NoRounds
  | Some (w, v) => fst (fst r) = w /\ leaves v (snd (fst r)) (snd r)
  end.

Lemma final_read rounds w o obj msg : ready o ->
  agrees (read_list rounds w obj (fun w => Some (w, AllGood))) (when true (read_list_step rounds obj "trustListAfter" msg) (w, o)).
Proof.
  intros [Hf Hi]. unfold when. cbn [snd]. rewrite Hf. cbn [negb andb]. unfold read_list.
  pose proof (read_list_follow rounds w o obj "trustListAfter" msg Hi) as H.
  destruct (p12_read_trust_list _ _ _ _) as [[w' [tl|sc]]|]; cbn [obind]; rewrite H; cbn [agrees fst snd leaves].
  - split; [reflexivity|]. split; [reflexivity|]. now split.
  - auto.
  - reflexivity.
Qed.

Lemma closing_follow rounds a obj w o v : leaves v o (Next tt) ->
  agrees (closing rounds a obj (w, v)) (closing_steps rounds a obj (applied a v) (w, o)).
Proof.
  intros Hl. unfold closing, with_diagnostics, closing_steps. set (msg := "reading the TrustList again returned a non-Good status"%string).
  unfold bind at 1, gets. cbn [fst snd].
  assert (forall o', leaves v o' (Next tt) -> po_failed o' = true -> agrees (Some (w, v)) (when true (read_list_step rounds obj "trustListAfter" msg) (w, o'))) as Hskip.
  { intros o' Hl' Hf. rewrite (skips_when _ _ (w, o') Hf). cbn [agrees fst snd]. auto. }
  destruct v as [|name sc|sc|]; cbn [leaves] in Hl; [| |destruct Hl; discriminate|destruct Hl; discriminate].
  - destruct Hl as [_ Ho]. rewrite (proj1 Ho). cbn [negb orb]. rewrite andb_true_r. destruct (pa_diagnostics a); cbn [negb].
    + pose proof (diagnostics_follow w o (proj2 Ho)) as H. destruct (read_diagnostics w) as [w' v'].
      destruct H as (o' & e & E & H). rewrite (proj1 Ho) in H. unfold bind. rewrite E. destruct v'; cbn [leaves] in H.
      * destruct H as [-> Ho']. now apply final_read.
      * destruct H as (-> & Hf & Hs). rewrite (skips_when _ _ (w', o') Hf). cbn. auto.
      * destruct H as (-> & Hs). cbn. auto.
      * destruct H as (-> & Hs). cbn. auto.
    + unfold bind, ret. now apply final_read.
  - destruct Hl as (_ & Hf & Hsc & Hi). rewrite Hf. cbn [negb orb].
    destruct (pa_diagnostics a); cbn [negb andb]; [|unfold bind, ret; apply Hskip; [cbn; auto|exact Hf]].
    destruct (applied a (Refused name sc)); [|unfold bind, ret; apply Hskip; [cbn; auto|exact Hf]].
    pose proof (diagnostics_follow w o Hi) as H. destruct (read_diagnostics w) as [w' v'].
    destruct H as (o' & e & E & H). rewrite Hf in H. unfold bind. rewrite E. destruct H as [Hi' H].
    assert (v' = Broken (match v' with Broken sc => sc | _ => 0 end) \/ e = Next tt /\ po_failed o' = true /\ po_failSc o' = po_failSc o) as [Hb|(-> & Hf' & Hs')]
      by (destruct v'; auto).
    + rewrite Hb in H |- *. subst e. cbn. auto.
    + rewrite (skips_when _ _ (w', o') Hf'). destruct v'; cbn [agrees fst snd leaves]; rewrite ?Hs'; solve [auto 6].
Qed.

(** With flags that do not ask for ApplyChanges and CancelChanges at once. *)
Lemma steps_follow rounds w a : pa_apply a && pa_cancel a = false ->
  agrees (push_session rounds w a) (push_steps rounds a (w, push_start)).
Proof.
  intros Hx. unfold push_session, push_steps. set (group := UA_NODEID_NUMERIC 0 (pa_group a)). unfold bind at 1, out_j at 1, modify. cbn [fst snd].
  set (o0 := set_j _ _). assert (ready o0) as Ho by now split. clearbody o0. unfold bind at 1.
  set (res := match pa_certTypeStr a with Some s => resolve_flag _ s | None => _ end (w, o0)).
  assert (match match pa_certTypeStr a with Some s => p12_resolve_nodeid w s | None => (w, Some (UA_NODEID_NUMERIC 0 (pa_defaultType a))) end with
    | (w', Some n) => res = ((w', o0), Next n)
    | (w', None) => exists o', res = ((w', o'), Goto UA_STATUSCODE_BADNAMESPACEURIINVALID) /\ po_inputErr o' = true end) as Hres.
  { unfold res. destruct (pa_certTypeStr a) as [s|]; [|reflexivity]. unfold resolve_flag. cbn [fst snd].
    destruct (p12_resolve_nodeid w s) as [w' [n|]]; [reflexivity|]. eexists. split; reflexivity. }
  destruct (match pa_certTypeStr a with Some s => p12_resolve_nodeid w s | None => _ end) as [w1 [certType|]].
  2:{ destruct Hres as (o' & -> & Hi). cbn. auto. }
  rewrite Hres. clear res Hres. unfold bind at 1, translate_step. cbn [fst snd].
  destruct (p12_translate w1 group push_paths) as [w2 [ids|sc]]; [|cbn; split; [reflexivity|split; [reflexivity|apply Ho]]].
  unfold read_list at 1. unfold bind at 1.
  pose proof (read_list_follow rounds w2 o0 (nth 0 ids UA_NODEID_NULL) "trustList" "reading the TrustList returned a non-Good status" (proj2 Ho)) as H.
  destruct (p12_read_trust_list _ _ _ _) as [[w3 [tl|sc]]|]; cbn [obind]; rewrite H; [|cbn; split; [reflexivity|split; [reflexivity|apply Ho]]|reflexivity].
  clear H. set (o1 := set_j _ o0). assert (ready o1) as Ho1 by exact Ho. clearbody o1. clear Ho.
  unfold push_plan. rewrite run_plan_app. set (obj := nth 0 ids UA_NODEID_NULL). set (i1 := nth 1 ids UA_NODEID_NULL). set (i2 := nth 2 ids UA_NODEID_NULL).
  destruct (sim_changes a group certType obj i1 i2 w3 o1 Ho1) as (o2 & e2 & E2 & L2). unfold bind at 1. rewrite E2.
  destruct (run_plan w3 (changes_plan _ _ _ _ _ _)) as [w4 v] eqn:Ev. cbn [fst snd] in L2. destruct v as [|name sc|sc|]; cbn [leaves] in L2.
  - destruct L2 as [-> Ho2]. pose proof (final_follows a w4 o2 Ho2 Hx) as H. cbn [fst]. destruct (run_plan w4 (final_plan a)) as [w5 v5].
    destruct H as (o3 & e3 & L3 & E3). unfold bind at 1. rewrite E3. destruct e3 as [[]|sc|].
    + apply closing_follow. exact L3.
    + destruct v5; cbn [leaves] in L3; try (destruct L3; discriminate); unfold closing, with_diagnostics; destruct (negb _); cbn; auto.
    + destruct v5; cbn [leaves] in L3; destruct L3; discriminate.
  - destruct L2 as (-> & Hf & Hs & Hi). cbn [fst]. unfold bind at 1, final_steps at 1. unfold bind at 1.
    rewrite (skips_when _ _ (w4, o2) Hf). unfold bind at 1, gets. cbn [fst snd]. rewrite Hf. unfold bind at 1. rewrite (skips_when _ _ (w4, o2) Hf).
    unfold bind at 1. rewrite (skips_when _ _ (w4, o2) Hf). unfold ret at 1. cbn [negb andb].
    rewrite <- (changes_not_applied a group certType obj i1 i2 w3 w4 name sc Ev). apply closing_follow. cbn [leaves]. auto.
  - destruct L2 as (-> & Hi). unfold closing, with_diagnostics. destruct (negb _); cbn; auto.
  - destruct L2 as (-> & Hi). unfold closing, with_diagnostics. destruct (negb _); cbn; auto.
Qed.

(** On a server whose answers are Good or Bad it is the rule of the contract. *)
Lemma send_contract (rule1 rule2 : StopRule) :
  (forall w o m l, let sc := fst (snd (Client_call w o m l)) in stops (StopRule := rule1) sc = stops (StopRule := rule2) sc) ->
  forall w r, send (rule := rule1) w r = send (rule := rule2) w r.
Proof.
  intros H w r. unfold send, p12_call. specialize (H w (rq_object r) (rq_method r) (rq_inputs r)).
  destruct (Client_call w _ _ _) as [w1 [sc out]]. cbn [fst snd] in H. now rewrite H.
Qed.

Lemma push_session_contract rounds w a : good_or_bad srv ->
  push_session (rule := stop_bad) rounds w a = push_session rounds w a.
Proof.
  intros H. pose proof (send_contract stop_bad stop_not_good H) as Hs.
  assert (forall l w, run_plan (rule := stop_bad) w l = run_plan w l) as Hr.
  { induction l as [|p l IH]; intros w0; [reflexivity|]. cbn [run_plan].
    assert (perform (rule := stop_bad) w0 p = perform w0 p) as ->
      by (destruct p as [r|s k]; cbn [perform]; [apply Hs|]; destruct (p12_resolve_nodeid w0 s) as [w1 [n|]]; [apply Hs|reflexivity]).
    destruct (perform w0 p) as [w1 [| | |]]; auto. }
  unfold push_session, read_list. destruct (match pa_certTypeStr a with Some s => _ | None => _ end) as [w1 [ct|]]; [|reflexivity].
  destruct (p12_translate w1 _ _) as [w2 [ids|sc]]; [|reflexivity].
  destruct (p12_read_trust_list _ _ _ _) as [[w3 [tl|sc]]|]; cbn [obind]; [|reflexivity..]. now rewrite Hr.
Qed.
End Follows.

(** * What the command reports *)

Section Reports.
Context {stack : UaStack} {laws : UaStackLaws stack} {heap : Heap} {hl : HeapLaws heap} {nid : NodeIdOps} {xl : X509Lib}
  {dec : BinaryDecoders} {enc : UaCodec} {el : UaCodecLaws enc} {W : Type} {L : ClientLib W} {libLaws : ClientLibLaws L}
  {srv : Services W} {srvLaws : ServicesLaws srv} {p12 : Part12Services W} {pl : Part12Laws p12 dec}.

(** The item so far is an open object with well-formed members; the message is short. *)
Record push_inv (o : PushOut) : Prop := {
  pi_item : open_item (po_j o);
  pi_msg : Bytes (po_failMsg o) /\ (length (po_failMsg o) <= 255)%nat;
  pi_sc : 0 <= po_failSc o }.

(** The steps keep it, and a status that ends the command is a failure. *)
Definition kept {A} (m : steps (W * PushOut) Z A) (Q : A -> Prop) : Prop := post (fun s => push_inv (snd s)) failure_code m Q.

Lemma post_when c m : kept m (fun _ => True) -> kept (when c m) (fun _ => True).
Proof. intros H s Hs. unfold when. destruct (_ && _); [now apply H|now split]. Qed.

Lemma post_out f : adds_members f -> kept (out_j f) (fun _ => True).
Proof.
  intros Hf [w o] [Hl Hm Hs]. cbn [out_j modify fst snd]. split; [|exact I]. split; [|exact Hm|exact Hs].
  now apply open_item_adds.
Qed.

Lemma inv_failMsg m o : Bytes m -> push_inv o -> push_inv (set_failMsg m o).
Proof.
  intros Hb [H1 H2 H3]. split; [exact H1| |exact H3]. cbn [po_failMsg set_failMsg]. split; [now apply Bytes_snprintf|].
  unfold snprintf. rewrite length_firstn. lia.
Qed.

Lemma inv_fail o sc what : 0 <= sc -> push_inv o -> push_inv (push_fail o sc what).
Proof.
  intros Hs Ho. unfold push_fail. destruct (po_failed o); [exact Ho|]. apply inv_failMsg; [auto using Bytes_cat, Bytes_B|].
  destruct Ho as [H1 H2 H3]. now split.
Qed.

Lemma post_step name sc : key_plain (name ++ "Status") = true -> 0 <= sc -> kept (push_step name sc) (fun _ => True).
Proof.
  intros Hk Hs. unfold push_step. apply post_also.
  - apply post_out. eapply adds_members_one; [intros j; apply adds_status_field|..]; [exact Hk..|now apply JValue_status].
  - intros []. destruct (_ =? _); [now apply post_ret|]. apply post_also; [|intros []; now apply post_ret].
    apply post_modify; [exact I|]. intros [w o] Ho. now apply inv_fail.
Qed.

Lemma post_call object method inputs :
  kept (push_call object method inputs) (fun r => 0 <= fst r < 2 ^ 32 /\ forallb wf_variant (snd r) = true).
Proof.
  intros [w o] Ho. unfold push_call. cbn [fst snd]. pose proof (call_result w object method inputs) as [H1 H2].
  destruct (p12_call w object method inputs) as [w1 [sc out]]. cbn [fst snd] in *. split; [exact Ho|].
  destruct (p12_is_transport sc) eqn:E; [|auto]. split; [exact H1|]. intros ->. discriminate E.
Qed.

Lemma post_method name object method inputs print : key_plain (name ++ "Status") = true ->
  (forall out, forallb wf_variant out = true -> adds_members (print out)) ->
  kept (method_step name object method inputs print) (fun _ => True).
Proof.
  intros Hk Hp. unfold method_step. eapply post_bind; [apply post_call|]. intros [sc out] [Hs Hw]. cbn [fst snd] in *.
  apply post_also; [apply post_step; [exact Hk|lia]|]. intros []; [now apply post_out, Hp|now apply post_ret].
Qed.

Lemma no_members out : adds_members (no_output out).
Proof. intros j. exists []. split; [apply adds_nothing|constructor]. Qed.


(** ** TransactionDiagnostics *)

Definition tx_error_json (body : option bytes) : bytes :=
  let '(target, err, text) := tx_error_parts body in
  jobject [field "targetId" (nodeid_json target); field "error" (print_status_obj err); field "message" (json_bytes text)].

Lemma adds_tx_fields target err text j : Adds j (tx_error_fields target err text j)
  [field "targetId" (nodeid_json target); field "error" (print_status_obj err); field "message" (json_bytes text)].
Proof.
  unfold tx_error_fields. eapply adds_eq.
  - eapply adds_trans; [|apply (adds_field _ "message" (fun j => p12j_uastr j text)); [reflexivity|apply after_value, writes_uastr]].
    eapply adds_trans; [|apply (adds_field _ "error" (fun j => p12j_status j err)); [reflexivity|intros j' _; apply writes_status]].
    apply adds_nodeid. reflexivity.
  - reflexivity.
Qed.

Lemma writes_tx_error body j : Writes j (push_tx_error j body) (tx_error_json body) false.
Proof.
  unfold push_tx_error, tx_error_json. destruct (tx_error_parts body) as [[target err] text].
  apply (writes_object j (tx_error_fields target err text)). intros j' _. apply adds_tx_fields.
Qed.

Lemma le_u32_nonneg p : Bytes p -> 0 <= le_u32 p.
Proof.
  intros H. assert (forall i, 0 <= nth i p 0) as Hn.
  { intros i. destruct (Nat.lt_ge_cases i (length p)) as [Hi|Hi]; [|rewrite nth_overflow by exact Hi; lia].
    apply (Bytes_In p _ H). now apply nth_In. }
  unfold le_u32. repeat (apply Z.lor_nonneg; split); rewrite ?Z.shiftl_nonneg; apply Hn.
Qed.

Lemma JValue_tx_error body : Bytes (default [] body) -> JValue (tx_error_json body).
Proof.
  intros Hb. unfold tx_error_json, tx_error_parts. set (off := match body with Some b => _ | None => 0 end). set (b := default [] body) in *.
  assert (forall t e x, bytes_nodeid t = true -> 0 <= e -> wf_str x = true ->
    JValue (jobject [field "targetId" (nodeid_json t); field "error" (print_status_obj e); field "message" (json_bytes x)])) as H.
  { intros t e x Ht He Hx. apply JValue_object. repeat constructor; apply JMember_field; try reflexivity;
      [now apply JValue_nodeid_json|now apply JValue_status|now apply JValue_json_bytes]. }
  destruct (if _ && _ then decode_nodeid b else None) as [n|] eqn:E; [|apply H; reflexivity || (unfold UA_STATUSCODE_BADDECODINGERROR; lia)].
  destruct (_ && _); [|discriminate]. apply H; [now apply (decode_nodeid_wf b)|apply le_u32_nonneg; now apply Forall_skipn|].
  destruct (decode_localized_text _) as [[l t]|] eqn:Et; [|reflexivity].
  eapply decode_text_wf; [|exact Et]. now apply Forall_skipn, Forall_skipn.
Qed.

Lemma members_tx_errors v : match v with Some x => wf_variant x | None => true end = true -> adds_members (fun j => push_tx_errors j v).
Proof.
  intros Hw. eapply (adds_members_one _ "errors" (jarray (map (fun x => tx_error_json (element_body x)) (array_items v)))); [|reflexivity|].
  - intros j. unfold push_tx_errors.
    apply (adds_field j "errors" (fun j => p12j_close (fold_left (fun j x => push_tx_error (p12j_sep j) (element_body x)) (array_items v) (p12j_open j 91)) 93)); [reflexivity|].
    intros j' _. apply (writes_nested j' (fun j => fold_left (fun j x => push_tx_error (p12j_sep j) (element_body x)) (array_items v) j)).
    intros j1 _. apply (adds_elements (fun j x => push_tx_error j (element_body x))). intros x j2 _. apply writes_tx_error.
  - apply JValue_array, Forall_map, Forall_forall. intros x Hx. apply JValue_tx_error, element_body_Bytes.
    destruct v as [[|y|t items d]|]; try contradiction. cbn [wf_variant] in Hw. apply andb_prop in Hw as [Hw _].
    rewrite forallb_forall in Hw. now apply Hw.
Qed.

Lemma JValue_datetime_json dt : JValue (datetime_json dt).
Proof.
  unfold datetime_json. destruct (dt =? 0); [apply JValue_null|]. apply JValue_json_string. cbn [default].
  unfold output_timestamp. destruct (dt =? 0); [constructor|]. apply Bytes_snprintf.
  assert (forall w n, Bytes (fmt_u0 w (u32 n))) as Hu.
  { intros w n. apply pad0_Forall; [reflexivity|]. eapply Forall_impl; [|apply fmt_u_digits; apply uwrap_range; lia].
    intros c Hc. unfold isdigit in Hc. unfold is_byte. zbool. lia. }
  repeat (apply Bytes_cat; [first [apply Hu|repeat constructor]|]). repeat constructor.
Qed.

Lemma tx_result_nonneg v : match v with Some x => wf_variant x | None => true end = true -> 0 <= tx_result v.
Proof.
  unfold tx_result, UA_STATUSCODE_GOOD. destruct v as [[|x|]|]; intros H; try lia. destruct x; try lia. cbn in H. now apply Z.leb_le.
Qed.

Lemma members_datetime key dt : key_plain key = true -> adds_members (fun j => p12j_datetime (p12j_key j key) dt).
Proof.
  intros Hk. eapply adds_members_one; [|exact Hk|apply (JValue_datetime_json dt)]. intros j.
  apply (adds_field j key (fun j => p12j_datetime j dt)); [exact Hk|apply after_value, writes_datetime].
Qed.

Lemma members_tx v : (forall i, match v i with Some x => wf_variant x | None => true end = true) -> adds_members (tx_fields v).
Proof.
  intros Hv. unfold tx_fields.
  apply (adds_members_comp (fun j => p12j_nodeid_array_field (p12j_nodeid_array_field (p12j_status_field (p12j_datetime (p12j_key
    (p12j_datetime (p12j_key j "startTime") (tx_datetime (v 0%nat))) "endTime") (tx_datetime (v 1%nat))) "result" (tx_result (v 2%nat)))
    "affectedTrustLists" (v 3%nat)) "affectedCertificateGroups" (v 4%nat)) (fun j => push_tx_errors j (v 5%nat))); [|apply members_tx_errors, Hv].
  apply (adds_members_comp _ (fun j => p12j_nodeid_array_field j "affectedCertificateGroups" (v 4%nat))); [|apply members_nodeid_array; [reflexivity|apply Hv]].
  apply (adds_members_comp _ (fun j => p12j_nodeid_array_field j "affectedTrustLists" (v 3%nat))); [|apply members_nodeid_array; [reflexivity|apply Hv]].
  apply (adds_members_comp _ (fun j => p12j_status_field j "result" (tx_result (v 2%nat)))); [|apply members_status; [reflexivity|apply tx_result_nonneg, Hv]].
  apply (adds_members_comp _ (fun j => p12j_datetime (p12j_key j "endTime") (tx_datetime (v 1%nat)))); apply members_datetime; reflexivity.
Qed.

Lemma first_bad_range l : forallb wf_datavalue l = true -> 0 <= first_bad_status l.
Proof.
  induction l as [|[v [sc|] a b c d] l IH]; cbn [forallb first_bad_status]; rewrite ?andb_true_iff; unfold UA_STATUSCODE_GOOD.
  - lia.
  - intros [H1 H2]. cbn [wf_datavalue wf_opt] in H1. rewrite !andb_true_iff in H1. destruct (_ =? _); [auto|]. apply Z.leb_le. tauto.
  - intros [_ H]. auto.
Qed.

Lemma post_diagnostics : kept push_tx_diagnostics (fun sc => 0 <= sc).
Proof.
  intros [w o] Ho. unfold push_tx_diagnostics. pose proof (read_status w TS_NEITHER tx_ids) as Hs. pose proof (read_wf w TS_NEITHER tx_ids) as Hw.
  destruct (Service_read w TS_NEITHER tx_ids) as [w1 [sc results]]. cbn [fst snd] in *.
  destruct (p12_is_transport sc) eqn:Et. { split; [exact Ho|]. split; [exact Hs|]. intros ->. discriminate. }
  set (sc' := if negb _ then _ else _). assert (0 <= sc') as Hs'.
  { unfold sc'. destruct (negb _); [lia|]. destruct (negb _); [unfold UA_STATUSCODE_BADUNEXPECTEDERROR; lia|now apply first_bad_range]. }
  cbn [fst snd]. split; [|exact Hs']. set (v := fun i => result_value (nth i results (DataValue None None None None None None))).
  assert (forall i, match v i with Some x => wf_variant x | None => true end = true) as Hv.
  { intros i. unfold v. destruct (Nat.lt_ge_cases i (length results)) as [Hi|Hi]; [|rewrite nth_overflow by exact Hi; reflexivity].
    rewrite forallb_forall in Hw. specialize (Hw _ (nth_In results (DataValue None None None None None None) Hi)).
    destruct (nth i results _) as [x st a b c d]. cbn [result_value wf_datavalue] in *. rewrite !andb_true_iff in Hw. destruct x; [tauto|reflexivity]. }
  pose proof (post_out (fun j => if sc' =? UA_STATUSCODE_GOOD
    then p12j_close (tx_fields v (p12j_open (p12j_key (p12j_status_field j "transactionDiagnosticsStatus" sc') "transactionDiagnostics") 123)) 125
    else p12j_status_field j "transactionDiagnosticsStatus" sc')) as Hp.
  assert (adds_members (fun j => p12j_status_field j "transactionDiagnosticsStatus" sc')) as Hm by (apply members_status; [reflexivity|exact Hs']).
  destruct (Hp ltac:(destruct (sc' =? _); [apply (adds_members_comp _ (fun j => p12j_close (tx_fields v (p12j_open (p12j_key j "transactionDiagnostics") 123)) 125) Hm); apply (members_object "transactionDiagnostics" (tx_fields v)); [reflexivity|now apply members_tx]|exact Hm]) (w1, o) Ho) as [H _].
  exact H.
Qed.

Lemma post_resolve what s : Bytes s -> kept (resolve_flag what s) (fun _ => True).
Proof.
  intros Hb [w o] Ho. unfold resolve_flag. cbn [fst snd]. destruct (p12_resolve_nodeid w s) as [w1 [n|]]; cbn [fst snd]; [now split|].
  split; [|split; [unfold UA_STATUSCODE_BADNAMESPACEURIINVALID; lia|discriminate]].
  destruct (inv_failMsg (B "unknown namespace URI in " ++ B what ++ B " '" ++ s ++ B "'") o) as [H1 H2 H3]; [auto 7 using Bytes_cat, Bytes_B|exact Ho|].
  now split.
Qed.

Lemma post_translate start paths msg : kept (translate_step start paths msg) (fun _ => True).
Proof.
  intros [w o] Ho. unfold translate_step. cbn [fst snd]. pose proof (translate_result w start paths) as H.
  destruct (p12_translate w start paths) as [w1 [ids|sc]]; cbn [fst snd] in *; [now split|].
  split; [apply inv_failMsg; [apply Bytes_B|exact Ho]|exact H].
Qed.

Lemma post_read_list rounds obj key msg : key_plain key = true -> kept (read_list_step rounds obj key msg) (fun _ => True).
Proof.
  intros Hk [w o] Ho. unfold read_list_step. cbn [fst snd].
  destruct (p12_read_trust_list rounds w obj _) as [[w1 [tl|sc]]|] eqn:E; cbn [fst snd]; [| |now split]; apply read_trust_list_wf in E.
  - exact (post_out _ (members_trust_list key tl Hk E) (w1, o) Ho).
  - split; [apply inv_failMsg; [apply Bytes_B|exact Ho]|exact E].
Qed.

Definition text_args_of (a : PushArgs) : Prop := Bytes (default [] (pa_certTypeStr a)) /\ Bytes (default [] (pa_deleteType a)) /\
  0 <= pa_group a.

Lemma post_changes a group certType obj i1 i2 : Bytes (default [] (pa_deleteType a)) -> kept (change_steps a group certType obj i1 i2) (fun _ => True).
Proof.
  intros Hb. unfold change_steps.
  repeat (apply post_also; [apply post_when; first
    [apply post_method; [reflexivity|intros out Hw; first [apply no_members|apply members_out_bytes; [reflexivity|exact Hw]|idtac]]
    |apply post_also; [now apply post_resolve|intros n; apply post_method; [reflexivity|intros out _; apply no_members]]]|intros []]).
  - apply (adds_members_comp (fun j => p12j_nodeid_array_field j "certificateTypeIds" (nth_out out 0))
      (fun j => p12j_b64_array_field j "certificates" (nth_out out 1))).
    + apply members_nodeid_array; [reflexivity|now apply nth_out_wf].
    + apply members_b64_array; [reflexivity|now apply nth_out_wf].
  - apply members_raw; [reflexivity|apply JValue_bool].
  - apply post_when, post_method; [reflexivity|]. intros out Hw. apply members_b64_array; [reflexivity|now apply nth_out_wf].
Qed.

Lemma post_closing rounds a obj b : kept (closing_steps rounds a obj b) (fun _ => True).
Proof.
  unfold closing_steps. apply post_also; [apply post_gets|]. intros failed. apply post_also.
  - destruct (_ && _); [|now apply post_ret]. unfold diagnostics_step. eapply post_bind; [apply post_diagnostics|]. intros sc Hs. cbn beta in Hs.
    apply post_modify; [exact I|]. intros [w o] Ho. cbn [fst snd]. destruct (_ && _); [|exact Ho].
    apply inv_failMsg; [apply Bytes_B|]. destruct Ho as [H1 H2 H3]. now split.
  - intros []. apply post_when, post_read_list. reflexivity.
Qed.

Lemma post_steps rounds a : text_args_of a -> kept (push_steps rounds a) (fun _ => True).
Proof.
  intros (H1 & H2 & H3). unfold push_steps. apply post_also.
  { apply post_out, members_nodeid; [reflexivity|]. apply Z.leb_le in H3. unfold bytes_nodeid, UA_NODEID_NUMERIC. cbn [namespaceIndex identifier]. now rewrite H3. }
  intros []. apply post_also. { destruct (pa_certTypeStr a) as [s|]; [now apply post_resolve|now apply post_ret]. }
  intros certType. apply post_also; [apply post_translate|]. intros ids. apply post_also; [apply post_read_list; reflexivity|].
  intros []. apply post_also; [now apply post_changes|]. intros []. apply post_also; [|intros applied; apply post_closing].
  unfold final_steps. apply post_also; [apply post_when, post_method; [reflexivity|intros; apply no_members]|]. intros [].
  apply post_also; [apply post_gets|]. intros failed. apply post_also; [apply post_when, post_method; [reflexivity|intros; apply no_members]|].
  intros []. apply post_also; [apply post_when, post_method; [reflexivity|intros; apply no_members]|]. intros []. now apply post_ret.
Qed.

Lemma inv_start : push_inv push_start.
Proof.
  split; [apply open_item_start|split; [constructor|cbn; lia]|cbn; unfold UA_STATUSCODE_GOOD; lia].
Qed.

Lemma push_report_good ret o : push_inv o -> 0 <= ret -> reports push_op (fst (push_report ret o)) (snd (push_report ret o)).
Proof.
  intros Ho Hr. pose proof (open_item_good _ (pi_item o Ho)) as Hi. destruct Ho as [_ [Hm Hl] Hs]. unfold push_report.
  assert (good_item None) as Hn by now left.
  destruct (j_oom _); [apply (p12_emit_reports push_op 6); [apply Bytes_B|unfold UA_STATUSCODE_BADOUTOFMEMORY; lia| |exact Hn|cbn; tauto];
    repeat split; first [apply Bytes_B|cbn; lia]|].
  destruct (po_inputErr o); [apply (p12_emit_reports push_op 2); [apply Bytes_B|exact Hr| |exact Hn|cbn; tauto];
    repeat split; first [apply Bytes_B|assumption|cbn; lia]|].
  destruct (negb _).
  - pose proof (p12_exit_codes ret) as Hc. set (ec := p12_exit_code ret) in *. cbn [fst snd].
    replace false with (ec =? 0) by (destruct Hc as [<-|[<-|[<-|[]]]]; reflexivity).
    apply p12_emit_reports; [apply Bytes_B|exact Hr| |exact Hi|cbn in Hc |- *; tauto].
    split; [destruct (ec =? 7); [apply Bytes_B|destruct (ec =? 3); apply Bytes_B]|].
    split; [destruct (po_failMsg o); [apply Bytes_B|exact Hm]|].
    split; [destruct (ec =? 7); [cbn; lia|destruct (ec =? 3); cbn; lia]|]. destruct (po_failMsg o); [cbn; lia|exact Hl].
  - destruct (po_failed o); cbn [fst snd].
    + apply (p12_emit_reports push_op 4); [apply Bytes_B|exact Hs| |exact Hi|cbn; tauto]. repeat split; first [apply Bytes_B|assumption|cbn; lia].
    + apply (p12_emit_reports push_op 0); [apply Bytes_B|unfold UA_STATUSCODE_GOOD; lia|exact I|exact Hi|cbn; tauto].
Qed.

(** ** The flags *)

Lemma push_parse_ok w argv a : push_parse w argv = Ok a ->
  find_arg argv (B "--endpoint") <> None /\ pa_apply a && pa_cancel a = false /\
  pa_certTypeStr a = find_arg argv (B "--certificate-type-id") /\ pa_deleteType a = find_arg argv (B "--delete-certificate") /\ 0 <= pa_group a.
Proof.
  unfold push_parse. intros H. apply rbind_Ok in H as (x & Ex & H). apply rbind_Ok in H as (g & Eg & H). 
  do 9 (apply rbind_Ok in H as (? & ? & H)). injection H as <-. cbn [pa_apply pa_cancel pa_certTypeStr pa_deleteType pa_group].
  split; [intros E; rewrite E in Ex; discriminate|].
  split; [now destruct (p12_has_flag argv (B "--apply"))|]. split; [reflexivity|]. split; [reflexivity|].
  unfold push_group in Eg. destruct (find_arg argv (B "--group")) as [gr|]; [|injection Eg as <-; cbn; lia].
  destruct (streq gr _); [injection Eg as <-; cbn; lia|]. destruct (streq gr _); [injection Eg as <-; cbn; lia|].
  destruct (streq gr _); [injection Eg as <-; cbn; lia|discriminate].
Qed.

(** Every message of [push_parse] is bytes. *)
Lemma push_parse_err w argv msg : text_argv argv -> push_parse w argv = Err msg -> Bytes msg.
Proof.
  intros Ht. unfold push_parse, errorf. pose proof (fun f => Bytes_find argv f Ht) as Hf.
  assert (forall s, Bytes (default [] s) -> forall m, nodeid_flag s = Err m -> Bytes m) as Hnode.
  { intros [s|] Hs m; cbn [nodeid_flag]; [|discriminate]. destruct (validate_nodeid_structure s); [discriminate|]. unfold errorf.
    intros E. apply Err_inj in E as <-. text_bytes. }
  assert (forall fl p, Bytes p -> forall m, certificate_flag w fl p = Err m -> Bytes m) as Hcert.
  { intros fl p Hp m. unfold certificate_flag. destruct (p12_read_certificate w p); [discriminate|]. intros E. apply Err_inj in E as <-. text_bytes. }
  assert (forall fl p, Bytes (default [] p) -> forall m, opt_certificate w fl p = Err m -> Bytes m) as Hopt.
  { intros fl [p|] Hp m; cbn [opt_certificate]; [|discriminate]. unfold rbind. destruct (certificate_flag w fl p) eqn:E; [discriminate|].
    intros H. apply Err_inj in H as <-. exact (Hcert _ _ Hp _ E). }
  assert (forall fl d m, uint16_flag argv fl d = Err m -> Bytes m) as Huint.
  { intros fl d m. unfold uint16_flag. destruct (find_arg argv (B fl)) as [s|] eqn:E; [|discriminate]. destruct (p12_parse_uint s 65535); [discriminate|].
    unfold errorf. intros H. apply Err_inj in H as <-. pose proof (find_arg_Bytes _ _ _ Ht E). text_bytes. }
  intros H. apply (rbind_Err _ _ Bytes _ H); clear H; [|intros _ H].
  { destruct (find_arg argv (B "--endpoint")); [discriminate|]. intros E. apply Err_inj in E as <-. apply Bytes_B. }
  apply (rbind_Err _ _ Bytes _ H); clear H; [|intros g H].
  { destruct (push_group _); [discriminate|]. intros E. apply Err_inj in E as <-. pose proof (Hf (B "--group")). text_bytes. }
  apply (rbind_Err _ _ Bytes _ H); clear H; [now apply Hnode|intros _ H].
  apply (rbind_Err _ _ Bytes _ H); clear H; [now apply Hnode|intros _ H].
  apply (rbind_Err _ _ Bytes _ H); clear H; [now apply Hopt|intros add H].
  apply (rbind_Err _ _ Bytes _ H); clear H; [now apply Huint|intros days H].
  apply (rbind_Err _ _ Bytes _ H); clear H; [now apply Huint|intros size H].
  apply (rbind_Err _ _ Bytes _ H); clear H; [|intros _ H].
  { destruct (_ && _); [|discriminate]. intros E. apply Err_inj in E as <-. apply Bytes_B. }
  apply (rbind_Err _ _ Bytes _ H); clear H; [now apply Hopt|intros upd H].
  apply (rbind_Err _ _ Bytes _ H); clear H; [|intros key H].
  - unfold key_flag. destruct (find_arg argv (B "--update-private-key")) as [f|] eqn:Ef; [|discriminate].
    pose proof (find_arg_Bytes _ _ _ Ht Ef) as Hb. intros H. apply (rbind_Err _ _ Bytes _ H); clear H; [|intros fmt H].
    + destruct (find_arg argv (B "--private-key-format")) as [fmt|] eqn:Em; [|discriminate]. destruct (_ || _); [discriminate|].
      unfold errorf. intros E. apply Err_inj in E as <-. pose proof (find_arg_Bytes _ _ _ Ht Em). text_bytes.
    + apply (rbind_Err _ _ Bytes _ H); clear H; [|discriminate]. destruct (p12_read_file w f); [discriminate|].
      intros E. apply Err_inj in E as <-. text_bytes.
  - apply (rbind_Err _ _ Bytes _ H); clear H; [|discriminate].
    assert (forall l, (forall v, In v l -> Bytes v) -> mapR (certificate_flag w "--issuer-certificate") l = Err msg -> Bytes msg) as Hm;
      [|apply Hm; intros v; now apply Bytes_values].
    clear - Hcert. induction l as [|v l IH]; cbn [mapR]; [discriminate|]. intros Hv. destruct (certificate_flag w _ v) eqn:E.
    + destruct (mapR _ l) eqn:El; [discriminate|]. intros H. apply Err_inj in H as ->. apply IH; [|reflexivity]. intros x Hx. apply Hv. now right.
    + intros H. apply Err_inj in H as <-. eapply Hcert; [|exact E]. apply Hv. now left.
Qed.

(** ** Every run ends *)

Lemma push_session_ends w a : (forall obj read h w, ReadsEnd (W := W) obj read h w) ->
  exists p r, forall n, (p <= n)%nat -> push_session n w a = Some r.
Proof.
  intros Hends. unfold push_session. destruct (match pa_certTypeStr a with Some s => _ | None => _ end) as [w1 [ct|]]; [|exists O; eauto].
  destruct (p12_translate w1 _ _) as [w2 [ids|sc]]; [|exists O; eauto]. unfold read_list.
  destruct (read_trust_list_ends w2 (nth 0 ids UA_NODEID_NULL) (Some PUSH_TRUST_LIST_MASKS_ALL) Hends) as (p & [w3 [tl|sc]] & Hp);
    [|exists p; eexists; intros n Hn; rewrite (Hp n Hn); reflexivity].
  destruct (with_diagnostics a (run_plan w3 (push_plan a (UA_NODEID_NUMERIC 0 (pa_group a)) ct (nth 0 ids UA_NODEID_NULL)
    (nth 1 ids UA_NODEID_NULL) (nth 2 ids UA_NODEID_NULL)))) as [w4 v] eqn:Er.
  assert (v = AllGood \/ v <> AllGood) as [->|Hv] by (destruct v; [now left|now right..]).
  - destruct (read_trust_list_ends w4 (nth 0 ids UA_NODEID_NULL) (Some PUSH_TRUST_LIST_MASKS_ALL) Hends) as (q & r2 & Hq).
    exists (p + q)%nat, (match r2 with (w, inl _) => (w, AllGood) | (w, inr sc) => (w, Broken sc) end).
    intros n Hn. rewrite (Hp n) by lia. cbn [obind]. unfold closing. rewrite Er. unfold read_list. rewrite (Hq n) by lia. cbn [obind].
    now destruct r2 as [w5 [tl2|sc2]].
  - exists p, (w4, v). intros n Hn. rewrite (Hp n Hn). cbn [obind]. unfold closing. rewrite Er. destruct v; congruence.
Qed.

(** With enough rounds: one report. *)
Lemma push_run_reports w0 argv a w : text_argv argv -> push_parse w0 argv = Ok a -> (forall obj read h w, ReadsEnd (W := W) obj read h w) ->
  exists p, forall rounds, (p <= rounds)%nat -> ends_reporting push_op (push_run rounds w a).
Proof.
  intros Ht Hp Hends. destruct (push_parse_ok _ _ _ Hp) as (_ & Hx & Hc & Hd & Hg).
  assert (text_args_of a) as Ha by (unfold text_args_of; rewrite Hc, Hd; auto using Bytes_find).
  destruct (push_session_ends w a Hends) as (p & [w' v] & Hr). exists p. intros rounds Hn.
  pose proof (steps_follow rounds w a Hx) as Hf. rewrite (Hr rounds Hn) in Hf. destruct (post_steps rounds a Ha (w, push_start) inv_start) as [Hi He].
  unfold push_run. destruct (push_steps rounds a (w, push_start)) as [[w1 o] e]. cbn [agrees fst snd] in *. destruct Hf as [-> Hl].
  assert (e <> NoRounds) as Hne by (intros ->; destruct v; cbn [leaves] in Hl; now destruct Hl).
  set (ret := match e with Goto sc => sc | _ => UA_STATUSCODE_GOOD end).
  assert (0 <= ret) as Hret by (unfold ret; destruct e; [unfold UA_STATUSCODE_GOOD; lia|apply He|unfold UA_STATUSCODE_GOOD; lia]).
  pose proof (push_report_good ret o Hi Hret) as Hrep. destruct (push_report ret o) as [code out] eqn:Er. cbn [fst snd] in Hrep.
  exists (Client_disconnect w'), code, out. split; [|exact Hrep]. destruct e; [reflexivity..|congruence].
Qed.

Lemma push_reports {clk : Clock L} w g argv : text_argv argv -> text_args g push_op -> (forall obj read h w, ReadsEnd (W := W) obj read h w) ->
  exists n, forall fuel, (n <= fuel)%nat -> exists p, forall rounds, (p <= rounds)%nat -> ends_reporting push_op (cmd_push fuel rounds w g argv).
Proof.
  intros Ht Hg Hends. unfold cmd_push. destruct (push_parse w argv) as [a|msg] eqn:Ep.
  2:{ exists O. intros. exists O. intros. apply ends_usage; [apply Bytes_B|now apply (push_parse_err w argv)]. }
  set (url := default [] _). destruct (make_client_ends w g url (request_ms argv) push_op) as [n Hm]. exists n. intros fuel Hf. unfold with_client.
  destruct (Hm fuel Hf) as [[w1 [cfg|f]] E]; rewrite E; [now apply (push_run_reports w argv)|].
  exists O. intros. eexists _, _, _. split; [reflexivity|]. apply reports_failure. eapply make_client_failure; eauto.
Qed.
End Reports.

(** A TransactionErrorType in its binary encoding (TargetId, Error, Message) is taken
    apart into its fields, whatever form the NodeId has. *)
Lemma tx_error_decoded {dec : BinaryDecoders} n b err t l text :
  (forall n b rest, nodeid_bytes n b -> decode_nodeid (b ++ rest) = Some n) ->
  nodeid_bytes n b -> 0 <= err < 2 ^ 32 -> decode_localized_text t = Some (l, text) ->
  tx_error_parts (Some (b ++ le 4 err ++ t)) = (n, err, text).
Proof.
  intros Hdec Hb He Ht. unfold tx_error_parts. cbn [default]. rewrite (encoded_length n b (le 4 err ++ t) Hb).
  assert (b <> []) as Hn by (intros ->; inversion Hb). assert (0 < Z.of_nat (length b)) as Hl by (destruct b; [congruence|cbn [length]; lia]).
  rewrite (proj2 (Z.ltb_lt 0 _) Hl). rewrite (proj2 (Z.leb_le _ (Z.of_nat (length (b ++ le 4 err ++ t))))) by (rewrite !length_app, le_length; lia).
  cbn [andb]. rewrite (Hdec n b (le 4 err ++ t) Hb), Nat2Z.id, skipn_app, skipn_all, Nat.sub_diag, skipn_O. cbn [app].
  rewrite le_u32_le, skipn_app, le_length. rewrite skipn_all2 by (rewrite le_length; lia). rewrite Nat.sub_diag, skipn_O. cbn [app]. rewrite Ht.
  unfold u32. now rewrite uwrap_small.
Qed.

(** * Theorems *)

(** C20: push refines the session the contract describes, on a server whose method
    calls answer Good or Bad (the code also stops at an Uncertain status).  With the
    flags parsed to [a], the calls made on the session are those of [push_session]: the
    TrustList is read, then the requested methods are called in the order of the plan
    with the arguments of the flags, up to and including the first that is Bad (so
    ApplyChanges is only called when no step before it was refused, and never together
    with CancelChanges), then the diagnostics and the list again; and the exit code
    is 0 exactly when all went well, 4 when a method refused, 3, 4 or 7 when the session
    could not go on, 2 for a NodeId that does not resolve (or 6 when memory ran out). *)
Theorem push_follows_contract {stack : UaStack} {laws : UaStackLaws stack} {heap : Heap} {hl : HeapLaws heap} {nid : NodeIdOps} {xl : X509Lib}
    {dec : BinaryDecoders} {enc : UaCodec} {el : UaCodecLaws enc} {W} {L : ClientLib W} {srv : Services W} {srvLaws : ServicesLaws srv}
    {p12 : Part12Services W} {pl : Part12Laws p12 dec} rounds w0 argv a w :
  good_or_bad srv -> text_argv argv -> push_parse w0 argv = Ok a ->
  match push_session (rule := stop_bad) rounds w a with
  | None => push_run rounds w a = NoFuel
  | Some (w', v) => exists code out, push_run rounds w a = Exits (Client_disconnect w') code out /\
      (code = verdict_exit v \/ code = 6) /\ ((forall n, alloc_ok n = true) -> code = verdict_exit v)
  end.
Proof.
  intros Hgb Ht Hp. rewrite (push_session_contract rounds w a Hgb). destruct (push_parse_ok _ _ _ Hp) as (_ & Hx & Hc & Hd & Hg).
  assert (text_args_of a) as Ha by (unfold text_args_of; rewrite Hc, Hd; auto using Bytes_find).
  pose proof (steps_follow rounds w a Hx) as Hf. destruct (post_steps rounds a Ha (w, push_start) inv_start) as [Hi He].
  unfold push_run. destruct (push_steps rounds a (w, push_start)) as [[w1 o] e]. cbn [fst snd] in *.
  destruct (push_session rounds w a) as [[w' v]|]; cbn [agrees fst snd] in Hf; [|subst e; reflexivity]. destruct Hf as [-> Hl].
  assert ((forall n, alloc_ok n = true) -> j_oom (p12j_close (po_j o) 125) = false) as Hoom.
  { apply open_item_plenty, Hi. }
  assert (push_report match e with Goto sc => sc | _ => UA_STATUSCODE_GOOD end o =
    (if j_oom (p12j_close (po_j o) 125) then 6 else verdict_exit v,
     snd (push_report match e with Goto sc => sc | _ => UA_STATUSCODE_GOOD end o))) as Er.
  { unfold push_report. destruct (j_oom _); [reflexivity|]. destruct v; cbn [leaves verdict_exit] in Hl |- *.
    - destruct Hl as (-> & Hfl & ->). rewrite Hfl. reflexivity.
    - destruct Hl as (-> & Hfl & _ & ->). rewrite Hfl. reflexivity.
    - destruct Hl as (-> & ->). destruct He as [_ He]. destruct (Z.eqb_spec sc UA_STATUSCODE_GOOD); [contradiction|reflexivity].
    - destruct Hl as (-> & ->). reflexivity. }
  assert (e <> NoRounds) as Hne by (intros ->; destruct v; cbn [leaves] in Hl; now destruct Hl).
  exists (if j_oom (p12j_close (po_j o) 125) then 6 else verdict_exit v),
    (snd (push_report match e with Goto sc => sc | _ => UA_STATUSCODE_GOOD end o)).
  split; [destruct e; [rewrite Er; reflexivity|rewrite Er; reflexivity|congruence]|].
  split; [destruct (j_oom _); auto|]. intros Hn. now rewrite (Hoom Hn).
Qed.

(** * A server that keeps a log *)

(** The world is the methods called so far, oldest first; all of them are Good. *)
Definition log_answer (m : ua_nodeid) : list ua_variant :=
  match identifier m with
  | IdString (Some n) => if streq n (B "OpenWithMasks") then [VtScalar (VUInt32 1)]
                         else if streq n (B "Read") then [VtScalar (VByteString (Some [15]))] else []
  | _ => []
  end.

Definition log_services : Services (list ua_nodeid) := {|
  NamespaceGetIndex w _ := (w, None);
  Service_read w _ l := (w, (UA_STATUSCODE_GOOD, map (fun _ => DataValue None None None None None None) l));
  Service_write w l := (w, (UA_STATUSCODE_GOOD, map (fun _ => UA_STATUSCODE_GOOD) l));
  Service_browse w _ := (w, (UA_STATUSCODE_GOOD, []));
  Service_browseNext w _ := (w, (UA_STATUSCODE_GOOD, []));
  Service_translate w _ _ := (w, (UA_STATUSCODE_GOOD, []));
  Client_call w _ m _ := (w ++ [m], (UA_STATUSCODE_GOOD, log_answer m));
  Client_findServers w _ := (w, (UA_STATUSCODE_GOOD, []));
  Channel_getEndpoints w _ := (w, (UA_STATUSCODE_GOOD, []));
  Channel_findServers w := (w, (UA_STATUSCODE_GOOD, [])) |}.

Lemma log_services_laws : ServicesLaws log_services.
Proof.
  split; intros; cbn [fst snd Service_read Service_write Service_browse Service_browseNext Service_translate Client_call log_services] in *;
    try (unfold UA_STATUSCODE_GOOD; lia); try apply length_map;
    try (apply forallb_forall; intros x Hx; apply in_map_iff in Hx as (y & <- & _); reflexivity); try contradiction.
  unfold log_answer. destruct (identifier m) as [|[n|]| | |]; try reflexivity. destruct (streq n _); [reflexivity|]. now destruct (streq n _).
Qed.

Definition log_part12 : Part12Services (list ua_nodeid) := {|
  Service_translatePaths w _ l := (w, (UA_STATUSCODE_GOOD,
    map (fun p => {| pr_statusCode := UA_STATUSCODE_GOOD; pr_targets := [fs_method (last p [])] |}) l));
  Client_readValue w _ := (w, (UA_STATUSCODE_GOOD, VtEmpty));
  sleep_ms w _ := w |}.

Lemma log_part12_laws : Part12Laws log_part12 toy_decoders.
Proof.
  split; cbn [fst snd Service_translatePaths Client_readValue log_part12]; unfold UA_STATUSCODE_GOOD; try (intros; lia).
  - intros w n l r Hr. apply in_map_iff in Hr as (p & <- & _). cbn. lia.
  - discriminate.
  - discriminate.
  - exact toy_trust_list_wf.
Qed.

Definition log_client : ClientLib (list ua_nodeid) := {|
  Client_new w := (w, true); Client_getEndpoints w _ := (w, (UA_STATUSCODE_GOOD, [])); Client_connect w _ _ := (w, UA_STATUSCODE_GOOD);
  Client_disconnect w := w; Client_readServerArray w := (w, (UA_STATUSCODE_GOOD, [])); Client_run_iterate w _ := w;
  Client_getState _ := (ChClosed, SsOther, UA_STATUSCODE_GOOD); Client_startListening w _ _ _ := (w, UA_STATUSCODE_GOOD);
  mono_ms w := (w, 0); file_bytes _ _ := Some [7]; x509_names := no_certificates;
  setDefaultEncryption _ _ _ := (UA_STATUSCODE_GOOD, [], []); decryptPrivateKey k := (UA_STATUSCODE_GOOD, k);
  ecc_ctor _ _ _ := UA_STATUSCODE_GOOD |}.

(** A library that takes any file for DER. *)
Definition any_x509 : X509Lib := {| x509 := bytes; pem_read_x509 _ := None; d2i_x509 b := Some b; i2d_x509 b := b |}.

Definition push_argv : list bytes :=
  [B "push"; B "--endpoint"; B "opc.tcp://s"; B "--add-certificate"; B "c.der"; B "--csr"; B "--cancel"; B "--apply"].

Lemma push_follows_contract_witness : exists a code out,
  push_parse (xl := any_x509) (L := log_client) [] push_argv = Ok a /\
  push_run (stack := ref_stack) (heap := plentiful) (nid := ref_nodeid_ops) (dec := toy_decoders) (enc := ref_codec) (L := log_client)
    (srv := log_services) (p12 := log_part12) 2 [] a =
  Exits (map fs_method [B "OpenWithMasks"; B "Read"; B "Close"; B "AddCertificate"]
         ++ map config_method [PUSH_CREATE_SIGNING_REQUEST; PUSH_GET_REJECTED_LIST; PUSH_APPLY_CHANGES]
         ++ map fs_method [B "OpenWithMasks"; B "Read"; B "Close"]) code out /\ code = 0.
Proof.
  destruct (push_parse (xl := any_x509) (L := log_client) [] push_argv) as [a|] eqn:Ea; [|discriminate].
  pose proof (push_follows_contract (stack := ref_stack) (heap := plentiful) (nid := ref_nodeid_ops) (xl := any_x509) (dec := toy_decoders)
    (enc := ref_codec) (L := log_client) (srv := log_services) (srvLaws := log_services_laws) (p12 := log_part12) (pl := log_part12_laws)
    2 [] push_argv a [] ltac:(intros ? ? ? ?; reflexivity) ltac:(repeat constructor) Ea) as H.
  vm_compute in Ea. injection Ea as <-.
  match type of H with match ?x with _ => _ end => let v := eval vm_compute in x in change x with v in H end. cbv beta iota in H.
  destruct H as (code & out & H & _ & Hc). eexists _, code, out. split; [reflexivity|]. split; [exact H|]. now apply Hc.
Defined.
