(* ===== verification/GdsPull.v ===== *)
(** gds_pull.c: the [gds-pull] command, the pull model of a Global Discovery Server
    (Part 12).  Its arguments, the ApplicationRecordDataType it encodes and decodes,
    the PKCS #10 request, the steps on one session and the command itself.  The
    steps refine the table of the contract, the poll of FinishRequest ends with the
    clock, and the record reads back as Part 6 encodes it. *)

From Stdlib Require Import String Ascii ZArith Bool List Lia.
Import ListNotations.
From S2P Require Import Prelude CLib Certificates Json UaTypes RefStack Base64 Output CJson Values RoundTrip Args.
From S2P Require Import NodeIds Connect Session ReadWrite BrowseCall Historian HistoryRead Subscribe NodeServices HistoryEvents Codec LocalDiscovery P12Json Part12.

(** * The library *)

(** The functions of OpenSSL behind the certificate request; a key is drawn from the
    random numbers of the world. *)
Class X509Requests (W : Type) := {
  pkey : Type;
  x509_name : Type;
  ia5_string : Type;
  x509_extension : Type;
  x509_req : Type;
  EVP_EC_gen : W -> bytes -> W * option pkey;
  EVP_RSA_gen : W -> Z -> W * option pkey;
  (** a new name with one UTF-8 entry *)
  X509_NAME_entry : bytes -> bytes -> option x509_name;
  ASN1_IA5STRING : bytes -> option ia5_string;
  (** [X509V3_EXT_i2d(NID_subject_alt_name, 0, ...)] *)
  X509V3_subject_alt_name : list (Z * ia5_string) -> option x509_extension;
  (** version, subject, extensions and public key *)
  X509_REQ_build : Z -> x509_name -> list x509_extension -> pkey -> option x509_req;
  (** with SHA-256 *)
  X509_REQ_sign : W -> x509_req -> pkey -> W * option x509_req;
  i2d_X509_REQ : x509_req -> bytes
}.

(** * Constants *)

Definition GDS_NAMESPACE : bytes := B "http://opcfoundation.org/UA/GDS/".
Definition GDS_DIRECTORY : Z := 141.
Definition GDS_FIND_APPLICATIONS : Z := 143.
Definition GDS_REGISTER_APPLICATION : Z := 146.
Definition GDS_UNREGISTER_APPLICATION : Z := 149.
Definition GDS_START_NEW_KEY_PAIR_REQUEST : Z := 154.
Definition GDS_START_SIGNING_REQUEST : Z := 157.
Definition GDS_FINISH_REQUEST : Z := 163.
Definition GDS_CHECK_REVOCATION_STATUS : Z := 177.
Definition GDS_GET_TRUST_LIST : Z := 204.
Definition GDS_GET_CERTIFICATE_STATUS : Z := 225.
Definition GDS_GET_CERTIFICATE_GROUPS : Z := 508.
Definition GDS_REVOKE_CERTIFICATE : Z := 15005.
Definition GDS_DEFAULT_APPLICATION_GROUP : Z := 615.
Definition GDS_APPLICATION_RECORD_BINARY : Z := 134.
Definition GDS_RSA_SHA256_TYPE : Z := 12560.
Definition GDS_NIST_P256_TYPE : Z := 23538.
Definition GDS_FINISH_POLL_MS : Z := 200.
Definition GDS_PRODUCT_URI : bytes := B "urn:opcua-interop:open62541".
Definition UA_NS0ID_SERVER_NAMESPACEARRAY : Z := 2255.

(** [GEN_DNS] and [GEN_URI] of OpenSSL. *)
Definition GEN_DNS : Z := 2.
Definition GEN_URI : Z := 6.

Definition gds_op : bytes := B "gds-pull".

(** * Arguments *)

Record GdsArgs := {
  ga_appUri : bytes; ga_appName : bytes; ga_appType : Z; ga_urls : list bytes; ga_csr : bool; ga_nistP256 : bool;
  ga_revoke : bool; ga_unregister : bool; ga_finishTimeoutMs : Z }.

(** The loop: [last] is after the last separator seen. *)
Fixpoint last_segment (last uri : bytes) : bytes :=
  match uri with
  | [] => last
  | c :: r => last_segment (if (c =? 58) || (c =? 47) then r else last) r
  end.

Definition gds_app_name (uri : bytes) : bytes :=
  match last_segment uri uri with [] => B "opcua-interop gds-pull app" | last => last end.

Definition app_type (t : option bytes) : option Z :=
  match t with
  | None => Some 0
  | Some t => if streq t (B "Server") then Some 0 else if streq t (B "Client") then Some 1
              else if streq t (B "ClientAndServer") then Some 2 else None
  end.

(** A flag with two values: whether it is the second one. *)
Definition two_way (v : option bytes) (first second : string) : option bool :=
  match v with
  | None => Some false
  | Some v => if streq v (B first) then Some false else if streq v (B second) then Some true else None
  end.

Definition finish_timeout (v : option bytes) : option Z :=
  match v with None => Some 30000 | Some s => p12_parse_uint s 4294967295 end.

(** The value of a flag, or the error with its text. *)
Definition flag_value {A} (argv : list bytes) (flag : string) (parse : option bytes -> option A) (expected : string) : result A :=
  let v := find_arg argv (B flag) in
  of_option (snprintf 512 (B "invalid " ++ B flag ++ B " " ++ default [] v ++ B expected)) (parse v).

Definition gds_parse (argv : list bytes) : result GdsArgs :=
  try _ <- of_option (B "--endpoint is required") (find_arg argv (B "--endpoint"));
  let uri := default (B "urn:opcua-interop:gds-pull:app") (find_arg argv (B "--app-uri")) in
  try type <- flag_value argv "--app-type" app_type " (Server|Client|ClientAndServer)";
  try newKey <- flag_value argv "--request" (fun v => two_way v "csr" "new-key-pair") " (csr|new-key-pair)";
  try nist <- flag_value argv "--certificate-type" (fun v => two_way v "RsaSha256" "NistP256") " (RsaSha256|NistP256)";
  try timeout <- flag_value argv "--finish-timeout-ms" finish_timeout "";
  Ok {| ga_appUri := uri; ga_appName := gds_app_name uri; ga_appType := type;
        ga_urls := p12_all_values argv (B "--discovery-url"); ga_csr := negb newKey; ga_nistP256 := nist;
        ga_revoke := p12_has_flag argv (B "--revoke"); ga_unregister := p12_has_flag argv (B "--unregister");
        ga_finishTimeoutMs := timeout |}.

(** * ApplicationRecordDataType *)

Section Record.
Context {stack : UaStack} {heap : Heap} {enc : UaCodec} {dec : BinaryDecoders}.

(** The buffer and [rc]. *)
Definition gds_append (b : bytes * bool) (v : ua_value) : bytes * bool :=
  let '(buf, rc) := b in
  let '(sc, e) := UA_encodeBinary v in
  let d := default [] e in
  if negb (sc =? UA_STATUSCODE_GOOD) then (buf, true)
  else if alloc_ok (Z.of_nat (length buf) + Z.of_nat (length d)) then (buf ++ d, rc)
  else (buf, true).

Definition gds_append_string (b : bytes * bool) (s : bytes) : bytes * bool := gds_append b (VString (Some s)).

Definition default_url : bytes := B "opc.tcp://localhost:4850".

Definition gds_encode_record (a : GdsArgs) : option bytes :=
  let client := ga_appType a =? 1 in
  let urls := if client then [] else match ga_urls a with [] => [default_url] | l => l end in
  let nUrls := if client then 0 else s32 (match ga_urls a with [] => 1 | l => Z.of_nat (length l) end) in
  let nCaps := if client then 0 else 1 in
  let b := gds_append ([], false) (VNodeId UA_NODEID_NULL) in
  let b := gds_append_string b (ga_appUri a) in
  let b := gds_append b (VInt32 (ga_appType a)) in
  let b := gds_append b (VInt32 1) in
  let b := gds_append b (VLocalizedText (Some (B "en-US")) (Some (ga_appName a))) in
  let b := gds_append_string b GDS_PRODUCT_URI in
  let b := gds_append b (VInt32 nUrls) in
  let b := fold_left gds_append_string (firstn (Z.to_nat nUrls) urls) b in
  let b := gds_append b (VInt32 nCaps) in
  let b := if nCaps =? 0 then b else gds_append_string b (B "NA") in
  if snd b then None else Some (fst b).

(** The ApplicationId of a record. *)
Definition gds_record_id (v : ua_value) : option ua_nodeid := do body <- element_body v; decode_nodeid body.
End Record.

(** * The certificate request *)

Section Csr.
Context {heap : Heap} {W : Type} {req : X509Requests W}.

Definition gds_add_san (gens : list (Z * ia5_string)) (type : Z) (value : bytes) : option (list (Z * ia5_string)) :=
  do s <- ASN1_IA5STRING value; Some (gens ++ [(type, s)]).

(** Everything before the signature. *)
Definition unsigned_csr (a : GdsArgs) (key : pkey) : option x509_req :=
  do name <- X509_NAME_entry (B "CN") (ga_appName a);
  do gens <- gds_add_san [] GEN_URI (ga_appUri a);
  do gens <- gds_add_san gens GEN_DNS (B "localhost");
  do san <- X509V3_subject_alt_name gens;
  X509_REQ_build 0 name [san] key.

Definition gds_make_csr (w : W) (a : GdsArgs) : W * option bytes :=
  let '(w, key) := if ga_nistP256 a then EVP_EC_gen w (B "P-256") else EVP_RSA_gen w 2048 in
  match (do key <- key; do r <- unsigned_csr a key; Some (key, r)) with
  | None => (w, None)
  | Some (key, r) =>
      let '(w, signed) := X509_REQ_sign w r key in
      (w, do r <- signed;
          let der := i2d_X509_REQ r in
          if (0 <? Z.of_nat (length der)) && alloc_ok (Z.of_nat (length der)) then Some der else None)
  end.
End Csr.

(** * The run *)

Record GdsRun := {
  gr_j : P12Json; gr_failed : bool; gr_failSc : Z; gr_failMsg : bytes; gr_internal : bool;
  (** [transport] and [transportSc] *)
  gr_transport : option Z }.

Definition set_json (j : P12Json) (s : GdsRun) : GdsRun :=
  {| gr_j := j; gr_failed := gr_failed s; gr_failSc := gr_failSc s; gr_failMsg := gr_failMsg s;
     gr_internal := gr_internal s; gr_transport := gr_transport s |}.
Definition set_broken (sc : Z) (msg : bytes) (s : GdsRun) : GdsRun :=
  {| gr_j := gr_j s; gr_failed := gr_failed s; gr_failSc := gr_failSc s; gr_failMsg := snprintf 256 msg;
     gr_internal := gr_internal s; gr_transport := Some sc |}.
Definition set_refused (sc : Z) (msg : bytes) (s : GdsRun) : GdsRun :=
  {| gr_j := gr_j s; gr_failed := true; gr_failSc := sc; gr_failMsg := snprintf 256 msg;
     gr_internal := gr_internal s; gr_transport := gr_transport s |}.
Definition set_internal (msg : bytes) (s : GdsRun) : GdsRun :=
  {| gr_j := gr_j s; gr_failed := gr_failed s; gr_failSc := gr_failSc s; gr_failMsg := snprintf 256 msg;
     gr_internal := true; gr_transport := gr_transport s |}.

Definition is_string (want : bytes) (v : ua_value) : bool :=
  match v with VString s => streq (default [] s) want | _ => false end.

(** The index of the first match. *)
Fixpoint find_index {A} (f : A -> bool) (l : list A) : option nat :=
  match l with
  | [] => None
  | x :: r => if f x then Some O else option_map S (find_index f r)
  end.

Section Gds.
Context {stack : UaStack} {heap : Heap} {dec : BinaryDecoders} {enc : UaCodec}
  {W : Type} {L : ClientLib W} {srv : Services W} {p12 : Part12Services W} {req : X509Requests W}.

Abbreviation gds A := (steps (W * GdsRun) unit A).

(** [UA_StatusCode_name] in a format. *)
Definition status_word (sc : Z) : bytes := default (B "(null)") (StatusCode_name sc).

Definition json_step (f : P12Json -> P12Json) : gds unit := modify (fun s => (fst s, set_json (f (gr_j (snd s))) (snd s))).
Definition internal_step {A} (msg : string) : gds A := fun s => ((fst s, set_internal (B msg) (snd s)), Goto tt).

Definition broken_step {A} (key : string) (sc : Z) : gds A := fun s =>
  ((fst s, set_broken sc (B key ++ B ": the connection failed") (snd s)), Goto tt).
Definition refused_step {A} (what key : string) (sc : Z) : gds A := fun s =>
  ((fst s, set_refused sc (B what ++ B ": " ++ status_word sc) (set_json (p12j_status_field (gr_j (snd s)) key sc) (snd s))), Goto tt).

Definition call_world (object method : ua_nodeid) (inputs : list ua_variant) : gds (Z * list ua_variant) := fun s =>
  let '(w, r) := p12_call (fst s) object method inputs in ((w, snd s), Next r).

Definition gds_call (ns : Z) (statusKey : string) (keepGood : bool) (method : Z) (inputs : list ua_variant) : gds (list ua_variant) :=
  run r <- call_world (UA_NODEID_NUMERIC ns GDS_DIRECTORY) (UA_NODEID_NUMERIC ns method) inputs;
  let '(sc, out) := r in
  if p12_is_transport sc then broken_step statusKey sc
  else if sc =? UA_STATUSCODE_GOOD then
    also (if keepGood then json_step (fun j => p12j_status_field j statusKey sc) else ret tt); ret out
  else refused_step statusKey statusKey sc.

(** The status, and the index when it is Good. *)
Definition gds_namespace (w : W) : W * (Z + Z) :=
  let '(w, (sc, v)) := Client_readValue w (UA_NODEID_NUMERIC 0 UA_NS0ID_SERVER_NAMESPACEARRAY) in
  (w, if negb (sc =? UA_STATUSCODE_GOOD) then inr sc
      else let ns := match v with
                     | VtArray TString uris _ =>
                         match find_index (is_string GDS_NAMESPACE) (firstn (Z.to_nat 65536) uris) with Some i => Z.of_nat i | None => 0 end
                     | _ => 0
                     end in
           if ns =? 0 then inr UA_STATUSCODE_BADNODEIDUNKNOWN else inl ns).

(** ** Steps *)

Section Steps.
Context (ns : Z) (a : GdsArgs).

Definition gds_group : ua_nodeid := UA_NODEID_NUMERIC ns GDS_DEFAULT_APPLICATION_GROUP.
Definition gds_certType : ua_nodeid := UA_NODEID_NUMERIC 0 (if ga_nistP256 a then GDS_NIST_P256_TYPE else GDS_RSA_SHA256_TYPE).

(** The ApplicationIds of a FindApplications output. *)
Definition found_ids (out : list ua_variant) : list ua_nodeid :=
  flat_map (fun v => match gds_record_id v with Some n => [n] | None => [] end) (array_items (nth_out out 0)).

(** 1. FindApplications *)
Definition find_step : gds (option ua_nodeid) :=
  run out <- gds_call ns "findApplicationsStatus" false GDS_FIND_APPLICATIONS [p12v_string (Some (ga_appUri a))];
  also json_step (fun j => p12j_close (fold_left (fun j n => p12j_nodeid (p12j_sep j) n) (found_ids out)
                                         (p12j_open (p12j_key j "findApplications") 91)) 93);
  ret (hd_error (found_ids out)).

(** 2. RegisterApplication if nothing was found *)
Definition register_step (found : option ua_nodeid) : gds ua_nodeid :=
  run appId <- match found with
    | Some n => also json_step (fun j => p12j_raw (p12j_key j "registered") (B "false")); ret n
    | None =>
        match gds_encode_record a with
        | None => internal_step "cannot encode ApplicationRecordDataType"
        | Some body =>
            run out <- gds_call ns "registerStatus" true GDS_REGISTER_APPLICATION
              [VtScalar (VExtensionObject (ExtByteString (UA_NODEID_NUMERIC ns GDS_APPLICATION_RECORD_BINARY) (Some body)))];
            also json_step (fun j => p12j_raw (p12j_key j "registered") (B "true"));
            ret (default UA_NODEID_NULL (p12_out_nodeid out 0))
        end
    end;
  also json_step (fun j => p12j_nodeid (p12j_key j "applicationId") appId);
  ret appId.

Definition make_csr_step : gds bytes := fun s =>
  match gds_make_csr (fst s) a with
  | (w, Some csr) => ((w, snd s), Next csr)
  | (w, None) => internal_step "cannot create the certificate request" (w, snd s)
  end.

(** 3. StartSigningRequest / StartNewKeyPairRequest *)
Definition start_step (appId : ua_nodeid) : gds ua_nodeid :=
  also json_step (fun j => p12j_cstr (p12j_key j "requestKind") (Some (if ga_csr a then B "csr" else B "new-key-pair")));
  run out <- (if ga_csr a then
      run csr <- make_csr_step;
      gds_call ns "startRequestStatus" true GDS_START_SIGNING_REQUEST
        [p12v_nodeid appId; p12v_nodeid gds_group; p12v_nodeid gds_certType; p12v_bytestring (Some (Some csr))]
    else
      gds_call ns "startRequestStatus" true GDS_START_NEW_KEY_PAIR_REQUEST
        [p12v_nodeid appId; p12v_nodeid gds_group; p12v_nodeid gds_certType;
         p12v_string (Some (snprintf 512 (B "CN=" ++ ga_appName a))); p12v_string_array [B "localhost"];
         p12v_string (Some (B "PEM")); p12v_string None]);
  let requestId := default UA_NODEID_NULL (p12_out_nodeid out 0) in
  also json_step (fun j => p12j_nodeid (p12j_key j "requestId") requestId);
  ret requestId.

(** The [for (;;)] of FinishRequest; [None]: out of rounds. *)
Fixpoint finish_poll (rounds : nat) (w : W) (deadline : Z) (appId requestId : ua_nodeid) : option (W * (Z * list ua_variant)) :=
  match rounds with
  | O => None
  | S n =>
      let '(w, (sc, out)) := p12_call w (UA_NODEID_NUMERIC ns GDS_DIRECTORY) (UA_NODEID_NUMERIC ns GDS_FINISH_REQUEST)
                               [p12v_nodeid appId; p12v_nodeid requestId] in
      if sc =? UA_STATUSCODE_BADNOTHINGTODO then
        let '(w, now) := mono_ms w in
        if now <? deadline then finish_poll n (sleep_ms w GDS_FINISH_POLL_MS) deadline appId requestId
        else Some (w, (sc, out))
      else Some (w, (sc, out))
  end.

Definition poll_step (rounds : nat) (appId requestId : ua_nodeid) : gds (Z * list ua_variant) := fun s =>
  let '(w, now) := mono_ms (fst s) in
  match finish_poll rounds w (now + ga_finishTimeoutMs a) appId requestId with
  | None => (s, NoRounds)
  | Some (w, r) => ((w, snd s), Next r)
  end.

(** 4. FinishRequest while it answers BadNothingToDo (pending): the certificate *)
Definition finish_step (rounds : nat) (appId requestId : ua_nodeid) : gds ua_string :=
  run r <- poll_step rounds appId requestId;
  let '(sc, out) := r in
  if p12_is_transport sc then broken_step "finishRequest" sc
  else if negb (sc =? UA_STATUSCODE_GOOD) then refused_step "finishRequest" "finishRequestStatus" sc
  else
    let certificate := default None (p12_out_bytestring out 0) in
    also json_step (fun j => p12j_b64_field (p12j_status_field j "finishRequestStatus" sc) "certificate" (Some certificate));
    also (if ga_csr a then ret tt
          else json_step (fun j => p12j_b64_field (p12j_cstr (p12j_key j "privateKeyFormat") (Some (B "PEM"))) "privateKey" (p12_out_bytestring out 1)));
    also json_step (fun j => p12j_b64_array_field j "issuerCertificates" (nth_out out 2));
    ret certificate.

(** 5. GetCertificateGroups *)
Definition groups_step (appId : ua_nodeid) : gds unit :=
  run out <- gds_call ns "getCertificateGroupsStatus" false GDS_GET_CERTIFICATE_GROUPS [p12v_nodeid appId];
  json_step (fun j => p12j_nodeid_array_field j "certificateGroups" (nth_out out 0)).

Definition read_step (rounds : nat) (obj : ua_nodeid) : gds (trust_list + Z) := fun s =>
  match p12_read_trust_list rounds (fst s) obj None with
  | None => (s, NoRounds)
  | Some (w, r) => ((w, snd s), Next r)
  end.

(** 6. GetTrustList, then the TrustList *)
Definition trust_list_step (rounds : nat) (appId : ua_nodeid) : gds unit :=
  run out <- gds_call ns "getTrustListStatus" false GDS_GET_TRUST_LIST [p12v_nodeid appId; p12v_nodeid gds_group];
  let trustList := default UA_NODEID_NULL (p12_out_nodeid out 0) in
  also json_step (fun j => p12j_nodeid (p12j_key j "trustListId") trustList);
  run r <- read_step rounds trustList;
  match r with
  | inr sc => if p12_is_transport sc then broken_step "readTrustList" sc
              else refused_step "readTrustList" "readTrustListStatus" sc
  | inl tl => json_step (fun j => p12j_trust_list (p12j_key j "trustList") tl)
  end.

(** 7. GetCertificateStatus *)
Definition status_step (appId : ua_nodeid) : gds unit :=
  run out <- gds_call ns "getCertificateStatusStatus" true GDS_GET_CERTIFICATE_STATUS
    [p12v_nodeid appId; p12v_nodeid gds_group; p12v_nodeid gds_certType];
  json_step (fun j => p12j_raw (p12j_key j "updateRequired") (bool_text (p12_out_bool out 0))).

Definition out_status (out : list ua_variant) : Z :=
  match nth_out out 0 with Some (VtScalar (VStatusCode c)) => c | _ => UA_STATUSCODE_BADUNEXPECTEDERROR end.

(** 8. RevokeCertificate, CheckRevocationStatus *)
Definition revoke_step (appId : ua_nodeid) (certificate : ua_string) : gds unit :=
  also gds_call ns "revokeStatus" true GDS_REVOKE_CERTIFICATE [p12v_nodeid appId; p12v_bytestring (Some certificate)];
  run out <- gds_call ns "checkRevocationStatus" true GDS_CHECK_REVOCATION_STATUS [p12v_bytestring (Some certificate)];
  json_step (fun j => p12j_status_field j "certificateStatus" (out_status out)).

(** 9. UnregisterApplication *)
Definition unregister_step (appId : ua_nodeid) : gds unit :=
  also gds_call ns "unregisterStatus" true GDS_UNREGISTER_APPLICATION [p12v_nodeid appId]; ret tt.

Definition gds_steps (rounds : nat) : gds unit :=
  run found <- find_step;
  run appId <- register_step found;
  run requestId <- start_step appId;
  run certificate <- finish_step rounds appId requestId;
  also groups_step appId;
  also trust_list_step rounds appId;
  also status_step appId;
  also (if ga_revoke a then revoke_step appId certificate else ret tt);
  if ga_unregister a then unregister_step appId else ret tt.
End Steps.

(** * The command *)

Definition gds_start : GdsRun :=
  {| gr_j := p12j_open p12j_init 123; gr_failed := false; gr_failSc := 0; gr_failMsg := []; gr_internal := false; gr_transport := None |}.

Definition gds_report (s : GdsRun) : Z * bytes :=
  let j := p12j_close (gr_j s) 125 in
  if j_oom j then (6, p12_emit gds_op false UA_STATUSCODE_BADOUTOFMEMORY (Some (B "internal", B "out of memory")) None)
  else match gr_transport s with
  | Some sc => let code := p12_exit_code sc in
               (code, p12_emit gds_op false sc (Some (if code =? 7 then B "timeout" else B "transport", gr_failMsg s)) None)
  | None =>
      if gr_internal s then (6, p12_emit gds_op false UA_STATUSCODE_BADINTERNALERROR (Some (B "internal", gr_failMsg s)) None)
      else if gr_failed s then (4, p12_emit gds_op false (gr_failSc s) (Some (B "service", gr_failMsg s)) (Some j))
      else (0, p12_emit gds_op true UA_STATUSCODE_GOOD None (Some j))
  end.

Definition no_namespace (sc : Z) : failure :=
  let ec := if p12_is_transport sc then p12_exit_code sc else 4 in
  {| f_exit := ec;
     f_out := cli_emit_failure gds_op sc (if ec =? 7 then B "timeout" else if ec =? 3 then B "transport" else B "service")
                (snprintf 512 (B "the server has no namespace " ++ GDS_NAMESPACE ++ B " (" ++ status_word sc ++ B ")")) |}.

Definition gds_run (rounds : nat) (w : W) (a : GdsArgs) : outcome W :=
  match gds_namespace w with
  | (w, inr sc) => failed (Client_disconnect w) (no_namespace sc)
  | (w, inl ns) =>
      match gds_steps ns a rounds (w, gds_start) with
      | (_, NoRounds) => NoFuel
      | ((w, s), _) => let '(code, out) := gds_report s in Exits (Client_disconnect w) code out
      end
  end.

Definition cmd_gds_pull (fuel rounds : nat) (w : W) (g : ClientSecurity) (argv : list bytes) : outcome W :=
  match gds_parse argv with
  | Err msg => usage_error w gds_op msg
  | Ok a =>
      with_client fuel w g (default [] (find_arg argv (B "--endpoint"))) (request_ms argv) gds_op
        (fun w => gds_run rounds w a)
  end.
End Gds.

(** * The session as the contract describes it *)

(** What the session has learned so far. *)
Record facts := { fc_found : option ua_nodeid; fc_appId : ua_nodeid; fc_requestId : ua_nodeid; fc_certificate : ua_string;
  fc_trustList : ua_nodeid }.

Definition no_facts : facts :=
  {| fc_found := None; fc_appId := UA_NODEID_NULL; fc_requestId := UA_NODEID_NULL; fc_certificate := None; fc_trustList := UA_NODEID_NULL |}.

Definition learn_found (n : option ua_nodeid) (f : facts) : facts :=
  {| fc_found := n; fc_appId := default (fc_appId f) n; fc_requestId := fc_requestId f; fc_certificate := fc_certificate f; fc_trustList := fc_trustList f |}.
Definition learn_app (n : ua_nodeid) (f : facts) : facts :=
  {| fc_found := fc_found f; fc_appId := n; fc_requestId := fc_requestId f; fc_certificate := fc_certificate f; fc_trustList := fc_trustList f |}.
Definition learn_request (n : ua_nodeid) (f : facts) : facts :=
  {| fc_found := fc_found f; fc_appId := fc_appId f; fc_requestId := n; fc_certificate := fc_certificate f; fc_trustList := fc_trustList f |}.
Definition learn_certificate (c : ua_string) (f : facts) : facts :=
  {| fc_found := fc_found f; fc_appId := fc_appId f; fc_requestId := fc_requestId f; fc_certificate := c; fc_trustList := fc_trustList f |}.
Definition learn_list (n : ua_nodeid) (f : facts) : facts :=
  {| fc_found := fc_found f; fc_appId := fc_appId f; fc_requestId := fc_requestId f; fc_certificate := fc_certificate f; fc_trustList := n |}.

(** How a session can stop: a step refused, the connection lost, a request that the
    client cannot build. *)
Inductive stop := StepRefused (name : string) (sc : Z) | Lost (sc : Z) | NotBuilt.

Definition session_exit (r : facts + stop) : Z :=
  match r with inl _ => 0 | inr (StepRefused _ _) => 4 | inr (Lost sc) => p12_exit_code sc | inr NotBuilt => 6 end.

(** The rule of the code, which its proofs follow. *)
#[local] Existing Instance stop_not_good.

Section Contract.
Context {stack : UaStack} {heap : Heap} {dec : BinaryDecoders} {enc : UaCodec}
  {W : Type} {L : ClientLib W} {srv : Services W} {p12 : Part12Services W} {req : X509Requests W}.

(** A step of the contract: a method of the Directory with the arguments made from
    what is known; the polled FinishRequest; reading the TrustList object. *)
Inductive phase :=
| Ask (name : string) (method : Z) (inputs : W -> facts -> W * option (list ua_variant)) (learn : list ua_variant -> facts -> facts)
| Unless (c : facts -> bool) (p : phase)
| PollFinish
| ReadTrustList.

Definition known (inputs : facts -> list ua_variant) (w : W) (f : facts) : W * option (list ua_variant) := (w, Some (inputs f)).
Definition learn_nothing (_ : list ua_variant) (f : facts) : facts := f.
Definition first_nodeid (out : list ua_variant) : ua_nodeid := default UA_NODEID_NULL (p12_out_nodeid out 0).

(** The numbered steps of the contract. *)
Definition contract (ns : Z) (a : GdsArgs) : list phase :=
  let only c l := if c : bool then l else [] in
  let target f := [p12v_nodeid (fc_appId f); p12v_nodeid (gds_group ns); p12v_nodeid (gds_certType a)] in
  [Ask "findApplicationsStatus" GDS_FIND_APPLICATIONS (known (fun _ => [p12v_string (Some (ga_appUri a))]))
     (fun out => learn_found (hd_error (found_ids out)));
   Unless (fun f => is_some (fc_found f))
     (Ask "registerStatus" GDS_REGISTER_APPLICATION
        (fun w _ => (w, option_map (fun body => [VtScalar (VExtensionObject
           (ExtByteString (UA_NODEID_NUMERIC ns GDS_APPLICATION_RECORD_BINARY) (Some body)))]) (gds_encode_record a)))
        (fun out => learn_app (first_nodeid out)))]
  ++ [if ga_csr a
      then Ask "startRequestStatus" GDS_START_SIGNING_REQUEST
             (fun w f => let '(w, csr) := gds_make_csr w a in
                         (w, option_map (fun d => target f ++ [p12v_bytestring (Some (Some d))]) csr))
             (fun out => learn_request (first_nodeid out))
      else Ask "startRequestStatus" GDS_START_NEW_KEY_PAIR_REQUEST
             (known (fun f => target f ++ [p12v_string (Some (snprintf 512 (B "CN=" ++ ga_appName a)));
                                           p12v_string_array [B "localhost"]; p12v_string (Some (B "PEM")); p12v_string None]))
             (fun out => learn_request (first_nodeid out))]
  ++ [PollFinish;
      Ask "getCertificateGroupsStatus" GDS_GET_CERTIFICATE_GROUPS (known (fun f => [p12v_nodeid (fc_appId f)])) learn_nothing;
      Ask "getTrustListStatus" GDS_GET_TRUST_LIST (known (fun f => [p12v_nodeid (fc_appId f); p12v_nodeid (gds_group ns)]))
        (fun out => learn_list (first_nodeid out));
      ReadTrustList;
      Ask "getCertificateStatusStatus" GDS_GET_CERTIFICATE_STATUS (known target) learn_nothing]
  ++ only (ga_revoke a)
     [Ask "revokeStatus" GDS_REVOKE_CERTIFICATE
        (known (fun f => [p12v_nodeid (fc_appId f); p12v_bytestring (Some (fc_certificate f))])) learn_nothing;
      Ask "checkRevocationStatus" GDS_CHECK_REVOCATION_STATUS (known (fun f => [p12v_bytestring (Some (fc_certificate f))])) learn_nothing]
  ++ only (ga_unregister a)
     [Ask "unregisterStatus" GDS_UNREGISTER_APPLICATION (known (fun f => [p12v_nodeid (fc_appId f)])) learn_nothing].

(** The answer to a step: what is learned unless it stops the session. *)
Definition answered {rule : StopRule} (name : string) (sc : Z) (good : facts) : facts + stop :=
  if p12_is_transport sc then inr (Lost sc) else if stops sc then inr (StepRefused name sc) else inl good.

(** [None]: out of rounds. *)
Fixpoint perform_phase {rule : StopRule} (ns : Z) (a : GdsArgs) (rounds : nat) (w : W) (f : facts) (p : phase) : option (W * (facts + stop)) :=
  match p with
  | Ask name method inputs learn =>
      match inputs w f with
      | (w, None) => Some (w, inr NotBuilt)
      | (w, Some l) => let '(w, (sc, out)) := p12_call w (UA_NODEID_NUMERIC ns GDS_DIRECTORY) (UA_NODEID_NUMERIC ns method) l in
                       Some (w, answered name sc (learn out f))
      end
  | Unless c p => if c f then Some (w, inl f) else perform_phase ns a rounds w f p
  | PollFinish =>
      let '(w, now) := mono_ms w in
      do r <- finish_poll ns rounds w (now + ga_finishTimeoutMs a) (fc_appId f) (fc_requestId f);
      let '(w, (sc, out)) := r in
      Some (w, answered "finishRequest" sc (learn_certificate (default None (p12_out_bytestring out 0)) f))
  | ReadTrustList =>
      do r <- p12_read_trust_list rounds w (fc_trustList f) None;
      let '(w, r) := r in
      Some (w, match r with
               | inl _ => inl f
               | inr sc => inr (if p12_is_transport sc then Lost sc else StepRefused "readTrustList" sc)
               end)
  end.

(** In order, up to the first that does not go well. *)
Fixpoint session {rule : StopRule} (ns : Z) (a : GdsArgs) (rounds : nat) (w : W) (f : facts) (l : list phase) : option (W * (facts + stop)) :=
  match l with
  | [] => Some (w, inl f)
  | p :: r =>
      do x <- perform_phase ns a rounds w f p;
      match x with (w, inl f) => session ns a rounds w f r | (w, inr v) => Some (w, inr v) end
  end.

(** * The steps follow the contract *)

(** On a server whose answers are Good or Bad it is the rule of the contract. *)
Lemma finish_poll_status ns appId requestId deadline rounds : forall w w' sc out,
  finish_poll ns rounds w deadline appId requestId = Some (w', (sc, out)) ->
  exists w0 o m l, sc = fst (snd (Client_call w0 o m l)).
Proof.
  induction rounds as [|n IH]; intros w w' sc out; cbn [finish_poll]; [discriminate|]. unfold p12_call.
  destruct (Client_call w _ _ _) as [w1 [sc1 out1]] eqn:E.
  assert (exists w0 o m l, sc1 = fst (snd (Client_call w0 o m l))) as Hs by (eexists w, _, _, _; now rewrite E).
  destruct (sc1 =? _); [|intros H; now injection H as _ <- _]. destruct (mono_ms w1) as [w2 now].
  first [apply IH|destruct (now <? deadline); [apply IH|intros H; now injection H as _ <- _]].
Qed.

Lemma session_contract ns a rounds l : good_or_bad srv -> forall w f,
  session (rule := stop_bad) ns a rounds w f l = session ns a rounds w f l.
Proof.
  intros H. assert (forall w o m i name good, let sc := fst (snd (Client_call w o m i)) in
    answered (rule := stop_bad) name sc good = answered name sc good) as Ha.
  { intros w o m i name good sc. unfold answered, stops. cbn [stop_bad stop_not_good]. unfold sc. now rewrite (H w o m i). }
  assert (forall p w f, perform_phase (rule := stop_bad) ns a rounds w f p = perform_phase ns a rounds w f p) as Hp.
  { induction p as [name method inputs learn|c p IH| |]; intros w f; cbn [perform_phase]; [| |cbv beta|reflexivity].
    - destruct (inputs w f) as [w1 [i|]]; [|reflexivity]. unfold p12_call. specialize (Ha w1 (UA_NODEID_NUMERIC ns GDS_DIRECTORY) (UA_NODEID_NUMERIC ns method) i name).
      destruct (Client_call w1 _ _ i) as [w2 [sc out]]. cbn [fst snd] in Ha. now rewrite Ha.
    - now destruct (c f).
    - destruct (mono_ms w) as [w1 now]. destruct (finish_poll _ _ _ _ _ _) as [[w2 [sc out]]|] eqn:E; [|reflexivity]. cbn [obind].
      apply finish_poll_status in E as (w0 & o & m & i & ->). now rewrite Ha. }
  induction l as [|p l IH]; intros w f; [reflexivity|]. cbn [session]. rewrite Hp.
  destruct (perform_phase ns a rounds w f p) as [[w1 [f1|v]]|]; cbn [obind]; auto.
Qed.

Definition ongoing (s : GdsRun) : Prop := gr_failed s = false /\ gr_internal s = false /\ gr_transport s = None.

Definition stopped (v : stop) (s : GdsRun) : Prop :=
  match v with
  | StepRefused _ sc => gr_transport s = None /\ gr_internal s = false /\ gr_failed s = true /\ gr_failSc s = sc
  | Lost sc => gr_transport s = Some sc
  | NotBuilt => gr_transport s = None /\ gr_internal s = true
  end.

(** The step [m] does what the phases [l] say from the facts [f] on; its value and
    the facts after it are related by [Q]. *)
Definition follows (ns : Z) (a : GdsArgs) (rounds : nat) {A} (m : steps (W * GdsRun) unit A) (l : list phase) (f : facts) (Q : A -> facts -> Prop) : Prop :=
  forall w s, ongoing s ->
  match session ns a rounds w f l with
  | None => snd (m (w, s)) = NoRounds
  | Some (w', inl f') => exists s' x, m (w, s) = ((w', s'), Next x) /\ ongoing s' /\ Q x f'
  | Some (w', inr v) => exists s', m (w, s) = ((w', s'), Goto tt) /\ stopped v s'
  end.

Lemma session_app ns a rounds l1 l2 : forall w f, session ns a rounds w f (l1 ++ l2) =
  (do x <- session ns a rounds w f l1; match x with (w, inl f) => session ns a rounds w f l2 | (w, inr v) => Some (w, inr v) end).
Proof.
  induction l1 as [|p l1 IH]; intros w f; [reflexivity|]. cbn [app session].
  destruct (perform_phase ns a rounds w f p) as [[w1 [f1|v]]|]; cbn [obind]; auto.
Qed.

Section Follow.
Context (ns : Z) (a : GdsArgs) (rounds : nat).
Abbreviation does := (follows ns a rounds).

Lemma follows_bind {A C} (m : steps (W * GdsRun) unit A) (k : A -> steps (W * GdsRun) unit C) l1 l2 f Q Q' :
  does m l1 f Q -> (forall x f', Q x f' -> does (k x) l2 f' Q') -> does (bind m k) (l1 ++ l2) f Q'.
Proof.
  intros Hm Hk w s Hs. rewrite session_app. specialize (Hm w s Hs). unfold bind.
  destruct (session ns a rounds w f l1) as [[w1 [f1|v]]|]; cbn [obind].
  - destruct Hm as (s1 & x & -> & Ho & Hq). now apply Hk.
  - destruct Hm as (s1 & -> & Hv). now exists s1.
  - destruct (m (w, s)) as [s1 e]. cbn [snd] in Hm. now subst e.
Qed.

Lemma follows_ret {A} (x : A) f (Q : A -> facts -> Prop) : Q x f -> does (ret x) [] f Q.
Proof. intros Hq w s Hs. exists s, x. auto. Qed.

Lemma follows_json g f : does (json_step g) [] f (fun _ f' => f' = f).
Proof. intros w s Hs. eexists _, tt. split; [reflexivity|]. split; [exact Hs|reflexivity]. Qed.

(** A JSON step before or after does not matter. *)
Lemma follows_print {A} g (k : unit -> steps (W * GdsRun) unit A) l f Q : does (k tt) l f Q -> does (bind (json_step g) k) l f Q.
Proof. intros H. apply (follows_bind _ _ [] l f _ Q (follows_json g f)). now intros [] f' ->. Qed.

(** The branches on the status of an answer. *)
Lemma follows_answer {A} name what key sc good (m : steps (W * GdsRun) unit A) x (Q : A -> facts -> Prop) :
  (forall w s, ongoing s -> exists s', m (w, s) = ((w, s'), Next x) /\ ongoing s') -> Q x good ->
  forall w s, ongoing s ->
  let branch := if p12_is_transport sc then broken_step what sc else if sc =? UA_STATUSCODE_GOOD then m else refused_step what key sc in
  match answered name sc good with
  | inl f' => exists s' x, branch (w, s) = ((w, s'), Next x) /\ ongoing s' /\ Q x f'
  | inr v => exists s', branch (w, s) = ((w, s'), Goto tt) /\ stopped v s'
  end.
Proof.
  intros Hm Hq w s (H1 & H2 & H3). unfold answered. cbv zeta. cbn [stops stop_not_good].
  destruct (p12_is_transport sc); [|destruct (sc =? UA_STATUSCODE_GOOD); cbn [negb]].
  - eexists. split; [reflexivity|]. reflexivity.
  - destruct (Hm w s) as (s' & E & Ho); [now repeat split|]. exists s', x. auto.
  - eexists. split; [reflexivity|]. cbn. auto.
Qed.

Lemma session_one w f p : session ns a rounds w f [p] = perform_phase ns a rounds w f p.
Proof. cbn [session]. now destruct (perform_phase ns a rounds w f p) as [[w1 [f1|v]]|]. Qed.

Lemma gds_call_eq key keep method l w s : gds_call ns key keep method l (w, s) =
  let '(w1, (sc, out)) := p12_call w (UA_NODEID_NUMERIC ns GDS_DIRECTORY) (UA_NODEID_NUMERIC ns method) l in
  (if p12_is_transport sc then broken_step key sc
   else if sc =? UA_STATUSCODE_GOOD then
     bind (if keep then json_step (fun j => p12j_status_field j key sc) else ret tt) (fun _ => ret out)
   else refused_step key key sc) (w1, s).
Proof. unfold gds_call at 1, bind at 1, call_world. cbn [fst snd]. now destruct (p12_call w _ _ l) as [w1 [sc out]]. Qed.

Lemma follows_call key keep method inputs learn l f : (forall w, inputs w f = (w, Some l)) ->
  does (gds_call ns key keep method l) [Ask key method inputs learn] f (fun out f' => f' = learn out f).
Proof.
  intros Hi w s Hs. rewrite session_one. cbn [perform_phase]. rewrite Hi, gds_call_eq.
  destruct (p12_call w _ _ l) as [w1 [sc out]].
  assert (forall (w : W) s, ongoing s -> exists s', bind (if keep then json_step (fun j => p12j_status_field j key sc) else ret tt) (fun _ => ret out) (w, s)
    = ((w, s'), Next out) /\ ongoing s') as Hm.
  { intros w2 s2 H2. destruct keep; (eexists; split; [reflexivity|exact H2]). }
  exact (follows_answer key key key sc (learn out f) _ out (fun out f' => f' = learn out f) Hm eq_refl w1 s Hs).
Qed.

Lemma bind_next {A C} (m : steps (W * GdsRun) unit A) (k : A -> steps (W * GdsRun) unit C) s s1 x :
  m s = (s1, Next x) -> bind m k s = k x s1.
Proof. unfold bind. now intros ->. Qed.

Lemma follows_find : does (find_step ns a) (firstn 1 (contract ns a)) no_facts (fun n f => f = learn_found n no_facts).
Proof.
  unfold find_step. apply (follows_bind _ _ (firstn 1 (contract ns a)) []  _ _ _ (follows_call _ _ _ _ _ _ _ (fun _ => eq_refl))).
  intros out f ->. apply follows_print. now apply follows_ret.
Qed.

Lemma follows_register n : let f := learn_found n no_facts in
  does (register_step ns a n) (firstn 1 (skipn 1 (contract ns a))) f (fun id f' => f' = learn_app id f).
Proof.
  intros f. unfold register_step. apply (follows_bind _ _ (firstn 1 (skipn 1 (contract ns a))) [] _ (fun id f' => f' = learn_app id f)).
  2:{ intros id f' ->. apply follows_print. now apply follows_ret. }
  cbn [contract app skipn firstn]. subst f. destruct n as [n|].
  - intros w s Hs. rewrite session_one. cbn [perform_phase learn_found fc_found is_some]. eexists _, n. split; [reflexivity|]. split; [exact Hs|reflexivity].
  - match goal with |- does _ [Unless ?c ?p] ?f _ => assert (does (match gds_encode_record a with
        | None => internal_step "cannot encode ApplicationRecordDataType"
        | Some body =>
            bind (gds_call ns "registerStatus" true GDS_REGISTER_APPLICATION
              [VtScalar (VExtensionObject (ExtByteString (UA_NODEID_NUMERIC ns GDS_APPLICATION_RECORD_BINARY) (Some body)))])
            (fun out => bind (json_step (fun j => p12j_raw (p12j_key j "registered") (B "true"))) (fun _ =>
            ret (default UA_NODEID_NULL (p12_out_nodeid out 0)))) end) [p] f (fun id f' => f' = learn_app id f)) as H end.
    { destruct (gds_encode_record a) as [body|].
      - apply (follows_bind _ _ [_] [] _ (fun out f' => f' = learn_app (first_nodeid out) (learn_found None no_facts))).
        + now apply follows_call.
        + intros out f ->. apply follows_print. now apply follows_ret.
      - intros w s (H1 & H2 & H3). rewrite session_one. cbn [perform_phase option_map]. eexists. split; [reflexivity|]. cbn. auto. }
    intros w s Hs. specialize (H w s Hs). rewrite session_one in *. exact H.
Qed.

Lemma follows_start f : does (start_step ns a (fc_appId f)) (firstn 1 (skipn 2 (contract ns a))) f (fun id f' => f' = learn_request id f).
Proof.
  unfold start_step. apply follows_print. cbn [contract app skipn firstn].
  apply (follows_bind _ _ [_] [] _ (fun out f' => f' = learn_request (first_nodeid out) f)).
  2:{ intros out f' ->. apply follows_print. now apply follows_ret. }
  destruct (ga_csr a); [|now apply follows_call].
  intros w s Hs. rewrite session_one. cbn [perform_phase]. unfold bind, make_csr_step. cbn [fst snd].
  destruct (gds_make_csr w a) as [w1 [d|]]; cbn [option_map].
  - pose proof (follows_call "startRequestStatus" true GDS_START_SIGNING_REQUEST
      (fun w f => (w, Some ([p12v_nodeid (fc_appId f); p12v_nodeid (gds_group ns); p12v_nodeid (gds_certType a)] ++ [p12v_bytestring (Some (Some d))])))
      (fun out => learn_request (first_nodeid out)) _ f (fun _ => eq_refl) w1 s Hs) as H. rewrite session_one in H. exact H.
  - eexists. split; [reflexivity|]. destruct Hs as (H1 & H2 & H3). cbn. auto.
Qed.

Lemma follows_finish f : does (finish_step ns a rounds (fc_appId f) (fc_requestId f)) [PollFinish] f (fun c f' => f' = learn_certificate c f).
Proof.
  intros w s Hs. rewrite session_one. cbn [perform_phase]. unfold finish_step.
  assert (poll_step ns a rounds (fc_appId f) (fc_requestId f) (w, s) = let '(w1, now) := mono_ms w in
    match finish_poll ns rounds w1 (now + ga_finishTimeoutMs a) (fc_appId f) (fc_requestId f) with
    | None => ((w, s), NoRounds) | Some (w, r) => ((w, s), Next r) end) as Ep by reflexivity.
  destruct (mono_ms w) as [w1 now]. destruct (finish_poll ns rounds w1 _ _ _) as [[w2 [sc out]]|]; cbn [obind];
    [rewrite (bind_next _ _ _ _ _ Ep)|unfold bind; now rewrite Ep].
  set (c := default None (p12_out_bytestring out 0)).
  assert (forall (w : W) s, ongoing s -> exists s', bind (json_step (fun j => p12j_b64_field (p12j_status_field j "finishRequestStatus" sc) "certificate" (Some c)))
    (fun _ => bind (if ga_csr a then ret tt
          else json_step (fun j => p12j_b64_field (p12j_cstr (p12j_key j "privateKeyFormat") (Some (B "PEM"))) "privateKey" (p12_out_bytestring out 1)))
    (fun _ => bind (json_step (fun j => p12j_b64_array_field j "issuerCertificates" (nth_out out 2))) (fun _ => ret c))) (w, s) = ((w, s'), Next c) /\ ongoing s') as Hm.
  { intros w3 s3 H3. destruct (ga_csr a); (eexists; split; [reflexivity|exact H3]). }
  pose proof (follows_answer "finishRequest" "finishRequest" "finishRequestStatus" sc (learn_certificate c f) _ c
    (fun c f' => f' = learn_certificate c f) Hm eq_refl w2 s Hs) as H. cbv zeta in H.
  destruct (p12_is_transport sc); [exact H|]. destruct (sc =? UA_STATUSCODE_GOOD); exact H.
Qed.

Lemma follows_read f : does (run r <- read_step rounds (fc_trustList f);
    match r with
    | inr sc => if p12_is_transport sc then broken_step "readTrustList" sc else refused_step "readTrustList" "readTrustListStatus" sc
    | inl tl => json_step (fun j => p12j_trust_list (p12j_key j "trustList") tl)
    end) [ReadTrustList] f (fun _ f' => f' = f).
Proof.
  intros w s Hs. rewrite session_one. cbn [perform_phase]. unfold bind, read_step. cbn [fst snd].
  destruct (p12_read_trust_list rounds w (fc_trustList f) None) as [[w1 [tl|sc]]|] eqn:Er; cbn [obind]; [| |reflexivity].
  - eexists _, tt. split; [reflexivity|]. split; [exact Hs|reflexivity].
  - destruct Hs as (H1 & H2 & H3). destruct (p12_is_transport sc); (eexists; split; [reflexivity|cbn; auto]).
Qed.

Lemma follows_list f : does (trust_list_step ns rounds (fc_appId f)) (firstn 2 (skipn 5 (contract ns a))) f
  (fun _ f' => exists n, f' = learn_list n f).
Proof.
  unfold trust_list_step. apply (follows_bind _ _ [_] [ReadTrustList] _ (fun out f' => f' = learn_list (first_nodeid out) f)); [now apply follows_call|].
  intros out f' ->. apply follows_print. pose proof (follows_read (learn_list (first_nodeid out) f)) as H.
  intros w s Hs. specialize (H w s Hs). destruct (session _ _ _ _ _ _) as [[w1 [f1|v]]|]; [|exact H..].
  destruct H as (s' & x & E & Ho & ->). exists s', x. eauto.
Qed.

(** A call that teaches nothing. *)
Lemma follows_tell key keep method inputs l f g : (forall w, inputs w f = (w, Some l)) ->
  does (run out <- gds_call ns key keep method l; json_step (g out)) [Ask key method inputs learn_nothing] f (fun _ f' => f' = f).
Proof.
  intros Hi. apply (follows_bind _ _ [_] [] _ (fun _ f' => f' = f)); [now apply follows_call|]. intros out f' ->. apply follows_json.
Qed.

Lemma follows_revoke f : does (if ga_revoke a then revoke_step ns (fc_appId f) (fc_certificate f) else ret tt)
  (if ga_revoke a then firstn 2 (skipn 8 (contract ns a)) else []) f (fun _ f' => f' = f).
Proof.
  destruct (ga_revoke a) eqn:Er; [|now apply follows_ret]. unfold contract. rewrite Er. cbn [app skipn firstn].
  apply (follows_bind _ _ [_] [_] _ (fun _ f' => f' = f)); [now apply follows_call|]. intros _ f' ->. now apply follows_tell.
Qed.

Lemma follows_unregister f : does (if ga_unregister a then unregister_step ns (fc_appId f) else ret tt)
  (if ga_unregister a then [Ask "unregisterStatus" GDS_UNREGISTER_APPLICATION (known (fun f => [p12v_nodeid (fc_appId f)])) learn_nothing] else [])
  f (fun _ f' => f' = f).
Proof.
  destruct (ga_unregister a); [|now apply follows_ret]. unfold unregister_step.
  apply (follows_bind _ _ [_] [] _ (fun _ f' => f' = f)); [now apply follows_call|]. intros _ f' ->. now apply follows_ret.
Qed.

Lemma contract_parts : contract ns a =
  firstn 1 (contract ns a) ++ firstn 1 (skipn 1 (contract ns a)) ++ firstn 1 (skipn 2 (contract ns a)) ++ [PollFinish]
  ++ firstn 1 (skipn 4 (contract ns a)) ++ firstn 2 (skipn 5 (contract ns a)) ++ firstn 1 (skipn 7 (contract ns a))
  ++ (if ga_revoke a then firstn 2 (skipn 8 (contract ns a)) else [])
  ++ (if ga_unregister a then [Ask "unregisterStatus" GDS_UNREGISTER_APPLICATION (known (fun f => [p12v_nodeid (fc_appId f)])) learn_nothing] else []).
Proof. unfold contract. now destruct (ga_revoke a). Qed.

(** The whole run. *)
Lemma gds_steps_follow : does (gds_steps ns a rounds) (contract ns a) no_facts (fun _ _ => True).
Proof.
  rewrite contract_parts. unfold gds_steps. eapply follows_bind; [apply follows_find|]. intros n f ->.
  eapply follows_bind; [apply follows_register|]. intros id f ->. set (f := learn_app id _). change id with (fc_appId f). clearbody f.
  eapply follows_bind; [apply follows_start|]. intros r f1 ->. change (fc_appId f) with (fc_appId (learn_request r f)).
  change r with (fc_requestId (learn_request r f)) at 2. generalize (learn_request r f). clear f r. intros f.
  eapply follows_bind; [apply follows_finish|]. intros c f1 ->. change (fc_appId f) with (fc_appId (learn_certificate c f)).
  change c with (fc_certificate (learn_certificate c f)) at 5. generalize (learn_certificate c f). clear f c. intros f.
  eapply follows_bind; [now apply follows_tell|]. intros _ f1 ->. eapply follows_bind; [apply follows_list|]. intros _ f1 (n1 & ->).
  change (fc_appId f) with (fc_appId (learn_list n1 f)). change (fc_certificate f) with (fc_certificate (learn_list n1 f)).
  generalize (learn_list n1 f). clear f n1. intros f. eapply follows_bind; [now apply follows_tell|]. intros _ f1 ->.
  eapply follows_bind; [apply follows_revoke|]. intros _ f1 ->.
  intros w s Hs. pose proof (follows_unregister f w s Hs) as H. destruct (session _ _ _ _ _ _) as [[w1 [f1|v]]|]; [|exact H..].
  destruct H as (s' & x & E & Ho & _). exists s', x. auto.
Qed.
End Follow.
End Contract.

(** * Every run ends *)

(** With enough rounds there is one result. *)
Definition eventually {A} (f : nat -> option A) : Prop := exists p r, forall n, (p <= n)%nat -> f n = Some r.

Lemma eventually_now {A} (x : A) : eventually (fun _ => Some x).
Proof. exists O, x. auto. Qed.

Lemma eventually_bind {A C} (f : nat -> option A) (k : A -> nat -> option C) :
  eventually f -> (forall x, eventually (k x)) -> eventually (fun n => do x <- f n; k x n).
Proof.
  intros (p & x & Hx) Hk. destruct (Hk x) as (q & y & Hy). exists (p + q)%nat, y. intros n Hn. rewrite (Hx n) by lia. apply Hy. lia.
Qed.

(** The clock: what is read lies between the instants before and after; calls take
    time, and sleeping takes at least as long as asked for. *)
Class PollClock {W : Type} (L : ClientLib W) (srv : Services W) (p12 : Part12Services W) := {
  instant : W -> Z;
  instant_read : forall w, instant w <= snd (mono_ms w) <= instant (fst (mono_ms w));
  instant_call : forall w o m i, instant w <= instant (fst (Client_call w o m i));
  instant_sleep : forall w ms, 0 <= ms -> instant w + ms <= instant (sleep_ms w ms)
}.

Section Ends.
Context {stack : UaStack} {heap : Heap} {dec : BinaryDecoders} {enc : UaCodec}
  {W : Type} {L : ClientLib W} {srv : Services W} {p12 : Part12Services W} {req : X509Requests W} {pc : PollClock L srv p12}.

(** FinishRequest is called at most once per 200 ms until the deadline, and twice
    more; when it is still pending at the end, the deadline has passed. *)
Lemma finish_poll_ends ns appId requestId deadline k : forall w, deadline - instant w < GDS_FINISH_POLL_MS * Z.of_nat k + 1 ->
  exists r, (forall n, (k + 1 <= n)%nat -> finish_poll ns n w deadline appId requestId = Some r) /\
    (fst (snd r) = UA_STATUSCODE_BADNOTHINGTODO -> deadline <= instant (fst r)).
Proof.
  induction k as [|k IH]; intros w Hd; set (inputs := [p12v_nodeid appId; p12v_nodeid requestId]);
    pose proof (instant_call w (UA_NODEID_NUMERIC ns GDS_DIRECTORY) (UA_NODEID_NUMERIC ns GDS_FINISH_REQUEST) inputs) as Hc;
    destruct (Client_call w (UA_NODEID_NUMERIC ns GDS_DIRECTORY) (UA_NODEID_NUMERIC ns GDS_FINISH_REQUEST) inputs) as [w1 [sc out]] eqn:Ec;
    cbn [fst snd] in Hc; pose proof (instant_read w1) as Hm; destruct (mono_ms w1) as [w2 now] eqn:Em; cbn [fst snd] in Hm;
    assert (forall n, finish_poll ns (S n) w deadline appId requestId =
      if sc =? UA_STATUSCODE_BADNOTHINGTODO then
        if now <? deadline then finish_poll ns n (sleep_ms w2 GDS_FINISH_POLL_MS) deadline appId requestId else Some (w2, (sc, out))
      else Some (w1, (sc, out))) as Heq
      by (intros n; cbn [finish_poll]; unfold p12_call; fold inputs; rewrite Ec, Em; reflexivity);
    destruct (Z.eqb_spec sc UA_STATUSCODE_BADNOTHINGTODO) as [->|Hne];
    try (exists (w1, (sc, out)); split; [intros [|n] Hn; [lia|apply Heq]|cbn [fst snd]; congruence]);
    destruct (Z.ltb_spec now deadline) as [Hlt|Hge]; try lia;
    try (exists (w2, (UA_STATUSCODE_BADNOTHINGTODO, out)); split; [intros [|n] Hn; [lia|apply Heq]|cbn [fst snd]; lia]).
  destruct (IH (sleep_ms w2 GDS_FINISH_POLL_MS)) as (r & Hr & Hp).
  { pose proof (instant_sleep w2 GDS_FINISH_POLL_MS ltac:(discriminate)). unfold GDS_FINISH_POLL_MS in *. lia. }
  exists r. split; [|exact Hp]. intros [|n] Hn; [lia|]. rewrite Heq. apply Hr. lia.
Qed.

Lemma finish_poll_eventually ns w deadline appId requestId : eventually (fun n => finish_poll ns n w deadline appId requestId).
Proof.
  destruct (finish_poll_ends ns appId requestId deadline (Z.to_nat (deadline - instant w)) w) as (r & Hr & _).
  { unfold GDS_FINISH_POLL_MS. lia. }
  eexists _, r. exact Hr.
Qed.

Lemma perform_eventually ns a w f p : (forall obj read h w, ReadsEnd (W := W) obj read h w) ->
  eventually (fun n => perform_phase ns a n w f p).
Proof.
  intros Hends. induction p as [name method inputs learn|c p IH| |]; cbn [perform_phase].
  - destruct (inputs w f) as [w1 [l|]]; [|apply eventually_now]. destruct (p12_call w1 _ _ l) as [w2 [sc out]]. apply eventually_now.
  - destruct (c f); [apply eventually_now|exact IH].
  - destruct (mono_ms w) as [w1 now]. apply eventually_bind; [apply finish_poll_eventually|]. intros [w2 [sc out]]. apply eventually_now.
  - apply eventually_bind; [now apply read_trust_list_ends|]. intros [w1 r]. apply eventually_now.
Qed.

Lemma session_eventually ns a l : (forall obj read h w, ReadsEnd (W := W) obj read h w) -> forall w f,
  eventually (fun n => session ns a n w f l).
Proof.
  intros Hends. induction l as [|p l IH]; intros w f; cbn [session]; [apply eventually_now|].
  apply eventually_bind; [now apply perform_eventually|]. intros [w1 [f1|v]]; [apply IH|apply eventually_now].
Qed.
End Ends.

(** * What the command reports *)

Section Reports.
Context {stack : UaStack} {laws : UaStackLaws stack} {heap : Heap} {hl : HeapLaws heap} {dec : BinaryDecoders}
  {enc : UaCodec} {el : UaCodecLaws enc} {W : Type} {L : ClientLib W} {libLaws : ClientLibLaws L}
  {srv : Services W} {srvLaws : ServicesLaws srv} {p12 : Part12Services W} {pl : Part12Laws p12 dec} {req : X509Requests W}.

Record gds_inv (s : GdsRun) : Prop := {
  gi_item : open_item (gr_j s);
  gi_msg : Bytes (gr_failMsg s) /\ (length (gr_failMsg s) <= 255)%nat;
  gi_sc : 0 <= gr_failSc s;
  gi_transport : forall sc, gr_transport s = Some sc -> 0 <= sc }.

Definition holds {A} (m : steps (W * GdsRun) unit A) (Q : A -> Prop) : Prop := post (fun s => gds_inv (snd s)) (fun _ => True) m Q.

Lemma short_msg m : Bytes m -> Bytes (snprintf 256 m) /\ (length (snprintf 256 m) <= 255)%nat.
Proof. intros H. split; [now apply Bytes_snprintf|]. unfold snprintf. rewrite length_firstn. lia. Qed.

Lemma Bytes_status_word sc : Bytes (status_word sc).
Proof.
  unfold status_word. destruct (StatusCode_name sc) as [n|] eqn:E; [|apply Bytes_B].
  apply StatusCode_name_plain in E. eapply Forall_impl; [|exact E]. cbn. intros c Hc. unfold is_byte. lia.
Qed.

Lemma holds_json f : adds_members f -> holds (json_step f) (fun _ => True).
Proof.
  intros Hf [w s] [H1 H2 H3 H4]. split; [|exact I]. split; [now apply open_item_adds|exact H2|exact H3|exact H4].
Qed.

Lemma holds_internal {A} msg (Q : A -> Prop) : holds (internal_step msg) Q.
Proof. intros [w s] [H1 H2 H3 H4]. split; [|exact I]. split; [exact H1|apply short_msg, Bytes_B|exact H3|exact H4]. Qed.

Lemma holds_broken {A} key sc (Q : A -> Prop) : 0 <= sc -> holds (broken_step key sc) Q.
Proof.
  intros Hs [w s] [H1 H2 H3 H4]. split; [|exact I]. split; [exact H1|apply short_msg; auto using Bytes_cat, Bytes_B|exact H3|].
  cbn. intros sc' E. now injection E as <-.
Qed.

Lemma holds_refused {A} what key sc (Q : A -> Prop) : key_plain key = true -> 0 <= sc -> holds (refused_step what key sc) Q.
Proof.
  intros Hk Hs [w s] [H1 H2 H3 H4]. split; [|exact I]. split; [|apply short_msg; auto using Bytes_cat, Bytes_B, Bytes_status_word|exact Hs|exact H4].
  exact (open_item_adds _ _ (members_status key sc Hk Hs) H1).
Qed.

Lemma holds_call ns key keep method inputs : key_plain key = true ->
  holds (gds_call ns key keep method inputs) (fun out => forallb wf_variant out = true).
Proof.
  intros Hk. unfold gds_call. eapply (post_bind _ _ _ _ (fun r => 0 <= fst r < 2 ^ 32 /\ forallb wf_variant (snd r) = true)).
  - intros [w s] Hs. unfold call_world. cbn [fst snd]. pose proof (call_result w (UA_NODEID_NUMERIC ns GDS_DIRECTORY) (UA_NODEID_NUMERIC ns method) inputs) as H.
    destruct (p12_call w _ _ inputs) as [w1 r]. cbn [fst snd] in *. now split.
  - intros [sc out] [Hs Hw]. cbn [fst snd] in Hs, Hw. destruct (p12_is_transport sc); [now apply holds_broken|].
    destruct (sc =? UA_STATUSCODE_GOOD); [|now apply holds_refused].
    apply post_also; [|intros []; now apply post_ret]. destruct keep; [|now apply post_ret]. apply holds_json. now apply members_status.
Qed.

Lemma members_cstr key s : key_plain key = true -> Bytes s -> adds_members (fun j => p12j_cstr (p12j_key j key) (Some s)).
Proof.
  intros Hk Hs. eapply (adds_members_one _ key (print_json_string (Some s))); [|exact Hk|now apply JValue_json_string].
  intros j. apply (adds_field j key (fun j => p12j_cstr j (Some s))); [exact Hk|]. apply after_value, writes_cstr.
Qed.

Lemma members_nodeids key l : key_plain key = true -> forallb bytes_nodeid l = true ->
  adds_members (fun j => p12j_close (fold_left (fun j n => p12j_nodeid (p12j_sep j) n) l (p12j_open (p12j_key j key) 91)) 93).
Proof.
  intros Hk Hl. pose proof (members_nodeid_array key (Some (VtArray TNodeId (map VNodeId l) [])) Hk) as H.
  intros j. pose proof (adds_nodeid_array_field j key (Some (VtArray TNodeId (map VNodeId l) [])) Hk) as Ha.
  unfold p12j_nodeid_array_field in Ha. cbn [variant_nodeids type_eqb] in Ha. rewrite map_map, map_id in Ha.
  eexists. split; [exact Ha|]. constructor; [|constructor]. apply JMember_field; [exact Hk|now apply JValue_nodeid_array].
Qed.

Lemma found_ids_wf out : forallb wf_variant out = true -> forallb bytes_nodeid (found_ids out) = true.
Proof.
  intros Hw. apply forallb_forall. intros n Hn. unfold found_ids in Hn. apply in_flat_map in Hn as (v & Hv & Hn).
  assert (wf_value v = true) as Hwv.
  { pose proof (nth_out_wf out 0 Hw) as H. destruct (nth_out out 0) as [[| |t items d]|]; cbn [array_items] in Hv; try contradiction.
    cbn [wf_variant] in H. apply andb_prop in H as [H _]. rewrite forallb_forall in H. now apply H. }
  destruct (gds_record_id v) as [n'|] eqn:E; [|destruct Hn]. destruct Hn as [<-|[]]. unfold gds_record_id in E.
  pose proof (element_body_Bytes v Hwv) as Hb. destruct (element_body v) as [body|]; [|discriminate]. cbn [obind default] in *.
  exact (decode_nodeid_wf body n' Hb E).
Qed.

Lemma first_nodeid_wf out : forallb wf_variant out = true -> bytes_nodeid (first_nodeid out) = true.
Proof. intros H. unfold first_nodeid. destruct (p12_out_nodeid out 0) eqn:E; [exact (out_nodeid_wf out 0 _ H E)|reflexivity]. Qed.

Lemma holds_find ns a : holds (find_step ns a) (fun n => match n with Some n => bytes_nodeid n | None => true end = true).
Proof.
  unfold find_step. eapply post_bind; [now apply holds_call|]. intros out Hw. cbn beta in Hw. pose proof (found_ids_wf out Hw) as Hl.
  apply post_also; [apply holds_json; now apply members_nodeids|]. intros []. apply post_ret.
  destruct (found_ids out) as [|n l]; [reflexivity|]. cbn [hd_error forallb] in *. now apply andb_prop in Hl.
Qed.

Lemma holds_register ns a n : match n with Some n => bytes_nodeid n | None => true end = true ->
  holds (register_step ns a n) (fun id => bytes_nodeid id = true).
Proof.
  intros Hn. unfold register_step. eapply (post_bind _ _ _ _ (fun id => bytes_nodeid id = true)).
  - destruct n as [n|].
    + apply post_also; [apply holds_json, members_raw; [reflexivity|apply (JValue_bool false)]|]. intros []. now apply post_ret.
    + destruct (gds_encode_record a) as [body|]; [|apply holds_internal]. eapply post_bind; [now apply holds_call|]. intros out Hw.
      apply post_also; [apply holds_json, members_raw; [reflexivity|apply (JValue_bool true)]|]. intros []. apply post_ret. now apply first_nodeid_wf.
  - intros id Hid. apply post_also; [apply holds_json; now apply members_nodeid|]. intros []. now apply post_ret.
Qed.

Lemma holds_start ns a appId : holds (start_step ns a appId) (fun _ => True).
Proof.
  unfold start_step. apply post_also; [apply holds_json, members_cstr; [reflexivity|destruct (ga_csr a); apply Bytes_B]|]. intros [].
  eapply (post_bind _ _ _ _ (fun out => forallb wf_variant out = true)).
  - destruct (ga_csr a); [|now apply holds_call]. apply post_also; [|intros csr; now apply holds_call].
    intros [w s] Hs. unfold make_csr_step. cbn [fst snd]. destruct (gds_make_csr w a) as [w1 [d|]]; [now split|].
    exact (holds_internal _ (fun _ => True) (w1, s) Hs).
  - intros out Hw. apply post_also; [apply holds_json, members_nodeid; [reflexivity|now apply first_nodeid_wf]|]. intros []. now apply post_ret.
Qed.

Lemma finish_poll_wf ns deadline appId requestId n : forall w w' sc out,
  finish_poll ns n w deadline appId requestId = Some (w', (sc, out)) -> 0 <= sc < 2 ^ 32 /\ forallb wf_variant out = true.
Proof.
  induction n as [|n IH]; intros w w' sc out; cbn [finish_poll]; [discriminate|]. set (inputs := [_; _]).
  pose proof (call_result w (UA_NODEID_NUMERIC ns GDS_DIRECTORY) (UA_NODEID_NUMERIC ns GDS_FINISH_REQUEST) inputs) as H.
  destruct (p12_call w _ _ inputs) as [w1 [sc1 out1]]. cbn [fst snd] in H. destruct (sc1 =? _).
  - destruct (mono_ms w1) as [w2 now]. destruct (now <? deadline); [apply IH|]. intros E. injection E as _ <- <-. exact H.
  - intros E. injection E as _ <- <-. exact H.
Qed.

Lemma holds_finish ns a rounds appId requestId : holds (finish_step ns a rounds appId requestId) (fun c => wf_str c = true).
Proof.
  unfold finish_step. eapply (post_bind _ _ _ _ (fun r => 0 <= fst r < 2 ^ 32 /\ forallb wf_variant (snd r) = true)).
  - intros [w s] Hs. unfold poll_step. cbn [fst snd]. destruct (mono_ms w) as [w1 now].
    destruct (finish_poll ns rounds w1 _ _ _) as [[w2 [sc out]]|] eqn:E; [|now split]. split; [exact Hs|]. exact (finish_poll_wf _ _ _ _ _ _ _ _ _ E).
  - intros [sc out] [Hs Hw]. cbn [fst snd] in Hs, Hw. destruct (p12_is_transport sc); [now apply holds_broken|].
    destruct (negb _); [now apply holds_refused|]. set (c := default None (p12_out_bytestring out 0)).
    assert (wf_str c = true) as Hc by (unfold c; destruct (p12_out_bytestring out 0) eqn:E; [exact (out_bytestring_wf out 0 _ Hw E)|reflexivity]).
    apply post_also; [|intros []; apply post_also; [|intros []; apply post_also; [|intros []; now apply post_ret]]].
    + apply holds_json. apply (adds_members_comp (fun j => p12j_status_field j "finishRequestStatus" sc) (fun j => p12j_b64_field j "certificate" (Some c)));
        [now apply members_status|now apply members_b64_field].
    + destruct (ga_csr a); [now apply post_ret|]. apply holds_json.
      apply (adds_members_comp (fun j => p12j_cstr (p12j_key j "privateKeyFormat") (Some (B "PEM"))) (fun j => p12j_b64_field j "privateKey" (p12_out_bytestring out 1)));
        [apply members_cstr; [reflexivity|apply Bytes_B]|now apply members_out_bytes].
    + apply holds_json, members_b64_array; [reflexivity|now apply nth_out_wf].
Qed.

Lemma holds_list ns rounds appId : holds (trust_list_step ns rounds appId) (fun _ => True).
Proof.
  unfold trust_list_step. eapply post_bind; [now apply holds_call|]. intros out Hw.
  apply post_also; [apply holds_json, members_nodeid; [reflexivity|now apply first_nodeid_wf]|]. intros [].
  eapply (post_bind _ _ _ _ read_result).
  - intros [w s] Hs. unfold read_step. cbn [fst snd]. destruct (p12_read_trust_list rounds w _ None) as [[w1 r]|] eqn:E; [|now split].
    split; [exact Hs|]. exact (read_trust_list_wf _ _ _ _ _ _ E).
  - intros [tl|sc] Hr; cbn [read_result] in Hr; [apply holds_json; now apply members_trust_list|].
    destruct Hr as [Hs _]. destruct (p12_is_transport sc); [now apply holds_broken|now apply holds_refused].
Qed.

Lemma out_status_nonneg out : forallb wf_variant out = true -> 0 <= out_status out.
Proof.
  intros Hw. unfold out_status. pose proof (nth_out_wf out 0 Hw) as H. destruct (nth_out out 0) as [[|[]|]|]; unfold UA_STATUSCODE_BADUNEXPECTEDERROR; try lia.
  cbn [wf_variant wf_value] in H. lia.
Qed.

Lemma holds_steps ns a rounds : holds (gds_steps ns a rounds) (fun _ => True).
Proof.
  unfold gds_steps. eapply post_bind; [apply holds_find|]. intros n Hn. eapply post_bind; [now apply holds_register|]. intros appId Ha.
  apply post_also; [apply holds_start|]. intros requestId. eapply post_bind; [apply holds_finish|]. intros c Hc.
  apply post_also; [|intros []].
  { unfold groups_step. eapply post_bind; [now apply holds_call|]. intros out Hw. apply holds_json, members_nodeid_array; [reflexivity|now apply nth_out_wf]. }
  apply post_also; [apply holds_list|]. intros []. apply post_also; [|intros []].
  { unfold status_step. eapply post_bind; [now apply holds_call|]. intros out Hw. apply holds_json, members_raw; [reflexivity|apply JValue_bool]. }
  apply post_also; [|intros []].
  - destruct (ga_revoke a); [|now apply post_ret]. unfold revoke_step. eapply post_bind; [now apply holds_call|]. intros _ _.
    eapply post_bind; [now apply holds_call|]. intros out Hw. apply holds_json, members_status; [reflexivity|now apply out_status_nonneg].
  - destruct (ga_unregister a); [|now apply post_ret]. unfold unregister_step. eapply post_bind; [now apply holds_call|]. intros _ _. now apply post_ret.
Qed.

Lemma gds_inv_start : gds_inv gds_start.
Proof. split; [apply open_item_start|split; [constructor|cbn; lia]|cbn; lia|discriminate]. Qed.

Lemma gds_report_good s : gds_inv s -> reports gds_op (fst (gds_report s)) (snd (gds_report s)).
Proof.
  intros Hs. pose proof (open_item_good _ (gi_item s Hs)) as Hi. destruct Hs as [_ [Hm Hl] Hsc Htr]. unfold gds_report.
  assert (good_item None) as Hn by now left.
  assert (forall c, c = B "internal" \/ c = B "timeout" \/ c = B "transport" \/ c = B "service" -> small_error (Some (c, gr_failMsg s))) as Hc.
  { intros c [-> |[-> |[-> | ->]]]; (split; [apply Bytes_B|]; split; [exact Hm|]; split; [cbn; lia|exact Hl]). }
  destruct (j_oom _); [apply (p12_emit_reports gds_op 6); [apply Bytes_B|unfold UA_STATUSCODE_BADOUTOFMEMORY; lia| |exact Hn|cbn; tauto];
    repeat split; first [apply Bytes_B|cbn; lia]|].
  destruct (gr_transport s) as [sc|].
  - pose proof (p12_exit_codes sc) as Hx. set (ec := p12_exit_code sc) in *. cbn [fst snd].
    set (cat := if ec =? 7 then B "timeout" else B "transport").
    assert ((ec =? 0) = false) as E0 by (destruct Hx as [<-|[<-|[<-|[]]]]; reflexivity).
    pose proof (p12_emit_reports gds_op ec sc (Some (cat, gr_failMsg s)) None) as H. rewrite E0 in H.
    apply H; [apply Bytes_B|now apply Htr| |exact Hn|cbn in Hx |- *; tauto]. apply Hc. unfold cat. destruct (ec =? 7); auto.
  - destruct (gr_internal s); [apply (p12_emit_reports gds_op 6); [apply Bytes_B|unfold UA_STATUSCODE_BADINTERNALERROR; lia|apply Hc; now left|exact Hn|cbn; tauto]|].
    destruct (gr_failed s); [apply (p12_emit_reports gds_op 4); [apply Bytes_B|exact Hsc|apply Hc; right; right; now right|exact Hi|cbn; tauto]|].
    apply (p12_emit_reports gds_op 0); [apply Bytes_B|unfold UA_STATUSCODE_GOOD; lia|exact I|exact Hi|cbn; tauto].
Qed.

Lemma namespace_status w : match snd (gds_namespace w) with inl _ => True | inr sc => 0 <= sc end.
Proof.
  unfold gds_namespace. pose proof (readValue_status w (UA_NODEID_NUMERIC 0 UA_NS0ID_SERVER_NAMESPACEARRAY)) as H.
  destruct (Client_readValue w _) as [w1 [sc v]]. cbn [fst snd] in *. destruct (negb _); [lia|]. cbv zeta.
  destruct (_ =? 0); [unfold UA_STATUSCODE_BADNODEIDUNKNOWN; lia|exact I].
Qed.

Lemma gds_run_reports {pc : PollClock L srv p12} w a : (forall obj read h w, ReadsEnd (W := W) obj read h w) ->
  exists p, forall rounds, (p <= rounds)%nat -> ends_reporting gds_op (gds_run rounds w a).
Proof.
  intros Hends. unfold gds_run. pose proof (namespace_status w) as Hn. destruct (gds_namespace w) as [w1 [ns|sc]]; cbn [snd] in Hn.
  2:{ exists O. intros _ _. unfold failed, no_namespace. cbn [f_exit f_out]. apply ends_failed; [apply Bytes_B| | |exact Hn|].
      - destruct (_ =? 7); [apply Bytes_B|]. destruct (_ =? 3); apply Bytes_B.
      - repeat first [apply Bytes_snprintf|apply Bytes_cat|apply Bytes_B|apply Bytes_status_word].
      - destruct (p12_is_transport sc); [|cbn; tauto]. pose proof (p12_exit_codes sc) as H. cbn in H |- *. tauto. }
  destruct (session_eventually ns a (contract ns a) Hends w1 no_facts) as (p & r & Hp). exists p. intros rounds Hr.
  pose proof (gds_steps_follow ns a rounds w1 gds_start) as Hf. rewrite (Hp rounds Hr) in Hf.
  specialize (Hf ltac:(now repeat split)). destruct (holds_steps ns a rounds (w1, gds_start) gds_inv_start) as [Hi _].
  destruct (gds_steps ns a rounds (w1, gds_start)) as [[w2 s] e]. cbn [fst snd] in Hi.
  pose proof (gds_report_good s Hi) as Hg. destruct (gds_report s) as [code out]. cbn [fst snd] in Hg.
  destruct e as [x|x|]; [eexists _, code, out; split; [reflexivity|exact Hg]..|].
  destruct r as [w' [f|v]]; [destruct Hf as (s' & x & Hf & _)|destruct Hf as (s' & Hf & _)]; discriminate Hf.
Qed.

Lemma gds_parse_err argv msg : text_argv argv -> gds_parse argv = Err msg -> Bytes msg.
Proof.
  intros Ht. unfold gds_parse.
  assert (forall A flag (parse : option bytes -> option A) expected m, flag_value argv flag parse expected = Err m -> Bytes m) as Hv.
  { intros A flag parse expected m. unfold flag_value. destruct (parse _); [discriminate|]. intros E. apply Err_inj in E as <-.
    pose proof (Bytes_find argv (B flag) Ht). text_bytes. }
  intros H. apply (rbind_Err _ _ Bytes _ H); clear H; [|intros _ H].
  { destruct (find_arg argv (B "--endpoint")); [discriminate|]. intros E. apply Err_inj in E as <-. apply Bytes_B. }
  do 4 (apply (rbind_Err _ _ Bytes _ H); clear H; [apply Hv|intros ? H]). discriminate H.
Qed.

Lemma gds_reports {clk : Clock L} {pc : PollClock L srv p12} w g argv : text_argv argv -> text_args g gds_op ->
  (forall obj read h w, ReadsEnd (W := W) obj read h w) ->
  exists n, forall fuel, (n <= fuel)%nat -> exists p, forall rounds, (p <= rounds)%nat ->
    ends_reporting gds_op (cmd_gds_pull fuel rounds w g argv).
Proof.
  intros Ht Hg Hends. unfold cmd_gds_pull. destruct (gds_parse argv) as [a|msg] eqn:Ep.
  2:{ exists O. intros. exists O. intros. apply ends_usage; [apply Bytes_B|now apply (gds_parse_err argv)]. }
  set (url := default [] _). destruct (make_client_ends w g url (request_ms argv) gds_op) as [n Hm]. exists n. intros fuel Hf. unfold with_client.
  destruct (Hm fuel Hf) as [[w1 [cfg|f]] E]; rewrite E; [now apply gds_run_reports|].
  exists O. intros. eexists _, _, _. split; [reflexivity|]. apply reports_failure. eapply make_client_failure; eauto.
Qed.
End Reports.

(** * Reading an ApplicationRecordDataType back *)

(** The decoder of Part 6 for the types of the record. *)
Definition reads A := bytes -> option (A * bytes).

Definition read_i32 : reads Z := fun b => do n <- p12_le_i32 b 0; Some (n, skipn 4 b).

Definition read_string : reads ua_string := fun b =>
  do r <- read_i32 b;
  let '(n, b) := r in
  if n <? 0 then Some (None, b)
  else if Z.of_nat (length b) <? n then None else Some (Some (firstn (Z.to_nat n) b), skipn (Z.to_nat n) b).

Fixpoint read_list {A} (r : reads A) (n : nat) : reads (list A) := fun b =>
  match n with
  | O => Some ([], b)
  | S n => do x <- r b; let '(x, b) := x in do l <- read_list r n b; let '(l, b) := l in Some (x :: l, b)
  end.

Definition read_array {A} (r : reads A) : reads (list A) := fun b =>
  do n <- read_i32 b; let '(n, b) := n in read_list r (Z.to_nat n) b.

(** The mask says which of locale and text are there. *)
Definition read_text : reads (ua_string * ua_string) := fun b =>
  match b with
  | [] => None
  | m :: b =>
      do l <- (if Z.testbit m 0 then read_string b else Some (None, b)); let '(l, b) := l in
      do t <- (if Z.testbit m 1 then read_string b else Some (None, b)); let '(t, b) := t in
      Some ((l, t), b)
  end.

Record app_record := { ar_id : ua_nodeid; ar_uri : ua_string; ar_type : Z; ar_names : list (ua_string * ua_string);
  ar_product : ua_string; ar_urls : list ua_string; ar_caps : list ua_string }.

Definition read_record {dec : BinaryDecoders} (b : bytes) : option app_record :=
  do id <- decode_nodeid b;
  do r <- read_string (skipn (Z.to_nat (p12_nodeid_encoded_length b)) b); let '(uri, b) := r in
  do r <- read_i32 b; let '(type, b) := r in
  do r <- read_array read_text b; let '(names, b) := r in
  do r <- read_string b; let '(product, b) := r in
  do r <- read_array read_string b; let '(urls, b) := r in
  do r <- read_array read_string b; let '(caps, b) := r in
  match b with
  | [] => Some {| ar_id := id; ar_uri := uri; ar_type := type; ar_names := names; ar_product := product; ar_urls := urls; ar_caps := caps |}
  | _ => None
  end.

(** The record the contract asks for. *)
Definition contract_record (a : GdsArgs) : app_record :=
  let client := ga_appType a =? 1 in
  {| ar_id := UA_NODEID_NULL; ar_uri := Some (ga_appUri a); ar_type := ga_appType a;
     ar_names := [(Some (B "en-US"), Some (ga_appName a))]; ar_product := Some GDS_PRODUCT_URI;
     ar_urls := if client then [] else map Some (match ga_urls a with [] => [default_url] | l => l end);
     ar_caps := if client then [] else [Some (B "NA")] |}.

(** The stack encodes as Part 6 says, and decodes a NodeId from the start of the bytes. *)
Class Part6 (enc : UaCodec) (dec : BinaryDecoders) := {
  encode_null_nodeid : UA_encodeBinary (VNodeId UA_NODEID_NULL) = (UA_STATUSCODE_GOOD, Some [0; 0]);
  encode_int32 : forall z, - 2 ^ 31 <= z < 2 ^ 31 -> UA_encodeBinary (VInt32 z) = (UA_STATUSCODE_GOOD, Some (le 4 z));
  encode_string : forall s, Bytes s -> Z.of_nat (length s) < 2 ^ 31 -> UA_encodeBinary (VString (Some s)) = (UA_STATUSCODE_GOOD, Some (string_bytes (Some s)));
  encode_text : forall l t, Bytes l -> Bytes t -> Z.of_nat (length l) < 2 ^ 31 -> Z.of_nat (length t) < 2 ^ 31 ->
    UA_encodeBinary (VLocalizedText (Some l) (Some t)) = (UA_STATUSCODE_GOOD, Some (3 :: string_bytes (Some l) ++ string_bytes (Some t)));
  decode_two_byte : forall i rest, 0 <= i < 256 -> decode_nodeid (0 :: i :: rest) = Some (UA_NODEID_NUMERIC 0 i)
}.

Lemma read_i32_le z rest : - 2 ^ 31 <= z < 2 ^ 31 -> read_i32 (le 4 z ++ rest) = Some (z, rest).
Proof.
  intros Hz. unfold read_i32, p12_le_i32. rewrite length_app, le_length. destruct (Nat.ltb_spec (4 + length rest) (0 + 4)); [lia|].
  cbn [obind]. rewrite skipn_O, le_u32_le, skipn_app, le_length, skipn_all2, Nat.sub_diag, skipn_O by (rewrite le_length; lia).
  cbn [app]. do 2 f_equal. unfold s32, u32, swrap, uwrap. rewrite Zplus_mod_idemp_l. exact (swrap_small 32 z eq_refl Hz).
Qed.

Lemma read_string_bytes s rest : Z.of_nat (length s) < 2 ^ 31 -> read_string (string_bytes (Some s) ++ rest) = Some (Some s, rest).
Proof.
  intros Hs. unfold read_string, string_bytes. cbn [default]. rewrite <- app_assoc, read_i32_le by lia. cbn [obind].
  destruct (Z.ltb_spec (Z.of_nat (length s)) 0); [lia|]. rewrite length_app. destruct (Z.ltb_spec (Z.of_nat (length s + length rest)) (Z.of_nat (length s))); [lia|].
  rewrite Nat2Z.id, firstn_app, Nat.sub_diag, firstn_all, firstn_O, app_nil_r, skipn_app, skipn_all, Nat.sub_diag, skipn_O. reflexivity.
Qed.

Lemma read_list_strings l rest : Forall (fun s => Z.of_nat (length s) < 2 ^ 31) l ->
  read_list read_string (length l) (flat_map (fun s => string_bytes (Some s)) l ++ rest) = Some (map Some l, rest).
Proof.
  induction 1 as [|s l Hs _ IH]; [reflexivity|]. cbn [length flat_map read_list map]. rewrite <- app_assoc, (read_string_bytes s _ Hs).
  cbn [obind]. now rewrite IH.
Qed.

Lemma read_array_strings l rest : Z.of_nat (length l) < 2 ^ 31 -> Forall (fun s => Z.of_nat (length s) < 2 ^ 31) l ->
  read_array read_string (le 4 (Z.of_nat (length l)) ++ flat_map (fun s => string_bytes (Some s)) l ++ rest) = Some (map Some l, rest).
Proof.
  intros Hn Hl. unfold read_array. rewrite read_i32_le by lia. cbn [obind]. rewrite Nat2Z.id. now apply read_list_strings.
Qed.

(** Bytes whose length fits an Int32. *)
Definition short (s : bytes) : Prop := Bytes s /\ Z.of_nat (length s) < 2 ^ 31.

Section RecordBytes.
Context {heap : Heap} {enc : UaCodec} {dec : BinaryDecoders} {p6 : Part6 enc dec}.
Context (plenty : forall n, alloc_ok n = true).

Lemma append_good buf v d : UA_encodeBinary v = (UA_STATUSCODE_GOOD, Some d) -> gds_append (buf, false) v = (buf ++ d, false).
Proof. intros E. unfold gds_append. rewrite E. cbn [default]. now rewrite plenty. Qed.

Lemma append_string_good buf s : short s -> gds_append_string (buf, false) s = (buf ++ string_bytes (Some s), false).
Proof. intros [Hb H]. exact (append_good _ _ _ (encode_string s Hb H)). Qed.

Lemma append_strings l : forall buf, Forall short l ->
  fold_left gds_append_string l (buf, false) = (buf ++ flat_map (fun s => string_bytes (Some s)) l, false).
Proof.
  induction l as [|s l IH]; intros buf Hl; [cbn; now rewrite app_nil_r|]. inversion Hl; subst. cbn [fold_left flat_map].
  rewrite append_string_good, IH by assumption. now rewrite <- app_assoc.
Qed.

Lemma short_B s : Z.of_nat (length (B s)) < 2 ^ 31 -> short (B s).
Proof. split; [apply Bytes_B|assumption]. Qed.

(** What the record takes, piece by piece. *)
Lemma encode_record_bytes a : short (ga_appUri a) -> short (ga_appName a) -> Forall short (ga_urls a) -> Z.of_nat (length (ga_urls a)) < 2 ^ 31 ->
  0 <= ga_appType a <= 2 ->
  let client := ga_appType a =? 1 in
  let urls := if client then [] else match ga_urls a with [] => [default_url] | l => l end in
  let caps := if client then [] else [B "NA"] in
  let strings := flat_map (fun s => string_bytes (Some s)) in
  Forall short urls /\ Z.of_nat (length urls) < 2 ^ 31 /\
  gds_encode_record a = Some ([0; 0] ++ string_bytes (Some (ga_appUri a)) ++ le 4 (ga_appType a)
    ++ (le 4 1 ++ 3 :: string_bytes (Some (B "en-US")) ++ string_bytes (Some (ga_appName a)))
    ++ string_bytes (Some GDS_PRODUCT_URI) ++ (le 4 (Z.of_nat (length urls)) ++ strings urls)
    ++ le 4 (Z.of_nat (length caps)) ++ strings caps).
Proof.
  intros H1 [H2 H2'] H3 H4 H5 client urls caps strings.
  assert (Forall short urls /\ Z.of_nat (length urls) < 2 ^ 31) as [Hu Hn].
  { unfold urls. destruct client; [split; [constructor|cbn; lia]|]. destruct (ga_urls a); [|now split].
    split; [constructor; [apply short_B; cbn; lia|constructor]|cbn; lia]. }
  assert (short GDS_PRODUCT_URI) as Hg by (apply short_B; cbn; lia). assert (short (B "NA")) as Hna by (apply short_B; cbn; lia).
  split; [exact Hu|]. split; [exact Hn|]. unfold gds_encode_record. fold client. cbv zeta. set (n := if client then 0 else s32 _).
  assert (n = Z.of_nat (length urls)) as ->.
  { unfold n, urls. destruct client; [reflexivity|]. destruct (ga_urls a) as [|u l]; [reflexivity|]. unfold s32. apply swrap_small; lia. }
  rewrite (append_good _ _ _ encode_null_nodeid).
  rewrite (append_string_good _ _ H1), (append_good _ _ _ (encode_int32 (ga_appType a) ltac:(lia))),
    (append_good _ _ _ (encode_int32 1 ltac:(lia))), (append_good _ _ _ (encode_text (B "en-US") (ga_appName a) (Bytes_B _) H2 ltac:(cbn; lia) H2')),
    (append_string_good _ GDS_PRODUCT_URI Hg), (append_good _ _ _ (encode_int32 (Z.of_nat (length urls)) ltac:(lia))).
  fold urls. rewrite Nat2Z.id, firstn_all, (append_strings urls _ Hu).
  assert (forall buf, (if (if client then 0 else 1) =? 0 then gds_append (buf, false) (VInt32 (if client then 0 else 1))
    else gds_append_string (gds_append (buf, false) (VInt32 (if client then 0 else 1))) (B "NA"))
    = (buf ++ le 4 (Z.of_nat (length caps)) ++ strings caps, false)) as Hc.
  { intros buf. unfold caps, strings. destruct client; cbn [Z.eqb length flat_map Z.of_nat].
    - now rewrite (append_good _ _ _ (encode_int32 0 ltac:(lia))), app_nil_r.
    - rewrite (append_good _ _ _ (encode_int32 1 ltac:(lia))), (append_string_good _ (B "NA") Hna).
      now rewrite app_nil_r, <- app_assoc. }
  rewrite Hc. cbn [snd fst]. now rewrite <- !app_assoc.
Qed.
End RecordBytes.

Lemma last_segment_suffix uri : forall last, (exists p, uri = p ++ last_segment last uri) \/ last_segment last uri = last.
Proof.
  induction uri as [|c r IH]; intros last; [right; reflexivity|]. cbn [last_segment]. destruct (_ || _).
  - destruct (IH r) as [[p E]| ->]; left; [exists (c :: p); cbn [app]; now rewrite <- E|exists [c]; reflexivity].
  - destruct (IH last) as [[p E]|E]; [left; exists (c :: p); cbn [app]; now rewrite <- E|now right].
Qed.

Lemma app_name_short uri : short uri -> short (gds_app_name uri).
Proof.
  intros [Hb Hl]. unfold gds_app_name. destruct (last_segment uri uri) as [|c r] eqn:E; [split; [apply Bytes_B|cbn; lia]|]. rewrite <- E. clear E.
  destruct (last_segment_suffix uri uri) as [[p E]|E]; [|rewrite E; now split].
  rewrite E in Hb, Hl. split; [now apply Forall_app in Hb|]. rewrite length_app in Hl. lia.
Qed.

(** The arguments of a command line of short strings. *)
Lemma gds_parse_short argv a : gds_parse argv = Ok a -> Forall short argv -> Z.of_nat (length argv) < 2 ^ 31 ->
  short (ga_appUri a) /\ short (ga_appName a) /\ Forall short (ga_urls a) /\ Z.of_nat (length (ga_urls a)) < 2 ^ 31 /\ 0 <= ga_appType a <= 2.
Proof.
  intros H Hs Hn. unfold gds_parse in H. apply rbind_Ok in H as (x & Ex & H). apply rbind_Ok in H as (t & Et & H).
  do 3 (apply rbind_Ok in H as (? & ? & H)). injection H as <-. cbn [ga_appUri ga_appName ga_urls ga_appType].
  set (uri := default _ _). rewrite Forall_forall in Hs.
  assert (short uri) as Hu.
  { unfold uri. destruct (find_arg argv (B "--app-uri")) as [u|] eqn:E; [apply Hs, (find_arg_In argv _ _ E)|split; [apply Bytes_B|cbn; lia]]. }
  destruct (all_values_incl (B "--discovery-url") (length argv) argv (le_n _)) as [Hi Hl].
  split; [exact Hu|]. split; [now apply app_name_short|]. split; [apply Forall_forall; intros v Hv; apply Hs, (Hi v Hv)|]. split; [lia|].
  unfold flag_value, app_type in Et. destruct (find_arg argv (B "--app-type")) as [ty|]; [|injection Et as <-; lia].
  destruct (streq ty _); [injection Et as <-; lia|]. destruct (streq ty _); [injection Et as <-; lia|].
  destruct (streq ty _); [injection Et as <-; lia|discriminate].
Qed.

(** * Theorems *)


(** C38: the poll of FinishRequest ends.  Whatever the server answers, the loop makes
    at most one call per 200 ms left until the deadline, and two more; and it gives
    up on a request that is still pending (BadNothingToDo) only when the deadline has
    passed. *)
Theorem finish_request_ends {W} {L : ClientLib W} {srv : Services W} {p12 : Part12Services W} {pc : PollClock L srv p12}
    ns w deadline appId requestId rounds :
  Z.max 0 (deadline - instant w) / GDS_FINISH_POLL_MS + 2 <= Z.of_nat rounds ->
  exists w' sc out, finish_poll ns rounds w deadline appId requestId = Some (w', (sc, out)) /\
    (sc = UA_STATUSCODE_BADNOTHINGTODO -> deadline <= instant w').
Proof.
  intros Hr. set (d := Z.max 0 (deadline - instant w)) in *. pose proof (Z.div_pos d GDS_FINISH_POLL_MS ltac:(lia) eq_refl) as Hq.
  pose proof (Z.mod_pos_bound d GDS_FINISH_POLL_MS eq_refl) as Hm. pose proof (Z.div_mod d GDS_FINISH_POLL_MS ltac:(discriminate)) as Hd.
  destruct (finish_poll_ends ns appId requestId deadline (Z.to_nat (d / GDS_FINISH_POLL_MS + 1)) w) as ([w' [sc out]] & H1 & H2); [unfold GDS_FINISH_POLL_MS in *; lia|].
  exists w', sc, out. split; [apply H1; lia|exact H2].
Qed.

(** C39: the ApplicationRecordDataType that RegisterApplication carries is the record
    of the contract: decoding its bytes by the rules of Part 6 gives back the
    application URI, type, name, product, discovery URLs (the default one without
    flags, none for a client) and capabilities, with nothing left over; and
    [gds_record_id] finds the (null) ApplicationId at its start. *)
Theorem record_reads_back {stack : UaStack} {heap : Heap} {enc : UaCodec} {dec : BinaryDecoders} {p6 : Part6 enc dec} argv a typeId :
  (forall n, alloc_ok n = true) -> Forall short argv -> Z.of_nat (length argv) < 2 ^ 31 -> gds_parse argv = Ok a ->
  exists body, gds_encode_record a = Some body /\ read_record body = Some (contract_record a) /\
    gds_record_id (VExtensionObject (ExtByteString typeId (Some body))) = Some UA_NODEID_NULL.
Proof.
  intros Hp Hs Hn Ha. destruct (gds_parse_short argv a Ha Hs Hn) as (H1 & H2 & H3 & H4 & H5).
  destruct (encode_record_bytes Hp a H1 H2 H3 H4 H5) as (Hu & Hl & E). eexists. split; [exact E|]. clear E.
  set (client := ga_appType a =? 1) in *. set (urls := if client then [] else match ga_urls a with [] => [default_url] | l => l end) in *.
  assert (forall l, Forall short l -> Forall (fun s => Z.of_nat (length s) < 2 ^ 31) l) as Hlen by (intros l; apply Forall_impl; now intros s [_ H]).
  split; [|exact (decode_two_byte 0 _ ltac:(lia))]. unfold read_record. cbn [app]. rewrite (decode_two_byte 0) by lia. cbn [obind].
  match goal with |- context [p12_nodeid_encoded_length (0 :: 0 :: ?r)] =>
    change (p12_nodeid_encoded_length (0 :: 0 :: r)) with (p12_nodeid_encoded_length ([0; 0] ++ r)); rewrite (encoded_length UA_NODEID_NULL [0; 0] r) by (apply nb_two_byte; lia) end.
  change (Z.to_nat (Z.of_nat (length [0; 0]))) with 2%nat. cbn [skipn]. rewrite skipn_O. rewrite read_string_bytes by apply H1. cbn [obind].
  rewrite read_i32_le by lia. cbn [obind]. unfold read_array at 1. rewrite <- app_assoc, read_i32_le by lia. cbn [obind].
  change (Z.to_nat 1) with 1%nat. cbn [read_list]. unfold read_text at 1. cbn [app]. change (Z.testbit 3 0) with true. change (Z.testbit 3 1) with true. cbv iota.
  rewrite <- app_assoc, read_string_bytes by (cbn; lia). cbn [obind]. rewrite read_string_bytes by apply H2. cbn [obind].
  rewrite read_string_bytes by (cbn; lia). cbn [obind]. rewrite <- app_assoc, read_array_strings by auto. cbn [obind].
  unfold contract_record. fold client. subst urls. destruct client; reflexivity.
Qed.

(** * A directory to run against *)

(** The methods called so far and the clock; a call takes 1 ms, and a certificate is
    ready after 300 ms. *)
Record directory := { d_log : list ua_nodeid; d_time : Z }.

Definition d_app : ua_nodeid := UA_NODEID_NUMERIC 1 7001.
Definition d_good (l : list ua_value) : Z * list ua_variant := (UA_STATUSCODE_GOOD, map VtScalar l).

Definition d_answer (t : Z) (m : ua_nodeid) : Z * list ua_variant :=
  match identifier m with
  | IdNumeric i =>
      if i =? GDS_REGISTER_APPLICATION then d_good [VNodeId d_app]
      else if (i =? GDS_START_SIGNING_REQUEST) || (i =? GDS_START_NEW_KEY_PAIR_REQUEST) then d_good [VNodeId (UA_NODEID_NUMERIC 1 7002)]
      else if i =? GDS_FINISH_REQUEST then if t <? 300 then (UA_STATUSCODE_BADNOTHINGTODO, []) else d_good [VByteString (Some [48; 1])]
      else if i =? GDS_GET_TRUST_LIST then d_good [VNodeId (UA_NODEID_NUMERIC 1 7003)]
      else (UA_STATUSCODE_GOOD, [])
  | IdString (Some n) => if streq n (B "Open") then d_good [VUInt32 1]
                         else if streq n (B "Read") then d_good [VByteString (Some [15])] else (UA_STATUSCODE_GOOD, [])
  | _ => (UA_STATUSCODE_GOOD, [])
  end.

Definition d_services : Services directory := {|
  NamespaceGetIndex w _ := (w, None);
  Service_read w _ l := (w, (UA_STATUSCODE_GOOD, map (fun _ => DataValue None None None None None None) l));
  Service_write w l := (w, (UA_STATUSCODE_GOOD, map (fun _ => UA_STATUSCODE_GOOD) l));
  Service_browse w _ := (w, (UA_STATUSCODE_GOOD, []));
  Service_browseNext w _ := (w, (UA_STATUSCODE_GOOD, []));
  Service_translate w _ _ := (w, (UA_STATUSCODE_GOOD, []));
  Client_call w _ m _ := ({| d_log := d_log w ++ [m]; d_time := d_time w + 1 |}, d_answer (d_time w) m);
  Client_findServers w _ := (w, (UA_STATUSCODE_GOOD, []));
  Channel_getEndpoints w _ := (w, (UA_STATUSCODE_GOOD, []));
  Channel_findServers w := (w, (UA_STATUSCODE_GOOD, [])) |}.

Lemma d_good_or_bad : good_or_bad (stack := ref_stack) d_services.
Proof.
  intros w o m l. cbn [Client_call d_services snd]. unfold d_answer. destruct (identifier m) as [i|[n|]| | |];
    repeat match goal with |- context [if ?b then _ else _] => destruct b end; reflexivity.
Qed.

Lemma d_services_laws : ServicesLaws d_services.
Proof.
  assert (forall t m, 0 <= fst (d_answer t m) < 2 ^ 32 /\ forallb wf_variant (snd (d_answer t m)) = true) as Ha.
  { intros t m. unfold d_answer. destruct (identifier m) as [i|[n|]| | |];
      repeat match goal with |- context [if ?b then _ else _] => destruct b end;
      (split; [cbn; unfold UA_STATUSCODE_GOOD, UA_STATUSCODE_BADNOTHINGTODO; lia|reflexivity]). }
  split; intros; cbn [fst snd Service_read Service_write Service_browse Service_browseNext Service_translate Client_call d_services] in *;
    try apply Ha; try (unfold UA_STATUSCODE_GOOD; lia); try apply length_map;
    try (apply forallb_forall; intros x Hx; apply in_map_iff in Hx as (y & <- & _); reflexivity); try contradiction.
Qed.

Definition d_part12 : Part12Services directory := {|
  Service_translatePaths w _ l := (w, (UA_STATUSCODE_GOOD,
    map (fun p => {| pr_statusCode := UA_STATUSCODE_GOOD; pr_targets := [fs_method (last p [])] |}) l));
  Client_readValue w _ := (w, (UA_STATUSCODE_GOOD, VtArray TString [VString (Some (B "http://opcfoundation.org/UA/")); VString (Some GDS_NAMESPACE)] []));
  sleep_ms w ms := {| d_log := d_log w; d_time := d_time w + ms |} |}.

(** The encodings of Part 6 for the types of the record. *)
Definition p6_encode (v : ua_value) : Z * ua_string :=
  match v with
  | VNodeId {| namespaceIndex := 0; identifier := IdNumeric 0 |} => (UA_STATUSCODE_GOOD, Some [0; 0])
  | VInt32 z => (UA_STATUSCODE_GOOD, Some (le 4 z))
  | VString (Some s) => if forallb is_byte s then (UA_STATUSCODE_GOOD, Some (string_bytes (Some s))) else (UA_STATUSCODE_BADNOTIMPLEMENTED, None)
  | VLocalizedText (Some l) (Some t) => if forallb is_byte l && forallb is_byte t
      then (UA_STATUSCODE_GOOD, Some (3 :: string_bytes (Some l) ++ string_bytes (Some t))) else (UA_STATUSCODE_BADNOTIMPLEMENTED, None)
  | _ => (UA_STATUSCODE_BADNOTIMPLEMENTED, None)
  end.

Definition p6_codec : UaCodec := {| UA_encodeJson := bool_encode; UA_encodeXml := bool_encode; UA_encodeBinary := p6_encode;
  UA_decodeJson := bool_decode; UA_decodeXml := bool_decode |}.

Definition p6_decoders : BinaryDecoders := {|
  decode_nodeid b := match b with 0 :: i :: _ => if (0 <=? i) && (i <? 256) then Some (UA_NODEID_NUMERIC 0 i) else None | _ => None end;
  decode_localized_text _ := None; decode_trust_list := decode_trust_list (BinaryDecoders := toy_decoders) |}.

Lemma le_bytes k : forall z, forallb is_byte (le k z) = true.
Proof.
  induction k as [|k IH]; intros z; cbn [le forallb]; [reflexivity|]. rewrite IH, andb_true_r. unfold is_byte.
  pose proof (Z.mod_pos_bound z 256 ltac:(lia)). lia.
Qed.

Lemma string_bytes_wf s : forallb is_byte s = true -> forallb is_byte (string_bytes (Some s)) = true.
Proof. intros H. unfold string_bytes. cbn [default]. now rewrite forallb_app, le_bytes, H. Qed.

Lemma p6_encode_wf v : 0 <= fst (p6_encode v) < 2 ^ 32 /\ wf_str (snd (p6_encode v)) = true.
Proof.
  assert (0 <= fst (UA_STATUSCODE_BADNOTIMPLEMENTED, None : ua_string) < 2 ^ 32 /\ wf_str (snd (UA_STATUSCODE_BADNOTIMPLEMENTED, None : ua_string)) = true) as Hn
    by (split; [unfold UA_STATUSCODE_BADNOTIMPLEMENTED; cbn; lia|reflexivity]).
  destruct v; try exact Hn; cbn [p6_encode].
  - split; [cbn; unfold UA_STATUSCODE_GOOD; lia|exact (le_bytes 4 z)].
  - destruct s as [s|]; [|exact Hn]. destruct (forallb is_byte s) eqn:E; [|exact Hn]. split; [cbn; unfold UA_STATUSCODE_GOOD; lia|exact (string_bytes_wf s E)].
  - destruct n as [[| |] [[| |]| | | |]]; try exact Hn. split; [cbn; unfold UA_STATUSCODE_GOOD; lia|reflexivity].
  - destruct locale as [l|]; [|exact Hn]. destruct text as [t|]; [|exact Hn]. destruct (forallb is_byte l) eqn:El; [|exact Hn].
    destruct (forallb is_byte t) eqn:Et; [|exact Hn]. split; [cbn; unfold UA_STATUSCODE_GOOD; lia|]. cbn [andb snd wf_str forallb].
    change (forallb is_byte (3 :: string_bytes (Some l) ++ string_bytes (Some t)) = true). cbn [forallb]. now rewrite forallb_app, !string_bytes_wf.
Qed.

Lemma p6_codec_laws : UaCodecLaws p6_codec.
Proof. destruct ref_codec_laws as [H1 H2 _ H4 H5 H6 H7]. split; [exact H1|exact H2|exact p6_encode_wf|exact H4|exact H5|exact H6|exact H7]. Qed.

Lemma p6_laws : Part6 p6_codec p6_decoders.
Proof.
  assert (forall s, Bytes s -> forallb is_byte s = true) as Hb by (intros s H; apply forallb_forall; now apply Forall_forall).
  split; cbn [UA_encodeBinary p6_codec p6_encode decode_nodeid p6_decoders]; try (intros; reflexivity).
  - intros s Hs _. now rewrite (Hb s Hs).
  - intros l t Hl Ht _ _. now rewrite (Hb l Hl), (Hb t Ht).
  - intros i rest Hi. now replace ((0 <=? i) && (i <? 256)) with true by lia.
Qed.

Lemma d_part12_laws : Part12Laws d_part12 p6_decoders.
Proof.
  split; cbn [fst snd Service_translatePaths Client_readValue d_part12]; unfold UA_STATUSCODE_GOOD; try (intros; lia).
  - intros w n l r Hr. apply in_map_iff in Hr as (p & <- & _). cbn. lia.
  - intros b n _ H. cbn in H. destruct b as [|[| |] [|i b]]; try discriminate H. destruct ((0 <=? i) && (i <? 256)) eqn:E; [|discriminate].
    injection H as <-. unfold bytes_nodeid, UA_NODEID_NUMERIC. cbn [namespaceIndex identifier]. lia.
  - discriminate.
  - exact toy_trust_list_wf.
Qed.

Definition d_client : ClientLib directory := {|
  Client_new w := (w, true); Client_getEndpoints w _ := (w, (UA_STATUSCODE_GOOD, [])); Client_connect w _ _ := (w, UA_STATUSCODE_GOOD);
  Client_disconnect w := w; Client_readServerArray w := (w, (UA_STATUSCODE_GOOD, [])); Client_run_iterate w _ := w;
  Client_getState _ := (ChClosed, SsOther, UA_STATUSCODE_GOOD); Client_startListening w _ _ _ := (w, UA_STATUSCODE_GOOD);
  mono_ms w := (w, d_time w); file_bytes _ _ := None; x509_names := no_certificates;
  setDefaultEncryption _ _ _ := (UA_STATUSCODE_GOOD, [], []); decryptPrivateKey k := (UA_STATUSCODE_GOOD, k);
  ecc_ctor _ _ _ := UA_STATUSCODE_GOOD |}.

Lemma d_clock : PollClock d_client d_services d_part12.
Proof.
  unshelve refine {| instant := d_time : directory -> Z |}; intros; cbn [fst snd mono_ms d_client Client_call d_services sleep_ms d_part12 d_time]; lia.
Defined.

(** Requests that are their subject's text. *)
Definition text_requests (W : Type) : X509Requests W := {|
  pkey := unit; x509_name := bytes; ia5_string := bytes; x509_extension := list (Z * bytes); x509_req := bytes;
  EVP_EC_gen w _ := (w, Some tt); EVP_RSA_gen w _ := (w, Some tt);
  X509_NAME_entry _ n := if Nat.leb (length n) 64 then Some n else None; ASN1_IA5STRING s := Some s;
  X509V3_subject_alt_name l := Some l; X509_REQ_build _ n _ _ := Some n; X509_REQ_sign w r _ := (w, Some r); i2d_X509_REQ r := r |}.

Definition gds_argv : list bytes :=
  [B "gds-pull"; B "--endpoint"; B "opc.tcp://s"; B "--app-uri"; B "urn:x:app"; B "--revoke"; B "--unregister"; B "--discovery-url"; B "opc.tcp://a:1"].

Definition d_start : directory := {| d_log := []; d_time := 0 |}.


Lemma finish_request_ends_witness : exists w' sc out,
  finish_poll (L := d_client) (srv := d_services) (p12 := d_part12) 1 4 d_start 250 d_app d_app = Some (w', (sc, out)) /\
  (sc = UA_STATUSCODE_BADNOTHINGTODO -> 250 <= d_time w').
Proof. exact (finish_request_ends (pc := d_clock) 1 d_start 250 d_app d_app 4 ltac:(vm_compute; discriminate)). Defined.

Lemma record_reads_back_witness : exists a body,
  gds_parse gds_argv = Ok a /\ gds_encode_record (heap := plentiful) (enc := p6_codec) a = Some body /\
  read_record (dec := p6_decoders) body = Some (contract_record a) /\ ar_urls (contract_record a) = [Some (B "opc.tcp://a:1")].
Proof.
  destruct (gds_parse gds_argv) as [a|] eqn:Ea; [|discriminate].
  destruct (record_reads_back (stack := ref_stack) (heap := plentiful) (p6 := p6_laws) gds_argv a UA_NODEID_NULL (fun _ => eq_refl)) as (body & H1 & H2 & _).
  - repeat (constructor; [split; [apply Bytes_B|vm_compute; reflexivity]|]). constructor.
  - vm_compute. reflexivity.
  - exact Ea.
  - exists a, body. split; [reflexivity|]. split; [exact H1|]. split; [exact H2|]. vm_compute in Ea. injection Ea as <-. reflexivity.
Defined.
