(* ===== verification/Client.v ===== *)
(** client.c: the commands behind [client_run], as one program over the interfaces
    of the stack, and what every run of it reports. *)

From Stdlib Require Import String Ascii ZArith Bool List Lia SpecFloat.
Import ListNotations.
From S2P Require Import Prelude CLib Json Float UaTypes RefStack Output CJson Args NodeIds Connect Session.
From S2P Require Import ReadWrite BrowseCall Discovery Historian HistoryRead Subscribe Lifecycle NodeServices.
From S2P Require Import HistoryEvents EventSubscribe Alarms Codec PubSubJson PubSubCodec PubSubRoundTrip LocalDiscovery.
From S2P Require Import P12Json Part12 Push GdsPull.

(** * The stack as the client uses it *)

Class ClientWorld (W : Type) := {
  cw_client :: ClientLib W;
  cw_services :: Services W;
  cw_history :: HistoryServer W;
  cw_subscriptions :: Subscriptions W;
  cw_control :: SubscriptionControl W;
  cw_management :: NodeManagement W;
  cw_events :: EventSubscriptions W;
  cw_event_history :: EventHistory W;
  cw_nodeids :: NodeIdOps;
  cw_files :: InputFiles W;
  cw_local :: DiscoveryServices W;
  cw_part12 :: Part12Services W;
  cw_decoders :: BinaryDecoders;
  cw_x509 :: X509Lib;
  cw_requests :: X509Requests W;
  cw_heap :: Heap
}.

Class ClientWorldLaws {stack : UaStack} {W : Type} (cw : ClientWorld W) := {
  cl_client :: ClientLibLaws (cw_client (W := W));
  cl_clock :: Clock (cw_client (W := W));
  cl_services :: ServicesLaws (cw_services (W := W));
  cl_discovery :: DiscoveryLaws (cw_client (W := W)) cw_services;
  cl_discovery_clock :: DiscoveryClock cl_clock cw_services;
  cl_history :: HistoryLaws (cw_history (W := W));
  cl_subscriptions :: SubscriptionLaws (cw_client (W := W)) cw_subscriptions;
  cl_control :: ControlLaws (cw_control (W := W));
  cl_management :: ManagementLaws (cw_management (W := W));
  cl_events :: EventSubscriptionLaws (cw_client (W := W)) cw_subscriptions cw_events;
  cl_event_history :: EventHistoryLaws (cw_event_history (W := W));
  cl_nodeids :: NodeIdLaws cw_nodeids;
  cl_local :: DiscoveryServicesLaws (cw_local (W := W));
  cl_part12 :: Part12Laws (cw_part12 (W := W)) cw_decoders;
  cl_poll :: PollClock (cw_client (W := W)) cw_services cw_part12;
  cl_heap :: HeapLaws cw_heap;
  (** a browse ends: its continuation points do not go on for ever *)
  cl_browse_ends : forall (w : W) cp, ChainEnds w cp;
  (** a file ends: Read does not give full chunks for ever *)
  cl_reads_end : forall obj read h (w : W), ReadsEnd obj read h w;
  cl_namespace : forall (w : W) u i, snd (NamespaceGetIndex w u) = Some i -> 0 <= i
}.

(** * The dispatched commands *)

Section Client.
Context {stack : UaStack} {cj : CJson} {cpu : Cpu} {enc : UaCodec} {types : TypeTable} {len : CJsonLength} {net : NetworkMessages}
  {W : Type} {cw : ClientWorld W}.

(** [codec], and its pubsub- forms in pubsub_codec.c. *)
Definition codec_command (fuel : nat) (w : W) (g : ClientSecurity) (argv : list bytes) : outcome W :=
  match cmd_codec fuel w g argv with Some o => o | None => cmd_codec_pubsub w (tl argv) end.

Definition run_command (fuel rounds : nat) (w : W) (c : command) (g : ClientSecurity) (argv : list bytes) : outcome W :=
  match c with
  | CmdEndpoints => cmd_endpoints fuel w g argv
  | CmdFindServers => cmd_find_servers fuel w g argv
  | CmdRead => cmd_read fuel w g argv
  | CmdWrite => cmd_write fuel w g argv
  | CmdBrowse => cmd_browse fuel rounds w g argv
  | CmdTranslate => cmd_translate fuel w g argv
  | CmdCall => cmd_call fuel w g argv
  | CmdSubscribe => cmd_subscribe fuel rounds w g argv
  | CmdSubscriptionLifecycle => cmd_subscription_lifecycle fuel rounds w g argv
  | CmdEventSubscribe => cmd_event_subscribe fuel rounds w g argv
  | CmdAlarms => cmd_alarms fuel rounds w g argv
  | CmdHistoryRead => cmd_history_read fuel w g argv
  | CmdHistoryReadEvents => cmd_history_read_events fuel w g argv
  | CmdHistoryUpdateEvents => cmd_history_update_events fuel w g argv
  | CmdRepublish => cmd_republish fuel w g argv
  | CmdTransferSubscriptions => cmd_transfer_subscriptions fuel w g argv
  | CmdRegisterNodes => cmd_register_nodes fuel w g argv
  | CmdNodeManagement => cmd_node_management fuel w g argv
  | CmdCodec => codec_command fuel w g argv
  | CmdFindServersOnNetwork => cmd_find_servers_on_network w g argv
  | CmdRegisterServer => cmd_register_server w g argv
  | CmdPush => cmd_push fuel rounds w g argv
  | CmdGdsPull => cmd_gds_pull fuel rounds w g argv
  end.

(** The exit code and the output of [client_run]. *)
Definition client_main (fuel rounds : nat) (w : W) (argv : list bytes) : outcome W :=
  match client_run argv with
  | Usage code => Exits w code []
  | Run c g rest => run_command fuel rounds w c g rest
  end.

(** * Arguments the commands can work with *)

(** Printable arguments, a value after each flag that is counted separately from
    its values, finite deadbands, a timeout that fits 32 bits, and no control
    characters in the NodeIds of a literal. *)
Record usable_argv (argv : list bytes) : Prop := {
  ua_printable : Forall printable argv;
  ua_complete : complete argv [B "--node"; B "--type"; B "--value"];
  ua_deadband : forall f s, In f [B "--deadband-absolute"; B "--deadband-percent"] -> find_arg argv f = Some s ->
    isfinite (atof s) = true;
  ua_timeout : subscribe_timeout argv <= 2147483000;
  ua_literal : clean_literal (tl argv)
}.

(** ** Every modelled command reports *)

(** With enough fuel and rounds. *)
Definition answers (op : bytes) (f : nat -> nat -> outcome W) : Prop :=
  exists n, forall fuel, (n <= fuel)%nat -> exists p, forall rounds, (p <= rounds)%nat -> ends_reporting op (f fuel rounds).

Lemma answers_fuel op (f : nat -> outcome W) :
  (exists n, forall fuel, (n <= fuel)%nat -> ends_reporting op (f fuel)) -> answers op (fun fuel _ => f fuel).
Proof. intros (n & H). exists n. intros fuel Hf. exists O. eauto. Qed.

Lemma answers_now op (o : outcome W) : ends_reporting op o -> answers op (fun _ _ => o).
Proof. intros H. exists O. intros. exists O. eauto. Qed.

(** The forms of codec whose reports are the subject of pubsub_codec.c. *)
Definition pubsub_form (c : command) (argv : list bytes) : bool :=
  match c, argv with
  | CmdCodec, _ :: a :: _ => is_some (strip (B "pubsub-") a)
  | _, _ => false
  end.

Context {laws : UaStackLaws stack} {cjl : CJsonLaws cj} {ct : CJsonText cj} {el : UaCodecLaws enc} {cwl : ClientWorldLaws cw}.

Lemma parse_security_text argv g : text_argv argv -> Bytes (policyName g) -> Bytes (modeName g) ->
  Bytes (policyName (parse_security argv g)) /\ Bytes (modeName (parse_security argv g)).
Proof.
  intros Ht Hp Hm. cbn [parse_security policyName modeName]. split.
  - destruct (find_arg argv (B "--security-policy")) eqn:E; [exact (find_arg_Bytes _ _ _ Ht E)|exact Hp].
  - destruct (find_arg argv (B "--security-mode")) eqn:E; [exact (find_arg_Bytes _ _ _ Ht E)|exact Hm].
Qed.

Lemma run_command_answers w c g argv op : In (op, c) dispatch_table -> text_argv argv -> usable_argv argv ->
  Bytes (policyName g) -> Bytes (modeName g) -> pubsub_form c argv = false ->
  answers op (fun fuel rounds => run_command fuel rounds w c g argv).
Proof.
  intros Hin Ht [Hp Hc Hd Hms Hlit] Hpol Hmode Hmod.
  assert (forall op, Bytes op -> text_args g op) as Hg by (intros; now repeat split).
  assert (forall f s, find_arg argv f = Some s -> printable s) as Hpr by (intros f s; now apply find_arg_printable).
  pose proof (service_commands_report w g argv Ht Hpol Hmode cl_browse_ends) as (n1 & H1).
  assert (complete argv [B "--node"]) as Hn by (intros f [<-|[]]; apply Hc; now left).
  pose proof (node_commands_report w g argv Ht Hpol Hmode Hp cl_namespace Hn) as (n2 & H2).
  pose proof (discovery_commands_report w g argv) as (n3 & H3).
  repeat (destruct Hin as [E|Hin]; [injection E as <- <-; cbn [run_command];
    first [apply answers_now|apply answers_fuel|idtac]|]); [..|destruct Hin].
  - exists n3. intros fuel Hf. exact (proj1 (H3 fuel Hf)).
  - exists n3. intros fuel Hf. exact (proj2 (H3 fuel Hf)).
  - apply read_reports; auto using Bytes_B.
  - apply write_reports; auto using Bytes_B.
  - exists n1. intros fuel Hf. exact (proj1 (H1 fuel Hf)).
  - exists n1. intros fuel Hf. exact (proj1 (proj2 (H1 fuel Hf))).
  - exists n1. intros fuel Hf. exact (proj2 (proj2 (H1 fuel Hf))).
  - apply subscribe_reports; eauto using Bytes_B, cl_namespace.
  - apply lifecycle_reports; [exact Ht|exact (Hg _ (Bytes_B _))].
  - apply event_subscribe_reports; eauto using Bytes_B, cl_namespace.
  - apply alarms_reports; eauto using Bytes_B, cl_namespace.
  - apply history_read_reports; eauto using Bytes_B, cl_namespace.
  - apply read_events_reports; [exact cl_namespace|exact Ht|exact (Hg _ (Bytes_B _))|now apply printable_values].
  - apply update_events_reports; [exact cl_namespace|exact Ht|exact (Hg _ (Bytes_B _))|apply Hpr].
  - exists n2. intros fuel Hf. exact (proj1 (H2 fuel Hf)).
  - exists n2. intros fuel Hf. exact (proj1 (proj2 (H2 fuel Hf))).
  - exists n2. intros fuel Hf. exact (proj1 (proj2 (proj2 (H2 fuel Hf)))).
  - exists n2. intros fuel Hf. exact (proj2 (proj2 (proj2 (H2 fuel Hf)))).
  - apply network_reports. exact (Hg _ (Bytes_B _)).
  - apply register_server_reports; [exact Ht|exact (Hg _ (Bytes_B _))].
  - unfold codec_command.
    destruct argv as [|a argv]; [exists O; intros; apply ends_usage; apply Bytes_B|].
    destruct (codec_reports cl_namespace w g a argv Ht (Hg _ (Bytes_B _)) Hlit Hp) as [n Hcodec].
    { destruct argv as [|b argv]; [eexists; reflexivity|]. cbn [pubsub_form] in Hmod. cbn [cmd_codec]. rewrite Hmod. eexists; reflexivity. }
    exists n. intros fuel Hf. destruct (Hcodec fuel Hf) as (o & -> & Ho). exact Ho.
  - apply push_reports; [exact Ht|exact (Hg _ (Bytes_B _))|exact cl_reads_end].
  - apply gds_reports; [exact Ht|exact (Hg _ (Bytes_B _))|exact cl_reads_end].
Qed.
End Client.


(** * A server to run against *)

Lemma ref_parse_array p j : @cJSON_Parse ref_cjson p = Some j -> exists l, j = CArray l.
Proof.
  cbn. repeat match goal with
              | |- context [match ?x with _ => _ end] => destruct x; try discriminate
              end. intros H. injection H as <-. eauto.
Qed.

#[export] Instance ref_cjson_text : CJsonText ref_cjson.
Proof.
  split.
  - intros p j Hp H. destruct (ref_parse_array p j H) as [l ->]. apply ref_parse_shape in H as (s & -> & ->).
    assert (Bytes s) as Hs.
    { inversion Hp as [|? ? _ H1]; subst. inversion H1 as [|? ? _ H2]; subst. now apply Forall_app in H2. }
    cbn [cjson_text forallb]. rewrite andb_true_r. apply forallb_forall. intros x Hx. unfold is_byte.
    pose proof (Bytes_In s x Hs Hx). lia.
  - intros j k v Hj H. destruct j as [| | | |l|l]; try discriminate. cbn in H.
    destruct (find _ l) as [m|] eqn:E; [|discriminate]. injection H as <-. apply find_some in E as [Hin _].
    cbn in Hj. rewrite forallb_forall in Hj. specialize (Hj m Hin). now apply andb_prop in Hj.
  - intros j t Hj H. destruct j; cbn [cJSON_PrintUnformatted ref_cjson] in H; injection H as <-; try exact (Bytes_B "0").
    cbn [cjson_text] in Hj. constructor; [reflexivity|]. apply Bytes_cat; [now apply forallb_Bytes|repeat constructor].
Qed.

#[export] Instance ref_event_history : EventHistory Z := {
  Service_historyReadEvents w _ := (w, {| hp_serviceResult := UA_STATUSCODE_GOOD; hp_results := [] |});
  Service_historyUpdate w _ := (w, (UA_STATUSCODE_GOOD, [])) }.

#[export] Instance ref_event_history_laws : EventHistoryLaws ref_event_history.
Proof. split; intros *; cbn; unfold UA_STATUSCODE_GOOD; try lia; intros []. Qed.

#[export] Instance ref_local : DiscoveryServices Z := {
  Client_connectSecureChannel w _ _ := (w, UA_STATUSCODE_GOOD);
  Service_findServersOnNetwork w _ := (w, {| ns_status := UA_STATUSCODE_GOOD; ns_lastCounterResetTime := 0; ns_servers := [] |});
  Service_registerServer2 w _ _ := (w, (UA_STATUSCODE_GOOD, [UA_STATUSCODE_GOOD]));
  Service_registerServer w _ := (w, UA_STATUSCODE_GOOD) }.

#[export] Instance ref_local_laws : DiscoveryServicesLaws ref_local.
Proof. split; intros *; cbn; unfold UA_STATUSCODE_GOOD; repeat split; try lia. repeat constructor; lia. Qed.

#[export] Instance ref_length : CJsonLength := { cJSON_ParseWithLength := @cJSON_Parse ref_cjson }.

#[export] Instance ref_part12 : Part12Services Z := {
  Service_translatePaths w _ l := (w, (UA_STATUSCODE_GOOD,
    map (fun p => {| pr_statusCode := UA_STATUSCODE_GOOD; pr_targets := [fs_method (last p [])] |}) l));
  Client_readValue w _ := (w, (UA_STATUSCODE_GOOD, VtArray TString [VString None; VString (Some GDS_NAMESPACE)] []));
  sleep_ms w ms := w + ms }.

#[export] Instance ref_part12_laws : Part12Laws ref_part12 p6_decoders.
Proof.
  destruct d_part12_laws as [_ _ _ H4 H5 H6]. split; [| | |exact H4|exact H5|exact H6];
    cbn [fst snd Service_translatePaths Client_readValue ref_part12]; unfold UA_STATUSCODE_GOOD; try (intros; lia).
  intros w n l r Hr. apply in_map_iff in Hr as (p & <- & _). cbn. lia.
Qed.

#[export] Instance ref_poll : PollClock ref_client ref_services ref_part12.
Proof. unshelve refine {| instant := fun w => w |}; intros; cbn; lia. Defined.

Lemma ref_reads_end obj read h (w : Z) : ReadsEnd obj read h w.
Proof. constructor. intros w1 out H. cbn in H. injection H as <- <-. cbn. unfold P12_READ_CHUNK. lia. Qed.

#[export] Instance ref_world : ClientWorld Z := {
  cw_client := ref_client; cw_services := ref_services; cw_history := ref_history;
  cw_subscriptions := ref_subscriptions; cw_control := ref_control; cw_management := ref_management;
  cw_events := ref_event_subscriptions; cw_event_history := ref_event_history;
  cw_nodeids := ref_nodeid_ops; cw_files := ref_files; cw_local := ref_local; cw_part12 := ref_part12; cw_decoders := p6_decoders;
  cw_x509 := any_x509; cw_requests := text_requests Z; cw_heap := plentiful }.

#[export] Instance ref_world_laws : ClientWorldLaws ref_world.
Proof.
  refine {| cl_client := ref_client_laws; cl_clock := ref_clock; cl_poll := ref_poll |}; try exact _; [exact ref_chain|exact ref_reads_end|].
  intros w u i. cbn [NamespaceGetIndex ref_services cw_services ref_world snd].
  destruct (streq u (B "urn:x")); intros H; [injection H as <-; lia|discriminate].
Qed.

Definition subscribe_cmdline : list bytes :=
  [B "event-subscribe"; B "--endpoint"; B "opc.tcp://s"; B "--node"; B "i=2253"; B "--events"; B "3"].

