(* ===== verification/Malformed.v ===== *)
(** Input checks before any network I/O: a malformed NodeId makes each command
    of client.c exit with code 2 in the world it started in. *)

From Stdlib Require Import String Ascii ZArith Bool List Lia.
Import ListNotations.
From S2P Require Import Prelude CLib Json UaTypes RefStack Base64 Output CJson Values Args.
From S2P Require Import NodeIds Connect Session ReadWrite BrowseCall Historian HistoryRead.

Section Malformed.
Context {stack : UaStack} {cj : CJson} {W : Type} {L : ClientLib W} {srv : Services W}
  {hist : HistoryServer W}.

(** Nothing was sent: exit code 2, one envelope, the same world. *)
Definition rejected (w : W) (op bad : bytes) (o : outcome W) : Prop :=
  o = Exits w 2 (cli_emit_failure op UA_STATUSCODE_BADINVALIDARGUMENT (B "input") (malformed bad)).

(** The same for the first malformed one of several nodes. *)
Definition rejected_first (w : W) (op : bytes) (nodes : list bytes) (o : outcome W) : Prop :=
  exists good first rest, nodes = good ++ first :: rest /\ forallb validate_nodeid_structure good = true /\
    validate_nodeid_structure first = false /\ rejected w op first o.

Lemma find_malformed nodes bad : In bad nodes -> validate_nodeid_structure bad = false ->
  exists good first rest, find (fun s => negb (validate_nodeid_structure s)) nodes = Some first /\
    nodes = good ++ first :: rest /\ forallb validate_nodeid_structure good = true /\ validate_nodeid_structure first = false.
Proof.
  intros Hin Hb. induction nodes as [|n r IH]; [destruct Hin|]. cbn [find].
  destruct (validate_nodeid_structure n) eqn:E; cbn [negb]; [|exists [], n, r; now repeat split].
  destruct Hin as [->|Hin]; [congruence|]. destruct (IH Hin) as (good & first & rest & -> & -> & Hg & Hf).
  exists (n :: good), first, rest. cbn [forallb]. now rewrite E, Hg.
Qed.

Lemma count_values argv flag v : In v (flag_values argv flag) -> count_flag argv flag <> O.
Proof.
  induction argv as [|a r IH]; intros H; [destruct H|]. rewrite count_flag_cons. destruct r as [|b r]; [destruct H|].
  change (flag_values (a :: b :: r) flag) with
    (if streq a flag then b :: flag_values (b :: r) flag else flag_values (b :: r) flag) in H.
  destruct (streq a flag); [lia|]. specialize (IH H). lia.
Qed.

Lemma In_firstn {A} n (l : list A) x : In x (firstn n l) -> In x l.
Proof. intros H. rewrite <- (firstn_skipn n l). apply in_or_app. now left. Qed.

Lemma read_rejects fuel w g argv url bad : find_arg argv (B "--endpoint") = Some url ->
  validate_nodeid_structure bad = false -> In bad (firstn MAX_NODES (flag_values argv (B "--node"))) ->
  rejected_first w (B "read") (firstn MAX_NODES (flag_values argv (B "--node"))) (cmd_read fuel w g argv).
Proof.
  intros Hu Hb Hin. unfold rejected_first, rejected, cmd_read. rewrite Hu.
  destruct (Nat.eqb_spec (count_flag argv (B "--node")) 0) as [E|_];
    [exfalso; exact (count_values _ _ _ (In_firstn _ _ _ Hin) E)|].
  unfold resolve_node_ids. destruct (find_malformed _ _ Hin Hb) as (good & first & rest & -> & E & Hg & Hf). now exists good, first, rest.
Qed.

Lemma write_rejects fuel w g argv url bad : find_arg argv (B "--endpoint") = Some url ->
  validate_nodeid_structure bad = false -> write_counts argv = true ->
  streq (last argv []) (B "--node") = false ->
  In bad (firstn MAX_NODES (flag_values argv (B "--node"))) ->
  rejected_first w (B "write") (firstn MAX_NODES (flag_values argv (B "--node"))) (cmd_write fuel w g argv).
Proof.
  intros Hu Hb Hc Hl Hin. unfold rejected_first, rejected, cmd_write. rewrite Hu, Hc. unfold check_nodes.
  apply flag_values_count in Hl. rewrite (firstn_all2 (firstn MAX_NODES _)) by (rewrite length_firstn; lia).
  destruct (find_malformed _ _ Hin Hb) as (good & first & rest & -> & E & Hg & Hf). now exists good, first, rest.
Qed.
End Malformed.

(** C23: a malformed NodeId is refused before any network I/O, in read and write
    (the first malformed one of the first 128 --node flags; for write when every
    node has a type and a value and --node is not the last argument), browse,
    translate, call (a malformed --object, or a malformed --method beside a
    well-formed --object) and history-read: given the other flags the command
    requires, the world is unchanged, the exit code is 2 and the envelope names the
    malformed text. *)
Theorem malformed_no_io {stack : UaStack} {cj : CJson} {W} {L : ClientLib W} {srv : Services W}
    {hist : HistoryServer W} fuel pages w g argv url bad :
  find_arg argv (B "--endpoint") = Some url -> validate_nodeid_structure bad = false ->
  (In bad (firstn MAX_NODES (flag_values argv (B "--node"))) ->
     rejected_first w (B "read") (firstn MAX_NODES (flag_values argv (B "--node"))) (cmd_read fuel w g argv) /\
     (write_counts argv = true -> streq (last argv []) (B "--node") = false ->
      rejected_first w (B "write") (firstn MAX_NODES (flag_values argv (B "--node"))) (cmd_write fuel w g argv))) /\
  (browse_node argv = bad -> rejected w (B "browse") bad (cmd_browse fuel pages w g argv)) /\
  (find_arg argv (B "--starting-node") = Some bad -> default [] (find_arg argv (B "--path")) <> [] ->
     rejected w (B "translate") bad (cmd_translate fuel w g argv)) /\
  (find_arg argv (B "--object") = Some bad -> find_arg argv (B "--method") <> None ->
     rejected w (B "call") bad (cmd_call fuel w g argv)) /\
  (forall o, find_arg argv (B "--object") = Some o -> validate_nodeid_structure o = true -> find_arg argv (B "--method") = Some bad ->
     rejected w (B "call") bad (cmd_call fuel w g argv)) /\
  (find_arg argv (B "--node") = Some bad -> find_arg argv (B "--start") <> None ->
   find_arg argv (B "--end") <> None ->
     rejected w (B "history-read") bad (cmd_history_read fuel w g argv)).
Proof.
  intros Hu Hb. repeat split.
  - now apply (read_rejects fuel w g argv url bad).
  - intros Hc Hl. now apply (write_rejects fuel w g argv url bad).
  - intros Hn. unfold rejected, cmd_browse. now rewrite Hu, Hn, Hb.
  - intros Hn Hp. unfold rejected, cmd_translate. rewrite Hu, Hn. cbn [default].
    destruct (find_arg argv (B "--path")) as [[|c p]|]; try (now destruct Hp). now rewrite Hb.
  - intros Ho Hm. unfold rejected, cmd_call. rewrite Hu, Ho.
    destruct (find_arg argv (B "--method")); [|now destruct Hm]. now rewrite Hb.
  - intros o Ho Hv Hm. unfold rejected, cmd_call. now rewrite Hu, Ho, Hm, Hv, Hb.
  - intros Hn Hs He. unfold rejected, cmd_history_read. rewrite Hu, Hn.
    destruct (find_arg argv (B "--start")); [|now destruct Hs].
    destruct (find_arg argv (B "--end")); [|now destruct He]. now rewrite Hb.
Qed.

Definition malformed_argv : list bytes := [B "browse"; B "--endpoint"; B "opc.tcp://s"; B "--node"; B "ns=1"].

Lemma malformed_no_io_witness :
  rejected 0 (B "browse") (B "ns=1") (cmd_browse 0 0 0 g_sec_default malformed_argv).
Proof.
  assert (find_arg malformed_argv (B "--endpoint") = Some (B "opc.tcp://s")) as Hu by reflexivity.
  assert (validate_nodeid_structure (B "ns=1") = false) as Hb by reflexivity.
  destruct (malformed_no_io 0 0 0 g_sec_default malformed_argv (B "opc.tcp://s") (B "ns=1") Hu Hb)
    as (_ & H & _). apply H. reflexivity.
Defined.
