(* ===== verification/Fixture.v ===== *)
(** fixture.c: the fixture file a server serves, read from its JSON text.
    [fixture_load] with its helpers; the C arrays with their counts are lists. *)

From Stdlib Require Import String Ascii ZArith Bool List Lia SpecFloat.
Import ListNotations.
From S2P Require Import Prelude CLib Json Float CJson.

(** * fixture.h *)

Inductive NodeClass := NODE_OBJECT | NODE_VARIABLE | NODE_METHOD.

Inductive BehaviorKind :=
| BEH_COUNTER | BEH_TOGGLE | BEH_RAMP | BEH_STATIC | BEH_TIMESTAMP | BEH_STATUS_SEQUENCE
| BEH_FIXED_STATUS.

Record Argument := {
  arg_name : option bytes; arg_dataType : option bytes; arg_valueRank : Z;
  arg_description : option bytes }.

(** Fields that only Variables or only Methods have are grouped; [calloc] leaves
    them zero in the other nodes. *)
Record VariableFields := {
  dataType : option bytes; valueRank : Z; arrayDimensions : option (list Z); accessLevel : Z;
  initialValue : option cjson; euRange : option (spec_float * spec_float) }.
Record MethodFields := {
  methodBehavior : option bytes; inputArgs : list Argument; outputArgs : list Argument }.

Record FixtureNode := {
  nodeClass : NodeClass; nodeId : option bytes; browseName : option bytes;
  displayName : option bytes; nd_description : option bytes; parentNodeId : option bytes;
  referenceType : option bytes; typeDefinition : option bytes;
  variable : VariableFields; method : MethodFields }.

Record Behavior := {
  target : option bytes; kind : BehaviorKind; initial : spec_float; increment : spec_float;
  minimum : spec_float; maximum : spec_float; intervalMs : Z }.

Record Fixture := {
  schemaVersion : option bytes; fx_id : option bytes; fx_description : option bytes;
  fx_applicationUri : option bytes; productUri : option bytes; applicationName : option bytes;
  port : Z; fx_endpointPath : option bytes;
  namespaces : list (option bytes * option bytes);
  nodes : list FixtureNode;
  behaviors : list Behavior;
  securityProfiles : list (option bytes * option bytes);
  users : list (option bytes * option bytes) }.

Definition no_variable : VariableFields :=
  {| dataType := None; valueRank := 0; arrayDimensions := None; accessLevel := 0;
     initialValue := None; euRange := None |}.
Definition no_method : MethodFields :=
  {| methodBehavior := None; inputArgs := []; outputArgs := [] |}.

(** * Helpers *)

Definition parse_node_class (s : option bytes) : NodeClass :=
  match s with
  | None => NODE_OBJECT
  | Some s => if streq s (B "Variable") then NODE_VARIABLE
              else if streq s (B "Method") then NODE_METHOD else NODE_OBJECT
  end.

Definition parse_behavior_kind (s : option bytes) : BehaviorKind :=
  match s with
  | None => BEH_STATIC
  | Some s =>
      if streq s (B "counter") then BEH_COUNTER
      else if streq s (B "toggle") then BEH_TOGGLE
      else if streq s (B "ramp") then BEH_RAMP
      else if streq s (B "static") then BEH_STATIC
      else if streq s (B "timestamp") then BEH_TIMESTAMP
      else if streq s (B "status-sequence") then BEH_STATUS_SEQUENCE
      else if streq s (B "fixed-status") then BEH_FIXED_STATUS
      else BEH_STATIC
  end.

(** The [AL_] masks. *)
Definition access_bits : list (bytes * Z) :=
  [(B "CurrentRead", 0x01); (B "CurrentWrite", 0x02); (B "HistoryRead", 0x04); (B "HistoryWrite", 0x10);
   (B "SemanticChange", 0x40); (B "StatusWrite", 0x20); (B "TimestampWrite", 0x80)].

Definition access_bit (el : cjson) : Z :=
  match el with
  | CString s => match find (fun p => streq s (fst p)) access_bits with Some p => snd p | None => 0 end
  | _ => 0
  end.

Definition parse_access_level (arr : option cjson) : Z :=
  match arr with
  | Some (CArray l) => fold_left (fun mask el => Z.lor mask (access_bit el)) l 0
  | _ => 0x01
  end.

Section Load.
Context {cj : CJson} {cpu : Cpu}.

Definition item (obj : cjson) (key : string) : option cjson :=
  cJSON_GetObjectItemCaseSensitive obj (B key).

Definition json_str_dup (obj : cjson) (key : string) : option bytes :=
  match item obj key with Some (CString s) => Some s | _ => None end.

Definition json_int (obj : cjson) (key : string) (fallback : Z) : Z :=
  match item obj key with Some (CNumber d _) => to_int32 d | _ => fallback end.

Definition json_double (obj : cjson) (key : string) (fallback : spec_float) : spec_float :=
  match item obj key with Some (CNumber d _) => d | _ => fallback end.

(** The elements of an array member; none when it is missing or no array. *)
Definition elements (o : option cjson) : list cjson :=
  match o with Some (CArray l) => l | _ => [] end.

Definition parse_arguments (arr : option cjson) : list Argument :=
  map (fun el => {| arg_name := json_str_dup el "name"; arg_dataType := json_str_dup el "dataType";
                    arg_valueRank := json_int el "valueRank" (-1);
                    arg_description := json_str_dup el "description" |}) (elements arr).

(** An arrayDimensions entry: a whole number in [0, UINT32_MAX]. *)
Definition valid_dim (v : cjson) : bool :=
  match v with
  | CNumber d _ => negb (SFltb d (S754_zero false)) && negb (SFltb (double_of false (2 ^ 32 - 1) 0) d)
                   && is_integral d
  | _ => false
  end.

Definition id_text (id : option bytes) : bytes := default (B "(unknown)") id.

Fixpoint parse_dimensions (errLen : nat) (id : option bytes) (di : nat) (l : list cjson) : result (list Z) :=
  match l with
  | [] => Ok []
  | v :: r =>
      if negb (valid_dim v) then
        Err (snprintf errLen (B "invalid arrayDimensions entry at index " ++ fmt_u (Z.of_nat di)
               ++ B " for node '" ++ id_text id ++ B "'"))
      else try ds <- parse_dimensions errLen id (S di) r; Ok (to_uint32 (valuedouble_of v) :: ds)
  end.

Definition parse_eu_range (errLen : nat) (id : option bytes) (eu : option cjson)
    : result (option (spec_float * spec_float)) :=
  match eu with
  | Some (CObject m) =>
      match item (CObject m) "low", item (CObject m) "high" with
      | Some (CNumber lo _), Some (CNumber hi _) => Ok (Some (lo, hi))
      | _, _ => Err (snprintf errLen (B "euRange of node '" ++ id_text id ++ B "' needs numeric low and high"))
      end
  | _ => Ok None
  end.

Definition parse_variable (errLen : nat) (id : option bytes) (el : cjson) : result VariableFields :=
  try dims <- match item el "arrayDimensions" with
              | Some (CArray l) => try ds <- parse_dimensions errLen id 0 l; Ok (Some ds)
              | _ => Ok None
              end;
  try eu <- parse_eu_range errLen id (item el "euRange");
  Ok {| dataType := json_str_dup el "dataType"; valueRank := json_int el "valueRank" (-1);
        arrayDimensions := dims; accessLevel := parse_access_level (item el "accessLevel");
        initialValue := item el "initialValue"; euRange := eu |}.

Definition parse_node (errLen : nat) (el : cjson) : result FixtureNode :=
  let class := parse_node_class (json_str_dup el "nodeClass") in
  let id := json_str_dup el "nodeId" in
  try var <- match class with NODE_VARIABLE => parse_variable errLen id el | _ => Ok no_variable end;
  Ok {| nodeClass := class; nodeId := id; browseName := json_str_dup el "browseName";
        displayName := json_str_dup el "displayName"; nd_description := json_str_dup el "description";
        parentNodeId := json_str_dup el "parentNodeId"; referenceType := json_str_dup el "referenceType";
        typeDefinition := json_str_dup el "typeDefinition"; variable := var;
        method := match class with
                  | NODE_METHOD => {| methodBehavior := json_str_dup el "methodBehavior";
                      inputArgs := parse_arguments (item el "inputArguments");
                      outputArgs := parse_arguments (item el "outputArguments") |}
                  | _ => no_method
                  end |}.

Definition parse_behavior (el : cjson) : Behavior :=
  {| target := json_str_dup el "target"; kind := parse_behavior_kind (json_str_dup el "kind");
     initial := json_double el "initial" (S754_zero false);
     increment := json_double el "increment" (double_of false 1 0);
     minimum := json_double el "minimum" (S754_zero false);
     maximum := json_double el "maximum" (double_of false 100 0);
     intervalMs := json_int el "intervalMs" 250 |}.

Definition two_strings (a b : string) (el : cjson) : option bytes * option bytes :=
  (json_str_dup el a, json_str_dup el b).

Definition json_sub (obj : option cjson) (key : string) : option bytes :=
  match obj with Some o => json_str_dup o key | None => None end.

(** From the parsed document on. *)
Definition fixture_of_json (errLen : nat) (root : cjson) : result Fixture :=
  let srv := item root "server" in
  let ep := item root "endpoint" in
  try ns <- mapR (parse_node errLen) (elements (item root "nodes"));
  Ok {| schemaVersion := json_str_dup root "schemaVersion"; fx_id := json_str_dup root "id";
        fx_description := json_str_dup root "description";
        fx_applicationUri := json_sub srv "applicationUri"; productUri := json_sub srv "productUri";
        applicationName := json_sub srv "applicationName";
        port := match ep with Some o => json_int o "port" 4840 | None => 0 end;
        fx_endpointPath := json_sub ep "path";
        namespaces := map (two_strings "alias" "uri") (elements (item root "namespaces"));
        nodes := ns;
        behaviors := map parse_behavior (elements (item root "behaviors"));
        securityProfiles := map (two_strings "securityPolicy" "securityMode")
                              (elements (item root "securityProfiles"));
        users := map (two_strings "username" "password") (elements (item root "users")) |}.

(** [file]: the bytes read, or the text of [strerror(errno)]. *)
Definition fixture_load (errLen : nat) (path : bytes) (file : bytes + bytes) : result Fixture :=
  match file with
  | inr strerror => Err (snprintf errLen (B "cannot open fixture '" ++ path ++ B "': " ++ strerror))
  | inl [] => Err (snprintf errLen (B "fixture file '" ++ path ++ B "' is empty or unreadable"))
  | inl data =>
      let text := cstr data in
      match cJSON_Parse text with
      | None =>
          let ctx := match cJSON_ParseError text with
                     | Some e => snprintf 96 (firstn 80 e)
                     | None => B "(unknown)"
                     end in
          Err (snprintf errLen (B "JSON parse error in '" ++ path ++ B "' near: " ++ ctx))
      | Some root => fixture_of_json errLen root
      end
  end.
End Load.

(** * What a fixture file says *)

Section Described.
Context {cj : CJson}.

(** A text member; without one there is no text. *)
Definition text_of (el : cjson) (key : string) (v : option bytes) : Prop :=
  forall s, v = Some s <-> item el key = Some (CString s).

(** A text member of an object member. *)
Definition section_text (el : cjson) (sec key : string) (v : option bytes) : Prop :=
  forall s, v = Some s <-> exists o, item el sec = Some o /\ item o key = Some (CString s).

(** A number member, or the fallback. *)
Definition double_member (el : cjson) (key : string) (fallback v : spec_float) : Prop :=
  (forall d i, item el key = Some (CNumber d i) -> v = d) /\
  ((forall d i, item el key <> Some (CNumber d i)) -> v = fallback).

Definition int_member (el : cjson) (key : string) (fallback v : Z) : Prop :=
  - 2 ^ 31 <= v < 2 ^ 31 /\
  (forall d i z, item el key = Some (CNumber d i) -> trunc d = Some z -> - 2 ^ 31 <= z < 2 ^ 31 -> v = z) /\
  ((forall d i, item el key <> Some (CNumber d i)) -> v = fallback).

(** The elements of an array member, each described by [P], in order. *)
Definition listed {A} (P : cjson -> A -> Prop) (el : cjson) (key : string) (xs : list A) : Prop :=
  (forall l, item el key = Some (CArray l) -> Forall2 P l xs) /\
  ((forall l, item el key <> Some (CArray l)) -> xs = []).

(** A text member that names one of [table]. *)
Definition named {A} (el : cjson) (key : string) (table : list (string * A)) (fallback v : A) : Prop :=
  (forall name x, In (name, x) table -> item el key = Some (CString (B name)) -> v = x) /\
  ((forall name x, In (name, x) table -> item el key <> Some (CString (B name))) -> v = fallback).

(** A dimension is the number of the file. *)
Definition exact_dim (v : cjson) (z : Z) : Prop :=
  0 <= z < 2 ^ 32 /\
  match v with CNumber d _ => valid_binary 53 1024 d = true -> trunc d = Some z | _ => False end.

Definition dimensions_of (el : cjson) (v : option (list Z)) : Prop :=
  (forall l, item el "arrayDimensions" = Some (CArray l) -> exists ds, v = Some ds /\ Forall2 exact_dim l ds) /\
  ((forall l, item el "arrayDimensions" <> Some (CArray l)) -> v = None).

(** The AccessLevel bits of Part 3 the fixtures use; CurrentRead alone without an array. *)
Definition part3_access : list (string * Z) :=
  [("CurrentRead", 0); ("CurrentWrite", 1); ("HistoryRead", 2); ("StatusWrite", 5)]%string.

Definition access_of (el : cjson) (v : Z) : Prop :=
  0 <= v < 256 /\
  (forall l name bit, item el "accessLevel" = Some (CArray l) -> In (name, bit) part3_access ->
     (Z.testbit v bit = true <-> In (CString (B name)) l)) /\
  ((forall l, item el "accessLevel" <> Some (CArray l)) -> v = 1).

Definition eu_range_of (el : cjson) (v : option (spec_float * spec_float)) : Prop :=
  forall lo hi, v = Some (lo, hi) <-> exists m i j, item el "euRange" = Some (CObject m) /\
    item (CObject m) "low" = Some (CNumber lo i) /\ item (CObject m) "high" = Some (CNumber hi j).

Record argument_of (el : cjson) (a : Argument) : Prop := {
  ao_name : text_of el "name" (arg_name a);
  ao_type : text_of el "dataType" (arg_dataType a);
  ao_rank : int_member el "valueRank" (-1) (arg_valueRank a);
  ao_description : text_of el "description" (arg_description a)
}.

Record variable_of (el : cjson) (v : VariableFields) : Prop := {
  vo_type : text_of el "dataType" (dataType v);
  vo_rank : int_member el "valueRank" (-1) (valueRank v);
  vo_dims : dimensions_of el (arrayDimensions v);
  vo_access : access_of el (accessLevel v);
  vo_value : initialValue v = item el "initialValue";
  vo_range : eu_range_of el (euRange v)
}.

Record method_of (el : cjson) (m : MethodFields) : Prop := {
  mo_behavior : text_of el "methodBehavior" (methodBehavior m);
  mo_inputs : listed argument_of el "inputArguments" (inputArgs m);
  mo_outputs : listed argument_of el "outputArguments" (outputArgs m)
}.

Record node_of (el : cjson) (nd : FixtureNode) : Prop := {
  no_class : named el "nodeClass" [("Variable", NODE_VARIABLE); ("Method", NODE_METHOD)]%string NODE_OBJECT (nodeClass nd);
  no_id : text_of el "nodeId" (nodeId nd);
  no_browse : text_of el "browseName" (browseName nd);
  no_display : text_of el "displayName" (displayName nd);
  no_description : text_of el "description" (nd_description nd);
  no_parent : text_of el "parentNodeId" (parentNodeId nd);
  no_reference : text_of el "referenceType" (referenceType nd);
  no_typedef : text_of el "typeDefinition" (typeDefinition nd);
  no_variable_fields : match nodeClass nd with NODE_VARIABLE => variable_of el (variable nd) | _ => variable nd = no_variable end;
  no_method_fields : match nodeClass nd with NODE_METHOD => method_of el (method nd) | _ => method nd = no_method end
}.

Definition behavior_names : list (string * BehaviorKind) :=
  [("counter", BEH_COUNTER); ("toggle", BEH_TOGGLE); ("ramp", BEH_RAMP); ("static", BEH_STATIC);
   ("timestamp", BEH_TIMESTAMP); ("status-sequence", BEH_STATUS_SEQUENCE); ("fixed-status", BEH_FIXED_STATUS)]%string.

Record behavior_of (el : cjson) (b : Behavior) : Prop := {
  bo_target : text_of el "target" (target b);
  bo_kind : named el "kind" behavior_names BEH_STATIC (kind b);
  bo_initial : double_member el "initial" (S754_zero false) (initial b);
  bo_increment : double_member el "increment" (double_of false 1 0) (increment b);
  bo_minimum : double_member el "minimum" (S754_zero false) (minimum b);
  bo_maximum : double_member el "maximum" (double_of false 100 0) (maximum b);
  bo_interval : int_member el "intervalMs" 250 (intervalMs b)
}.

Definition texts_of (a b : string) (el : cjson) (p : option bytes * option bytes) : Prop :=
  text_of el a (fst p) /\ text_of el b (snd p).

Record fixture_of (root : cjson) (f : Fixture) : Prop := {
  fo_version : text_of root "schemaVersion" (schemaVersion f);
  fo_id : text_of root "id" (fx_id f);
  fo_description : text_of root "description" (fx_description f);
  fo_uri : section_text root "server" "applicationUri" (fx_applicationUri f);
  fo_product : section_text root "server" "productUri" (productUri f);
  fo_name : section_text root "server" "applicationName" (applicationName f);
  fo_path : section_text root "endpoint" "path" (fx_endpointPath f);
  fo_port : match item root "endpoint" with Some ep => int_member ep "port" 4840 (port f) | None => port f = 0 end;
  fo_namespaces : listed (texts_of "alias" "uri") root "namespaces" (namespaces f);
  fo_nodes : listed node_of root "nodes" (nodes f);
  fo_behaviors : listed behavior_of root "behaviors" (behaviors f);
  fo_profiles : listed (texts_of "securityPolicy" "securityMode") root "securityProfiles" (securityProfiles f);
  fo_users : listed (texts_of "username" "password") root "users" (users f)
}.
End Described.

(** * Lemmas *)

Lemma digits2_bound m : Zpos m < 2 ^ Zpos (digits2_pos m).
Proof.
  induction m as [m IH|m IH|]; cbn [digits2_pos]; [| |reflexivity];
    rewrite Pos2Z.inj_succ, Z.pow_succ_r by lia; lia.
Qed.

(** A double in the normal form of the format. *)
Lemma canonical_digits s m e : valid_binary 53 1024 (S754_finite s m e) = true -> Zpos m < 2 ^ 53.
Proof.
  cbn [valid_binary]. unfold bounded, canonical_mantissa, fexp, emin. intros H. zbool.
  pose proof (digits2_bound m). eapply Z.lt_le_trans; [eassumption|]. apply Z.pow_le_mono_r; lia.
Qed.

Lemma max_dim : double_of false (2 ^ 32 - 1) 0 = S754_finite false 9007199252643840 (-21).
Proof. vm_compute. reflexivity. Qed.

Section Lemmas.
Context {cj : CJson} {cpu : Cpu}.

Lemma dim_exact d i : valid_binary 53 1024 d = true -> valid_dim (CNumber d i) = true ->
  trunc d = Some (to_uint32 d).
Proof.
  intros Hv Hd. cbn [valid_dim] in Hd. rewrite max_dim in Hd.
  assert (exists z, trunc d = Some z /\ 0 <= z <= 2 ^ 32 - 1) as (z & Ht & Hz).
  { destruct d as [s|s| |s m e]; [exists 0; cbn; split; [reflexivity|lia]|
      destruct s; discriminate Hd|discriminate Hd|].
    destruct s; [discriminate Hd|]. apply andb_prop in Hd as [Hd _]. cbn [SFltb SFcompare] in Hd.
    change (SFltb (S754_finite false m e) (S754_zero false)) with false in Hd. cbn [negb andb] in Hd.
    unfold SFltb, SFcompare in Hd. pose proof (canonical_digits _ _ _ Hv) as Hm. unfold trunc.
    destruct (Z.compare_spec (-21) e) as [<-|He|He]; [|discriminate Hd|].
    - cbn [Z.leb]. change (0 <=? -21) with false. change (- -21) with 21. cbv iota. eexists. split; [reflexivity|].
      change (PosDef.Pos.compare_cont Eq 9007199252643840 m) with (Pos.compare 9007199252643840 m) in Hd.
      assert (Zpos m <= 9007199252643840) as Hle.
      { change 9007199252643840 with (Zpos 9007199252643840). apply Pos2Z.pos_le_pos.
        apply Pos.le_nlt. intros Hlt. apply Pos.compare_lt_iff in Hlt. rewrite Hlt in Hd. discriminate Hd. }
      clear - Hle. split; [apply Z.div_pos; lia|]. apply Z.lt_succ_r, Z.div_lt_upper_bound; lia.
    - destruct (Z.leb_spec 0 e); [lia|]. eexists. split; [reflexivity|]. split; [apply Z.div_pos; lia|].
      apply Z.lt_succ_r, Z.div_lt_upper_bound; [lia|].
      assert (2 ^ 22 <= 2 ^ (- e)) by (apply Z.pow_le_mono_r; lia). nia. }
  unfold to_uint32, cast_int. rewrite Ht. destruct (Z.leb_spec 0 z), (Z.leb_spec z (2 ^ 32 - 1)); reflexivity || lia.
Qed.

Lemma parse_dimensions_exact errLen id l : forall di ds, parse_dimensions errLen id di l = Ok ds ->
  Forall2 exact_dim l ds.
Proof.
  induction l as [|v l IH]; intros di ds H; cbn [parse_dimensions] in H.
  - injection H as <-. constructor.
  - destruct (valid_dim v) eqn:Ev; cbn [negb] in H; [|discriminate]. unfold rbind in H.
    destruct (parse_dimensions errLen id (S di) l) as [ds'|] eqn:E; [|discriminate]. injection H as <-.
    constructor; [|now apply IH in E]. destruct v as [| |d i| | |]; try discriminate Ev. split.
    + cbn [valuedouble_of]. pose proof (cast_int_range 0 (2 ^ 32 - 1) d ltac:(lia)). unfold to_uint32. lia.
    + intros Hd. cbn [valuedouble_of]. now apply (dim_exact d i).
Qed.

Lemma json_text el key : text_of el key (json_str_dup el key).
Proof.
  intros s. unfold json_str_dup. destruct (item el key) as [v|]; [|easy].
  destruct v; split; intros H; try discriminate H; try (injection H as <-; reflexivity).
Qed.

Lemma json_sub_text el sec key : section_text el sec key (json_sub (item el sec) key).
Proof.
  intros s. unfold json_sub. destruct (item el sec) as [o|]; [|split; [discriminate|intros (? & [=] & _)]].
  rewrite (json_text o key s). split; [now exists o|]. intros (x & [= <-] & H). exact H.
Qed.

Lemma json_double_member el key fb : double_member el key fb (json_double el key fb).
Proof.
  unfold json_double. split.
  - intros d i ->. reflexivity.
  - intros H. destruct (item el key) as [v|]; [|reflexivity]. destruct v; try reflexivity. now destruct (H valuedouble valueint).
Qed.

Lemma json_int_member el key fb : - 2 ^ 31 <= fb < 2 ^ 31 -> int_member el key fb (json_int el key fb).
Proof.
  intros Hf. unfold json_int. split; [|split].
  - destruct (item el key) as [v|]; [|exact Hf]. destruct v; try exact Hf.
    pose proof (cast_int_range (- 2 ^ 31) (2 ^ 31 - 1) valuedouble ltac:(lia)). unfold to_int32. lia.
  - intros d i z -> Ht Hz. unfold to_int32, cast_int. rewrite Ht.
    destruct (Z.leb_spec (- 2 ^ 31) z), (Z.leb_spec z (2 ^ 31 - 1)); reflexivity || lia.
  - intros H. destruct (item el key) as [v|]; [|reflexivity]. destruct v; try reflexivity. now destruct (H valuedouble valueint).
Qed.

Lemma listed_elements {A} (P : cjson -> A -> Prop) el key xs :
  Forall2 P (elements (item el key)) xs -> listed P el key xs.
Proof.
  intros H. split; [intros l E; now rewrite E in H|]. intros Hn.
  destruct (item el key) as [v|]; [|now inversion H]. destruct v; try now inversion H. now destruct (Hn items).
Qed.

Lemma listed_map {A} (P : cjson -> A -> Prop) (f : cjson -> A) el key :
  (forall x, P x (f x)) -> listed P el key (map f (elements (item el key))).
Proof. intros H. apply listed_elements. induction (elements (item el key)); constructor; auto. Qed.

Lemma two_strings_texts a b el : texts_of a b el (two_strings a b el).
Proof. split; apply json_text. Qed.

Lemma parse_arguments_listed el key : listed argument_of el key (parse_arguments (item el key)).
Proof. apply listed_map. intros x. split; (apply json_text || apply json_int_member; lia). Qed.

(** A table looked up by [strcmp], one name after the other. *)
Lemma named_find {A} el key (table : list (string * A)) (fb : A) v :
  NoDup (map (fun p => B (fst p)) table) ->
  v = match json_str_dup el key with
      | Some s => match find (fun p => streq s (B (fst p))) table with Some p => snd p | None => fb end
      | None => fb
      end -> named el key table fb v.
Proof.
  intros Hd ->. split.
  - intros name x Hi Hs. apply json_text in Hs. rewrite Hs. induction table as [|[n y] r IH]; [destruct Hi|].
    cbn [map fst] in Hd. inversion_clear Hd as [|? ? Hn Hr]. cbn [find fst]. destruct Hi as [[= -> ->]|Hi].
    + rewrite streq_refl. reflexivity.
    + destruct (streq (B name) (B n)) eqn:E; [|now apply IH]. apply streq_eq in E. exfalso. apply Hn. rewrite <- E.
      exact (in_map (fun p => B (fst p)) _ _ Hi).
  - intros Hn. destruct (json_str_dup el key) as [s|] eqn:Es; [|reflexivity].
    destruct (find _ table) as [[n y]|] eqn:E; [|reflexivity]. apply find_some in E as [Hi E]. cbn [fst] in E.
    apply streq_eq in E. subst s. apply json_text in Es. now destruct (Hn n y Hi).
Qed.

Lemma access_level_byte arr : 0 <= parse_access_level arr < 256.
Proof.
  unfold parse_access_level. destruct arr as [v|]; [|lia]. destruct v; try lia.
  assert (forall l m, 0 <= m < 256 -> 0 <= fold_left (fun mask el => Z.lor mask (access_bit el)) l m < 256) as H.
  { induction l as [|el l IH]; intros m Hm; [exact Hm|]. cbn [fold_left]. apply IH.
    assert (0 <= access_bit el < 256) as Hb.
    { unfold access_bit. destruct el; try lia. destruct (find _ access_bits) as [p|] eqn:E; [|lia].
      apply find_some in E as [E _]. repeat (destruct E as [<-|E]; [cbn; lia|]). destruct E. }
    change 256 with (2 ^ 8) in *. split; [apply Z.lor_nonneg; lia|].
    destruct (Z.eq_dec (Z.lor m (access_bit el)) 0) as [->|Hn]; [lia|].
    apply Z.log2_lt_pow2; [pose proof (Z.lor_nonneg m (access_bit el)); lia|].
    rewrite Z.log2_lor by lia. apply Z.max_lub_lt;
      match goal with |- Z.log2 ?x < 8 => destruct (Z.eq_dec x 0) as [->|]; [reflexivity|]; apply Z.log2_lt_pow2; lia end. }
  apply H. lia.
Qed.

(** The bits of a list of names are those of its elements. *)
Lemma access_fold bit l : forall m, Z.testbit (fold_left (fun mask el => Z.lor mask (access_bit el)) l m) bit
  = Z.testbit m bit || existsb (fun el => Z.testbit (access_bit el) bit) l.
Proof.
  induction l as [|el l IH]; intros m; cbn [fold_left existsb]; [now rewrite orb_false_r|].
  rewrite IH, Z.lor_spec, orb_assoc. reflexivity.
Qed.

Lemma access_bit_name name bit el : In (name, bit) part3_access ->
  (Z.testbit (access_bit el) bit = true <-> el = CString (B name)).
Proof.
  intros Hi. split.
  - intros H. destruct el; cbn [access_bit] in H; try (rewrite Z.testbit_0_l in H; discriminate H).
    destruct (find _ access_bits) as [p|] eqn:E; [|rewrite Z.testbit_0_l in H; discriminate H].
    apply find_some in E as [Hp E]. apply streq_eq in E. subst valuestring. f_equal.
    repeat (destruct Hi as [[= <- <-]|Hi];
      [repeat (destruct Hp as [<-|Hp]; [first [reflexivity|discriminate H]|]); destruct Hp|]). destruct Hi.
  - intros ->. repeat (destruct Hi as [[= <- <-]|Hi]; [reflexivity|]). destruct Hi.
Qed.

Lemma parse_access_of el : access_of el (parse_access_level (item el "accessLevel")).
Proof.
  split; [apply access_level_byte|]. split.
  - intros l name bit -> Hi. cbn [parse_access_level]. rewrite access_fold, Z.testbit_0_l, orb_false_l, existsb_exists.
    split; [intros (x & Hx & Hb); apply (access_bit_name name) in Hb; [now subst|exact Hi]|].
    intros H. eexists. split; [exact H|]. now apply (access_bit_name name).
  - intros H. unfold parse_access_level. destruct (item el "accessLevel") as [v|]; [|reflexivity].
    destruct v; try reflexivity. now destruct (H items).
Qed.

Lemma parse_eu_range_of errLen id el eu : parse_eu_range errLen id (item el "euRange") = Ok eu -> eu_range_of el eu.
Proof.
  unfold parse_eu_range, eu_range_of. intros H lo hi. destruct (item el "euRange") as [[| | | | |m]|];
    try (injection H as <-; split; [discriminate|]; now intros (? & ? & ? & [=] & _)).
  destruct (item (CObject m) "low") as [[| |l i| | |]|] eqn:El; try discriminate H.
  destruct (item (CObject m) "high") as [[| |h j| | |]|] eqn:Eh; try discriminate H. injection H as <-. split.
  - intros [= <- <-]. exists m, i, j. auto.
  - intros (m' & i' & j' & [= <-] & H1 & H2). congruence.
Qed.

Lemma parse_variable_of errLen id el v : parse_variable errLen id el = Ok v -> variable_of el v.
Proof.
  unfold parse_variable, rbind. destruct (match item el "arrayDimensions" with Some (CArray l) => _ | _ => _ end)
    as [dims|] eqn:Ed; [|discriminate]. destruct (parse_eu_range _ _ _) as [eu|] eqn:Ee; [|discriminate].
  intros [= <-]. split; cbn [dataType valueRank arrayDimensions accessLevel initialValue euRange].
  - apply json_text.
  - apply json_int_member. lia.
  - split.
    + intros l E. rewrite E in Ed. destruct (parse_dimensions errLen id 0 l) as [x|] eqn:Ep; [|discriminate Ed].
      injection Ed as <-. exists x. split; [reflexivity|]. now apply parse_dimensions_exact in Ep.
    + intros Hn. destruct (item el "arrayDimensions") as [w|]; [|now injection Ed as <-].
      destruct w; try (now injection Ed as <-). now destruct (Hn items).
  - apply parse_access_of.
  - reflexivity.
  - now apply parse_eu_range_of in Ee.
Qed.

Lemma parse_class_named el : named el "nodeClass" [("Variable", NODE_VARIABLE); ("Method", NODE_METHOD)]%string NODE_OBJECT
  (parse_node_class (json_str_dup el "nodeClass")).
Proof.
  apply named_find; [repeat constructor; cbn; intuition discriminate|]. unfold parse_node_class.
  destruct (json_str_dup el "nodeClass") as [s|]; [|reflexivity]. cbn [find fst snd].
  destruct (streq s (B "Variable")), (streq s (B "Method")); reflexivity.
Qed.

Lemma parse_node_of errLen el nd : parse_node errLen el = Ok nd -> node_of el nd.
Proof.
  unfold parse_node. pose proof (parse_class_named el) as Hc. revert Hc.
  set (class := parse_node_class _). set (id := json_str_dup el "nodeId"). intros Hc H. unfold rbind in H.
  destruct (match class with NODE_VARIABLE => parse_variable errLen id el | _ => Ok no_variable end)
    as [var|] eqn:Ev; [|discriminate]. injection H as <-.
  split; cbn [nodeClass nodeId browseName displayName nd_description parentNodeId referenceType typeDefinition
              variable method]; try apply json_text; [exact Hc| |].
  - destruct class; [now injection Ev as <-|now apply parse_variable_of in Ev|now injection Ev as <-].
  - destruct class; [reflexivity|reflexivity|]. split; [apply json_text|apply parse_arguments_listed|apply parse_arguments_listed].
Qed.

Lemma parse_behavior_of el : behavior_of el (parse_behavior el).
Proof.
  unfold parse_behavior. split; cbn [target kind initial increment minimum maximum intervalMs]; try apply json_text;
    try apply json_double_member; [|apply json_int_member; lia].
  apply named_find; [repeat constructor; cbn; intuition discriminate|]. unfold parse_behavior_kind, behavior_names.
  destruct (json_str_dup el "kind") as [s|]; [|reflexivity]. cbn [find fst snd].
  repeat match goal with |- context [streq s ?n] => destruct (streq s n); [reflexivity|] end. reflexivity.
Qed.
Lemma mapR_Forall2 {A C} (f : A -> result C) (P : A -> C -> Prop) l : forall r,
  (forall x y, f x = Ok y -> P x y) -> mapR f l = Ok r -> Forall2 P l r.
Proof.
  induction l as [|x l IH]; cbn [mapR]; intros r Hf H; [injection H as <-; constructor|].
  unfold rbind in H. destruct (f x) eqn:E; [|discriminate]. destruct (mapR f l) eqn:E'; [|discriminate].
  injection H as <-. constructor; auto.
Qed.
End Lemmas.

(** * Theorem *)


(** A document with one matrix Variable. *)
Definition sample_node : cjson := CObject
  [(B "nodeClass", CString (B "Variable")); (B "nodeId", CString (B "ns=1;s=Matrix"));
   (B "dataType", CString (B "Int32")); (B "valueRank", CNumber (double_of false 2 0) 2);
   (B "arrayDimensions", CArray [CNumber (double_of false 2 0) 2; CNumber (double_of false 3 0) 3]);
   (B "accessLevel", CArray [CString (B "CurrentRead"); CString (B "CurrentWrite")])].

Definition sample_cjson : CJson :=
  {| cJSON_Parse := fun _ => Some (CObject [(B "nodes", CArray [sample_node])]);
     cJSON_ParseError := cJSON_ParseError; cJSON_GetObjectItemCaseSensitive := cJSON_GetObjectItemCaseSensitive;
     cJSON_PrintUnformatted := cJSON_PrintUnformatted; cJSON_GetObjectItem := cJSON_GetObjectItem |}.


(** The masks of HistoryWrite, SemanticChange and TimestampWrite are not those of
    Part 3 (bits 3, 4 and 6), which the server hands to the stack. *)
Lemma access_level_masks :
  map (fun s => parse_access_level (Some (CArray [CString (B s)])))
    ["HistoryWrite"; "SemanticChange"; "TimestampWrite"]%string = [16; 64; 128].
Proof. reflexivity. Qed.

(** Without an [endpoint] object the port stays 0: the default 4840 only applies
    inside one. *)
Lemma port_without_endpoint :
  match fixture_of_json (cj := sample_cjson) 512 (CObject []) with Ok f => port f = 0 | Err _ => False end.
Proof. reflexivity. Qed.
