(* ===== verification/ServerValues.v ===== *)
(** server.c: from the fixture to the address space.  Initial values
    ([build_variant_scalar], [build_variant]), method callbacks and the periodic
    behaviours. *)

From Stdlib Require Import String Ascii ZArith Bool List Lia SpecFloat.
Import ListNotations.
From S2P Require Import Prelude CLib Json Float UaTypes RefStack Base64 Output CJson Values.
From S2P Require Import RoundTrip NodeIds Fixture.

(** * parse_datetime *)

(** The integers of [%d], [<sep>%d], ...: as many as convert. *)
Fixpoint scan_ints (seps : list Z) (s : bytes) : list Z :=
  match scan_d s with
  | None => []
  | Some (v, r) =>
      v :: match seps with
           | [] => []
           | c :: cs => match scan_lit c r with Some r' => scan_ints cs r' | None => [] end
           end
  end.

(** [mktime] in the time zone of the process: seconds since the epoch of local
    calendar fields. *)
Class LocalTime := { mktime : Z -> Z -> Z -> Z -> Z -> Z -> Z }.

Section ServerValues.
Context {cpu : Cpu} {tz : LocalTime}.

Definition parse_datetime (s : bytes) : Z :=
  match scan_ints [45; 45; 84; 58; 58] s with
  | Y :: M :: D :: rest =>
      let epoch := mktime (s32 (Y - 1900) + 1900) (s32 (M - 1) + 1) D
                     (nth 0 rest 0) (nth 1 rest 0) (nth 2 rest 0) in
      s64 (epoch * UA_DATETIME_SEC + UNIX_EPOCH_SEC * UA_DATETIME_SEC)
  | _ => 0
  end.

(** * build_variant *)

Definition string_or_empty (jv : cjson) : bytes := match jv with CString s => s | _ => [] end.

(** The branches of the [if] chain. *)
Definition scalar_of_json (type : ua_type) (jv : cjson) : option ua_value :=
  match type with
  | TBoolean => Some (VBoolean (cJSON_IsTrue jv))
  | TSByte => Some (VSByte (s8 (valueint_of jv)))
  | TByte => Some (VByte (u8 (valueint_of jv)))
  | TInt16 => Some (VInt16 (s16 (valueint_of jv)))
  | TUInt16 => Some (VUInt16 (u16 (valueint_of jv)))
  | TInt32 => Some (VInt32 (s32 (valueint_of jv)))
  | TUInt32 => Some (VUInt32 (to_uint32 (valuedouble_of jv)))
  | TInt64 => Some (VInt64 (match jv with CString s => sval (strtol 10 s)
                            | _ => to_int64 (valuedouble_of jv) end))
  | TUInt64 => Some (VUInt64 (match jv with CString s => sval (strtoul 10 s)
                              | _ => to_uint64 (valuedouble_of jv) end))
  | TFloat => Some (VFloat (to_float32 (valuedouble_of jv)))
  | TDouble => Some (VDouble (valuedouble_of jv))
  | TString => Some (VString (Some (string_or_empty jv)))
  | TXmlElement => Some (VXmlElement (Some (string_or_empty jv)))
  | TDateTime => Some (VDateTime (parse_datetime (string_or_empty jv)))
  | TGuid => Some (VGuid (server_parse_guid (string_or_empty jv)))
  | TByteString => Some (VByteString (match string_or_empty jv with
                                      | [] => None
                                      | s => server_b64_decode s
                                      end))
  | TNodeId => Some (VNodeId (match jv with CString s => server_parse_nodeid s 0 | _ => UA_NODEID_NULL end))
  | TQualifiedName => let '(ns, name) := parse_qualified_name (Some (string_or_empty jv)) in
                      Some (VQualifiedName ns name)
  | TLocalizedText => let '(loc, text) := parse_localized_text (Some (string_or_empty jv)) in
                      Some (VLocalizedText loc text)
  | TStatusCode => Some (VStatusCode (to_uint32 (valuedouble_of jv)))
  | _ => None
  end.

(** The names of the branches: [server_types] without ExpandedNodeId. *)
Definition scalar_types : list (bytes * ua_type) :=
  filter (fun p => negb (type_eqb (snd p) TExpandedNodeId)) server_types.

Definition build_variant_scalar (jv : option cjson) (dataType : option bytes) : ua_variant :=
  match jv, dataType with
  | Some v, Some name =>
      match find (fun p => streq name (fst p)) scalar_types with
      | Some p => match scalar_of_json (snd p) v with Some x => VtScalar x | None => VtEmpty end
      | None => VtEmpty
      end
  | _, _ => VtEmpty
  end.

(** [UA_init] of a value of the type. *)
Definition init_value (t : ua_type) : ua_value :=
  match t with
  | TBoolean => VBoolean false | TSByte => VSByte 0 | TByte => VByte 0 | TInt16 => VInt16 0
  | TUInt16 => VUInt16 0 | TInt32 => VInt32 0 | TUInt32 => VUInt32 0 | TInt64 => VInt64 0
  | TUInt64 => VUInt64 0 | TFloat => VFloat (S754_zero false) | TDouble => VDouble (S754_zero false)
  | TString => VString None | TDateTime => VDateTime 0 | TGuid => VGuid zero_guid
  | TByteString => VByteString None | TXmlElement => VXmlElement None
  | TNodeId => VNodeId UA_NODEID_NULL
  | TExpandedNodeId => VExpandedNodeId {| en_nodeId := UA_NODEID_NULL; en_namespaceUri := None; en_serverIndex := 0 |}
  | TStatusCode => VStatusCode 0 | TQualifiedName => VQualifiedName 0 None
  | TLocalizedText => VLocalizedText None None | TExtensionObject => VExtensionObject ExtNoBody
  | TDataValue => VDataValue (DataValue None None None None None None) | TVariant => VVariant VtEmpty
  | TDiagnosticInfo => VDiagnosticInfo empty_diagnostic | TStructure i => VStructure i
  end.

(** One slot of the array: the bytes of the scalar are copied as a value of type
    [dt], whatever type the scalar has. *)
Definition array_slot (dt : ua_type) (elem : ua_variant) : ua_value :=
  match elem with VtScalar x => x | _ => init_value dt end.

Definition build_variant (jv : option cjson) (dataType : option bytes) (valueRank : Z) : ua_variant :=
  match jv with
  | None => VtEmpty
  | Some v =>
      match v with
      | CArray l =>
          if valueRank =? -1 then build_variant_scalar jv dataType
          else
            let dt := data_type_for_name dataType in
            VtArray dt (map (fun el => array_slot dt (build_variant_scalar (Some el) dataType)) l) []
      | _ => build_variant_scalar jv dataType
      end
  end.

(** * Methods *)

(** The status and, when it is Good, the outputs written; [None]: a signed
    overflow, which C leaves undefined. *)
Definition method_result : Type := option (Z * list ua_variant).

Definition invalid : method_result := Some (UA_STATUSCODE_BADINVALIDARGUMENT, []).

Definition int32_result (z : Z) (k : Z -> method_result) : method_result :=
  if (- 2 ^ 31 <=? z) && (z <? 2 ^ 31) then k z else None.

Definition method_add_cb (input : list ua_variant) (outputSize : nat) : method_result :=
  match input with
  | i0 :: i1 :: _ =>
      if Nat.ltb outputSize 1 then invalid
      else match scalar_of TInt32 i0, scalar_of TInt32 i1 with
           | Some (VInt32 a), Some (VInt32 b) =>
               int32_result (a + b) (fun r => Some (UA_STATUSCODE_GOOD, [VtScalar (VInt32 r)]))
           | _, _ => invalid
           end
  | _ => invalid
  end.

Definition method_multiply_cb (input : list ua_variant) (outputSize : nat) : method_result :=
  match input with
  | i0 :: i1 :: _ =>
      if Nat.ltb outputSize 1 then invalid
      else match scalar_of TDouble i0, scalar_of TDouble i1 with
           | Some (VDouble a), Some (VDouble b) =>
               Some (UA_STATUSCODE_GOOD, [VtScalar (VDouble (SFmul 53 1024 a b))])
           | _, _ => invalid
           end
  | _ => invalid
  end.

Definition method_echo_cb (input : list ua_variant) (outputSize : nat) : method_result :=
  match input with
  | i0 :: _ =>
      if Nat.ltb outputSize 1 then invalid
      else match scalar_of TString i0 with
           | Some (VString s) => Some (UA_STATUSCODE_GOOD, [VtScalar (VString s)])
           | _ => invalid
           end
  | [] => invalid
  end.

Definition method_noargs_cb (input : list ua_variant) (outputSize : nat) : method_result :=
  if Nat.ltb outputSize 1 then invalid
  else Some (UA_STATUSCODE_GOOD, [VtScalar (VBoolean true)]).

Definition method_multipleoutputs_cb (input : list ua_variant) (outputSize : nat) : method_result :=
  match input with
  | i0 :: _ =>
      if Nat.ltb outputSize 2 then invalid
      else match scalar_of TInt32 i0 with
           | Some (VInt32 inp) =>
               int32_result (inp * 2) (fun doubled =>
                 Some (UA_STATUSCODE_GOOD,
                       [VtScalar (VInt32 doubled); VtScalar (VString (Some (snprintf 32 (fmt_d inp))))]))
           | _ => invalid
           end
  | [] => invalid
  end.

Definition method_fail_cb (input : list ua_variant) (outputSize : nat) : method_result :=
  Some (UA_STATUSCODE_BADINTERNALERROR, []).

Definition method_callbacks : list (bytes * (list ua_variant -> nat -> method_result)) :=
  [(B "Add", method_add_cb); (B "Multiply", method_multiply_cb); (B "Echo", method_echo_cb);
   (B "NoArguments", method_noargs_cb); (B "MultipleOutputs", method_multipleoutputs_cb);
   (B "Fail", method_fail_cb)].

Definition method_callback_for (behavior : option bytes)
    : option (list ua_variant -> nat -> method_result) :=
  match behavior with
  | None => None
  | Some b => option_map snd (find (fun p => streq b (fst p)) method_callbacks)
  end.

(** * Behaviours *)

Record BehaviorCtx := {
  ctx_kind : BehaviorKind; counter : Z; toggle : bool;
  rampVal : spec_float; rampInc : spec_float; rampMin : spec_float; rampMax : spec_float }.

Definition behavior_ctx (beh : Behavior) : BehaviorCtx :=
  {| ctx_kind := kind beh; counter := to_int64 (initial beh); toggle := false;
     rampVal := initial beh; rampInc := increment beh; rampMin := minimum beh; rampMax := maximum beh |}.

(** The new context and the value written, if one is. *)
Definition behavior_callback (ctx : BehaviorCtx) : BehaviorCtx * option ua_variant :=
  match ctx_kind ctx with
  | BEH_COUNTER =>
      ({| ctx_kind := ctx_kind ctx; counter := s64 (counter ctx + 1); toggle := toggle ctx;
          rampVal := rampVal ctx; rampInc := rampInc ctx; rampMin := rampMin ctx; rampMax := rampMax ctx |},
       Some (VtScalar (VInt64 (counter ctx))))
  | BEH_TOGGLE =>
      ({| ctx_kind := ctx_kind ctx; counter := counter ctx; toggle := negb (toggle ctx);
          rampVal := rampVal ctx; rampInc := rampInc ctx; rampMin := rampMin ctx; rampMax := rampMax ctx |},
       Some (VtScalar (VBoolean (negb (toggle ctx)))))
  | BEH_RAMP =>
      let next := SFadd 53 1024 (rampVal ctx) (rampInc ctx) in
      ({| ctx_kind := ctx_kind ctx; counter := counter ctx; toggle := toggle ctx;
          rampVal := if SFltb (rampMax ctx) next then rampMin ctx else next;
          rampInc := rampInc ctx; rampMin := rampMin ctx; rampMax := rampMax ctx |},
       Some (VtScalar (VDouble (rampVal ctx))))
  | _ => (ctx, None)
  end.

(** The values of the first [n] ticks. *)
Fixpoint behavior_run (n : nat) (ctx : BehaviorCtx) : list (option ua_variant) :=
  match n with
  | O => []
  | S k => let '(ctx', v) := behavior_callback ctx in v :: behavior_run k ctx'
  end.
End ServerValues.

(** * Lemmas *)

Section Lemmas.
Context {cpu : Cpu} {tz : LocalTime}.

Lemma in_range_intro lo hi z : lo <= z <= hi -> in_range lo hi z = true.
Proof. intros H. unfold in_range. apply andb_true_intro; split; apply Z.leb_le; lia. Qed.

Lemma guid_range s : typed_value (VGuid (server_parse_guid s)) = true.
Proof.
  unfold server_parse_guid, parse_guid_string. cbn [typed_value]. unfold obind.
  destruct (scan_guid s) as [[[[d1 d2] d3] b]|] eqn:E; [|reflexivity].
  assert (length b = 8%nat) as Hb
    by (unfold scan_guid, obind in E; repeat (case_hyp E; try discriminate E); now inversion E).
  cbn [default]. unfold range_nodeid. cbn [namespaceIndex identifier data1 data2 data3 data4].
  rewrite (in_range_u 32), !(in_range_u 16), length_map, Hb by lia. cbn.
  apply forallb_forall. intros x Hx. apply in_map_iff in Hx as (y & <- & _). apply u8_is_byte.
Qed.

Lemma server_ident_range ns id : 0 <= ns < 65536 -> range_nodeid (server_ident ns id) = true.
Proof.
  intros H. unfold server_ident, range_nodeid. destruct (strip (B "s=") id); cbn [namespaceIndex identifier].
  { now rewrite in_range_intro by lia. }
  destruct (strip (B "i=") id); [|reflexivity]. unfold UA_NODEID_NUMERIC, u32. cbn [namespaceIndex identifier].
  rewrite (in_range_intro _ _ ns) by lia. apply in_range_u. lia.
Qed.

Lemma server_nodeid_range s ns : 0 <= ns < 65536 -> range_nodeid (server_parse_nodeid s ns) = true.
Proof.
  intros H. unfold server_parse_nodeid. repeat case_goal; try reflexivity; try (now apply server_ident_range).
  - apply server_ident_range. apply (uwrap_range 16). lia.
  - unfold range_nodeid, UA_NODEID_NUMERIC, u32. cbn [namespaceIndex identifier]. apply in_range_u. lia.
Qed.

(** Every branch gives a value of its type, within its range. *)
Lemma scalar_typed type v x : scalar_of_json type v = Some x -> type_of x = type /\ typed_value x = true.
Proof.
  destruct type; cbn [scalar_of_json]; try discriminate; intros H;
    try (injection H as <-; split; [reflexivity|]; cbn [typed_value]; try reflexivity).
  - apply (in_range_s 8). lia.
  - apply (in_range_u 8). lia.
  - apply (in_range_s 16). lia.
  - apply (in_range_u 16). lia.
  - apply (in_range_s 32). lia.
  - apply in_range_intro. apply (cast_int_range 0 (2 ^ 32 - 1)). lia.
  - destruct v; try (apply in_range_intro; apply (cast_int_range (- 2 ^ 63) (2 ^ 63 - 1)); lia). apply strtol_range.
  - destruct v; try (apply in_range_intro; apply (cast_int_range 0 (2 ^ 64 - 1)); lia). apply strtoul_range.
  - unfold parse_datetime. repeat case_goal; try reflexivity. apply (in_range_s 64). lia.
  - apply guid_range.
  - destruct v; try reflexivity. apply server_nodeid_range. lia.
  - apply in_range_intro. apply (cast_int_range 0 (2 ^ 32 - 1)). lia.
  - unfold parse_qualified_name in H. destruct (strchr 58 (string_or_empty v)) as [[a b]|];
      injection H as <-; split; try reflexivity. apply (in_range_u 16). lia.
  - unfold parse_localized_text in H. destruct (strchr 58 (string_or_empty v)) as [[a b]|];
      injection H as <-; split; reflexivity.
Qed.

(** The types of the branches are those [data_type_for_name] announces. *)
Lemma scalar_types_agree name p : find (fun p => streq name (fst p)) scalar_types = Some p ->
  data_type_for_name (Some name) = snd p.
Proof.
  intros H. apply find_some in H as [Hin He]. apply streq_eq in He. subst name.
  vm_compute in Hin. repeat (destruct Hin as [<-|Hin]; [reflexivity|]). destruct Hin.
Qed.

Lemma build_scalar_typed jv dt x : build_variant_scalar jv dt = VtScalar x ->
  type_of x = data_type_for_name dt /\ typed_value x = true.
Proof.
  unfold build_variant_scalar. destruct jv as [v|]; [|discriminate]. destruct dt as [name|]; [|discriminate].
  destruct (find _ scalar_types) as [p|] eqn:E; [|discriminate].
  destruct (scalar_of_json (snd p) v) as [y|] eqn:Es; [|discriminate]. intros H. injection H as <-.
  apply scalar_typed in Es as [Ht Hv]. split; [|exact Hv]. rewrite Ht. symmetry. now apply scalar_types_agree.
Qed.

Lemma build_scalar_shape jv dt : build_variant_scalar jv dt = VtEmpty \/
  exists x, build_variant_scalar jv dt = VtScalar x.
Proof.
  unfold build_variant_scalar. repeat case_goal; eauto.
Qed.

Lemma init_type t : type_of (init_value t) = t.
Proof. destruct t; reflexivity. Qed.

(** What the stack may rely on in a value of type [dt]. *)
Definition slot_typed (dt : ua_type) (x : ua_value) : Prop :=
  type_of x = dt /\ (typed_value x = true \/ x = init_value dt).

Lemma array_slot_typed jv dt : slot_typed (data_type_for_name dt)
  (array_slot (data_type_for_name dt) (build_variant_scalar jv dt)).
Proof.
  destruct (build_scalar_shape jv dt) as [E|[x E]]; rewrite E; cbn [array_slot].
  - split; [apply init_type|now right].
  - apply build_scalar_typed in E as [Ht Hv]. split; [exact Ht|now left].
Qed.

Lemma scalar_of_inv t w x : scalar_of t w = Some x -> w = VtScalar x /\ type_of x = t.
Proof.
  unfold scalar_of. destruct w as [|y|]; try discriminate.
  destruct (type_eqb (type_of y) t) eqn:E; [|discriminate]. intros H. injection H as <-.
  now apply type_eqb_eq in E.
Qed.

Lemma int32_decimal x : - 2 ^ 31 <= x < 2 ^ 31 -> snprintf 32 (fmt_d x) = fmt_d x.
Proof.
  intros H. apply firstn_all2. unfold fmt_d, fmt_u.
  destruct (Z.ltb_spec x 0); cbn [length];
    match goal with |- context [digits 10 ?f ?n []] =>
      pose proof (digits_length 10 f 10 n ltac:(lia) ltac:(lia) ltac:(lia)) end; lia.
Qed.

(** What the methods of the fixture compute: the inputs and the outputs of a
    successful call. *)
Inductive computes : bytes -> list ua_value -> list ua_value -> Prop :=
| computes_add x y : - 2 ^ 31 <= x + y < 2 ^ 31 ->
    computes (B "Add") [VInt32 x; VInt32 y] [VInt32 (x + y)]
| computes_multiply x y : computes (B "Multiply") [VDouble x; VDouble y] [VDouble (SFmul 53 1024 x y)]
| computes_echo s : computes (B "Echo") [VString s] [VString s]
| computes_noargs : computes (B "NoArguments") [] [VBoolean true]
| computes_multiple x : - 2 ^ 31 <= 2 * x < 2 ^ 31 ->
    computes (B "MultipleOutputs") [VInt32 x] [VInt32 (2 * x); VString (Some (fmt_d x))].

(** The call of [b] can succeed with these inputs and this room for outputs. *)
Definition callable (b : bytes) (input : list ua_variant) (n : nat) : Prop :=
  exists args rest res, input = map VtScalar args ++ rest /\ computes b args res /\ (length res <= n)%nat.

(** A method callback [cb] does what [computes] says of [b]. *)
Definition implements (b : bytes) (cb : list ua_variant -> nat -> method_result) : Prop :=
  forall input n,
  match cb input n with
  | Some (sc, outs) =>
      (sc = UA_STATUSCODE_GOOD /\ exists args rest res, input = map VtScalar args ++ rest /\
         outs = map VtScalar res /\ computes b args res /\ (length res <= n)%nat) \/
      (sc = (if streq b (B "Fail") then UA_STATUSCODE_BADINTERNALERROR else UA_STATUSCODE_BADINVALIDARGUMENT) /\
       outs = [] /\ ~ callable b input n)
  | None => ~ callable b input n /\ In b [B "Add"; B "MultipleOutputs"]
  end.

(** Closes the case of a call that is rejected: no [computes] rule applies. *)
Ltac not_callable :=
  let a := fresh in let r := fresh in let o := fresh in let Hi := fresh in let Hc := fresh in let Hn := fresh in
  intros (a & r & o & Hi & Hc & Hn); inversion Hc; subst; cbn in *;
  try match goal with H : _ :: _ = _ :: _ |- _ => injection H as H; intros end;
  subst; cbn in *; try discriminate; try lia; try congruence.

Lemma add_implements : implements (B "Add") method_add_cb.
Proof.
  intros input n. unfold method_add_cb, invalid, int32_result.
  destruct input as [|i0 [|i1 rest]]; try (right; repeat split; not_callable).
  destruct (Nat.ltb_spec n 1); [right; repeat split; not_callable|].
  destruct (scalar_of TInt32 i0) as [a|] eqn:Ea; [|right; repeat split; not_callable].
  destruct (scalar_of TInt32 i1) as [b|] eqn:Eb;
    [|destruct a; right; repeat split; not_callable].
  apply scalar_of_inv in Ea as [-> Ta], Eb as [-> Tb].
  destruct a; try discriminate Ta. destruct b; try discriminate Tb.
  destruct (Z.leb_spec (- 2 ^ 31) (z + z0)), (Z.ltb_spec (z + z0) (2 ^ 31)); cbn [andb];
    [|split; [not_callable|now left]..].
  left. split; [reflexivity|]. exists [VInt32 z; VInt32 z0], rest, [VInt32 (z + z0)].
  repeat split; [now constructor|cbn; lia].
Qed.

Lemma multiply_implements : implements (B "Multiply") method_multiply_cb.
Proof.
  intros input n. unfold method_multiply_cb, invalid.
  destruct input as [|i0 [|i1 rest]]; try (right; repeat split; not_callable).
  destruct (Nat.ltb_spec n 1); [right; repeat split; not_callable|].
  destruct (scalar_of TDouble i0) as [a|] eqn:Ea; [|right; repeat split; not_callable].
  destruct (scalar_of TDouble i1) as [b|] eqn:Eb;
    [|destruct a; right; repeat split; not_callable].
  apply scalar_of_inv in Ea as [-> Ta], Eb as [-> Tb].
  destruct a; try discriminate Ta. destruct b; try discriminate Tb.
  left. split; [reflexivity|]. eexists [_; _], rest, [_]. repeat split; [constructor|cbn; lia].
Qed.

Lemma echo_implements : implements (B "Echo") method_echo_cb.
Proof.
  intros input n. unfold method_echo_cb, invalid.
  destruct input as [|i0 rest]; [right; repeat split; not_callable|].
  destruct (Nat.ltb_spec n 1); [right; repeat split; not_callable|].
  destruct (scalar_of TString i0) as [a|] eqn:Ea; [|right; repeat split; not_callable].
  apply scalar_of_inv in Ea as [-> Ta]. destruct a; try discriminate Ta.
  left. split; [reflexivity|]. eexists [_], rest, [_]. repeat split; [constructor|cbn; lia].
Qed.

Lemma noargs_implements : implements (B "NoArguments") method_noargs_cb.
Proof.
  intros input n. unfold method_noargs_cb, invalid.
  destruct (Nat.ltb_spec n 1); [right; repeat split; not_callable|].
  left. split; [reflexivity|]. eexists [], input, [_]. repeat split; [constructor|cbn; lia].
Qed.

Lemma multiple_implements : implements (B "MultipleOutputs") method_multipleoutputs_cb.
Proof.
  intros input n. unfold method_multipleoutputs_cb, invalid, int32_result.
  destruct input as [|i0 rest]; [right; repeat split; not_callable|].
  destruct (Nat.ltb_spec n 2); [right; repeat split; not_callable|].
  destruct (scalar_of TInt32 i0) as [a|] eqn:Ea; [|right; repeat split; not_callable].
  apply scalar_of_inv in Ea as [-> Ta]. destruct a; try discriminate Ta.
  rewrite (Z.mul_comm z 2).
  destruct (Z.leb_spec (- 2 ^ 31) (2 * z)), (Z.ltb_spec (2 * z) (2 ^ 31)); cbn [andb];
    [|split; [not_callable|now right; left]..].
  left. split; [reflexivity|]. rewrite int32_decimal by lia.
  eexists [_], rest, [_; _]. repeat split; [now constructor|cbn; lia].
Qed.

Lemma fail_implements : implements (B "Fail") method_fail_cb.
Proof. intros input n. right. repeat split. not_callable. Qed.

Lemma ramp_step ctx : ctx_kind ctx = BEH_RAMP -> SFltb (rampMax ctx) (rampMin ctx) = false ->
  let ctx' := fst (behavior_callback ctx) in
  ctx_kind ctx' = BEH_RAMP /\ rampMax ctx' = rampMax ctx /\ rampMin ctx' = rampMin ctx /\
  SFltb (rampMax ctx) (rampVal ctx') = false.
Proof.
  intros Hk Hm. unfold behavior_callback. rewrite Hk. cbn. repeat split; try assumption.
  destruct (SFltb (rampMax ctx) (SFadd 53 1024 (rampVal ctx) (rampInc ctx))) eqn:E; assumption.
Qed.

Lemma ramp_run n : forall ctx, ctx_kind ctx = BEH_RAMP -> SFltb (rampMax ctx) (rampMin ctx) = false ->
  SFltb (rampMax ctx) (rampVal ctx) = false ->
  Forall (fun v => exists x, v = Some (VtScalar (VDouble x)) /\ SFltb (rampMax ctx) x = false)
    (behavior_run n ctx).
Proof.
  induction n as [|n IH]; intros ctx Hk Hm Hv; cbn [behavior_run]; [constructor|].
  pose proof (ramp_step ctx Hk Hm) as Hs. cbv zeta in Hs.
  assert (snd (behavior_callback ctx) = Some (VtScalar (VDouble (rampVal ctx)))) as Ho
    by (unfold behavior_callback; now rewrite Hk).
  destruct (behavior_callback ctx) as [ctx' v]. cbn [fst snd] in *. destruct Hs as (H1 & H2 & H3 & H4).
  constructor; [exists (rampVal ctx); now split|].
  rewrite <- H2. apply IH; [exact H1|now rewrite H2, H3|now rewrite H2].
Qed.

Lemma counter_run n : forall ctx, ctx_kind ctx = BEH_COUNTER ->
  - 2 ^ 63 <= counter ctx -> counter ctx + Z.of_nat n < 2 ^ 63 ->
  behavior_run n ctx = map (fun k => Some (VtScalar (VInt64 (counter ctx + Z.of_nat k)))) (seq 0 n).
Proof.
  induction n as [|n IH]; intros ctx Hk Hl Hh; [reflexivity|]. cbn [behavior_run seq map].
  unfold behavior_callback. rewrite Hk. f_equal; [now rewrite Z.add_0_r|].
  rewrite IH; cbn [ctx_kind counter]; unfold s64; rewrite ?swrap_small by lia; try lia; [|reflexivity].
  rewrite <- seq_shift, map_map. apply map_ext. intros k. do 3 f_equal. lia.
Qed.

Lemma toggle_run n : forall ctx, ctx_kind ctx = BEH_TOGGLE ->
  behavior_run n ctx = map (fun k => Some (VtScalar (VBoolean (xorb (Nat.odd k) (toggle ctx))))) (seq 1 n).
Proof.
  induction n as [|n IH]; intros ctx Hk; [reflexivity|]. cbn [behavior_run seq map].
  unfold behavior_callback. rewrite Hk. f_equal.
  rewrite IH; [|reflexivity]. cbn [toggle]. rewrite <- (seq_shift n 1), map_map. apply map_ext.
  intros k. do 3 f_equal. rewrite Nat.odd_succ, <- Nat.negb_odd. now destruct (Nat.odd k), (toggle ctx).
Qed.
End Lemmas.

(** * What an initial value means *)

(** The JSON literal of a value of a DataType, as the fixtures write them: numbers
    for the small integers, decimal texts (or numbers) for the 64-bit ones, texts for
    the rest; a DateTime in the zone of the process. *)
Inductive denotes {cpu : Cpu} {tz : LocalTime} : string -> cjson -> ua_value -> Prop :=
| lit_boolean b : denotes "Boolean" (CBool b) (VBoolean b)
| lit_sbyte d z : - 2 ^ 7 <= z < 2 ^ 7 -> denotes "SByte" (CNumber d z) (VSByte z)
| lit_byte d z : 0 <= z < 2 ^ 8 -> denotes "Byte" (CNumber d z) (VByte z)
| lit_int16 d z : - 2 ^ 15 <= z < 2 ^ 15 -> denotes "Int16" (CNumber d z) (VInt16 z)
| lit_uint16 d z : 0 <= z < 2 ^ 16 -> denotes "UInt16" (CNumber d z) (VUInt16 z)
| lit_int32 d z : - 2 ^ 31 <= z < 2 ^ 31 -> denotes "Int32" (CNumber d z) (VInt32 z)
| lit_uint32 d i z : trunc d = Some z -> 0 <= z < 2 ^ 32 -> denotes "UInt32" (CNumber d i) (VUInt32 z)
| lit_int64 z : - 2 ^ 63 <= z < 2 ^ 63 -> denotes "Int64" (CString (fmt_d z)) (VInt64 z)
| lit_int64_number d i z : trunc d = Some z -> - 2 ^ 63 <= z < 2 ^ 63 -> denotes "Int64" (CNumber d i) (VInt64 z)
| lit_uint64 z : 0 <= z < 2 ^ 64 -> denotes "UInt64" (CString (fmt_u z)) (VUInt64 z)
| lit_uint64_number d i z : trunc d = Some z -> 0 <= z < 2 ^ 64 -> denotes "UInt64" (CNumber d i) (VUInt64 z)
| lit_float d i : denotes "Float" (CNumber d i) (VFloat (to_float32 d))
| lit_double d i : denotes "Double" (CNumber d i) (VDouble d)
| lit_string s : denotes "String" (CString s) (VString (Some s))
| lit_xml s : denotes "XmlElement" (CString s) (VXmlElement (Some s))
| lit_datetime Y M D h m s r : 0 <= Y < 10000 -> 0 <= M < 100 -> 0 <= D < 100 ->
    0 <= h < 100 -> 0 <= m < 100 -> 0 <= s < 100 -> starts_digit 10 r = false ->
    - 2 ^ 63 <= (mktime Y M D h m s + UNIX_EPOCH_SEC) * UA_DATETIME_SEC < 2 ^ 63 ->
    denotes "DateTime" (CString (fmt_u0 4 Y ++ [45] ++ fmt_u0 2 M ++ [45] ++ fmt_u0 2 D ++ [84] ++ fmt_u0 2 h
      ++ [58] ++ fmt_u0 2 m ++ [58] ++ fmt_u0 2 s ++ r)) (VDateTime ((mktime Y M D h m s + UNIX_EPOCH_SEC) * UA_DATETIME_SEC))
| lit_guid g : range_guid_b g = true -> denotes "Guid" (CString (guid_text g)) (VGuid g)
| lit_bytes l : l <> [] -> Bytes l -> denotes "ByteString" (CString (value_b64_encode l)) (VByteString (Some l))
| lit_no_bytes : denotes "ByteString" (CString []) (VByteString None)
| lit_nodeid n : literal_nodeid n = true -> fixture_ident n = true -> denotes "NodeId" (CString (nodeid_text n)) (VNodeId n)
| lit_qname ns name : 0 <= ns < 2 ^ 16 -> denotes "QualifiedName" (CString (fmt_u ns ++ B ":" ++ name)) (VQualifiedName ns (Some name))
| lit_text loc text : ~ In 58 loc -> denotes "LocalizedText" (CString (loc ++ B ":" ++ text)) (VLocalizedText (Some loc) (Some text))
| lit_status d i z : trunc d = Some z -> 0 <= z < 2 ^ 32 -> denotes "StatusCode" (CNumber d i) (VStatusCode z).

(** The DataTypes whose initial values are kept. *)
Definition kept_types : list string :=
  ["Boolean"; "SByte"; "Byte"; "Int16"; "UInt16"; "Int32"; "UInt32"; "Int64"; "UInt64"; "Float"; "Double"; "String";
   "DateTime"; "Guid"; "ByteString"; "XmlElement"; "NodeId"; "QualifiedName"; "LocalizedText"; "StatusCode"]%string.

Section Literals.
Context {cpu : Cpu} {tz : LocalTime}.

Lemma cast_exact lo hi oob d z : trunc d = Some z -> lo <= z <= hi -> cast_int lo hi oob d = z.
Proof.
  intros Ht Hz. unfold cast_int. rewrite Ht.
  destruct (Z.leb_spec lo z), (Z.leb_spec z hi); reflexivity || lia.
Qed.

Lemma parse_datetime_text Y M D h m s r : 0 <= Y < 10000 -> 0 <= M < 100 -> 0 <= D < 100 ->
  0 <= h < 100 -> 0 <= m < 100 -> 0 <= s < 100 -> starts_digit 10 r = false ->
  parse_datetime (fmt_u0 4 Y ++ [45] ++ fmt_u0 2 M ++ [45] ++ fmt_u0 2 D ++ [84] ++ fmt_u0 2 h
    ++ [58] ++ fmt_u0 2 m ++ [58] ++ fmt_u0 2 s ++ r)
  = s64 (mktime Y M D h m s * UA_DATETIME_SEC + UNIX_EPOCH_SEC * UA_DATETIME_SEC).
Proof.
  intros. unfold parse_datetime. cbn [scan_ints app].
  repeat (rewrite scan_d_fmt by (reflexivity || assumption || lia); cbn [scan_lit scan_ints]; rewrite ?Z.eqb_refl).
  cbn [nth]. unfold s32. rewrite !swrap_small by lia.
  replace (Y - 1900 + 1900) with Y by lia. replace (M - 1 + 1) with M by lia. reflexivity.
Qed.

Lemma server_reads_nodeid n : literal_nodeid n = true -> fixture_ident n = true ->
  server_parse_nodeid (nodeid_text n) 0 = n.
Proof.
  intros H Hf. rewrite <- (server_reads_text n (fun _ => 0) H Hf) at 2. unfold resolve_nodeid.
  destruct (nodeid_text_cases n H) as [(i & _ & _ & _ & ->) | ->]; reflexivity.
Qed.

(** The type a literal of [name] has, and its value. *)
Lemma denotes_scalar name v x : denotes name v x ->
  find (fun p => streq (B name) (fst p)) scalar_types = Some (B name, type_of x) /\ scalar_of_json (type_of x) v = Some x.
Proof.
  intros H. destruct H; (split; [reflexivity|]); cbn [type_of scalar_of_json cJSON_IsTrue valueint_of valuedouble_of string_or_empty];
    unfold s8, u8, s16, u16, s32, to_uint32, to_int64, to_uint64;
    rewrite ?swrap_small, ?uwrap_small by lia; try reflexivity; try (f_equal; f_equal; apply cast_exact; [assumption|lia]).
  - rewrite strtol_d by (unfold LONG_MIN, LONG_MAX; lia). reflexivity.
  - rewrite strtoul_u by (unfold ULONG_MAX; lia). reflexivity.
  - rewrite parse_datetime_text by assumption. f_equal. f_equal. rewrite <- Z.mul_add_distr_r. apply swrap_small; lia.
  - unfold server_parse_guid. now rewrite parse_guid_string_text.
  - pose proof (decode_encode l ltac:(assumption)) as Hd. destruct (value_b64_encode l) eqn:E.
    + exfalso. now injection Hd as <-.
    + change server_b64_decode with value_b64_decode. now rewrite Hd.
  - now rewrite server_reads_nodeid.
  - unfold parse_qualified_name. change (B ":" ++ name) with (58 :: name). rewrite strchr_app.
    + rewrite atoi_fmt by (auto; lia). now rewrite u16_s32.
    + intros Hi. pose proof (fmt_u_digits ns ltac:(lia)) as Hd. eapply Forall_forall in Hd; [|exact Hi]. discriminate Hd.
  - unfold parse_localized_text. change (B ":" ++ text) with (58 :: text). now rewrite strchr_app.
Qed.

Lemma denotes_build name v x : denotes name v x -> build_variant_scalar (Some v) (Some (B name)) = VtScalar x.
Proof. intros H. apply denotes_scalar in H as [Hf Hs]. cbn [build_variant_scalar]. rewrite Hf. cbn [snd]. now rewrite Hs. Qed.

Lemma denotes_type name v x : denotes name v x -> type_of x = data_type_for_name (Some (B name)).
Proof. intros H. apply denotes_scalar in H as [Hf _]. apply scalar_types_agree in Hf. cbn [snd] in Hf. congruence. Qed.

Lemma denotes_no_array name l x : ~ denotes name (CArray l) x.
Proof. intros H. inversion H. Qed.

Lemma build_scalar_empty v name : build_variant_scalar (Some v) name = VtEmpty ->
  forall n, In n kept_types -> name <> Some (B n).
Proof.
  intros H n Hn ->. cbn [build_variant_scalar] in H.
  assert (In (B n) (map fst scalar_types)) as Hi.
  { change (map fst scalar_types) with (map B kept_types). now apply in_map. }
  destruct (find (fun p => streq (B n) (fst p)) scalar_types) as [p|] eqn:E.
  - apply find_some in E as [Hp _]. destruct (scalar_of_json (snd p) v) eqn:Es; [discriminate H|].
    vm_compute in Hp. repeat (destruct Hp as [<-|Hp]; [cbn [snd scalar_of_json] in Es; try discriminate Es|]); [| |destruct Hp].
    + destruct (parse_qualified_name _); discriminate Es.
    + destruct (parse_localized_text _); discriminate Es.
  - apply in_map_iff in Hi as (p & Hp & Hi). apply (find_none _ _ E) in Hi. rewrite Hp, streq_refl in Hi. discriminate Hi.
Qed.
End Literals.

(** * Theorems *)



(** C34: every method of the fixture computes what its name says, on every
    input: the call returns Good with exactly the outputs of [computes] when the
    inputs have the types of the method and the caller has room for the outputs,
    and otherwise writes no output and returns BadInvalidArgument (Fail:
    BadInternalError); only a signed overflow of Add and MultipleOutputs is left
    undefined. *)
Theorem methods_implement b cb :
  method_callback_for (Some b) = Some cb -> implements b cb.
Proof.
  intros Hb. cbn [method_callback_for] in Hb.
  destruct (find (fun p => streq b (fst p)) method_callbacks) as [p|] eqn:Ef; [|discriminate].
  injection Hb as <-. apply find_some in Ef as [Hin He]. apply streq_eq in He. subst b.
  repeat (destruct Hin as [<-|Hin]; [cbn [fst snd]|]); [..|destruct Hin].
  - apply add_implements.
  - apply multiply_implements.
  - apply echo_implements.
  - apply noargs_implements.
  - apply multiple_implements.
  - apply fail_implements.
Qed.

Lemma methods_implement_witness :
  method_add_cb [VtScalar (VInt32 2); VtScalar (VInt32 (-5))] 1
    = Some (UA_STATUSCODE_GOOD, [VtScalar (VInt32 (-3))]) /\
  implements (B "Add") method_add_cb.
Proof. split; [reflexivity|]. apply (methods_implement (B "Add") method_add_cb). reflexivity. Defined.

(** What the periodic behaviours publish: a ramp whose minimum and initial
    value do not exceed its maximum never publishes a value above the maximum; a
    counter publishes initial, initial + 1, ... while it fits an Int64; a toggle
    alternates starting with true. *)
Lemma behavior_values {cpu : Cpu} beh n :
  let ctx := behavior_ctx beh in
  (kind beh = BEH_RAMP -> SFltb (maximum beh) (minimum beh) = false ->
   SFltb (maximum beh) (initial beh) = false ->
   Forall (fun v => exists x, v = Some (VtScalar (VDouble x)) /\ SFltb (maximum beh) x = false)
     (behavior_run n ctx)) /\
  (kind beh = BEH_COUNTER -> to_int64 (initial beh) + Z.of_nat n < 2 ^ 63 ->
   behavior_run n ctx = map (fun k => Some (VtScalar (VInt64 (to_int64 (initial beh) + Z.of_nat k)))) (seq 0 n)) /\
  (kind beh = BEH_TOGGLE ->
   behavior_run n ctx = map (fun k => Some (VtScalar (VBoolean (Nat.odd k)))) (seq 1 n)).
Proof.
  intros ctx. repeat split.
  - intros Hk Hm Hi. exact (ramp_run n ctx Hk Hm Hi).
  - intros Hk Hn. apply (counter_run n ctx Hk); [|exact Hn]. unfold ctx. cbn [counter behavior_ctx].
    pose proof (cast_int_range (- 2 ^ 63) (2 ^ 63 - 1) (initial beh) ltac:(lia)). unfold to_int64. lia.
  - intros Hk. rewrite toggle_run by exact Hk. apply map_ext. intros k. cbn. now rewrite xorb_false_r.
Qed.

(** Two maximal Int32 inputs: the addition overflows, which C leaves undefined. *)
Lemma method_add_overflow :
  method_add_cb [VtScalar (VInt32 2147483647); VtScalar (VInt32 1)] 1 = None.
Proof. reflexivity. Qed.

(** The schema allows ExpandedNodeId variables, but their initial value is lost. *)
Lemma expanded_nodeid_lost {cpu : Cpu} {tz : LocalTime} v :
  data_type_for_name (Some (B "ExpandedNodeId")) = TExpandedNodeId /\
  build_variant (Some (CString v)) (Some (B "ExpandedNodeId")) (-1) = VtEmpty.
Proof. split; reflexivity. Qed.

(** A ramp with a negative increment leaves its range: the minimum is never
    checked. *)
Lemma ramp_below_minimum :
  let beh := {| target := None; kind := BEH_RAMP; initial := double_of false 1 0;
                increment := double_of true 1 0; minimum := S754_zero false;
                maximum := double_of false 100 0; intervalMs := 250 |} in
  nth 3 (behavior_run 4 (behavior_ctx beh)) None = Some (VtScalar (VDouble (double_of true 2 0))).
Proof. reflexivity. Qed.
