(* ===== verification/PubSubSecurity.v ===== *)
(** pubsub_security.c: the message security policies PubSub-Aes128-CTR and
    PubSub-Aes256-CTR, and the key splitting of pubsub_server.c that feeds them.
    OpenSSL is a parameter: HMAC, the AES-CTR context calls and the random
    bytes, with the laws their documentation gives. *)

From Stdlib Require Import String Ascii ZArith Bool List Lia.
Import ListNotations.
From S2P Require Import Prelude CLib UaTypes.

(** * OpenSSL and the allocator *)

Inductive evp_cipher := EVP_aes_128_ctr | EVP_aes_256_ctr.

Definition cipher_key_length (c : evp_cipher) : nat :=
  match c with EVP_aes_128_ctr => 16 | EVP_aes_256_ctr => 32 end.

(** [W] is the state of the allocator and of the random generator. *)
Class OpenSsl (W : Type) := {
  UA_malloc : W -> W * bool;
  (** [HMAC(EVP_sha256(), key, keyLen, msg, ...)]: the MAC, [None] for NULL *)
  HMAC : bytes -> Z -> bytes -> option bytes;
  EVP_CTX : Type;
  EVP_EncryptInit_ex : evp_cipher -> bytes -> bytes -> option EVP_CTX;
  (** the result, the context and the bytes written *)
  EVP_EncryptUpdate : EVP_CTX -> bytes -> Z -> bool * EVP_CTX * bytes;
  EVP_EncryptFinal_ex : EVP_CTX -> bool * bytes;
  RAND_bytes : W -> Z -> W * option bytes
}.

Definition SHA256_LENGTH : nat := 32.
Definition SIGNING_KEY_LENGTH : nat := 32.
Definition KEYNONCE_LENGTH : nat := 4.
Definition MESSAGENONCE_LENGTH : nat := 8.
Definition MAX_ENCRYPTING_KEY : nat := 32.

(** [memcpy(dst, src->data, src->length)] into an area at least as long. *)
Definition memcpy (dst src : bytes) : bytes := src ++ skipn (length src) dst.

(** * Policies and group contexts *)

(** [policyContext] holds [encryptingKeyLength]; [None] is NULL.  The function
    table is the same for both policies and is what the definitions below give. *)
Record PubSubSecurityPolicy := {
  policyContext : option nat; policyUri : bytes; nonceLength : nat }.

Record GroupContext := {
  encryptingKeyLength : nat; signingKey : bytes; encryptingKey : bytes;
  keyNonce : bytes; messageNonce : bytes }.

(** [None]: the policy context is NULL and is dereferenced. *)
Definition enc_len (p : PubSubSecurityPolicy) : option nat := policyContext p.

Section Policy.
Context {W : Type} {ssl : OpenSsl W}.

(** [None] for -1. *)
Definition hmac_sha256 (key msg : bytes) : option bytes :=
  match HMAC key (s32 (Z.of_nat (length key))) msg with
  | Some out => if Nat.eqb (length out) SHA256_LENGTH then Some out else None
  | None => None
  end.

(** Pointers are options.  The buffer a call fills is returned on success; its
    contents after a failure are not used. *)
Definition verify_ctr (gContext : option GroupContext) (message signature : option bytes) : Z :=
  match gContext, message, signature with
  | Some gc, Some message, Some signature =>
      if negb (Nat.eqb (length signature) SHA256_LENGTH) then UA_STATUSCODE_BADSECURITYCHECKSFAILED
      else
        match hmac_sha256 (signingKey gc) message with
        | None => UA_STATUSCODE_BADSECURITYCHECKSFAILED
        | Some mac => if streq mac signature then UA_STATUSCODE_GOOD else UA_STATUSCODE_BADSECURITYCHECKSFAILED
        end
  | _, _, _ => UA_STATUSCODE_BADINTERNALERROR
  end.

Definition sign_ctr (gContext : option GroupContext) (message signature : option bytes) : Z * option bytes :=
  match gContext, message, signature with
  | Some gc, Some message, Some signature =>
      if negb (Nat.eqb (length signature) SHA256_LENGTH) then (UA_STATUSCODE_BADINTERNALERROR, None)
      else
        match hmac_sha256 (signingKey gc) message with
        | None => (UA_STATUSCODE_BADSECURITYCHECKSFAILED, None)
        | Some mac => (UA_STATUSCODE_GOOD, Some mac)
        end
  | _, _, _ => (UA_STATUSCODE_BADINTERNALERROR, None)
  end.

Definition signature_size : nat := SHA256_LENGTH.
Definition signing_key_length : nat := SIGNING_KEY_LENGTH.
Definition encrypting_key_length (p : PubSubSecurityPolicy) : option nat := enc_len p.

(** The counter block: key nonce, message nonce, block counter 1. *)
Definition ctr_iv (gc : GroupContext) : bytes :=
  firstn KEYNONCE_LENGTH (keyNonce gc) ++ firstn MESSAGENONCE_LENGTH (messageNonce gc) ++ [0; 0; 0; 1].

Definition ctr_cipher (gc : GroupContext) : evp_cipher :=
  if Nat.eqb (encryptingKeyLength gc) 32 then EVP_aes_256_ctr else EVP_aes_128_ctr.

Definition crypt_ctr (w : W) (gContext : option GroupContext) (data : option bytes) : W * Z * option bytes :=
  match gContext, data with
  | Some gc, Some [] => (w, UA_STATUSCODE_GOOD, Some [])
  | Some gc, Some data =>
      let '(w, ok) := UA_malloc w in
      if negb ok then (w, UA_STATUSCODE_BADOUTOFMEMORY, None)
      else
        match EVP_EncryptInit_ex (ctr_cipher gc) (encryptingKey gc) (ctr_iv gc) with
        | None => (w, UA_STATUSCODE_BADINTERNALERROR, None)
        | Some ctx =>
            let '(ok, ctx, out) := EVP_EncryptUpdate ctx data (s32 (Z.of_nat (length data))) in
            if negb ok then (w, UA_STATUSCODE_BADINTERNALERROR, None)
            else
              let '(ok, fin) := EVP_EncryptFinal_ex ctx in
              if negb ok then (w, UA_STATUSCODE_BADINTERNALERROR, None)
              else (w, UA_STATUSCODE_GOOD, Some (memcpy data (out ++ fin)))
        end
  | _, _ => (w, UA_STATUSCODE_BADINTERNALERROR, None)
  end.

(** The [while (off < out->length)] loop of [generate_key_ctr]: [Some None] when a
    MAC fails, [None] when the fuel is used up. *)
Fixpoint p_sha256_loop (fuel : nat) (secret seed a : bytes) (outLen : nat) (out : bytes) : option (option bytes) :=
  if Nat.leb outLen (length out) then Some (Some out)
  else
    match fuel with
    | O => None
    | S k =>
        match hmac_sha256 secret (a ++ seed), hmac_sha256 secret a with
        | Some block, Some next =>
            let n := Nat.min (outLen - length out) SHA256_LENGTH in
            p_sha256_loop k secret seed next outLen (out ++ firstn n block)
        | _, _ => Some None
        end
    end.

(** [outLen]: the length of the output buffer, [None] for a NULL pointer. *)
Definition generate_key_ctr (w : W) (policy : option PubSubSecurityPolicy) (secret seed : option bytes)
    (outLen : option nat) : option (W * Z * option bytes) :=
  match policy, secret, seed, outLen with
  | Some _, Some secret, Some seed, Some outLen =>
      let '(w, ok) := UA_malloc w in
      if negb ok then Some (w, UA_STATUSCODE_BADOUTOFMEMORY, None)
      else
        match hmac_sha256 secret seed with
        | None => Some (w, UA_STATUSCODE_BADINTERNALERROR, None)
        | Some a =>
            do r <- p_sha256_loop outLen secret seed a outLen [];
            match r with
            | None => Some (w, UA_STATUSCODE_BADINTERNALERROR, None)
            | Some out => Some (w, UA_STATUSCODE_GOOD, Some out)
            end
        end
  | _, _, _, _ => Some (w, UA_STATUSCODE_BADINTERNALERROR, None)
  end.

Definition generate_nonce_ctr (w : W) (outLen : option nat) : W * Z * option bytes :=
  match outLen with
  | None => (w, UA_STATUSCODE_BADINTERNALERROR, None)
  | Some O => (w, UA_STATUSCODE_GOOD, Some [])
  | Some n =>
      match RAND_bytes w (s32 (Z.of_nat n)) with
      | (w, Some out) => (w, UA_STATUSCODE_GOOD, Some out)
      | (w, None) => (w, UA_STATUSCODE_BADUNEXPECTEDERROR, None)
      end
  end.

(** [p && p->length == n] *)
Definition has_length (n : nat) (p : option bytes) : bool :=
  match p with Some s => Nat.eqb (length s) n | None => false end.

(** [p && p->length != n] *)
Definition wrong_length (n : nat) (p : option bytes) : bool :=
  match p with Some s => negb (Nat.eqb (length s) n) | None => false end.

Definition keys_valid (p : PubSubSecurityPolicy) (sk ek kn : option bytes) : option bool :=
  if negb (has_length SIGNING_KEY_LENGTH sk && is_some ek) then Some false
  else do n <- enc_len p; Some (has_length n ek && has_length KEYNONCE_LENGTH kn).

(** [if (p) memcpy(dst, p->data, p->length)] into a zeroed or used area. *)
Definition memcpy_opt (dst : bytes) (src : option bytes) : bytes :=
  match src with Some s => memcpy dst s | None => dst end.

Definition new_context_ctr (w : W) (p : PubSubSecurityPolicy) (sk ek kn : option bytes)
    : option (W * Z * option GroupContext) :=
  let refused := Some (w, UA_STATUSCODE_BADSECURITYCHECKSFAILED, None) in
  if wrong_length SIGNING_KEY_LENGTH sk then refused
  else
    do ek_wrong <- match ek with
                   | Some _ => do n <- enc_len p; Some (wrong_length n ek)
                   | None => Some false
                   end;
    if ek_wrong || wrong_length KEYNONCE_LENGTH kn then refused
    else
      let '(w, ok) := UA_malloc w in
      if negb ok then Some (w, UA_STATUSCODE_BADOUTOFMEMORY, None)
      else
        do n <- enc_len p;
        Some (w, UA_STATUSCODE_GOOD,
              Some {| encryptingKeyLength := n;
                      signingKey := memcpy_opt (repeat 0 SIGNING_KEY_LENGTH) sk;
                      encryptingKey := memcpy_opt (repeat 0 MAX_ENCRYPTING_KEY) ek;
                      keyNonce := memcpy_opt (repeat 0 KEYNONCE_LENGTH) kn;
                      messageNonce := repeat 0 MESSAGENONCE_LENGTH |}).

(** The status and the context afterwards. *)
Definition set_keys_ctr (p : PubSubSecurityPolicy) (gContext : option GroupContext) (sk ek kn : option bytes)
    : option (Z * option GroupContext) :=
  match gContext with
  | None => Some (UA_STATUSCODE_BADINTERNALERROR, None)
  | Some gc =>
      do valid <- keys_valid p sk ek kn;
      if negb valid then Some (UA_STATUSCODE_BADSECURITYCHECKSFAILED, Some gc)
      else Some (UA_STATUSCODE_GOOD,
                 Some {| encryptingKeyLength := encryptingKeyLength gc;
                         signingKey := memcpy_opt (signingKey gc) sk;
                         encryptingKey := memcpy_opt (encryptingKey gc) ek;
                         keyNonce := memcpy_opt (keyNonce gc) kn;
                         messageNonce := messageNonce gc |})
  end.

Definition set_message_nonce_ctr (gContext : option GroupContext) (nonce : option bytes) : Z * option GroupContext :=
  match gContext with
  | None => (UA_STATUSCODE_BADSECURITYCHECKSFAILED, None)
  | Some gc =>
      if negb (has_length MESSAGENONCE_LENGTH nonce) then (UA_STATUSCODE_BADSECURITYCHECKSFAILED, Some gc)
      else (UA_STATUSCODE_GOOD,
            Some {| encryptingKeyLength := encryptingKeyLength gc; signingKey := signingKey gc;
                    encryptingKey := encryptingKey gc; keyNonce := keyNonce gc;
                    messageNonce := memcpy_opt (messageNonce gc) nonce |})
  end.

(** [clear_ctr]: the policy without its context. *)
Definition clear_ctr (p : PubSubSecurityPolicy) : PubSubSecurityPolicy :=
  {| policyContext := None; policyUri := policyUri p; nonceLength := nonceLength p |}.

(** * Installing and finding the policies *)

Definition PUBSUB_POLICY_AES128CTR : bytes := B "http://opcfoundation.org/UA/SecurityPolicy#PubSub-Aes128-CTR".
Definition PUBSUB_POLICY_AES256CTR : bytes := B "http://opcfoundation.org/UA/SecurityPolicy#PubSub-Aes256-CTR".

Definition init_ctr (w : W) (uri : bytes) (n : nat) : W * (PubSubSecurityPolicy + Z) :=
  let '(w, ok) := UA_malloc w in
  (w, if ok then inl {| policyContext := Some n; policyUri := uri;
                        nonceLength := SIGNING_KEY_LENGTH + n + KEYNONCE_LENGTH |}
      else inr UA_STATUSCODE_BADOUTOFMEMORY).

Definition adapter_PubSubSecurityPolicy_Aes128Ctr (w : W) := init_ctr w PUBSUB_POLICY_AES128CTR 16.
Definition adapter_PubSubSecurityPolicy_Aes256Ctr (w : W) := init_ctr w PUBSUB_POLICY_AES256CTR 32.

(** The policies of the configuration afterwards, and the status. *)
Definition adapter_pubsub_install_security_policies (w : W) (cfg : list PubSubSecurityPolicy)
    : W * Z * list PubSubSecurityPolicy :=
  let '(w, ok) := UA_malloc w in
  if negb ok then (w, UA_STATUSCODE_BADOUTOFMEMORY, cfg)
  else
    match adapter_PubSubSecurityPolicy_Aes128Ctr w with
    | (w, inr sc) => (w, sc, cfg)
    | (w, inl p0) =>
        match adapter_PubSubSecurityPolicy_Aes256Ctr w with
        | (w, inr sc) => (w, sc, cfg)
        | (w, inl p1) => (w, UA_STATUSCODE_GOOD, [p0; p1])
        end
    end.

Definition pubsub_server_prepare_config := adapter_pubsub_install_security_policies.

Definition adapter_pubsub_find_policy (cfg : list PubSubSecurityPolicy) (uri : bytes) : option PubSubSecurityPolicy :=
  find (fun p => streq (policyUri p) uri) cfg.

(** pubsub_server.c [split_key]: signing key, encrypting key and key nonce of a key
    as the security key service hands it out. *)
Definition split_key (p : PubSubSecurityPolicy) (key : bytes) : option (Z + bytes * bytes * bytes) :=
  let sl := signing_key_length in
  do el <- encrypting_key_length p;
  if negb (Nat.eqb (length key) (nonceLength p)) || Nat.ltb (length key) (sl + el)
  then Some (inl UA_STATUSCODE_BADSECURITYCHECKSFAILED)
  else Some (inr (firstn sl key, firstn el (skipn sl key), skipn (sl + el) key)).
End Policy.

(** * Laws *)

(** Byte-wise exclusive or of a text with the first bytes of a key stream. *)
Fixpoint xor_stream (data : bytes) (stream : nat -> Z) : bytes :=
  match data with
  | [] => []
  | b :: r => Z.lxor b (stream 0%nat) :: xor_stream r (fun i => stream (S i))
  end.

(** HMAC-SHA256 gives 32 bytes; counter mode is an exclusive or with a key stream
    that depends on the cipher, the key of the cipher's length and the counter
    block, and pads nothing. *)
Class OpenSslLaws {W : Type} (ssl : OpenSsl W) := {
  HMAC_sha256 : forall key msg, Z.of_nat (length key) < 2 ^ 31 ->
    exists mac, HMAC key (Z.of_nat (length key)) msg = Some mac /\ length mac = SHA256_LENGTH;
  ctr_stream : evp_cipher -> bytes -> bytes -> nat -> Z;
  ctr_mode : forall c key iv, (cipher_key_length c <= length key)%nat -> length iv = 16%nat ->
    exists ctx, EVP_EncryptInit_ex c key iv = Some ctx /\
    forall data, Z.of_nat (length data) < 2 ^ 31 ->
    exists ctx', EVP_EncryptUpdate ctx data (Z.of_nat (length data))
                 = (true, ctx', xor_stream data (ctr_stream c (firstn (cipher_key_length c) key) iv)) /\
                 EVP_EncryptFinal_ex ctx' = (true, [])
}.

(** * Keys from P_SHA256 *)

Section Lemmas.
Context {W : Type} {ssl : OpenSsl W} {laws : OpenSslLaws ssl}.

Lemma hmac_eq key msg : Z.of_nat (length key) < 2 ^ 31 -> hmac_sha256 key msg = HMAC key (Z.of_nat (length key)) msg.
Proof.
  intros H. destruct (HMAC_sha256 key msg H) as (mac & E & Hl). unfold hmac_sha256, s32.
  rewrite swrap_small, E, Hl by (change (2 ^ (32 - 1)) with (2 ^ 31); lia). reflexivity.
Qed.

Lemma hmac_defined key msg : Z.of_nat (length key) < 2 ^ 31 ->
  exists mac, hmac_sha256 key msg = Some mac /\ length mac = 32%nat.
Proof. intros H. rewrite (hmac_eq key msg H). exact (HMAC_sha256 key msg H). Qed.

(** RFC 5246, section 5: A(0) = seed, A(i+1) = HMAC(secret, A(i)), and the blocks
    HMAC(secret, A(i) ++ seed) for i = 1, 2, ... *)
Definition rfc_hmac (secret msg : bytes) : bytes := default [] (HMAC secret (Z.of_nat (length secret)) msg).

Fixpoint rfc_A (secret seed : bytes) (i : nat) : bytes :=
  match i with O => seed | S k => rfc_hmac secret (rfc_A secret seed k) end.

Definition p_hash (secret seed : bytes) (blocks : nat) : bytes :=
  concat (map (fun i => rfc_hmac secret (rfc_A secret seed (S i) ++ seed)) (seq 0 blocks)).

Lemma p_hash_S secret seed k :
  p_hash secret seed (S k) = p_hash secret seed k ++ rfc_hmac secret (rfc_A secret seed (S k) ++ seed).
Proof. unfold p_hash. rewrite seq_S, map_app, concat_app. cbn [map concat Nat.add]. now rewrite app_nil_r. Qed.

Context (secret seed : bytes) (Hsecret : Z.of_nat (length secret) < 2 ^ 31).

Lemma rfc_hmac_spec msg : hmac_sha256 secret msg = Some (rfc_hmac secret msg) /\ length (rfc_hmac secret msg) = 32%nat.
Proof. unfold rfc_hmac. rewrite <- (hmac_eq secret msg Hsecret). destruct (hmac_defined secret msg Hsecret) as (m & E & Hl). now rewrite E. Qed.

Lemma length_p_hash k : length (p_hash secret seed k) = (32 * k)%nat.
Proof.
  induction k as [|k IH]; [reflexivity|]. rewrite p_hash_S, length_app, IH.
  rewrite (proj2 (rfc_hmac_spec _)). lia.
Qed.

Lemma p_hash_prefix n i k : (n <= 32 * i)%nat -> firstn n (p_hash secret seed (i + k)) = firstn n (p_hash secret seed i).
Proof.
  intros H. induction k as [|k IH]; [now rewrite Nat.add_0_r|].
  rewrite Nat.add_succ_r, p_hash_S, firstn_app, IH, length_p_hash.
  replace (n - _)%nat with 0%nat by lia. cbn [firstn]. now rewrite app_nil_r.
Qed.

Lemma p_sha256_loop_spec n fuel : forall i, (n - 32 * i <= fuel)%nat ->
  p_sha256_loop fuel secret seed (rfc_A secret seed (S i)) n (firstn n (p_hash secret seed i))
  = Some (Some (firstn n (p_hash secret seed (i + fuel)))).
Proof.
  induction fuel as [|k IH]; intros i Hi; cbn [p_sha256_loop];
    rewrite length_firstn, length_p_hash; destruct (Nat.leb_spec n (Nat.min n (32 * i))).
  - now rewrite Nat.add_0_r.
  - lia.
  - do 2 f_equal. symmetry. apply p_hash_prefix. lia.
  - rewrite !(proj1 (rfc_hmac_spec _)). replace (Nat.min n (32 * i)) with (32 * i)%nat by lia.
    assert (firstn n (p_hash secret seed i) ++
            firstn (Nat.min (n - 32 * i) 32) (rfc_hmac secret (rfc_A secret seed (S i) ++ seed))
            = firstn n (p_hash secret seed (S i))) as E.
    { rewrite p_hash_S, firstn_app, length_p_hash. f_equal.
      destruct (Nat.le_gt_cases (n - 32 * i) 32); [now rewrite Nat.min_l by lia|].
      rewrite Nat.min_r by lia. pose proof (proj2 (rfc_hmac_spec (rfc_A secret seed (S i) ++ seed))).
      now rewrite !firstn_all2 by lia. }
    unfold SHA256_LENGTH. rewrite E. change (rfc_hmac secret (rfc_A secret seed (S i))) with (rfc_A secret seed (S (S i))).
    rewrite IH by lia. now replace (i + S k)%nat with (S i + k)%nat by lia.
Qed.
End Lemmas.

(** * Group contexts *)

Lemma length_memcpy dst src : (length src <= length dst)%nat -> length (memcpy dst src) = length dst.
Proof. intros. unfold memcpy. rewrite length_app, length_skipn. lia. Qed.

Lemma memcpy_same dst src : length src = length dst -> memcpy dst src = src.
Proof. intros H. unfold memcpy. rewrite skipn_all2 by lia. apply app_nil_r. Qed.

Lemma firstn_memcpy dst src : firstn (length src) (memcpy dst src) = src.
Proof. unfold memcpy. rewrite firstn_app, Nat.sub_diag, firstn_all. apply app_nil_r. Qed.

Lemma xor_stream_involutive data : forall stream, xor_stream (xor_stream data stream) stream = data.
Proof.
  induction data as [|b r IH]; intros stream; [reflexivity|]. cbn [xor_stream].
  now rewrite IH, Z.lxor_assoc, Z.lxor_nilpotent, Z.lxor_0_r.
Qed.

Lemma length_xor_stream data : forall stream, length (xor_stream data stream) = length data.
Proof. induction data as [|b r IH]; intros stream; [reflexivity|]. cbn. now rewrite IH. Qed.

(** What [init_ctr] builds for the two policies. *)
Definition policy_wf (n : nat) (p : PubSubSecurityPolicy) : Prop :=
  (n = 16%nat \/ n = 32%nat) /\ policyContext p = Some n /\
  nonceLength p = (SIGNING_KEY_LENGTH + n + KEYNONCE_LENGTH)%nat.

(** The arrays of the struct are full, and the cipher is the policy's. *)
Definition context_wf (n : nat) (gc : GroupContext) : Prop :=
  encryptingKeyLength gc = n /\ length (signingKey gc) = SIGNING_KEY_LENGTH /\
  length (encryptingKey gc) = MAX_ENCRYPTING_KEY /\ length (keyNonce gc) = KEYNONCE_LENGTH /\
  length (messageNonce gc) = MESSAGENONCE_LENGTH.

(** The lengths of the encrypting key: the policies of Part 7 by their URI. *)
Definition policy_keys (uri : bytes) : option nat :=
  if streq uri (B "http://opcfoundation.org/UA/SecurityPolicy#PubSub-Aes128-CTR") then Some 16%nat
  else if streq uri (B "http://opcfoundation.org/UA/SecurityPolicy#PubSub-Aes256-CTR") then Some 32%nat else None.

(** AES-CTR of Part 14: the cipher for the key, and the counter block of key nonce,
    message nonce and block counter 1. *)
Definition aes_ctr_stream {W} {ssl : OpenSsl W} {laws : OpenSslLaws ssl} (key keyNonce messageNonce : bytes) : nat -> Z :=
  ctr_stream (if Nat.eqb (length key) 16 then EVP_aes_128_ctr else EVP_aes_256_ctr) key (keyNonce ++ messageNonce ++ [0; 0; 0; 1]).

Section Contexts.
Context {W : Type} {ssl : OpenSsl W}.

(** The contexts of a policy: created, then changed by the two setters, whatever
    they return. *)
Inductive context_of (p : PubSubSecurityPolicy) : GroupContext -> Prop :=
| context_new w sk ek kn w' gc :
    new_context_ctr w p sk ek kn = Some (w', UA_STATUSCODE_GOOD, Some gc) -> context_of p gc
| context_keys gc sk ek kn sc gc' : context_of p gc ->
    set_keys_ctr p (Some gc) sk ek kn = Some (sc, Some gc') -> context_of p gc'
| context_nonce gc nonce sc gc' : context_of p gc ->
    set_message_nonce_ctr (Some gc) nonce = (sc, Some gc') -> context_of p gc'.

Lemma memcpy_opt_length n dst src : length dst = n -> (forall s, src = Some s -> (length s <= n)%nat) ->
  length (memcpy_opt dst src) = n.
Proof. intros <- H. destruct src as [s|]; [|reflexivity]. apply length_memcpy, H. reflexivity. Qed.

Lemma wrong_length_false n src : wrong_length n src = false -> forall s, src = Some s -> length s = n.
Proof. intros H s ->. cbn in H. now apply negb_false_iff, Nat.eqb_eq in H. Qed.

Lemma has_length_true n src : has_length n src = true -> exists s, src = Some s /\ length s = n.
Proof. destruct src as [s|]; [|discriminate]. intros H%Nat.eqb_eq. eauto. Qed.

Lemma new_context_wf n p w sk ek kn w' gc : policy_wf n p ->
  new_context_ctr w p sk ek kn = Some (w', UA_STATUSCODE_GOOD, Some gc) -> context_wf n gc.
Proof.
  intros (Hn & Hp & _). unfold new_context_ctr, enc_len. rewrite Hp. cbn [obind].
  destruct (wrong_length SIGNING_KEY_LENGTH sk) eqn:Es; [discriminate|].
  assert (match ek with Some _ => Some (wrong_length n ek) | None => Some false end = Some (wrong_length n ek)) as ->
    by now destruct ek.
  cbn [obind]. destruct (wrong_length n ek) eqn:Ee; [discriminate|]. cbn [orb].
  destruct (wrong_length KEYNONCE_LENGTH kn) eqn:Ek; [discriminate|].
  destruct (UA_malloc w) as [w1 [|]]; [|discriminate]. cbn [negb].
  intros [= _ <-]. unfold context_wf.
  cbn [encryptingKeyLength signingKey encryptingKey keyNonce messageNonce].
  split; [reflexivity|]. split; [|split; [|split; [|reflexivity]]];
    (apply memcpy_opt_length; [reflexivity|intros s E]).
  - rewrite (wrong_length_false _ _ Es s E). reflexivity.
  - rewrite (wrong_length_false _ _ Ee s E). unfold MAX_ENCRYPTING_KEY. lia.
  - rewrite (wrong_length_false _ _ Ek s E). reflexivity.
Qed.

(** [setSecurityKeys] takes the keys of the policy's lengths and nothing else. *)
Lemma set_keys_spec n p gc sk ek kn : policy_wf n p -> context_wf n gc ->
  (exists a b c, sk = Some a /\ ek = Some b /\ kn = Some c /\
     length a = SIGNING_KEY_LENGTH /\ length b = n /\ length c = KEYNONCE_LENGTH /\
     set_keys_ctr p (Some gc) sk ek kn = Some (UA_STATUSCODE_GOOD,
       Some {| encryptingKeyLength := n; signingKey := a; encryptingKey := memcpy (encryptingKey gc) b;
               keyNonce := c; messageNonce := messageNonce gc |}))
  \/ (has_length SIGNING_KEY_LENGTH sk && has_length n ek && has_length KEYNONCE_LENGTH kn = false /\
      set_keys_ctr p (Some gc) sk ek kn = Some (UA_STATUSCODE_BADSECURITYCHECKSFAILED, Some gc)).
Proof.
  intros (Hn & Hp & _) (Hg & Hs & He & Hk & Hm). unfold set_keys_ctr, keys_valid, enc_len. rewrite Hp.
  destruct (has_length SIGNING_KEY_LENGTH sk) eqn:E1; [|right; split; reflexivity].
  destruct (has_length n ek) eqn:E2; [|right; destruct ek; cbn in *; [rewrite E2|]; split; reflexivity].
  destruct (has_length KEYNONCE_LENGTH kn) eqn:E3; [|right; destruct ek; cbn in *; [rewrite E2|]; split; reflexivity].
  apply has_length_true in E1 as (a & -> & Ha), E2 as (b & -> & Hb), E3 as (c & -> & Hc).
  left. exists a, b, c. repeat (split; [auto; fail|]). cbn [is_some negb andb obind has_length].
  rewrite Hb, Nat.eqb_refl. cbn [negb andb memcpy_opt].
  rewrite (memcpy_same (signingKey gc)), (memcpy_same (keyNonce gc)) by congruence. now rewrite Hg.
Qed.

Lemma set_nonce_spec n gc nonce : context_wf n gc ->
  (exists m, nonce = Some m /\ length m = MESSAGENONCE_LENGTH /\
     set_message_nonce_ctr (Some gc) nonce = (UA_STATUSCODE_GOOD,
       Some {| encryptingKeyLength := n; signingKey := signingKey gc; encryptingKey := encryptingKey gc;
               keyNonce := keyNonce gc; messageNonce := m |}))
  \/ (has_length MESSAGENONCE_LENGTH nonce = false /\
      set_message_nonce_ctr (Some gc) nonce = (UA_STATUSCODE_BADSECURITYCHECKSFAILED, Some gc)).
Proof.
  intros (Hg & _ & _ & _ & Hm). unfold set_message_nonce_ctr.
  destruct (has_length MESSAGENONCE_LENGTH nonce) eqn:E; [left|now right].
  apply has_length_true in E as (m & -> & Hl). exists m. repeat (split; [auto; fail|]).
  cbn [negb memcpy_opt]. rewrite memcpy_same by congruence. now rewrite Hg.
Qed.

Lemma context_of_wf n p gc : policy_wf n p -> context_of p gc -> context_wf n gc.
Proof.
  intros Hp. induction 1 as [w sk ek kn w' gc H|gc sk ek kn sc gc' _ IH H|gc nonce sc gc' _ IH H].
  - eapply new_context_wf; eauto.
  - pose proof IH as (_ & _ & He & _ & Hm).
    destruct (set_keys_spec n p gc sk ek kn Hp IH) as [(a & b & c & _ & _ & _ & Ha & Hb & Hc & E)|[_ E]];
      rewrite E in H; injection H as _ <-; [|exact IH].
    unfold context_wf. cbn. rewrite length_memcpy by (destruct Hp; unfold MAX_ENCRYPTING_KEY in *; lia). auto.
  - pose proof IH as (_ & Hs & He & Hk & _).
    destruct (set_nonce_spec n gc nonce IH) as [(m & _ & Hm & E)|[_ E]];
      rewrite E in H; injection H as _ <-; [|exact IH].
    unfold context_wf. cbn. auto.
Qed.
End Contexts.

(** * The installed policies *)

Section Installed.
Context {W : Type} {ssl : OpenSsl W}.

(** The policies of a configuration after a successful installation. *)
Definition installed (pols : list PubSubSecurityPolicy) : Prop :=
  exists w w' cfg, adapter_pubsub_install_security_policies w cfg = (w', UA_STATUSCODE_GOOD, pols).

Lemma installed_two pols : installed pols ->
  pols = [{| policyContext := Some 16%nat; policyUri := PUBSUB_POLICY_AES128CTR; nonceLength := 52 |};
          {| policyContext := Some 32%nat; policyUri := PUBSUB_POLICY_AES256CTR; nonceLength := 68 |}].
Proof.
  intros (w & w' & cfg & H). unfold adapter_pubsub_install_security_policies,
    adapter_PubSubSecurityPolicy_Aes128Ctr, adapter_PubSubSecurityPolicy_Aes256Ctr, init_ctr in H.
  destruct (UA_malloc w) as [w0 [|]]; [|discriminate H]. cbn [negb] in H.
  destruct (UA_malloc w0) as [w1 [|]]; [|discriminate H].
  destruct (UA_malloc w1) as [w2 [|]]; [|discriminate H]. now injection H as _ <-.
Qed.

Lemma find_policy_wf pols uri p : installed pols -> adapter_pubsub_find_policy pols uri = Some p ->
  exists n, policy_wf n p /\ policyUri p = uri /\ policy_keys uri = Some n.
Proof.
  intros Hi Hf. apply find_some in Hf as [Hin Hu]. apply streq_eq in Hu.
  rewrite (installed_two _ Hi) in Hin. unfold policy_wf.
  destruct Hin as [<-|[<-|[]]]; cbn [policyUri] in Hu; subst uri; [exists 16%nat|exists 32%nat]; cbn [policyContext nonceLength policyUri]; auto 8.
Qed.

Lemma split_key_spec n p key : policy_wf n p ->
  if Nat.eqb (length key) (nonceLength p)
  then exists sk ek kn, split_key p key = Some (inr (sk, ek, kn)) /\ sk ++ ek ++ kn = key /\
         length sk = SIGNING_KEY_LENGTH /\ length ek = n /\ length kn = KEYNONCE_LENGTH
  else split_key p key = Some (inl UA_STATUSCODE_BADSECURITYCHECKSFAILED).
Proof.
  intros (Hn & Hp & Hl). unfold split_key, encrypting_key_length, enc_len, signing_key_length. rewrite Hp.
  cbn [obind]. destruct (Nat.eqb_spec (length key) (nonceLength p)) as [E|E]; [|reflexivity]. cbn [negb orb].
  rewrite Hl in E. unfold SIGNING_KEY_LENGTH, KEYNONCE_LENGTH in *.
  destruct (Nat.ltb_spec (length key) (32 + n)); [lia|]. do 3 eexists. split; [reflexivity|].
  rewrite !length_firstn, !length_skipn. repeat split; try lia.
  rewrite Nat.add_comm, <- skipn_skipn, !firstn_skipn. reflexivity.
Qed.
End Installed.

Section Messages.
Context {W : Type} {ssl : OpenSsl W} {laws : OpenSslLaws ssl}.

(** Encryption and decryption with a context: the exclusive or with the key stream
    of its cipher, key and nonces. *)
Lemma crypt_spec n gc w data : (n = 16%nat \/ n = 32%nat) -> context_wf n gc ->
  Z.of_nat (length data) < 2 ^ 31 -> snd (UA_malloc w) = true ->
  exists w', crypt_ctr w (Some gc) (Some data) = (w', UA_STATUSCODE_GOOD,
    Some (xor_stream data (ctr_stream (ctr_cipher gc) (firstn n (encryptingKey gc)) (ctr_iv gc)))).
Proof.
  intros Hn (Hg & _ & He & Hk & Hm) Hd Hw. destruct data as [|b r]; [now exists w|].
  unfold crypt_ctr. destruct (UA_malloc w) as [w' ok]. cbn [snd] in Hw. subst ok. exists w'. cbn [negb].
  assert (cipher_key_length (ctr_cipher gc) = n) as Hc.
  { unfold ctr_cipher. rewrite Hg. destruct Hn as [E|E]; now rewrite E. }
  assert (length (ctr_iv gc) = 16%nat) as Hi.
  { unfold ctr_iv. now rewrite !length_app, !length_firstn, Hk, Hm. }
  destruct (ctr_mode (ctr_cipher gc) (encryptingKey gc) (ctr_iv gc)) as (ctx & -> & Hu);
    [rewrite Hc, He; unfold MAX_ENCRYPTING_KEY; lia|exact Hi|].
  unfold s32. rewrite swrap_small by (change (2 ^ (32 - 1)) with (2 ^ 31); lia).
  destruct (Hu (b :: r) Hd) as (ctx' & -> & ->). cbn [negb]. rewrite Hc, app_nil_r, memcpy_same; [reflexivity|].
  apply length_xor_stream.
Qed.

Lemma verify_spec n gc msg : context_wf n gc ->
  exists mac, length mac = SHA256_LENGTH /\
    (forall out, length out = SHA256_LENGTH ->
       sign_ctr (Some gc) (Some msg) (Some out) = (UA_STATUSCODE_GOOD, Some mac)) /\
    hmac_sha256 (signingKey gc) msg = Some mac /\
    forall s, verify_ctr (Some gc) (Some msg) (Some s) = UA_STATUSCODE_GOOD <-> s = mac.
Proof.
  intros (_ & Hs & _). destruct (hmac_defined (signingKey gc) msg) as (mac & E & Hl);
    [rewrite Hs; unfold SIGNING_KEY_LENGTH; lia|]. exists mac. split; [exact Hl|]. split; [|split; [exact E|]].
  - intros out Ho. unfold sign_ctr. now rewrite Ho, Nat.eqb_refl, E.
  - intros s. unfold verify_ctr. rewrite E. split.
    + destruct (Nat.eqb (length s) SHA256_LENGTH); [|discriminate]. cbn [negb].
      destruct (streq mac s) eqn:Es; [|discriminate]. intros _. symmetry. now apply streq_eq.
    + intros ->. rewrite Hl, Nat.eqb_refl. cbn [negb]. now rewrite streq_refl.
Qed.

(** The two setters, as the stack calls them for a key and a message. *)
Lemma keyed_context n p gc sk ek kn nonce : policy_wf n p -> context_of p gc ->
  length sk = SIGNING_KEY_LENGTH -> length ek = n -> length kn = KEYNONCE_LENGTH ->
  length nonce = MESSAGENONCE_LENGTH ->
  exists gc1 gc2, set_keys_ctr p (Some gc) (Some sk) (Some ek) (Some kn) = Some (UA_STATUSCODE_GOOD, Some gc1) /\
    set_message_nonce_ctr (Some gc1) (Some nonce) = (UA_STATUSCODE_GOOD, Some gc2) /\ context_of p gc2 /\
    encryptingKeyLength gc2 = n /\ signingKey gc2 = sk /\ firstn n (encryptingKey gc2) = ek /\
    keyNonce gc2 = kn /\ messageNonce gc2 = nonce.
Proof.
  intros Hp Hc Hs He Hk Hm. pose proof (context_of_wf n p gc Hp Hc) as Hwf.
  destruct (set_keys_spec n p gc (Some sk) (Some ek) (Some kn) Hp Hwf)
    as [(a & b & c & Ea & Eb & Ec & _ & _ & _ & E)|[Hno _]].
  2:{ cbn [has_length] in Hno. rewrite Hs, He, Hk, !Nat.eqb_refl in Hno. discriminate. }
  injection Ea as <-. injection Eb as <-. injection Ec as <-.
  pose proof (context_keys p gc _ _ _ _ _ Hc E) as Hc1.
  destruct (set_nonce_spec n _ (Some nonce) (context_of_wf n p _ Hp Hc1)) as [(m & Em & _ & E2)|[Hno _]].
  2:{ cbn [has_length] in Hno. rewrite Hm, Nat.eqb_refl in Hno. discriminate. }
  injection Em as <-. do 2 eexists. split; [exact E|]. split; [exact E2|].
  split; [exact (context_nonce p _ _ _ _ Hc1 E2)|]. cbn. repeat split. rewrite <- He. apply firstn_memcpy.
Qed.
End Messages.

(** * Theorems *)

Section Theorems.
Context {W : Type} {ssl : OpenSsl W} {laws : OpenSslLaws ssl}.

(** C13: with an installed policy, a publisher and a subscriber whose group contexts
    get the same key from the key service and the same message nonce, whatever
    keys and nonces the contexts held before: the key is split into a signing key of
    32 bytes, an encrypting key of the length of the policy (16 or 32 bytes) and a
    key nonce of 4 bytes, and both setters accept them.  What the publisher encrypts
    is the data xor the AES-CTR key stream of the encrypting key and the counter block
    of the nonces, and the subscriber decrypts it to the same bytes; the signature is
    the HMAC-SHA256 of the message under the signing key, and the subscriber accepts
    a signature of any message exactly when it is the HMAC-SHA256 of that message, so
    a signature computed for another content passes only when the HMACs agree. *)
Theorem pubsub_message_security w pols uri p a b key nonce data msg :
  installed pols -> adapter_pubsub_find_policy pols uri = Some p ->
  context_of p a -> context_of p b ->
  length key = nonceLength p -> length nonce = MESSAGENONCE_LENGTH ->
  Z.of_nat (length data) < 2 ^ 31 -> snd (UA_malloc w) = true ->
  exists sk ek kn a1 b1 a2 b2 w1 w2 cipher mac,
    split_key p key = Some (inr (sk, ek, kn)) /\ sk ++ ek ++ kn = key /\
    length sk = 32%nat /\ policy_keys uri = Some (length ek) /\ length kn = 4%nat /\
    set_keys_ctr p (Some a) (Some sk) (Some ek) (Some kn) = Some (UA_STATUSCODE_GOOD, Some a1) /\
    set_keys_ctr p (Some b) (Some sk) (Some ek) (Some kn) = Some (UA_STATUSCODE_GOOD, Some b1) /\
    set_message_nonce_ctr (Some a1) (Some nonce) = (UA_STATUSCODE_GOOD, Some a2) /\
    set_message_nonce_ctr (Some b1) (Some nonce) = (UA_STATUSCODE_GOOD, Some b2) /\
    crypt_ctr w (Some a2) (Some data) = (w1, UA_STATUSCODE_GOOD, Some cipher) /\
    cipher = xor_stream data (aes_ctr_stream ek kn nonce) /\
    crypt_ctr w (Some b2) (Some cipher) = (w2, UA_STATUSCODE_GOOD, Some data) /\
    sign_ctr (Some a2) (Some msg) (Some (repeat 0 signature_size)) = (UA_STATUSCODE_GOOD, Some mac) /\
    HMAC sk 32 msg = Some mac /\
    (forall m s, verify_ctr (Some b2) (Some m) (Some s) = UA_STATUSCODE_GOOD <-> HMAC sk 32 m = Some s).
Proof.
  intros Hi Hf Ha Hb Hkey Hm Hd Hw. destruct (find_policy_wf _ _ _ Hi Hf) as (n & Hp & _ & Hu).
  pose proof (split_key_spec n p key Hp) as Hs. rewrite Hkey, Nat.eqb_refl in Hs.
  destruct Hs as (sk & ek & kn & Esplit & Ekey & Hsk & Hek & Hkn).
  destruct (keyed_context n p a sk ek kn nonce) as (a1 & a2 & Ea1 & Ea2 & Ca & La & Sa & Ka & Na & Ma); auto.
  destruct (keyed_context n p b sk ek kn nonce) as (b1 & b2 & Eb1 & Eb2 & Cb & Lb & Sb & Kb & Nb & Mb); auto.
  apply (context_of_wf n) in Ca, Cb; auto. pose proof Hp as (Hn & _).
  assert (forall gc, encryptingKeyLength gc = n -> firstn n (encryptingKey gc) = ek -> keyNonce gc = kn -> messageNonce gc = nonce ->
    ctr_stream (ctr_cipher gc) (firstn n (encryptingKey gc)) (ctr_iv gc) = aes_ctr_stream ek kn nonce) as Hstream.
  { intros gc H1 H2 H3 H4. unfold aes_ctr_stream, ctr_cipher, ctr_iv. rewrite H1, H2, H3, H4, Hek.
    rewrite (firstn_all2 kn), (firstn_all2 nonce) by lia. now destruct Hn as [->| ->]. }
  assert (forall m, hmac_sha256 sk m = HMAC sk 32 m) as Hh
    by (intros m; rewrite hmac_eq, Hsk by (rewrite Hsk; unfold SIGNING_KEY_LENGTH; lia); reflexivity).
  destruct (crypt_spec n a2 w data Hn Ca Hd Hw) as (w1 & Ec). rewrite (Hstream a2 La Ka Na Ma) in Ec.
  set (cipher := xor_stream data _) in Ec.
  destruct (crypt_spec n b2 w cipher Hn Cb) as (w2 & Ed);
    [unfold cipher; now rewrite length_xor_stream|exact Hw|].
  rewrite (Hstream b2 Lb Kb Nb Mb) in Ed. unfold cipher in Ed at 2. rewrite xor_stream_involutive in Ed.
  destruct (verify_spec n a2 msg Ca) as (mac & Hl & Esign & Ha' & _). rewrite Sa, Hh in Ha'.
  exists sk, ek, kn, a1, b1, a2, b2, w1, w2, cipher, mac. rewrite Hek, Hu.
  repeat (split; [first [assumption|reflexivity|apply Esign, repeat_length]|]).
  intros m s. destruct (verify_spec n b2 m Cb) as (mac' & _ & _ & Hb' & Everify). rewrite Sb, Hh in Hb'. rewrite Everify, Hb'.
  split; [now intros ->|now intros [= ->]].
Qed.

(** Every group context, after any sequence of the setters, has its arrays full
    and the cipher of its policy; [setSecurityKeys] accepts exactly the three
    keys of the policy's lengths and otherwise leaves the context as it was; no
    operation dereferences a NULL policy context. *)
Lemma group_context_invariant pols uri p gc w sk ek kn :
  installed pols -> adapter_pubsub_find_policy pols uri = Some p -> context_of p gc ->
  exists n, enc_len p = Some n /\ (n = 16%nat \/ n = 32%nat) /\ context_wf n gc /\
    new_context_ctr w p sk ek kn <> None /\
    if has_length SIGNING_KEY_LENGTH sk && has_length n ek && has_length KEYNONCE_LENGTH kn
    then exists gc', set_keys_ctr p (Some gc) sk ek kn = Some (UA_STATUSCODE_GOOD, Some gc') /\
           Some (signingKey gc') = sk /\ Some (firstn n (encryptingKey gc')) = ek /\
           Some (keyNonce gc') = kn /\ messageNonce gc' = messageNonce gc
    else set_keys_ctr p (Some gc) sk ek kn = Some (UA_STATUSCODE_BADSECURITYCHECKSFAILED, Some gc).
Proof.
  intros Hi Hf Hc. destruct (find_policy_wf _ _ _ Hi Hf) as (n & Hp & _ & _). pose proof Hp as (Hn & Hpc & _).
  pose proof (context_of_wf n p gc Hp Hc) as Hwf. exists n. repeat (split; [assumption|]). split.
  - unfold new_context_ctr, enc_len. rewrite Hpc. destruct (wrong_length _ sk), ek, (UA_malloc w) as [? []];
      cbn [obind negb orb wrong_length]; repeat case_goal; discriminate.
  - destruct (set_keys_spec n p gc sk ek kn Hp Hwf) as [(x & y & z & -> & -> & -> & Hx & Hy & Hz & E)|[Hno E]].
    + cbn [has_length]. rewrite Hx, Hy, Hz, !Nat.eqb_refl. cbn [andb]. eexists. split; [exact E|].
      cbn. repeat split. f_equal. rewrite <- Hy. apply firstn_memcpy.
    + now rewrite Hno.
Qed.

(** C28: with memory, [generate_key_ctr] returns, and its output is the first [n]
    bytes of P_SHA256(secret, seed) of RFC 5246; when [n] is the key length of an
    installed policy, the output splits into three keys that every group context of
    the policy accepts. *)
Theorem generate_key_p_sha256 w p secret seed n blocks :
  Z.of_nat (length secret) < 2 ^ 31 -> snd (UA_malloc w) = true -> (n <= 32 * blocks)%nat ->
  exists out, generate_key_ctr w (Some p) (Some secret) (Some seed) (Some n)
              = Some (fst (UA_malloc w), UA_STATUSCODE_GOOD, Some out) /\
    length out = n /\ out = firstn n (p_hash secret seed blocks) /\
    (forall pols uri gc, installed pols -> adapter_pubsub_find_policy pols uri = Some p -> n = nonceLength p -> context_of p gc ->
       exists sk ek kn gc', split_key p out = Some (inr (sk, ek, kn)) /\ sk ++ ek ++ kn = out /\
         set_keys_ctr p (Some gc) (Some sk) (Some ek) (Some kn) = Some (UA_STATUSCODE_GOOD, Some gc')).
Proof.
  intros Hs Hw Hb. exists (firstn n (p_hash secret seed blocks)).
  unfold generate_key_ctr. destruct (UA_malloc w) as [w' ok]. cbn [snd fst] in *. subst ok. cbn [negb].
  rewrite (proj1 (rfc_hmac_spec secret Hs seed)).
  change (rfc_hmac secret seed) with (rfc_A secret seed 1).
  assert (@nil Z = firstn n (p_hash secret seed 0)) as -> by now rewrite firstn_nil.
  rewrite (p_sha256_loop_spec secret seed Hs n n 0) by lia. cbn [obind Nat.add].
  assert (length (firstn n (p_hash secret seed blocks)) = n) as Hl
    by (rewrite length_firstn, (length_p_hash secret seed Hs); lia).
  split; [|split; [exact Hl|split; [reflexivity|]]].
  - do 3 f_equal. rewrite <- (p_hash_prefix secret seed Hs n n blocks), (Nat.add_comm n blocks) by lia.
    now apply p_hash_prefix.
  - intros pols uri gc Hi Hf Hn Hc. destruct (find_policy_wf _ _ _ Hi Hf) as (k & Hp & _).
    pose proof (split_key_spec k p (firstn n (p_hash secret seed blocks)) Hp) as H. rewrite Hl, Hn, Nat.eqb_refl in H.
    rewrite <- Hn in H. destruct H as (sk & ek & kn & E & Ek & H1 & H2 & H3).
    destruct (keyed_context k p gc sk ek kn (repeat 0 MESSAGENONCE_LENGTH)) as (gc1 & _ & E1 & _); auto.
    now exists sk, ek, kn, gc1.
Qed.
End Theorems.

(** * An instance, and the theorems applied *)

(** A library that never runs out of memory, with toy primitives of the documented shape. *)
Definition toy_stream (c : evp_cipher) (key iv : bytes) (i : nat) : Z :=
  (nth (i mod 16) iv 7 + nth i key 3 + Z.of_nat (cipher_key_length c)) mod 256.

Definition toy_ssl : OpenSsl unit := {|
  UA_malloc := fun w => (w, true);
  HMAC := fun key n msg => if n <? 0 then None else
    Some (map (fun i => (fold_left (fun a b => 31 * a + b) (key ++ msg) (Z.of_nat i)) mod 256) (seq 0 32));
  EVP_CTX := evp_cipher * bytes * bytes;
  EVP_EncryptInit_ex := fun c key iv => Some (c, firstn (cipher_key_length c) key, iv);
  EVP_EncryptUpdate := fun ctx data n => let '(c, key, iv) := ctx in (true, ctx, xor_stream data (toy_stream c key iv));
  EVP_EncryptFinal_ex := fun _ => (true, []);
  RAND_bytes := fun w n => (w, Some (repeat 4 (Z.to_nat n))) |}.

#[refine] Definition toy_ssl_laws : OpenSslLaws toy_ssl :=
  {| ctr_stream := toy_stream |}.
Proof.
  - intros key msg H. cbn. destruct (Z.ltb_spec (Z.of_nat (length key)) 0); [lia|].
    eexists. split; reflexivity.
  - intros c key iv Hk Hi. eexists. split; [reflexivity|]. intros data Hd. eexists. split; reflexivity.
Defined.

Definition toy_policies : list PubSubSecurityPolicy :=
  snd (@adapter_pubsub_install_security_policies unit toy_ssl tt []).

Lemma toy_installed : @installed unit toy_ssl toy_policies.
Proof. exists tt, tt, []. reflexivity. Qed.

Definition toy_aes128 : PubSubSecurityPolicy :=
  {| policyContext := Some 16%nat; policyUri := PUBSUB_POLICY_AES128CTR; nonceLength := 52 |}.

Definition toy_context : GroupContext :=
  {| encryptingKeyLength := 16; signingKey := repeat 1 32; encryptingKey := repeat 0 32;
     keyNonce := repeat 0 4; messageNonce := repeat 0 8 |}.

Lemma toy_context_of : @context_of unit toy_ssl toy_aes128 toy_context.
Proof. apply (@context_new unit toy_ssl toy_aes128 tt (Some (repeat 1 32)) None None tt). reflexivity. Qed.

(** A context that already held other keys. *)
Definition used_context : GroupContext :=
  {| encryptingKeyLength := 16; signingKey := repeat 9 32; encryptingKey := repeat 8 16 ++ repeat 0 16;
     keyNonce := repeat 7 4; messageNonce := repeat 0 8 |}.

Lemma used_context_of : @context_of unit toy_ssl toy_aes128 used_context.
Proof.
  eapply (@context_keys unit toy_ssl toy_aes128 toy_context (Some (repeat 9 32)) (Some (repeat 8 16))
            (Some (repeat 7 4)) UA_STATUSCODE_GOOD); [apply toy_context_of|reflexivity].
Qed.

Lemma pubsub_message_security_witness :
  exists cipher, HMAC (OpenSsl := toy_ssl) (firstn 32 (map Z.of_nat (seq 0 52))) 32 [1; 2] <> None /\
  exists b2, crypt_ctr (ssl := toy_ssl) tt (Some b2) (Some cipher) = (tt, UA_STATUSCODE_GOOD, Some [10; 20; 30]).
Proof.
  destruct (@pubsub_message_security unit toy_ssl toy_ssl_laws tt toy_policies PUBSUB_POLICY_AES128CTR toy_aes128
    toy_context used_context (map Z.of_nat (seq 0 52)) (map Z.of_nat (seq 100 8)) [10; 20; 30] [1; 2])
    as (sk & ek & kn & a1 & b1 & a2 & b2 & [] & [] & cipher & mac & H).
  - apply toy_installed.
  - vm_compute. reflexivity.
  - apply toy_context_of.
  - apply used_context_of.
  - reflexivity.
  - reflexivity.
  - cbn. lia.
  - reflexivity.
  - exists cipher. split; [discriminate|]. exists b2. apply H.
Defined.

Lemma generate_key_p_sha256_witness :
  exists out, generate_key_ctr (ssl := toy_ssl) tt (Some toy_aes128) (Some [1; 2]) (Some [3]) (Some 52%nat)
              = Some (tt, UA_STATUSCODE_GOOD, Some out) /\ length out = 52%nat /\
    exists sk ek kn gc', split_key toy_aes128 out = Some (inr (sk, ek, kn)) /\ sk ++ ek ++ kn = out /\
      set_keys_ctr toy_aes128 (Some toy_context) (Some sk) (Some ek) (Some kn) = Some (UA_STATUSCODE_GOOD, Some gc').
Proof.
  destruct (@generate_key_p_sha256 unit toy_ssl toy_ssl_laws tt toy_aes128 [1; 2] [3] 52 2)
    as (out & E & Hl & _ & Hk); [cbn; lia|reflexivity|lia|]. exists out. repeat (split; [assumption|]).
  apply (Hk toy_policies PUBSUB_POLICY_AES128CTR); [apply toy_installed|vm_compute; reflexivity|reflexivity|apply toy_context_of].
Defined.
