(* ===== verification/PubSubRecovery.v ===== *)
(** pubsub_server.c, error recovery: the components the configuration created, the
    callback that follows their state, and the timed re-enable with its backoff. *)

From Stdlib Require Import String Ascii ZArith Bool List Lia.
Import ListNotations.
From S2P Require Import Prelude CLib UaTypes RefStack.

(** * State *)

Inductive PubSubState := PS_DISABLED | PS_PAUSED | PS_OPERATIONAL | PS_ERROR | PS_PREOPERATIONAL.

Definition is_error (s : PubSubState) : bool := match s with PS_ERROR => true | _ => false end.

Record Created := { cr_id : ua_nodeid; cr_enabled : bool; cr_state : PubSubState }.

(** The arrays with their counts are lists. *)
Record Built := { connections : list Created; writerGroups : list Created; writers : list Created;
  readerGroups : list Created; readers : list Created; pds : list (ua_string * ua_nodeid) }.

Inductive component := PubSubConnection | WriterGroup | DataSetWriter | ReaderGroup | DataSetReader.

Definition created (b : Built) (k : component) : list Created :=
  match k with
  | PubSubConnection => connections b | WriterGroup => writerGroups b | DataSetWriter => writers b
  | ReaderGroup => readerGroups b | DataSetReader => readers b
  end.

(** The fields of [g_rt] that recovery uses. *)
Record Recovery := { rt_built : option Built; recoveryPending : bool; recoveryDelayMs : Z; lastErrorAt : Z }.

(** The server: the event loop's clock, timed callbacks of [recover_cb], and the
    calls that enable a component, with the state changes the stack reports to
    [stateChangeCallback] on the way. *)
Class PubSubServer (W : Type) := {
  nowMonotonic : W -> W * Z;
  addTimedCallback : W -> Z -> W * Z;
  enableComponent : W -> component -> ua_nodeid -> W * (Z * list (ua_nodeid * PubSubState))
}.

Definition RECOVERY_MIN_MS : Z := 200.
Definition RECOVERY_MAX_MS : Z := 5000.
Definition UA_DATETIME_MSEC : Z := 10000.

Definition with_built (rt : Recovery) (b : Built) : Recovery :=
  {| rt_built := Some b; recoveryPending := recoveryPending rt; recoveryDelayMs := recoveryDelayMs rt;
     lastErrorAt := lastErrorAt rt |}.

Definition with_pending (rt : Recovery) (p : bool) : Recovery :=
  {| rt_built := rt_built rt; recoveryPending := p; recoveryDelayMs := recoveryDelayMs rt; lastErrorAt := lastErrorAt rt |}.

(** * Operations *)

Section Recovery.
Context {nid : NodeIdOps}.

(** The index of the entry of a component the configuration enabled. *)
Fixpoint find_created (l : list Created) (id : ua_nodeid) : option nat :=
  match l with
  | [] => None
  | c :: r => if cr_enabled c && NodeId_equal (cr_id c) id then Some O else option_map S (find_created r id)
  end.

(** [list[i].state = state] *)
Fixpoint set_state (l : list Created) (i : nat) (s : PubSubState) : list Created :=
  match l, i with
  | [], _ => []
  | c :: r, O => {| cr_id := cr_id c; cr_enabled := cr_enabled c; cr_state := s |} :: r
  | c :: r, S i => c :: set_state r i s
  end.

(** The entry a state change is for: a connection, a WriterGroup or a ReaderGroup. *)
Definition locate (b : Built) (id : ua_nodeid) : option (component * nat) :=
  match find_created (connections b) id with
  | Some i => Some (PubSubConnection, i)
  | None =>
      match find_created (writerGroups b) id with
      | Some i => Some (WriterGroup, i)
      | None => option_map (fun i => (ReaderGroup, i)) (find_created (readerGroups b) id)
      end
  end.

Definition put_state (b : Built) (k : component) (i : nat) (s : PubSubState) : Built :=
  let at_ k' l := match k, k' with
                  | PubSubConnection, PubSubConnection | WriterGroup, WriterGroup | DataSetWriter, DataSetWriter
                  | ReaderGroup, ReaderGroup | DataSetReader, DataSetReader => set_state l i s
                  | _, _ => l
                  end in
  {| connections := at_ PubSubConnection (connections b); writerGroups := at_ WriterGroup (writerGroups b);
     writers := at_ DataSetWriter (writers b); readerGroups := at_ ReaderGroup (readerGroups b);
     readers := at_ DataSetReader (readers b); pds := pds b |}.

(** The delay of the next re-enable, and the state after choosing it. *)
Definition backoff (rt : Recovery) (now : Z) : Z * Recovery :=
  let ms := if 2 * RECOVERY_MAX_MS * UA_DATETIME_MSEC <? s64 (now - lastErrorAt rt) then RECOVERY_MIN_MS
            else recoveryDelayMs rt in
  let delay := if ms =? 0 then RECOVERY_MIN_MS else ms in
  (delay, {| rt_built := rt_built rt; recoveryPending := recoveryPending rt;
             recoveryDelayMs := if RECOVERY_MAX_MS <? u32 (delay * 2) then RECOVERY_MAX_MS else u32 (delay * 2);
             lastErrorAt := now |}).

Context {W : Type} {srv : PubSubServer W}.

Definition schedule_recovery (w : W) (rt : Recovery) : W * Recovery :=
  if recoveryPending rt then (w, rt)
  else
    let '(w, now) := nowMonotonic w in
    let '(delay, rt) := backoff rt now in
    let '(w, sc) := addTimedCallback w (s64 (now + delay * UA_DATETIME_MSEC)) in
    (w, if sc =? UA_STATUSCODE_GOOD then with_pending rt true else rt).

Definition on_state_change (w : W) (rt : Recovery) (id : ua_nodeid) (state : PubSubState) : W * Recovery :=
  match rt_built rt with
  | None => (w, rt)
  | Some b =>
      match locate b id with
      | None => (w, rt)
      | Some (k, i) =>
          let rt := with_built rt (put_state b k i state) in
          if is_error state then schedule_recovery w rt else (w, rt)
      end
  end.

(** The state changes of one call. *)
Fixpoint deliver (w : W) (rt : Recovery) (evs : list (ua_nodeid * PubSubState)) : W * Recovery :=
  match evs with
  | [] => (w, rt)
  | (id, s) :: r => let '(w, rt) := on_state_change w rt id s in deliver w rt r
  end.

(** [recover] from index [i] on: the re-enables made and the ones that failed. *)
Fixpoint recover_from (idx : list nat) (w : W) (rt : Recovery) (k : component) (n failed : nat)
    : W * Recovery * nat * nat :=
  match idx with
  | [] => (w, rt, n, failed)
  | i :: idx =>
      match (do b <- rt_built rt; nth_error (created b k) i) with
      | Some c =>
          if cr_enabled c && is_error (cr_state c) then
            let '(w, (sc, evs)) := enableComponent w k (cr_id c) in
            let '(w, rt) := deliver w rt evs in
            recover_from idx w rt k (S n) (if sc =? UA_STATUSCODE_GOOD then failed else S failed)
          else recover_from idx w rt k n failed
      | None => recover_from idx w rt k n failed
      end
  end.

Definition recover (w : W) (rt : Recovery) (b : Built) (k : component) (failed : nat) : W * Recovery * nat * nat :=
  recover_from (seq 0 (length (created b k))) w rt k 0 failed.

Definition recover_cb (w : W) (rt : Recovery) : W * Recovery :=
  let rt := with_pending rt false in
  match rt_built rt with
  | None => (w, rt)
  | Some b =>
      let '(w, rt, _, failed) := recover w rt b PubSubConnection 0 in
      let '(w, rt, _, failed) := recover w rt b WriterGroup failed in
      let '(w, rt, _, failed) := recover w rt b ReaderGroup failed in
      if Nat.ltb 0 failed then schedule_recovery w rt else (w, rt)
  end.

(** * The runs of the server *)

(** What reaches the adapter: a state change, or the timed callback when one is
    pending.  The server's own activity is any change of [W] between them. *)
Inductive event := StateChange (id : ua_nodeid) (s : PubSubState) | TimerFires.

Definition handle (w : W) (rt : Recovery) (e : event) : W * Recovery :=
  match e with
  | StateChange id s => on_state_change w rt id s
  | TimerFires => recover_cb w rt
  end.

End Recovery.

(** The server with a record of the last timed callback asked for: its time and
    what the server answered. *)
#[local] Instance logged {W : Type} (srv : PubSubServer W) : PubSubServer (W * option (Z * Z)) := {
  nowMonotonic w := let '(v, now) := nowMonotonic (fst w) in ((v, snd w), now);
  addTimedCallback w at_ := let '(v, sc) := addTimedCallback (fst w) at_ in ((v, Some (at_, sc)), sc);
  enableComponent w k id := let '(v, r) := enableComponent (fst w) k id in ((v, snd w), r) }.

(** The states of the recovery, with the last timed callback asked for. *)
Inductive reachable {nid : NodeIdOps} {W : Type} {srv : PubSubServer W} (rt0 : Recovery) : option (Z * Z) -> Recovery -> Prop :=
| reach_start : reachable rt0 None rt0
| reach_step last rt w e w' last' rt' : reachable rt0 last rt -> (e = TimerFires -> recoveryPending rt = true) ->
    handle (srv := logged srv) (w, last) rt e = ((w', last'), rt') -> reachable rt0 last' rt'.

(** The server refused the last timed callback. *)
Definition refused (last : option (Z * Z)) : Prop := exists at_ sc, last = Some (at_, sc) /\ sc <> UA_STATUSCODE_GOOD.

(** What the recovery relies on: a component that could be enabled has reported its
    new state on the way. *)
Class PubSubServerLaws {W : Type} (srv : PubSubServer W) := {
  enable_reports : forall w k id, fst (snd (enableComponent w k id)) = UA_STATUSCODE_GOOD ->
    exists s, In (id, s) (snd (snd (enableComponent w k id)))
}.

(** * Lemmas *)

(** The components are the same, whatever their states. *)
Definition shape (c : Created) : ua_nodeid * bool := (cr_id c, cr_enabled c).
Definition same_shape (b b' : Built) : Prop := forall k, map shape (created b k) = map shape (created b' k).

Definition recoverable (k : component) : Prop := In k [PubSubConnection; WriterGroup; ReaderGroup].

(** The entry is enabled and its last reported state is Error. *)
Definition in_error (rt : Recovery) (k : component) (i : nat) : Prop :=
  exists b c, rt_built rt = Some b /\ nth_error (created b k) i = Some c /\ cr_enabled c = true /\ cr_state c = PS_ERROR.

Lemma nth_set_state l i s j : nth_error (set_state l i s) j =
  if Nat.eqb i j then option_map (fun c => {| cr_id := cr_id c; cr_enabled := cr_enabled c; cr_state := s |}) (nth_error l j)
  else nth_error l j.
Proof.
  revert i j. induction l as [|c l IH]; intros [|i] [|j]; cbn; try reflexivity; [now destruct (Nat.eqb i j)|].
  now rewrite IH.
Qed.

Lemma map_set_state l i s : map shape (set_state l i s) = map shape l.
Proof. revert i. induction l as [|c l IH]; intros [|i]; cbn; f_equal; auto. Qed.

Definition component_eq_dec (a b : component) : {a = b} + {a <> b}.
Proof. decide equality. Defined.

Lemma created_put b k i s k' : created (put_state b k i s) k' =
  if component_eq_dec k k' then set_state (created b k') i s else created b k'.
Proof. destruct k, k'; reflexivity. Qed.

Lemma shape_refl b : same_shape b b.
Proof. intros k. reflexivity. Qed.
Lemma shape_trans a b c : same_shape a b -> same_shape b c -> same_shape a c.
Proof. intros H1 H2 k. now rewrite H1. Qed.

Lemma put_shape b k i s : same_shape b (put_state b k i s).
Proof. intros k'. rewrite created_put. destruct (component_eq_dec k k'); [now rewrite map_set_state|reflexivity]. Qed.

Section Lemmas.
Context {nid : NodeIdOps} {nl : NodeIdLaws nid}.

Lemma find_created_spec l id : match find_created l id with
  | Some i => exists c, nth_error l i = Some c /\ cr_enabled c = true /\ NodeId_equal (cr_id c) id = true
  | None => forall c, In c l -> cr_enabled c = true -> NodeId_equal (cr_id c) id = false
  end.
Proof.
  induction l as [|c l IH]; cbn; [tauto|]. destruct (cr_enabled c && NodeId_equal (cr_id c) id) eqn:E.
  - apply andb_prop in E. now exists c.
  - destruct (find_created l id) as [i|]; cbn; [exact IH|]. intros d [<-|Hd] He; [|now apply IH]. now rewrite He in E.
Qed.

Lemma find_created_shape l l' id : map shape l = map shape l' -> find_created l id = find_created l' id.
Proof.
  revert l'. induction l as [|c l IH]; intros [|c' l'] H; try discriminate; [reflexivity|]. cbn in *.
  injection H as Hi He Hl. now rewrite Hi, He, (IH l' Hl).
Qed.

Lemma locate_shape b b' id : same_shape b b' -> locate b id = locate b' id.
Proof.
  intros H. unfold locate. rewrite (find_created_shape (connections b) (connections b')), (find_created_shape (writerGroups b) (writerGroups b')),
    (find_created_shape (readerGroups b) (readerGroups b')); [reflexivity|exact (H ReaderGroup)|exact (H WriterGroup)|exact (H PubSubConnection)].
Qed.

Lemma locate_sound b id k i : locate b id = Some (k, i) ->
  recoverable k /\ exists c, nth_error (created b k) i = Some c /\ cr_enabled c = true /\ NodeId_equal (cr_id c) id = true.
Proof.
  unfold locate. pose proof (find_created_spec (connections b) id) as H1. pose proof (find_created_spec (writerGroups b) id) as H2.
  pose proof (find_created_spec (readerGroups b) id) as H3.
  destruct (find_created (connections b) id); [intros E; injection E as <- <-; split; [cbn; tauto|exact H1]|].
  destruct (find_created (writerGroups b) id); [intros E; injection E as <- <-; split; [cbn; tauto|exact H2]|].
  destruct (find_created (readerGroups b) id); [|discriminate]. intros E. injection E as <- <-. split; [cbn; tauto|exact H3].
Qed.

Lemma locate_complete b k i c : recoverable k -> nth_error (created b k) i = Some c -> cr_enabled c = true ->
  exists k' i', locate b (cr_id c) = Some (k', i').
Proof.
  intros Hk Hc He. apply nth_error_In in Hc. unfold locate.
  pose proof (find_created_spec (connections b) (cr_id c)) as H1. pose proof (find_created_spec (writerGroups b) (cr_id c)) as H2.
  pose proof (find_created_spec (readerGroups b) (cr_id c)) as H3.
  destruct (find_created (connections b) _); [eauto|]. destruct (find_created (writerGroups b) _); [eauto|].
  destruct (find_created (readerGroups b) _); [cbn; eauto|]. exfalso.
  assert (NodeId_equal (cr_id c) (cr_id c) = false) by
    (destruct Hk as [<-|[<-|[<-|[]]]]; cbn in Hc; [apply (H1 c Hc He)|apply (H2 c Hc He)|apply (H3 c Hc He)]).
  now rewrite NodeId_equal_refl in H.
Qed.

(** The server gave the enabled components NodeIds of their own. *)
Definition distinct (b : Built) : Prop := forall k i c k' i' c', recoverable k -> recoverable k' ->
  nth_error (created b k) i = Some c -> nth_error (created b k') i' = Some c' -> cr_enabled c = true -> cr_enabled c' = true ->
  NodeId_equal (cr_id c') (cr_id c) = true -> (k, i) = (k', i').

Lemma locate_self b k i c : distinct b -> recoverable k -> nth_error (created b k) i = Some c -> cr_enabled c = true ->
  locate b (cr_id c) = Some (k, i).
Proof.
  intros Hd Hk Hc He. destruct (locate_complete b k i c Hk Hc He) as (k' & i' & E). rewrite E.
  apply locate_sound in E as (Hk' & c' & Hc' & He' & Hq). now rewrite (Hd k i c k' i' c').
Qed.

Lemma shape_nth b b' k i c : same_shape b b' -> nth_error (created b k) i = Some c ->
  exists c', nth_error (created b' k) i = Some c' /\ cr_id c' = cr_id c /\ cr_enabled c' = cr_enabled c.
Proof.
  intros H Hc. pose proof (map_nth_error shape i (created b k) Hc) as Hm. rewrite (H k) in Hm.
  rewrite nth_error_map in Hm. destruct (nth_error (created b' k) i) as [c'|]; [|discriminate].
  injection Hm as H1 H2. eauto.
Qed.

Lemma distinct_shape b b' : same_shape b b' -> distinct b -> distinct b'.
Proof.
  intros Hs Hd k i c k' i' c' Hk Hk' Hc Hc' He He' Hq. assert (same_shape b' b) as Hs' by (intros x; now rewrite Hs).
  destruct (shape_nth b' b k i c Hs' Hc) as (d & Hd1 & Hi & Hn). destruct (shape_nth b' b k' i' c' Hs' Hc') as (d' & Hd1' & Hi' & Hn').
  apply (Hd k i d k' i' d'); congruence.
Qed.

Context {W : Type} {srv : PubSubServer W} {laws : PubSubServerLaws srv}.

Definition delay_ok (d : Z) : Prop := d = 0 \/ RECOVERY_MIN_MS <= d <= RECOVERY_MAX_MS.

Lemma backoff_ok rt now : delay_ok (recoveryDelayMs rt) ->
  RECOVERY_MIN_MS <= fst (backoff rt now) <= RECOVERY_MAX_MS /\
  recoveryDelayMs (snd (backoff rt now)) = Z.min RECOVERY_MAX_MS (2 * fst (backoff rt now)).
Proof.
  unfold backoff, delay_ok, RECOVERY_MIN_MS, RECOVERY_MAX_MS. cbn [fst snd recoveryDelayMs]. intros H.
  set (ms := if _ <? _ then 200 else recoveryDelayMs rt). assert (ms = 0 \/ 200 <= ms <= 5000) as Hms
    by (unfold ms; destruct (_ <? _); [lia|exact H]). clearbody ms.
  set (d := if ms =? 0 then 200 else ms). assert (200 <= d <= 5000) by (unfold d; destruct (Z.eqb_spec ms 0); lia).
  clearbody d. unfold u32. rewrite uwrap_small by (cbn; lia). destruct (Z.ltb_spec 5000 (d * 2)); lia.
Qed.

Abbreviation world := (W * option (Z * Z))%type.

(** A recovery is pending, or the server did not take the callback. *)
Definition promised (w : world) (rt : Recovery) : Prop := recoveryPending rt = true \/ refused (snd w).

(** A later state of the recovery: the same components, an earlier promise kept. *)
Record grows (w : world) (rt : Recovery) (w' : world) (rt' : Recovery) : Prop := {
  g_shape : match rt_built rt, rt_built rt' with Some b, Some b' => same_shape b b' | None, None => True | _, _ => False end;
  g_pending : promised w rt -> promised w' rt';
  g_delay : delay_ok (recoveryDelayMs rt) -> delay_ok (recoveryDelayMs rt')
}.

Lemma grows_refl w rt : grows w rt w rt.
Proof. split; [destruct (rt_built rt); [apply shape_refl|exact I]|auto|auto]. Qed.
Lemma grows_trans w1 a w2 b w3 c : grows w1 a w2 b -> grows w2 b w3 c -> grows w1 a w3 c.
Proof.
  intros [S1 P1 D1] [S2 P2 D2]. split; [|auto|auto].
  destruct (rt_built a), (rt_built b), (rt_built c); try tauto. eapply shape_trans; eauto.
Qed.

Lemma schedule_grows (w : world) rt : let '(w', rt') := schedule_recovery (srv := logged srv) w rt in
  grows w rt w' rt' /\ promised w' rt' /\ rt_built rt' = rt_built rt.
Proof.
  destruct w as [v last]. unfold schedule_recovery. destruct (recoveryPending rt) eqn:E; [split; [apply grows_refl|split; [now left|reflexivity]]|].
  cbn [nowMonotonic logged fst snd]. destruct (nowMonotonic v) as [w1 now].
  pose proof (backoff_ok rt now) as Hb. destruct (backoff rt now) as [d rt1] eqn:Eb. cbn [addTimedCallback logged fst snd].
  destruct (addTimedCallback w1 _) as [w2 sc]. cbn [snd fst] in *.
  assert (rt_built rt1 = rt_built rt) as Hr by (unfold backoff in Eb; injection Eb as <- <-; reflexivity).
  set (at_ := s64 (now + d * UA_DATETIME_MSEC)).
  assert (promised (w2, Some (at_, sc)) (if sc =? UA_STATUSCODE_GOOD then with_pending rt1 true else rt1)) as Hp.
  { destruct (Z.eqb_spec sc UA_STATUSCODE_GOOD) as [->|Hs]; [now left|right]. now exists at_, sc. }
  assert (delay_ok (recoveryDelayMs rt) -> delay_ok (recoveryDelayMs rt1)) as Hd.
  { intros Hd. destruct (Hb Hd) as [H1 H2]. right. unfold RECOVERY_MIN_MS, RECOVERY_MAX_MS in *. lia. }
  split; [|split; [exact Hp|destruct (sc =? _); exact Hr]]. split; [|auto|destruct (sc =? _); exact Hd].
  destruct (sc =? _); cbn [with_pending rt_built]; rewrite Hr; (destruct (rt_built rt); [apply shape_refl|exact I]).
Qed.

(** What a state change can leave in Error without a promised recovery. *)
Lemma change_covers (w : world) rt id s : let '(w', rt') := on_state_change (srv := logged srv) w rt id s in
  grows w rt w' rt' /\ forall k i, in_error rt' k i ->
    promised w' rt' \/ (in_error rt k i /\ forall b, rt_built rt = Some b -> locate b id <> Some (k, i)).
Proof.
  unfold on_state_change. destruct (rt_built rt) as [b|] eqn:Eb.
  2:{ split; [apply grows_refl|]. intros k i H. right. split; [exact H|discriminate]. }
  destruct (locate b id) as [[k0 i0]|] eqn:El.
  2:{ split; [apply grows_refl|]. intros k i H. right. split; [exact H|]. intros b' E. injection E as <-. now rewrite El. }
  assert (grows w rt w (with_built rt (put_state b k0 i0 s))) as Hg.
  { split; cbn [with_built rt_built recoveryDelayMs]; auto. rewrite Eb. apply put_shape. }
  destruct (is_error s) eqn:Es.
  - pose proof (schedule_grows w (with_built rt (put_state b k0 i0 s))) as H.
    destruct (schedule_recovery _ _) as [w' rt']. destruct H as (H1 & H2 & _).
    split; [now apply (grows_trans _ _ _ _ _ _ Hg)|]. now left.
  - split; [exact Hg|]. intros k i (b' & c & E & Hc & He & Hs). right. cbn in E. injection E as <-.
    rewrite created_put in Hc. destruct (component_eq_dec k0 k) as [->|Hk].
    + rewrite nth_set_state in Hc. destruct (Nat.eqb_spec i0 i) as [->|Hi].
      * destruct (nth_error (created b k) i); [|discriminate]. injection Hc as <-. cbn in Hs. now subst s.
      * split; [now exists b, c|]. intros b1 E1. injection E1 as <-. congruence.
    + split; [now exists b, c|]. intros b1 E1. injection E1 as <-. congruence.
Qed.

Lemma deliver_covers evs : forall (w : world) rt, let '(w', rt') := deliver (srv := logged srv) w rt evs in
  grows w rt w' rt' /\ forall k i, in_error rt' k i ->
    promised w' rt' \/
    (in_error rt k i /\ forall b id s, rt_built rt = Some b -> In (id, s) evs -> locate b id <> Some (k, i)).
Proof.
  induction evs as [|[id s] evs IH]; intros w rt; cbn [deliver].
  { split; [apply grows_refl|]. intros k i H. right. split; [exact H|intros b id s _ []]. }
  pose proof (change_covers w rt id s) as H1. destruct (on_state_change w rt id s) as [w1 rt1]. destruct H1 as [G1 C1].
  specialize (IH w1 rt1). destruct (deliver w1 rt1 evs) as [w2 rt2]. destruct IH as [G2 C2].
  split; [now apply (grows_trans _ _ _ _ _ _ G1)|]. intros k i H.
  destruct (C2 k i H) as [Hp|[H1 N1]]; [now left|]. destruct (C1 k i H1) as [Hp|[H0 N0]]; [left; now apply G2|].
  right. split; [exact H0|]. intros b id' s' Eb [E|Hin]; [injection E as <- <-; auto|].
  pose proof (g_shape _ _ _ _ G1) as Hs. rewrite Eb in Hs. destruct (rt_built rt1) as [b1|] eqn:E1; [|destruct Hs].
  rewrite (locate_shape b b1) by assumption. eauto.
Qed.

(** After a [recover] of the entries [idx] of one kind, what is left in Error has a
    promised recovery, or failed, or was not among them. *)
Definition covers (r : world * Recovery * nat * nat) (w : world) (rt : Recovery) (k0 : component) (idx : list nat) (failed : nat) : Prop :=
  let '(w', rt', _, failed') := r in
  grows w rt w' rt' /\ (failed <= failed')%nat /\ forall k i, in_error rt' k i ->
    promised w' rt' \/ (0 < failed')%nat \/ (in_error rt k i /\ ~ (k = k0 /\ In i idx)).

Lemma recover_covers k0 idx : recoverable k0 -> forall (w : world) rt n failed, (forall b, rt_built rt = Some b -> distinct b) ->
  covers (recover_from (srv := logged srv) idx w rt k0 n failed) w rt k0 idx failed.
Proof.
  intros Hk0. unfold covers. induction idx as [|j idx IH]; intros w rt n failed Hd; cbn [recover_from].
  { split; [apply grows_refl|]. split; [lia|]. intros k i H. right; right. split; [exact H|]. now intros [_ []]. }
  assert (~ in_error rt k0 j -> covers (recover_from (srv := logged srv) idx w rt k0 n failed) w rt k0 (j :: idx) failed) as Hskip.
  { intros Hj. destruct (recover_from idx w rt k0 n failed) as [[[w' rt'] n'] failed'] eqn:E. specialize (IH w rt n failed Hd).
    rewrite E in IH. destruct IH as (G & Hf & C). split; [exact G|]. split; [exact Hf|]. intros k i H.
    destruct (C k i H) as [|[|[He Hn]]]; auto. right; right. split; [exact He|].
    intros [-> [<-|Hi]]; [exact (Hj He)|]. now apply Hn. }
  destruct (do b <- rt_built rt; nth_error (created b k0) j) as [c|] eqn:Ec; [|apply Hskip].
  2:{ intros (b & c & Eb & Hc & _). rewrite Eb in Ec. cbn in Ec. congruence. }
  destruct (rt_built rt) as [b|] eqn:Eb; [|discriminate]. cbn [obind] in Ec.
  destruct (cr_enabled c && is_error (cr_state c)) eqn:Ee; [|apply Hskip].
  2:{ intros (b' & c' & Eb' & Hc' & Hen & Hst). rewrite Eb in Eb'. injection Eb' as <-. rewrite Ec in Hc'. injection Hc' as <-.
      now rewrite Hen, Hst in Ee. }
  clear Hskip.
  apply andb_prop in Ee as [Hen Her]. pose proof (enable_reports (fst w) k0 (cr_id c)) as Hr. cbn [enableComponent logged].
  destruct (enableComponent (fst w) k0 (cr_id c)) as [v1 [sc evs]]. cbn [fst snd] in Hr. set (w1 := (v1, snd w) : world).
  assert (grows w rt w1 rt) as G0 by (split; auto; destruct (rt_built rt); [apply shape_refl|exact I]).
  pose proof (deliver_covers evs w1 rt) as H1. destruct (deliver w1 rt evs) as [w2 rt2]. destruct H1 as [G1 C1].
  apply (grows_trans _ _ _ _ _ _ G0) in G1. clear G0 w1.
  assert (forall b2, rt_built rt2 = Some b2 -> distinct b2) as Hd2.
  { intros b2 E2. pose proof (g_shape _ _ _ _ G1) as Hs. rewrite Eb, E2 in Hs. apply (distinct_shape _ _ Hs). auto. }
  set (failed1 := if sc =? UA_STATUSCODE_GOOD then failed else S failed).
  specialize (IH w2 rt2 (S n) failed1 Hd2). destruct (recover_from idx w2 rt2 k0 (S n) failed1) as [[[w' rt'] n'] failed'].
  destruct IH as (G & Hf & C). split; [now apply (grows_trans _ _ _ _ _ _ G1)|].
  split; [unfold failed1 in Hf; destruct (sc =? _); lia|]. intros k i H.
  destruct (C k i H) as [|[|[H2 Hn]]]; auto. destruct (C1 k i H2) as [Hp|[H0 N0]]; [left; now apply G|].
  destruct (Z.eqb_spec sc UA_STATUSCODE_GOOD) as [->|Hsc]; [|right; left; unfold failed1 in Hf; lia].
  right; right. split; [exact H0|]. intros [-> [->|Hi]]; [|now apply Hn]. destruct (Hr eq_refl) as [s Hin].
  apply (N0 b (cr_id c) s Eb Hin). apply locate_self; auto.
Qed.

Lemma recover_cb_covers (w : world) rt : (forall b, rt_built rt = Some b -> distinct b) ->
  let '(w', rt') := recover_cb (srv := logged srv) w rt in
  grows w (with_pending rt false) w' rt' /\ forall k i, recoverable k -> in_error rt' k i -> promised w' rt'.
Proof.
  intros Hd. unfold recover_cb. set (rt0 := with_pending rt false). change (rt_built rt0) with (rt_built rt).
  destruct (rt_built rt) as [b|] eqn:Eb.
  2:{ split; [apply grows_refl|]. intros k i _ (b & c & E & _). cbn in E. congruence. }
  assert (forall w1 rt1, grows w rt0 w1 rt1 -> forall b1, rt_built rt1 = Some b1 -> distinct b1) as Hd1.
  { intros w1 rt1 G b1 E1. pose proof (g_shape _ _ _ _ G) as Hs. cbn in Hs. rewrite Eb, E1 in Hs. apply (distinct_shape _ _ Hs). auto. }
  unfold recover. pose proof (recover_covers PubSubConnection (seq 0 (length (created b PubSubConnection))) ltac:(cbn; tauto) w rt0 0 0
    (Hd1 w rt0 (grows_refl w rt0))) as H1.
  destruct (recover_from _ w rt0 _ 0 0) as [[[w1 rt1] n1] f1]. destruct H1 as (G1 & F1 & C1).
  pose proof (recover_covers WriterGroup (seq 0 (length (created b WriterGroup))) ltac:(cbn; tauto) w1 rt1 0 f1 (Hd1 w1 rt1 G1)) as H2.
  destruct (recover_from _ w1 rt1 _ 0 f1) as [[[w2 rt2] n2] f2]. destruct H2 as (G2 & F2 & C2).
  pose proof (recover_covers ReaderGroup (seq 0 (length (created b ReaderGroup))) ltac:(cbn; tauto) w2 rt2 0 f2
    (Hd1 w2 rt2 (grows_trans _ _ _ _ _ _ G1 G2))) as H3.
  destruct (recover_from _ w2 rt2 _ 0 f2) as [[[w3 rt3] n3] f3]. destruct H3 as (G3 & F3 & C3).
  assert (grows w rt0 w3 rt3) as G by (eapply grows_trans; [exact G1|eapply grows_trans; eauto]).
  destruct (Nat.ltb_spec 0 f3) as [Hf|Hf].
  { pose proof (schedule_grows w3 rt3) as Hs. destruct (schedule_recovery w3 rt3) as [w4 rt4]. destruct Hs as (Gs & Hp & _).
    split; [now apply (grows_trans _ _ _ _ _ _ G)|auto]. }
  split; [exact G|]. intros k i Hk H. destruct (C3 k i H) as [|[|[I2 N3]]]; [assumption|lia|].
  destruct (C2 k i I2) as [Hp|[|[I1 N2]]]; [now apply G3|lia|]. destruct (C1 k i I1) as [Hp|[|[I0 N1]]]; [now apply G3, G2|lia|].
  exfalso. destruct I0 as (b' & c & E & Hc & _). cbn in E. rewrite Eb in E. injection E as <-.
  assert (In i (seq 0 (length (created b k)))) as Hi by (apply in_seq; split; [lia|]; apply nth_error_Some; congruence).
  destruct Hk as [<-|[<-|[<-|[]]]]; auto.
Qed.

(** The invariant of the recovery. *)
Record recovery_ok (b0 : Built) (last : option (Z * Z)) (rt : Recovery) : Prop := {
  ok_components : exists b, rt_built rt = Some b /\ same_shape b0 b;
  ok_pending : forall k i, recoverable k -> in_error rt k i -> recoveryPending rt = true \/ refused last;
  ok_delay : delay_ok (recoveryDelayMs rt)
}.

Lemma grows_components b0 w rt w' rt' : grows w rt w' rt' -> (exists b, rt_built rt = Some b /\ same_shape b0 b) ->
  exists b, rt_built rt' = Some b /\ same_shape b0 b.
Proof.
  intros G (b & E & Hs). pose proof (g_shape _ _ _ _ G) as H. rewrite E in H. destruct (rt_built rt') as [b'|]; [|destruct H].
  exists b'. split; [reflexivity|]. now apply (shape_trans _ b).
Qed.

Lemma handle_ok b0 w last rt e w' last' rt' : distinct b0 -> handle (srv := logged srv) (w, last) rt e = ((w', last'), rt') ->
  recovery_ok b0 last rt -> recovery_ok b0 last' rt'.
Proof.
  intros Hd He [Hc Hp Hdl]. destruct e as [id s|]; cbn [handle] in He.
  - pose proof (change_covers (w, last) rt id s) as H. rewrite He in H. destruct H as [G C].
    split; [now apply (grows_components b0 _ _ _ _ G)| |now apply G].
    intros k i Hk H. destruct (C k i H) as [|[H0 _]]; [assumption|]. apply G, (Hp k i); assumption.
  - pose proof (recover_cb_covers (w, last) rt) as H. rewrite He in H. destruct H as [G C].
    + intros b E. destruct Hc as (b' & E' & Hs). rewrite E in E'. injection E' as <-. now apply (distinct_shape _ _ Hs).
    + split; [now apply (grows_components b0 _ _ _ _ G)|exact C|now apply G].
Qed.

(** C10: whatever state changes the stack reports and whenever the timer fires, a
    connection, WriterGroup or ReaderGroup the configuration enabled that is in
    Error has a pending recovery, or the server refused the last timed callback that
    was asked for; the component tables keep their entries, and the delay stays
    between 200 ms and 5 s.  (The components have NodeIds of their own and start
    Disabled, and an enable that is Good has reported the component's state.) *)
Theorem error_has_recovery b0 rt0 last rt : distinct b0 -> rt_built rt0 = Some b0 ->
  (forall k c, In c (created b0 k) -> cr_state c = PS_DISABLED) -> recoveryDelayMs rt0 = 0 ->
  reachable rt0 last rt -> recovery_ok b0 last rt.
Proof.
  intros Hd Hb Hs Hz Hr. induction Hr as [|last rt w e w' last' rt' Hr IH Hp He]; [|exact (handle_ok _ _ _ _ _ _ _ _ Hd He IH)].
  split; [exists b0; split; [exact Hb|apply shape_refl]| |now left].
  intros k i _ (b & c & E & Hc & _ & Her). rewrite Hb in E. injection E as <-. apply nth_error_In in Hc.
  now rewrite (Hs k c Hc) in Her.
Qed.

(** * Backoff *)

(** The delays of re-enables scheduled at the times [ts]. *)
Fixpoint delays (rt : Recovery) (ts : list Z) : list Z :=
  match ts with
  | [] => []
  | t :: r => fst (backoff rt t) :: delays (snd (backoff rt t)) r
  end.

(** Times after [last], none more than 10 s after the one before. *)
Fixpoint spaced (last : Z) (ts : list Z) : Prop :=
  match ts with
  | [] => True
  | t :: r => 0 <= last <= t /\ t < 2 ^ 62 /\ t - last <= 2 * RECOVERY_MAX_MS * UA_DATETIME_MSEC /\ spaced t r
  end.

(** The [k]-th delay of a series: 200 ms doubled each time, at most 5 s. *)
Definition nth_delay (k : nat) : Z := Z.min RECOVERY_MAX_MS (RECOVERY_MIN_MS * 2 ^ Z.of_nat k).

Lemma nth_delay_S k : nth_delay (S k) = Z.min RECOVERY_MAX_MS (2 * nth_delay k).
Proof. unfold nth_delay, RECOVERY_MAX_MS, RECOVERY_MIN_MS. rewrite Nat2Z.inj_succ, Z.pow_succ_r by lia. lia. Qed.

Lemma nth_delay_range k : RECOVERY_MIN_MS <= nth_delay k <= RECOVERY_MAX_MS.
Proof.
  unfold nth_delay, RECOVERY_MAX_MS, RECOVERY_MIN_MS. pose proof (Z.pow_pos_nonneg 2 (Z.of_nat k) ltac:(lia) ltac:(lia)). lia.
Qed.

Lemma backoff_keeps rt now : 0 <= lastErrorAt rt <= now -> now < 2 ^ 62 ->
  now - lastErrorAt rt <= 2 * RECOVERY_MAX_MS * UA_DATETIME_MSEC -> recoveryDelayMs rt <> 0 ->
  fst (backoff rt now) = recoveryDelayMs rt.
Proof.
  intros H1 H2 H3 H4. unfold backoff, s64. cbn [fst]. rewrite swrap_small by (cbn; lia).
  destruct (Z.ltb_spec (2 * RECOVERY_MAX_MS * UA_DATETIME_MSEC) (now - lastErrorAt rt)); [lia|].
  now destruct (Z.eqb_spec (recoveryDelayMs rt) 0).
Qed.

Lemma delays_series ts : forall rt k, recoveryDelayMs rt = nth_delay k -> spaced (lastErrorAt rt) ts ->
  delays rt ts = map nth_delay (seq k (length ts)).
Proof.
  induction ts as [|t ts IH]; intros rt k Hd Hs; [reflexivity|]. destruct Hs as (H1 & H2 & H3 & Hs).
  pose proof (nth_delay_range k) as Hk. cbn [delays length seq map].
  assert (fst (backoff rt t) = nth_delay k) as Hf by
    (rewrite backoff_keeps; auto; unfold RECOVERY_MIN_MS in Hk; lia).
  rewrite Hf, (IH (snd (backoff rt t)) (S k)); [reflexivity| |exact Hs].
  destruct (backoff_ok rt t) as [_ ->]; [right; rewrite Hd; exact Hk|]. now rewrite Hf, nth_delay_S.
Qed.

Lemma delays_start rt t ts :
  recoveryDelayMs rt = 0 \/ 2 * RECOVERY_MAX_MS * UA_DATETIME_MSEC < t - lastErrorAt rt ->
  0 <= lastErrorAt rt <= t -> t < 2 ^ 62 -> spaced t ts ->
  delays rt (t :: ts) = map nth_delay (seq 0 (S (length ts))).
Proof.
  intros Hq Ht Hm Hs.
  assert (fst (backoff rt t) = RECOVERY_MIN_MS) as Hf.
  { unfold backoff, s64. cbn [fst]. rewrite swrap_small by (cbn; lia).
    destruct (Z.ltb_spec (2 * RECOVERY_MAX_MS * UA_DATETIME_MSEC) (t - lastErrorAt rt)); [reflexivity|].
    destruct Hq as [->|]; [reflexivity|lia]. }
  cbn [delays seq map]. rewrite Hf. f_equal. apply delays_series; [|exact Hs].
  unfold backoff in *. cbn [fst snd recoveryDelayMs] in *. rewrite Hf. reflexivity.
Qed.

(** Successive calls of [schedule_recovery], each after the callback of the one
    before has run (nothing is pending): the clock at each, and the time the
    callback is registered for. *)
Inductive scheduled : Recovery -> list (Z * Z) -> Prop :=
| scheduled_none rt : scheduled rt []
| scheduled_next rt v last v1 now v2 at_ sc rt' calls :
    nowMonotonic v = (v1, now) ->
    schedule_recovery (srv := logged srv) (v, last) (with_pending rt false) = ((v2, Some (at_, sc)), rt') ->
    scheduled rt' calls -> scheduled rt ((now, at_) :: calls).

Lemma delays_pending rt p ts : delays (with_pending rt p) ts = delays rt ts.
Proof.
  revert rt p. induction ts as [|t r IH]; intros rt p; [reflexivity|]. cbn [delays].
  replace (snd (backoff (with_pending rt p) t)) with (with_pending (snd (backoff rt t)) p) by reflexivity. now rewrite IH.
Qed.

Lemma scheduled_delays rt calls : scheduled rt calls -> Forall (fun c => 0 <= fst c < 2 ^ 62) calls -> delay_ok (recoveryDelayMs rt) ->
  map (fun c => snd c - fst c) calls = map (fun d => d * UA_DATETIME_MSEC) (delays rt (map fst calls)).
Proof.
  induction 1 as [|rt v last v1 now v2 at_ sc rt' calls Hn Hs Hc IH]; intros Hb Hd; [reflexivity|]. inversion Hb as [|? ? Hb1 Hb2]; subst. cbn [fst] in Hb1.
  unfold schedule_recovery in Hs. cbn [with_pending recoveryPending nowMonotonic logged fst snd] in Hs. rewrite Hn in Hs.
  destruct (backoff_ok (with_pending rt false) now Hd) as [Hr Hn2].
  change (fst (backoff (with_pending rt false) now)) with (fst (backoff rt now)) in Hr, Hn2.
  change (recoveryDelayMs (snd (backoff (with_pending rt false) now))) with (recoveryDelayMs (snd (backoff rt now))) in Hn2.
  rewrite (surjective_pairing (backoff (with_pending rt false) now)) in Hs.
  change (fst (backoff (with_pending rt false) now)) with (fst (backoff rt now)) in Hs.
  change (snd (backoff (with_pending rt false) now)) with (with_pending (snd (backoff rt now)) false) in Hs.
  destruct (backoff rt now) as [d rt1] eqn:Eb. cbn [addTimedCallback logged fst snd] in *.
  destruct (addTimedCallback v1 _) as [v3 sc3] eqn:Ea. injection Hs as -> <- -> <-.
  cbn [map delays fst snd]. rewrite Eb. cbn [map delays fst snd]. rewrite IH; [|exact Hb2|].
  - f_equal.
    + unfold s64, RECOVERY_MIN_MS, RECOVERY_MAX_MS, UA_DATETIME_MSEC in *. rewrite swrap_small by (cbn; lia). lia.
    + f_equal. destruct (sc =? _); [|apply delays_pending]. now rewrite !delays_pending.
  - assert (delay_ok (recoveryDelayMs rt1)) as H; [|destruct (sc =? _); exact H].
    right. unfold RECOVERY_MIN_MS, RECOVERY_MAX_MS in *. lia.
Qed.

End Lemmas.

(** * A server to run against *)

(** The world is the clock; enabling a component works and is reported. *)
#[export] Instance ref_pubsub : PubSubServer Z := {
  nowMonotonic w := (w, w);
  addTimedCallback w _ := (w, UA_STATUSCODE_GOOD);
  enableComponent w _ id := (w, (UA_STATUSCODE_GOOD, [(id, PS_OPERATIONAL)])) }.

#[export] Instance ref_pubsub_laws : PubSubServerLaws ref_pubsub.
Proof. split. intros w k id _. exists PS_OPERATIONAL. now left. Qed.

Definition one_connection : Built :=
  {| connections := [{| cr_id := UA_NODEID_NUMERIC 1 7; cr_enabled := true; cr_state := PS_DISABLED |}];
     writerGroups := []; writers := []; readerGroups := []; readers := []; pds := [] |}.

Definition recovery_start : Recovery :=
  {| rt_built := Some one_connection; recoveryPending := false; recoveryDelayMs := 0; lastErrorAt := 0 |}.

Lemma one_distinct : distinct one_connection.
Proof.
  intros k i c k' i' c' Hk Hk' Hc Hc' _ _ _. cbn in Hk, Hk'.
  destruct Hk as [<-|[<-|[<-|[]]]], Hk' as [<-|[<-|[<-|[]]]]; cbn in Hc, Hc';
    destruct i as [|[|i]], i' as [|[|i']]; cbn in Hc, Hc'; try discriminate; reflexivity.
Qed.

Definition failing (w : Z) : Recovery := snd (handle w recovery_start (StateChange (UA_NODEID_NUMERIC 1 7) PS_ERROR)).

Lemma error_has_recovery_witness :
  in_error (failing 50000000) PubSubConnection 0 /\ recovery_ok one_connection (Some (52000000, 0)) (failing 50000000).
Proof.
  split; [now repeat eexists|]. apply (error_has_recovery one_connection recovery_start (Some (52000000, 0)) (failing 50000000) one_distinct eq_refl).
  - intros k c H. destruct k; cbn in H; [destruct H as [<-|[]]; reflexivity|destruct H..].
  - reflexivity.
  - eapply (reach_step recovery_start None recovery_start 50000000 (StateChange (UA_NODEID_NUMERIC 1 7) PS_ERROR)); [apply reach_start|discriminate|].
    reflexivity.
Defined.


(** A server that takes no timed callback: the component stays in Error and nothing
    is pending. *)
Lemma recovery_lost : let srv := {| nowMonotonic w := (w, w); addTimedCallback w (_ : Z) := (w, UA_STATUSCODE_BADOUTOFMEMORY);
                      enableComponent (w : Z) (_ : component) id := (w, (UA_STATUSCODE_GOOD, [(id, PS_OPERATIONAL)])) |} in
  let rt := snd (handle (srv := srv) 50000000 recovery_start (StateChange (UA_NODEID_NUMERIC 1 7) PS_ERROR)) in
  in_error rt PubSubConnection 0 /\ recoveryPending rt = false.
Proof. split; [now repeat eexists|reflexivity]. Qed.

(** An error reported while a recovery is pending is not remembered: 5.2 s after the
    last error the delay starts over, where the comment asks for 10 s without one. *)
Lemma pending_error_forgotten :
  let id := UA_NODEID_NUMERIC 1 7 in
  let rt := {| rt_built := Some (put_state one_connection PubSubConnection 0 PS_ERROR); recoveryPending := true;
               recoveryDelayMs := 5000; lastErrorAt := 0 |} in
  let rt := snd (handle 49000000 rt (StateChange id PS_ERROR)) in
  let rt := snd (handle 50000000 rt TimerFires) in
  recoveryDelayMs (snd (handle 101000000 rt (StateChange id PS_ERROR))) = 2 * RECOVERY_MIN_MS.
Proof. reflexivity. Qed.
