(* ===== verification/PubSubConfig.v ===== *)
(** pubsub_server.c: `--pubsub-config`.  The JSON file is read into security groups
    and a PubSubConfigurationDataType, the components are added to the server call
    by call, keys are handed to the secured groups, and the enabled components are
    enabled.  The stack's server API is a class; error messages are the texts of
    [errBuf]; the log lines on stderr are not modelled. *)

From Stdlib Require Import String Ascii ZArith Bool List Lia SpecFloat.
Import ListNotations.
From S2P Require Import Prelude CLib Certificates Float UaTypes RefStack Base64 CJson Args PubSubSecurity PubSubRecovery PubSubJson.

Definition UA_STATUSCODE_BADTYPEMISMATCH : Z := 0x80740000.
Definition UA_STATUSCODE_BADCONFIGURATIONERROR : Z := 0x80890000.
Definition UA_STATUSCODE_BADARGUMENTSMISSING : Z := 0x80760000.
Definition UA_STATUSCODE_BADTOOMANYARGUMENTS : Z := 0x80E50000.
Definition UA_STATUSCODE_BADNOTFOUND : Z := 0x803E0000.

Definition PROFILE_UDP_UADP : bytes := B "http://opcfoundation.org/UA-Profile/Transport/pubsub-udp-uadp".
Definition PROFILE_MQTT_UADP : bytes := B "http://opcfoundation.org/UA-Profile/Transport/pubsub-mqtt-uadp".
Definition PROFILE_MQTT_JSON : bytes := B "http://opcfoundation.org/UA-Profile/Transport/pubsub-mqtt-json".

Definition MAX_SECURED : nat := 64.
Definition MAX_COMPONENTS : nat := 256.

(** * The decoded configuration *)

(** A structure the code only passes on; [[]] is the zeroed one. *)
Definition opaque := bytes.

Record published_variable := { pv_attributeId : Z; pv_rest : opaque }.

(** The ExtensionObjects of a configuration, by the types the code tells apart. *)
Inductive ext_object :=
| EoNoBody
| EoEncoded (rest : opaque)
| EoPublishedDataItems (items : list published_variable)
| EoTargetVariables (targets : list opaque)
| EoSubscribedDataSetMirror
| EoJsonWriterGroupMessage (rest : opaque)
| EoJsonDataSetReaderMessage (rest : opaque)
| EoBrokerDataSetReaderTransport (queueName : ua_string) (rest : opaque)
| EoNetworkAddressUrl (networkInterface url : ua_string)
| EoOther (rest : opaque).

Definition eo_empty (e : ext_object) : bool := match e with EoNoBody => true | _ => false end.
Definition eo_decoded (e : ext_object) : bool := match e with EoNoBody | EoEncoded _ => false | _ => true end.

Record field_metadata := { fm_name : ua_string; fm_fieldFlags : Z; fm_maxStringLength : Z; fm_description : opaque;
  fm_dataSetFieldId : opaque }.
Record dataset_metadata := { md_fields : list field_metadata; md_configurationVersion : opaque; md_rest : opaque }.
Record published_dataset := { pd_name : ua_string; pd_metaData : dataset_metadata; pd_source : ext_object }.

Record dataset_writer := { dw_name : ua_string; dw_enabled : bool; dw_dataSetWriterId : Z; dw_fieldContentMask : Z;
  dw_keyFrameCount : Z; dw_dataSetName : ua_string; dw_properties : opaque; dw_transportSettings : ext_object;
  dw_messageSettings : ext_object }.
Record writer_group := { wg_name : ua_string; wg_enabled : bool; wg_securityMode : security_mode; wg_securityGroupId : ua_string;
  wg_properties : opaque; wg_writerGroupId : Z; wg_publishingInterval : spec_float; wg_keepAliveTime : spec_float;
  wg_priority : Z; wg_transportSettings : ext_object; wg_messageSettings : ext_object; wg_writers : list dataset_writer }.

Record dataset_reader := { dr_name : ua_string; dr_enabled : bool; dr_publisherId : ua_variant; dr_writerGroupId : Z;
  dr_dataSetWriterId : Z; dr_metaData : dataset_metadata; dr_fieldContentMask : Z; dr_receiveTimeout : spec_float;
  dr_transportSettings : ext_object; dr_messageSettings : ext_object; dr_subscribedDataSet : ext_object }.
Record reader_group := { rg_name : ua_string; rg_enabled : bool; rg_securityMode : security_mode; rg_securityGroupId : ua_string;
  rg_properties : opaque; rg_transportSettings : ext_object; rg_readers : list dataset_reader }.

Record connection := { cn_name : ua_string; cn_enabled : bool; cn_publisherId : ua_variant; cn_transportProfileUri : ua_string;
  cn_address : ext_object; cn_properties : opaque; cn_transportSettings : ext_object;
  cn_writerGroups : list writer_group; cn_readerGroups : list reader_group }.
Record configuration := { cf_publishedDataSets : list published_dataset; cf_connections : list connection; cf_enabled : bool }.

(** * What the adapter hands to the server *)

Inductive mime := ENCODING_UADP | ENCODING_JSON.

Record field_config := { fc_alias : ua_string; fc_promoted : bool; fc_maxStringLength : Z; fc_description : opaque;
  fc_dataSetFieldId : opaque; fc_configurationVersion : opaque; fc_parameters : published_variable }.
Record connection_config := { cc_name : ua_string; cc_transportProfileUri : ua_string; cc_networkInterface : ua_string;
  cc_url : ua_string; cc_properties : opaque; cc_transportSettings : option ext_object; cc_publisherId : option ua_variant }.
Record writer_group_config := { wc_name : ua_string; wc_writerGroupId : Z; wc_publishingInterval : spec_float;
  wc_keepAliveTime : spec_float; wc_priority : Z; wc_transportSettings : ext_object; wc_messageSettings : ext_object;
  wc_properties : opaque; wc_maxEncapsulated : Z; wc_encoding : mime; wc_securityMode : security_mode;
  wc_securityGroupId : ua_string; wc_securityPolicy : option PubSubSecurityPolicy }.
Record dataset_writer_config := { dwc_name : ua_string; dwc_dataSetWriterId : Z; dwc_fieldContentMask : Z;
  dwc_keyFrameCount : Z; dwc_messageSettings : ext_object; dwc_transportSettings : ext_object; dwc_dataSetName : ua_string;
  dwc_properties : opaque }.
Record reader_group_config := { rgc_name : ua_string; rgc_securityMode : security_mode; rgc_securityGroupId : ua_string;
  rgc_properties : opaque; rgc_encoding : mime; rgc_transportSettings : ext_object;
  rgc_securityPolicy : option PubSubSecurityPolicy }.
Record dataset_reader_config := { drc_name : ua_string; drc_publisherId : option ua_variant; drc_writerGroupId : Z;
  drc_dataSetWriterId : Z; drc_metaData : dataset_metadata; drc_fieldContentMask : Z; drc_receiveTimeout : spec_float;
  drc_messageSettings : ext_object; drc_transportSettings : ext_object }.
Record security_group_config := { sgc_name : ua_string; sgc_keyLifeTime : spec_float; sgc_policyUri : ua_string;
  sgc_maxFutureKeyCount : Z; sgc_maxPastKeyCount : Z }.
Record sks_client_config := { sk_cert : bytes; sk_key : bytes; sk_trust : list bytes; sk_policyUri : bytes;
  sk_mode : security_mode; sk_applicationUri : option bytes; sk_user : option (bytes * bytes) }.

(** The calls of the server API that change the server; a flag tells a WriterGroup
    from a ReaderGroup where the stack has one function for each. *)
Inductive call :=
| AddPublishedDataSet (name : ua_string)
| AddDataSetField (pds : ua_nodeid) (c : field_config)
| AddPubSubConnection (c : connection_config)
| AddWriterGroup (conn : ua_nodeid) (c : writer_group_config)
| AddDataSetWriter (group pds : ua_nodeid) (c : dataset_writer_config)
| AddReaderGroup (conn : ua_nodeid) (c : reader_group_config)
| AddDataSetReader (group : ua_nodeid) (c : dataset_reader_config)
| SetTargetVariables (reader : ua_nodeid) (targets : list opaque)
| SetGroupEncryptionKeys (isWriter : bool) (group : ua_nodeid) (tokenId : Z) (sig enc nonce : bytes)
| SetGroupActivateKey (isWriter : bool) (group : ua_nodeid)
| AddSecurityGroup (parent : ua_nodeid) (c : security_group_config)
| RemoveSecurityGroup (group : ua_nodeid)
| SetSksClient (groupId : bytes) (c : sks_client_config) (endpointUrl : bytes)
| AddRetryCallback
| SetDeltaFrames (on : bool)
| SetMethodCallback (folderType add : bool)
| WriteSupportedProfiles (profiles : list bytes).

(** A call returns a status and, for the functions that create one, a NodeId. *)
Class PubSubApi (W : Type) := {
  api : W -> call -> W * (Z * ua_nodeid);
  (** UA_Server_readValue of Server.NamespaceArray *)
  read_namespace_array : W -> Z * ua_variant;
  (** a file that can be read *)
  pubsub_file : W -> bytes -> option bytes;
  (** the names [readdir] returns, [None] when the directory cannot be opened *)
  directory : W -> bytes -> option (list bytes);
  (** OpenSSL on certificate files *)
  sks_names : CertificateNames;
  (** UA_ClientConfig_setDefaultEncryption *)
  sks_encryption : bytes -> bytes -> list bytes -> Z;
  PublisherId_fromVariant : ua_variant -> Z;
  (** UA_decodeJson into a PubSubConfigurationDataType *)
  decode_configuration : bytes -> list ua_string -> Z * configuration
}.

(** * Runtime state *)

Inductive KeySource := KEYSRC_NONE | KEYSRC_STATIC | KEYSRC_SKS_SERVER | KEYSRC_SKS_CLIENT.

Record StaticKey := { tokenId : Z; key : bytes }.

Record SecGroup := { sg_id : bytes; sg_policyUri : bytes; sg_keyLifetimeMs : spec_float; sg_maxFutureKeyCount : Z;
  sg_maxPastKeyCount : Z; sg_keys : list StaticKey; sg_source : KeySource; sksKeysReceived : bool; sksInFlight : bool }.

Record SksSettings := { sks_endpointUrl : bytes; sks_policy : option bytes; sks_mode : option bytes;
  sks_username : option bytes; sks_password : option bytes; sks_certFile : bytes; sks_keyFile : bytes;
  sks_pkiDir : option bytes }.

Record SecuredGroup := { sec_id : ua_nodeid; sec_isWriter : bool; sec_groupId : bytes }.

Record PubSubOptions := { configPath : bytes; opt_certFile : option bytes; opt_keyFile : option bytes; opt_pkiDir : option bytes }.

(** The server, [g_rt] and [g_secured], and the [Built] under construction. *)
Record State (W : Type) := { st_w : W; st_groups : list SecGroup; st_sks : option SksSettings; st_secured : list SecuredGroup;
  st_building : Built; st_recovery : Recovery }.
Arguments Build_State {W}.
Arguments st_w {W}.
Arguments st_groups {W}.
Arguments st_sks {W}.
Arguments st_secured {W}.
Arguments st_building {W}.
Arguments st_recovery {W}.

(** ** Steps over the state that can fail with a message *)

(** [Crashed]: an access outside an array or through a NULL pointer. *)
Inductive res (A : Type) := Done (a : A) | Failed (msg : bytes) | Crashed.
Arguments Done {A}.
Arguments Failed {A}.
Arguments Crashed {A}.

Definition M (W A : Type) : Type := State W -> State W * res A.

Definition ret {W A} (a : A) : M W A := fun st => (st, Done a).
Definition fail_with {W A} (msg : bytes) : M W A := fun st => (st, Failed msg).
Definition crash {W A} : M W A := fun st => (st, Crashed).
Definition bind {W A C} (m : M W A) (k : A -> M W C) : M W C := fun st =>
  match m st with
  | (st, Done a) => k a st
  | (st, Failed msg) => (st, Failed msg)
  | (st, Crashed) => (st, Crashed)
  end.
Definition gets {W A} (f : State W -> A) : M W A := fun st => (st, Done (f st)).
Definition modify {W} (f : State W -> State W) : M W unit := fun st => (f st, Done tt).

Declare Scope pubsub_scope.
Notation "'run' x <- m ; k" := (bind m (fun x => k))
  (at level 10, x name, m at level 100, k at level 200) : pubsub_scope.
Notation "'also' m ; k" := (bind m (fun _ => k)) (at level 10, m at level 100, k at level 200) : pubsub_scope.
Open Scope pubsub_scope.

Fixpoint for_each {W A} (f : A -> M W unit) (l : list A) : M W unit :=
  match l with
  | [] => ret tt
  | a :: r => also f a; for_each f r
  end.

Definition lift {W A} (r : result A) : M W A := match r with Ok a => ret a | Err msg => fail_with msg end.

(** * Helpers *)

Section Config.
Context {stack : UaStack} {cj : CJson} {cpu : Cpu} {nid : NodeIdOps} {types : TypeTable} {len : CJsonLength}
  {W : Type} {papi : PubSubApi W} {psrv : PubSubServer W}.
(** [errLen] of the caller and [pubSubConfig.securityPolicies] of the server. *)
Context (errLen : nat) (policies : list PubSubSecurityPolicy).

Definition ua_to_cstr (s : ua_string) : bytes := cstr (default [] s).

Definition status_name (sc : Z) : bytes := default (B "(null)") (StatusCode_name sc).

(** [set_err] with its format filled in. *)
Definition set_err (msg : bytes) (sc : Z) : bytes :=
  let msg := snprintf 384 msg in
  if negb (sc =? UA_STATUSCODE_GOOD) then snprintf errLen (msg ++ B ": " ++ status_name sc) else snprintf errLen msg.

Definition load_file (w : W) (path : bytes) : bytes := default [] (pubsub_file w path).

Definition ua_streq (s : ua_string) (c : bytes) : bool := streq (default [] s) c.

(** [UA_String_equal]: NULL and the empty string are equal. *)
Definition ua_string_equal (a b : ua_string) : bool := streq (default [] a) (default [] b).

(** A call to the server. *)
Definition server_call (c : call) : M W (Z * ua_nodeid) := fun st =>
  let '(w, r) := api (st_w st) c in
  ({| st_w := w; st_groups := st_groups st; st_sks := st_sks st; st_secured := st_secured st;
      st_building := st_building st; st_recovery := st_recovery st |}, Done r).

(** A call whose failure ends the configuration with [set_err]. *)
Definition must (c : call) (msg : bytes) : M W ua_nodeid :=
  run r <- server_call c;
  if fst r =? UA_STATUSCODE_GOOD then ret (snd r) else fail_with (set_err msg (fst r)).

Definition set_building (f : Built -> Built) : M W unit := modify (fun st =>
  {| st_w := st_w st; st_groups := st_groups st; st_sks := st_sks st; st_secured := st_secured st;
     st_building := f (st_building st); st_recovery := st_recovery st |}).

(** [if (n < MAX_COMPONENTS) list[n++] = ...] *)
Definition push {A} (l : list A) (a : A) : list A := if Nat.ltb (length l) MAX_COMPONENTS then l ++ [a] else l.

Definition new_created (id : ua_nodeid) (enabled : bool) : Created :=
  {| cr_id := id; cr_enabled := enabled; cr_state := PS_DISABLED |}.

Definition push_created (k : component) (id : ua_nodeid) (enabled : bool) : M W unit :=
  let c := new_created id enabled in
  set_building (fun b =>
    {| connections := match k with PubSubConnection => push (connections b) c | _ => connections b end;
       writerGroups := match k with WriterGroup => push (writerGroups b) c | _ => writerGroups b end;
       writers := match k with DataSetWriter => push (writers b) c | _ => writers b end;
       readerGroups := match k with ReaderGroup => push (readerGroups b) c | _ => readerGroups b end;
       readers := match k with DataSetReader => push (readers b) c | _ => readers b end; pds := pds b |}).

Definition push_pds (name : ua_string) (id : ua_nodeid) : M W unit :=
  set_building (fun b =>
    {| connections := connections b; writerGroups := writerGroups b; writers := writers b;
       readerGroups := readerGroups b; readers := readers b; pds := pds b ++ [(name, id)] |}).

(** * Security groups *)

Definition find_group (groups : list SecGroup) (id : ua_string) : option SecGroup :=
  match id with
  | None | Some [] => None
  | _ => find (fun g => ua_streq id (sg_id g)) groups
  end.

Definition item_of (o : cjson) (k : string) : option cjson := cJSON_GetObjectItemCaseSensitive o (B k).

Definition group_label (gi : nat) : bytes := B "securityGroups[" ++ fmt_u (Z.of_nat gi) ++ B "]".

Fixpoint parse_keys (gi ki : nat) (l : list cjson) : result (list StaticKey) :=
  match l with
  | [] => Ok []
  | k :: r =>
      let label := group_label gi ++ B ".keys[" ++ fmt_u (Z.of_nat ki) ++ B "]" in
      match item_of k "tokenId", item_of k "key" with
      | Some (CNumber tok _), Some (CString s) =>
          match value_b64_decode s with
          | None => Err (snprintf errLen (label ++ B ".key is not Base64"))
          | Some b => try rest <- parse_keys gi (S ki) r; Ok ({| tokenId := to_uint32 tok; key := b |} :: rest)
          end
      | _, _ => Err (snprintf errLen (label ++ B " needs tokenId and key"))
      end
  end.

Definition number_or {A} (o : cjson) (k : string) (f : spec_float -> A) (d : A) : A :=
  match item_of o k with Some (CNumber x _) => f x | _ => d end.

Definition parse_group (gi : nat) (g : cjson) : result SecGroup :=
  match item_of g "securityGroupId" with
  | Some (CString ((_ :: _) as id)) =>
      try keys <- match item_of g "keys" with
                  | None => Ok []
                  | Some (CArray l) => parse_keys gi 0 l
                  | Some _ => Err (snprintf errLen (group_label gi ++ B ".keys must be an array"))
                  end;
      Ok {| sg_id := id;
            sg_policyUri := match item_of g "securityPolicyUri" with Some (CString s) => s | _ => PUBSUB_POLICY_AES256CTR end;
            sg_keyLifetimeMs := number_or g "keyLifetimeMs" (fun x => x) (double_of false 60000 0);
            sg_maxFutureKeyCount := number_or g "maxFutureKeyCount" to_uint32 2;
            sg_maxPastKeyCount := number_or g "maxPastKeyCount" to_uint32 1;
            sg_keys := keys; sg_source := KEYSRC_NONE; sksKeysReceived := false; sksInFlight := false |}
  | _ => Err (snprintf errLen (group_label gi ++ B ".securityGroupId is required"))
  end.

Fixpoint parse_groups (gi : nat) (l : list cjson) : result (list SecGroup) :=
  match l with
  | [] => Ok []
  | g :: r => try x <- parse_group gi g; try rest <- parse_groups (S gi) r; Ok (x :: rest)
  end.

Definition parse_security_groups (arr : option cjson) : result (list SecGroup) :=
  match arr with
  | None => Ok []
  | Some (CArray l) => parse_groups 0 l
  | Some _ => Err (snprintf errLen (B "securityGroups must be an array"))
  end.

Definition with_source (g : SecGroup) (s : KeySource) : SecGroup :=
  {| sg_id := sg_id g; sg_policyUri := sg_policyUri g; sg_keyLifetimeMs := sg_keyLifetimeMs g;
     sg_maxFutureKeyCount := sg_maxFutureKeyCount g; sg_maxPastKeyCount := sg_maxPastKeyCount g; sg_keys := sg_keys g;
     sg_source := s; sksKeysReceived := sksKeysReceived g; sksInFlight := sksInFlight g |}.

(** The key source of a group. *)
Definition key_source (serveSks jsks : bool) (g : SecGroup) : result SecGroup :=
  match adapter_pubsub_find_policy policies (sg_policyUri g) with
  | None => Err (set_err (B "securityGroups: unsupported securityPolicyUri '" ++ sg_policyUri g
                          ++ B "' (PubSub-Aes128-CTR, PubSub-Aes256-CTR)") UA_STATUSCODE_BADSECURITYPOLICYREJECTED)
  | Some _ =>
      if serveSks then
        match sg_keys g with
        | _ :: _ => Err (set_err (B "SecurityGroup '" ++ sg_id g ++ B "': " ++ J "'keys' cannot be combined with "
                                  ++ J "'serveSks' (the SKS generates the keys; read them with GetSecurityKeys)") UA_STATUSCODE_GOOD)
        | [] => Ok (with_source g KEYSRC_SKS_SERVER)
        end
      else Ok (with_source g (match sg_keys g with _ :: _ => KEYSRC_STATIC | [] => if jsks then KEYSRC_SKS_CLIENT else KEYSRC_NONE end))
  end.

(** * Keys *)

Definition push_secured (s : SecuredGroup) : M W unit := modify (fun st =>
  {| st_w := st_w st; st_groups := st_groups st; st_sks := st_sks st;
     st_secured := if Nat.ltb (length (st_secured st)) MAX_SECURED then st_secured st ++ [s] else st_secured st;
     st_building := st_building st; st_recovery := st_recovery st |}).

Definition apply_group_keys (id : ua_nodeid) (isWriter : bool) (sg : SecGroup) (sp : PubSubSecurityPolicy) : M W unit :=
  also push_secured {| sec_id := id; sec_isWriter := isWriter; sec_groupId := sg_id sg |};
  match sg_source sg with
  | KEYSRC_STATIC =>
      match sg_keys sg with
      | [] => crash
      | k :: _ =>
          match split_key sp (key k) with
          | None => crash
          | Some (inl _) =>
              fail_with (snprintf errLen (snprintf 256 (B "SecurityGroup '" ++ sg_id sg ++ B "': key length "
                ++ fmt_u (Z.of_nat (length (key k))) ++ B " does not match " ++ sg_policyUri sg ++ B " ("
                ++ fmt_u (Z.of_nat (nonceLength sp)) ++ B " bytes: signingKey|encryptingKey|keyNonce)")))
          | Some (inr (sig, enc, nonce)) =>
              also must (SetGroupEncryptionKeys isWriter id (tokenId k) sig enc nonce)
                (B "setting the static keys of SecurityGroup '" ++ sg_id sg ++ B "'");
              ret tt
          end
      end
  | KEYSRC_SKS_SERVER =>
      also must (SetGroupActivateKey isWriter id) (B "activating the SKS keys of SecurityGroup '" ++ sg_id sg ++ B "'");
      ret tt
  | _ => ret tt
  end.

(** Statuses are only logged. *)
Definition activate_keys_for_group (groupId : bytes) : M W unit :=
  run secured <- gets st_secured;
  for_each (fun s => if streq (sec_groupId s) groupId
                     then also server_call (SetGroupActivateKey (sec_isWriter s) (sec_id s)); ret tt else ret tt) secured.

(** ** Which keys a group needs *)

Definition secure_mode (m : security_mode) : bool := match m with ModeSign | ModeSignAndEncrypt => true | _ => false end.

Definition resolve_security (what : bytes) (mode : security_mode) (groupId : ua_string)
    : M W (option (SecGroup * PubSubSecurityPolicy)) :=
  if negb (secure_mode mode) then ret None
  else
    run groups <- gets st_groups;
    match find_group groups groupId with
    | None => fail_with (snprintf errLen (snprintf 300 (what ++ B ": SecurityMode needs a SecurityGroupId listed in "
                ++ J "'securityGroups' (got " ++ B "'" ++ ua_to_cstr groupId ++ B "')")))
    | Some sg =>
        match adapter_pubsub_find_policy policies (sg_policyUri sg) with
        | None => fail_with (set_err (B "unsupported PubSub securityPolicyUri '" ++ sg_policyUri sg ++ B "'")
                               UA_STATUSCODE_BADSECURITYPOLICYREJECTED)
        | Some sp => ret (Some (sg, sp))
        end
    end.

Definition effective_mode (m : security_mode) : security_mode := match m with ModeInvalid => ModeNone | _ => m end.

Definition keys_for (id : ua_nodeid) (isWriter : bool) (sec : option (SecGroup * PubSubSecurityPolicy)) : M W unit :=
  match sec with Some (sg, sp) => apply_group_keys id isWriter sg sp | None => ret tt end.

(** * PublishedDataSets *)

Definition field_config_of (p : published_dataset) (f : nat) (v : published_variable) : field_config :=
  let v := {| pv_attributeId := if pv_attributeId v =? 0 then 13 else pv_attributeId v; pv_rest := pv_rest v |} in
  let version := md_configurationVersion (pd_metaData p) in
  match nth_error (md_fields (pd_metaData p)) f with
  | Some fm =>
      {| fc_alias := fm_name fm; fc_promoted := negb (Z.land (fm_fieldFlags fm) 1 =? 0);
         fc_maxStringLength := fm_maxStringLength fm; fc_description := fm_description fm;
         fc_dataSetFieldId := fm_dataSetFieldId fm; fc_configurationVersion := version; fc_parameters := v |}
  | None =>
      {| fc_alias := Some (B "Field" ++ fmt_u (Z.of_nat f)); fc_promoted := false; fc_maxStringLength := 0;
         fc_description := []; fc_dataSetFieldId := []; fc_configurationVersion := version; fc_parameters := v |}
  end.

Definition add_dataset (p : published_dataset) : M W unit :=
  let name := ua_to_cstr (pd_name p) in
  match pd_source p with
  | EoPublishedDataItems items =>
      run pdsId <- must (AddPublishedDataSet (pd_name p)) (B "UA_Server_addPublishedDataSet('" ++ name ++ B "')");
      also push_pds (pd_name p) pdsId;
      for_each (fun fv =>
          also must (AddDataSetField pdsId (field_config_of p (fst fv) (snd fv)))
            (B "UA_Server_addDataSetField(" ++ snprintf 256 (name ++ B " field " ++ fmt_u (Z.of_nat (fst fv))) ++ B ")");
          ret tt)
        (combine (seq 0 (length items)) items)
  | _ => fail_with (set_err (B "PublishedDataSet '" ++ name ++ B "': only PublishedDataItemsDataType "
           ++ B "sources are supported (PublishedEvents is not implemented by open62541 1.5.9)") UA_STATUSCODE_BADNOTIMPLEMENTED)
  end.

(** The loop ends silently when the table is full. *)
Fixpoint add_published_datasets (l : list published_dataset) : M W unit :=
  match l with
  | [] => ret tt
  | p :: r =>
      run b <- gets st_building;
      if Nat.ltb (length (pds b)) MAX_COMPONENTS then also add_dataset p; add_published_datasets r else ret tt
  end.

Definition find_pds (b : Built) (name : ua_string) : option ua_nodeid :=
  option_map snd (find (fun p => ua_string_equal (fst p) name) (pds b)).

(** * WriterGroups *)

Definition is_json_profile (profile : ua_string) : bool := ua_streq profile PROFILE_MQTT_JSON.

Definition writer_encoding (conn : connection) (w : writer_group) : mime :=
  match wg_messageSettings w with
  | EoJsonWriterGroupMessage _ => ENCODING_JSON
  | EoNoBody => if is_json_profile (cn_transportProfileUri conn) then ENCODING_JSON else ENCODING_UADP
  | _ => ENCODING_UADP
  end.

Definition writer_group_config_of (conn : connection) (w : writer_group) (sp : option PubSubSecurityPolicy) : writer_group_config :=
  {| wc_name := wg_name w; wc_writerGroupId := wg_writerGroupId w; wc_publishingInterval := wg_publishingInterval w;
     wc_keepAliveTime := wg_keepAliveTime w; wc_priority := wg_priority w; wc_transportSettings := wg_transportSettings w;
     wc_messageSettings := wg_messageSettings w; wc_properties := wg_properties w; wc_maxEncapsulated := 255;
     wc_encoding := writer_encoding conn w; wc_securityMode := effective_mode (wg_securityMode w);
     wc_securityGroupId := wg_securityGroupId w; wc_securityPolicy := sp |}.

(** The PublishedDataSet of a DataSetWriter; the null NodeId when it names none. *)
Definition writer_dataset (d : dataset_writer) : M W ua_nodeid :=
  match dw_dataSetName d with
  | None | Some [] => ret (UA_NODEID_NUMERIC 0 0)
  | name =>
      run b <- gets st_building;
      match find_pds b name with
      | Some p => ret p
      | None => fail_with (snprintf errLen (snprintf 300 (B "DataSetWriter '" ++ ua_to_cstr (dw_name d)
                  ++ B "': no PublishedDataSet named '" ++ ua_to_cstr name ++ B "'")))
      end
  end.

Definition add_dataset_writer (wgId : ua_nodeid) (d : dataset_writer) : M W unit :=
  run pdsId <- writer_dataset d;
  run dswId <- must (AddDataSetWriter wgId pdsId
      {| dwc_name := dw_name d; dwc_dataSetWriterId := dw_dataSetWriterId d; dwc_fieldContentMask := dw_fieldContentMask d;
         dwc_keyFrameCount := dw_keyFrameCount d; dwc_messageSettings := dw_messageSettings d;
         dwc_transportSettings := dw_transportSettings d; dwc_dataSetName := dw_dataSetName d; dwc_properties := dw_properties d |})
    (B "UA_Server_addDataSetWriter('" ++ ua_to_cstr (dw_name d) ++ B "')");
  push_created DataSetWriter dswId (dw_enabled d).

Definition add_writer_group (connId : ua_nodeid) (conn : connection) (w : writer_group) : M W unit :=
  let name := ua_to_cstr (wg_name w) in
  run sec <- resolve_security (snprintf 300 (B "WriterGroup '" ++ name ++ B "'")) (effective_mode (wg_securityMode w))
               (wg_securityGroupId w);
  run wgId <- must (AddWriterGroup connId (writer_group_config_of conn w (option_map snd sec)))
                (B "UA_Server_addWriterGroup('" ++ name ++ B "')");
  also push_created WriterGroup wgId (wg_enabled w);
  also keys_for wgId true sec;
  for_each (add_dataset_writer wgId) (wg_writers w).

(** * ReaderGroups *)

Definition reader_encoding (conn : connection) (r : reader_group) : mime :=
  match rg_readers r with
  | {| dr_messageSettings := EoJsonDataSetReaderMessage _ |} :: _ => ENCODING_JSON
  | _ => if is_json_profile (cn_transportProfileUri conn) then ENCODING_JSON else ENCODING_UADP
  end.

(** The broker settings of the readers, which must name one queue; [None] when
    they do not. *)
Fixpoint reader_broker (first : option (ua_string * ext_object)) (l : list dataset_reader) : option (option (ua_string * ext_object)) :=
  match l with
  | [] => Some first
  | d :: r =>
      match dr_transportSettings d with
      | EoBrokerDataSetReaderTransport q _ as ts =>
          match first with
          | None => reader_broker (Some (q, ts)) r
          | Some (q0, _) => if ua_string_equal q0 q then reader_broker first r else None
          end
      | _ => reader_broker first r
      end
  end.

Definition reader_transport (r : reader_group) : result ext_object :=
  match rg_transportSettings r with
  | EoBrokerDataSetReaderTransport _ _ as ts => Ok ts
  | _ =>
      match reader_broker None (rg_readers r) with
      | Some (Some (_, ts)) => Ok ts
      | Some None => Ok EoNoBody
      | None => Err (set_err (B "ReaderGroup '" ++ ua_to_cstr (rg_name r) ++ B "': open62541 subscribes one QueueName per "
                  ++ B "ReaderGroup; put DataSetReaders with different QueueNames into separate "
                  ++ B "ReaderGroups") UA_STATUSCODE_BADCONFIGURATIONERROR)
      end
  end.

(** [UA_PublisherId_fromVariant] of an id that is given. *)
Definition publisher_id (v : ua_variant) (msg : bytes) : result (option ua_variant) :=
  match v with
  | VtEmpty => Ok None
  | _ => let sc := PublisherId_fromVariant v in if sc =? UA_STATUSCODE_GOOD then Ok (Some v) else Err (set_err msg sc)
  end.

Definition target_variables (d : dataset_reader) : result (list opaque) :=
  let name := ua_to_cstr (dr_name d) in
  match dr_subscribedDataSet d with
  | EoTargetVariables l => Ok l
  | EoSubscribedDataSetMirror => Err (set_err (B "DataSetReader '" ++ name ++ B "': SubscribedDataSetMirror is not implemented "
                                   ++ B "by open62541 1.5.9; use TargetVariables") UA_STATUSCODE_BADNOTIMPLEMENTED)
  | EoNoBody => Ok []
  | _ => Err (set_err (B "DataSetReader '" ++ name ++ B "': SubscribedDataSet must be a TargetVariablesDataType")
                UA_STATUSCODE_BADTYPEMISMATCH)
  end.

Definition add_dataset_reader (rgId : ua_nodeid) (d : dataset_reader) : M W unit :=
  let name := ua_to_cstr (dr_name d) in
  run pub <- lift (publisher_id (dr_publisherId d) (B "DataSetReader '" ++ name ++ B "': PublisherId must be a Byte, UInt16, "
                     ++ B "UInt32, UInt64 or String scalar"));
  run targets <- lift (target_variables d);
  run dsrId <- must (AddDataSetReader rgId
      {| drc_name := dr_name d; drc_publisherId := pub; drc_writerGroupId := dr_writerGroupId d;
         drc_dataSetWriterId := dr_dataSetWriterId d; drc_metaData := dr_metaData d;
         drc_fieldContentMask := dr_fieldContentMask d; drc_receiveTimeout := dr_receiveTimeout d;
         drc_messageSettings := dr_messageSettings d; drc_transportSettings := dr_transportSettings d |})
    (B "UA_Server_addDataSetReader('" ++ name ++ B "')");
  also match targets with
       | [] => ret (UA_NODEID_NUMERIC 0 0)
       | _ => must (SetTargetVariables dsrId targets) (B "DataSetReader '" ++ name ++ B "': TargetVariables")
       end;
  push_created DataSetReader dsrId (dr_enabled d).

Definition reader_group_config_of (conn : connection) (r : reader_group) (ts : ext_object) (sp : option PubSubSecurityPolicy)
    : reader_group_config :=
  {| rgc_name := rg_name r; rgc_securityMode := effective_mode (rg_securityMode r); rgc_securityGroupId := rg_securityGroupId r;
     rgc_properties := rg_properties r; rgc_encoding := reader_encoding conn r; rgc_transportSettings := ts;
     rgc_securityPolicy := sp |}.

Definition add_reader_group (connId : ua_nodeid) (conn : connection) (r : reader_group) : M W unit :=
  let name := ua_to_cstr (rg_name r) in
  run ts <- lift (reader_transport r);
  run sec <- resolve_security (snprintf 300 (B "ReaderGroup '" ++ name ++ B "'")) (effective_mode (rg_securityMode r))
               (rg_securityGroupId r);
  run rgId <- must (AddReaderGroup connId (reader_group_config_of conn r ts (option_map snd sec)))
                (B "UA_Server_addReaderGroup('" ++ name ++ B "')");
  also push_created ReaderGroup rgId (rg_enabled r);
  also keys_for rgId false sec;
  for_each (add_dataset_reader rgId) (rg_readers r).

(** * Connections *)

(** Part 14 names the scheme mqtt://, the stack opc.mqtt://. *)
Definition translate_url (name : bytes) (url : ua_string) : result ua_string :=
  match url with
  | None => Ok None
  | Some u =>
      match strip (B "mqtt://") u, strip (B "mqtts://") u with
      | Some ((_ :: _) as rest), _ => Ok (Some (snprintf 512 (B "opc.mqtt://" ++ cstr rest)))
      | _, Some (_ :: _) => Err (set_err (B "PubSubConnection '" ++ name ++ B "': mqtts:// (MQTT over TLS) is not "
                                  ++ B "supported by open62541 1.5.9") UA_STATUSCODE_BADNOTSUPPORTED)
      | _, _ => Ok url
      end
  end.

Definition add_connection (conn : connection) : M W unit :=
  let name := ua_to_cstr (cn_name conn) in
  match cn_address conn with
  | EoNetworkAddressUrl netIf url =>
      run url <- lift (translate_url name url);
      run pub <- lift (publisher_id (cn_publisherId conn) (B "PubSubConnection '" ++ name ++ B "': PublisherId must be a Byte, "
                         ++ B "UInt16, UInt32, UInt64 or String scalar"));
      run connId <- must (AddPubSubConnection
          {| cc_name := cn_name conn; cc_transportProfileUri := cn_transportProfileUri conn; cc_networkInterface := netIf;
             cc_url := url; cc_properties := cn_properties conn;
             cc_transportSettings := if eo_decoded (cn_transportSettings conn) then Some (cn_transportSettings conn) else None;
             cc_publisherId := pub |})
        (B "UA_Server_addPubSubConnection('" ++ name ++ B "')");
      also push_created PubSubConnection connId (cn_enabled conn);
      also for_each (add_writer_group connId conn) (cn_writerGroups conn);
      for_each (add_reader_group connId conn) (cn_readerGroups conn)
  | _ => fail_with (set_err (B "PubSubConnection '" ++ name ++ B "': Address must be a NetworkAddressUrlDataType")
                      UA_STATUSCODE_BADTYPEMISMATCH)
  end.

Definition add_connections (l : list connection) : M W unit := for_each add_connection l.

(** * Enabling *)

Definition component_name (k : component) : bytes :=
  match k with
  | DataSetWriter => B "DataSetWriter" | WriterGroup => B "WriterGroup" | DataSetReader => B "DataSetReader"
  | ReaderGroup => B "ReaderGroup" | PubSubConnection => B "PubSubConnection"
  end.

(** The state changes of the call reach [on_state_change]. *)
Definition enable_created (k : component) (c : Created) : M W unit := fun st =>
  if negb (cr_enabled c) then (st, Done tt)
  else
    let '(w, (sc, evs)) := enableComponent (st_w st) k (cr_id c) in
    let '(w, rt) := deliver w (st_recovery st) evs in
    let st := {| st_w := w; st_groups := st_groups st; st_sks := st_sks st; st_secured := st_secured st;
                 st_building := st_building st; st_recovery := rt |} in
    if sc =? UA_STATUSCODE_GOOD then (st, Done tt)
    else (st, Failed (set_err (B "enabling a " ++ component_name k) sc)).

(** Children first, connections last. *)
Definition enable_all (b : Built) : M W unit :=
  for_each (fun k => for_each (enable_created k) (created b k))
    [DataSetWriter; WriterGroup; DataSetReader; ReaderGroup; PubSubConnection].

(** * The SKS client *)

Definition load_trust_list (w : W) (pkiDir : option bytes) : list bytes :=
  match pkiDir with
  | None | Some [] => []
  | Some p =>
      let dir := snprintf 1024 (p ++ B "/trusted/certs") in
      match directory w dir with
      | None => []
      | Some names =>
          filter (fun b => negb (Nat.eqb (length b) 0))
            (map (fun n => load_file w (snprintf 1400 (dir ++ B "/" ++ n)))
               (filter (fun n => negb (hd 0 n =? 46)) names))
      end
  end.

Definition policy_uri_from_name (name : option bytes) : bytes :=
  match name with
  | None | Some [] => B "http://opcfoundation.org/UA/SecurityPolicy#Basic256Sha256"
  | Some n => if is_some (strip (B "http://") n) then n
              else snprintf 256 (B "http://opcfoundation.org/UA/SecurityPolicy#" ++ n)
  end.

Definition json_strdup (o : cjson) (k : string) : option bytes :=
  match item_of o k with Some (CString s) => Some s | _ => None end.

Definition parse_sks_client (sks : cjson) (opt : PubSubOptions) : result SksSettings :=
  if negb (cJSON_IsObject sks) then Err (snprintf errLen (B "sksClient must be an object"))
  else
    match json_strdup sks "endpointUrl" with
    | None => Err (snprintf errLen (B "sksClient.endpointUrl is required"))
    | Some url =>
        match opt_certFile opt, opt_keyFile opt with
        | Some c, Some k =>
            Ok {| sks_endpointUrl := url; sks_policy := json_strdup sks "securityPolicyUri";
                  sks_mode := json_strdup sks "securityMode"; sks_username := json_strdup sks "username";
                  sks_password := json_strdup sks "password"; sks_certFile := c; sks_keyFile := k;
                  sks_pkiDir := opt_pkiDir opt |}
        | _, _ => Err (snprintf errLen (B "sksClient needs the server's --certificate and --private-key "
                         ++ B "(GetSecurityKeys requires a SignAndEncrypt channel)"))
        end
    end.

(** The i-th group's flags. *)
Definition set_group (i : nat) (f : SecGroup -> SecGroup) : M W unit := modify (fun st =>
  {| st_w := st_w st;
     st_groups := match nth_error (st_groups st) i with
                  | Some g => firstn i (st_groups st) ++ f g :: skipn (S i) (st_groups st)
                  | None => st_groups st
                  end;
     st_sks := st_sks st; st_secured := st_secured st; st_building := st_building st; st_recovery := st_recovery st |}).

Definition set_flags (received inFlight : bool) (g : SecGroup) : SecGroup :=
  {| sg_id := sg_id g; sg_policyUri := sg_policyUri g; sg_keyLifetimeMs := sg_keyLifetimeMs g;
     sg_maxFutureKeyCount := sg_maxFutureKeyCount g; sg_maxPastKeyCount := sg_maxPastKeyCount g; sg_keys := sg_keys g;
     sg_source := sg_source g; sksKeysReceived := received; sksInFlight := inFlight |}.

(** One GetSecurityKeys attempt for the i-th group; failures are only logged. *)
Definition sks_attempt (i : nat) (sg : SecGroup) : M W unit :=
  run sks <- gets st_sks;
  run w <- gets st_w;
  match sks with
  | None => ret tt
  | Some k =>
      let cert := load_file w (sks_certFile k) in
      let keyText := load_file w (sks_keyFile k) in
      let trust := load_trust_list w (sks_pkiDir k) in
      if Nat.eqb (length cert) 0 || Nat.eqb (length keyText) 0 then ret tt
      else if negb (sks_encryption cert keyText trust =? UA_STATUSCODE_GOOD) then ret tt
      else
        also set_group i (set_flags (sksKeysReceived sg) true);
        run r <- server_call (SetSksClient (sg_id sg)
            {| sk_cert := cert; sk_key := keyText; sk_trust := trust; sk_policyUri := policy_uri_from_name (sks_policy k);
               sk_mode := match sks_mode k with Some m => if streq m (B "Sign") then ModeSign else ModeSignAndEncrypt
                                              | None => ModeSignAndEncrypt end;
               sk_applicationUri := certificate_san_uri (sks_names (W := W)) (pubsub_file w) (Some (sks_certFile k));
               sk_user := option_map (fun u => (u, default [] (sks_password k))) (sks_username k) |} (sks_endpointUrl k));
        if fst r =? UA_STATUSCODE_GOOD then ret tt else set_group i (set_flags (sksKeysReceived sg) false)
  end.

(** The answer of an attempt for the i-th group. *)
Definition sks_pull_cb (i : nat) (status : Z) : M W unit :=
  run groups <- gets st_groups;
  match nth_error groups i with
  | None => crash
  | Some sg =>
      also set_group i (set_flags (sksKeysReceived sg) false);
      if negb (status =? UA_STATUSCODE_GOOD) then ret tt
      else also set_group i (set_flags true false); activate_keys_for_group (sg_id sg)
  end.

Definition is_client_source (g : SecGroup) : bool := match sg_source g with KEYSRC_SKS_CLIENT => true | _ => false end.

(** The body of the loops over the groups that pull keys. *)
Definition attempt_at (wanted : SecGroup -> bool) (i : nat) : M W unit :=
  run groups <- gets st_groups;
  match nth_error groups i with
  | Some sg => if wanted sg then sks_attempt i sg else ret tt
  | None => ret tt
  end.

Definition sks_retry_cb : M W unit :=
  run groups <- gets st_groups;
  for_each (attempt_at (fun g => is_client_source g && negb (sksKeysReceived g) && negb (sksInFlight g))) (seq 0 (length groups)).

(** * AddSecurityGroup and RemoveSecurityGroup *)

Definition scalar_string (v : ua_variant) : option ua_string := match v with VtScalar (VString s) => Some s | _ => None end.
Definition scalar_double (v : ua_variant) : option spec_float := match v with VtScalar (VDouble d) => Some d | _ => None end.
Definition scalar_uint32 (v : ua_variant) : option Z := match v with VtScalar (VUInt32 n) => Some n | _ => None end.
Definition scalar_nodeid (v : ua_variant) : option ua_nodeid := match v with VtScalar (VNodeId n) => Some n | _ => None end.

(** The status and the outputs; a Duration has the DataType Double. *)
Definition add_security_group_cb (w : W) (objectId : ua_nodeid) (input : list ua_variant) (outputSize : nat)
    : W * (Z * list ua_variant) :=
  if Nat.ltb (length input) 5 || Nat.ltb outputSize 2 then (w, (UA_STATUSCODE_BADARGUMENTSMISSING, []))
  else if Nat.ltb 5 (length input) then (w, (UA_STATUSCODE_BADTOOMANYARGUMENTS, []))
  else
    match input with
    | [a; b; c; d; e] =>
        match scalar_string a, scalar_double b, scalar_string c, scalar_uint32 d, scalar_uint32 e with
        | Some name, Some life, Some uri, Some future, Some past =>
            match default [] name with
            | [] => (w, (UA_STATUSCODE_BADINVALIDARGUMENT, []))
            | _ =>
                let '(w, (sc, nodeId)) := api w (AddSecurityGroup objectId
                    {| sgc_name := name; sgc_keyLifeTime := life; sgc_policyUri := uri; sgc_maxFutureKeyCount := future;
                       sgc_maxPastKeyCount := past |}) in
                if negb (sc =? UA_STATUSCODE_GOOD) then (w, (sc, []))
                else (w, (UA_STATUSCODE_GOOD, [VtScalar (VString name); VtScalar (VNodeId nodeId)]))
            end
        | _, _, _, _, _ => (w, (UA_STATUSCODE_BADTYPEMISMATCH, []))
        end
    | _ => (w, (UA_STATUSCODE_BADTYPEMISMATCH, []))
    end.

Definition remove_security_group_cb (w : W) (input : list ua_variant) : W * Z :=
  match input with
  | [] => (w, UA_STATUSCODE_BADARGUMENTSMISSING)
  | [v] =>
      match scalar_nodeid v with
      | None => (w, UA_STATUSCODE_BADTYPEMISMATCH)
      | Some n => let '(w, (sc, _)) := api w (RemoveSecurityGroup n) in
                  (w, if sc =? UA_STATUSCODE_BADNOTFOUND then UA_STATUSCODE_BADNODEIDUNKNOWN else sc)
      end
  | _ => (w, UA_STATUSCODE_BADTOOMANYARGUMENTS)
  end.

Definition two_statuses (w : W) (folderType : bool) (sc : Z) : W * Z :=
  let '(w, (a, _)) := api w (SetMethodCallback folderType true) in
  let '(w, (r, _)) := api w (SetMethodCallback folderType false) in
  (w, if negb (a =? UA_STATUSCODE_GOOD) || negb (r =? UA_STATUSCODE_GOOD)
      then if negb (a =? UA_STATUSCODE_GOOD) then a else r else sc).

(** The methods on PublishSubscribe.SecurityGroups and on the folder type, and the
    transport profiles, whose status is only logged. *)
Definition pubsub_server_init (w : W) : W * Z :=
  let '(w, sc) := two_statuses w false UA_STATUSCODE_GOOD in
  let '(w, sc) := two_statuses w true sc in
  let '(w, _) := api w (WriteSupportedProfiles [PROFILE_UDP_UADP; PROFILE_MQTT_UADP; PROFILE_MQTT_JSON]) in
  (w, sc).

(** * pubsub_server_apply *)

Definition known_members : list bytes :=
  [B "configuration"; B "securityGroups"; B "serveSks"; B "sksClient"; B "deltaFrames"].

(** The members of the file, or why it is refused. *)
Definition parse_config_file (w : W) (opt : PubSubOptions) : result cjson :=
  match load_file w (configPath opt) with
  | [] => Err (snprintf errLen (B "cannot read --pubsub-config " ++ configPath opt))
  | file =>
      match cJSON_ParseWithLength file with
      | Some (CObject l as root) =>
          match find (fun m => negb (existsb (streq (fst m)) known_members)) l with
          | Some m => Err (snprintf errLen (B "--pubsub-config: unknown member " ++ J "'" ++ fst m ++ J "'"))
          | None => Ok root
          end
      | _ => Err (snprintf errLen (B "--pubsub-config: not a JSON object"))
      end
  end.

Definition UA_NS0ID_PUBLISHSUBSCRIBE_SECURITYGROUPS : Z := 15443.

(** The SecurityGroup of a group this server serves keys for. *)
Definition serve_group (g : SecGroup) : M W unit :=
  also must (AddSecurityGroup (UA_NODEID_NUMERIC 0 UA_NS0ID_PUBLISHSUBSCRIBE_SECURITYGROUPS)
      {| sgc_name := Some (sg_id g); sgc_keyLifeTime := sg_keyLifetimeMs g; sgc_policyUri := Some (sg_policyUri g);
         sgc_maxFutureKeyCount := sg_maxFutureKeyCount g; sgc_maxPastKeyCount := sg_maxPastKeyCount g |})
    (B "UA_Server_addSecurityGroup('" ++ sg_id g ++ B "')");
  ret tt.

Definition not_decoded (sc : Z) : bytes :=
  set_err (J "'configuration' is not a PubSubConfigurationDataType in the OPC UA JSON encoding") sc.

Definition read_namespaces (w : W) : list ua_string :=
  match read_namespace_array w with
  | (sc, VtArray TString items _) =>
      if sc =? UA_STATUSCODE_GOOD then map (fun v => match v with VString s => s | _ => None end) items else []
  | _ => []
  end.

(** The configuration member: printed, normalised and decoded. *)
Definition pubsub_decode_json (w : W) (json : bytes) : option (Z * option configuration) :=
  do norm <- pubsub_normalize_json json;
  match norm with
  | None => Some (UA_STATUSCODE_BADDECODINGERROR, None)
  | Some text => let '(sc, c) := decode_configuration text (read_namespaces w) in Some (sc, Some c)
  end.

Definition set_groups (l : list SecGroup) : M W unit := modify (fun st =>
  {| st_w := st_w st; st_groups := l; st_sks := st_sks st; st_secured := st_secured st; st_building := st_building st;
     st_recovery := st_recovery st |}).

Definition set_sks (k : SksSettings) : M W unit := modify (fun st =>
  {| st_w := st_w st; st_groups := st_groups st; st_sks := Some k; st_secured := st_secured st;
     st_building := st_building st; st_recovery := st_recovery st |}).

(** [g_rt.built = b] and the state callback. *)
Definition watch_built : M W unit := modify (fun st =>
  {| st_w := st_w st; st_groups := st_groups st; st_sks := st_sks st; st_secured := st_secured st;
     st_building := st_building st; st_recovery := with_built (st_recovery st) (st_building st) |}).

(** The SKS pull for the groups without static keys. *)
Definition start_sks (sks : cjson) (opt : PubSubOptions) : M W unit :=
  run groups <- gets st_groups;
  if negb (existsb is_client_source groups) then ret tt
  else
    run k <- lift (parse_sks_client sks opt);
    also set_sks k;
    also for_each (attempt_at is_client_source) (seq 0 (length groups));
    also server_call AddRetryCallback;
    ret tt.

Definition serves_keys (root : cjson) : bool := match item_of root "serveSks" with Some v => cJSON_IsTrue v | None => false end.

(** The groups with their key sources. *)
Definition security_groups (root : cjson) : result (list SecGroup) :=
  try groups <- parse_security_groups (item_of root "securityGroups");
  mapR (key_source (serves_keys root) (is_some (item_of root "sksClient"))) groups.

(** The groups, and the SecurityGroups this server serves. *)
Definition load_groups (root : cjson) : M W unit :=
  run groups <- lift (security_groups root);
  also set_groups groups;
  if serves_keys root then for_each serve_group groups else ret tt.

(** The decoded configuration. *)
Definition load_configuration (jcfg : cjson) : M W configuration :=
  run w <- gets st_w;
  match cJSON_PrintUnformatted jcfg with
  | None => crash
  | Some text =>
      match pubsub_decode_json w text with
      | None => crash
      | Some (sc, Some c) => if sc =? UA_STATUSCODE_GOOD then ret c else fail_with (not_decoded sc)
      | Some (sc, None) => fail_with (not_decoded sc)
      end
  end.

Definition build (c : configuration) : M W unit :=
  also add_published_datasets (cf_publishedDataSets c);
  add_connections (cf_connections c).

Definition apply_config (opt : PubSubOptions) : M W unit :=
  run w <- gets st_w;
  run root <- lift (parse_config_file w opt);
  also server_call (SetDeltaFrames match item_of root "deltaFrames" with Some v => cJSON_IsTrue v | None => false end);
  match item_of root "configuration" with
  | Some (CObject _ as jcfg) =>
      also load_groups root;
      run c <- load_configuration jcfg;
      also build c;
      also match item_of root "sksClient" with Some sks => start_sks sks opt | None => ret tt end;
      also watch_built;
      if cf_enabled c then run b <- gets st_building; enable_all b else ret tt
  | _ => fail_with (snprintf errLen (B "--pubsub-config: " ++ J "'configuration' (PubSubConfigurationDataType) is required"))
  end.

(** [g_rt.built = NULL] *)
Definition forget_built (st : State W) : State W :=
  {| st_w := st_w st; st_groups := st_groups st; st_sks := st_sks st; st_secured := st_secured st;
     st_building := st_building st;
     st_recovery := {| rt_built := None; recoveryPending := recoveryPending (st_recovery st);
                       recoveryDelayMs := recoveryDelayMs (st_recovery st); lastErrorAt := lastErrorAt (st_recovery st) |} |}.

Definition pubsub_server_apply (opt : PubSubOptions) : M W unit := fun st =>
  match apply_config opt st with
  | (st, Done u) => (st, Done u)
  | (st, r) => (forget_built st, r)
  end.

Definition no_built : Built :=
  {| connections := []; writerGroups := []; writers := []; readerGroups := []; readers := []; pds := [] |}.

(** [memset(&g_rt, 0, ...)] and the empty table of secured groups. *)
Definition pubsub_server_cleanup (st : State W) : State W :=
  {| st_w := st_w st; st_groups := []; st_sks := None; st_secured := []; st_building := no_built;
     st_recovery := {| rt_built := None; recoveryPending := false; recoveryDelayMs := 0; lastErrorAt := 0 |} |}.
End Config.

(** * The fixed tables *)

(** A secured group after the first 64 is not remembered: keys that arrive from a
    key service later are not activated for it. *)
Lemma secured_table_full {W} (st : State W) s : length (st_secured st) = MAX_SECURED ->
  st_secured (fst (push_secured s st)) = st_secured st.
Proof. intros H. cbn. now rewrite H. Qed.

(** A component after the first 256 of its kind is added to the server and neither
    enabled with the others nor recovered. *)
Lemma component_table_full {A} (l : list A) a : length l = MAX_COMPONENTS -> push l a = l.
Proof. intros H. unfold push. now rewrite H. Qed.

(** PublishedDataSets after the first 256 are left out without a message. *)
Lemma datasets_left_out {stack : UaStack} {W} {papi : PubSubApi W} errLen (st : State W) l :
  length (pds (st_building st)) = MAX_COMPONENTS -> add_published_datasets errLen l st = (st, Done tt).
Proof. intros H. destruct l as [|p l]; [reflexivity|]. cbn. now rewrite H. Qed.
