(* ===== verification/PubSubSecured.v ===== *)
(** What `--pubsub-config` (PubSubConfig.v) asks of the server, as the log of its
    calls: every group the configuration secures is added with its policy and its
    keys, and nothing is enabled before. *)

From Stdlib Require Import String Ascii ZArith Bool List Lia SpecFloat.
Import ListNotations.
From S2P Require Import Prelude CLib Certificates Float UaTypes RefStack Base64 CJson Args PubSubSecurity PubSubRecovery PubSubJson PubSubConfig.

(** * The calls of a run *)

(** What was asked of the server, with the answers. *)
Inductive entry := Called (c : call) (sc : Z) (id : ua_nodeid) | Enabling (k : component) (id : ua_nodeid).

(** The same server, with the log of its calls. *)
Definition logged_api {W} (papi : PubSubApi W) : PubSubApi (W * list entry) := {|
  api w c := let '(w', (sc, id)) := api (fst w) c in ((w', snd w ++ [Called c sc id]), (sc, id));
  read_namespace_array w := read_namespace_array (fst w);
  pubsub_file w := pubsub_file (fst w);
  directory w := directory (fst w);
  sks_names := sks_names (W := W);
  sks_encryption := sks_encryption;
  PublisherId_fromVariant := PublisherId_fromVariant;
  decode_configuration := decode_configuration |}.

Definition logged_server {W} (psrv : PubSubServer W) : PubSubServer (W * list entry) := {|
  nowMonotonic w := let '(w', t) := nowMonotonic (fst w) in ((w', snd w), t);
  addTimedCallback w t := let '(w', sc) := addTimedCallback (fst w) t in ((w', snd w), sc);
  enableComponent w k id := let '(w', r) := enableComponent (fst w) k id in ((w', snd w ++ [Enabling k id]), r) |}.

Definition quiet (l : list entry) : Prop := forall k id, ~ In (Enabling k id) l.

Section Secured.
Context {cj : CJson} (policies : list PubSubSecurityPolicy) (root : cjson) (groups : list SecGroup) (pulling : list entry -> Prop).

(** A secured group is added with the policy of its SecurityGroup.  Its keys, by the
    members of the file: the next call sets the first static key, split by the policy,
    or activates the keys of the server's own key service; without static keys they
    are pulled from the service of "sksClient" ([pulling] of the calls that follow),
    and without that the group waits for SetSecurityKeys. *)
Definition keyed (isWriter : bool) (id : ua_nodeid) (gid : ua_string) (sp : option PubSubSecurityPolicy) (rest : list entry) : Prop :=
  exists g p, find_group groups gid = Some g /\ sp = Some p /\ adapter_pubsub_find_policy policies (sg_policyUri g) = Some p /\
    match serves_keys root, sg_keys g with
    | true, _ => exists id' more, rest = Called (SetGroupActivateKey isWriter id) UA_STATUSCODE_GOOD id' :: more
    | false, k :: _ => exists sig enc nonce id' more, split_key p (key k) = Some (inr (sig, enc, nonce)) /\
        rest = Called (SetGroupEncryptionKeys isWriter id (tokenId k) sig enc nonce) UA_STATUSCODE_GOOD id' :: more
    | false, [] => is_some (item_of root "sksClient") = true -> pulling rest
    end.

Definition secured_entry (e : entry) (rest : list entry) : Prop :=
  match e with
  | Called (AddWriterGroup _ c) sc id =>
      sc = UA_STATUSCODE_GOOD -> secure_mode (wc_securityMode c) = true -> keyed true id (wc_securityGroupId c) (wc_securityPolicy c) rest
  | Called (AddReaderGroup _ c) sc id =>
      sc = UA_STATUSCODE_GOOD -> secure_mode (rgc_securityMode c) = true -> keyed false id (rgc_securityGroupId c) (rgc_securityPolicy c) rest
  | _ => True
  end.

Fixpoint all_secured (l : list entry) : Prop :=
  match l with
  | [] => True
  | e :: r => secured_entry e r /\ all_secured r
  end.
End Secured.

(** The callback that pulls the keys is registered before anything is enabled. *)
Definition pulled (rest : list entry) : Prop :=
  exists pre sc id post, rest = pre ++ Called AddRetryCallback sc id :: post /\ quiet pre.

(** The groups that were added: WriterGroup or ReaderGroup, security mode, group. *)
Definition added_group (e : entry) : list (bool * security_mode * ua_string) :=
  match e with
  | Called (AddWriterGroup _ c) 0 _ => [(true, wc_securityMode c, wc_securityGroupId c)]
  | Called (AddReaderGroup _ c) 0 _ => [(false, rgc_securityMode c, rgc_securityGroupId c)]
  | _ => []
  end.

Definition writer_adds (w : writer_group) : list (bool * security_mode * ua_string) :=
  [(true, effective_mode (wg_securityMode w), wg_securityGroupId w)].
Definition reader_adds (r : reader_group) : list (bool * security_mode * ua_string) :=
  [(false, effective_mode (rg_securityMode r), rg_securityGroupId r)].
Definition connection_adds (c : connection) : list (bool * security_mode * ua_string) :=
  flat_map writer_adds (cn_writerGroups c) ++ flat_map reader_adds (cn_readerGroups c).

(** * Lemmas *)

Section Lemmas.
Context {stack : UaStack} {cj : CJson} {cpu : Cpu} {nid : NodeIdOps} {types : TypeTable} {len : CJsonLength}
  {W0 : Type} {papi : PubSubApi W0} {psrv : PubSubServer W0}.
Context (errLen : nat) (policies : list PubSubSecurityPolicy) (root : cjson).

Local Abbreviation W := (W0 * list entry)%type.
Local Abbreviation weak := (fun _ : list entry => True).
#[local] Instance the_api : PubSubApi W := logged_api papi.
#[local] Instance the_server : PubSubServer W := logged_server psrv.

Definition log (st : State W) : list entry := snd (st_w st).

(** From a state with these groups, the step adds quiet entries to the log and does
    not crash; if it succeeds the groups are the same and [P] holds of the entries. *)
Definition spec (groups : list SecGroup) {A} (m : M W A) (P : list entry -> A -> Prop) : Prop :=
  forall st, st_groups st = groups -> let '(st', r) := m st in
    exists seg, log st' = log st ++ seg /\ quiet seg /\
      match r with Done a => st_groups st' = groups /\ P seg a | Failed _ => True | Crashed => False end.

Lemma quiet_nil : quiet [].
Proof. intros k id []. Qed.
Lemma quiet_app a b : quiet a -> quiet b -> quiet (a ++ b).
Proof. intros Ha Hb k id H. apply in_app_or in H as [H|H]; [apply (Ha k id H)|apply (Hb k id H)]. Qed.
Lemma quiet_called c sc id : quiet [Called c sc id].
Proof. intros k i [H|[]]. discriminate. Qed.

Lemma spec_ret groups {A} (a : A) (P : list entry -> A -> Prop) : P [] a -> spec groups (ret a) P.
Proof. intros H st Hg. exists []. rewrite app_nil_r. auto using quiet_nil. Qed.

Lemma spec_fail groups {A} msg (P : list entry -> A -> Prop) : spec groups (fail_with msg) P.
Proof. intros st Hg. exists []. rewrite app_nil_r. auto using quiet_nil. Qed.

Lemma spec_bind groups {A C} (m : M W A) (k : A -> M W C) P Q : spec groups m P ->
  (forall a seg, P seg a -> spec groups (k a) (fun s c => Q (seg ++ s) c)) -> spec groups (bind m k) Q.
Proof.
  intros Hm Hk st Hg. unfold bind. specialize (Hm st Hg). destruct (m st) as [st1 [a|msg|]].
  - destruct Hm as (s1 & L1 & Q1 & Hg1 & HP). specialize (Hk a s1 HP st1 Hg1). destruct (k a st1) as [st2 r].
    destruct Hk as (s2 & L2 & Q2 & H2). exists (s1 ++ s2). rewrite L2, L1, app_assoc. auto using quiet_app.
  - destruct Hm as (s1 & L1 & Q1 & _). exists s1. auto.
  - destruct Hm as (s1 & _ & _ & []).
Qed.

Lemma spec_weaken groups {A} (m : M W A) (P Q : list entry -> A -> Prop) : spec groups m P -> (forall s a, P s a -> Q s a) -> spec groups m Q.
Proof.
  intros H HPQ st Hg. specialize (H st Hg). destruct (m st) as [st1 r]. destruct H as (s & L & Hq & Hr). exists s.
  split; [exact L|]. split; [exact Hq|]. destruct r; auto. destruct Hr. auto.
Qed.

Lemma spec_gets groups {A} (f : State W -> A) : spec groups (gets f) (fun s _ => s = []).
Proof. intros st Hg. exists []. rewrite app_nil_r. auto using quiet_nil. Qed.

Lemma spec_groups groups : spec groups (gets st_groups) (fun s g => s = [] /\ g = groups).
Proof. intros st Hg. exists []. rewrite app_nil_r. auto using quiet_nil. Qed.

Lemma spec_lift groups {A} (r : result A) : spec groups (lift r) (fun s a => s = [] /\ r = Ok a).
Proof. destruct r; [now apply spec_ret|apply spec_fail]. Qed.

Lemma spec_building groups f : spec groups (set_building f) (fun s _ => s = []).
Proof. intros st Hg. exists []. cbn. unfold log. cbn. rewrite app_nil_r. auto using quiet_nil. Qed.

Lemma spec_secured groups s0 : spec groups (push_secured s0) (fun s _ => s = []).
Proof. intros st Hg. exists []. cbn. unfold log. cbn. rewrite app_nil_r. auto using quiet_nil. Qed.

Lemma spec_call groups c : spec groups (server_call c) (fun s r => s = [Called c (fst r) (snd r)]).
Proof.
  intros st Hg. unfold server_call. cbn [api the_api logged_api]. destruct (api (fst (st_w st)) c) as [w [sc id]].
  exists [Called c sc id]. cbn. auto using quiet_called.
Qed.

Lemma spec_must groups c msg : spec groups (must errLen c msg) (fun s id => s = [Called c UA_STATUSCODE_GOOD id]).
Proof.
  unfold must. eapply spec_bind; [apply spec_call|]. intros [sc id] seg ->. cbn [fst snd].
  destruct (Z.eqb_spec sc UA_STATUSCODE_GOOD) as [->|]; [|apply spec_fail]. now apply spec_ret.
Qed.

(** ** Secured segments *)

Lemma secured_entry_app groups e r x : secured_entry policies root groups weak e r -> secured_entry policies root groups weak e (r ++ x).
Proof.
  assert (forall b id gid sp, keyed policies root groups weak b id gid sp r -> keyed policies root groups weak b id gid sp (r ++ x)) as Hk.
  { intros b id gid sp (g & p & H1 & H2 & H3 & H4). exists g, p. repeat (split; [assumption|]).
    destruct (serves_keys root), (sg_keys g) as [|k ks]; auto; [destruct H4 as (id' & more & ->); now exists id', (more ++ x)..|].
    destruct H4 as (sig & enc & nonce & id' & more & E2 & ->). exists sig, enc, nonce, id', (more ++ x). auto. }
  destruct e as [c sc id|]; [|exact (fun H => H)]. destruct c; try exact (fun H => H); cbn; auto.
Qed.

Lemma all_secured_app groups a b : all_secured policies root groups weak a -> all_secured policies root groups weak b -> all_secured policies root groups weak (a ++ b).
Proof. induction a as [|e a IH]; [auto|]. intros [He Ha] Hb. cbn. split; [now apply secured_entry_app|auto]. Qed.

(** The entries secure their groups, and the groups added are these. *)
Definition adds (groups : list SecGroup) (l : list (bool * security_mode * ua_string)) (seg : list entry) : Prop :=
  all_secured policies root groups weak seg /\ flat_map added_group seg = l.

Lemma adds_app groups l l' a b : adds groups l a -> adds groups l' b -> adds groups (l ++ l') (a ++ b).
Proof. intros [H1 H2] [H3 H4]. split; [now apply all_secured_app|]. now rewrite flat_map_app, H2, H4. Qed.

Lemma adds_nil groups : adds groups [] [].
Proof. now split. Qed.

Definition plain_call (c : call) : bool := match c with AddWriterGroup _ _ | AddReaderGroup _ _ => false | _ => true end.

Lemma adds_plain groups c sc id : plain_call c = true -> adds groups [] [Called c sc id].
Proof. intros H. destruct c; try discriminate; now repeat split. Qed.

Lemma spec_for_each groups {A} (f : A -> M W unit) (exp : A -> list (bool * security_mode * ua_string)) l :
  (forall a, In a l -> spec groups (f a) (fun s _ => adds groups (exp a) s)) ->
  spec groups (for_each f l) (fun s _ => adds groups (flat_map exp l) s).
Proof.
  induction l as [|a l IH]; intros H; [apply spec_ret, adds_nil|]. cbn [for_each flat_map].
  eapply spec_bind; [apply H; now left|]. intros [] seg Hs. eapply spec_weaken; [apply IH; intros; apply H; now right|].
  intros s u Hs'. now apply adds_app.
Qed.

(** Loops and calls that add no group. *)
Lemma spec_for_none groups {A} (f : A -> M W unit) l : (forall a, spec groups (f a) (fun s _ => adds groups [] s)) ->
  spec groups (for_each f l) (fun s _ => adds groups [] s).
Proof.
  intros H. eapply spec_weaken; [apply (spec_for_each groups f (fun _ => [])); intros; apply H|].
  intros s u. now replace (flat_map (fun _ => []) l) with (@nil (bool * security_mode * ua_string)) by (induction l; auto).
Qed.

Lemma spec_then groups {A C} (m : M W A) (k : A -> M W C) l l' :
  spec groups m (fun s _ => adds groups l s) -> (forall a, spec groups (k a) (fun s _ => adds groups l' s)) ->
  spec groups (bind m k) (fun s _ => adds groups (l ++ l') s).
Proof.
  intros Hm Hk. eapply spec_bind; [exact Hm|]. intros a seg Hs. eapply spec_weaken; [apply Hk|]. intros s c. now apply adds_app.
Qed.

Lemma spec_must_none groups c msg : plain_call c = true -> spec groups (must errLen c msg) (fun s _ => adds groups [] s).
Proof. intros H. eapply spec_weaken; [apply spec_must|]. intros s a ->. now apply adds_plain. Qed.

Lemma spec_silent groups {A} (m : M W A) (P : A -> Prop) : spec groups m (fun s a => s = [] /\ P a) ->
  spec groups m (fun s _ => adds groups [] s).
Proof. intros H. eapply spec_weaken; [exact H|]. intros s a [-> _]. apply adds_nil. Qed.

Lemma spec_unit_none groups (m : M W unit) : spec groups m (fun s _ => s = []) -> spec groups m (fun s _ => adds groups [] s).
Proof. intros H. eapply spec_weaken; [exact H|]. intros s a ->. apply adds_nil. Qed.

Lemma spec_push groups k id e : spec groups (push_created k id e) (fun s _ => s = []).
Proof. apply spec_building. Qed.

(** ** Groups and their keys *)

(** Where the keys of a group come from, by the members of the file. *)
Definition source_of (g : SecGroup) : KeySource :=
  if serves_keys root then KEYSRC_SKS_SERVER
  else match sg_keys g with _ :: _ => KEYSRC_STATIC | [] => if is_some (item_of root "sksClient") then KEYSRC_SKS_CLIENT else KEYSRC_NONE end.
Definition keys_present (groups : list SecGroup) : Prop := Forall (fun g => sg_source g = source_of g) groups.

Lemma static_keys g : sg_source g = source_of g -> sg_source g = KEYSRC_STATIC -> sg_keys g <> [].
Proof. intros -> H. unfold source_of in H. destruct (serves_keys root), (sg_keys g), (item_of root "sksClient"); discriminate. Qed.

Context (Hpolicies : Forall (fun p => policyContext p <> None) policies).

Lemma find_group_In groups gid g : find_group groups gid = Some g -> In g groups.
Proof. destruct gid as [[|c s]|]; try discriminate. intros H. now apply find_some in H. Qed.

Lemma policy_context uri p : adapter_pubsub_find_policy policies uri = Some p -> policyContext p <> None.
Proof. intros H. apply find_some in H as [H _]. rewrite Forall_forall in Hpolicies. auto. Qed.

Lemma spec_resolve groups what mode gid : spec groups (resolve_security errLen policies what mode gid) (fun s sec => s = [] /\
  if secure_mode mode then exists g p, sec = Some (g, p) /\ find_group groups gid = Some g /\
    adapter_pubsub_find_policy policies (sg_policyUri g) = Some p else sec = None).
Proof.
  unfold resolve_security. destruct (secure_mode mode); cbn [negb]; [|now apply spec_ret].
  eapply spec_bind; [apply spec_groups|]. intros gs seg [-> ->]. destruct (find_group groups gid) as [g|] eqn:Eg; [|apply spec_fail].
  destruct (adapter_pubsub_find_policy policies (sg_policyUri g)) as [p|] eqn:Ep; [|apply spec_fail]. apply spec_ret.
  split; [reflexivity|]. now exists g, p.
Qed.

(** The entries that give a group its keys. *)
Definition key_entries (isWriter : bool) (id : ua_nodeid) (g : SecGroup) (p : PubSubSecurityPolicy) (s : list entry) : Prop :=
  match sg_source g with
  | KEYSRC_STATIC => exists k ks sig enc nonce id', sg_keys g = k :: ks /\ split_key p (key k) = Some (inr (sig, enc, nonce)) /\
      s = [Called (SetGroupEncryptionKeys isWriter id (tokenId k) sig enc nonce) UA_STATUSCODE_GOOD id']
  | KEYSRC_SKS_SERVER => exists id', s = [Called (SetGroupActivateKey isWriter id) UA_STATUSCODE_GOOD id']
  | _ => s = []
  end.

Lemma split_key_total p k : policyContext p <> None -> split_key p k <> None.
Proof. unfold split_key, encrypting_key_length, enc_len. destruct (policyContext p); [|congruence]. intros _. cbn. now destruct (_ || _). Qed.

Lemma spec_keys groups id isWriter g p : (sg_source g = KEYSRC_STATIC -> sg_keys g <> []) -> policyContext p <> None ->
  spec groups (apply_group_keys errLen id isWriter g p) (fun s _ => key_entries isWriter id g p s).
Proof.
  intros Hk Hp. unfold apply_group_keys, key_entries. eapply spec_bind; [apply spec_secured|]. intros [] seg ->. cbn [app].
  destruct (sg_source g); try (apply spec_ret; reflexivity).
  - destruct (sg_keys g) as [|k ks]; [now specialize (Hk eq_refl)|]. pose proof (split_key_total p (key k) Hp) as Ht.
    destruct (split_key p (key k)) as [[sc|[[sig enc] nonce]]|] eqn:E; [apply spec_fail| |congruence].
    eapply spec_bind; [apply spec_must|]. intros id' seg ->. apply spec_ret. now exists k, ks, sig, enc, nonce, id'.
  - eapply spec_bind; [apply spec_must|]. intros id' seg ->. apply spec_ret. now exists id'.
Qed.

Lemma key_entries_none groups isWriter id g p s : key_entries isWriter id g p s -> adds groups [] s.
Proof.
  unfold key_entries. destruct (sg_source g); try (intros ->; apply adds_nil).
  - intros (k & ks & sig & enc & nonce & id' & _ & _ & ->). now apply adds_plain.
  - intros (id' & ->). now apply adds_plain.
Qed.

Lemma key_entries_keyed groups isWriter id g p s gid more : keys_present groups -> find_group groups gid = Some g ->
  adapter_pubsub_find_policy policies (sg_policyUri g) = Some p -> key_entries isWriter id g p s ->
  keyed policies root groups weak isWriter id gid (Some p) (s ++ more).
Proof.
  intros Hpr H1 H2 H. exists g, p. repeat (split; [assumption || reflexivity|]).
  unfold keys_present in Hpr. rewrite Forall_forall in Hpr. specialize (Hpr g (find_group_In _ _ _ H1)).
  unfold key_entries in H. rewrite Hpr in H. unfold source_of in *.
  destruct (serves_keys root); cbv iota in H; [destruct H as (id' & ->); now exists id', more|].
  destruct (sg_keys g) as [|k ks]; cbv iota in H; [now intros _|]. destruct H as (k' & ks' & sig & enc & nonce & id' & E1 & E2 & ->). injection E1 as <- <-. now exists sig, enc, nonce, id', more.
Qed.

(** A group's configuration carries the mode, the group id and the policy. *)
Definition group_call (c : call) : option (bool * security_mode * ua_string * option PubSubSecurityPolicy) :=
  match c with
  | AddWriterGroup _ c => Some (true, wc_securityMode c, wc_securityGroupId c, wc_securityPolicy c)
  | AddReaderGroup _ c => Some (false, rgc_securityMode c, rgc_securityGroupId c, rgc_securityPolicy c)
  | _ => None
  end.

Lemma adds_group groups c isWriter mode gid sp id seg : group_call c = Some (isWriter, mode, gid, sp) ->
  (secure_mode mode = true -> keyed policies root groups weak isWriter id gid sp seg) -> adds groups [] seg ->
  adds groups [(isWriter, mode, gid)] (Called c UA_STATUSCODE_GOOD id :: seg).
Proof.
  intros Hc Hk [H1 H2]. split; cbn [all_secured flat_map].
  - split; [|exact H1]. destruct c; try discriminate; injection Hc as <- <- <- <-; intros _; exact Hk.
  - rewrite H2. destruct c; try discriminate; injection Hc as <- <- <- <-; reflexivity.
Qed.

(** Adding a group, giving it its keys, and what follows. *)
Lemma spec_group groups isWriter mode gid what c msg k (rest : ua_nodeid -> M W unit) : keys_present groups ->
  (forall sp, group_call (c sp) = Some (isWriter, mode, gid, sp)) -> (forall id, spec groups (k id) (fun s (_ : unit) => s = [])) ->
  (forall id, spec groups (rest id) (fun s _ => adds groups [] s)) ->
  spec groups (run sec <- resolve_security errLen policies what mode gid;
               run id <- must errLen (c (option_map snd sec)) msg;
               also k id; also keys_for errLen id isWriter sec; rest id)
    (fun s _ => adds groups [(isWriter, mode, gid)] s).
Proof.
  intros Hp Hc Hk Hr. eapply spec_bind; [apply spec_resolve|]. intros sec seg [-> Hsec]. cbn [app].
  eapply spec_bind; [apply spec_must|]. intros id seg ->. eapply spec_bind; [apply Hk|]. intros [] seg ->. cbn [app].
  eapply spec_bind with (P := fun s _ => match sec with Some (g, p) => key_entries isWriter id g p s | None => s = [] end).
  - destruct sec as [[g p]|]; [|now apply spec_ret]. cbn [keys_for].
    destruct (secure_mode mode); [|discriminate]. destruct Hsec as (g' & p' & E & Hg & Hpol). injection E as -> ->.
    apply spec_keys; [|now apply (policy_context (sg_policyUri g'))]. unfold keys_present in Hp. rewrite Forall_forall in Hp.
    apply static_keys, Hp. now apply find_group_In in Hg.
  - intros [] ks Hks. eapply spec_weaken; [apply Hr|]. intros s u Hs. cbn [app].
    apply (adds_group groups (c (option_map snd sec)) isWriter mode gid (option_map snd sec)); [apply Hc| |].
    + intros Hm. rewrite Hm in Hsec. destruct Hsec as (g & p & -> & Hg & Hpol). now apply (key_entries_keyed groups isWriter id g).
    + apply (adds_app groups [] []); [|exact Hs]. destruct sec as [[g p]|]; [now apply (key_entries_none groups isWriter id g p)|].
      subst ks. apply adds_nil.
Qed.

(** ** The configuration's components *)

Lemma spec_lift_none groups {A} (r : result A) : spec groups (lift r) (fun s _ => adds groups [] s).
Proof. apply (spec_silent groups _ (fun a => r = Ok a)), spec_lift. Qed.

Lemma spec_dataset_writer groups wgId d : spec groups (add_dataset_writer errLen wgId d) (fun s _ => adds groups [] s).
Proof.
  unfold add_dataset_writer. apply (spec_then groups _ _ [] []).
  - unfold writer_dataset. assert (forall b name, spec groups (match find_pds b name with Some p => ret p | None => fail_with (snprintf errLen
      (snprintf 300 (B "DataSetWriter '" ++ ua_to_cstr (dw_name d) ++ B "': no PublishedDataSet named '" ++ ua_to_cstr name ++ B "'"))) end)
      (fun s _ => adds groups [] s)) as H by (intros b name; destruct (find_pds b name); [apply spec_ret, adds_nil|apply spec_fail]).
    destruct (dw_dataSetName d) as [[|c s]|]; [apply spec_ret, adds_nil| |apply spec_ret, adds_nil].
    apply (spec_then groups _ _ [] []); [|intros b; apply H]. eapply spec_weaken; [apply spec_gets|]. intros x a ->. apply adds_nil.
  - intros pdsId. apply (spec_then groups _ _ [] []); [now apply spec_must_none|]. intros id. apply spec_unit_none, spec_push.
Qed.

Lemma spec_writer_group groups connId conn w : keys_present groups ->
  spec groups (add_writer_group errLen policies connId conn w) (fun s _ => adds groups (writer_adds w) s).
Proof.
  intros Hp. unfold add_writer_group, writer_adds.
  apply (spec_group groups true (effective_mode (wg_securityMode w)) (wg_securityGroupId w) _
    (fun sp => AddWriterGroup connId (writer_group_config_of conn w sp)) _ (fun id => push_created WriterGroup id (wg_enabled w))); auto.
  - intros id. apply spec_push.
  - intros id. apply spec_for_none. apply spec_dataset_writer.
Qed.

Lemma spec_dataset_reader groups rgId d : spec groups (add_dataset_reader errLen rgId d) (fun s _ => adds groups [] s).
Proof.
  unfold add_dataset_reader. apply (spec_then groups _ _ [] []); [apply spec_lift_none|]. intros pub.
  apply (spec_then groups _ _ [] []); [apply spec_lift_none|]. intros targets.
  apply (spec_then groups _ _ [] []); [now apply spec_must_none|]. intros id.
  apply (spec_then groups _ _ [] []); [destruct targets; [apply spec_ret, adds_nil|now apply spec_must_none]|].
  intros _. apply spec_unit_none, spec_push.
Qed.

Lemma spec_reader_group groups connId conn r : keys_present groups ->
  spec groups (add_reader_group errLen policies connId conn r) (fun s _ => adds groups (reader_adds r) s).
Proof.
  intros Hp. unfold add_reader_group, reader_adds.
  apply (spec_then groups _ _ [] [(false, effective_mode (rg_securityMode r), rg_securityGroupId r)]); [apply spec_lift_none|]. intros ts.
  apply (spec_group groups false (effective_mode (rg_securityMode r)) (rg_securityGroupId r) _
    (fun sp => AddReaderGroup connId (reader_group_config_of conn r ts sp)) _ (fun id => push_created ReaderGroup id (rg_enabled r))); auto.
  - intros id. apply spec_push.
  - intros id. apply spec_for_none. apply spec_dataset_reader.
Qed.

Lemma spec_connection groups conn : keys_present groups ->
  spec groups (add_connection errLen policies conn) (fun s _ => adds groups (connection_adds conn) s).
Proof.
  intros Hp. unfold add_connection, connection_adds. destruct (cn_address conn); try apply spec_fail.
  apply (spec_then groups _ _ []); [apply spec_lift_none|]. intros url'.
  apply (spec_then groups _ _ []); [apply spec_lift_none|]. intros pub.
  apply (spec_then groups _ _ []); [now apply spec_must_none|]. intros id.
  apply (spec_then groups _ _ []); [apply spec_unit_none, spec_push|]. intros _.
  apply spec_then; [|intros _]; apply spec_for_each; intros x _; [now apply spec_writer_group|now apply spec_reader_group].
Qed.

Lemma spec_dataset groups p : spec groups (add_dataset errLen p) (fun s _ => adds groups [] s).
Proof.
  unfold add_dataset. destruct (pd_source p); try apply spec_fail.
  apply (spec_then groups _ _ [] []); [now apply spec_must_none|]. intros id.
  apply (spec_then groups _ _ [] []); [apply spec_unit_none, spec_building|]. intros _.
  apply spec_for_none. intros fv. apply (spec_then groups _ _ [] []); [now apply spec_must_none|]. intros _. apply spec_ret, adds_nil.
Qed.

Lemma spec_build groups c : keys_present groups ->
  spec groups (build errLen policies c) (fun s _ => adds groups (flat_map connection_adds (cf_connections c)) s).
Proof.
  intros Hp. unfold build. apply (spec_then groups _ _ []).
  - induction (cf_publishedDataSets c) as [|p l IH]; [apply spec_ret, adds_nil|]. cbn [add_published_datasets].
    apply (spec_then groups _ _ [] []); [eapply spec_weaken; [apply spec_gets|]; intros s a ->; apply adds_nil|]. intros b.
    destruct (Nat.ltb _ _); [|apply spec_ret, adds_nil]. apply (spec_then groups _ _ [] []); [apply spec_dataset|]. intros _. exact IH.
  - intros _. apply spec_for_each. intros conn _. now apply spec_connection.
Qed.

(** ** Steps that add no group *)

Definition plain_entry (e : entry) : Prop := match e with Called c _ _ => plain_call c = true | Enabling _ _ => True end.
Definition quiet_entry (e : entry) : Prop := match e with Called c _ _ => plain_call c = true | Enabling _ _ => False end.

(** The step's entries satisfy [P], and it does not crash. *)
Definition steps (P : entry -> Prop) {A} (m : M W A) : Prop :=
  forall st, let '(st', r) := m st in (exists seg, log st' = log st ++ seg /\ Forall P seg) /\ r <> Crashed.

Lemma steps_ret P {A} (a : A) : steps P (ret a).
Proof. intros st. split; [exists []; now rewrite app_nil_r|discriminate]. Qed.
Lemma steps_fail P {A} msg : steps P (@fail_with W A msg).
Proof. intros st. split; [exists []; now rewrite app_nil_r|discriminate]. Qed.
Lemma steps_gets P {A} (f : State W -> A) : steps P (gets f).
Proof. intros st. split; [exists []; now rewrite app_nil_r|discriminate]. Qed.
Lemma steps_modify P f : (forall st, st_w (f st) = st_w st) -> steps P (modify f).
Proof. intros H st. cbn. unfold log. rewrite H. split; [exists []; now rewrite app_nil_r|discriminate]. Qed.
Lemma steps_lift P {A} (r : result A) : steps P (lift r).
Proof. destruct r; [apply steps_ret|apply steps_fail]. Qed.

Lemma steps_bind P {A C} (m : M W A) (k : A -> M W C) : steps P m -> (forall a, steps P (k a)) -> steps P (bind m k).
Proof.
  intros Hm Hk st. unfold bind. specialize (Hm st). destruct (m st) as [st1 [a|msg|]]; destruct Hm as [(s1 & L1 & F1) Hc].
  - specialize (Hk a st1). destruct (k a st1) as [st2 r]. destruct Hk as [(s2 & L2 & F2) Hc2]. split; [|exact Hc2].
    exists (s1 ++ s2). rewrite L2, L1, app_assoc. split; [reflexivity|]. now apply Forall_app.
  - split; [now exists s1|discriminate].
  - congruence.
Qed.

Lemma steps_for_each P {A} (f : A -> M W unit) l : (forall a, steps P (f a)) -> steps P (for_each f l).
Proof. intros H. induction l; [apply steps_ret|]. apply steps_bind; auto. Qed.

Lemma steps_call c : plain_call c = true -> steps quiet_entry (server_call c).
Proof.
  intros H st. unfold server_call. cbn [api the_api logged_api]. destruct (api (fst (st_w st)) c) as [w [sc id]].
  split; [|discriminate]. exists [Called c sc id]. split; [reflexivity|]. now repeat constructor.
Qed.

Lemma steps_must c msg : plain_call c = true -> steps quiet_entry (must errLen c msg).
Proof. intros H. apply steps_bind; [now apply steps_call|]. intros r. destruct (_ =? _); [apply steps_ret|apply steps_fail]. Qed.

Lemma steps_attempt i sg : steps quiet_entry (sks_attempt i sg).
Proof.
  unfold sks_attempt. apply steps_bind; [apply steps_gets|]. intros [k|]; (apply steps_bind; [apply steps_gets|]; intros w); [|apply steps_ret].
  destruct (_ || _); [apply steps_ret|]. destruct (negb _); [apply steps_ret|].
  apply steps_bind; [now apply steps_modify|]. intros _. apply steps_bind; [now apply steps_call|]. intros r.
  destruct (_ =? _); [apply steps_ret|now apply steps_modify].
Qed.

Lemma steps_start_sks sks opt : steps quiet_entry (start_sks errLen sks opt).
Proof.
  unfold start_sks. apply steps_bind; [apply steps_gets|]. intros groups. destruct (negb _); [apply steps_ret|].
  apply steps_bind; [apply steps_lift|]. intros k. apply steps_bind; [now apply steps_modify|]. intros _.
  apply steps_bind; [|intros _; apply steps_bind; [now apply steps_call|intros _; apply steps_ret]].
  apply steps_for_each. intros i. apply steps_bind; [apply steps_gets|]. intros gs. destruct (nth_error gs i) as [g|]; [|apply steps_ret].
  destruct (is_client_source g); [apply steps_attempt|apply steps_ret].
Qed.

Lemma schedule_log (w : W) rt : snd (fst (schedule_recovery w rt)) = snd w.
Proof.
  unfold schedule_recovery. destruct (recoveryPending rt); [reflexivity|]. cbn [nowMonotonic the_server logged_server].
  destruct (nowMonotonic (fst w)) as [w1 now]. destruct (backoff rt now) as [d rt1]. cbn [addTimedCallback the_server logged_server fst].
  now destruct (addTimedCallback w1 _) as [w2 sc].
Qed.

Lemma deliver_log evs : forall (w : W) rt, snd (fst (deliver w rt evs)) = snd w.
Proof.
  induction evs as [|[id s] evs IH]; intros w rt; [reflexivity|]. cbn [deliver].
  assert (snd (fst (on_state_change w rt id s)) = snd w) as H.
  { unfold on_state_change. destruct (rt_built rt); [|reflexivity]. destruct (locate _ id) as [[k i]|]; [|reflexivity].
    destruct (is_error s); [apply schedule_log|reflexivity]. }
  destruct (on_state_change w rt id s) as [w1 rt1]. cbn [fst] in H. now rewrite IH.
Qed.

Lemma steps_enable k c : steps plain_entry (enable_created errLen k c).
Proof.
  intros st. unfold enable_created. destruct (negb _); [split; [exists []; now rewrite app_nil_r|discriminate]|].
  cbn [enableComponent the_server logged_server]. destruct (enableComponent (fst (st_w st)) k (cr_id c)) as [w [sc evs]].
  pose proof (deliver_log evs (w, snd (st_w st) ++ [Enabling k (cr_id c)]) (st_recovery st)) as H.
  destruct (deliver _ (st_recovery st) evs) as [w1 rt1]. cbn [fst snd] in H.
  destruct (sc =? UA_STATUSCODE_GOOD); (split; [|discriminate]); exists [Enabling k (cr_id c)]; (split; [exact H|now repeat constructor]).
Qed.

Lemma steps_enable_all b : steps plain_entry (enable_all errLen b).
Proof. apply steps_for_each. intros k. apply steps_for_each. apply steps_enable. Qed.

Lemma plain_adds groups seg : Forall plain_entry seg -> adds groups [] seg.
Proof.
  induction 1 as [|e seg He Hs IH]; [apply adds_nil|]. apply (adds_app groups [] [] [e] seg); [|exact IH].
  destruct e as [c sc id|]; [now apply adds_plain|now repeat split].
Qed.

(** The pull of keys ends with the registration of its callback. *)
Lemma start_sks_pulls sks opt st : existsb is_client_source (st_groups st) = true ->
  let '(st', r) := start_sks errLen sks opt st in
  r = Done tt -> exists pre sc id, log st' = log st ++ pre ++ [Called AddRetryCallback sc id] /\ Forall quiet_entry pre.
Proof.
  intros Hc. unfold start_sks. unfold bind at 1. cbn [gets]. rewrite Hc. cbn [negb]. unfold bind at 1.
  destruct (parse_sks_client errLen sks opt) as [k|msg]; cbn [lift]; [|discriminate]. cbn [ret]. unfold bind at 1, set_sks at 1. cbn [modify].
  set (st1 := {| st_w := st_w st; st_groups := st_groups st |}). change (log st) with (log st1).
  assert (steps quiet_entry (for_each (attempt_at is_client_source) (seq 0 (length (st_groups st))))) as Ha.
  { apply steps_for_each. intros i. apply steps_bind; [apply steps_gets|]. intros gs. destruct (nth_error gs i) as [g|]; [|apply steps_ret].
    destruct (is_client_source g); [apply steps_attempt|apply steps_ret]. }
  specialize (Ha st1). unfold bind at 1. destruct (for_each _ _ st1) as [st2 [[]|msg|]]; [|discriminate|discriminate].
  destruct Ha as [(s & L & F) _]. unfold bind at 1, server_call. cbn [api the_api logged_api].
  destruct (api (fst (st_w st2)) AddRetryCallback) as [w [sc id]]. cbn [ret]. intros _. exists s, sc, id. split; [|exact F].
  unfold log at 1. cbn [st_w snd]. change (snd (st_w st2)) with (log st2). rewrite L. now rewrite app_assoc.
Qed.

(** Groups without a source in the file are pulled once the callback is registered. *)
Lemma all_secured_pulled groups a b sc id : quiet a -> flat_map added_group b = [] ->
  all_secured policies root groups weak (a ++ Called AddRetryCallback sc id :: b) ->
  all_secured policies root groups pulled (a ++ Called AddRetryCallback sc id :: b).
Proof.
  assert (forall b, flat_map added_group b = [] -> all_secured policies root groups pulled b) as Hb.
  { clear b. induction b as [|e b IH]; [easy|]. cbn [flat_map all_secured]. intros H. apply app_eq_nil in H as [He Hb]. split; [|auto].
    destruct e as [c sc' id'|]; [|exact I]. destruct c; try exact I; cbn [secured_entry]; intros ->; discriminate He. }
  intros Hq Hn. induction a as [|e a IH]; cbn [app all_secured].
  - intros [_ _]. split; [exact I|auto].
  - intros [He Ha]. split; [|apply IH; [intros k i H; apply (Hq k i); now right|exact Ha]].
    assert (quiet a) as Hqa by (intros k i H; apply (Hq k i); now right).
    assert (forall w i gid sp, keyed policies root groups weak w i gid sp (a ++ Called AddRetryCallback sc id :: b) ->
      keyed policies root groups pulled w i gid sp (a ++ Called AddRetryCallback sc id :: b)) as Hk.
    { intros w i gid sp (g & p & H1 & H2 & H3 & H4). exists g, p. repeat (split; [assumption|]).
      destruct (serves_keys root), (sg_keys g); auto. intros _. now exists a, sc, id, b. }
    destruct e as [c sc' id'|]; [|exact I]. destruct c; try exact I; cbn [secured_entry] in *; auto.
Qed.

(** Without a group to pull for, nothing is left to show. *)
Lemma all_secured_unpulled groups l : is_some (item_of root "sksClient") = false \/ existsb is_client_source groups = false ->
  Forall (fun g => sg_source g = if serves_keys root then KEYSRC_SKS_SERVER
            else match sg_keys g with _ :: _ => KEYSRC_STATIC | [] => if is_some (item_of root "sksClient") then KEYSRC_SKS_CLIENT else KEYSRC_NONE end) groups ->
  all_secured policies root groups weak l -> all_secured policies root groups pulled l.
Proof.
  intros Hn Hs. assert (forall w i gid sp r, keyed policies root groups weak w i gid sp r -> keyed policies root groups pulled w i gid sp r) as Hk.
  { intros w i gid sp r (g & p & H1 & H2 & H3 & H4). exists g, p. repeat (split; [assumption|]).
    destruct (serves_keys root) eqn:Es, (sg_keys g) eqn:Ek; auto. intros Hi. exfalso. destruct Hn as [Hn|Hn]; [congruence|].
    rewrite Forall_forall in Hs. assert (In g groups) as Hg by (destruct gid as [[|c s]|]; try discriminate; now apply find_some in H1).
    specialize (Hs g Hg). rewrite Ek, Hi in Hs. assert (existsb is_client_source groups = true); [|congruence].
    apply existsb_exists. exists g. split; [exact Hg|]. unfold is_client_source. now rewrite Hs. }
  induction l as [|e l IH]; [easy|]. cbn [all_secured]. intros [He Hl]. split; [|auto].
  destruct e as [c sc' id'|]; [|exact I]. destruct c; try exact I; cbn [secured_entry] in *; auto.
Qed.

Lemma quiet_plain seg : Forall quiet_entry seg -> Forall plain_entry seg /\ quiet seg.
Proof.
  intros H. split; [revert H; apply Forall_impl; intros [|]; cbn; tauto|]. intros k id Hin. rewrite Forall_forall in H. exact (H _ Hin).
Qed.

(** ** Reading the file *)

Lemma key_source_of g g' : key_source errLen policies (serves_keys root) (is_some (item_of root "sksClient")) g = Ok g' ->
  sg_source g' = source_of g'.
Proof.
  unfold key_source, source_of. destruct (adapter_pubsub_find_policy _ _); [|discriminate].
  destruct (serves_keys root), (sg_keys g) as [|k ks] eqn:E; try discriminate; intros H; injection H as <-; cbn [with_source sg_source sg_keys]; now rewrite ?E.
Qed.

Lemma security_groups_keys groups : security_groups errLen policies root = Ok groups -> keys_present groups.
Proof.
  unfold security_groups. destruct (parse_security_groups errLen _) as [l|]; [|discriminate]. cbn [rbind]. intros H.
  unfold keys_present. eapply mapR_Forall; [|exact H]. intros g g' _ E. exact (key_source_of _ _ E).
Qed.

Lemma load_groups_spec st : let '(st', r) := load_groups errLen policies root st in
  (exists seg, log st' = log st ++ seg /\ Forall quiet_entry seg) /\ r <> Crashed /\
  (r = Done tt -> security_groups errLen policies root = Ok (st_groups st')).
Proof.
  unfold load_groups. destruct (security_groups errLen policies root) as [groups|msg] eqn:E; cbn [lift].
  2:{ split; [exists []; now rewrite app_nil_r|]. split; discriminate. }
  unfold bind at 1, ret at 1. unfold bind at 1. cbn [set_groups modify].
  set (st1 := {| st_w := st_w st; st_groups := groups |}). change (log st) with (log st1).
  assert (st_groups st1 = groups) as Hg by reflexivity. clearbody st1.
  destruct (serves_keys root); [|split; [exists []; now rewrite app_nil_r|split; [discriminate|intros _; cbn; congruence]]].
  assert (steps quiet_entry (for_each (serve_group errLen) groups)) as Hs.
  { apply steps_for_each. intros g. apply steps_bind; [now apply steps_must|]. intros _. apply steps_ret. }
  assert (spec groups (for_each (serve_group errLen) groups) (fun _ _ => True)) as Hp.
  { eapply spec_weaken; [apply spec_for_none|auto]. intros g. apply (spec_then groups _ _ [] []); [now apply spec_must_none|].
    intros _. apply spec_ret, adds_nil. }
  specialize (Hs st1). specialize (Hp st1 Hg). destruct (for_each (serve_group errLen) groups st1) as [st2 r].
  destruct Hs as [Hl Hc], Hp as (s & _ & _ & Hr). split; [exact Hl|]. split; [exact Hc|]. intros ->. now destruct Hr as [-> _].
Qed.

Context {look : CJsonLookup cj} {tl_ : TypeTableLaws types}.
(** Printing a document does not fail. *)
Context (Hprint : forall j, cJSON_PrintUnformatted j <> None).

Definition decoded (jcfg : cjson) (c : configuration) : Prop :=
  exists text (w : W), cJSON_PrintUnformatted jcfg = Some text /\ pubsub_decode_json w text = Some (UA_STATUSCODE_GOOD, Some c).

Lemma spec_load_configuration groups jcfg : spec groups (load_configuration errLen jcfg) (fun s c => s = [] /\ decoded jcfg c).
Proof.
  unfold load_configuration. intros st Hg. unfold bind, gets. pose proof (Hprint jcfg) as Hp.
  destruct (cJSON_PrintUnformatted jcfg) as [text|] eqn:Et; [|congruence].
  assert (pubsub_decode_json (st_w st) text <> None) as Hd.
  { unfold pubsub_decode_json, pubsub_normalize_json. destruct (cJSON_ParseWithLength text) as [doc|]; [|discriminate].
    rewrite (normalize_done doc) by lia. cbn [obind]. destruct (cJSON_PrintUnformatted (normal doc)); [|discriminate].
    now destruct (decode_configuration _ _). }
  destruct (pubsub_decode_json (st_w st) text) as [[sc [c|]]|] eqn:Ed; [| |congruence].
  - destruct (Z.eqb_spec sc UA_STATUSCODE_GOOD) as [->|]; exists []; rewrite app_nil_r; (split; [reflexivity|]); (split; [apply quiet_nil|]); [|exact I].
    split; [exact Hg|]. split; [reflexivity|]. now exists text, (st_w st).
  - exists []. rewrite app_nil_r. auto using quiet_nil.
Qed.

(** The file, the groups and the configuration behind a log. *)
Definition secured_log (w : W) (opt : PubSubOptions) (l : list entry) : Prop :=
  exists root jcfg groups c, parse_config_file errLen w opt = Ok root /\ item_of root "configuration" = Some jcfg /\
    security_groups errLen policies root = Ok groups /\ decoded jcfg c /\
    all_secured policies root groups pulled l /\ flat_map added_group l = flat_map connection_adds (cf_connections c).

(** What follows the build. *)
Definition finish (opt : PubSubOptions) (c : configuration) : M W unit :=
  also match item_of root "sksClient" with Some sks => start_sks errLen sks opt | None => ret tt end;
  also watch_built;
  if cf_enabled c then run b <- gets st_building; enable_all errLen b else ret tt.

Lemma steps_quiet_plain {A} (m : M W A) : steps quiet_entry m -> steps plain_entry m.
Proof.
  intros H st. specialize (H st). destruct (m st) as [st' r]. destruct H as [(s & L & F) Hc]. split; [|exact Hc].
  exists s. split; [exact L|]. now apply quiet_plain.
Qed.

Lemma steps_finish_enable c : steps plain_entry (also watch_built; if cf_enabled c then run b <- gets st_building; enable_all errLen b else ret tt).
Proof.
  apply steps_bind; [now apply steps_modify|]. intros _. destruct (cf_enabled c); [|apply steps_ret].
  apply steps_bind; [apply steps_gets|]. apply steps_enable_all.
Qed.

(** It adds no group, and when keys are to be pulled it registers the callback
    before it enables anything. *)
Lemma finish_spec opt c st : quiet (log st) -> let '(st', r) := finish opt c st in
  r <> Crashed /\ exists seg, log st' = log st ++ seg /\ Forall plain_entry seg /\
  (r = Done tt \/ ~ quiet (log st') -> is_some (item_of root "sksClient") = true -> existsb is_client_source (st_groups st) = true ->
   exists pre sc id post, seg = pre ++ Called AddRetryCallback sc id :: post /\ Forall quiet_entry pre).
Proof.
  intros Hq. unfold finish. unfold bind at 1. destruct (item_of root "sksClient") as [sks|].
  2:{ unfold ret at 1. pose proof (steps_finish_enable c st) as H. destruct ((also watch_built; _) st) as [st' r]. destruct H as [(s & L & F) Hc].
      split; [exact Hc|]. exists s. repeat (split; [assumption|]). discriminate. }
  pose proof (steps_start_sks sks opt st) as H1. pose proof (start_sks_pulls sks opt st) as H2.
  destruct (start_sks errLen sks opt st) as [st1 [[]|msg|]]; destruct H1 as [(s1 & L1 & F1) Hc1]; [| |congruence].
  - pose proof (steps_finish_enable c st1) as H. destruct ((also watch_built; _) st1) as [st' r]. destruct H as [(s & L & F) Hc].
    split; [exact Hc|]. exists (s1 ++ s). rewrite L, L1, app_assoc. split; [reflexivity|].
    split; [apply Forall_app; split; [now apply quiet_plain|exact F]|]. intros _ _ Hs. destruct (H2 Hs eq_refl) as (pre & sc & id & L2 & Fp).
    rewrite L1 in L2. apply app_inv_head in L2. exists pre, sc, id, s. split; [|exact Fp]. rewrite L2, <- app_assoc. reflexivity.
  - split; [discriminate|]. exists s1. split; [exact L1|]. split; [now apply quiet_plain|]. intros [H|H]; [discriminate|].
    destruct H. rewrite L1. apply quiet_app; [exact Hq|]. now apply quiet_plain.
Qed.

(** The outcome of a run from the world [w]. *)
Definition settled (w : W) (opt : PubSubOptions) (x : State W * res unit) : Prop :=
  snd x <> Crashed /\ (snd x = Done tt \/ ~ quiet (log (fst x)) -> secured_log w opt (log (fst x))).

Lemma settled_quiet {A} w opt (m : M W A) (k : A -> M W unit) st :
  (let '(st1, r) := m st in quiet (log st1) /\ r <> Crashed /\ forall a, r = Done a -> settled w opt (k a st1)) ->
  settled w opt (bind m k st).
Proof.
  unfold bind. destruct (m st) as [st1 [a|msg|]]; intros (Hq & Hc & Hk); [now apply Hk| |congruence].
  split; [discriminate|]. intros [H|H]; [discriminate|contradiction].
Qed.

Lemma settled_fail w opt msg st : quiet (log st) -> settled w opt (fail_with msg st).
Proof. intros Hq. split; [discriminate|]. intros [H|H]; [discriminate|contradiction]. Qed.

(** The build and what follows it. *)
Lemma settled_build w opt jcfg groups c st : parse_config_file errLen w opt = Ok root -> item_of root "configuration" = Some jcfg ->
  security_groups errLen policies root = Ok groups -> decoded jcfg c -> st_groups st = groups -> Forall quiet_entry (log st) ->
  settled w opt ((also build errLen policies c; finish opt c) st).
Proof.
  intros H1 H2 H3 H4 H5 H6. apply quiet_plain in H6 as [Hpl Hq]. apply settled_quiet.
  pose proof (security_groups_keys _ H3) as Hkeys. pose proof (spec_build groups c Hkeys st H5) as Hb.
  destruct (build errLen policies c st) as [st1 r]. destruct Hb as (s & L & Hs & Hr).
  assert (quiet (log st1)) as Hq1 by (rewrite L; now apply quiet_app).
  split; [exact Hq1|]. split; [now destruct r|]. intros [] ->. destruct Hr as [Hg Hadd].
  pose proof (finish_spec opt c st1 Hq1) as Hf. destruct (finish opt c st1) as [st2 r2]. destruct Hf as (Hc & s2 & L2 & F2 & Hpull).
  split; [exact Hc|]. intros Hdone. exists root, jcfg, groups, c. repeat (split; [assumption|]).
  cbn [fst snd] in *. rewrite Hg in Hpull. rewrite L2, L.
  pose proof (adds_app groups _ _ _ _ (adds_app groups _ _ _ _ (plain_adds groups _ Hpl) Hadd) (plain_adds groups _ F2)) as [Ha Hb].
  cbn [app] in Hb. rewrite app_nil_r in Hb. split; [|exact Hb].
  destruct (is_some (item_of root "sksClient") && existsb is_client_source groups) eqn:E.
  - apply andb_prop in E as [E1 E2]. destruct (Hpull Hdone E1 E2) as (pre & sc & id & post & -> & Fp). rewrite app_assoc in *.
    apply all_secured_pulled; [apply quiet_app; [now apply quiet_app|now apply quiet_plain]| |exact Ha].
    apply Forall_app in F2 as [_ F2]. apply Forall_inv_tail in F2. exact (proj2 (plain_adds groups _ F2)).
  - apply all_secured_unpulled; [now apply andb_false_iff|exact Hkeys|exact Ha].
Qed.
End Lemmas.

Section Apply.
Context {stack : UaStack} {cj : CJson} {cpu : Cpu} {nid : NodeIdOps} {types : TypeTable} {len : CJsonLength}
  {W0 : Type} {papi : PubSubApi W0} {psrv : PubSubServer W0}.
Context (errLen : nat) (policies : list PubSubSecurityPolicy) (Hpolicies : Forall (fun p => policyContext p <> None) policies).
Context {look : CJsonLookup cj} {tl_ : TypeTableLaws types} (Hprint : forall j, cJSON_PrintUnformatted j <> None).
#[local] Existing Instance the_api.
#[local] Existing Instance the_server.

Lemma apply_config_settled opt (st : State (W0 * list entry)) : log st = [] ->
  settled (papi := papi) errLen policies (st_w st) opt (apply_config errLen policies opt st).
Proof.
  intros Hlog. unfold apply_config. apply settled_quiet. cbn [gets]. rewrite Hlog.
  split; [apply quiet_nil|]. split; [discriminate|]. intros w E. injection E as <-.
  apply settled_quiet. destruct (parse_config_file errLen (st_w st) opt) as [root|msg] eqn:Eroot; cbn [lift ret fail_with]; rewrite Hlog;
    (split; [apply quiet_nil|]); (split; [discriminate|]); [|discriminate]. intros root' E. injection E as <-.
  apply settled_quiet. pose proof (steps_call (papi := papi) (SetDeltaFrames match item_of root "deltaFrames" with Some v => cJSON_IsTrue v | None => false end) eq_refl st) as H0.
  destruct (server_call _ st) as [st0 r0]. destruct H0 as [(s0 & L0 & F0) Hc0]. rewrite Hlog in L0. cbn [app] in L0.
  pose proof F0 as F0'. apply quiet_plain in F0' as [_ Hq0].
  split; [now rewrite L0|]. split; [exact Hc0|]. intros _ _.
  destruct (item_of root "configuration") as [[| | | | |l]|] eqn:Ecfg; try (apply settled_fail; now rewrite L0).
  apply settled_quiet. pose proof (load_groups_spec (papi := papi) errLen policies root st0) as Hg. destruct (load_groups errLen policies root st0) as [st1 r1].
  destruct Hg as ((s1 & L1 & F1) & Hc1 & Hg1). assert (Forall quiet_entry (log st1)) as F1' by (rewrite L1, L0; now apply Forall_app).
  pose proof F1' as Hq1. apply quiet_plain in Hq1 as [_ Hq1]. split; [exact Hq1|]. split; [exact Hc1|]. intros [] ->. specialize (Hg1 eq_refl).
  apply settled_quiet. pose proof (spec_load_configuration (papi := papi) errLen Hprint (st_groups st1) (CObject l) st1 eq_refl) as Hd.
  destruct (load_configuration errLen (CObject l) st1) as [st2 r2]. destruct Hd as (s2 & L2 & Hq2 & Hr2).
  split; [rewrite L2; now apply quiet_app|]. split; [now destruct r2|]. intros c ->. destruct Hr2 as (Hg2 & -> & Hdec).
  rewrite app_nil_r in L2. apply (settled_build errLen policies root Hpolicies _ _ (CObject l) (st_groups st1)); auto. now rewrite L2.
Qed.
End Apply.

(** C6: with installed policies and a printer that does not fail, whatever the file
    and the server's answers, applying `--pubsub-config` neither reads past an array
    nor through NULL, and once it succeeds, or has enabled anything, the WriterGroups
    and ReaderGroups added are exactly those of the decoded configuration with their
    security modes, and each one that signs or encrypts was added with the policy of
    its security group.  Right after, a group with static keys gets its first key
    split by the policy, and with "serveSks" the server's own keys are activated;
    with "sksClient" the callback that pulls the keys is registered before anything is
    enabled.  A group with none of these is left without keys (until
    SetSecurityKeys). *)
Theorem pubsub_groups_secured {stack : UaStack} {cj : CJson} {look : CJsonLookup cj} {cpu : Cpu} {nid : NodeIdOps} {types : TypeTable}
    {tl : TypeTableLaws types} {len : CJsonLength} {W0 : Type} (papi : PubSubApi W0) (psrv : PubSubServer W0)
    (errLen : nat) (policies : list PubSubSecurityPolicy) opt (st : State (W0 * list entry)) :
  Forall (fun p => policyContext p <> None) policies -> (forall j, cJSON_PrintUnformatted j <> None) -> snd (st_w st) = [] ->
  let '(st', r) := pubsub_server_apply (papi := logged_api papi) (psrv := logged_server psrv) errLen policies opt st in
  r <> Crashed /\
  (r = Done tt \/ ~ quiet (snd (st_w st')) ->
   exists root jcfg groups c, parse_config_file (papi := logged_api papi) errLen (st_w st) opt = Ok root /\
     item_of root "configuration" = Some jcfg /\ security_groups errLen policies root = Ok groups /\ decoded (papi := papi) jcfg c /\
     all_secured policies root groups pulled (snd (st_w st')) /\
     flat_map added_group (snd (st_w st')) = flat_map connection_adds (cf_connections c)).
Proof.
  intros Hpol Hpr Hl. unfold pubsub_server_apply.
  pose proof (apply_config_settled (papi := papi) (psrv := psrv) errLen policies Hpol Hpr opt st Hl) as [Hc Hs].
  change (the_api (papi := papi)) with (logged_api papi) in *. change (the_server (psrv := psrv)) with (logged_server psrv) in *.
  destruct (apply_config errLen policies opt st) as [st1 [[]|msg|]]; cbn [fst snd] in *; (split; [exact Hc|exact Hs]).
Qed.

(** * A configuration with one signed WriterGroup *)

Definition toy_policy : PubSubSecurityPolicy :=
  {| policyContext := Some 32%nat; policyUri := PUBSUB_POLICY_AES256CTR; nonceLength := 68 |}.

Definition toy_group : writer_group :=
  {| wg_name := Some (B "wg"); wg_enabled := true; wg_securityMode := ModeSign; wg_securityGroupId := Some (B "g");
     wg_properties := []; wg_writerGroupId := 1; wg_publishingInterval := S754_zero false; wg_keepAliveTime := S754_zero false;
     wg_priority := 0; wg_transportSettings := EoNoBody; wg_messageSettings := EoNoBody; wg_writers := [] |}.

Definition toy_configuration : configuration :=
  {| cf_publishedDataSets := []; cf_enabled := true;
     cf_connections := [{| cn_name := Some (B "c"); cn_enabled := true; cn_publisherId := VtEmpty;
       cn_transportProfileUri := Some PROFILE_UDP_UADP; cn_address := EoNetworkAddressUrl None (Some (B "opc.udp://239.0.0.1:4840"));
       cn_properties := []; cn_transportSettings := EoNoBody; cn_writerGroups := [toy_group]; cn_readerGroups := [] |}] |}.

(** The world counts the calls, and the NodeIds it gives out. *)
Definition toy_api : PubSubApi Z := {|
  api w _ := (w + 1, (UA_STATUSCODE_GOOD, UA_NODEID_NUMERIC 1 w));
  read_namespace_array _ := (UA_STATUSCODE_GOOD, VtArray TString [] []);
  pubsub_file _ _ := Some (B "cfg");
  directory _ _ := None;
  sks_names := no_certificates;
  sks_encryption _ _ _ := UA_STATUSCODE_GOOD;
  PublisherId_fromVariant _ := UA_STATUSCODE_GOOD;
  decode_configuration _ _ := (UA_STATUSCODE_GOOD, toy_configuration) |}.

Definition toy_file : cjson :=
  CObject [(B "configuration", CObject []);
           (B "securityGroups", CArray [CObject [(B "securityGroupId", CString (B "g"));
              (B "keys", CArray [CObject [(B "tokenId", CNumber (double_of false 1 0) 1);
                                          (B "key", CString (value_b64_encode (repeat 7 68)))]])]])].

#[local] Instance toy_length : CJsonLength := {|
  cJSON_ParseWithLength s := if streq s (B "cfg") then Some toy_file else Some CNull |}.

Definition toy_options : PubSubOptions :=
  {| configPath := B "/cfg.json"; opt_certFile := None; opt_keyFile := None; opt_pkiDir := None |}.

Definition toy_start : State (Z * list entry) :=
  {| st_w := (0, []); st_groups := []; st_sks := None; st_secured := [];
     st_building := no_built;
     st_recovery := {| rt_built := None; recoveryPending := false; recoveryDelayMs := 0; lastErrorAt := 0 |} |}.

Lemma pubsub_groups_secured_witness :
  exists st' root groups, pubsub_server_apply (papi := logged_api toy_api) (psrv := logged_server ref_pubsub) 512 [toy_policy] toy_options toy_start
    = (st', Done tt) /\ security_groups 512 [toy_policy] root = Ok groups /\
    all_secured [toy_policy] root groups pulled (snd (st_w st')) /\ flat_map added_group (snd (st_w st')) = [(true, ModeSign, Some (B "g"))] /\
    length (snd (st_w st')) = 6%nat.
Proof.
  pose proof (pubsub_groups_secured toy_api ref_pubsub 512 [toy_policy] toy_options toy_start) as H.
  destruct (pubsub_server_apply _ _ toy_options toy_start) as [st' r] eqn:E.
  assert (r = Done tt) as -> by (apply (f_equal snd) in E; vm_compute in E; now rewrite <- E).
  destruct H as [_ H]; [repeat constructor; discriminate|intros []; discriminate|reflexivity|].
  destruct (H (or_introl eq_refl)) as (root & jcfg & groups & c & _ & _ & H3 & _ & H5 & _).
  exists st', root, groups. split; [reflexivity|]. split; [exact H3|]. split; [exact H5|].
  apply (f_equal (fun x => snd (st_w (fst x)))) in E. cbn [fst] in E. rewrite <- E. vm_compute. now split.
Defined.
