(* ===== verification/ServerWorld.v ===== *)
(** The server side of open62541 and of the host as server.c uses them: one
    constructor of [scall] per library or system call that has an effect, with
    its arguments and the type of its answer, the class [ServerHost] that answers
    them, actions over a host that keep a log of every call with its answer, and
    rules to show that the log of an action is a path of a state machine. *)

From Stdlib Require Import String Ascii ZArith Bool List Lia SpecFloat.
Import ListNotations.
From S2P Require Import Prelude CLib UaTypes Args ServerValues Historian PubSubRecovery PubSubConfig PubSubSecured.

(** * Data of the calls *)

(** A LocalizedText with the locale "en", a QualifiedName. *)
Definition localized : Type := bytes * bytes.
Definition UA_LOCALIZEDTEXT_EN (text : bytes) : localized := (B "en", text).
Definition qualified : Type := Z * bytes.

(** A value given to a node: a Variant with the [arrayDimensions] written over its
    own ([] for none), or a scalar of the structure UA_Range. *)
Inductive attr_value := ValueOf (v : ua_variant) (arrayDimensions : list Z) | RangeOf (low high : spec_float).

(** Attributes the source sets; [None] leaves the default of the stack. *)
Record ObjectAttributes := { oa_displayName : localized; oa_description : localized; oa_eventNotifier : option Z }.
Record VariableAttributes := {
  va_displayName : localized; va_description : option localized; va_dataType : ua_nodeid; va_valueRank : Z;
  va_accessLevel : Z; va_userAccessLevel : option Z; va_historizing : bool; va_arrayDimensions : list Z;
  va_value : attr_value }.
Record MethodAttributes := { ma_displayName : localized; ma_description : localized; ma_executable : bool; ma_userExecutable : bool }.
Record UA_Argument := { ua_name : bytes; ua_dataType : ua_nodeid; ua_valueRank : Z; ua_description : localized }.

(** The function a method node calls: one of the callbacks for fixtures (NULL for
    none), or [method_alarm_reset_cb] with the nodes of the alarm. *)
Inductive method_impl :=
| FixtureMethod (cb : option (list ua_variant -> nat -> method_result))
| AlarmReset (source condition : ua_nodeid).

(** The function and the context of a repeated callback. *)
Inductive callback :=
| BehaviorTick (node : ua_nodeid) (ctx : BehaviorCtx)
| EmitBaseEvent (source eventType : ua_nodeid)
| RegisterWithLds (url : bytes).

(** Assignments to the fields of UA_ServerConfig. *)
Inductive cfg_field :=
| ServerUrls (l : list bytes)
| AllowNonePolicyPassword
| ReverseReconnectInterval (ms : Z)
| ApplicationTypeDiscoveryServer
| DiscoveryCleanupTimeout (s : Z)
| MdnsServerName (name : bytes)
| ServerCapabilities (l : list bytes)
| MdnsEnabled (on : bool)
| EndpointUrl (i : nat) (url : bytes)
| DiscoveryUrl (i : nat) (url : bytes)
| ApplicationUri (uri : bytes)
| ProductUri (uri : bytes)
| ApplicationName (name : localized)
| HistoryDatabase (ctx : InteropHistCtx)
| DiscoveryUrls (l : list bytes)
| EnableDeltaFrames (on : bool).

(** * Calls *)

Inductive scall : Type -> Type :=
(* the configuration *)
| SetDefaultConfig : scall Z
| SetDefaultWithSecurityPolicies (port : Z) (cert key : bytes) (trust : list bytes) : scall Z
| AddEccPolicy (name cert key : bytes) : scall Z
| AddEndpoint (uri : bytes) (mode : security_mode) : scall Z
| AccessControl (allowAnonymous : bool) (logins : list (bytes * bytes)) : scall Z
| SetConfig (f : cfg_field) : scall unit
(* the server *)
| NewWithConfig : scall bool
| RunStartup : scall Z
| RunIterate (wait : bool) : scall unit
| RunShutdown : scall unit
| DeleteServer : scall unit
(* the address space *)
| AddNamespace (uri : option bytes) : scall Z
| AddObjectNode (id parent ref : ua_nodeid) (name : qualified) (typeDef : ua_nodeid) (attr : ObjectAttributes) : scall Z
| AddVariableNode (id parent ref : ua_nodeid) (name : qualified) (typeDef : ua_nodeid) (attr : VariableAttributes) : scall Z
| AddMethodNode (id parent ref : ua_nodeid) (name : qualified) (attr : MethodAttributes) (cb : method_impl)
    (inputs outputs : list UA_Argument) : scall Z
| AddObjectTypeNode (parent ref : ua_nodeid) (name : qualified) (display description : localized) : scall (Z * ua_nodeid)
| AddReference (source ref target : ua_nodeid) (isForward : bool) : scall Z
| BrowseSimplifiedBrowsePath (node : ua_nodeid) (path : list qualified) : scall (Z * list ua_nodeid)
| ReadValue (node : ua_nodeid) : scall (Z * ua_variant)
| WriteValue (node : ua_nodeid) (v : attr_value) : scall Z
| WriteDataValue (node : ua_nodeid) (dv : ua_datavalue) : scall Z
| WriteObjectProperty (node : ua_nodeid) (name : qualified) (v : ua_variant) : scall Z
(* events, conditions, callbacks *)
| CreateEvent (source eventType : ua_nodeid) (severity : Z) (message : localized) : scall Z
| CreateCondition (id type : ua_nodeid) (name : qualified) (source ref : ua_nodeid) : scall (Z * ua_nodeid)
| SetConditionField (condition : ua_nodeid) (v : ua_variant) (field : qualified) : scall Z
| SetConditionFieldProperty (condition : ua_nodeid) (v : ua_variant) (field property : qualified) : scall Z
| TriggerConditionEvent (condition source : ua_nodeid) : scall Z
| AddRepeatedCallback (cb : callback) (intervalMs : Z) : scall Z
(* the network *)
| AddReverseConnect (url : bytes) : scall Z
| RegisterDiscovery (url : bytes) : scall Z
| DeregisterDiscovery (url : bytes) : scall Z
| DisableAllPubSubComponents : scall unit
(* the host *)
| InstallSignalHandlers : scall unit
| GRunning : scall bool
| Unlink (path : bytes) : scall bool
| OpenForWriting (path : bytes) : scall bool
| WriteAndClose (path text : bytes) : scall bool (* [fprintf] and [fclose]: every byte is in the file *)
| Rename (from to_ : bytes) : scall bool
| DateTimeNow : scall Z
| ClockMonotonic : scall (Z * Z)
| Nanosleep (ns : Z) : scall unit.

(** The host answers a call and changes; what it only looks up changes nothing. *)
Class ServerHost (W : Type) := {
  perform : forall A, W -> scall A -> W * A;
  (** [access(path, R_OK) == 0] *)
  readable : W -> bytes -> bool;
  (** [strerror(errno)] after a failed [fopen] *)
  open_error : W -> bytes -> bytes;
  (** [endpointsSize] and [discoveryUrlsSize] of the server's configuration *)
  endpointsSize : W -> nat;
  discoveryUrlsSize : W -> nat
}.
Arguments perform {W _} A w c.

(** What happened: a call with its answer, a call of pubsub_server.c, the end of
    [pubsub_server_apply]. *)
Inductive event :=
| Ev {A : Type} (c : scall A) (r : A)
| PubSubCall (e : entry)
| PubSubApplied (ok : bool).

(** * Actions *)

Definition host (W : Type) : Type := W * list event.
Definition action (W A : Type) : Type := host W -> host W * A.

Definition pure {W A} (a : A) : action W A := fun h => (h, a).
Definition andthen {W A C} (m : action W A) (k : A -> action W C) : action W C := fun h =>
  let '(h, a) := m h in k a h.

Declare Scope server_scope.
Notation "'ask' x <- m ; k" := (andthen m (fun x => k))
  (at level 10, x name, m at level 100, k at level 200) : server_scope.
Notation "'tell' m ; k" := (andthen m (fun _ => k)) (at level 10, m at level 100, k at level 200) : server_scope.
Open Scope server_scope.

(** What the host looks like now. *)
Definition look {W A} (f : W -> A) : action W A := fun h => (h, f (fst h)).

Definition do_call {W} {H : ServerHost W} {A} (c : scall A) : action W A := fun h =>
  let '(w, r) := perform A (fst h) c in ((w, snd h ++ [Ev c r]), r).

Fixpoint each {W A} (f : A -> action W unit) (l : list A) : action W unit :=
  match l with
  | [] => pure tt
  | a :: r => tell f a; each f r
  end.

Definition when_ {W} (c : bool) (m : action W unit) : action W unit := if c then m else pure tt.

(** * Rules *)

(** [m] extends the log by a path of [step] from [p] to a state and with a result
    that satisfy [Q]. *)
Section Rules.
Context {P : Type} (step : P -> event -> option P).

Fixpoint path (p : P) (l : list event) : option P :=
  match l with
  | [] => Some p
  | e :: r => match step p e with Some q => path q r | None => None end
  end.

Lemma path_app l1 : forall p l2, path p (l1 ++ l2) = match path p l1 with Some q => path q l2 | None => None end.
Proof. induction l1 as [|e l1 IH]; intros p l2; [reflexivity|]. cbn. destruct (step p e); [apply IH|reflexivity]. Qed.

Context {W : Type} {H : ServerHost W}.

Definition moves {A} (p : P) (m : action W A) (Q : A -> P -> Prop) : Prop :=
  forall h, let '(h', a) := m h in exists l q, snd h' = snd h ++ l /\ path p l = Some q /\ Q a q.

Lemma moves_pure {A} p (a : A) (Q : A -> P -> Prop) : Q a p -> moves p (pure a) Q.
Proof. intros HQ h. cbn. exists [], p. rewrite app_nil_r. auto. Qed.

Lemma moves_look {A} p (f : W -> A) (Q : A -> P -> Prop) : (forall w, Q (f w) p) -> moves p (look f) Q.
Proof. intros HQ h. cbn. exists [], p. rewrite app_nil_r. auto. Qed.

Lemma moves_then {A C} p (m : action W A) (k : A -> action W C) Q R :
  moves p m Q -> (forall a q, Q a q -> moves q (k a) R) -> moves p (andthen m k) R.
Proof.
  intros Hm Hk h. unfold andthen. specialize (Hm h). destruct (m h) as [h1 a]. destruct Hm as (l1 & q & L1 & P1 & HQ).
  specialize (Hk a q HQ h1). destruct (k a h1) as [h2 c]. destruct Hk as (l2 & q2 & L2 & P2 & HR).
  exists (l1 ++ l2), q2. rewrite L2, L1, app_assoc, path_app, P1. auto.
Qed.

Lemma moves_call {A} p (c : scall A) (Q : A -> P -> Prop) :
  (forall r, exists q, step p (Ev c r) = Some q /\ Q r q) -> moves p (do_call c) Q.
Proof.
  intros HQ h. unfold do_call. destruct (perform A (fst h) c) as [w r]. destruct (HQ r) as (q & E & Hq).
  exists [Ev c r], q. cbn. rewrite E. auto.
Qed.

Lemma moves_weaken {A} p (m : action W A) (Q R : A -> P -> Prop) :
  moves p m Q -> (forall a q, Q a q -> R a q) -> moves p m R.
Proof.
  intros Hm HQ h. specialize (Hm h). destruct (m h) as [h' a]. destruct Hm as (l & q & L & E & Hq). exists l, q. auto.
Qed.

(** The action stays in its state. *)
Definition stays {A} (p : P) (m : action W A) : Prop := moves p m (fun _ q => q = p).

Lemma stays_call {A} p (c : scall A) : (forall r, step p (Ev c r) = Some p) -> stays p (do_call c).
Proof. intros E. apply moves_call. intros r. exists p. auto. Qed.

Lemma stays_then {A C} p (m : action W A) (k : A -> action W C) :
  stays p m -> (forall a, stays p (k a)) -> stays p (andthen m k).
Proof. intros Hm Hk. eapply moves_then; [exact Hm|]. cbn. intros a q ->. apply Hk. Qed.

Lemma moves_after {A C} p (m : action W A) (k : A -> action W C) R :
  stays p m -> (forall a, moves p (k a) R) -> moves p (andthen m k) R.
Proof. intros Hm Hk. eapply moves_then; [exact Hm|]. cbn. intros a q ->. apply Hk. Qed.

Lemma stays_each {A} p (f : A -> action W unit) l : (forall a, stays p (f a)) -> stays p (each f l).
Proof. intros Hf. induction l as [|a l IH]; [now apply moves_pure|]. cbn. apply stays_then; auto. Qed.
End Rules.

(** Walks through an action whose calls all stay in the state. *)
Ltac staying :=
  repeat first
    [ progress intros
    | match goal with
      | |- stays _ _ (do_call _) => apply stays_call; intros; reflexivity
      | |- stays _ _ (each _ _) => apply stays_each
      | |- stays _ _ (andthen _ _) => apply stays_then
      | |- stays _ _ (pure _) => apply moves_pure; reflexivity
      | |- stays _ _ (look _) => apply moves_look; reflexivity
      | |- stays _ _ (when_ _ _) => unfold when_
      | |- stays _ _ (if ?c then _ else _) => destruct c
      | |- stays _ _ (match ?x with _ => _ end) => destruct x
      end
    | progress cbv zeta ].
