(* ===== verification/ServerSpace.v ===== *)
(** The address space server.c builds from a fixture: nodes with their attributes
    and values, the EURange property, the historian, the event source, the alarm
    and the behaviours. *)

From Stdlib Require Import String Ascii ZArith Bool List Lia SpecFloat.
Import ListNotations.
From S2P Require Import Prelude CLib Float UaTypes RefStack Base64 CJson NodeIds Historian Fixture ServerValues ServerWorld.

Definition UA_NS0ID_ORGANIZES : Z := 35.
Definition UA_NS0ID_HASSUBTYPE : Z := 45.
Definition UA_NS0ID_HASPROPERTY : Z := 46.
Definition UA_NS0ID_HASCOMPONENT : Z := 47.
Definition UA_NS0ID_HASNOTIFIER : Z := 48.
Definition UA_NS0ID_BASEOBJECTTYPE : Z := 58.
Definition UA_NS0ID_FOLDERTYPE : Z := 61.
Definition UA_NS0ID_BASEDATAVARIABLETYPE : Z := 63.
Definition UA_NS0ID_PROPERTYTYPE : Z := 68.
Definition UA_NS0ID_RANGE : Z := 884.
Definition UA_NS0ID_BASEEVENTTYPE : Z := 2041.
Definition UA_NS0ID_SERVER : Z := 2253.
Definition UA_NS0ID_ALARMCONDITIONTYPE : Z := 2915.

Definition ns0 (i : Z) : ua_nodeid := UA_NODEID_NUMERIC 0 i.

(** [type->typeId.identifier.numeric] of the built-in types (Part 6, 5.1.2). *)
Definition builtin_typeId (t : ua_type) : Z :=
  match t with
  | TBoolean => 1 | TSByte => 2 | TByte => 3 | TInt16 => 4 | TUInt16 => 5 | TInt32 => 6 | TUInt32 => 7 | TInt64 => 8
  | TUInt64 => 9 | TFloat => 10 | TDouble => 11 | TString => 12 | TDateTime => 13 | TGuid => 14 | TByteString => 15
  | TXmlElement => 16 | TNodeId => 17 | TExpandedNodeId => 18 | TStatusCode => 19 | TQualifiedName => 20
  | TLocalizedText => 21 | TExtensionObject => 22 | TDataValue => 23 | TVariant => 24 | TDiagnosticInfo => 25
  | TStructure i => i
  end.

Definition data_type_nodeid (name : option bytes) : ua_nodeid := ns0 (builtin_typeId (data_type_for_name name)).

Definition parse_browse_name (s : option bytes) : qualified :=
  match s with
  | None => (0, [])
  | Some s => match strchr 58 s with
              | Some (_, name) => (u16 (atoi s), name)
              | None => (0, s)
              end
  end.

Definition opt_text (s : option bytes) : bytes := default [] s.

Definition build_ua_arguments (args : list Argument) : list UA_Argument :=
  map (fun a => {| ua_name := opt_text (arg_name a); ua_dataType := data_type_nodeid (arg_dataType a);
                   ua_valueRank := arg_valueRank a;
                   ua_description := UA_LOCALIZEDTEXT_EN (opt_text (arg_description a)) |}) args.

(** [strstr(s, needle) != NULL] *)
Fixpoint strstr (s needle : bytes) : bool :=
  is_some (strip needle s) || match s with [] => false | _ :: r => strstr r needle end.

Definition names_source (id : option bytes) (needle : string) : bool :=
  match id with Some s => strstr s (B needle) | None => false end.

Section Space.
Context {cpu : Cpu} {tz : LocalTime} {nid : NodeIdOps} {W : Type} {H : ServerHost W}.

(** * NodeIds of the fixture *)

Definition ns_index_for_uri (uri : bytes) : action W Z :=
  ask i <- do_call (AddNamespace (Some uri)); pure (u16 i).

(** The URI of an [nsu=] NodeId, as [resolve_nodeid] cuts it out. *)
Definition nsu_uri (s : bytes) : option bytes :=
  do r <- strip (B "nsu=") s; do p <- strchr 59 r; Some (fst p).

(** [resolve_nodeid(server, s)]: the URI of an [nsu=] NodeId is looked up, and
    registered when it is new. *)
Definition resolve (s : option bytes) : action W ua_nodeid :=
  match s with
  | None => pure UA_NODEID_NULL
  | Some s =>
      match nsu_uri s with
      | Some uri => ask ns <- ns_index_for_uri uri; pure (resolve_nodeid (fun _ => ns) s)
      | None => pure (resolve_nodeid (fun _ => 0) s)
      end
  end.

(** * Nodes *)

Definition eu_range_attributes (low high : spec_float) : VariableAttributes :=
  {| va_displayName := UA_LOCALIZEDTEXT_EN (B "EURange"); va_description := None; va_dataType := ns0 UA_NS0ID_RANGE;
     va_valueRank := -1; va_accessLevel := 1; va_userAccessLevel := None; va_historizing := false;
     va_arrayDimensions := []; va_value := RangeOf low high |}.

(** AnalogItemType instances have the EURange child of their type already. *)
Definition set_eu_range (varId : ua_nodeid) (low high : spec_float) : action W unit :=
  let qn := (0, B "EURange") in
  ask bpr <- do_call (BrowseSimplifiedBrowsePath varId [qn]);
  let add := do_call (AddVariableNode UA_NODEID_NULL varId (ns0 UA_NS0ID_HASPROPERTY) qn (ns0 UA_NS0ID_PROPERTYTYPE)
                        (eu_range_attributes low high)) in
  tell match bpr with
       | (sc, target :: _) => if sc =? UA_STATUSCODE_GOOD then do_call (WriteValue target (RangeOf low high)) else add
       | (_, []) => add
       end;
  pure tt.

Definition object_attributes (nd : FixtureNode) : ObjectAttributes :=
  {| oa_displayName := UA_LOCALIZEDTEXT_EN (opt_text (displayName nd));
     oa_description := UA_LOCALIZEDTEXT_EN (opt_text (nd_description nd));
     oa_eventNotifier := if names_source (nodeId nd) "s=Events.Source" then Some 1 else None |}.

(** The initial value; the dimensions go into the Variant from two dimensions on. *)
Definition node_value (v : VariableFields) : attr_value :=
  match initialValue v with
  | None => ValueOf VtEmpty []
  | Some jv =>
      let value := build_variant (Some jv) (dataType v) (valueRank v) in
      let dims := default [] (arrayDimensions v) in
      ValueOf value (if Nat.ltb 1 (length dims) && negb match value with VtEmpty => true | _ => false end then dims else [])
  end.

Definition variable_attributes (nd : FixtureNode) : VariableAttributes :=
  let v := variable nd in
  {| va_displayName := UA_LOCALIZEDTEXT_EN (opt_text (displayName nd));
     va_description := Some (UA_LOCALIZEDTEXT_EN (opt_text (nd_description nd)));
     va_dataType := data_type_nodeid (dataType v); va_valueRank := valueRank v;
     va_accessLevel := accessLevel v; va_userAccessLevel := Some (accessLevel v);
     va_historizing := names_source (nodeId nd) "s=History.Temperature";
     va_arrayDimensions := default [] (arrayDimensions v); va_value := node_value v |}.

Definition method_attributes (nd : FixtureNode) : MethodAttributes :=
  {| ma_displayName := UA_LOCALIZEDTEXT_EN (opt_text (displayName nd));
     ma_description := UA_LOCALIZEDTEXT_EN (opt_text (nd_description nd));
     ma_executable := true; ma_userExecutable := true |}.

Definition type_definition (nd : FixtureNode) (def : Z) : action W ua_nodeid :=
  match typeDefinition nd with
  | Some t => resolve (Some t)
  | None => pure (ns0 def)
  end.

(** One node of the fixture; a failure is only reported. *)
Definition add_node (nd : FixtureNode) : action W unit :=
  ask id <- resolve (nodeId nd);
  ask parentId <- resolve (parentNodeId nd);
  let refTypeId := ref_type_id (referenceType nd) in
  let bn := parse_browse_name (browseName nd) in
  match nodeClass nd with
  | NODE_OBJECT =>
      ask typeDefId <- type_definition nd UA_NS0ID_BASEOBJECTTYPE;
      tell do_call (AddObjectNode id parentId refTypeId bn typeDefId (object_attributes nd));
      pure tt
  | NODE_VARIABLE =>
      ask typeDefId <- type_definition nd UA_NS0ID_BASEDATAVARIABLETYPE;
      ask sc <- do_call (AddVariableNode id parentId refTypeId bn typeDefId (variable_attributes nd));
      match euRange (variable nd) with
      | Some (low, high) => when_ (sc =? UA_STATUSCODE_GOOD) (set_eu_range id low high)
      | None => pure tt
      end
  | NODE_METHOD =>
      tell do_call (AddMethodNode id parentId refTypeId bn (method_attributes nd)
             (FixtureMethod (method_callback_for (methodBehavior (method nd))))
             (build_ua_arguments (inputArgs (method nd))) (build_ua_arguments (outputArgs (method nd))));
      pure tt
  end.

Definition add_namespaces (l : list (option bytes * option bytes)) : action W unit :=
  each (fun ns => tell do_call (AddNamespace (snd ns)); pure tt) l.

Definition add_nodes (l : list FixtureNode) : action W unit := each add_node l.

(** * Historian and events *)

Definition model_id (name : string) : option bytes := Some (B "nsu=urn:otfabric:opcua-interop:model;s=" ++ B name).

Definition install_historian : action W unit :=
  ask histId <- resolve (model_id "History.Temperature");
  do_call (SetConfig (HistoryDatabase (interop_make_history_database histId))).

Definition interop_emit_base_event (source eventType : ua_nodeid) : action W unit :=
  tell do_call (CreateEvent source eventType 500 (UA_LOCALIZEDTEXT_EN (B "peer-event")));
  pure tt.

Definition interop_add_event_type : action W (Z * ua_nodeid) :=
  do_call (AddObjectTypeNode (ns0 UA_NS0ID_BASEEVENTTYPE) (ns0 UA_NS0ID_HASSUBTYPE) (1, B "InteropBaseEventType")
    (UA_LOCALIZEDTEXT_EN (B "InteropBaseEventType"))
    (UA_LOCALIZEDTEXT_EN (B "Concrete BaseEvent subtype for interop emission"))).

Definition schedule_events : action W unit :=
  ask sourceId <- resolve (model_id "Events.Source");
  ask r <- interop_add_event_type;
  when_ ((fst r =? UA_STATUSCODE_GOOD) && negb (NodeId_isNull sourceId))
    (tell do_call (AddRepeatedCallback (EmitBaseEvent sourceId (snd r)) 2000); pure tt).

(** * The alarm *)

(** [g_alarmSource] and [g_alarmCondition] are written once, by
    [interop_add_alarms], before anything reads them: they are arguments here. *)
Definition boolean (b : bool) : ua_variant := VtScalar (VBoolean b).

Definition alarm_set_id (condition : ua_nodeid) (field : string) (v : bool) : action W Z :=
  do_call (SetConditionFieldProperty condition (boolean v) (0, B field) (0, B "Id")).

Definition alarm_is_enabled (condition : ua_nodeid) : action W bool :=
  ask bpr <- do_call (BrowseSimplifiedBrowsePath condition [(0, B "EnabledState"); (0, B "Id")]);
  match bpr with
  | (sc, target :: _) =>
      if sc =? UA_STATUSCODE_GOOD then
        ask r <- do_call (ReadValue target);
        pure match r with
             | (rsc, VtScalar (VBoolean b)) => (rsc =? UA_STATUSCODE_GOOD) && b
             | _ => false
             end
      else pure false
  | (_, []) => pure false
  end.

(** [sc |= ...] *)
Definition or_status (sc : Z) (m : action W Z) : action W Z := ask r <- m; pure (Z.lor sc r).

Definition alarm_arm (source condition : ua_nodeid) : action W Z :=
  ask enabled <- alarm_is_enabled condition;
  ask sc <- if enabled then pure UA_STATUSCODE_GOOD else or_status UA_STATUSCODE_GOOD (alarm_set_id condition "EnabledState" true);
  ask sc <- or_status sc (do_call (SetConditionField condition (boolean true) (0, B "Retain")));
  ask sc <- or_status sc (do_call (SetConditionField condition (VtScalar (VUInt16 500)) (0, B "Severity")));
  ask sc <- or_status sc (alarm_set_id condition "AckedState" false);
  ask sc <- or_status sc (alarm_set_id condition "ConfirmedState" false);
  ask sc <- or_status sc (alarm_set_id condition "ActiveState" false);
  ask sc <- or_status sc (alarm_set_id condition "ActiveState" true);
  ask now <- do_call DateTimeNow;
  ask sc <- or_status sc (do_call (WriteObjectProperty condition (0, B "Time") (VtScalar (VDateTime now))));
  ask sc <- or_status sc (do_call (SetConditionField condition
                (VtScalar (VLocalizedText (Some (B "en")) (Some (B "interop-alarm")))) (0, B "Message")));
  or_status sc (do_call (TriggerConditionEvent condition source)).

Definition method_alarm_reset_cb (source condition : ua_nodeid) : action W Z := alarm_arm source condition.

Definition UA_NODEID_STRING (ns : Z) (name : string) : ua_nodeid :=
  {| namespaceIndex := ns; identifier := IdString (Some (B name)) |}.

(** [if (sc == UA_STATUSCODE_GOOD) sc = ...] *)
Definition if_good (sc : Z) (m : action W Z) : action W Z := if sc =? UA_STATUSCODE_GOOD then m else pure sc.

Definition alarm_folder : ObjectAttributes :=
  {| oa_displayName := UA_LOCALIZEDTEXT_EN (B "Alarms");
     oa_description := UA_LOCALIZEDTEXT_EN (B "Alarms & Conditions (Part 9) interoperability."); oa_eventNotifier := None |}.

Definition alarm_source : ObjectAttributes :=
  {| oa_displayName := UA_LOCALIZEDTEXT_EN (B "Alarm Source");
     oa_description := UA_LOCALIZEDTEXT_EN (B "ConditionSource of InteropAlarm."); oa_eventNotifier := Some 1 |}.

Definition alarm_reset : MethodAttributes :=
  {| ma_displayName := UA_LOCALIZEDTEXT_EN (B "Reset");
     ma_description := UA_LOCALIZEDTEXT_EN (B "Re-arm InteropAlarm (enabled, active, unacknowledged, unconfirmed).");
     ma_executable := true; ma_userExecutable := true |}.

(** Whether the alarm is in place. *)
Definition interop_add_alarms : action W bool :=
  ask ns <- ns_index_for_uri (B "urn:otfabric:opcua-interop:model");
  ask compat <- resolve (model_id "Compatibility");
  if (ns =? 0) || NodeId_isNull compat then pure false
  else
    let source := UA_NODEID_STRING ns "Alarms.Source" in
    ask sc <- do_call (AddObjectNode (UA_NODEID_STRING ns "Alarms") compat (ns0 UA_NS0ID_ORGANIZES) (ns, B "Alarms")
                         (ns0 UA_NS0ID_FOLDERTYPE) alarm_folder);
    ask sc <- if_good sc (do_call (AddObjectNode source (UA_NODEID_STRING ns "Alarms") (ns0 UA_NS0ID_ORGANIZES)
                                     (ns, B "Alarms.Source") (ns0 UA_NS0ID_BASEOBJECTTYPE) alarm_source));
    ask sc <- if_good sc (do_call (AddReference (ns0 UA_NS0ID_SERVER) (ns0 UA_NS0ID_HASNOTIFIER) source true));
    if negb (sc =? UA_STATUSCODE_GOOD) then pure false
    else
      ask r <- do_call (CreateCondition (UA_NODEID_STRING ns "Alarms.InteropAlarm") (ns0 UA_NS0ID_ALARMCONDITIONTYPE)
                          (ns, B "InteropAlarm") source (ns0 UA_NS0ID_HASCOMPONENT));
      let condition := snd r in
      ask sc <- if_good (fst r) (do_call (AddMethodNode (UA_NODEID_STRING ns "Alarms.Reset") source (ns0 UA_NS0ID_HASCOMPONENT)
                                            (ns, B "Reset") alarm_reset (AlarmReset source condition) [] []));
      ask sc <- if_good sc (alarm_arm source condition);
      pure (sc =? UA_STATUSCODE_GOOD).

(** * Behaviours *)

Definition is_fixed_status (b : Behavior) : bool := match kind b with BEH_FIXED_STATUS => true | _ => false end.

Definition register_behavior (b : Behavior) : action W unit :=
  when_ (negb (is_fixed_status b))
    (ask id <- resolve (target b);
     tell do_call (AddRepeatedCallback (BehaviorTick id (behavior_ctx b)) (u32 (intervalMs b)));
     pure tt).

(** The value is kept; the status goes with it. *)
Definition apply_fixed_status (b : Behavior) : action W unit :=
  when_ (is_fixed_status b)
    (ask id <- resolve (target b);
     ask existing <- do_call (ReadValue id);
     tell do_call (WriteDataValue id (DataValue (Some (snd existing)) (Some (to_uint32 (initial b))) None None None None));
     pure tt).

(** * The callbacks the server runs *)

Definition register_with_lds (url : bytes) : action W unit :=
  tell do_call (RegisterDiscovery url); pure tt.

(** One run of a repeated callback, with the context it leaves for the next one. *)
Definition run_callback (cb : callback) : action W callback :=
  match cb with
  | BehaviorTick id ctx =>
      let '(ctx, value) := behavior_callback ctx in
      tell match value with
           | Some v => tell do_call (WriteValue id (ValueOf v [])); pure tt
           | None => pure tt
           end;
      pure (BehaviorTick id ctx)
  | EmitBaseEvent source eventType => tell interop_emit_base_event source eventType; pure cb
  | RegisterWithLds url => tell register_with_lds url; pure cb
  end.
End Space.
