(* ===== verification/ServerRun.v ===== *)
(** server.c [server_run]: from the fixture to the exit code.  The configuration
    of the server with its security, users and discovery; the address space of
    ServerSpace.v; start-up, PubSub, readiness file, the main loop and the way
    down.  Every build option of the adapter's image is on. *)

From Stdlib Require Import String Ascii ZArith Bool List Lia SpecFloat.
Import ListNotations.
From S2P Require Import Prelude CLib Float UaTypes RefStack Base64 CJson Args NodeIds Historian Fixture ServerValues.
From S2P Require Import PubSubSecurity PubSubRecovery PubSubJson PubSubConfig PubSubSecured ServerWorld ServerSpace.

(** How a run ends; [NoFuel]: the bound on its loops was too small. *)
Inductive ending := Exit (code : Z) | Crash | NoFuel.

(** [(s && *s) ? s : NULL] *)
Definition nonempty (s : option bytes) : option bytes := match s with Some [] => None | _ => s end.

(** * Addresses *)

Definition bind_addr (args : ServerArgs) : bytes := default (B "0.0.0.0") (nonempty (bindAddress args)).
Definition bind_port (args : ServerArgs) (fx : Fixture) : Z := if 0 <? bindPort args then bindPort args else port fx.
Definition adv_host (args : ServerArgs) : bytes := default (B "localhost") (nonempty (advertisedHost args)).
Definition adv_port (args : ServerArgs) (fx : Fixture) : Z :=
  if 0 <? advertisedPort args then advertisedPort args else bind_port args fx.
Definition ep_path (args : ServerArgs) (fx : Fixture) : bytes :=
  match nonempty (endpointPath args) with Some p => p | None => default [] (fx_endpointPath fx) end.

Definition adv_url (args : ServerArgs) (fx : Fixture) : bytes :=
  snprintf 512 (B "opc.tcp://" ++ adv_host args ++ B ":" ++ fmt_d (adv_port args fx) ++ ep_path args fx).

(** No host name means every interface. *)
Definition bind_srv_url (args : ServerArgs) (fx : Fixture) : bytes :=
  if streq (bind_addr args) (B "0.0.0.0") then snprintf 256 (B "opc.tcp://:" ++ fmt_d (bind_port args fx))
  else snprintf 256 (B "opc.tcp://" ++ bind_addr args ++ B ":" ++ fmt_d (bind_port args fx)).

(** * Certificates *)

Definition is_cert_name (n : bytes) : bool :=
  let suffix := skipn (length n - 4) n in
  Nat.ltb 4 (length n) && (streq suffix (B ".crt") || streq suffix (B ".der")).

(** The security policies for elliptic curves, with the directory of their certificate. *)
Definition g_eccPolicies : list (bytes * bytes) :=
  [(B "ECC_nistP256", B "ecc-nistp256"); (B "ECC_nistP384", B "ecc-nistp384");
   (B "ECC_brainpoolP256r1", B "ecc-brainpoolp256r1"); (B "ECC_brainpoolP384r1", B "ecc-brainpoolp384r1");
   (B "ECC_curve25519", B "ecc-curve25519"); (B "ECC_curve448", B "ecc-curve448");
   (B "ECC_nistP256_AesGcm", B "ecc-nistp256"); (B "ECC_nistP256_ChaChaPoly", B "ecc-nistp256")].

Definition security_mode_from_name (s : option bytes) : security_mode :=
  match s with
  | Some s => if streq s (B "Sign") then ModeSign else if streq s (B "SignAndEncrypt") then ModeSignAndEncrypt else ModeNone
  | None => ModeNone
  end.

Definition has_policy (name : bytes) (sp : option bytes * option bytes) : bool :=
  match fst sp with Some p => streq p name | None => false end.

Definition default_pki : bytes := B "/run/opcua-interop/pki".

Section Run.
Context {stack : UaStack} {cj : CJson} {cpu : Cpu} {nid : NodeIdOps} {types : TypeTable} {len : CJsonLength} {tz : LocalTime}
  {W : Type} {H : ServerHost W} {ssl : OpenSsl W} {papi : PubSubApi W} {psrv : PubSubServer W}.

Definition load_cert_file (w : W) (path : option bytes) : bytes :=
  match nonempty path with Some p => default [] (pubsub_file w p) | None => [] end.

(** The certificates of a directory that can be read and are not empty. *)
Definition load_trust_dir (w : W) (dir : bytes) : list bytes :=
  match dir with
  | [] => []
  | _ =>
      match directory w dir with
      | None => []
      | Some names =>
          filter (fun b => negb (Nat.eqb (length b) 0))
            (map (fun n => load_cert_file w (Some (snprintf 1024 (dir ++ B "/" ++ n)))) (filter is_cert_name names))
      end
  end.

(** * Readiness file *)

Definition unlink_ready_file (path : option bytes) : action W unit :=
  match nonempty path with
  | Some p => tell do_call (Unlink p); pure tt
  | None => pure tt
  end.

Definition ready_text (adapter fixture_id url : bytes) : bytes :=
  J "{'ready':true,'adapter':'" ++ adapter ++ J "','fixture':'" ++ fixture_id ++ J "','endpoint':'" ++ url ++ J "'}" ++ [10].

Definition tmp_path (path : bytes) : bytes := snprintf 4096 (path ++ B ".tmp").

(** 0, or -1 when the file was asked for explicitly and is not in place. *)
Definition write_ready_file_atomic (path : option bytes) (explicit : bool) (adapter : bytes) (fixture_id : option bytes) (url : bytes)
    : action W Z :=
  match nonempty path with
  | None => pure 0
  | Some p =>
      ask opened <- do_call (OpenForWriting (tmp_path p));
      if negb opened then pure (if explicit then -1 else 0)
      else
        tell do_call (WriteAndClose (tmp_path p) (ready_text adapter (default [] fixture_id) url));
        ask renamed <- do_call (Rename (tmp_path p) p);
        if renamed then pure 0
        else
          tell do_call (Unlink (tmp_path p));
          pure (if explicit then -1 else 0)
  end.

(** * Security *)

(** The endpoints of one policy the stack has accepted; how many it added. *)
Fixpoint add_policy_endpoints (name uri : bytes) (profiles : list (option bytes * option bytes)) (added : nat) : action W nat :=
  match profiles with
  | [] => pure added
  | sp :: r =>
      let mode := security_mode_from_name (snd sp) in
      if negb (has_policy name sp) || match mode with ModeNone => true | _ => false end
      then add_policy_endpoints name uri r added
      else
        ask sc <- do_call (AddEndpoint uri mode);
        add_policy_endpoints name uri r (if sc =? UA_STATUSCODE_GOOD then S added else added)
  end.

Fixpoint add_ecc_endpoints (policies : list (bytes * bytes)) (fx : Fixture) (eccDir : bytes) (added : nat) : action W nat :=
  match policies with
  | [] => pure added
  | (name, curveDir) :: r =>
      if negb (existsb (has_policy name) (securityProfiles fx)) then add_ecc_endpoints r fx eccDir added
      else
        let certPath := snprintf 1100 (eccDir ++ B "/" ++ curveDir ++ B "/cert.crt") in
        let keyPath := snprintf 1100 (eccDir ++ B "/" ++ curveDir ++ B "/cert.key") in
        ask there <- look (fun w => readable w certPath && readable w keyPath);
        if negb there then add_ecc_endpoints r fx eccDir added
        else
          ask cert <- look (fun w => load_cert_file w (Some certPath));
          ask key <- look (fun w => load_cert_file w (Some keyPath));
          ask sc <- do_call (AddEccPolicy name cert key);
          if negb (sc =? UA_STATUSCODE_GOOD) then add_ecc_endpoints r fx eccDir added
          else
            ask added <- add_policy_endpoints name (snprintf 128 (policy_prefix ++ name)) (securityProfiles fx) added;
            add_ecc_endpoints r fx eccDir added
  end.

Definition have_rsa (args : ServerArgs) : bool := is_some (nonempty (srvCertFile args)) && is_some (nonempty (srvKeyFile args)).
Definition have_ecc (args : ServerArgs) : bool := is_some (nonempty (eccDir args)).

(** Security policies, certificates and trust list; [false]: the run ends. *)
Definition configure_security (args : ServerArgs) (fx : Fixture) : action W bool :=
  if have_rsa args || have_ecc args then
    ask cert <- look (fun w => if have_rsa args then load_cert_file w (srvCertFile args) else []);
    ask key <- look (fun w => if have_rsa args then load_cert_file w (srvKeyFile args) else []);
    if have_rsa args && (Nat.eqb (length cert) 0 || Nat.eqb (length key) 0) then pure false
    else
      ask trust <- look (fun w => load_trust_dir w (snprintf 1024 (default default_pki (nonempty (pkiDir args)) ++ B "/trusted/certs")));
      ask sc <- do_call (SetDefaultWithSecurityPolicies (u16 (bind_port args fx)) cert key trust);
      if negb (sc =? UA_STATUSCODE_GOOD) then pure false
      else
        tell match nonempty (eccDir args) with
             | Some dir =>
                 tell add_ecc_endpoints g_eccPolicies fx dir 0;
                 tell do_call (AccessControl true []);
                 pure tt
             | None => pure tt
             end;
        pure true
  else
    ask sc <- do_call SetDefaultConfig;
    pure (sc =? UA_STATUSCODE_GOOD).

(** * Users and discovery *)

Definition login (u : option bytes * option bytes) : bytes * bytes := (default [] (fst u), default [] (snd u)).

Definition configure_users (fx : Fixture) : action W unit :=
  match users fx with
  | [] => pure tt
  | l =>
      tell do_call (SetConfig AllowNonePolicyPassword);
      tell do_call (AccessControl true (map login l));
      pure tt
  end.

Definition mdns_name (args : ServerArgs) (fx : Fixture) : bytes :=
  match nonempty (mdnsName args) with
  | Some n => n
  | None => if lds args then B "opcua-interop-lds" else default (B "opcua-interop") (applicationName fx)
  end.

Definition mdns_capabilities (args : ServerArgs) : list bytes :=
  match mdnsCaps args with [] => [if lds args then B "LDS" else B "NA"] | l => l end.

Definition configure_discovery (args : ServerArgs) (fx : Fixture) : action W unit :=
  tell do_call (SetConfig (ReverseReconnectInterval (u32 (reverseIntervalMs args))));
  tell when_ (lds args)
    (tell do_call (SetConfig ApplicationTypeDiscoveryServer);
     when_ (0 <? ldsCleanupTimeoutS args) (do_call (SetConfig (DiscoveryCleanupTimeout (u32 (ldsCleanupTimeoutS args))))));
  tell do_call (SetConfig (MdnsServerName (mdns_name args fx)));
  tell do_call (SetConfig (ServerCapabilities (mdns_capabilities args)));
  do_call (SetConfig (MdnsEnabled (lds args || is_some (nonempty (mdnsName args))))).

(** The PubSub security policies of the configuration. *)
Definition prepare_pubsub : action W (list PubSubSecurityPolicy) := fun h =>
  let '(w, _, policies) := pubsub_server_prepare_config (fst h) [] in ((w, snd h), policies).

(** The description of the application once the server exists. *)
Definition describe_application (fx : Fixture) (url : bytes) : action W unit :=
  ask endpoints <- look endpointsSize;
  tell each (fun i => do_call (SetConfig (EndpointUrl i url))) (seq 0 endpoints);
  ask urls <- look discoveryUrlsSize;
  tell each (fun i => do_call (SetConfig (DiscoveryUrl i url))) (seq 0 urls);
  tell match fx_applicationUri fx with Some u => do_call (SetConfig (ApplicationUri u)) | None => pure tt end;
  tell match productUri fx with Some u => do_call (SetConfig (ProductUri u)) | None => pure tt end;
  match applicationName fx with Some n => do_call (SetConfig (ApplicationName (UA_LOCALIZEDTEXT_EN n))) | None => pure tt end.

Definition populate (fx : Fixture) : action W unit :=
  tell add_namespaces (namespaces fx);
  tell add_nodes (nodes fx);
  tell install_historian;
  tell schedule_events;
  tell interop_add_alarms;
  tell each register_behavior (behaviors fx);
  each apply_fixed_status (behaviors fx).

(** * PubSub *)

(** A function of pubsub_server.c, its calls in the log. *)
Definition pubsub_part {A} (f : W * list entry -> W * list entry * A) : action W A := fun h =>
  let '((w, calls), a) := f (fst h, []) in ((w, snd h ++ map PubSubCall calls), a).

Definition pubsub_start (w : W * list entry) : State (W * list entry) :=
  {| st_w := w; st_groups := []; st_sks := None; st_secured := []; st_building := no_built;
     st_recovery := {| rt_built := None; recoveryPending := false; recoveryDelayMs := 0; lastErrorAt := 0 |} |}.

Definition pubsub_options (args : ServerArgs) (config : bytes) : PubSubOptions :=
  {| configPath := config; opt_certFile := srvCertFile args; opt_keyFile := srvKeyFile args;
     opt_pkiDir := Some (default default_pki (nonempty (pkiDir args))) |}.

Definition apply_pubsub (policies : list PubSubSecurityPolicy) (opt : PubSubOptions) : action W (res unit) :=
  ask r <- pubsub_part (fun w =>
    let '(st, r) := pubsub_server_apply (papi := logged_api papi) (psrv := logged_server psrv) 512 policies opt (pubsub_start w) in
    (st_w st, r));
  fun h => ((fst h, snd h ++ [PubSubApplied match r with Done _ => true | _ => false end]), r).

(** * The life of the server *)

Definition stop_server : action W unit :=
  tell do_call RunShutdown;
  do_call DeleteServer.

(** [while (g_running) UA_Server_run_iterate(server, true)]; [false]: out of fuel. *)
Fixpoint serve (fuel : nat) : action W bool :=
  match fuel with
  | O => pure false
  | S fuel =>
      ask running <- do_call GRunning;
      if running then tell do_call (RunIterate true); serve fuel
      else pure true
  end.

Definition waited_ms (t0 t1 : Z * Z) : Z := (fst t1 - fst t0) * 1000 + Z.quot (snd t1 - snd t0) 1000000.

(** At least 1.5 s for the exchange with the discovery server. *)
Fixpoint linger (fuel : nat) (t0 : Z * Z) : action W bool :=
  match fuel with
  | O => pure false
  | S fuel =>
      tell do_call (RunIterate false);
      tell do_call (Nanosleep (10 * 1000 * 1000));
      ask t1 <- do_call ClockMonotonic;
      if 1500 <=? waited_ms t0 t1 then pure true else linger fuel t0
  end.

Definition unregister (fuel : nat) (args : ServerArgs) : action W bool :=
  match nonempty (registerWith args) with
  | None => pure true
  | Some url =>
      tell do_call (DeregisterDiscovery url);
      ask t0 <- do_call ClockMonotonic;
      linger fuel t0
  end.

(** From the announcement on. *)
Definition run_ready (fuel : nat) (args : ServerArgs) : action W ending :=
  ask ended <- serve fuel;
  if negb ended then pure NoFuel
  else
    ask ended <- unregister fuel args;
    if negb ended then pure NoFuel
    else
      tell do_call DisableAllPubSubComponents;
      tell stop_server;
      tell unlink_ready_file (readyFile args);
      pure (Exit 0).

(** Reverse connections, discovery registration and the readiness file. *)
Definition announce (fuel : nat) (args : ServerArgs) (fx : Fixture) : action W ending :=
  tell each (fun url => tell do_call (AddReverseConnect url); pure tt) (reverseConnect args);
  tell match nonempty (registerWith args) with
       | Some url =>
           tell register_with_lds url;
           tell do_call (AddRepeatedCallback (RegisterWithLds url) (registerIntervalMs args));
           pure tt
       | None => pure tt
       end;
  ask r <- write_ready_file_atomic (readyFile args) (readyFileExplicit args) (B "open62541") (fx_id fx) (adv_url args fx);
  if negb (r =? 0) then tell stop_server; pure (Exit 6)
  else run_ready fuel args.

(** After a start-up that succeeded. *)
Definition run_started (fuel : nat) (args : ServerArgs) (fx : Fixture) (policies : list PubSubSecurityPolicy) : action W ending :=
  tell do_call (SetConfig (DiscoveryUrls [adv_url args fx]));
  tell do_call (SetConfig (EnableDeltaFrames false));
  tell pubsub_part (pubsub_server_init (papi := logged_api papi));
  ask r <- match nonempty (pubsubConfig args) with
           | Some config => apply_pubsub policies (pubsub_options args config)
           | None => pure (Done tt)
           end;
  match r with
  | Crashed => pure Crash
  | Failed _ => tell stop_server; pure (Exit 1)
  | Done _ => announce fuel args fx
  end.

Definition start_server (fuel : nat) (args : ServerArgs) (fx : Fixture) (policies : list PubSubSecurityPolicy) : action W ending :=
  ask created <- do_call NewWithConfig;
  if negb created then pure (Exit 1)
  else
    tell describe_application fx (adv_url args fx);
    tell populate fx;
    tell do_call InstallSignalHandlers;
    ask sc <- do_call RunStartup;
    if negb (sc =? UA_STATUSCODE_GOOD) then tell do_call DeleteServer; pure (Exit 1)
    else run_started fuel args fx policies.

Definition load_fixture (w : W) (path : bytes) : result Fixture :=
  fixture_load 512 path match pubsub_file w path with Some data => inl data | None => inr (open_error w path) end.

(** With the fixture loaded. *)
Definition run_fixture (fuel : nat) (args : ServerArgs) (fx : Fixture) : action W ending :=
  tell unlink_ready_file (readyFile args);
  ask configured <- configure_security args fx;
  if negb configured then pure (Exit 1)
  else
    tell do_call (SetConfig (ServerUrls [bind_srv_url args fx]));
    tell configure_users fx;
    tell configure_discovery args fx;
    ask policies <- prepare_pubsub;
    start_server fuel args fx policies.

Definition server_run (fuel : nat) (args : ServerArgs) : action W ending :=
  ask loaded <- look (fun w => load_fixture w (default [] (fixturePath args)));
  match loaded with
  | Err _ => pure (Exit 1)
  | Ok fx => run_fixture fuel args fx
  end.
End Run.
