(* ===== verification/RefHost.v ===== *)
(** A concrete host for the server: it counts down to a termination signal, keeps a
    clock and the table of namespaces, and answers every other call with success.
    The theorems about the server hold for every host; this one makes their
    hypotheses concrete where they are evaluated. *)

From Stdlib Require Import String Ascii ZArith Bool List Lia SpecFloat.
Import ListNotations.
From S2P Require Import Prelude CLib Certificates Float UaTypes RefStack Base64 CJson Args NodeIds Historian Fixture ServerValues.
From S2P Require Import PubSubSecurity PubSubRecovery PubSubJson PubSubConfig PubSubSecured ServerWorld ServerSpace ServerRun.

Record ref_world := { rw_left : nat; rw_ns : Z; rw_uris : list bytes }.

Definition ref_initial : ref_world :=
  {| rw_left := 2; rw_ns := 0; rw_uris := [B "http://opcfoundation.org/UA/"; B "urn:open62541.server.application"] |}.

(** The index of a URI, and of a new one at the end of the table. *)
Fixpoint uri_index (l : list bytes) (uri : bytes) : Z :=
  match l with
  | [] => 0
  | u :: r => if streq u uri then 0 else 1 + uri_index r uri
  end.

Definition registered (l : list bytes) (uri : bytes) : bool := existsb (fun u => streq u uri) l.

Definition ref_perform {A} (w : ref_world) (c : scall A) : ref_world * A :=
  match c in scall T return ref_world * T with
  | SetConfig _ => (w, tt)
  | NewWithConfig => (w, true)
  | RunIterate _ => ({| rw_left := pred (rw_left w); rw_ns := rw_ns w; rw_uris := rw_uris w |}, tt)
  | RunShutdown => (w, tt)
  | DeleteServer => (w, tt)
  | AddNamespace uri =>
      let u := default [] uri in
      ({| rw_left := rw_left w; rw_ns := rw_ns w; rw_uris := if registered (rw_uris w) u then rw_uris w else rw_uris w ++ [u] |},
       uri_index (rw_uris w) u)
  | AddObjectTypeNode _ _ _ _ _ => (w, (UA_STATUSCODE_GOOD, UA_NODEID_NUMERIC 1 50000))
  | CreateCondition id _ _ _ _ => (w, (UA_STATUSCODE_GOOD, id))
  | BrowseSimplifiedBrowsePath _ _ => (w, (UA_STATUSCODE_GOOD, []))
  | ReadValue _ => (w, (UA_STATUSCODE_GOOD, VtEmpty))
  | DisableAllPubSubComponents => (w, tt)
  | InstallSignalHandlers => (w, tt)
  | GRunning => (w, negb (Nat.eqb (rw_left w) 0))
  | Unlink _ => (w, true)
  | OpenForWriting _ => (w, true)
  | WriteAndClose _ _ => (w, true)
  | Rename _ _ => (w, true)
  | DateTimeNow => (w, rw_ns w)
  | ClockMonotonic => (w, (rw_ns w / 1000000000, rw_ns w mod 1000000000))
  | Nanosleep ns => ({| rw_left := rw_left w; rw_ns := rw_ns w + Z.max 0 ns; rw_uris := rw_uris w |}, tt)
  | SetDefaultConfig | SetDefaultWithSecurityPolicies _ _ _ _ | AddEccPolicy _ _ _ | AddEndpoint _ _ | AccessControl _ _
  | RunStartup | AddObjectNode _ _ _ _ _ _ | AddVariableNode _ _ _ _ _ _ | AddMethodNode _ _ _ _ _ _ _ _ | AddReference _ _ _ _
  | WriteValue _ _ | WriteDataValue _ _ | WriteObjectProperty _ _ _ | CreateEvent _ _ _ _ | SetConditionField _ _ _
  | SetConditionFieldProperty _ _ _ _ | TriggerConditionEvent _ _ | AddRepeatedCallback _ _ | AddReverseConnect _
  | RegisterDiscovery _ | DeregisterDiscovery _ => (w, UA_STATUSCODE_GOOD)
  end.

#[export] Instance ref_host : ServerHost ref_world := {
  perform A := ref_perform (A := A);
  readable _ _ := true;
  open_error _ _ := B "No such file or directory";
  endpointsSize _ := 1%nat;
  discoveryUrlsSize _ := 0%nat }.

(** Every file can be read; the PubSub configuration is that of PubSubSecured.v. *)
#[export] Instance ref_papi : PubSubApi ref_world := {
  api w _ := (w, (UA_STATUSCODE_GOOD, UA_NODEID_NUMERIC 1 7));
  read_namespace_array _ := (UA_STATUSCODE_GOOD, VtArray TString [] []);
  pubsub_file _ _ := Some (B "cfg");
  directory _ _ := None;
  sks_names := no_certificates;
  sks_encryption _ _ _ := UA_STATUSCODE_GOOD;
  PublisherId_fromVariant _ := UA_STATUSCODE_GOOD;
  decode_configuration _ _ := (UA_STATUSCODE_GOOD, toy_configuration) }.

#[export] Instance ref_psrv : PubSubServer ref_world := {
  nowMonotonic w := (w, rw_ns w);
  addTimedCallback w _ := (w, UA_STATUSCODE_GOOD);
  enableComponent w _ id := (w, (UA_STATUSCODE_GOOD, [(id, PS_OPERATIONAL)])) }.

(** OpenSSL of PubSubSecurity.v, which needs no state. *)
#[export] Instance ref_ssl : OpenSsl ref_world := {
  UA_malloc w := (w, true);
  HMAC := @HMAC unit toy_ssl;
  EVP_CTX := @EVP_CTX unit toy_ssl;
  EVP_EncryptInit_ex := @EVP_EncryptInit_ex unit toy_ssl;
  EVP_EncryptUpdate := @EVP_EncryptUpdate unit toy_ssl;
  EVP_EncryptFinal_ex := @EVP_EncryptFinal_ex unit toy_ssl;
  RAND_bytes w n := (w, snd (@RAND_bytes unit toy_ssl tt n)) }.

#[export] Instance ref_tz : LocalTime := { mktime := timegm }.

(** A fixture with a namespace, an object, an analog variable, a method, two
    behaviours, a user and an elliptic-curve profile. *)
Definition text_member (k v : string) : bytes * cjson := (B k, CString (B v)).

Definition ref_fixture : cjson := CObject
  [text_member "id" "baseline";
   (B "endpoint", CObject [(B "port", CNumber (double_of false 4840 0) 4840); text_member "path" "/interop"]);
   (B "namespaces", CArray [CObject [text_member "alias" "m"; text_member "uri" "urn:m"]]);
   (B "nodes", CArray
      [CObject [text_member "nodeClass" "Object"; text_member "nodeId" "nsu=urn:m;s=Events.Source"; text_member "browseName" "1:Source";
                text_member "parentNodeId" "i=85"];
       CObject [text_member "nodeClass" "Variable"; text_member "nodeId" "nsu=urn:m;s=Level"; text_member "browseName" "1:Level";
                text_member "parentNodeId" "nsu=urn:m;s=Events.Source"; text_member "referenceType" "HasComponent";
                text_member "dataType" "Int32"; (B "initialValue", CNumber (double_of false 7 0) 7);
                (B "accessLevel", CArray [CString (B "CurrentRead"); CString (B "CurrentWrite")]);
                (B "euRange", CObject [(B "low", CNumber (double_of false 0 0) 0); (B "high", CNumber (double_of false 100 0) 100)])];
       CObject [text_member "nodeClass" "Method"; text_member "nodeId" "nsu=urn:m;s=Add"; text_member "browseName" "1:Add";
                text_member "parentNodeId" "nsu=urn:m;s=Events.Source"; text_member "methodBehavior" "Add"]]);
   (B "behaviors", CArray
      [CObject [text_member "target" "nsu=urn:m;s=Level"; text_member "kind" "counter"];
       CObject [text_member "target" "nsu=urn:m;s=Level"; text_member "kind" "fixed-status"]]);
   (B "securityProfiles", CArray [CObject [text_member "securityPolicy" "ECC_nistP256"; text_member "securityMode" "Sign"]]);
   (B "users", CArray [CObject [text_member "username" "u"; text_member "password" "p"]])].

Definition host_cjson : CJson :=
  {| cJSON_Parse := fun _ => Some ref_fixture;
     cJSON_ParseError := cJSON_ParseError; cJSON_GetObjectItemCaseSensitive := cJSON_GetObjectItemCaseSensitive;
     cJSON_PrintUnformatted := cJSON_PrintUnformatted; cJSON_GetObjectItem := cJSON_GetObjectItem |}.

Definition host_lookup : CJsonLookup host_cjson.
Proof. split. reflexivity. Defined.

Definition ref_args : ServerArgs :=
  {| fixturePath := Some (B "/f.json"); bindAddress := None; bindPort := 0; advertisedHost := Some (B "srv");
     advertisedPort := 0; endpointPath := None; pkiDir := None; srvCertFile := None;
     srvKeyFile := None; readyFile := Some (B "/run/ready"); readyFileExplicit := true; eccDir := Some (B "/ecc");
     reverseConnect := [B "opc.tcp://c:4841"]; reverseIntervalMs := 1000; lds := false; ldsCleanupTimeoutS := 0;
     mdnsName := None; mdnsCaps := []; registerWith := Some (B "opc.tcp://lds:4840"); registerIntervalMs := 30000;
     pubsubConfig := Some (B "/pubsub.json") |}.
