(* ===== verification/ServerLife.v ===== *)
(** The life cycle of the server process: the calls of [server_run] as the path of
    a state machine that says which call is allowed when, what the readiness file
    promises, and what each exit code means. *)

From Stdlib Require Import String Ascii ZArith Bool List Lia SpecFloat.
Import ListNotations.
From S2P Require Import Prelude CLib Json Float UaTypes RefStack Base64 CJson Args NodeIds Historian Fixture ServerValues.
From S2P Require Import PubSubSecurity PubSubRecovery PubSubJson PubSubConfig PubSubSecured ServerWorld ServerSpace ServerRun RefHost.

(** * The life cycle *)

(** - [Fresh]: a readiness file of an earlier run may be there; - [Configuring]: it
    is not, and no server exists; - [Populating]: created, not yet listening;
    - [Refused]: the start-up failed; - [Started]: listening, PubSub not applied;
    - [Applied]: PubSub applied; - [Broken]: PubSub refused; - [Written]: the text of
    the readiness file has been written under its temporary name (the code does not look
    whether all of it arrived); - [Serving], [Down],
    [Gone] and [Removed]: the main loop, after the shutdown, after the deletion and
    after the removal of the readiness file, with whether it was put in place. *)
Inductive phase :=
| Fresh | Configuring | Populating | Refused | Started | Applied | Broken | Written
| Serving (announced : bool) | Down (announced : bool) | Gone (announced : bool) | Removed (announced : bool).

Section Life.
(** The readiness file and its text, and whether a PubSub configuration is asked for. *)
Context (ready : option bytes) (text : bytes) (needs_pubsub : bool).

(** Everything that has to precede readiness has succeeded. *)
Definition complete (p : phase) : bool :=
  match p with Applied => true | Started => negb needs_pubsub | _ => false end.

Definition is_ready_path (f : bytes -> bytes) (path : bytes) : bool :=
  match ready with Some p => streq path (f p) | None => false end.

Definition stay_if (c : bool) (p : phase) : option phase := if c then Some p else None.
Definition is_configuring (p : phase) : bool := match p with Configuring => true | _ => false end.
Definition is_populating (p : phase) : bool := match p with Populating => true | _ => false end.
Definition is_serving (p : phase) : bool := match p with Serving _ => true | _ => false end.

Definition step_call {A} (p : phase) (c : scall A) : A -> option phase :=
  match c in scall T return T -> option phase with
  | SetDefaultConfig | SetDefaultWithSecurityPolicies _ _ _ _ | AddEccPolicy _ _ _ | AddEndpoint _ _
  | AccessControl _ _ => fun _ => stay_if (is_configuring p) p
  | SetConfig (DiscoveryUrls _) | SetConfig (EnableDeltaFrames _) =>
      fun _ => match p with Started => Some p | _ => None end
  | SetConfig (EndpointUrl _ _) | SetConfig (DiscoveryUrl _ _) | SetConfig (ApplicationUri _) | SetConfig (ProductUri _)
  | SetConfig (ApplicationName _) | SetConfig (HistoryDatabase _) => fun _ => stay_if (is_populating p) p
  | SetConfig _ => fun _ => stay_if (is_configuring p) p
  | NewWithConfig => fun ok => match p with Configuring => Some (if ok then Populating else Configuring) | _ => None end
  | AddNamespace _ | AddObjectNode _ _ _ _ _ _ | AddVariableNode _ _ _ _ _ _ | AddMethodNode _ _ _ _ _ _ _ _
  | AddObjectTypeNode _ _ _ _ _ | AddReference _ _ _ _ | BrowseSimplifiedBrowsePath _ _ | ReadValue _ | WriteValue _ _
  | WriteDataValue _ _ | WriteObjectProperty _ _ _ | CreateEvent _ _ _ _ | CreateCondition _ _ _ _ _
  | SetConditionField _ _ _ | SetConditionFieldProperty _ _ _ _ | TriggerConditionEvent _ _ | DateTimeNow
  | InstallSignalHandlers => fun _ => stay_if (is_populating p) p
  | AddRepeatedCallback _ _ => fun _ => stay_if (is_populating p || complete p) p
  | RunStartup => fun sc => match p with Populating => Some (if sc =? UA_STATUSCODE_GOOD then Started else Refused) | _ => None end
  | AddReverseConnect _ | RegisterDiscovery _ => fun _ => stay_if (complete p) p
  | OpenForWriting f => fun _ => stay_if (complete p && is_ready_path tmp_path f) p
  | WriteAndClose f t => fun _ =>
      if complete p && is_ready_path tmp_path f && streq t text then Some Written else None
  | Rename f t => fun ok =>
      match p with
      | Written => if is_ready_path tmp_path f && is_ready_path (fun x => x) t
                   then Some (if ok then Serving true else Applied) else None
      | _ => None
      end
  | Unlink f => fun _ =>
      match p with
      | Fresh => if is_ready_path (fun x => x) f then Some Configuring else None
      | Gone b => if is_ready_path (fun x => x) f then Some (Removed b) else None
      | Applied => stay_if (is_ready_path tmp_path f) p
      | _ => None
      end
  | GRunning => fun _ => match p with Serving _ => Some p | _ => if complete p then Some (Serving false) else None end
  | RunIterate _ | DeregisterDiscovery _ | ClockMonotonic | Nanosleep _ | DisableAllPubSubComponents =>
      fun _ => stay_if (is_serving p) p
  | RunShutdown => fun _ =>
      match p with
      | Serving b => Some (Down b)
      | Started | Applied | Broken => Some (Down false)
      | _ => None
      end
  | DeleteServer => fun _ => match p with Refused => Some (Gone false) | Down b => Some (Gone b) | _ => None end
  end.

Definition life (p : phase) (e : event) : option phase :=
  match e with
  | Ev c r => step_call p c r
  | PubSubCall _ => match p with Started => Some p | _ => None end
  | PubSubApplied ok => match p with Started => Some (if ok then Applied else Broken) | _ => None end
  end.
End Life.

Definition needs_pubsub (args : ServerArgs) : bool := is_some (nonempty (pubsubConfig args)).

(** * Lemmas *)

Section Lemmas.
Context {stack : UaStack} {cj : CJson} {look_ : CJsonLookup cj} {cpu : Cpu} {nid : NodeIdOps} {types : TypeTable} {tl : TypeTableLaws types}
  {len : CJsonLength} {tz : LocalTime} {W : Type} {H : ServerHost W} {ssl : OpenSsl W} {papi : PubSubApi W} {psrv : PubSubServer W}.
Context (ready : option bytes) (text : bytes) (needs : bool).

Abbreviation life_ := (life ready text needs).

Lemma stays_resolve p s : is_populating p = true -> stays life_ p (resolve (W := W) s).
Proof. intros Hp. destruct p; try discriminate Hp. unfold resolve, ns_index_for_uri. staying. Qed.

Lemma stays_add_node nd : stays life_ Populating (add_node (W := W) nd).
Proof.
  unfold add_node, type_definition, set_eu_range. staying; now apply stays_resolve.
Qed.
Lemma stays_populate fx : stays life_ Populating (populate (W := W) fx).
Proof.
  unfold populate, add_namespaces, add_nodes, install_historian, schedule_events, interop_add_event_type, interop_add_alarms,
    ns_index_for_uri, if_good, alarm_arm, alarm_is_enabled, or_status, alarm_set_id, register_behavior, apply_fixed_status.
  staying; solve [now apply stays_resolve|apply stays_add_node].
Qed.

Lemma stays_describe fx url : stays life_ Populating (describe_application (W := W) fx url).
Proof. unfold describe_application. staying. Qed.

Lemma stays_policy_endpoints name uri l : forall added, stays life_ Configuring (add_policy_endpoints (W := W) name uri l added).
Proof. induction l as [|sp l IH]; intros added; cbn [add_policy_endpoints]; staying; apply IH. Qed.

Lemma stays_ecc_endpoints l fx dir : forall added, stays life_ Configuring (add_ecc_endpoints (W := W) l fx dir added).
Proof. induction l as [|p l IH]; intros added; cbn [add_ecc_endpoints]; staying; first [apply IH|apply stays_policy_endpoints]. Qed.

Lemma stays_security args fx : stays life_ Configuring (configure_security (W := W) args fx).
Proof. unfold configure_security. staying. apply stays_ecc_endpoints. Qed.

Lemma stays_users fx : stays life_ Configuring (configure_users (W := W) fx).
Proof. unfold configure_users. staying. Qed.

Lemma stays_discovery args fx : stays life_ Configuring (configure_discovery (W := W) args fx).
Proof. unfold configure_discovery. staying. Qed.

Lemma prepared_policies (w : W) w' sc l : pubsub_server_prepare_config w [] = (w', sc, l) ->
  Forall (fun p => policyContext p <> None) l.
Proof.
  unfold pubsub_server_prepare_config, adapter_pubsub_install_security_policies, adapter_PubSubSecurityPolicy_Aes128Ctr,
    adapter_PubSubSecurityPolicy_Aes256Ctr, init_ctr.
  destruct (UA_malloc w) as [w0 []]; [|intros [= <- <- <-]; constructor]. cbn [negb].
  destruct (UA_malloc w0) as [w1 []]; [|intros [= <- <- <-]; constructor].
  destruct (UA_malloc w1) as [w2 []]; [|intros [= <- <- <-]; constructor].
  intros [= <- <- <-]. repeat constructor; discriminate.
Qed.

Lemma moves_prepare p : moves life_ p (prepare_pubsub (W := W)) (fun l q => q = p /\ Forall (fun x => policyContext x <> None) l).
Proof.
  intros h. unfold prepare_pubsub. destruct (pubsub_server_prepare_config (fst h) []) as [[w sc] l] eqn:E.
  exists [], p. rewrite app_nil_r. eauto using prepared_policies.
Qed.

Lemma path_calls l : path life_ Started (map PubSubCall l) = Some Started.
Proof. induction l as [|e l IH]; [reflexivity|exact IH]. Qed.

Lemma stays_pubsub_part {A} (f : W * list entry -> W * list entry * A) : stays life_ Started (pubsub_part f).
Proof.
  intros h. unfold pubsub_part. destruct (f (fst h, [])) as [[w calls] a]. exists (map PubSubCall calls), Started.
  auto using path_calls.
Qed.

Lemma moves_apply policies opt : Forall (fun x => policyContext x <> None) policies -> (forall j, cJSON_PrintUnformatted j <> None) ->
  moves life_ Started (apply_pubsub (W := W) policies opt)
    (fun r q => match r with Done _ => q = Applied | Failed _ => q = Broken | Crashed => False end).
Proof.
  intros Hp Hj h. unfold apply_pubsub, andthen, pubsub_part, pubsub_server_apply.
  pose proof (apply_config_settled (papi := papi) (psrv := psrv) 512 policies Hp Hj opt (pubsub_start (fst h, [])) eq_refl) as [Hc _].
  change (the_api (papi := papi)) with (logged_api papi) in *. change (the_server (psrv := psrv)) with (logged_server psrv) in *.
  destruct (apply_config _ _ opt (pubsub_start (fst h, []))) as [st r]. cbn [fst snd] in Hc.
  destruct r as [[]|msg|]; [| |congruence]; (destruct (st_w _) as [w calls] eqn:E; cbn [fst snd]; eexists; eexists;
    rewrite <- app_assoc; split; [reflexivity|]; rewrite path_app, path_calls; split; [reflexivity|reflexivity]).
Qed.

(** The readiness file: in place, or not and the run goes on only when nobody asked for it. *)
Lemma moves_write_ready rf p explicit adapter id url : nonempty rf = ready ->
  complete needs p = true -> p = Started \/ p = Applied -> text = ready_text adapter (default [] id) url ->
  moves life_ p (write_ready_file_atomic (W := W) rf explicit adapter id url)
    (fun r q => (r = 0 /\ q = Serving true /\ ready <> None) \/
                (complete needs q = true /\ (q = Started \/ q = Applied) /\
                 (r = 0 /\ (explicit = true -> ready = None) \/ r = -1 /\ explicit = true /\ ready <> None))).
Proof.
  intros Hr Hc Hp Ht. unfold write_ready_file_atomic. rewrite Hr. destruct ready as [f|] eqn:Er.
  2:{ apply moves_pure. right. auto. }
  assert (forall g, is_ready_path (Some f) g (g f) = true) as Hf by (intros g; apply streq_refl).
  eapply moves_then.
  { apply moves_call with (Q := fun _ q => q = p). intros r. exists p. cbn [life step_call]. rewrite Hf, Hc. auto. }
  cbn beta. intros opened q ->. destruct opened; cbn [negb].
  2:{ apply moves_pure. right. split; [exact Hc|]. split; [exact Hp|]. destruct explicit; [right|left]; repeat split; discriminate. }
  eapply moves_then.
  { apply moves_call with (Q := fun _ q => q = Written). intros r. exists Written. cbn [life step_call].
    rewrite Hf, Hc, <- Ht, streq_refl. auto. }
  cbn beta. intros _ q ->. eapply moves_then.
  { apply moves_call with (Q := fun (r : bool) q => q = if r then Serving true else Applied). intros r. eexists. split; [|reflexivity].
    cbn [life step_call]. rewrite Hf. change (is_ready_path (Some f) (fun x => x) f) with (streq f f). now rewrite streq_refl. }
  cbn beta. intros [] q ->; [apply moves_pure; left; repeat split; congruence|].
  apply moves_after.
  { apply stays_call. intros r. cbn [life step_call]. now rewrite Hf. }
  intros _. apply moves_pure. right. split; [reflexivity|]. split; [auto|]. destruct explicit; [right|left]; repeat split; discriminate.
Qed.

Lemma moves_serve fuel : forall p, complete needs p = true \/ is_serving p = true ->
  moves life_ p (serve (W := W) fuel) (fun ended q => if ended then q = match p with Serving b => Serving b | _ => Serving false end else True).
Proof.
  induction fuel as [|fuel IH]; intros p Hp; [now apply moves_pure|]. cbn [serve].
  set (s := match p with Serving b => Serving b | _ => Serving false end).
  assert (is_serving s = true) as Hs by (unfold s; now destruct p). eapply moves_then.
  { apply moves_call with (Q := fun _ q => q = s). intros r. exists s. split; [|reflexivity].
    unfold s. cbn. destruct Hp as [Hp|Hp]; destruct p; try discriminate Hp; cbn in *; now rewrite ?Hp. }
  cbn. intros running q ->. destruct running; [|now apply moves_pure].
  apply moves_after; [apply stays_call; intros r; cbn; now rewrite Hs|]. intros _.
  eapply moves_weaken; [apply IH; now right|]. cbn. intros [] q Hq; [|exact I]. rewrite Hq. unfold s. now destruct p.
Qed.

Lemma stays_linger fuel b : forall t0, stays life_ (Serving b) (linger (W := W) fuel t0).
Proof. induction fuel as [|fuel IH]; intros t0; cbn [linger]; staying. apply IH. Qed.

Lemma moves_stop b p : p = Serving b \/ b = false /\ (p = Started \/ p = Applied \/ p = Broken) ->
  moves life_ p (stop_server (W := W)) (fun _ q => q = Gone b).
Proof.
  intros Hp. unfold stop_server. eapply moves_then; [apply moves_call with (Q := fun _ q => q = Down b)|].
  - intros r. exists (Down b). destruct Hp as [->|[-> [->|[->| ->]]]]; auto.
  - cbn. intros _ q ->. apply moves_call. intros r. eexists. split; reflexivity.
Qed.

(** Where a run may end, by its exit code. *)
Definition ends_in (args : ServerArgs) (out : ending) (q : phase) : Prop :=
  match out with
  | Exit 0 =>
      match ready with
      | Some _ => exists b, q = Removed b /\ (readyFileExplicit args = true -> b = true)
      | None => q = Gone false
      end
  | Exit 1 => q = Configuring \/ q = Gone false
  | Exit 6 => q = Gone false /\ readyFileExplicit args = true /\ ready <> None
  | Exit _ | Crash => False
  | NoFuel => True
  end.

Lemma moves_unlink p q rf : nonempty rf = ready -> (forall f r, ready = Some f -> step_call ready text needs p (Unlink f) r = Some q) ->
  moves life_ p (unlink_ready_file (W := W) rf) (fun _ s => s = match ready with Some _ => q | None => p end).
Proof.
  intros Hr Hs. unfold unlink_ready_file. rewrite Hr. destruct ready as [f|]; [|now apply moves_pure].
  eapply moves_then; [apply moves_call with (Q := fun _ s => s = q); intros r; exists q; split; [now apply Hs|reflexivity]|].
  cbn beta. intros _ s ->. now apply moves_pure.
Qed.

Lemma own_path f : is_ready_path (Some f) (fun x => x) f = true.
Proof. apply streq_refl. Qed.

Lemma moves_run_ready fuel args p b : nonempty (readyFile args) = ready ->
  p = Serving true /\ b = true \/ complete needs p = true /\ (p = Started \/ p = Applied) /\ b = false ->
  (ready = None -> b = false) -> (readyFileExplicit args = true -> ready = None \/ b = true) ->
  moves life_ p (run_ready (W := W) fuel args) (ends_in args).
Proof.
  intros Hr Hp Hn He. unfold run_ready. eapply moves_then.
  { apply moves_serve. destruct Hp as [[-> _]|(Hc & _)]; auto. }
  cbn beta. intros ended q Hq. destruct ended; [|now apply moves_pure]. cbn [negb].
  assert (q = Serving b) as -> by (destruct Hp as [[-> ->]|(_ & [->| ->] & ->)]; exact Hq).
  apply moves_after. { unfold unregister. staying; apply stays_linger. }
  intros ended. destruct ended; [|now apply moves_pure]. cbn [negb].
  apply moves_after; [staying|]. intros _. eapply moves_then; [apply (moves_stop b); now left|]. cbn beta. intros _ q ->.
  eapply moves_then.
  { apply moves_unlink with (q := Removed b); [exact Hr|]. intros f r ->. cbn [step_call]. now rewrite own_path. }
  cbn beta. intros _ q ->. apply moves_pure. cbn. destruct ready as [f|]; [|now rewrite Hn].
  exists b. split; [reflexivity|]. intros Hx. now destruct (He Hx) as [[=]|Hb].
Qed.

Lemma moves_announce fuel args fx p : nonempty (readyFile args) = ready -> complete needs p = true -> p = Started \/ p = Applied ->
  text = ready_text (B "open62541") (default [] (fx_id fx)) (adv_url args fx) ->
  moves life_ p (announce (W := W) fuel args fx) (ends_in args).
Proof.
  intros Hr Hc Hp Ht. unfold announce, register_with_lds.
  assert (forall (A : Type) (c : scall A), (forall r, step_call ready text needs p c r = stay_if (complete needs p) p) ->
    stays life_ p (do_call (H := H) c)) as Hcall
    by (intros A c E; apply stays_call; intros r; cbn [life]; now rewrite E, Hc).
  apply moves_after. { apply stays_each. intros url. apply stays_then; [now apply Hcall|staying]. }
  intros _. apply moves_after.
  { destruct (nonempty (registerWith args)); [|staying]. apply stays_then; [apply stays_then; [now apply Hcall|staying]|].
    intros _. apply stays_then; [|staying]. apply stays_call. intros r. cbn [life step_call]. rewrite Hc, orb_true_r. reflexivity. }
  intros _. eapply moves_then; [now apply moves_write_ready|]. cbn beta.
  intros r q [(-> & -> & Hn)|(Hcq & Hq & [[-> He]|(-> & Hx & Hn)])]; cbn [negb Z.eqb].
  - apply moves_run_ready with (b := true); auto. intros E. now elim Hn.
  - apply moves_run_ready with (b := false); auto.
  - eapply moves_then; [apply (moves_stop false); right; tauto|]. cbn beta. intros _ s ->. apply moves_pure. now cbn.
Qed.

Lemma moves_run_started fuel args fx policies : nonempty (readyFile args) = ready -> needs = needs_pubsub args ->
  text = ready_text (B "open62541") (default [] (fx_id fx)) (adv_url args fx) ->
  Forall (fun x => policyContext x <> None) policies -> (forall j, cJSON_PrintUnformatted j <> None) ->
  moves life_ Started (run_started (W := W) fuel args fx policies) (ends_in args).
Proof.
  intros Hr Hn Ht Hp Hj. unfold run_started. do 2 (apply moves_after; [staying|intros _]).
  apply moves_after; [apply stays_pubsub_part|]. intros _. unfold needs_pubsub in Hn.
  destruct (nonempty (pubsubConfig args)) as [config|]; cbn [is_some] in Hn.
  - eapply moves_then; [now apply moves_apply|]. cbn beta. intros [[]|msg|] q Hq; [subst q|subst q|destruct Hq].
    + apply moves_announce; auto.
    + eapply moves_then; [apply (moves_stop false); right; tauto|]. cbn beta. intros _ s ->. apply moves_pure. right. reflexivity.
  - eapply moves_then; [apply moves_pure with (Q := fun r q => r = Done tt /\ q = Started); auto|].
    cbn beta. intros r q [-> ->]. apply moves_announce; auto. now rewrite Hn.
Qed.

Lemma moves_start_server fuel args fx policies : nonempty (readyFile args) = ready -> needs = needs_pubsub args ->
  text = ready_text (B "open62541") (default [] (fx_id fx)) (adv_url args fx) ->
  Forall (fun x => policyContext x <> None) policies -> (forall j, cJSON_PrintUnformatted j <> None) ->
  moves life_ Configuring (start_server (W := W) fuel args fx policies) (ends_in args).
Proof.
  intros Hr Hn Ht Hp Hj. unfold start_server. eapply moves_then.
  { apply moves_call with (Q := fun (r : bool) q => q = if r then Populating else Configuring). intros r. eexists. split; reflexivity. }
  cbn beta. intros created q ->. destruct created; cbn [negb]; [|apply moves_pure; now left].
  apply moves_after; [apply stays_describe|]. intros _. apply moves_after; [apply stays_populate|]. intros _.
  apply moves_after; [staying|]. intros _. eapply moves_then.
  { apply moves_call with (Q := fun (r : Z) q => q = if r =? UA_STATUSCODE_GOOD then Started else Refused).
    intros r. eexists. split; reflexivity. }
  cbn beta. intros sc q ->. destruct (sc =? UA_STATUSCODE_GOOD); cbn [negb]; [now apply moves_run_started|].
  eapply moves_then; [apply moves_call with (Q := fun _ q => q = Gone false); intros r; eexists; split; reflexivity|].
  cbn beta. intros _ q ->. apply moves_pure. now right.
Qed.

(** A server that is configured and run, from the loaded fixture on. *)
Lemma moves_server fuel args fx : nonempty (readyFile args) = ready -> needs = needs_pubsub args ->
  text = ready_text (B "open62541") (default [] (fx_id fx)) (adv_url args fx) -> (forall j, cJSON_PrintUnformatted j <> None) ->
  forall start, start = match ready with Some _ => Fresh | None => Configuring end ->
  moves life_ start (run_fixture (W := W) fuel args fx) (ends_in args).
Proof.
  intros Hr Hn Ht Hj start ->. unfold run_fixture. eapply moves_then.
  { apply moves_unlink with (q := Configuring); [exact Hr|]. intros f r ->. cbn [step_call]. now rewrite own_path. }
  cbn beta. intros _ q Hq. assert (q = Configuring) as -> by (rewrite Hq; now destruct ready). clear Hq.
  apply moves_after; [apply stays_security|]. intros configured. destruct configured; cbn [negb]; [|apply moves_pure; now left].
  apply moves_after; [staying|]. intros _. apply moves_after; [apply stays_users|]. intros _.
  apply moves_after; [apply stays_discovery|]. intros _. eapply moves_then; [apply moves_prepare|].
  cbn beta. intros policies q [-> Hp]. now apply moves_start_server.
Qed.
End Lemmas.

(** * What the phases have seen *)

Section Seen.
Context (ready : option bytes) (text : bytes) (needs : bool).

(** The server is listening and PubSub, when asked for, is applied. *)
Definition up (l : list event) : Prop :=
  In (Ev RunStartup UA_STATUSCODE_GOOD) l /\ (needs = true -> In (PubSubApplied true) l).

Definition seen (p : phase) (l : list event) : Prop :=
  match p with
  | Started => In (Ev RunStartup UA_STATUSCODE_GOOD) l
  | Applied => up l
  | Written => up l /\ exists f whole, ready = Some f /\ In (Ev (WriteAndClose (tmp_path f) text) whole) l
  | _ => True
  end.

Lemma up_more e l : up l -> up (l ++ [e]).
Proof. unfold up. rewrite !in_app_iff. intuition auto. Qed.

Lemma seen_more p e l : seen p l -> seen p (l ++ [e]).
Proof.
  destruct p; cbn; auto using up_more.
  - rewrite in_app_iff. auto.
  - intros [Hu (f & whole & E & Hin)]. split; [now apply up_more|]. exists f, whole. rewrite in_app_iff. auto.
Qed.

Lemma complete_up p l : complete needs p = true -> seen p l -> up l.
Proof.
  destruct p; try discriminate; cbn; auto. intros Hn Hs. split; [exact Hs|]. destruct needs; [discriminate Hn|discriminate].
Qed.

Lemma last_in (e : event) l : In e (l ++ [e]).
Proof. apply in_or_app. right. now left. Qed.

(** A step that changes the phase. *)
Lemma life_moves p e q : life ready text needs p e = Some q -> q = p \/ (forall l, seen q l) \/
  (e = Ev RunStartup UA_STATUSCODE_GOOD /\ q = Started) \/
  (e = PubSubApplied true /\ p = Started /\ q = Applied) \/
  (p = Written /\ q = Applied) \/
  (complete needs p = true /\ q = Written /\ exists f whole, ready = Some f /\ e = Ev (WriteAndClose (tmp_path f) text) whole).
Proof.
  assert (forall f, is_ready_path ready tmp_path f = true -> exists g, ready = Some g /\ f = tmp_path g) as Hf
    by (intros f; unfold is_ready_path; destruct ready as [g|]; [|discriminate]; intros E; exists g; split; [reflexivity|]; now apply streq_eq).
  destruct e as [A c r|e|ok]; cbn [life].
  - destruct c; cbn [step_call]; unfold stay_if; intros E;
      try (destruct (complete needs p && is_ready_path ready tmp_path path && streq text0 text) eqn:Ec; [|discriminate E];
           apply andb_prop in Ec as [Ec Et]; apply andb_prop in Ec as [Ec Ep]; apply streq_eq in Et; subst text0;
           destruct (Hf _ Ep) as (g & -> & ->); injection E as <-; do 5 right; eauto 8; fail);
      repeat match type of E with
             | match ?x with _ => _ end _ = _ => destruct x
             | match ?x with _ => _ end = _ => destruct x eqn:?; try discriminate E
             | Some (if ?x then _ else _) = _ => destruct x eqn:?
             end; injection E as <-; auto 6; try (right; left; intros l; exact I).
    + zbool. subst r. auto.
    + auto 8.
  - destruct p; intros [= <-]. auto.
  - destruct p; intros [= <-]. destruct ok; [do 3 right; left; auto|]. right. left. now intros l.
Qed.

Lemma seen_step p e q l : life ready text needs p e = Some q -> seen p l -> seen q (l ++ [e]).
Proof.
  intros E Hs. apply life_moves in E as [->|[Hq|[[-> ->]|[(-> & -> & ->)|[[-> ->]|(Hc & -> & f & whole & Hr & ->)]]]]].
  - now apply seen_more.
  - apply Hq.
  - cbn. apply last_in.
  - split; [apply in_or_app; left; exact Hs|]. intros _. apply last_in.
  - apply up_more. apply Hs.
  - split; [apply up_more; now apply (complete_up p)|]. exists f, whole. split; [exact Hr|]. apply last_in.
Qed.

Lemma seen_path l2 : forall p l1 q, path (life ready text needs) p l2 = Some q -> seen p l1 -> seen q (l1 ++ l2).
Proof.
  induction l2 as [|e l2 IH]; intros p l1 q E Hs; cbn in E; [injection E as <-; now rewrite app_nil_r|].
  destruct (life ready text needs p e) as [r|] eqn:Er; [|discriminate E].
  change (e :: l2) with ([e] ++ l2). rewrite app_assoc. apply (IH r); [exact E|]. now apply (seen_step p).
Qed.

(** The readiness file is put in place once everything it announces is true. *)
Lemma renamed_means p q pre f t post : seen p [] -> path (life ready text needs) p (pre ++ Ev (Rename f t) true :: post) = Some q ->
  ready = Some t /\ f = tmp_path t /\ up pre /\ exists whole, In (Ev (WriteAndClose (tmp_path t) text) whole) pre.
Proof.
  intros H0 E. rewrite path_app in E. destruct (path (life ready text needs) p pre) as [r|] eqn:Er; [|discriminate E].
  pose proof (seen_path pre p [] r Er H0) as Hs. cbn [app] in Hs. cbn [path life step_call] in E.
  destruct r; try discriminate E. destruct Hs as [Hu (g & whole & -> & Hin)]. unfold is_ready_path in E.
  destruct (streq f (tmp_path g)) eqn:Ef; [|discriminate E]. destruct (streq t g) eqn:Et; [|discriminate E].
  apply streq_eq in Ef, Et. subst f t. eauto.
Qed.
End Seen.

(** * The loops end *)

(** What the host promises: its monotonic clock never goes back and advances by a
    sleep that no signal interrupts, and [remaining] counts the iterations until a
    termination signal has been handled. *)
Class HostLaws {W : Type} (H : ServerHost W) := {
  now_ns : W -> Z;
  remaining : W -> nat;
  clock_flows : forall A w (c : scall A), now_ns w <= now_ns (fst (perform A w c));
  clock_reads : forall w, let '(w', (s, ns)) := perform _ w ClockMonotonic in s * 1000000000 + ns = now_ns w' /\ 0 <= ns < 1000000000;
  sleep_lasts : forall w ns, now_ns w + ns <= now_ns (fst (perform _ w (Nanosleep ns)));
  signal_seen : forall w, snd (perform _ w GRunning) = negb (Nat.eqb (remaining w) 0) /\
    (remaining (fst (perform _ w GRunning)) <= remaining w)%nat;
  iterate_signal : forall w wait, (remaining (fst (perform _ w (RunIterate wait))) <= pred (remaining w))%nat
}.

Section Ends.
Context {stack : UaStack} {cj : CJson} {cpu : Cpu} {nid : NodeIdOps} {types : TypeTable} {len : CJsonLength} {tz : LocalTime}
  {W : Type} {H : ServerHost W} {laws : HostLaws H} {ssl : OpenSsl W} {papi : PubSubApi W} {psrv : PubSubServer W}.

Lemma serve_ends fuel : forall h : host W, (remaining (fst h) < fuel)%nat -> snd (serve fuel h) = true.
Proof.
  induction fuel as [|fuel IH]; intros h Hf; [lia|]. cbn [serve]. unfold andthen, do_call.
  pose proof (signal_seen (fst h)) as [Hr Hm]. destruct (perform _ (fst h) GRunning) as [w r]. cbn [fst snd] in *. subst r.
  destruct (Nat.eqb_spec (remaining (fst h)) 0) as [E|E]; [reflexivity|]. cbn [negb fst snd].
  pose proof (iterate_signal w true) as Hi. destruct (perform _ w (RunIterate true)) as [w' u]. apply IH. cbn [fst] in *. lia.
Qed.

(** A difference of whole milliseconds is seen, whatever the split in seconds. *)
Lemma elapsed_floor s0 n0 s1 n1 k : 0 <= n0 < 1000000000 -> 0 <= n1 < 1000000000 ->
  k * 1000000 <= s1 * 1000000000 + n1 - (s0 * 1000000000 + n0) -> k <= waited_ms (s0, n0) (s1, n1).
Proof.
  intros H0 H1 Hk. unfold waited_ms. cbn [fst snd].
  pose proof (Z.quot_rem' (n1 - n0) 1000000) as E. pose proof (Z.rem_bound_abs (n1 - n0) 1000000 ltac:(lia)) as Hb. lia.
Qed.

(** 150 rounds of 10 ms are enough. *)
Lemma linger_ends t0 fuel : forall (h : host W) k, 0 <= snd t0 < 1000000000 ->
  fst t0 * 1000000000 + snd t0 + k * 10000000 <= now_ns (fst h) -> 150 <= k + Z.of_nat fuel -> (0 < fuel)%nat ->
  snd (linger fuel t0 h) = true.
Proof.
  induction fuel as [|fuel IH]; intros h k Ht Hk Hf Hp; [lia|]. cbn [linger]. unfold andthen, do_call.
  pose proof (clock_flows _ (fst h) (RunIterate false)) as C1. destruct (perform _ (fst h) (RunIterate false)) as [w1 u1]. cbn [fst snd] in *.
  pose proof (sleep_lasts w1 (10 * 1000 * 1000)) as C2. destruct (perform _ w1 (Nanosleep _)) as [w2 u2]. cbn [fst snd] in *.
  pose proof (clock_flows _ w2 ClockMonotonic) as C3. pose proof (clock_reads w2) as C4.
  destruct (perform _ w2 ClockMonotonic) as [w3 [s ns]]. cbn [fst snd] in *. destruct C4 as [C4 C5].
  destruct (Z.leb_spec 1500 (waited_ms t0 (s, ns))) as [Hl|Hl]; [reflexivity|].
  destruct fuel as [|fuel].
  - exfalso. destruct t0 as [s0 n0]. cbn [fst snd] in *. pose proof (elapsed_floor s0 n0 s ns 1500 Ht C5 ltac:(lia)). lia.
  - apply (IH _ (k + 1)); cbn [fst]; lia.
Qed.

(** With enough fuel the action does not run out of it. *)
Definition ends (m : nat -> action W ending) : Prop :=
  forall h, exists n, forall fuel, (n <= fuel)%nat -> snd (m fuel h) <> NoFuel.

Lemma ends_pure e : e <> NoFuel -> ends (fun _ => pure e).
Proof. intros He h. now exists 0%nat. Qed.

Lemma ends_then {A} (m : action W A) k : (forall a, ends (fun fuel => k fuel a)) -> ends (fun fuel => andthen m (k fuel)).
Proof. intros Hk h. unfold andthen. destruct (m h) as [h' a]. apply (Hk a h'). Qed.

Lemma unregister_ends args : forall h : host W, exists n, forall fuel, (n <= fuel)%nat -> snd (unregister fuel args h) = true.
Proof.
  intros h. unfold unregister. destruct (nonempty (registerWith args)) as [url|]; [|now exists 0%nat].
  exists 150%nat. intros fuel Hf. unfold andthen, do_call. destruct (perform _ (fst h) (DeregisterDiscovery url)) as [w1 r].
  cbn [fst]. pose proof (clock_reads w1) as C. destruct (perform _ w1 ClockMonotonic) as [w2 [s ns]]. destruct C as [C1 C2].
  apply (linger_ends (s, ns) fuel _ 0); cbn [fst snd]; lia.
Qed.

Lemma serve_more n : forall (h h' : host W) fuel, serve n h = (h', true) -> (n <= fuel)%nat -> serve fuel h = (h', true).
Proof.
  induction n as [|n IH]; intros h h' fuel E Hf; [discriminate E|]. destruct fuel as [|fuel]; [lia|].
  cbn [serve] in *. unfold andthen in *. destruct (do_call GRunning h) as [h1 []]; [|exact E].
  destruct (do_call (RunIterate true) h1) as [h2 u]. apply IH; [exact E|lia].
Qed.

Lemma run_ready_ends args : ends (fun fuel => run_ready fuel args).
Proof.
  intros h. destruct (serve (S (remaining (fst h))) h) as [h1 b1] eqn:E1.
  destruct (unregister_ends args h1) as [n Hn]. exists (Nat.max (S (remaining (fst h))) n). intros fuel Hf.
  assert (serve fuel h = (h1, true)) as Es.
  { pose proof (serve_ends (S (remaining (fst h))) h ltac:(lia)) as Ht. rewrite E1 in Ht. cbn in Ht. subst b1.
    eapply serve_more; [exact E1|lia]. }
  unfold run_ready, andthen at 1. rewrite Es. cbn [negb]. unfold andthen at 1.
  specialize (Hn fuel ltac:(lia)). destruct (unregister fuel args h1) as [h2 b2]. cbn in Hn. subst b2. cbn [negb].
  unfold andthen, pure. destruct (do_call _ h2). destruct (stop_server _). now destruct (unlink_ready_file _ _).
Qed.

Lemma server_ends args : ends (fun fuel => server_run fuel args).
Proof.
  unfold server_run. apply ends_then. intros [fx|msg]; [|now apply ends_pure]. unfold run_fixture.
  apply ends_then. intros _. apply ends_then. intros []; [|now apply ends_pure]. cbn [negb].
  do 3 (apply ends_then; intros _). apply ends_then. intros policies. unfold start_server.
  apply ends_then. intros []; [|now apply ends_pure]. cbn [negb]. do 3 (apply ends_then; intros _).
  apply ends_then. intros sc. destruct (sc =? UA_STATUSCODE_GOOD); cbn [negb]; [|apply ends_then; intros _; now apply ends_pure].
  unfold run_started. do 3 (apply ends_then; intros _). apply ends_then.
  intros [[]|m|]; [|apply ends_then; intros _; now apply ends_pure|now apply ends_pure].
  unfold announce. do 2 (apply ends_then; intros _). apply ends_then. intros r.
  destruct (r =? 0); cbn [negb]; [apply run_ready_ends|apply ends_then; intros _; now apply ends_pure].
Qed.
End Ends.

(** * Theorem *)

Definition ready_announcement (args : ServerArgs) (fx : Fixture) : bytes :=
  ready_text (B "open62541") (default [] (fx_id fx)) (adv_url args fx).

Definition first_phase (args : ServerArgs) : phase :=
  match nonempty (readyFile args) with Some _ => Fresh | None => Configuring end.


#[export] Instance ref_host_laws : HostLaws ref_host.
Proof.
  refine {| now_ns := rw_ns; remaining := rw_left |}.
  - intros A w c. cbn. destruct c; cbn; try lia.
  - intros w. cbn. split; [|now apply Z.mod_pos_bound]. rewrite Z.mul_comm. symmetry. apply Z.div_mod. discriminate.
  - intros w ns. cbn. lia.
  - intros w. cbn. auto.
  - intros w wait. cbn. auto.
Defined.


(** When the fixture does not load, the run ends before the readiness file of an
    earlier run is removed. *)
Lemma stale_ready_file_kept {stack : UaStack} {cj : CJson} {cpu : Cpu} {nid : NodeIdOps} {types : TypeTable} {len : CJsonLength}
    {tz : LocalTime} {W : Type} {H : ServerHost W} {ssl : OpenSsl W} {papi : PubSubApi W} {psrv : PubSubServer W} fuel args (w : W) msg :
  load_fixture w (default [] (fixturePath args)) = Err msg -> server_run fuel args (w, []) = ((w, []), Exit 1).
Proof. intros E. unfold server_run, andthen, look. cbn [fst]. now rewrite E. Qed.

(** A readiness file that could not be written in full is renamed into place all the same,
    and the server goes on, even when the file was asked for explicitly. *)
Lemma partial_ready_file {W : Type} {H : ServerHost W} explicit adapter id url (h : host W) p w1 w2 w3 :
  p <> [] -> perform _ (fst h) (OpenForWriting (tmp_path p)) = (w1, true) ->
  perform _ w1 (WriteAndClose (tmp_path p) (ready_text adapter (default [] id) url)) = (w2, false) ->
  perform _ w2 (Rename (tmp_path p) p) = (w3, true) ->
  fst (fst (write_ready_file_atomic (Some p) explicit adapter id url h)) = w3 /\
  snd (write_ready_file_atomic (Some p) explicit adapter id url h) = 0.
Proof.
  intros Hp E1 E2 E3. unfold write_ready_file_atomic. destruct p as [|c p]; [congruence|]. cbn [nonempty].
  unfold andthen, do_call. rewrite E1. cbn [fst negb]. rewrite E2. cbn [fst]. rewrite E3. now split.
Qed.

(** The identifier of the fixture is printed as it is: with a quote in it the
    readiness file is no JSON text. *)
Lemma ready_text_raw :
  is_json (ready_text (B "open62541") (B "baseline") (B "opc.tcp://srv:4840/interop") ) = true /\
  is_json (ready_text (B "open62541") (J "base'line") (B "opc.tcp://srv:4840/interop")) = false.
Proof. vm_compute. now split. Qed.
