(* ===== verification/ServerFixture.v ===== *)
(** What the server serves: the address space a run of [server_run] builds is the
    one of the fixture, node by node and behaviour by behaviour. *)

From Stdlib Require Import String Ascii ZArith Bool List Lia SpecFloat.
Import ListNotations.
From S2P Require Import Prelude CLib Float UaTypes RefStack Base64 CJson Args NodeIds Historian Fixture ServerValues.
From S2P Require Import PubSubSecurity PubSubRecovery PubSubJson PubSubConfig PubSubSecured ServerWorld ServerSpace ServerRun RefHost.

(** UA_Server_addNamespace gives a URI its index and keeps it. *)
Class NamespaceLaws {W : Type} (H : ServerHost W) := {
  ns_of : W -> bytes -> option Z;
  added_index : forall w uri, let '(w', i) := perform _ w (AddNamespace (Some uri)) in ns_of w' uri = Some i;
  kept_index : forall A w (c : scall A) uri i, ns_of w uri = Some i -> ns_of (fst (perform A w c)) uri = Some i
}.

(** * The address space of a fixture *)

Section Spec.
Context {cpu : Cpu} {tz : LocalTime}.
(** The namespace table. *)
Context (idx : bytes -> Z).

Definition id_of (s : option bytes) : ua_nodeid :=
  match s with Some s => resolve_nodeid idx s | None => UA_NODEID_NULL end.

Definition type_of_node (nd : FixtureNode) (def : Z) : ua_nodeid :=
  match typeDefinition nd with Some t => id_of (Some t) | None => ns0 def end.

(** A name looked up in a table of names. *)
Definition in_table (table : list (string * Z)) (fallback : Z) (name : option bytes) (v : ua_nodeid) : Prop :=
  (forall n i, In (n, i) table -> name = Some (B n) -> v = UA_NODEID_NUMERIC 0 i) /\
  ((forall n i, In (n, i) table -> name <> Some (B n)) -> v = UA_NODEID_NUMERIC 0 fallback).

(** The numeric NodeIds of Part 6: DataTypes (BaseDataType otherwise), ReferenceTypes
    (Organizes otherwise). *)
Definition part6_types : list (string * Z) :=
  [("Boolean", 1); ("SByte", 2); ("Byte", 3); ("Int16", 4); ("UInt16", 5); ("Int32", 6); ("UInt32", 7); ("Int64", 8);
   ("UInt64", 9); ("Float", 10); ("Double", 11); ("String", 12); ("DateTime", 13); ("Guid", 14); ("ByteString", 15);
   ("XmlElement", 16); ("NodeId", 17); ("ExpandedNodeId", 18); ("StatusCode", 19); ("QualifiedName", 20); ("LocalizedText", 21)]%string.
Definition part6_references : list (string * Z) :=
  [("Organizes", 35); ("HasModellingRule", 37); ("HasEncoding", 38); ("HasTypeDefinition", 40); ("Aggregates", 44);
   ("HasSubtype", 45); ("HasProperty", 46); ("HasComponent", 47)]%string.

(** A BrowseName is written index, colon, name; without a colon the index is 0. *)
Definition browse_named (s : option bytes) (q : qualified) : Prop :=
  (forall n name, 0 <= n < 2 ^ 16 -> s = Some (fmt_u n ++ B ":" ++ name) -> q = (n, name)) /\
  (forall name, ~ In 58 name -> s = Some name -> q = (0, name)) /\ (s = None -> q = (0, [])).

Definition english (text : option bytes) (t : localized) : Prop := t = (B "en", default [] text).

Definition mentions (id : option bytes) (part : string) : Prop := exists before after, id = Some (before ++ B part ++ after).

Record object_of (nd : FixtureNode) (a : ObjectAttributes) : Prop := {
  oo_display : english (displayName nd) (oa_displayName a);
  oo_description : english (nd_description nd) (oa_description a);
  oo_events : oa_eventNotifier a = Some 1 <-> mentions (nodeId nd) "s=Events.Source";
  oo_no_events : ~ mentions (nodeId nd) "s=Events.Source" -> oa_eventNotifier a = None
}.

(** The value is the one of the fixture; the dimensions are set over it from two on,
    unless there is no value. *)
Definition value_of_node (v : VariableFields) (a : attr_value) : Prop :=
  let dims := default [] (arrayDimensions v) in
  exists value over, a = ValueOf value over /\ value = build_variant (initialValue v) (dataType v) (valueRank v) /\
    ((2 <= length dims)%nat -> value <> VtEmpty -> over = dims) /\ ((length dims < 2)%nat \/ value = VtEmpty -> over = []).

Record variable_attributes_of (nd : FixtureNode) (a : VariableAttributes) : Prop := {
  vd_display : english (displayName nd) (va_displayName a);
  vd_description : exists d, va_description a = Some d /\ english (nd_description nd) d;
  vd_type : in_table part6_types 24 (dataType (variable nd)) (va_dataType a);
  vd_rank : va_valueRank a = valueRank (variable nd);
  vd_access : va_accessLevel a = accessLevel (variable nd) /\ va_userAccessLevel a = Some (accessLevel (variable nd));
  vd_history : va_historizing a = true <-> mentions (nodeId nd) "s=History.Temperature";
  vd_dims : va_arrayDimensions a = default [] (arrayDimensions (variable nd));
  vd_value : value_of_node (variable nd) (va_value a)
}.

Record method_attributes_of (nd : FixtureNode) (a : MethodAttributes) : Prop := {
  md_display : english (displayName nd) (ma_displayName a);
  md_description : english (nd_description nd) (ma_description a);
  md_executable : ma_executable a = true /\ ma_userExecutable a = true
}.

Record ua_argument_of (x : Argument) (u : UA_Argument) : Prop := {
  ad_name : ua_name u = default [] (arg_name x);
  ad_type : in_table part6_types 24 (arg_dataType x) (ua_dataType u);
  ad_rank : ua_valueRank u = arg_valueRank x;
  ad_description : english (arg_description x) (ua_description u)
}.

(** The call that adds a node. *)
Definition adds (nd : FixtureNode) (c : scall Z) : Prop :=
  let common id parent ref name := id = id_of (nodeId nd) /\ parent = id_of (parentNodeId nd) /\
    in_table part6_references 35 (referenceType nd) ref /\ browse_named (browseName nd) name in
  match c in scall T return Prop with
  | AddObjectNode id parent ref name typeDef attr => nodeClass nd = NODE_OBJECT /\ common id parent ref name /\
      typeDef = type_of_node nd 58 /\ object_of nd attr
  | AddVariableNode id parent ref name typeDef attr => nodeClass nd = NODE_VARIABLE /\ common id parent ref name /\
      typeDef = type_of_node nd 63 /\ variable_attributes_of nd attr
  | AddMethodNode id parent ref name attr cb inputs outputs => nodeClass nd = NODE_METHOD /\ common id parent ref name /\
      method_attributes_of nd attr /\ cb = FixtureMethod (method_callback_for (methodBehavior (method nd))) /\
      Forall2 ua_argument_of (inputArgs (method nd)) inputs /\ Forall2 ua_argument_of (outputArgs (method nd)) outputs
  | _ => False
  end.

(** Only lookups in the namespace table, with the indices of the table. *)
Definition lookup (e : event) : Prop := exists uri, e = Ev (AddNamespace (Some uri)) (idx uri).
Abbreviation lookups := (Forall lookup).

(** The EURange of a variable that was added: written, or added when the type has none. *)
Inductive gets_range (id : ua_nodeid) (low high : spec_float) : list event -> Prop :=
| range_written targets target sc : gets_range id low high
    [Ev (BrowseSimplifiedBrowsePath id [(0, B "EURange")]) (UA_STATUSCODE_GOOD, target :: targets);
     Ev (WriteValue target (RangeOf low high)) sc]
| range_added r sc : fst r <> UA_STATUSCODE_GOOD \/ snd r = [] -> gets_range id low high
    [Ev (BrowseSimplifiedBrowsePath id [(0, B "EURange")]) r;
     Ev (AddVariableNode UA_NODEID_NULL id (UA_NODEID_NUMERIC 0 46) (0, B "EURange") (UA_NODEID_NUMERIC 0 68)
           {| va_displayName := (B "en", B "EURange"); va_description := None; va_dataType := UA_NODEID_NUMERIC 0 884;
              va_valueRank := -1; va_accessLevel := 1; va_userAccessLevel := None; va_historizing := false;
              va_arrayDimensions := []; va_value := RangeOf low high |}) sc].

Definition range_of (nd : FixtureNode) : option (spec_float * spec_float) :=
  match nodeClass nd with NODE_VARIABLE => euRange (variable nd) | _ => None end.

Definition ranged (nd : FixtureNode) (sc : Z) (l : list event) : Prop :=
  match range_of nd with
  | Some (low, high) => if sc =? UA_STATUSCODE_GOOD then gets_range (id_of (nodeId nd)) low high l else l = []
  | None => l = []
  end.

(** The nodes in order, each added once, with its range. *)
Inductive space : list FixtureNode -> list event -> Prop :=
| space_nil : space [] []
| space_node nd nds names c sc range rest : lookups names -> adds nd c -> ranged nd sc range -> space nds rest ->
    space (nd :: nds) (names ++ [Ev c sc] ++ range ++ rest).

(** The behaviours: the periodic ones are scheduled with a fresh context. *)
Inductive scheduled : list Behavior -> list event -> Prop :=
| scheduled_nil : scheduled [] []
| scheduled_fixed b bs rest : is_fixed_status b = true -> scheduled bs rest -> scheduled (b :: bs) rest
| scheduled_tick b bs names sc rest : is_fixed_status b = false -> lookups names -> scheduled bs rest ->
    scheduled (b :: bs)
      (names ++ [Ev (AddRepeatedCallback (BehaviorTick (id_of (target b))
                       {| ctx_kind := kind b; counter := to_int64 (initial b); toggle := false; rampVal := initial b;
                          rampInc := increment b; rampMin := minimum b; rampMax := maximum b |}) (u32 (intervalMs b))) sc] ++ rest).

(** The fixed ones keep the value of the node and give it their status. *)
Inductive fixed : list Behavior -> list event -> Prop :=
| fixed_nil : fixed [] []
| fixed_other b bs rest : is_fixed_status b = false -> fixed bs rest -> fixed (b :: bs) rest
| fixed_status b bs names rsc v sc rest : is_fixed_status b = true -> lookups names -> fixed bs rest ->
    fixed (b :: bs)
      (names ++ [Ev (ReadValue (id_of (target b))) (rsc, v);
                 Ev (WriteDataValue (id_of (target b)) (DataValue (Some v) (Some (to_uint32 (initial b))) None None None None)) sc] ++ rest).

Definition names_registered (l : list (option bytes * option bytes)) (log : list event) : Prop :=
  exists is_, log = map (fun p => Ev (AddNamespace (snd (fst p))) (snd p)) (combine l is_) /\ length is_ = length l /\
    Forall (fun p => match snd (fst p) with Some uri => snd p = idx uri | None => True end) (combine l is_).

(** The historian serves the node the fixture calls History.Temperature. *)
Definition historian (log : list event) : Prop :=
  exists names, lookups names /\
    log = names ++ [Ev (SetConfig (HistoryDatabase (interop_make_history_database (id_of (model_id "History.Temperature"))))) tt].

(** What the event source and the alarm add: nothing that a fixture describes. *)
Definition extra_call {A} (c : scall A) : bool :=
  match c with
  | AddNamespace _ | AddObjectTypeNode _ _ _ _ _ | AddReference _ _ _ _ | BrowseSimplifiedBrowsePath _ _ | ReadValue _
  | WriteObjectProperty _ _ _ | CreateCondition _ _ _ _ _ | SetConditionField _ _ _ | SetConditionFieldProperty _ _ _ _
  | TriggerConditionEvent _ _ | DateTimeNow => true
  | AddRepeatedCallback (EmitBaseEvent _ _) _ => true
  | AddObjectNode id _ _ _ _ _ =>
      match identifier id with IdString (Some n) => streq n (B "Alarms") || streq n (B "Alarms.Source") | _ => false end
  | AddMethodNode _ _ _ _ _ (AlarmReset _ _) _ _ => true
  | _ => false
  end.
Definition extra_event (e : event) : bool := match e with Ev c _ => extra_call c | _ => false end.

Definition populated (fx : Fixture) (log : list event) : Prop :=
  exists l_names l_nodes l_hist l_events l_ticks l_fixed,
    log = l_names ++ l_nodes ++ l_hist ++ l_events ++ l_ticks ++ l_fixed /\
    names_registered (namespaces fx) l_names /\ space (nodes fx) l_nodes /\ historian l_hist /\
    forallb extra_event l_events = true /\ scheduled (behaviors fx) l_ticks /\ fixed (behaviors fx) l_fixed.
End Spec.

(** * The attributes server.c builds are those *)

Section Attributes.
Context {cpu : Cpu} {tz : LocalTime}.

Lemma strstr_spec s part : strstr s part = true <-> exists before after, s = before ++ part ++ after.
Proof.
  induction s as [|c s IH]; cbn [strstr]; destruct (strip part _) as [r|] eqn:E; cbn [is_some orb].
  1, 3: apply strip_Some in E; split; [intros _; now exists [], r|reflexivity].
  - split; [discriminate|]. intros (b & a & Hs). destruct b; [|discriminate Hs]. cbn [app] in Hs. rewrite Hs, strip_app in E. discriminate E.
  - rewrite IH. split; [intros (b & a & ->); now exists (c :: b), a|]. intros ([|x b] & a & Hs).
    + cbn [app] in Hs. rewrite Hs, strip_app in E. discriminate E.
    + injection Hs as _ ->. now exists b, a.
Qed.

Lemma names_source_spec id part : names_source id part = true <-> mentions id part.
Proof.
  unfold names_source, mentions. destruct id as [s|]; [|split; [discriminate|intros (? & ? & [=])]].
  rewrite strstr_spec. split; [intros (b & a & ->); now exists b, a|intros (b & a & [= ->]); now exists b, a].
Qed.

(** A name outside the table is none of the names the code knows. *)
Lemma outside_table (table : list (string * Z)) (known : list bytes) s :
  forallb (fun y => existsb (streq y) (map (fun x => B (fst x)) table)) known = true ->
  (forall n i, In (n, i) table -> Some s <> Some (B n)) -> ~ In s known.
Proof.
  intros Hall Hn Hi. rewrite forallb_forall in Hall. apply Hall in Hi. apply existsb_exists in Hi as (y & Hy & E).
  apply in_map_iff in Hy as ([n i] & <- & Hy). apply streq_eq in E. apply (Hn n i Hy). now rewrite E.
Qed.

Lemma data_type_table name : in_table part6_types 24 name (data_type_nodeid name).
Proof.
  split.
  - intros n i Hi ->. repeat (destruct Hi as [[= <- <-]|Hi]; [reflexivity|]). destruct Hi.
  - intros Hn. unfold data_type_nodeid, data_type_for_name. destruct name as [s|]; [|reflexivity].
    destruct (find _ server_types) as [p|] eqn:E; [|reflexivity]. exfalso. apply find_some in E as [Hp Hs]. apply streq_eq in Hs. subst s.
    eapply (outside_table part6_types (map fst server_types)); [vm_compute; reflexivity|exact Hn|now apply in_map].
Qed.

Lemma reference_table name : in_table part6_references 35 name (ref_type_id name).
Proof.
  split.
  - intros n i Hi ->. repeat (destruct Hi as [[= <- <-]|Hi]; [reflexivity|]). destruct Hi.
  - intros Hn. unfold ref_type_id. destruct name as [s|]; [|reflexivity].
    destruct (find _ NodeIds.ref_types) as [p|] eqn:E; [|reflexivity]. exfalso. apply find_some in E as [Hp Hs]. apply streq_eq in Hs. subst s.
    eapply (outside_table part6_references (map fst NodeIds.ref_types)); [vm_compute; reflexivity|exact Hn|now apply in_map].
Qed.

Lemma browse_name_read s : browse_named s (parse_browse_name s).
Proof.
  unfold parse_browse_name. split; [|split].
  - intros n name Hn ->. change (B ":" ++ name) with (58 :: name). rewrite strchr_app.
    + rewrite atoi_fmt by (auto; lia). now rewrite u16_s32.
    + intros Hi. pose proof (fmt_u_digits n ltac:(lia)) as Hd. eapply Forall_forall in Hd; [|exact Hi]. discriminate Hd.
  - intros name Hn ->. apply strchr_None in Hn. now rewrite Hn.
  - now intros ->.
Qed.

Lemma object_attributes_read nd : object_of nd (object_attributes nd).
Proof.
  unfold object_attributes. split; cbn [oa_displayName oa_description oa_eventNotifier]; try reflexivity;
    rewrite <- names_source_spec; destruct (names_source _ _); easy.
Qed.

Lemma node_value_read v : value_of_node v (node_value v).
Proof.
  unfold value_of_node, node_value. destruct (initialValue v) as [jv|].
  - eexists _, _. split; [reflexivity|]. split; [reflexivity|]. set (value := build_variant _ _ _). set (dims := default [] _).
    destruct (Nat.ltb_spec 1 (length dims)) as [Hl|Hl]; cbn [andb].
    + destruct value; cbn [negb]; (split; [intros _ Hn|intros [Hx|Hx]]); try reflexivity; try congruence; lia.
    + split; [lia|reflexivity].
  - exists VtEmpty, []. repeat split. now intros _ Hn.
Qed.

Lemma variable_attributes_read nd : variable_attributes_of nd (variable_attributes nd).
Proof.
  unfold variable_attributes. split; cbn [va_displayName va_description va_dataType va_valueRank va_accessLevel va_userAccessLevel
    va_historizing va_arrayDimensions va_value]; try reflexivity; try (now split).
  - eexists. split; reflexivity.
  - apply data_type_table.
  - apply names_source_spec.
  - apply node_value_read.
Qed.

Lemma arguments_read l : Forall2 ua_argument_of l (build_ua_arguments l).
Proof.
  unfold build_ua_arguments. induction l as [|x l IH]; [constructor|]. cbn [map]. constructor; [|exact IH].
  split; cbn [ua_name ua_dataType ua_valueRank ua_description]; try reflexivity. apply data_type_table.
Qed.

(** The call the code makes. *)
Definition node_call (idx : bytes -> Z) (nd : FixtureNode) : scall Z :=
  let id := id_of idx (nodeId nd) in
  let parent := id_of idx (parentNodeId nd) in
  let ref := ref_type_id (referenceType nd) in
  let name := parse_browse_name (browseName nd) in
  match nodeClass nd with
  | NODE_OBJECT => AddObjectNode id parent ref name (type_of_node idx nd UA_NS0ID_BASEOBJECTTYPE) (object_attributes nd)
  | NODE_VARIABLE => AddVariableNode id parent ref name (type_of_node idx nd UA_NS0ID_BASEDATAVARIABLETYPE) (variable_attributes nd)
  | NODE_METHOD => AddMethodNode id parent ref name (method_attributes nd)
      (FixtureMethod (method_callback_for (methodBehavior (method nd))))
      (build_ua_arguments (inputArgs (method nd))) (build_ua_arguments (outputArgs (method nd)))
  end.

Lemma node_call_adds idx nd : adds idx nd (node_call idx nd).
Proof.
  unfold node_call, adds. destruct (nodeClass nd); (split; [reflexivity|]);
    (split; [repeat split; apply reference_table || apply browse_name_read|]).
  - split; [reflexivity|apply object_attributes_read].
  - split; [reflexivity|apply variable_attributes_read].
  - split; [now split|]. split; [reflexivity|]. split; apply arguments_read.
Qed.
End Attributes.


(** * Rules *)

Section Yields.
Context {cpu : Cpu} {tz : LocalTime} {nid : NodeIdOps} {W : Type} {H : ServerHost W} {laws : NamespaceLaws H}.

(** The namespace table as [w] has it. *)
Definition table (w : W) (uri : bytes) : Z := default 0 (ns_of w uri).

Definition later (w w' : W) : Prop := forall uri i, ns_of w uri = Some i -> ns_of w' uri = Some i.

Lemma later_world_refl w : later w w.
Proof. intros uri i E. exact E. Qed.

Lemma later_world_trans a b c : later a b -> later b c -> later a c.
Proof. intros H1 H2 uri i E. auto. Qed.

(** [m] keeps the namespace indices, and its log satisfies [S] for the table of any
    later state. *)
Definition yields {A} (m : action W A) (S : (bytes -> Z) -> A -> list event -> Prop) : Prop :=
  forall h, let '(h', a) := m h in later (fst h) (fst h') /\
    exists l, snd h' = snd h ++ l /\ forall wF, later (fst h') wF -> S (table wF) a l.

Lemma yields_pure {A} (a : A) (S : (bytes -> Z) -> A -> list event -> Prop) : (forall idx, S idx a []) -> yields (pure a) S.
Proof. intros HS h. cbn. split; [apply later_world_refl|]. exists []. rewrite app_nil_r. auto. Qed.

Lemma yields_look {A} (f : W -> A) (S : (bytes -> Z) -> A -> list event -> Prop) : (forall idx w, S idx (f w) []) -> yields (look f) S.
Proof. intros HS h. cbn. split; [apply later_world_refl|]. exists []. rewrite app_nil_r. auto. Qed.

Lemma yields_call {A} (c : scall A) (S : (bytes -> Z) -> A -> list event -> Prop) :
  (forall idx r, S idx r [Ev c r]) -> yields (do_call c) S.
Proof.
  intros HS h. unfold do_call. pose proof (kept_index A (fst h) c) as Hk.
  destruct (perform A (fst h) c) as [w r]. cbn [fst snd] in *. split; [exact Hk|]. exists [Ev c r]. auto.
Qed.

Lemma yields_then {A C} (m : action W A) (k : A -> action W C) S R T :
  yields m S -> (forall a, yields (k a) (R a)) -> (forall idx a l1 c l2, S idx a l1 -> R a idx c l2 -> T idx c (l1 ++ l2)) ->
  yields (andthen m k) T.
Proof.
  intros Hm Hk HT h. unfold andthen. specialize (Hm h). destruct (m h) as [h1 a]. destruct Hm as (G1 & l1 & L1 & S1).
  specialize (Hk a h1). destruct (k a h1) as [h2 c]. destruct Hk as (G2 & l2 & L2 & S2).
  split; [now apply (later_world_trans _ (fst h1))|]. exists (l1 ++ l2). split; [now rewrite L2, L1, app_assoc|].
  intros wF HF. apply (HT _ a); [apply S1; now apply (later_world_trans _ (fst h2))|now apply S2].
Qed.

Lemma yields_weaken {A} (m : action W A) (S T : (bytes -> Z) -> A -> list event -> Prop) :
  yields m S -> (forall idx a l, S idx a l -> T idx a l) -> yields m T.
Proof.
  intros Hm HS h. specialize (Hm h). destruct (m h) as [h' a]. destruct Hm as (G & l & L & HSl). eauto 6.
Qed.

(** An action of extra calls only. *)
Definition any {A} (m : action W A) : Prop := yields m (fun _ _ l => forallb extra_event l = true).

Lemma any_then {A C} (m : action W A) (k : A -> action W C) : any m -> (forall a, any (k a)) -> any (andthen m k).
Proof.
  intros Hm Hk. apply (yields_then m k (fun _ _ l => forallb extra_event l = true) (fun _ _ _ l => forallb extra_event l = true)); auto.
  intros _ _ l1 _ l2 H1 H2. now rewrite forallb_app, H1, H2.
Qed.

Lemma any_call {A} (c : scall A) : extra_call c = true -> any (do_call c).
Proof. intros Hc. apply yields_call. intros _ r. cbn [forallb extra_event]. now rewrite Hc. Qed.

Lemma yields_namespace uri :
  yields (do_call (AddNamespace (Some uri))) (fun idx i l => i = idx uri /\ l = [Ev (AddNamespace (Some uri)) (idx uri)]).
Proof.
  intros h. unfold do_call. pose proof (kept_index _ (fst h) (AddNamespace (Some uri))) as Hk. pose proof (added_index (fst h) uri) as Ha.
  destruct (perform _ (fst h) (AddNamespace (Some uri))) as [w i]. cbn [fst snd] in *. split; [exact Hk|].
  exists [Ev (AddNamespace (Some uri)) i]. split; [reflexivity|]. intros wF HF. unfold table. now rewrite (HF uri i Ha).
Qed.

Lemma resolve_cut (f g : bytes -> Z) s : match nsu_uri s with Some uri => u16 (f uri) = u16 (g uri) | None => True end ->
  resolve_nodeid f s = resolve_nodeid g s.
Proof.
  unfold nsu_uri, resolve_nodeid. destruct (strip (B "nsu=") s) as [r|]; cbn [obind]; [|reflexivity].
  destruct (strchr 59 r) as [[uri id]|]; cbn [obind fst]; [|reflexivity]. now intros ->.
Qed.

Lemma u16_u16 z : u16 (u16 z) = u16 z.
Proof. unfold u16, uwrap. apply Z.mod_mod. discriminate. Qed.

Lemma yields_resolve s : yields (resolve s) (fun idx id l => id = id_of idx s /\ Forall (lookup idx) l).
Proof.
  unfold resolve. destruct s as [s|]; [|apply yields_pure; now split]. destruct (nsu_uri s) as [uri|] eqn:E.
  - eapply (yields_then _ _ (fun idx ns l => ns = u16 (idx uri) /\ Forall (lookup idx) l) (fun ns idx id l => id = resolve_nodeid (fun _ => ns) s /\ l = [])).
    + eapply (yields_then _ _ _ (fun i idx ns l => ns = u16 i /\ l = [])); [apply yields_namespace|intros i; now apply yields_pure|].
      intros idx i l1 ns l2 [-> ->] [-> ->]. split; [reflexivity|]. repeat constructor. now exists uri.
    + intros ns. now apply yields_pure.
    + intros idx ns l1 id l2 [-> Hl] [-> ->]. rewrite app_nil_r. split; [|exact Hl]. cbn [id_of].
      apply resolve_cut. rewrite E. apply u16_u16.
  - apply yields_pure. intros idx. split; [|constructor]. cbn [id_of]. apply resolve_cut. now rewrite E.
Qed.

Lemma yields_type nd def : yields (type_definition nd def) (fun idx id l => id = type_of_node idx nd def /\ Forall (lookup idx) l).
Proof.
  unfold type_definition, type_of_node. destruct (typeDefinition nd) as [t|]; [apply yields_resolve|now apply yields_pure].
Qed.

Lemma yields_range id low high : yields (set_eu_range id low high) (fun _ _ l => gets_range id low high l).
Proof.
  unfold set_eu_range.
  eapply (yields_then _ _ (fun _ r l => l = [Ev (BrowseSimplifiedBrowsePath id [(0, B "EURange")]) r])
           (fun r _ _ l => gets_range id low high (Ev (BrowseSimplifiedBrowsePath id [(0, B "EURange")]) r :: l)));
    [now apply yields_call| |intros idx r l1 u l2 -> Hr; exact Hr].
  intros [sc targets]. eapply (yields_then _ _ (fun _ _ l => gets_range id low high (Ev (BrowseSimplifiedBrowsePath id [(0, B "EURange")]) (sc, targets) :: l))
    (fun _ _ _ l => l = [])); [|intros _; now apply yields_pure|intros idx a l1 u l2 Hr ->; now rewrite app_nil_r].
  destruct targets as [|target targets]; [apply yields_call; intros idx r; apply range_added; now right|].
  destruct (Z.eqb_spec sc UA_STATUSCODE_GOOD) as [->|Hn]; apply yields_call; intros idx r;
    [apply range_written|apply range_added; now left].
Qed.

(** One node with everything before and after its call. *)
Definition one_node (idx : bytes -> Z) (nd : FixtureNode) (l : list event) : Prop :=
  exists names sc range, Forall (lookup idx) names /\ ranged idx nd sc range /\ l = names ++ [Ev (node_call idx nd) sc] ++ range.

(** The call of a node, after the lookups of its three NodeIds. *)
Lemma node_parts idx nd l1 l2 l3 sc range : Forall (lookup idx) l1 -> Forall (lookup idx) l2 -> Forall (lookup idx) l3 ->
  ranged idx nd sc range -> one_node idx nd (l1 ++ l2 ++ l3 ++ [Ev (node_call idx nd) sc] ++ range).
Proof.
  intros H1 H2 H3 Hr. exists (l1 ++ l2 ++ l3), sc, range. rewrite !Forall_app. repeat split; auto. now rewrite <- !app_assoc.
Qed.

Lemma yields_called {A} (c : scall A) : yields (do_call c) (fun _ r l => l = [Ev c r]).
Proof. now apply yields_call. Qed.

Lemma yields_told {A} (c : scall A) : yields (andthen (do_call c) (fun _ => pure tt)) (fun _ _ l => exists r, l = [Ev c r]).
Proof.
  apply (yields_then _ _ (fun _ r l => l = [Ev c r]) (fun _ _ _ l => l = [])); [apply yields_called|intros r; now apply yields_pure|].
  intros idx r l1 u l2 -> ->. now exists r.
Qed.

Lemma yields_variable nd id parent typeDef : nodeClass nd = NODE_VARIABLE ->
  yields (andthen (do_call (AddVariableNode id parent (ref_type_id (referenceType nd)) (parse_browse_name (browseName nd)) typeDef
                              (variable_attributes nd)))
            (fun sc => match euRange (variable nd) with
                       | Some (low, high) => when_ (sc =? UA_STATUSCODE_GOOD) (set_eu_range id low high)
                       | None => pure tt
                       end))
    (fun idx _ l => id = id_of idx (nodeId nd) -> parent = id_of idx (parentNodeId nd) ->
       typeDef = type_of_node idx nd UA_NS0ID_BASEDATAVARIABLETYPE ->
       exists sc range, ranged idx nd sc range /\ l = [Ev (node_call idx nd) sc] ++ range).
Proof.
  intros Ec. eapply (yields_then _ _ _ (fun sc idx _ l => id = id_of idx (nodeId nd) -> ranged idx nd sc l)); [apply yields_called| |].
  - intros sc. unfold ranged, range_of. rewrite Ec. destruct (euRange (variable nd)) as [[low high]|]; [|now apply yields_pure].
    unfold when_. destruct (sc =? UA_STATUSCODE_GOOD); [|now apply yields_pure].
    eapply yields_weaken; [apply yields_range|]. cbn beta. intros idx u l Hr ->. exact Hr.
  - cbn beta. intros idx sc l1 u l2 -> Hr -> -> ->. exists sc, l2. split; [now apply Hr|]. unfold node_call. now rewrite Ec.
Qed.

Lemma yields_node nd : yields (add_node nd) (fun idx _ l => one_node idx nd l).
Proof.
  unfold add_node.
  eapply (yields_then _ _ _ (fun id idx _ l => forall l1, id = id_of idx (nodeId nd) -> Forall (lookup idx) l1 -> one_node idx nd (l1 ++ l)));
    [apply yields_resolve| |intros idx id l1 u l2 [-> H1] Hk; now apply Hk].
  intros id. eapply (yields_then _ _ _ (fun parent idx _ l => forall l1 l2, id = id_of idx (nodeId nd) -> Forall (lookup idx) l1 ->
      parent = id_of idx (parentNodeId nd) -> Forall (lookup idx) l2 -> one_node idx nd (l1 ++ l2 ++ l)));
    [apply yields_resolve| |intros idx parent l2 u l3 [-> H2] Hk l1 Hid H1; now apply Hk].
  intros parent. cbv zeta. destruct (nodeClass nd) eqn:Ec.
  - eapply yields_then; [apply yields_type|intros typeDef; apply yields_told|]. cbn beta.
    intros idx typeDef l3 u l4 [-> H3] [sc ->] l1 l2 -> H1 -> H2.
    pose proof (node_parts idx nd l1 l2 l3 sc [] H1 H2 H3) as Hn. unfold node_call, ranged, range_of in Hn. rewrite Ec in Hn.
    now apply Hn.
  - eapply yields_then; [apply yields_type|intros typeDef; now apply yields_variable|]. cbn beta.
    intros idx typeDef l3 u l4 [-> H3] Hv l1 l2 -> H1 -> H2. destruct Hv as (sc & range & Hr & ->); [reflexivity..|].
    now apply node_parts.
  - eapply yields_weaken; [apply yields_told|]. cbn beta. intros idx u l [sc ->] l1 l2 -> H1 -> H2.
    pose proof (node_parts idx nd l1 l2 [] sc [] H1 H2 (Forall_nil _)) as Hn. unfold node_call, ranged, range_of in Hn. rewrite Ec in Hn.
    now apply Hn.
Qed.

Lemma yields_nodes l : yields (add_nodes l) (fun idx _ log => space idx l log).
Proof.
  unfold add_nodes. induction l as [|nd l IH]; [apply yields_pure; constructor|]. cbn [each].
  eapply yields_then; [apply yields_node|intros ?; exact IH|]. cbn beta.
  intros idx u l1 v l2 (names & sc & range & Hn & Hr & ->) Hs. rewrite <- !app_assoc. constructor; auto. apply node_call_adds.
Qed.

Lemma yields_names l : yields (add_namespaces l) (fun idx _ log => names_registered idx l log).
Proof.
  unfold add_namespaces. induction l as [|[alias uri] l IH]; [apply yields_pure; intros idx; now exists []|]. cbn [each snd].
  eapply (yields_then _ _ (fun idx _ log => exists i, log = [Ev (AddNamespace uri) i] /\ match uri with Some u => i = idx u | None => True end));
    [|intros ?; exact IH|].
  - destruct uri as [u|].
    + eapply (yields_then _ _ _ (fun _ _ _ log => log = [])); [apply yields_namespace|intros i; now apply yields_pure|].
      intros idx i l1 v l2 [-> ->] ->. now exists (idx u).
    + eapply yields_weaken; [apply yields_told|]. cbn beta. intros idx v log [i ->]. now exists i.
  - cbn beta. intros idx v l1 v' l2 (i & -> & Hi) (is_ & -> & Hlen & Hall). exists (i :: is_). split; [reflexivity|].
    split; [cbn; now rewrite Hlen|]. cbn [combine]. constructor; [exact Hi|exact Hall].
Qed.

Lemma yields_historian : yields install_historian (fun idx _ log => historian idx log).
Proof.
  unfold install_historian. eapply (yields_then _ _ _ (fun id _ _ log => log = [Ev (SetConfig (HistoryDatabase (interop_make_history_database id))) tt]));
    [apply yields_resolve|intros id; apply yields_call; now intros idx []|].
  cbn beta. intros idx id l1 u l2 [-> Hl] ->. now exists l1.
Qed.

Lemma yields_ticks l : yields (each register_behavior l) (fun idx _ log => scheduled idx l log).
Proof.
  induction l as [|b l IH]; [apply yields_pure; constructor|]. cbn [each]. unfold register_behavior at 1, when_.
  destruct (is_fixed_status b) eqn:E; cbn [negb].
  - eapply (yields_then _ _ (fun _ _ log => log = [])); [now apply yields_pure|intros ?; exact IH|].
    cbn beta. intros idx u l1 v l2 -> Hs. now apply scheduled_fixed.
  - eapply yields_then; [eapply yields_then with (T := fun idx _ log => exists names sc, Forall (lookup idx) names /\
        log = names ++ [Ev (AddRepeatedCallback (BehaviorTick (id_of idx (target b)) (behavior_ctx b)) (u32 (intervalMs b))) sc]);
      [apply yields_resolve|intros id; apply yields_told|]|intros ?; exact IH|]; cbn beta.
    + intros idx id l1 u l2 [-> Hl] [sc ->]. eauto.
    + intros idx u l1 v l2 (names & sc & Hl & ->) Hs. rewrite <- app_assoc. now apply scheduled_tick.
Qed.

Lemma yields_fixed l : yields (each apply_fixed_status l) (fun idx _ log => fixed idx l log).
Proof.
  induction l as [|b l IH]; [apply yields_pure; constructor|]. cbn [each]. unfold apply_fixed_status at 1, when_.
  destruct (is_fixed_status b) eqn:E.
  - eapply yields_then; [eapply yields_then with (T := fun idx _ log => exists names rsc v sc, Forall (lookup idx) names /\
        log = names ++ [Ev (ReadValue (id_of idx (target b))) (rsc, v);
          Ev (WriteDataValue (id_of idx (target b)) (DataValue (Some v) (Some (to_uint32 (initial b))) None None None None)) sc]);
      [apply yields_resolve|intros id;
        eapply (yields_then _ _ (fun _ r log => log = [Ev (ReadValue id) r])
          (fun r _ _ log => exists sc, log = [Ev (WriteDataValue id (DataValue (Some (snd r)) (Some (to_uint32 (initial b))) None None None None)) sc])
          (fun _ _ log => exists rsc v sc, log = [Ev (ReadValue id) (rsc, v);
            Ev (WriteDataValue id (DataValue (Some v) (Some (to_uint32 (initial b))) None None None None)) sc]));
          [apply yields_called|intros r; apply yields_told|intros idx [rsc v] l1 u l2 -> [sc ->]; now exists rsc, v, sc]|]|intros ?; exact IH|]; cbn beta.
    + intros idx id l1 u l2 [-> Hl] (rsc & v & sc & ->). now exists l1, rsc, v, sc.
    + intros idx u l1 w l2 (names & rsc & v & sc & Hl & ->) Hs. rewrite <- app_assoc. now apply fixed_status.
  - eapply (yields_then _ _ (fun _ _ log => log = [])); [now apply yields_pure|intros ?; exact IH|].
    cbn beta. intros idx u l1 v l2 -> Hs. now apply fixed_other.
Qed.

Lemma any_resolve s : any (resolve s).
Proof.
  eapply yields_weaken; [apply yields_resolve|]. cbn beta. intros idx id l [_ Hl].
  induction Hl as [|e l [uri ->] _ IH]; [reflexivity|exact IH].
Qed.

Lemma any_events : any schedule_events.
Proof.
  unfold schedule_events, interop_add_event_type, when_. apply any_then; [apply any_resolve|].
  intros source. apply any_then; [now apply any_call|]. intros r. destruct (_ && _); [|now apply yields_pure].
  eapply yields_weaken; [apply yields_told|]. now intros idx u l [x ->].
Qed.

Lemma any_or sc m : any m -> any (or_status sc m).
Proof. intros Hm. apply any_then; [exact Hm|]. intros r. now apply yields_pure. Qed.

Lemma any_if_good sc m : any m -> any (if_good sc m).
Proof. intros Hm. unfold if_good. destruct (_ =? _); [exact Hm|now apply yields_pure]. Qed.

Lemma any_enabled c : any (alarm_is_enabled c).
Proof.
  unfold alarm_is_enabled. apply any_then; [now apply any_call|]. intros [sc [|t ts]]; [now apply yields_pure|].
  destruct (_ =? _); [|now apply yields_pure]. apply any_then; [now apply any_call|]. intros r. now apply yields_pure.
Qed.

Lemma any_arm source condition : any (alarm_arm source condition).
Proof.
  unfold alarm_arm. apply any_then; [apply any_enabled|]. intros enabled. apply any_then.
  { destruct enabled; [now apply yields_pure|]. apply any_or. now apply any_call. }
  intros sc. repeat (apply any_then; [first [apply any_or|idtac]; now apply any_call|intros ?]). now apply yields_pure.
Qed.

Lemma any_alarms : any interop_add_alarms.
Proof.
  unfold interop_add_alarms, ns_index_for_uri. apply any_then; [apply any_then; [now apply any_call|intros i; now apply yields_pure]|].
  intros ns. apply any_then; [apply any_resolve|]. intros compat. destruct (_ || _); [now apply yields_pure|]. cbv zeta.
  do 3 (apply any_then; [first [apply any_if_good|idtac]; now apply any_call|intros ?]).
  destruct (negb _); [now apply yields_pure|]. apply any_then; [now apply any_call|]. intros r.
  apply any_then; [apply any_if_good; now apply any_call|]. intros sc. apply any_then; [apply any_if_good; apply any_arm|].
  intros sc'. now apply yields_pure.
Qed.

(** The whole address space. *)
Lemma yields_populate fx : yields (populate fx) (fun idx _ log => populated idx fx log).
Proof.
  unfold populate, populated.
  apply (yields_then _ _ _ (fun _ idx _ log => exists l_nodes l_hist l_events l_ticks l_fixed,
      log = l_nodes ++ l_hist ++ l_events ++ l_ticks ++ l_fixed /\ space idx (nodes fx) l_nodes /\ historian idx l_hist /\
      forallb extra_event l_events = true /\ scheduled idx (behaviors fx) l_ticks /\ fixed idx (behaviors fx) l_fixed) _ (yields_names (namespaces fx)));
    [intros _|intros idx u l1 v l2 Hn (a & b & c & d & e & -> & Hs); now exists l1, a, b, c, d, e].
  apply (yields_then _ _ _ (fun _ idx _ log => exists l_hist l_events l_ticks l_fixed,
      log = l_hist ++ l_events ++ l_ticks ++ l_fixed /\ historian idx l_hist /\
      forallb extra_event l_events = true /\ scheduled idx (behaviors fx) l_ticks /\ fixed idx (behaviors fx) l_fixed) _ (yields_nodes (nodes fx)));
    [intros _|intros idx u l1 v l2 Hn (b & c & d & e & -> & Hs); now exists l1, b, c, d, e].
  apply (yields_then _ _ _ (fun _ idx _ log => exists l_events l_ticks l_fixed, log = l_events ++ l_ticks ++ l_fixed /\
      forallb extra_event l_events = true /\ scheduled idx (behaviors fx) l_ticks /\ fixed idx (behaviors fx) l_fixed) _ yields_historian);
    [intros _|intros idx u l1 v l2 Hn (c & d & e & -> & Hs); now exists l1, c, d, e].
  apply (yields_then _ _ _ (fun _ idx _ log => exists l_events l_ticks l_fixed, log = l_events ++ l_ticks ++ l_fixed /\
      forallb extra_event l_events = true /\ scheduled idx (behaviors fx) l_ticks /\ fixed idx (behaviors fx) l_fixed) _ any_events);
    [intros _|intros idx u l1 v l2 Hl (c & d & e & -> & Hc & Hs); exists (l1 ++ c), d, e; rewrite forallb_app, Hl, Hc, <- app_assoc; auto].
  apply (yields_then _ _ _ (fun _ idx _ log => exists l_ticks l_fixed, log = l_ticks ++ l_fixed /\
      scheduled idx (behaviors fx) l_ticks /\ fixed idx (behaviors fx) l_fixed) _ any_alarms);
    [intros _|intros idx u l1 v l2 Hl (d & e & -> & Hs); now exists l1, d, e].
  apply (yields_then _ _ _ (fun _ idx _ log => fixed idx (behaviors fx) log) _ (yields_ticks (behaviors fx)));
    [intros _; apply yields_fixed|intros idx u l1 v l2 Ht Hf; now exists l1, l2].
Qed.
End Yields.

(** * The run *)

(** Before the address space is built: no server, no node, no start-up. *)
Definition calm_call {A} (c : scall A) : A -> bool :=
  match c in scall T return T -> bool with
  | NewWithConfig => negb
  | RunStartup | AddNamespace _ | AddObjectNode _ _ _ _ _ _ | AddVariableNode _ _ _ _ _ _ | AddMethodNode _ _ _ _ _ _ _ _
  | AddRepeatedCallback _ _ | WriteDataValue _ _ | SetConfig (HistoryDatabase _) => fun _ => false
  | _ => fun _ => true
  end.

Definition calm_event (e : event) : bool := match e with Ev c r => calm_call c r | _ => true end.

Definition calm (_ : unit) (e : event) : option unit := if calm_event e then Some tt else None.

(** Once the server starts: no call that a fixture describes. *)
Definition settled_call {A} (c : scall A) : bool :=
  match c with
  | NewWithConfig | RunStartup | AddNamespace _ | AddObjectNode _ _ _ _ _ _ | AddVariableNode _ _ _ _ _ _
  | AddMethodNode _ _ _ _ _ _ _ _ | AddObjectTypeNode _ _ _ _ _ | WriteValue _ _ | WriteDataValue _ _
  | SetConfig (HistoryDatabase _) | AddRepeatedCallback (BehaviorTick _ _) _ => false
  | _ => true
  end.
Definition settled_event (e : event) : bool := match e with Ev c _ => settled_call c | _ => true end.
Definition settled (_ : unit) (e : event) : option unit := if settled_event e then Some tt else None.

Lemma settled_path l p q : path settled p l = Some q -> forallb settled_event l = true.
Proof.
  revert p. induction l as [|e l IH]; intros p E; [reflexivity|]. cbn in *. unfold settled in E at 1.
  destruct (settled_event e); [apply (IH tt); exact E|discriminate E].
Qed.

Lemma calm_path l p q : path calm p l = Some q -> forallb calm_event l = true.
Proof.
  revert p. induction l as [|e l IH]; intros p E; [reflexivity|]. cbn in *. unfold calm in E at 1.
  destruct (calm_event e); [apply (IH tt); exact E|discriminate E].
Qed.

(** The log of a run that creates the server. *)
Definition builds {cpu : Cpu} {tz : LocalTime} (fx : Fixture) (log : list event) : Prop :=
  exists idx before describing space_ sc after,
    log = before ++ Ev NewWithConfig true :: describing ++ space_ ++ Ev InstallSignalHandlers tt :: Ev RunStartup sc :: after /\
    forallb calm_event before = true /\ forallb calm_event describing = true /\ populated idx fx space_ /\
    forallb settled_event after = true.

Section Run.
Context {stack : UaStack} {cj : CJson} {cpu : Cpu} {nid : NodeIdOps} {types : TypeTable} {len : CJsonLength} {tz : LocalTime}
  {W : Type} {H : ServerHost W} {laws : NamespaceLaws H} {ssl : OpenSsl W} {papi : PubSubApi W} {psrv : PubSubServer W}.

Lemma extends_part {A} (f : W * list entry -> W * list entry * A) : stays settled tt (pubsub_part f).
Proof.
  intros h. unfold pubsub_part. destruct (f (fst h, [])) as [[w calls] a]. exists (map PubSubCall calls), tt.
  split; [reflexivity|]. split; [|reflexivity]. induction calls as [|e calls IH]; [reflexivity|exact IH].
Qed.

Lemma extends_serve fuel : stays settled tt (serve (W := W) fuel).
Proof. induction fuel as [|fuel IH]; cbn [serve]; staying; exact IH. Qed.

Lemma extends_linger fuel t0 : stays settled tt (linger (W := W) fuel t0).
Proof. induction fuel as [|fuel IH]; cbn [linger]; staying; exact IH. Qed.

Lemma extends_apply policies opt : stays settled tt (apply_pubsub (W := W) policies opt).
Proof.
  unfold apply_pubsub. apply stays_then; [apply extends_part|]. intros r h.
  exists [PubSubApplied match r with Done _ => true | _ => false end], tt. auto.
Qed.

Lemma extends_run_started fuel args fx policies : stays settled tt (run_started (W := W) fuel args fx policies).
Proof.
  unfold run_started, announce, run_ready, write_ready_file_atomic, unlink_ready_file, unregister, stop_server, register_with_lds.
  staying; first [apply extends_part|apply extends_apply|apply extends_serve|apply extends_linger].
Qed.

Lemma calm_policy_endpoints name uri l : forall added, stays calm tt (add_policy_endpoints (W := W) name uri l added).
Proof. induction l as [|sp l IH]; intros added; cbn [add_policy_endpoints]; staying; apply IH. Qed.

Lemma calm_ecc_endpoints l fx dir : forall added, stays calm tt (add_ecc_endpoints (W := W) l fx dir added).
Proof. induction l as [|p l IH]; intros added; cbn [add_ecc_endpoints]; staying; first [apply IH|apply calm_policy_endpoints]. Qed.

(** Either no server is created, or its address space is that of the fixture. *)
Definition serves (fx : Fixture) (m : action W ending) : Prop := forall h,
  let '(h', out) := m h in exists l, snd h' = snd h ++ l /\
    ((out = Exit 1 /\ forallb calm_event l = true) \/ builds fx l).

Lemma serves_after {A} fx (m : action W A) k : stays calm tt m -> (forall a, serves fx (k a)) -> serves fx (andthen m k).
Proof.
  intros Hm Hk h. unfold andthen. specialize (Hm h). destruct (m h) as [h1 a]. destruct Hm as (l1 & q & L1 & P1 & _).
  apply calm_path in P1. specialize (Hk a h1). destruct (k a h1) as [h2 out]. destruct Hk as (l2 & L2 & Hs).
  exists (l1 ++ l2). split; [now rewrite L2, L1, app_assoc|]. destruct Hs as [[-> Hc]|(idx & b & d & s & sc & r & -> & Hb & Hd & Hp)].
  - left. now rewrite forallb_app, P1, Hc.
  - right. exists idx, (l1 ++ b), d, s, sc, r. rewrite forallb_app, P1, Hb, <- app_assoc. auto.
Qed.

Lemma serves_refused fx : serves fx (pure (Exit 1)).
Proof. intros h. exists []. rewrite app_nil_r. auto. Qed.

(** The steps from the description of the application to the start-up. *)
Lemma start_populates fx url (k : Z -> action W ending) h : (forall sc, stays settled tt (k sc)) ->
  let '(h', _) := (tell describe_application fx url; tell populate fx; tell do_call InstallSignalHandlers; ask sc <- do_call RunStartup; k sc) h in
  exists idx describing space_ sc after,
    snd h' = snd h ++ describing ++ space_ ++ Ev InstallSignalHandlers tt :: Ev RunStartup sc :: after /\
    forallb calm_event describing = true /\ populated idx fx space_ /\ forallb settled_event after = true.
Proof.
  intros Hk. unfold andthen at 1.
  assert (stays calm tt (describe_application (W := W) fx url)) as Hd by (unfold describe_application; staying).
  specialize (Hd h). destruct (describe_application fx url h) as [h1 u]. destruct Hd as (l1 & q & L1 & P1 & _). apply calm_path in P1.
  unfold andthen at 1. pose proof (yields_populate fx h1) as Hp. destruct (populate fx h1) as [h2 u2]. destruct Hp as (_ & l2 & L2 & Hp).
  specialize (Hp (fst h2) (later_world_refl _)). unfold andthen, do_call. destruct (perform _ (fst h2) InstallSignalHandlers) as [w3 []]. cbn [fst snd].
  destruct (perform _ w3 RunStartup) as [w4 sc]. specialize (Hk sc (w4, (snd h2 ++ [Ev InstallSignalHandlers tt]) ++ [Ev RunStartup sc])).
  destruct (k sc _) as [h5 out]. destruct Hk as (l5 & q5 & L5 & P5 & _). apply settled_path in P5. cbn [snd] in L5.
  exists (table (fst h2)), l1, l2, sc, l5. split; [|auto]. rewrite L5, L2, L1, <- !app_assoc. reflexivity.
Qed.

Lemma serves_start fuel args fx policies : serves fx (start_server (W := W) fuel args fx policies).
Proof.
  intros h. unfold start_server. unfold andthen at 1. unfold do_call at 1.
  destruct (perform _ (fst h) NewWithConfig) as [w1 created]. cbv beta iota. destruct created; cbn [negb].
  2:{ exists [Ev NewWithConfig false]. auto. }
  match goal with |- let '(_, _) := ?m ?h1 in _ => pose proof (fun k Hk => start_populates fx (adv_url args fx) k h1 Hk) as Hs end.
  specialize (Hs (fun sc => if negb (sc =? UA_STATUSCODE_GOOD) then tell do_call DeleteServer; pure (Exit 1)
                            else run_started fuel args fx policies)). cbn beta in Hs.
  destruct (andthen (describe_application fx (adv_url args fx)) _ _) as [h2 out].
  destruct Hs as (idx & d & s & sc & r & L & Hd & Hp); [intros sc; destruct (negb _); [staying|apply extends_run_started]|].
  cbn [snd] in L. exists (Ev NewWithConfig true :: d ++ s ++ Ev InstallSignalHandlers tt :: Ev RunStartup sc :: r).
  split; [rewrite L, <- app_assoc; reflexivity|]. right. exists idx, [], d, s, sc, r. auto.
Qed.

Lemma serves_fixture fuel args fx : serves fx (run_fixture (W := W) fuel args fx).
Proof.
  unfold run_fixture. apply serves_after; [unfold unlink_ready_file; staying|intros _].
  apply serves_after; [unfold configure_security; staying; apply calm_ecc_endpoints|]. intros []; cbn [negb]; [|apply serves_refused].
  apply serves_after; [staying|intros _]. apply serves_after; [unfold configure_users; staying|intros _].
  apply serves_after; [unfold configure_discovery; staying|intros _]. apply serves_after; [|intros policies; apply serves_start].
  intros h. unfold prepare_pubsub. destruct (pubsub_server_prepare_config (fst h) []) as [[w sc] l]. exists [], tt. rewrite app_nil_r. auto.
Qed.
End Run.


(** The reference host keeps its namespaces. *)
Lemma uri_index_app l r uri : registered l uri = true -> uri_index (l ++ r) uri = uri_index l uri.
Proof.
  induction l as [|u l IH]; cbn; [discriminate|]. destruct (streq u uri); [reflexivity|]. cbn. intros E. now rewrite IH.
Qed.

Lemma uri_index_new l uri : registered l uri = false -> uri_index (l ++ [uri]) uri = uri_index l uri.
Proof.
  induction l as [|u l IH]; cbn; [now rewrite streq_refl|]. destruct (streq u uri); [discriminate|]. cbn. intros E. now rewrite IH.
Qed.

Lemma registered_more l r uri : registered l uri = true -> registered (l ++ r) uri = true.
Proof. unfold registered. rewrite existsb_app. now intros ->. Qed.

#[export] Instance ref_namespaces : NamespaceLaws ref_host.
Proof.
  refine {| ns_of w uri := if registered (rw_uris w) uri then Some (uri_index (rw_uris w) uri) else None |}.
  - intros w uri. cbn -[registered uri_index]. destruct (registered (rw_uris w) uri) eqn:E; [now rewrite E|].
    unfold registered at 1. rewrite existsb_app. cbn [existsb]. rewrite streq_refl, orb_true_r.
    now rewrite uri_index_new.
  - intros A w c uri i E. destruct c; cbn -[registered uri_index]; try exact E. destruct (registered (rw_uris w) (default [] uri0)); [exact E|].
    destruct (registered (rw_uris w) uri) eqn:Er; [|discriminate E]. now rewrite registered_more, uri_index_app.
Defined.

