(* ===== verification/ServerSecurity.v ===== *)
(** The security a server offers: what [server_run] configures is what its
    arguments and the fixture ask for, and a server is only created with it. *)

From Stdlib Require Import String Ascii ZArith Bool List Lia SpecFloat.
Import ListNotations.
From S2P Require Import Prelude CLib Float UaTypes RefStack Base64 CJson Args NodeIds Historian Fixture ServerValues.
From S2P Require Import PubSubSecurity PubSubRecovery PubSubJson PubSubConfig PubSubSecured ServerWorld ServerSpace ServerRun RefHost.

(** * What is asked for *)

Definition mode_eqb (a b : security_mode) : bool :=
  match a, b with
  | ModeNone, ModeNone | ModeSign, ModeSign | ModeSignAndEncrypt, ModeSignAndEncrypt | ModeInvalid, ModeInvalid => true
  | _, _ => false
  end.

(** The fixture lists the policy. *)
Definition requested (fx : Fixture) (name : bytes) : bool := existsb (has_policy name) (securityProfiles fx).

(** The fixture lists the policy with the mode, which signs or encrypts. *)
Definition offers (fx : Fixture) (mode : security_mode) (name : bytes) : bool :=
  secure_mode mode && existsb (fun sp => has_policy name sp && mode_eqb (security_mode_from_name (snd sp)) mode) (securityProfiles fx).

(** The URI is that of one of the policies, and the policy is offered with the mode. *)
Definition offered (fx : Fixture) (accepted : list bytes) (uri : bytes) (mode : security_mode) : bool :=
  existsb (fun name => streq uri (policy_prefix ++ name) && offers fx mode name) accepted.

(** The directory of the certificate and the key of each elliptic-curve policy. *)
Definition ecc_curves : list (string * string) :=
  [("ECC_nistP256", "ecc-nistp256"); ("ECC_nistP384", "ecc-nistp384"); ("ECC_brainpoolP256r1", "ecc-brainpoolp256r1");
   ("ECC_brainpoolP384r1", "ecc-brainpoolp384r1"); ("ECC_curve25519", "ecc-curve25519"); ("ECC_curve448", "ecc-curve448");
   ("ECC_nistP256_AesGcm", "ecc-nistp256"); ("ECC_nistP256_ChaChaPoly", "ecc-nistp256")]%string.

Definition ecc_file (dir : bytes) (curve file : string) : bytes := snprintf 1100 (dir ++ B "/" ++ B curve ++ B "/" ++ B file).

Definition trust_dir (args : ServerArgs) : bytes :=
  snprintf 1024 (default (B "/run/opcua-interop/pki") (nonempty (pkiDir args)) ++ B "/trusted/certs").
Definition trust_file (args : ServerArgs) (name : bytes) : bytes := snprintf 1024 (trust_dir args ++ B "/" ++ name).

(** The files with certificates and keys. *)
Definition certificate_path (args : ServerArgs) (p : bytes) : Prop :=
  nonempty (srvCertFile args) = Some p \/ nonempty (srvKeyFile args) = Some p \/
  (exists dir curve file, nonempty (eccDir args) = Some dir /\ p = ecc_file dir curve file) \/
  (exists name, p = trust_file args name).

(** They are the same in every state of the host: nobody exchanges them during the run. *)
Class SteadyFiles {W : Type} (papi : PubSubApi W) (args : ServerArgs) := {
  content : bytes -> option bytes;
  listing : option (list bytes);
  steady_file : forall w p, certificate_path args p -> pubsub_file w p = content p;
  steady_dir : forall w, directory w (trust_dir args) = listing
}.

(** The state of the configuration: whether it is complete, the elliptic-curve
    policies the stack has accepted, the passwords that are valid ([None]: the default
    of the stack), whether they may cross an unencrypted channel, and whether the stack
    refused an access control, which the code only reports. *)
Record sec_state := {
  ss_ready : bool; ss_accepted : list bytes; ss_logins : option (list (bytes * bytes)); ss_plain : bool; ss_warned : bool }.

Definition sec_start : sec_state :=
  {| ss_ready := false; ss_accepted := []; ss_logins := None; ss_plain := false; ss_warned := false |}.

(** The default configuration of the stack, or its error. *)
Definition set_ready (sc : Z) : sec_state :=
  {| ss_ready := sc =? UA_STATUSCODE_GOOD; ss_accepted := []; ss_logins := None; ss_plain := false; ss_warned := false |}.

Definition logins_eq_dec (a b : list (bytes * bytes)) : {a = b} + {a <> b}.
Proof. repeat decide equality. Defined.

Definition certs_eq_dec (a b : list bytes) : {a = b} + {a <> b}.
Proof. repeat decide equality. Defined.

Section Secure.
Context {W : Type} {papi : PubSubApi W} (args : ServerArgs) {files : SteadyFiles papi args} (fx : Fixture).

Definition contents (p : option bytes) : bytes := match p with Some p => default [] (content p) | None => [] end.

(** The certificates of the trust directory that can be read and are not empty. *)
Definition trusted : list bytes :=
  flat_map (fun n => if is_cert_name n then match content (trust_file args n) with Some (c :: r) => [c :: r] | _ => [] end else [])
    (default [] listing).

(** The certificate and the key of the server: its own, or none. *)
Definition own_pair (cert key : bytes) : bool :=
  if have_rsa args
  then streq cert (contents (srvCertFile args)) && streq key (contents (srvKeyFile args))
       && negb (Nat.eqb (length cert) 0) && negb (Nat.eqb (length key) 0)
  else streq cert [] && streq key [].

(** The certificate and the key of the curve of a policy. *)
Definition curve_pair (name cert key : bytes) : bool :=
  match nonempty (eccDir args) with
  | Some dir => existsb (fun p => streq name (B (fst p)) && streq cert (contents (Some (ecc_file dir (snd p) "cert.crt")))
                                  && streq key (contents (Some (ecc_file dir (snd p) "cert.key")))) ecc_curves
  | None => false
  end.

(** The users of the fixture can log in, and nobody else, unless the stack refused
    them; without users no password crosses an unencrypted channel. *)
Definition users_known (s : sec_state) : bool :=
  match users fx with
  | [] => negb (ss_plain s)
  | l => ss_plain s && (ss_warned s || match ss_logins s with
                                       | Some logins => if logins_eq_dec logins (map login l) then true else false
                                       | None => false
                                       end)
  end.

(** [None]: a call the arguments and the fixture do not ask for.  With a certificate
    and a key of its own the server is configured with exactly these, not empty, and
    with the certificates of the trust directory; only listed policies are added, with
    the certificate and key of their curve, endpoints only for accepted policies in a
    listed mode that signs or encrypts; access is given to the users of the fixture (to
    none before them); and a server is created only from a complete configuration. *)
Definition secure_call {A} (s : sec_state) (c : scall A) : A -> option sec_state :=
  match c in scall T return T -> option sec_state with
  | SetDefaultConfig => fun sc => if have_rsa args || have_ecc args then None else Some (set_ready sc)
  | SetDefaultWithSecurityPolicies port cert key trust => fun sc =>
      if (port =? u16 (bind_port args fx)) && own_pair cert key && (if certs_eq_dec trust trusted then true else false)
      then Some (set_ready sc) else None
  | AddEccPolicy name cert key => fun sc =>
      if requested fx name && curve_pair name cert key then
        Some {| ss_ready := ss_ready s; ss_accepted := if sc =? UA_STATUSCODE_GOOD then name :: ss_accepted s else ss_accepted s;
                ss_logins := ss_logins s; ss_plain := ss_plain s; ss_warned := ss_warned s |}
      else None
  | AddEndpoint uri mode => fun _ => if offered fx (ss_accepted s) uri mode then Some s else None
  | AccessControl allowAnonymous logins => fun sc =>
      if allowAnonymous && (match logins with [] => true | _ => if logins_eq_dec logins (map login (users fx)) then true else false end) then
        let ok := sc =? UA_STATUSCODE_GOOD in
        Some {| ss_ready := ss_ready s; ss_accepted := ss_accepted s; ss_logins := if ok then Some logins else None;
                ss_plain := ss_plain s; ss_warned := negb ok |}
      else None
  | SetConfig AllowNonePolicyPassword => fun _ =>
      Some {| ss_ready := ss_ready s; ss_accepted := ss_accepted s; ss_logins := ss_logins s; ss_plain := true; ss_warned := ss_warned s |}
  | NewWithConfig => fun _ => if ss_ready s && users_known s then Some s else None
  | _ => fun _ => Some s
  end.

Definition secure (s : sec_state) (e : event) : option sec_state :=
  match e with Ev c r => secure_call s c r | _ => Some s end.
End Secure.
Arguments secure {W papi} args {files} fx s e.

(** * Lemmas *)

Section Lemmas.
Context {stack : UaStack} {cj : CJson} {cpu : Cpu} {nid : NodeIdOps} {types : TypeTable} {len : CJsonLength} {tz : LocalTime}
  {W : Type} {H : ServerHost W} {ssl : OpenSsl W} {papi : PubSubApi W} {psrv : PubSubServer W}.
Context (args : ServerArgs) {files : SteadyFiles papi args} (fx : Fixture).

Abbreviation secure_ := (secure args fx).

(** ** The files *)

Lemma load_contents (w : W) p q : nonempty p = Some q -> certificate_path args q -> load_cert_file w p = contents args p.
Proof.
  intros E Hc. assert (p = Some q) as -> by (destruct p as [[|c p]|]; cbn [nonempty] in E; congruence).
  unfold load_cert_file, contents. now rewrite E, (steady_file w q Hc).
Qed.

Lemma nonempty_some p q : nonempty p = Some q -> q <> [].
Proof. destruct p as [[|c p]|]; cbn [nonempty]; congruence. Qed.

Lemma nonempty_cons c (r : bytes) : nonempty (Some (c :: r)) = Some (c :: r).
Proof. reflexivity. Qed.

Lemma load_trusted (w : W) : load_trust_dir w (trust_dir args) = trusted args.
Proof.
  assert (exists c r, trust_dir args = c :: r) as (c & r & Ed).
  { unfold trust_dir. destruct (nonempty (pkiDir args)) as [d|] eqn:E; [|eexists _, _; reflexivity].
    apply nonempty_some in E. destruct d as [|c d]; [congruence|]. eexists _, _. reflexivity. }
  unfold load_trust_dir, trusted. rewrite Ed, <- Ed, (steady_dir w). destruct listing as [names|]; [|reflexivity]. cbn [default].
  induction names as [|n names IH]; [reflexivity|]. cbn [filter flat_map]. destruct (is_cert_name n); cbn [map filter app]; [|exact IH].
  assert (load_cert_file w (Some (snprintf 1024 (trust_dir args ++ B "/" ++ n))) = contents args (Some (trust_file args n))) as El.
  { apply (load_contents w _ (trust_file args n)); [|right; right; right; now exists n]. unfold trust_file. rewrite Ed. reflexivity. }
  rewrite El, IH. unfold contents. destruct (content (trust_file args n)) as [[|x l]|]; reflexivity.
Qed.

Lemma secure_resolve s str : stays secure_ s (resolve (W := W) str).
Proof. unfold resolve, ns_index_for_uri. staying. Qed.

Lemma secure_node s nd : stays secure_ s (add_node (W := W) nd).
Proof. unfold add_node, type_definition, set_eu_range. staying; apply secure_resolve. Qed.

Lemma secure_populate s : stays secure_ s (populate (W := W) fx).
Proof.
  unfold populate, add_namespaces, add_nodes, install_historian, schedule_events, interop_add_event_type, interop_add_alarms,
    ns_index_for_uri, if_good, alarm_arm, alarm_is_enabled, or_status, alarm_set_id, register_behavior, apply_fixed_status.
  staying; solve [apply secure_resolve|apply secure_node].
Qed.

Lemma secure_part {A} s (f : W * list entry -> W * list entry * A) : stays secure_ s (pubsub_part f).
Proof.
  intros h. unfold pubsub_part. destruct (f (fst h, [])) as [[w calls] a]. exists (map PubSubCall calls), s.
  split; [reflexivity|]. split; [|reflexivity]. induction calls as [|e l IH]; [reflexivity|exact IH].
Qed.

Lemma secure_serve s fuel : stays secure_ s (serve (W := W) fuel).
Proof. induction fuel as [|fuel IH]; cbn [serve]; staying; exact IH. Qed.

Lemma secure_linger s fuel t0 : stays secure_ s (linger (W := W) fuel t0).
Proof. induction fuel as [|fuel IH]; cbn [linger]; staying; exact IH. Qed.

Lemma secure_run_started s fuel policies : stays secure_ s (run_started (W := W) fuel args fx policies).
Proof.
  unfold run_started, announce, run_ready, write_ready_file_atomic, unlink_ready_file, unregister, stop_server, register_with_lds, apply_pubsub.
  staying; first [apply secure_part|apply secure_serve|apply secure_linger|idtac].
  intros h. eexists _, s. split; [reflexivity|]. now split.
Qed.

(** What the endpoints of a policy change: nothing. *)
Lemma secure_endpoints s name l : In name (ss_accepted s) -> (length (policy_prefix ++ name) < 128)%nat ->
  (forall sp, In sp l -> In sp (securityProfiles fx)) -> forall added,
  stays secure_ s (add_policy_endpoints (W := W) name (snprintf 128 (policy_prefix ++ name)) l added).
Proof.
  intros Hin Hlen. induction l as [|sp l IH]; intros Hl added; cbn [add_policy_endpoints]; [staying|]. cbv zeta.
  assert (forall added, stays secure_ s (add_policy_endpoints (W := W) name (snprintf 128 (policy_prefix ++ name)) l added)) as IH'
    by (apply IH; intros x Hx; apply Hl; now right).
  destruct (has_policy name sp) eqn:Ep; [|apply IH']. cbn [negb orb].
  destruct (match security_mode_from_name (snd sp) with ModeNone => true | _ => false end) eqn:Em; [apply IH'|].
  apply stays_then; [|intros sc; apply IH']. apply stays_call. intros r. cbn [secure secure_call].
  assert (offered fx (ss_accepted s) (snprintf 128 (policy_prefix ++ name)) (security_mode_from_name (snd sp)) = true) as ->; [|reflexivity].
  apply existsb_exists. exists name. split; [exact Hin|]. unfold snprintf. rewrite firstn_all2 by lia. rewrite streq_refl.
  unfold offers. cbn [andb]. apply andb_true_intro. split.
  - destruct (security_mode_from_name (snd sp)) eqn:E; try reflexivity; [discriminate Em|]. unfold security_mode_from_name in E.
    destruct (snd sp) as [m|]; [|discriminate E]. now destruct (streq m (B "Sign")), (streq m (B "SignAndEncrypt")).
  - apply existsb_exists. exists sp. split; [apply Hl; now left|]. rewrite Ep. now destruct (security_mode_from_name (snd sp)).
Qed.

(** The policies and endpoints leave everything else as it is. *)
Definition as_ready (s q : sec_state) : Prop := ss_ready q = ss_ready s /\ ss_plain q = ss_plain s.

(** The policies of the code are those of the table. *)
Definition known_curve (p : bytes * bytes) : Prop :=
  (length (policy_prefix ++ fst p) < 128)%nat /\ exists q, In q ecc_curves /\ p = (B (fst q), B (snd q)).

Lemma curve_files dir name curve (w w' : W) : nonempty (eccDir args) = Some dir -> known_curve (name, curve) ->
  curve_pair args name (load_cert_file w (Some (snprintf 1100 (dir ++ B "/" ++ curve ++ B "/cert.crt"))))
    (load_cert_file w' (Some (snprintf 1100 (dir ++ B "/" ++ curve ++ B "/cert.key")))) = true.
Proof.
  intros Ed [_ ([n c] & Hq & [= -> ->])]. unfold curve_pair. rewrite Ed. apply existsb_exists. exists (n, c). split; [exact Hq|]. cbn [fst snd].
  assert (forall (w : W) file, load_cert_file w (Some (ecc_file dir c file)) = contents args (Some (ecc_file dir c file))) as Hl.
  { intros w0 file. apply (load_contents w0 _ (ecc_file dir c file)); [|right; right; left; eauto]. unfold ecc_file.
    apply nonempty_some in Ed. destruct dir as [|x dir]; [congruence|reflexivity]. }
  change (B "/cert.crt") with (B "/" ++ B "cert.crt"). change (B "/cert.key") with (B "/" ++ B "cert.key").
  change (snprintf 1100 (dir ++ B "/" ++ B c ++ B "/" ++ B "cert.crt")) with (ecc_file dir c "cert.crt").
  change (snprintf 1100 (dir ++ B "/" ++ B c ++ B "/" ++ B "cert.key")) with (ecc_file dir c "cert.key").
  now rewrite !Hl, !streq_refl.
Qed.

(** What was looked up holds of the calls that follow. *)
Lemma moves_looked {A C} s (f : W -> A) (k : A -> action W C) R :
  (forall w, moves secure_ s (k (f w)) R) -> moves secure_ s (andthen (look f) k) R.
Proof. intros Hk [w l]. unfold andthen, look. cbn [fst]. exact (Hk w (w, l)). Qed.

Lemma secure_ecc dir l : nonempty (eccDir args) = Some dir -> Forall known_curve l -> forall s added,
  moves secure_ s (add_ecc_endpoints (W := W) l fx dir added) (fun _ q => as_ready s q).
Proof.
  intros Ed Hl. induction Hl as [|[name curve] l Hn Hl IH]; intros s added; cbn [add_ecc_endpoints]; [now apply moves_pure|].
  destruct (existsb (has_policy name) (securityProfiles fx)) eqn:Er; cbn [negb]; [|apply IH]. cbv zeta.
  apply moves_after; [staying|]. intros there. destruct there; cbn [negb]; [|apply IH].
  apply moves_looked. intros w1. apply moves_looked. intros w2. eapply moves_then.
  { apply moves_call with (Q := fun (sc : Z) q => as_ready s q /\ (sc = UA_STATUSCODE_GOOD -> In name (ss_accepted q))).
    intros sc. cbn [secure secure_call]. unfold requested. rewrite Er, (curve_files dir name curve w1 w2 Ed Hn).
    eexists. split; [reflexivity|]. split; [now split|]. intros ->. now left. }
  cbn beta. intros sc q [Hq Hin]. destruct (Z.eqb_spec sc UA_STATUSCODE_GOOD) as [Hsc|Hsc]; cbn [negb].
  - apply moves_after; [apply secure_endpoints; auto; apply Hn|]. intros n. eapply moves_weaken; [apply IH|]. cbn beta. unfold as_ready in *. intuition congruence.
  - eapply moves_weaken; [apply IH|]. cbn beta. unfold as_ready in *. intuition congruence.
Qed.

Lemma ecc_names : Forall known_curve g_eccPolicies.
Proof.
  change g_eccPolicies with (map (fun q => (B (fst q), B (snd q))) ecc_curves). apply Forall_map, Forall_forall. intros q Hq.
  split; [|now exists q]. repeat (destruct Hq as [<-|Hq]; [vm_compute; lia|]). destruct Hq.
Qed.

Definition prepared (ok : bool) (q : sec_state) : Prop := ok = true -> ss_ready q = true /\ ss_plain q = false.

(** The certificate and the key the server is configured with. *)
Lemma own_files (w w' : W) :
  let cert := if have_rsa args then load_cert_file w (srvCertFile args) else [] in
  let key := if have_rsa args then load_cert_file w' (srvKeyFile args) else [] in
  have_rsa args && (Nat.eqb (length cert) 0 || Nat.eqb (length key) 0) = false -> own_pair args cert key = true.
Proof.
  cbv zeta. unfold own_pair. destruct (have_rsa args) eqn:Er; [|reflexivity]. cbn [andb]. intros E. apply orb_false_elim in E as [E1 E2].
  unfold have_rsa in Er. apply andb_prop in Er as [Ec Ek].
  destruct (nonempty (srvCertFile args)) as [c|] eqn:Hc; [|discriminate Ec]. destruct (nonempty (srvKeyFile args)) as [k|] eqn:Hk; [|discriminate Ek].
  rewrite E1, E2, (load_contents w _ c Hc) by now left. rewrite (load_contents w' _ k Hk) by (right; now left). now rewrite !streq_refl.
Qed.

Lemma secure_security : moves secure_ sec_start (configure_security (W := W) args fx) prepared.
Proof.
  unfold configure_security. destruct (have_rsa args || have_ecc args) eqn:Eu.
  - apply moves_looked. intros w1. apply moves_looked. intros w2. pose proof (own_files w1 w2) as Hown. cbv zeta in Hown.
    set (cert := if have_rsa args then load_cert_file w1 (srvCertFile args) else []) in *.
    set (key := if have_rsa args then load_cert_file w2 (srvKeyFile args) else []) in *.
    destruct (have_rsa args && _) eqn:Er; [apply moves_pure; discriminate|]. apply moves_looked. intros w3.
    change (snprintf 1024 (default default_pki (nonempty (pkiDir args)) ++ B "/trusted/certs")) with (trust_dir args). rewrite load_trusted.
    eapply moves_then.
    { apply moves_call with (Q := fun (sc : Z) q => q = set_ready sc). intros sc. cbn [secure secure_call].
      rewrite Z.eqb_refl, (Hown eq_refl). destruct (certs_eq_dec _ _) as [_|Hne]; [|now elim Hne]. cbn [andb]. eauto. }
    cbn beta. intros sc q ->. destruct (sc =? UA_STATUSCODE_GOOD) eqn:Es; cbn [negb]; [|apply moves_pure; discriminate].
    eapply moves_then with (Q := fun _ q => as_ready (set_ready sc) q).
    + destruct (nonempty (eccDir args)) as [dir|] eqn:Ed; [|now apply moves_pure]. eapply moves_then; [apply secure_ecc; [exact Ed|apply ecc_names]|].
      cbn beta. intros n q Hq. eapply moves_then; [apply moves_call with (Q := fun _ r => as_ready q r); intros r; eexists; now split|].
      cbn beta. intros r q' Hq'. apply moves_pure. unfold as_ready in *. intuition congruence.
    + cbn beta. intros u q [H1 H2]. apply moves_pure. intros _. cbn in H1, H2. now rewrite H1, H2.
  - eapply moves_then.
    { apply moves_call with (Q := fun (sc : Z) q => q = set_ready sc). intros sc. cbn [secure secure_call]. rewrite Eu. eauto. }
    cbn beta. intros sc q ->. apply moves_pure. intros Hs. now split.
Qed.

Lemma secure_users s : ss_ready s = true -> ss_plain s = false ->
  moves secure_ s (configure_users (W := W) fx) (fun _ q => ss_ready q && users_known fx q = true).
Proof.
  intros Hr Hp. unfold configure_users. destruct (users fx) as [|u l] eqn:Eu.
  { apply moves_pure. unfold users_known. now rewrite Eu, Hr, Hp. }
  eapply moves_then; [apply moves_call with (Q := fun _ q => ss_ready q = true /\ ss_plain q = true); intros r; eexists; now repeat split|].
  cbn beta. intros _ q [Hr1 Hp1]. eapply moves_then.
  { apply moves_call with (Q := fun (sc : Z) q => ss_ready q = true /\ ss_plain q = true /\ ss_warned q = negb (sc =? UA_STATUSCODE_GOOD) /\
      ss_logins q = if sc =? UA_STATUSCODE_GOOD then Some (map login (u :: l)) else None).
    intros r. cbn [secure secure_call map andb]. rewrite Eu. cbn [map]. destruct (logins_eq_dec _ _) as [_|Hne]; [|now elim Hne].
    eexists. split; [reflexivity|]. now repeat split. }
  cbn beta. intros sc q' (Hr2 & Hp2 & Hw & Hl). apply moves_pure. unfold users_known. rewrite Eu, Hr2, Hp2, Hw, Hl.
  destruct (sc =? UA_STATUSCODE_GOOD); [|reflexivity]. cbn [negb orb]. now destruct (logins_eq_dec _ _).
Qed.

Lemma secure_fixture fuel : moves secure_ sec_start (run_fixture (W := W) fuel args fx) (fun _ _ => True).
Proof.
  unfold run_fixture. apply moves_after; [unfold unlink_ready_file; staying|]. intros _.
  eapply moves_then; [apply secure_security|]. intros ok q Hq. destruct ok; cbn [negb]; [|now apply moves_pure].
  destruct (Hq eq_refl) as [Hr Hp]. apply moves_after; [staying|]. intros _. eapply moves_then; [now apply secure_users|].
  cbn beta. intros _ s Hs. apply moves_after; [unfold configure_discovery; staying|]. intros _.
  apply moves_after; [intros h; unfold prepare_pubsub; destruct (pubsub_server_prepare_config (fst h) []) as [[w sc] l];
    exists [], s; rewrite app_nil_r; auto|].
  intros policies. eapply moves_weaken with (Q := fun _ q => q = s); [|auto]. change (stays secure_ s (start_server (W := W) fuel args fx policies)).
  unfold start_server. apply stays_then; [apply stays_call; intros r; cbn [secure secure_call]; now rewrite Hs|].
  intros created. destruct created; cbn [negb]; [|staying]. apply stays_then; [unfold describe_application; staying|]. intros _.
  apply stays_then; [apply secure_populate|]. intros _. staying. apply secure_run_started.
Qed.
End Lemmas.


(** The files of the reference host never change. *)
#[export] Instance ref_steady : SteadyFiles ref_papi ref_args.
Proof.
  refine {| content := pubsub_file ref_initial; listing := directory ref_initial (trust_dir ref_args) |}; reflexivity.
Defined.

