(* ===== verification/ServerAlarm.v ===== *)
(** The alarm of the server: what [alarm_arm], at start-up and behind the method
    Alarms.Reset, leaves in the condition. *)

From Stdlib Require Import String Ascii ZArith Bool List Lia SpecFloat.
Import ListNotations.
From S2P Require Import Prelude CLib Float UaTypes RefStack NodeIds ServerValues ServerWorld ServerSpace RefHost.

(** The fields of the condition as far as they are known; [None]: not known. *)
Record alarm := {
  al_enabled : option bool; al_active : option bool; al_acked : option bool; al_confirmed : option bool;
  al_retain : option bool; al_severity : option Z; al_message : option bytes; al_fired : bool }.

(** Nothing is known, as after an Acknowledge or a Disable of a client. *)
Definition al_unknown : alarm :=
  {| al_enabled := None; al_active := None; al_acked := None; al_confirmed := None; al_retain := None; al_severity := None;
     al_message := None; al_fired := false |}.

(** Enabled, active, neither acknowledged nor confirmed, retained, and the event out. *)
Definition armed (a : alarm) : Prop :=
  al_enabled a = Some true /\ al_active a = Some true /\ al_acked a = Some false /\ al_confirmed a = Some false /\
  al_retain a = Some true /\ al_severity a = Some 500 /\ al_message a = Some (B "interop-alarm") /\ al_fired a = true.

Section Condition.
Context (condition source : ua_nodeid).

(** A write to the [Id] of a two-state field.  The stack writes a message of its own
    when the active state changes. *)
Definition set_field (a : alarm) (field : bytes) (v : option bool) : alarm :=
  if streq field (B "EnabledState") then
    {| al_enabled := v; al_active := al_active a; al_acked := al_acked a; al_confirmed := al_confirmed a; al_retain := al_retain a;
       al_severity := al_severity a; al_message := al_message a; al_fired := false |}
  else if streq field (B "ActiveState") then
    {| al_enabled := al_enabled a; al_active := v; al_acked := al_acked a; al_confirmed := al_confirmed a; al_retain := al_retain a;
       al_severity := al_severity a; al_message := None; al_fired := false |}
  else if streq field (B "AckedState") then
    {| al_enabled := al_enabled a; al_active := al_active a; al_acked := v; al_confirmed := al_confirmed a; al_retain := al_retain a;
       al_severity := al_severity a; al_message := al_message a; al_fired := false |}
  else if streq field (B "ConfirmedState") then
    {| al_enabled := al_enabled a; al_active := al_active a; al_acked := al_acked a; al_confirmed := v; al_retain := al_retain a;
       al_severity := al_severity a; al_message := al_message a; al_fired := false |}
  else al_unknown.

(** A write to a field; a new severity makes the stack write a message, too. *)
Definition set_value (a : alarm) (field : bytes) (v : ua_variant) : alarm :=
  if streq field (B "Retain") then
    {| al_enabled := al_enabled a; al_active := al_active a; al_acked := al_acked a; al_confirmed := al_confirmed a;
       al_retain := match v with VtScalar (VBoolean b) => Some b | _ => None end;
       al_severity := al_severity a; al_message := al_message a; al_fired := false |}
  else if streq field (B "Severity") then
    {| al_enabled := al_enabled a; al_active := al_active a; al_acked := al_acked a; al_confirmed := al_confirmed a; al_retain := al_retain a;
       al_severity := match v with VtScalar (VUInt16 n) => Some n | _ => None end; al_message := None; al_fired := false |}
  else if streq field (B "Message") then
    {| al_enabled := al_enabled a; al_active := al_active a; al_acked := al_acked a; al_confirmed := al_confirmed a; al_retain := al_retain a;
       al_severity := al_severity a; al_message := match v with VtScalar (VLocalizedText _ t) => t | _ => None end; al_fired := false |}
  else al_unknown.

Definition fire (a : alarm) : alarm :=
  {| al_enabled := al_enabled a; al_active := al_active a; al_acked := al_acked a; al_confirmed := al_confirmed a; al_retain := al_retain a;
     al_severity := al_severity a; al_message := al_message a; al_fired := true |}.

(** What a call tells about the condition: the target of the path EnabledState/Id is
    read with its value, a failed write leaves nothing known. *)
Definition alarm_call {A} (a : alarm) (c : scall A) : A -> alarm :=
  match c in scall T return T -> alarm with
  | ReadValue _ => fun r => match r with
                            | (sc, VtScalar (VBoolean b)) => if sc =? UA_STATUSCODE_GOOD then set_field a (B "EnabledState") (Some b) else a
                            | _ => a
                            end
  | SetConditionFieldProperty n (VtScalar (VBoolean b)) (_, field) (_, property) => fun sc =>
      if (sc =? UA_STATUSCODE_GOOD) && (if nodeid_eq_dec n condition then true else false) && streq property (B "Id")
      then set_field a field (Some b) else al_unknown
  | SetConditionField n v (_, field) => fun sc =>
      if (sc =? UA_STATUSCODE_GOOD) && (if nodeid_eq_dec n condition then true else false) then set_value a field v else al_unknown
  | TriggerConditionEvent n s => fun sc =>
      if (sc =? UA_STATUSCODE_GOOD) && (if nodeid_eq_dec n condition then true else false) && (if nodeid_eq_dec s source then true else false)
      then fire a else al_unknown
  | _ => fun _ => a
  end.

Definition alarm_step (a : alarm) (e : event) : option alarm :=
  match e with Ev c r => Some (alarm_call a c r) | _ => Some a end.
End Condition.

Section Arm.
Context {W : Type} {H : ServerHost W} (condition source : ua_nodeid).

Abbreviation step_ := (alarm_step condition source).

Lemma moves_or p sc c (Q : Z -> alarm -> Prop) : (forall r, Q (Z.lor sc r) (alarm_call condition source p c r)) ->
  moves step_ p (or_status (W := W) sc (do_call c)) Q.
Proof.
  intros HQ. unfold or_status. eapply moves_then.
  { apply moves_call with (Q := fun r q => q = alarm_call condition source p c r). intros r. eexists. split; reflexivity. }
  cbn beta. intros r q ->. apply moves_pure. apply HQ.
Qed.

(** A status that is Good together with the ones before it. *)
Lemma or_good (P : alarm -> Prop) sc r q : (sc = UA_STATUSCODE_GOOD -> r = UA_STATUSCODE_GOOD -> P q) ->
  Z.lor sc r = UA_STATUSCODE_GOOD -> P q.
Proof. intros HP E. apply Z.lor_eq_0_iff in E as [E1 E2]. now apply HP. Qed.

Lemma same n : (if nodeid_eq_dec n n then true else false) = true.
Proof. destruct (nodeid_eq_dec n n) as [|Hn]; [reflexivity|now elim Hn]. Qed.

Lemma enabled_known p : moves step_ p (alarm_is_enabled (W := W) condition) (fun b q => b = true -> al_enabled q = Some true).
Proof.
  unfold alarm_is_enabled. eapply moves_then.
  { apply moves_call with (Q := fun _ q => True). intros r. eexists. split; reflexivity. }
  cbn beta. intros [sc [|t ts]] q _; [now apply moves_pure|]. destruct (sc =? UA_STATUSCODE_GOOD); [|now apply moves_pure].
  eapply moves_then.
  { apply moves_call with (Q := fun r q => match r with
                                           | (rsc, VtScalar (VBoolean b)) => (rsc =? UA_STATUSCODE_GOOD) && b
                                           | _ => false
                                           end = true -> al_enabled q = Some true).
    intros [rsc v]. eexists. split; [reflexivity|]. destruct v as [|[]|]; try discriminate. cbn [alarm_call].
    destruct (rsc =? UA_STATUSCODE_GOOD); [|discriminate]. cbn [andb]. now intros ->. }
  cbn beta. intros r s Hs. apply moves_pure. exact Hs.
Qed.

(** [moves_or] for a step of a chain: the state is the one the call leaves. *)
Lemma moves_or_then {C} p sc c (k : Z -> action W C) R :
  (forall r, moves step_ (alarm_call condition source p c r) (k (Z.lor sc r)) R) ->
  moves step_ p (andthen (or_status sc (do_call c)) k) R.
Proof.
  intros Hk. eapply moves_then with (Q := fun x q => exists r, x = Z.lor sc r /\ q = alarm_call condition source p c r).
  - apply moves_or. intros r. now exists r.
  - cbn beta. intros x q (r & -> & ->). apply Hk.
Qed.

Lemma arm_chain p sc0 : (sc0 = UA_STATUSCODE_GOOD -> al_enabled p = Some true) ->
  moves step_ p
    (ask sc <- or_status sc0 (do_call (SetConditionField condition (boolean true) (0, B "Retain")));
     ask sc <- or_status sc (do_call (SetConditionField condition (VtScalar (VUInt16 500)) (0, B "Severity")));
     ask sc <- or_status sc (alarm_set_id condition "AckedState" false);
     ask sc <- or_status sc (alarm_set_id condition "ConfirmedState" false);
     ask sc <- or_status sc (alarm_set_id condition "ActiveState" false);
     ask sc <- or_status sc (alarm_set_id condition "ActiveState" true);
     ask now <- do_call DateTimeNow;
     ask sc <- or_status sc (do_call (WriteObjectProperty condition (0, B "Time") (VtScalar (VDateTime now))));
     ask sc <- or_status sc (do_call (SetConditionField condition
                (VtScalar (VLocalizedText (Some (B "en")) (Some (B "interop-alarm")))) (0, B "Message")));
     or_status (W := W) sc (do_call (TriggerConditionEvent condition source)))
    (fun sc q => sc = UA_STATUSCODE_GOOD -> armed q).
Proof.
  intros He. unfold alarm_set_id. do 6 (apply moves_or_then; intros ?).
  apply moves_after; [now apply stays_call|]. intros now.
  do 2 (apply moves_or_then; intros ?). apply moves_or. intros ?.
  intros E. repeat match goal with E : Z.lor _ _ = _ |- _ => apply Z.lor_eq_0_iff in E as [? ?] end. subst.
  cbn [alarm_call boolean]. rewrite !same. repeat split; try reflexivity. now apply He.
Qed.

(** Whatever was known of the condition, [alarm_arm] that returns Good leaves it
    enabled, active, unacknowledged, unconfirmed and retained, with severity 500, its
    own message (which later writes to the severity or the active state would have
    replaced), and its event fired last. *)
Lemma alarm_rearmed p : moves step_ p (alarm_arm (W := W) source condition) (fun sc q => sc = UA_STATUSCODE_GOOD -> armed q).
Proof.
  unfold alarm_arm. eapply moves_then; [apply enabled_known|]. cbn beta. intros enabled q Hq.
  eapply moves_then with (Q := fun sc s => sc = UA_STATUSCODE_GOOD -> al_enabled s = Some true).
  - destruct enabled; [apply moves_pure; auto|]. apply moves_or. intros r.
    apply (or_good (fun q => al_enabled q = Some true)). intros _ ->. cbn [alarm_call boolean]. now rewrite same.
  - cbn beta. intros sc s Hs. now apply arm_chain.
Qed.
End Arm.
