(* ===== verification/Program.v ===== *)
(** main.c: the whole program, from its command line to its exit code, with the
    subcommands `validate-fixture` and `test`. *)

From Stdlib Require Import String Ascii ZArith Bool List Lia SpecFloat.
Import ListNotations.
From S2P Require Import Prelude CLib Json Float UaTypes RefStack Base64 CJson Values Args Capabilities NodeIds Session Historian HistoryRead HistoryEvents.
From S2P Require Import Codec PubSubJson JsonTree PubSubCodec Client Fixture ServerValues.
From S2P Require Import PubSubSecurity PubSubRecovery PubSubConfig PubSubSecured ServerWorld ServerSpace ServerRun RefHost.

(** * test *)

Definition is_good_select (path : string) (check : simple_attribute_operand -> bool) : bool :=
  match hev_parse_select (Some (B path)) with Some op => check op | None => false end.

Definition segment (i : nat) (op : simple_attribute_operand) : Z * bytes := nth i (browsePath op) (-1, []).

Definition numeric (n : ua_nodeid) : Z := match identifier n with IdNumeric i => i | _ => -1 end.

Definition operator_is (o : filter_operator) (e : filter_element) : bool :=
  match filterOperator e, o with
  | OpAnd, OpAnd | OpOfType, OpOfType | OpGreaterThanOrEqual, OpGreaterThanOrEqual => true
  | _, _ => false
  end.

Definition t2130 : ua_nodeid := UA_NODEID_NUMERIC 0 2130.

(** The document of the test, and a value of a type there is not. *)
Definition selftest_text : bytes := J "{'EventId':{'type':'ByteString','value':'aGlzdC1ldnQtMA=='},'Time':{'type':'DateTime','value':'2026-07-24T10:00:00Z'},'Severity':{'type':'UInt16','value':700},'Message':{'type':'LocalizedText','value':{'text':'x'}},'EventType':{'type':'NodeId','value':'i=2041'},'SourceName':'src','Nothing':null}".
Definition bogus_text : bytes := J "{'type':'Bogus','value':1}".

Section SelfTest.
Context {stack : UaStack} {cj : CJson} {cpu : Cpu}.

Definition event_value_is (j : option cjson) (check : ua_variant -> bool) : bool :=
  match j with
  | Some j => match hev_event_value 256 j with Some (Ok v) => check v | _ => false end
  | None => false
  end.

Definition select_tests : list bool :=
  [is_good_select "EventId" (fun op => Nat.eqb (length (browsePath op)) 1 && (fst (segment 0 op) =? 0) && streq (snd (segment 0 op)) (B "EventId")
     && (numeric (typeDefinitionId op) =? HistoryEvents.UA_NS0ID_BASEEVENTTYPE) && (attributeId op =? UA_ATTRIBUTEID_VALUE));
   is_good_select "AckedState/2:Id" (fun op => Nat.eqb (length (browsePath op)) 2 && (fst (segment 1 op) =? 2)
     && streq (snd (segment 1 op)) (B "Id") && streq (snd (segment 0 op)) (B "AckedState"));
   is_good_select "a:b" (fun op => (fst (segment 0 op) =? 0) && Nat.eqb (length (snd (segment 0 op))) 3);
   negb (is_some (hev_parse_select (Some (B "A//B"))));
   negb (is_some (hev_parse_select (Some [])))].

Definition timestamps_are (s : option bytes) (ts : Z) : bool :=
  match hev_parse_timestamps s with Some t => t =? ts | None => false end.

Definition perform_is (s : string) (check : perform_update -> bool -> bool) : bool :=
  match hev_parse_perform (Some (B s)) with Some (p, del) => check p del | None => false end.

Definition name_tests : list bool :=
  [timestamps_are (Some (B "Neither")) TS_NEITHER; timestamps_are (Some (B "source")) TS_SOURCE; timestamps_are None TS_BOTH;
   negb (is_some (hev_parse_timestamps (Some (B "x"))));
   perform_is "Insert" (fun p del => match p with PerformInsert => negb del | _ => false end);
   perform_is "update" (fun p _ => match p with PerformUpdate => true | _ => false end);
   perform_is "delete" (fun _ del => del);
   negb (is_some (hev_parse_perform (Some (B "upsert"))))].

Definition where_tests : list bool :=
  [Nat.eqb (length (hev_build_where None None)) 0;
   match hev_build_where (Some t2130) None with [e] => operator_is OpOfType e | _ => false end;
   match hev_build_where (Some t2130) (Some 300) with
   | [a; b; c] => operator_is OpAnd a && operator_is OpOfType b && operator_is OpGreaterThanOrEqual c
   | _ => false
   end;
   match hev_build_where (Some t2130) (Some 300) with
   | [a; _; c] =>
       match filterOperands a, filterOperands c with
       | ElementOperand i :: ElementOperand j :: _, _ :: LiteralOperand (VtScalar (VUInt16 n)) :: _ => (i =? 1) && (j =? 2) && (n =? 300)
       | _, _ => false
       end
   | _ => true
   end].

Definition value_tests : list bool :=
  let j := cJSON_Parse selftest_text in
  let item (k : string) := match j with Some j => cJSON_GetObjectItem j (B k) | None => None end in
  [is_some j;
   event_value_is (item "EventId"%string) (fun v => match v with VtScalar (VByteString s) => Nat.eqb (str_len s) 10 | _ => false end);
   event_value_is (item "Time"%string) (fun v => match v with VtScalar (VDateTime _) => true | _ => false end);
   event_value_is (item "Severity"%string) (fun v => match v with VtScalar (VUInt16 n) => n =? 700 | _ => false end);
   event_value_is (item "Message"%string) (fun v => match v with VtScalar (VLocalizedText _ t) => streq (default [] t) (B "x") | _ => false end);
   event_value_is (item "EventType"%string) (fun v => match v with VtScalar (VNodeId n) => numeric n =? 2041 | _ => false end);
   event_value_is (item "SourceName"%string) (fun v => match v with VtScalar (VString _) => true | _ => false end);
   event_value_is (item "Nothing"%string) (fun v => match v with VtEmpty => true | _ => false end);
   match cJSON_Parse bogus_text with
   | Some j => match hev_event_value 256 j with Some (Err _) => true | _ => false end
   | None => false
   end].

Definition hev_selftest : Z := if forallb (fun t => t) (select_tests ++ name_tests ++ where_tests ++ value_tests) then 0 else 1.

Definition cmd_test (argv : list bytes) : Z := hev_selftest.
End SelfTest.

(** * validate-fixture and main *)

Section Program.
Context {stack : UaStack} {cj : CJson} {cpu : Cpu} {enc : UaCodec} {types : TypeTable} {len : CJsonLength} {net : NetworkMessages}
  {tz : LocalTime} {W : Type} {cw : ClientWorld W} {H : ServerHost W} {ssl : OpenSsl W} {papi : PubSubApi W} {psrv : PubSubServer W}.
Context (getenv : bytes -> option bytes).

(** The exit code and the line on stdout. *)
Definition cmd_validate_fixture (w : W) (argv : list bytes) : Z * bytes :=
  match nonempty (match find_arg argv (B "--fixture") with Some p => Some p | None => getenv (B "OPCUA_FIXTURE") end) with
  | None => (1, [])
  | Some path =>
      match load_fixture w path with
      | Err _ => (1, [])
      | Ok f => (0, B "OK id=" ++ default (B "(null)") (fx_id f) ++ B " nodes=" ++ fmt_u (Z.of_nat (length (nodes f)))
                    ++ B " behaviors=" ++ fmt_u (Z.of_nat (length (behaviors f))) ++ [10])
      end
  end.

Definition server_main (fuel : nat) (argv : list bytes) : action W ending :=
  match server_parse_args getenv argv 512 with
  | Err _ => pure (Exit 2)
  | Ok args => server_run fuel args
  end.

(** The whole program; [alarms] and [push] are build options. *)
Definition program (alarms push : bool) (fuel rounds : nat) (w : W) (argv : list bytes) : outcome W :=
  match main argv with
  | inr code => Exits w code []
  | inl (SubServer, rest) =>
      match server_main fuel rest (w, []) with
      | ((w, _), Exit code) => Exits w code []
      | (_, Crash) => OutOfBounds
      | (_, ServerRun.NoFuel) => Session.NoFuel
      end
  | inl (SubClient, rest) => client_main fuel rounds w rest
  | inl (SubValidateFixture, rest) => let '(code, out) := cmd_validate_fixture w rest in Exits w code out
  | inl (SubPrintCapabilities, _) => Exits w 0 (cmd_print_capabilities alarms push)
  | inl (SubTest, rest) => Exits w (cmd_test rest) []
  end.

(** * Lemmas *)

(** validate-fixture accepts exactly the files the server starts from. *)
Lemma validate_predicts_server w path fuel args : path <> [] -> fixturePath args = Some path ->
  fst (cmd_validate_fixture w [B "--fixture"; path]) = 0 <-> exists fx, load_fixture w path = Ok fx /\
    server_run fuel args (w, []) = run_fixture fuel args fx (w, []).
Proof.
  intros Hp Ha. unfold cmd_validate_fixture. cbn [find_arg]. rewrite streq_refl. cbn [nonempty].
  destruct path as [|c p]; [now elim Hp|]. cbn [nonempty]. unfold server_run, andthen, look. rewrite Ha. cbn [default fst].
  destruct (load_fixture w (c :: p)) as [fx|msg].
  - split; [intros _; now exists fx|reflexivity].
  - split; [discriminate|intros (fx & E & _); discriminate E].
Qed.

(** The path of a fixture without the flag is not looked at. *)
Lemma positional_path_ignored w path : getenv (B "OPCUA_FIXTURE") = None -> cmd_validate_fixture w [path] = (1, []).
Proof. intros E. unfold cmd_validate_fixture. cbn [find_arg]. now rewrite E. Qed.

(** * Capabilities *)

(** A JSON text without the white space between its tokens. *)
Fixpoint minify (inside : bool) (s : bytes) : bytes :=
  match s with
  | [] => []
  | 92 :: c :: r => 92 :: c :: minify inside r
  | c :: r => if c =? 34 then c :: minify (negb inside) r
              else if jws c && negb inside then minify inside r else c :: minify inside r
  end.

(** The strings of an array member of an object. *)
Definition string_list (doc : cjson) (k : string) : option (list bytes) :=
  match doc with
  | CObject l => match find (fun m => streq (fst m) (B k)) l with Some (_, CArray items) => as_strings items | _ => None end
  | _ => None
  end.

Lemma dispatch_commands : NoDup (map fst dispatch_table) /\ NoDup (map snd dispatch_table).
Proof.
  split; vm_compute;
    repeat (apply NoDup_cons; [intros Hi; repeat (destruct Hi as [Hi|Hi]; [discriminate Hi|]); exact Hi|]); apply NoDup_nil.
Qed.

Lemma find_name {A} (table : list (bytes * A)) name : match find (fun p => streq name (fst p)) table with
  | Some (n, c) => n = name /\ In (name, c) table
  | None => ~ In name (map fst table)
  end.
Proof.
  induction table as [|[n c] r IH]; cbn [find map fst]; [tauto|]. destruct (streq name n) eqn:E.
  - apply streq_eq in E as ->. split; [reflexivity|now left].
  - destruct (find _ r) as [[m d]|]; [destruct IH; split; [assumption|now right]|].
    intros [->|Hi]; [now rewrite streq_refl in E|auto].
Qed.

(** C37: print-capabilities prints, for each combination of build options, one JSON
    text; read back, its member clientOperations lists names, without repetition, that
    are exactly the subcommands client_run dispatches, each to a command of its own;
    every other name is refused with exit code 2. *)
Theorem capabilities_match_dispatch alarms push fuel rounds (w : W) prog : exists text doc ops,
  program alarms push fuel rounds w [prog; B "print-capabilities"] = Exits w 0 text /\ is_json text = true /\
  read_document (minify false text) = Some doc /\ string_list doc "clientOperations" = Some ops /\ NoDup ops /\
  NoDup (map snd dispatch_table) /\
  forall name args, match client_run (prog :: name :: args) with
    | Run c _ rest => In name ops /\ In (name, c) dispatch_table /\ rest = name :: args
    | Usage code => ~ In name ops /\ code = 2
    end.
Proof.
  exists (cmd_print_capabilities alarms push), (default CNull (read_document (minify false (cmd_print_capabilities alarms push)))), (map fst dispatch_table).
  split; [reflexivity|]. split; [destruct alarms, push; vm_compute; reflexivity|]. split; [destruct alarms, push; vm_compute; reflexivity|].
  split; [destruct alarms, push; vm_compute; reflexivity|]. destruct dispatch_commands as [H1 H2]. split; [exact H1|]. split; [exact H2|].
  intros name args. cbn [client_run]. pose proof (find_name dispatch_table name) as Hn.
  destruct (find _ dispatch_table) as [[n c]|]; cbn [snd]; [|now split]. destruct Hn as [-> Hn]. split; [|now split].
  now apply (in_map fst) in Hn.
Qed.
End Program.

(** The document as cJSON gives it. *)
Definition selftest_json : cjson :=
  let typed (t : string) v := CObject [(B "type", CString (B t)); (B "value", v)] in
  CObject [(B "EventId", typed "ByteString"%string (CString (B "aGlzdC1ldnQtMA==")));
           (B "Time", typed "DateTime"%string (CString (B "2026-07-24T10:00:00Z")));
           (B "Severity", typed "UInt16"%string (CNumber (double_of false 700 0) 700));
           (B "Message", typed "LocalizedText"%string (CObject [(B "text", CString (B "x"))]));
           (B "EventType", typed "NodeId"%string (CString (B "i=2041")));
           (B "SourceName", CString (B "src")); (B "Nothing", CNull)].

Definition selftest_cjson : CJson :=
  {| cJSON_Parse := fun s => if streq s selftest_text then Some selftest_json
                             else if streq s bogus_text then Some (CObject [(B "type", CString (B "Bogus")); (B "value", CNumber (double_of false 1 0) 1)])
                             else None;
     cJSON_ParseError := cJSON_ParseError; cJSON_GetObjectItemCaseSensitive := cJSON_GetObjectItemCaseSensitive;
     cJSON_PrintUnformatted := cJSON_PrintUnformatted; cJSON_GetObjectItem := cJSON_GetObjectItem |}.

(** The tests the program carries pass on its model. *)
Lemma selftest_passes : hev_selftest (cj := selftest_cjson) = 0.
Proof. vm_compute. reflexivity. Qed.
